(* ===== verification/_CoqProject ===== *)
-Q . S2P
Prelude.v
Crc.v
Cid.v
Bits.v
Encoding.v
Context.v
Cursor.v
Chains.v
EmitIr.v
DecodeIr.v
StandardIr.v
DecodeIrDyn.v
Safety.v
IrProperties.v
PrivateFo.v
Lla.v
Compressor.v
Decompressor.v
EndToEnd.v
Link.v
Transactions.v
LlaSync.v
Feedback.v
FeedbackV1.v
FeedbackPackets.v
Packets.v
Tunnel.v
Ppp.v
RtpFo.v
Sha256.v
IpsecChannel.v
FormalCo.v
FormalCoExact.v
PacketImage.v
CompactGuards.v
CompressApi.v
EmitSafety.v
CompressFaithful.v
DecompressApi.v
Channel.v
ReceiveSafe.v
DecompressSafe.v
Segmentation.v
FirstPacket.v
ChannelSafe.v
SecurityAssociation.v
IntegritySafe.v
