(* ===== verification/Prelude.v ===== *)
(** * rohccxx: a verification development

    rohccxx is a C++ library for Robust Header Compression.  A [Compressor]
    turns IPv4/UDP/RTP packets into ROHC packets; a [Decompressor] turns them
    back; both keep one [Context] per context identifier in a [ContextTable].
    Under them lie the packet formats: emitters and decoders of IR, IR-DYN and
    first-order packets for several profiles, built from header chains, field
    encodings, CRCs and CID encodings.  The link-layer assisted profile lets
    both ends drop the header altogether.  Around them, a received packet is
    told apart by its first octets, feedback from the decompressor moves the
    compressor's context, PPP peers and IPsec peers negotiate the channel, ROHC
    over IPsec appends an integrity check value, and an example program frames
    compressed packets into a tunnel.  The compressed formats of RFC 5225 have
    emitters and decoders of their own.

    ** Files, and the code they model (paths under src/)

    - [Prelude]: octets and machine words, the three outcomes of a call, the
      state monad, weakest preconditions, memory accesses, tactics.
    - [Crc]: include/rohccxx/utils/crc.hpp.
    - [Cid]: core/cid.hpp.  [Bits]: core/bit_reader.hpp, bit_writer.hpp,
      bit_crc.hpp.
    - [Encoding]: core/encoding_methods.hpp, lsb_window.hpp.
    - [Context]: core/context.hpp, context_table.hpp, context_init.hpp,
      context_crc.hpp, profile.hpp.
    - [Cursor]: how emitters append and decoders advance (the pointers [p], [end]
      and [pos] of the source).  [Chains]: core/rfc5225_chains.hpp.
    - [EmitIr]: core/emit_ir.hpp, emit_ir_dyn.hpp, emit_uncompressed.hpp.
      [DecodeIr]: core/decode_ir.hpp.  [DecodeIrDyn]: core/decode_ir_dyn.hpp.
    - [PrivateFo]: core/private_udp_fo_crc.hpp and the emit/decode files of the
      ESP, IP, UDP and UDP-Lite first-order packets.
    - [Lla]: core/lla.hpp.
    - [Compressor], [Decompressor]: src/core/compressor.cpp, decompressor.cpp.
    - [RtpFo]: core/emit_rtp_fo.hpp, decode_fo.hpp.
    - [Feedback]: core/feedback.hpp.
    - [Packets]: core/packet_type.hpp, segment.hpp, classify.hpp and
      include/rohccxx/protocols/.
    - [Tunnel]: examples/linux_tun_tunnel/tunnel_protocol.cpp.
    - [Ppp]: core/ppp.hpp.
    - [Sha256], [IpsecChannel]: core/rohcoipsec.hpp, the integrity check values
      and the channel negotiation.
    - [FormalCo]: core/formal_co.hpp.
    - src/c_api/rohc_c_api.cpp: [PacketImage], the packets captured into a context
      and built from one; [CompactGuards], when a compact packet may be sent;
      [CompressApi], the part of rohc_compress4 that works on one context;
      [DecompressApi], rohc_decompress4; [Channel], the two handles: how they are
      made and configured, check values, segments, feedback and LLA calls;
      [SecurityAssociation], the ROHCoIPsec calls: the structures, the keys and
      the security associations applied to the handles.

    The other files hold theorems about these: [StandardIr], [Safety] and
    [IrProperties] on IR packets, [EndToEnd], [Link], [Transactions] and
    [LlaSync] on the two objects together, [FeedbackV1] and [FeedbackPackets]
    on the two feedback formats, [FormalCoExact] on what the decoders of the
    formal formats accept, [EmitSafety] and [CompressFaithful] on what
    rohc_compress4 sends, [ReceiveSafe] and [DecompressSafe] on what
    rohc_decompress4 does with any octets, [Segmentation] on packets sent in
    segments, [FirstPacket] on the two of them together, [ChannelSafe] on the
    handles under any calls, [IntegritySafe] on what is delivered where a check
    value is asked for.  What one component promises another is a class where
    two implementations meet it: [SafeCodec] in [Tunnel], which the
    compressor and the decompressor discharge, and [Appender] in [IpsecChannel],
    which the two bounded lists of a channel discharge.

    ** How code becomes definitions

    A [uint8_t] buffer is a [list Z] of octets and its length its length; sized
    integers are [Z] with their wrap-around written ([u16], [u32], [usub]).
    [outcome] has a value, a refusal ([return false], [-1]) and undefined
    behaviour: an access outside a buffer is [Ub], so that proving a result other
    than [Ub] proves memory safety.  A function that mutates state runs in
    [M S A], which keeps through a refusal what was stored before it.  Structs
    are records with the source's fields, fixed arrays lists of their length;
    [context_ok] says every field is within its C++ type.  An emitter's state is
    what it has written and its capacity; a decoder's is its position and the
    context.

    ** What is shown

    - The link as a whole ([Link], [LlaSync]): over CID 0 a decompressor delivers
      exactly the packets the compressor was given, or refuses - it never
      delivers another one; it loses none when the octets of the header rule
      out the older format it also tries; once two packets of a link got through
      both ends can run without sending headers; context packets synchronise
      and compare them.
    - The objects under any calls on any octets ([Transactions]): no undefined
      behaviour, invariants of the contexts and of the contract, the state
      machine NoContext, StaticEstablished, DynamicEstablished never going back,
      calls that fail leaving the object unchanged; the refusal of every packet
      on CIDs 1 to 15.
    - Packet formats ([IrProperties], [PrivateFo]): the emitters' exact output,
      round trips, the agreement of the two readings, memory safety of all
      decoders, rejection of corrupted or foreign first-order packets.  The RTP
      first-order packet ([RtpFo]) takes every sequence number and timestamp in
      reach across, from a dirty buffer too.
    - Feedback ([FeedbackV1], [FeedbackPackets]): the ring of transmitted numbers
      against a log of all packets, the exchange of an acknowledgment over the
      wire, corruption, the gate a replaced profile waits behind, and what runs
      of NACKs do.
    - Around the formats: the packet parser recognises what the emitters write
      and stays inside its input ([Packets]); two PPP options merge into the
      union of their profiles ([Ppp]); what one IPsec peer announces another
      reads back, and what two of them agree on is given exactly
      ([IpsecChannel]); SHA-256 hashes the padded message block by block, and a
      check value is accepted exactly if it is the one appended ([Sha256]); a
      flow of the tunnel keeps its CID, and no other flow gets it, while at most
      15 others are active, and what a tunnel delivers is what was sent
      ([Tunnel]).
    - The formal compressed formats ([FormalCo], [FormalCoExact]): what the
      emitters write for each of the eleven formats is read back in full, the
      decoders accept exactly the octets an emitter writes, and the two decoders
      of the shortest formats agree but for one octet.
    - The C API's compressor ([CompressFaithful], [PacketImage]): on any packet, in
      any well-formed context, a call stays inside its buffers and leaves a
      well-formed context, and the context it leaves rebuilds the packet around
      what was sent of it, if the packet's lengths and IPv4 checksum are right;
      the CRC of a compact packet is taken over the header
      the receiver delivers; the incremental UDP checksum is RFC 768's.
    - The handles of the C API ([ChannelSafe], [DecompressSafe], [Segmentation],
      [FirstPacket]): whatever is called in whatever order they stay well formed
      and no call leaves its buffers; a refused packet changes no context; on a
      channel of small CIDs a packet sent in segments is answered as the whole
      one is, while one of large CIDs refuses the segments whose number is no
      CID of the channel; the first packet of a flow is delivered as it was
      given, or refused where an older format reads the same octets or an RTP
      packet finds the extras of an earlier one in its context.
    - Integrity ([SecurityAssociation], [IntegritySafe]): an association fits both
      ends, what one of them seals the other opens, and under an association
      neither rohc_decompress4 nor the call for context synchronisation packets
      delivers a packet whose check value did not arrive with it.  The call for
      packets without a header makes no check.
    - Building blocks ([Crc], [Cid], [Bits], [Encoding], [Lla]): tables against
      the bit-serial CRC, error detection, the CID and list round trips, the
      interpretation interval of LSB decoding, timestamp scaling, termination of
      the extension header walk, contract validation.

    ** Bounds and fuel

    [fold_fuel] is 3: a [uint32_t] folds to 16 bits in two rounds
    ([fold_carries_eq]).  The walks over IPv6 extension headers, PPP suboptions and
    feedback options have a fuel of the octets before them, and each round
    consumes some; the merge of two PPP options has the number of profiles, and
    the loops over IPsec attributes and SHA-256 blocks the octets of their input.
    [rohc_decompress4] calls itself on the segments it has put together; a packet
    whose end begins such a call has at least one octet after the header of two,
    so 2048, half of the reassembly buffer, is enough ([decompress4_answers]).
    The emitters' scratch buffers are those of the source (2048 octets for an IR
    packet, 512 for an LLA call, 64 for the context CRC, 1024 for the CRC of a
    received header) and are shown never to overflow.

    ** Not modelled

    Octets of an output buffer past the length reported; null pointers, which
    the calls test first; the mutex, a call being one atomic step; allocation
    failure.  The TUN device and the sockets of the tunnel program are
    input and output of the operating system, and the fuzz targets drive the
    code above.  The grammar tables of core/rfc5225_grammar.hpp are constant
    data no other file of the library reads.  Of the C API the
    wrappers that copy C structures in front of the calls of [Ppp] and [Lla]
    and the version and query functions are left out. *)

From Stdlib Require Export ZArith Lia Bool.
From stdpp Require Export base list option numbers.

#[global] Open Scope Z_scope.

(** ** Octets and machine words *)

(** A buffer is a list of octets; a [uint8_t] is a [Z] in [0, 256). *)
Abbreviation bytes := (list Z).

Definition byte_ok (b : Z) : Prop := 0 <= b < 256.
Definition bytes_ok (l : bytes) : Prop := Forall byte_ok l.
Definition blen (l : bytes) : Z := Z.of_nat (length l).

(** Conversions to the unsigned types of the source. *)
Definition u8 (z : Z) : Z := z mod 2 ^ 8.
Definition u16 (z : Z) : Z := z mod 2 ^ 16.
Definition u32 (z : Z) : Z := z mod 2 ^ 32.
Definition u64 (z : Z) : Z := z mod 2 ^ 64.

(** Subtraction of [size_t] values, which wraps around. *)
Definition usub (a b : Z) : Z := u64 (a - b).

Definition size_ok (n : Z) : Prop := 0 <= n < 2 ^ 63.

(** ** Outcomes: a value, a refusal ([return false]), undefined behaviour *)

Inductive outcome (A : Type) : Type :=
| Ok (a : A)
| Rej
| Ub.
Arguments Ok {A} a.
Arguments Rej {A}.
Arguments Ub {A}.

Definition obind {A B} (m : outcome A) (k : A -> outcome B) : outcome B :=
  match m with Ok a => k a | Rej => Rej | Ub => Ub end.

Definition oguard (b : bool) : outcome unit := if b then Ok tt else Rej.

Declare Scope rohc_scope.
Delimit Scope rohc_scope with rohc.
Notation "'let!' x := m 'in' k" := (obind m (fun x => k))
  (at level 10, x pattern, m at level 100, k at level 200) : rohc_scope.
Notation "'check' b 'in' k" := (obind (oguard b) (fun _ => k))
  (at level 10, b at level 100, k at level 200) : rohc_scope.
#[global] Open Scope rohc_scope.

(** ** Operations that carry a mutable state through a refusal *)

Definition M (S A : Type) : Type := S -> outcome A * S.

Definition ret {S A} (a : A) : M S A := fun s => (Ok a, s).
Definition bind {S A B} (m : M S A) (k : A -> M S B) : M S B :=
  fun s => match m s with
           | (Ok a, s') => k a s'
           | (Rej, s') => (Rej, s')
           | (Ub, s') => (Ub, s')
           end.
Definition lift {S A} (o : outcome A) : M S A := fun s => (o, s).
Definition guard {S} (b : bool) : M S unit := lift (oguard b).
Definition gets {S A} (f : S -> A) : M S A := fun s => (Ok (f s), s).
Definition modify {S} (f : S -> S) : M S unit := fun s => (Ok tt, f s).

Notation "x <- m ;; k" := (bind m (fun x => k))
  (at level 100, m at next level, right associativity) : rohc_scope.
Notation "m ;;; k" := (bind m (fun _ => k))
  (at level 100, right associativity) : rohc_scope.

(** ** Memory accesses *)

(** [l[i]]; an access outside the buffer is undefined behaviour. *)
Definition rd (l : bytes) (i : Z) : outcome Z :=
  if i <? 0 then Ub
  else match l !! Z.to_nat i with Some b => Ok b | None => Ub end.

(** The [n] octets at offset [off], the source range of a [memcpy]. *)
Definition slice (l : bytes) (off n : Z) : outcome bytes :=
  if (off <? 0) || (n <? 0) || (blen l <? off + n) then Ub
  else Ok (take (Z.to_nat n) (drop (Z.to_nat off) l)).

(** The buffer that starts at offset [off], with all that follows. *)
Definition tail_from (l : bytes) (off : Z) : outcome bytes :=
  if (off <? 0) || (blen l <? off) then Ub else Ok (drop (Z.to_nat off) l).

(** [memcpy(dst, src, |src|)] into a fixed array. *)
Definition overwrite (dst src : bytes) : outcome bytes :=
  if (length dst <? length src)%nat then Ub
  else Ok (src ++ drop (length src) dst).

(** Big-endian loads and stores, as every wire format of the source has them. *)
Definition rd_u16 (l : bytes) (i : Z) : outcome Z :=
  let! a := rd l i in
  let! b := rd l (i + 1) in
  Ok (Z.lor (Z.shiftl a 8) b).

Definition rd_u32 (l : bytes) (i : Z) : outcome Z :=
  let! a := rd l i in
  let! b := rd l (i + 1) in
  let! c := rd l (i + 2) in
  let! d := rd l (i + 3) in
  Ok (Z.lor (Z.lor (Z.lor (Z.shiftl a 24) (Z.shiftl b 16)) (Z.shiftl c 8)) d).

Definition be16 (v : Z) : bytes := [u8 (Z.shiftr v 8); Z.land v 255].
Definition be32 (v : Z) : bytes :=
  [u8 (Z.shiftr v 24); u8 (Z.shiftr v 16); u8 (Z.shiftr v 8); Z.land v 255].

(** * Lemmas and automation shared by the components *)

(** ** Words *)

Lemma usub_small a b : 0 <= b <= a -> a < 2 ^ 64 -> usub a b = a - b.
Proof. intros. unfold usub, u64. apply Z.mod_small. lia. Qed.

Lemma lor_disjoint_add a b n :
  0 <= n -> 0 <= b < 2 ^ n -> Z.lor (Z.shiftl a n) b = a * 2 ^ n + b.
Proof.
  intros Hn Hb. rewrite <- Z.shiftl_mul_pow2 by done.
  assert (Hd : Z.land (Z.shiftl a n) b = 0).
  { apply Z.bits_inj'. intros i Hi. rewrite Z.land_spec, Z.bits_0.
    destruct (decide (i < n)).
    - by rewrite Z.shiftl_spec_low.
    - rewrite <- (Z.mod_small b (2 ^ n)) by done.
      rewrite Z.mod_pow2_bits_high by lia. by rewrite andb_false_r. }
  rewrite <- Z.lxor_lor by done. by rewrite Z.add_nocarry_lxor.
Qed.

Lemma land_ones_mod v n : 0 <= n -> Z.land v (Z.ones n) = v mod 2 ^ n.
Proof. intros. by apply Z.land_ones. Qed.

Lemma land_255 v : Z.land v 255 = v mod 256.
Proof. change 255 with (Z.ones 8). by rewrite Z.land_ones. Qed.

(** What a mask leaves is at most the mask. *)
Lemma land_range x m : 0 <= m -> 0 <= Z.land x m <= m.
Proof.
  intros Hm. split; [apply Z.land_nonneg; lia|].
  assert (E : m - Z.land x m = Z.ldiff m (Z.land x m)).
  { apply Z.sub_nocarry_ldiff. apply Z.bits_inj'. intros i Hi.
    rewrite Z.ldiff_spec, Z.land_spec, Z.bits_0. by destruct (Z.testbit x i), (Z.testbit m i). }
  assert (0 <= Z.ldiff m (Z.land x m)) by (apply Z.ldiff_nonneg; lia). lia.
Qed.

Lemma lor_range n a b :
  0 <= n -> 0 <= a < 2 ^ n -> 0 <= b < 2 ^ n -> 0 <= Z.lor a b < 2 ^ n.
Proof.
  intros Hn Ha Hb. rewrite <- (Z.mod_small a (2 ^ n)), <- (Z.mod_small b (2 ^ n)) by done.
  rewrite <- !Z.land_ones, <- Z.land_lor_distr_l, Z.land_ones by done.
  apply Z.mod_pos_bound. lia.
Qed.

Lemma lor_byte a b : byte_ok a -> byte_ok b -> byte_ok (Z.lor a b).
Proof. unfold byte_ok. intros. apply (lor_range 8); lia. Qed.

Lemma byte_u8 v : byte_ok (u8 v).
Proof. unfold byte_ok, u8. apply (Z.mod_pos_bound v 256). lia. Qed.

Lemma byte_land_255 v : byte_ok (Z.land v 255).
Proof. rewrite land_255. apply (Z.mod_pos_bound v 256). lia. Qed.

Lemma u8_small v : byte_ok v -> u8 v = v.
Proof. intros. by apply Z.mod_small. Qed.

(** A property of every octet, decided by evaluating it on all of them. *)
Definition all_bytes : list Z := map Z.of_nat (seq 0 256).

Lemma all_bytes_in b : byte_ok b -> In b all_bytes.
Proof.
  intros [H0 H1]. unfold all_bytes. apply in_map_iff.
  exists (Z.to_nat b). rewrite in_seq. lia.
Qed.

Lemma byte_forall (P : Z -> bool) :
  forallb P all_bytes = true -> forall b, byte_ok b -> P b = true.
Proof. intros H b Hb. rewrite forallb_forall in H. by apply H, all_bytes_in. Qed.

(** ** Buffers *)

Lemma blen_nonneg l : 0 <= blen l.
Proof. unfold blen. lia. Qed.

Lemma blen_app l1 l2 : blen (l1 ++ l2) = blen l1 + blen l2.
Proof. unfold blen. rewrite length_app. lia. Qed.

Lemma blen_cons b l : blen (b :: l) = 1 + blen l.
Proof. unfold blen. rewrite length_cons. lia. Qed.

Lemma blen_nil : blen [] = 0.
Proof. reflexivity. Qed.

Lemma blen_be16 v : blen (be16 v) = 2.
Proof. reflexivity. Qed.

Lemma blen_be32 v : blen (be32 v) = 4.
Proof. reflexivity. Qed.

Create Rewrite HintDb blen.
#[export] Hint Rewrite blen_app blen_cons blen_nil blen_be16 blen_be32 : blen.

Lemma bytes_ok_app l1 l2 : bytes_ok (l1 ++ l2) <-> bytes_ok l1 /\ bytes_ok l2.
Proof. apply Forall_app. Qed.

Lemma bytes_ok_cons b l : bytes_ok (b :: l) <-> byte_ok b /\ bytes_ok l.
Proof. apply Forall_cons_iff. Qed.

Lemma bytes_ok_nil : bytes_ok [].
Proof. constructor. Qed.

Lemma bytes_ok_be16 v : bytes_ok (be16 v).
Proof. repeat constructor; (apply byte_u8 || apply byte_land_255). Qed.

Lemma bytes_ok_be32 v : bytes_ok (be32 v).
Proof. repeat constructor; (apply byte_u8 || apply byte_land_255). Qed.

Lemma bytes_ok_take n l : bytes_ok l -> bytes_ok (take n l).
Proof. apply Forall_take. Qed.

Lemma bytes_ok_drop n l : bytes_ok l -> bytes_ok (drop n l).
Proof. apply Forall_drop. Qed.

Create HintDb rohc.
#[export] Hint Resolve blen_nonneg byte_u8 byte_land_255 bytes_ok_nil bytes_ok_be16
  bytes_ok_be32 bytes_ok_take bytes_ok_drop : rohc.

Lemma rd_in_range l i : 0 <= i < blen l -> exists b, rd l i = Ok b /\ (bytes_ok l -> byte_ok b).
Proof.
  intros [H0 H1]. unfold rd, blen in *. destruct (Z.ltb_spec i 0); [lia|].
  destruct (lookup_lt_is_Some_2 l (Z.to_nat i)) as [b Hb]; [lia|].
  rewrite Hb. exists b. split; [done|]. intros Hl. by eapply Forall_lookup_1.
Qed.

Lemma rd_app pre l k : 0 <= k -> rd (pre ++ l) (blen pre + k) = rd l k.
Proof.
  intros Hk. unfold rd, blen.
  destruct (Z.ltb_spec (Z.of_nat (length pre) + k) 0); [lia|].
  destruct (Z.ltb_spec k 0); [lia|].
  rewrite lookup_app_r by lia. f_equal.
  by replace (Z.to_nat (Z.of_nat (length pre) + k) - length pre)%nat with (Z.to_nat k) by lia.
Qed.

Lemma rd_app_0 pre b l : rd (pre ++ b :: l) (blen pre) = Ok b.
Proof. rewrite <- (Z.add_0_r (blen pre)). by rewrite rd_app by lia. Qed.

Lemma rd_app_l pre l i : i < blen pre -> rd (pre ++ l) i = rd pre i.
Proof.
  intros Hi. unfold rd, blen in *. destruct (Z.ltb_spec i 0); [done|].
  by rewrite lookup_app_l by lia.
Qed.

Lemma rd_cons_S b l k : 0 <= k -> rd (b :: l) (k + 1) = rd l k.
Proof. intros. rewrite (Z.add_comm k 1). by apply (rd_app [b] l k). Qed.

Lemma slice_app pre l n :
  0 <= n <= blen l -> slice (pre ++ l) (blen pre) n = Ok (take (Z.to_nat n) l).
Proof.
  intros Hn. unfold slice. rewrite blen_app.
  pose proof (blen_nonneg pre).
  destruct (Z.ltb_spec (blen pre) 0); [lia|].
  destruct (Z.ltb_spec n 0); [lia|].
  destruct (Z.ltb_spec (blen pre + blen l) (blen pre + n)); [lia|]. simpl.
  unfold blen. by rewrite Nat2Z.id, drop_app_length.
Qed.

Lemma slice_exact pre l post n :
  n = blen l -> slice (pre ++ l ++ post) (blen pre) n = Ok l.
Proof.
  intros ->. rewrite slice_app by (rewrite blen_app; pose proof (blen_nonneg l);
    pose proof (blen_nonneg post); lia).
  unfold blen. by rewrite Nat2Z.id, take_app_length.
Qed.

Lemma slice_in_range l off n :
  0 <= off -> 0 <= n -> off + n <= blen l ->
  exists s, slice l off n = Ok s /\ blen s = n /\ (bytes_ok l -> bytes_ok s).
Proof.
  intros. unfold slice.
  destruct (Z.ltb_spec off 0); [lia|]. destruct (Z.ltb_spec n 0); [lia|].
  destruct (Z.ltb_spec (blen l) (off + n)); [lia|]. simpl.
  eexists; split; [done|]. split.
  - unfold blen in *. rewrite length_take, length_drop. lia.
  - intros. by apply bytes_ok_take, bytes_ok_drop.
Qed.

Lemma rd_nth (l : bytes) i : 0 <= i < blen l -> rd l i = Ok (nth (Z.to_nat i) l 0).
Proof.
  intros H. unfold rd, blen in *. rewrite (proj2 (Z.ltb_ge i 0)) by lia.
  destruct (nth_lookup_or_length l (Z.to_nat i) 0) as [-> |]; [done|lia].
Qed.

Lemma slice_eq l off n :
  0 <= off -> 0 <= n -> off + n <= blen l ->
  slice l off n = Ok (take (Z.to_nat n) (drop (Z.to_nat off) l)).
Proof.
  intros. unfold slice. destruct (Z.ltb_spec off 0); [lia|]. destruct (Z.ltb_spec n 0); [lia|].
  by destruct (Z.ltb_spec (blen l) (off + n)); [lia|].
Qed.

Lemma tail_from_app pre l : tail_from (pre ++ l) (blen pre) = Ok l.
Proof.
  unfold tail_from. rewrite blen_app. pose proof (blen_nonneg pre). pose proof (blen_nonneg l).
  destruct (Z.ltb_spec (blen pre) 0); [lia|].
  destruct (Z.ltb_spec (blen pre + blen l) (blen pre)); [lia|]. simpl.
  unfold blen. by rewrite Nat2Z.id, drop_app_length.
Qed.

Lemma tail_from_in_range l off :
  0 <= off <= blen l ->
  exists t, tail_from l off = Ok t /\ blen t = blen l - off /\ (bytes_ok l -> bytes_ok t).
Proof.
  intros. unfold tail_from.
  destruct (Z.ltb_spec off 0); [lia|]. destruct (Z.ltb_spec (blen l) off); [lia|]. simpl.
  eexists; split; [done|]. split.
  - unfold blen in *. rewrite length_drop. lia.
  - intros. by apply bytes_ok_drop.
Qed.

(** ** Big-endian round trips *)

Lemma combine16 a b : byte_ok b -> Z.lor (Z.shiftl a 8) b = a * 256 + b.
Proof. intros. by rewrite lor_disjoint_add. Qed.

Lemma combine32 a b c d :
  byte_ok b -> byte_ok c -> byte_ok d ->
  Z.lor (Z.lor (Z.lor (Z.shiftl a 24) (Z.shiftl b 16)) (Z.shiftl c 8)) d =
  ((a * 256 + b) * 256 + c) * 256 + d.
Proof.
  intros Hb Hc Hd. unfold byte_ok in *.
  replace (Z.shiftl a 24) with (Z.shiftl (Z.shiftl a 8) 16) by (by rewrite Z.shiftl_shiftl).
  rewrite <- Z.shiftl_lor, combine16 by done.
  replace (Z.shiftl (a * 256 + b) 16) with (Z.shiftl (Z.shiftl (a * 256 + b) 8) 8)
    by (by rewrite Z.shiftl_shiftl).
  rewrite <- Z.shiftl_lor, combine16 by done. by rewrite combine16.
Qed.

Lemma be16_value v : 0 <= v < 2 ^ 16 -> u8 (Z.shiftr v 8) * 256 + Z.land v 255 = v.
Proof.
  intros. rewrite land_255. unfold u8. rewrite Z.shiftr_div_pow2 by lia.
  change (2 ^ 8) with 256 in *. change (2 ^ 16) with (256 * 256) in *.
  rewrite (Z.mod_small (v / 256)); [pose proof (Z.div_mod v 256); lia|].
  split; [apply Z.div_pos; lia|]. apply Z.div_lt_upper_bound; lia.
Qed.

Lemma be32_value v : 0 <= v < 2 ^ 32 ->
  ((u8 (Z.shiftr v 24) * 256 + u8 (Z.shiftr v 16)) * 256 + u8 (Z.shiftr v 8)) * 256 +
  Z.land v 255 = v.
Proof.
  intros. rewrite land_255. unfold u8. rewrite !Z.shiftr_div_pow2 by lia.
  change (2 ^ 8) with 256 in *. change (2 ^ 16) with (256 * 256) in *.
  change (2 ^ 24) with (256 * (256 * 256)) in *.
  change (2 ^ 32) with (256 * (256 * (256 * 256))) in *.
  rewrite <- !Z.div_div by lia. Z.div_mod_to_equations. lia.
Qed.

Lemma rd_u16_be16 pre v post :
  0 <= v < 2 ^ 16 -> rd_u16 (pre ++ be16 v ++ post) (blen pre) = Ok v.
Proof.
  intros Hv. unfold rd_u16, be16. simpl app. rewrite rd_app_0, rd_app by lia. simpl.
  rewrite combine16 by auto with rohc. by rewrite be16_value.
Qed.

Lemma rd_u32_be32 pre v post :
  0 <= v < 2 ^ 32 -> rd_u32 (pre ++ be32 v ++ post) (blen pre) = Ok v.
Proof.
  intros Hv. unfold rd_u32, be32. simpl app. rewrite rd_app_0, !rd_app by lia. simpl.
  rewrite combine32 by auto with rohc. by rewrite be32_value.
Qed.

Lemma rd_u16_in_range l i :
  0 <= i -> i + 2 <= blen l ->
  exists v, rd_u16 l i = Ok v /\ (bytes_ok l -> 0 <= v < 2 ^ 16).
Proof.
  intros. unfold rd_u16.
  destruct (rd_in_range l i) as (a & -> & Ha); [lia|].
  destruct (rd_in_range l (i + 1)) as (b & -> & Hb); [lia|]. simpl.
  eexists; split; [done|]. intros Hl. specialize (Ha Hl). specialize (Hb Hl).
  rewrite combine16 by done. unfold byte_ok in *. lia.
Qed.

Lemma rd_u32_in_range l i :
  0 <= i -> i + 4 <= blen l ->
  exists v, rd_u32 l i = Ok v /\ (bytes_ok l -> 0 <= v < 2 ^ 32).
Proof.
  intros. unfold rd_u32.
  destruct (rd_in_range l i) as (a & -> & Ha); [lia|].
  destruct (rd_in_range l (i + 1)) as (b & -> & Hb); [lia|].
  destruct (rd_in_range l (i + 2)) as (c & -> & Hc); [lia|].
  destruct (rd_in_range l (i + 3)) as (d & -> & Hd); [lia|]. simpl.
  eexists; split; [done|]. intros Hl.
  specialize (Ha Hl). specialize (Hb Hl). specialize (Hc Hl). specialize (Hd Hl).
  rewrite combine32 by done. unfold byte_ok in *. lia.
Qed.

(** ** The output cursor *)

(** The state of an emitter: the octets written so far through the cursor
    pointer, and the capacity of the buffer. *)
Record wst := { w_out : bytes; w_cap : Z }.

(** [*p++ = b] for each octet of [bs]; writing past the end is undefined. *)
Definition puts (bs : bytes) : M wst unit := fun s =>
  if blen (w_out s) + blen bs <=? w_cap s
  then (Ok tt, {| w_out := w_out s ++ bs; w_cap := w_cap s |})
  else (Ub, s).
Definition put (b : Z) : M wst unit := puts [b].

(** [static_cast<size_t>(end - p)]. *)
Definition room (s : wst) : Z := w_cap s - blen (w_out s).

(** [*crc_pos = v] at an octet already written. *)
Definition patch (i v : Z) : M wst unit := fun s =>
  if (i <? 0) || (blen (w_out s) <=? i) then (Ub, s)
  else (Ok tt, {| w_out := <[Z.to_nat i := v]> (w_out s); w_cap := w_cap s |}).

(** ** Weakest preconditions *)

Section WeakestPrecondition.
Context {S : Type}.

(** [wp m Q R s]: from [s] the operation [m] has no undefined behaviour; it
    returns with [Q], or refuses with [R]. *)
Definition wp {A} (m : M S A) (Q : A -> S -> Prop) (R : S -> Prop) (s : S) : Prop :=
  match m s with
  | (Ok a, s') => Q a s'
  | (Rej, s') => R s'
  | (Ub, _) => False
  end.

Lemma wp_bind {A B} (m : M S A) (k : A -> M S B) Q R s :
  wp m (fun a => wp (k a) Q R) R s -> wp (bind m k) Q R s.
Proof. unfold wp, bind. by destruct (m s) as [[a| |] s']. Qed.

Lemma wp_ret {A} (a : A) (Q : A -> S -> Prop) R s : Q a s -> wp (ret a) Q R s.
Proof. done. Qed.

Lemma wp_gets {A} (f : S -> A) (Q : A -> S -> Prop) R s : Q (f s) s -> wp (gets f) Q R s.
Proof. done. Qed.

Lemma wp_modify (f : S -> S) (Q : unit -> S -> Prop) R s : Q tt (f s) -> wp (modify f) Q R s.
Proof. done. Qed.

Lemma wp_guard b (Q : unit -> S -> Prop) (R : S -> Prop) s :
  (b = true -> Q tt s) -> (b = false -> R s) -> wp (guard b) Q R s.
Proof. unfold wp, guard, lift. destruct b; simpl; auto. Qed.

Lemma wp_if {A} (b : bool) (m1 m2 : M S A) Q R s :
  (b = true -> wp m1 Q R s) -> (b = false -> wp m2 Q R s) ->
  wp (if b then m1 else m2) Q R s.
Proof. destruct b; auto. Qed.

Lemma wp_mono {A} (m : M S A) (Q Q' : A -> S -> Prop) (R R' : S -> Prop) s :
  (forall a s', Q a s' -> Q' a s') -> (forall s', R s' -> R' s') ->
  wp m Q R s -> wp m Q' R' s.
Proof. unfold wp. destruct (m s) as [[a| |] s']; auto. Qed.

Lemma wp_lift {A} (o : outcome A) (Q : A -> S -> Prop) (R : S -> Prop) s :
  match o with Ok a => Q a s | Rej => R s | Ub => False end -> wp (lift o) Q R s.
Proof. unfold wp, lift. by destruct o. Qed.

Lemma wp_rd l i (Q : Z -> S -> Prop) R s :
  0 <= i < blen l -> (forall b, (bytes_ok l -> byte_ok b) -> Q b s) ->
  wp (lift (rd l i)) Q R s.
Proof.
  intros Hi HQ. destruct (rd_in_range l i Hi) as (b & Hb & Hok).
  apply wp_lift. rewrite Hb. auto.
Qed.

Lemma wp_rd_u16 l i (Q : Z -> S -> Prop) R s :
  0 <= i -> i + 2 <= blen l -> (forall v, (bytes_ok l -> 0 <= v < 2 ^ 16) -> Q v s) ->
  wp (lift (rd_u16 l i)) Q R s.
Proof.
  intros H0 H1 HQ. destruct (rd_u16_in_range l i H0 H1) as (v & Hv & Hok).
  apply wp_lift. rewrite Hv. auto.
Qed.

Lemma wp_rd_u32 l i (Q : Z -> S -> Prop) R s :
  0 <= i -> i + 4 <= blen l -> (forall v, (bytes_ok l -> 0 <= v < 2 ^ 32) -> Q v s) ->
  wp (lift (rd_u32 l i)) Q R s.
Proof.
  intros H0 H1 HQ. destruct (rd_u32_in_range l i H0 H1) as (v & Hv & Hok).
  apply wp_lift. rewrite Hv. auto.
Qed.

Lemma wp_slice l off n (Q : bytes -> S -> Prop) R s :
  0 <= off -> 0 <= n -> off + n <= blen l ->
  (forall b, blen b = n -> (bytes_ok l -> bytes_ok b) -> Q b s) ->
  wp (lift (slice l off n)) Q R s.
Proof.
  intros H0 H1 H2 HQ. destruct (slice_in_range l off n H0 H1 H2) as (v & Hv & Hl & Hok).
  apply wp_lift. rewrite Hv. auto.
Qed.

Lemma wp_tail_from l off (Q : bytes -> S -> Prop) R s :
  0 <= off <= blen l ->
  (forall t, blen t = blen l - off -> (bytes_ok l -> bytes_ok t) -> Q t s) ->
  wp (lift (tail_from l off)) Q R s.
Proof.
  intros H0 HQ. destruct (tail_from_in_range l off H0) as (v & Hv & Hl & Hok).
  apply wp_lift. rewrite Hv. auto.
Qed.

Lemma bind_assoc {A B C} (m : M S A) (f : A -> M S B) (g : B -> M S C) s :
  bind (bind m f) g s = bind m (fun x => bind (f x) g) s.
Proof. unfold bind. by destruct (m s) as [[a| |] s']. Qed.

(** What a weakest precondition says of a run. *)
Lemma wp_no_ub {A} (m : M S A) Q R s : wp m Q R s -> fst (m s) <> Ub.
Proof. unfold wp. by destruct (m s) as [[a| |] s']. Qed.

Lemma bind_ok {A B} (m : M S A) (k : A -> M S B) s a s' :
  m s = (Ok a, s') -> bind m k s = k a s'.
Proof. unfold bind. by intros ->. Qed.
End WeakestPrecondition.

Lemma wp_puts bs (Q : unit -> wst -> Prop) R s :
  blen bs <= room s ->
  Q tt {| w_out := w_out s ++ bs; w_cap := w_cap s |} -> wp (puts bs) Q R s.
Proof.
  unfold wp, puts, room. intros.
  by destruct (Z.leb_spec (blen (w_out s) + blen bs) (w_cap s)); [|lia].
Qed.

Lemma puts_ok bs s :
  blen bs <= room s -> puts bs s = (Ok tt, {| w_out := w_out s ++ bs; w_cap := w_cap s |}).
Proof.
  unfold puts, room. intros.
  by destruct (Z.leb_spec (blen (w_out s) + blen bs) (w_cap s)); [|lia].
Qed.

(** Boolean tests of the code, as the propositions they decide. *)
Ltac bool_prop :=
  repeat match goal with
  | H : (_ && _) = true |- _ => apply andb_true_iff in H; destruct H
  | H : (_ || _) = false |- _ => apply orb_false_iff in H; destruct H
  | H : negb _ = true |- _ => apply negb_true_iff in H
  | H : negb _ = false |- _ => apply negb_false_iff in H
  | H : (_ =? _) = true |- _ => apply Z.eqb_eq in H
  | H : (_ =? _) = false |- _ => apply Z.eqb_neq in H
  | H : (_ <? _) = true |- _ => apply Z.ltb_lt in H
  | H : (_ <? _) = false |- _ => apply Z.ltb_ge in H
  | H : (_ <=? _) = true |- _ => apply Z.leb_le in H
  | H : (_ <=? _) = false |- _ => apply Z.leb_gt in H
  | H : bool_decide _ = true |- _ => apply bool_decide_eq_true in H
  | H : bool_decide _ = false |- _ => apply bool_decide_eq_false in H
  end.

(** One step of symbolic execution under [wp]. *)
Ltac wp_step :=
  lazymatch goal with
  | |- wp (bind _ _) _ _ _ => apply wp_bind
  | |- wp (ret _) _ _ _ => apply wp_ret
  | |- wp (gets _) _ _ _ => apply wp_gets
  | |- wp (modify _) _ _ _ => apply wp_modify
  | |- wp (guard _) _ _ _ => apply wp_guard; intros
  | |- wp (lift (rd _ _)) _ _ _ => apply wp_rd; [|intros]
  | |- wp (lift (rd_u16 _ _)) _ _ _ => apply wp_rd_u16; [| |intros]
  | |- wp (lift (rd_u32 _ _)) _ _ _ => apply wp_rd_u32; [| |intros]
  | |- wp (lift (slice _ _ _)) _ _ _ => apply wp_slice; [| | |intros]
  | |- wp (lift (tail_from _ _)) _ _ _ => apply wp_tail_from; [|intros]
  | |- wp (if _ then _ else _) _ _ _ => apply wp_if; intros
  | |- wp (put _) _ _ _ => unfold put; apply wp_puts
  | |- wp (puts _) _ _ _ => apply wp_puts
  end.

(** Linear arithmetic over buffer lengths and the room of a cursor. *)
Ltac blen_lia :=
  unfold room in *; cbn [w_out w_cap] in *; autorewrite with blen in *;
  repeat match goal with
  | |- context [blen ?l] => lazymatch goal with
      | _ : 0 <= blen l |- _ => fail | _ => pose proof (blen_nonneg l) end
  end; lia.

Arguments rd : simpl never.
Arguments rd_u16 : simpl never.
Arguments rd_u32 : simpl never.
Arguments slice : simpl never.
Arguments tail_from : simpl never.
Arguments usub : simpl never.
Arguments blen : simpl never.

(** Evaluate reads at literal offsets of an explicit prefix. *)
Ltac rd_simp :=
  repeat (cbn [app];
  match goal with
  | |- context [rd (?b :: ?l) 0] => change (rd (b :: l) 0) with (@Ok Z b)
  | |- context [rd (?b :: ?l) (Zpos ?p)] =>
      let k := eval vm_compute in (Z.pred (Zpos p)) in
      change (rd (b :: l) (Zpos p)) with (rd l k)
  end); cbn [obind oguard].
