(* ===== verification/Crc.v ===== *)
(** * Cyclic redundancy checks: include/rohccxx/utils/crc.hpp

    The CRC-3 table is built by the source at compile time from
    [crc3_transition]; the CRC-7 and CRC-8 tables are literals.  The reference
    is the reflected linear-feedback register of RFC 3095 section 5.9, one bit
    at a time.  The theorems show that the three table-driven loops compute
    that register, and which corruptions of one octet each check detects. *)

From S2P Require Import Prelude.

Definition crc_table_7 : list Z :=
  [0x00; 0x40; 0x73; 0x33; 0x15; 0x55; 0x66; 0x26; 0x2a; 0x6a; 0x59; 0x19; 0x3f; 0x7f; 0x4c; 0x0c;
   0x54; 0x14; 0x27; 0x67; 0x41; 0x01; 0x32; 0x72; 0x7e; 0x3e; 0x0d; 0x4d; 0x6b; 0x2b; 0x18; 0x58;
   0x5b; 0x1b; 0x28; 0x68; 0x4e; 0x0e; 0x3d; 0x7d; 0x71; 0x31; 0x02; 0x42; 0x64; 0x24; 0x17; 0x57;
   0x0f; 0x4f; 0x7c; 0x3c; 0x1a; 0x5a; 0x69; 0x29; 0x25; 0x65; 0x56; 0x16; 0x30; 0x70; 0x43; 0x03;
   0x45; 0x05; 0x36; 0x76; 0x50; 0x10; 0x23; 0x63; 0x6f; 0x2f; 0x1c; 0x5c; 0x7a; 0x3a; 0x09; 0x49;
   0x11; 0x51; 0x62; 0x22; 0x04; 0x44; 0x77; 0x37; 0x3b; 0x7b; 0x48; 0x08; 0x2e; 0x6e; 0x5d; 0x1d;
   0x1e; 0x5e; 0x6d; 0x2d; 0x0b; 0x4b; 0x78; 0x38; 0x34; 0x74; 0x47; 0x07; 0x21; 0x61; 0x52; 0x12;
   0x4a; 0x0a; 0x39; 0x79; 0x5f; 0x1f; 0x2c; 0x6c; 0x60; 0x20; 0x13; 0x53; 0x75; 0x35; 0x06; 0x46;
   0x79; 0x39; 0x0a; 0x4a; 0x6c; 0x2c; 0x1f; 0x5f; 0x53; 0x13; 0x20; 0x60; 0x46; 0x06; 0x35; 0x75;
   0x2d; 0x6d; 0x5e; 0x1e; 0x38; 0x78; 0x4b; 0x0b; 0x07; 0x47; 0x74; 0x34; 0x12; 0x52; 0x61; 0x21;
   0x22; 0x62; 0x51; 0x11; 0x37; 0x77; 0x44; 0x04; 0x08; 0x48; 0x7b; 0x3b; 0x1d; 0x5d; 0x6e; 0x2e;
   0x76; 0x36; 0x05; 0x45; 0x63; 0x23; 0x10; 0x50; 0x5c; 0x1c; 0x2f; 0x6f; 0x49; 0x09; 0x3a; 0x7a;
   0x3c; 0x7c; 0x4f; 0x0f; 0x29; 0x69; 0x5a; 0x1a; 0x16; 0x56; 0x65; 0x25; 0x03; 0x43; 0x70; 0x30;
   0x68; 0x28; 0x1b; 0x5b; 0x7d; 0x3d; 0x0e; 0x4e; 0x42; 0x02; 0x31; 0x71; 0x57; 0x17; 0x24; 0x64;
   0x67; 0x27; 0x14; 0x54; 0x72; 0x32; 0x01; 0x41; 0x4d; 0x0d; 0x3e; 0x7e; 0x58; 0x18; 0x2b; 0x6b;
   0x33; 0x73; 0x40; 0x00; 0x26; 0x66; 0x55; 0x15; 0x19; 0x59; 0x6a; 0x2a; 0x0c; 0x4c; 0x7f; 0x3f].

Definition crc_table_8 : list Z :=
  [0x00; 0x91; 0xe3; 0x72; 0x07; 0x96; 0xe4; 0x75; 0x0e; 0x9f; 0xed; 0x7c; 0x09; 0x98; 0xea; 0x7b;
   0x1c; 0x8d; 0xff; 0x6e; 0x1b; 0x8a; 0xf8; 0x69; 0x12; 0x83; 0xf1; 0x60; 0x15; 0x84; 0xf6; 0x67;
   0x38; 0xa9; 0xdb; 0x4a; 0x3f; 0xae; 0xdc; 0x4d; 0x36; 0xa7; 0xd5; 0x44; 0x31; 0xa0; 0xd2; 0x43;
   0x24; 0xb5; 0xc7; 0x56; 0x23; 0xb2; 0xc0; 0x51; 0x2a; 0xbb; 0xc9; 0x58; 0x2d; 0xbc; 0xce; 0x5f;
   0x70; 0xe1; 0x93; 0x02; 0x77; 0xe6; 0x94; 0x05; 0x7e; 0xef; 0x9d; 0x0c; 0x79; 0xe8; 0x9a; 0x0b;
   0x6c; 0xfd; 0x8f; 0x1e; 0x6b; 0xfa; 0x88; 0x19; 0x62; 0xf3; 0x81; 0x10; 0x65; 0xf4; 0x86; 0x17;
   0x48; 0xd9; 0xab; 0x3a; 0x4f; 0xde; 0xac; 0x3d; 0x46; 0xd7; 0xa5; 0x34; 0x41; 0xd0; 0xa2; 0x33;
   0x54; 0xc5; 0xb7; 0x26; 0x53; 0xc2; 0xb0; 0x21; 0x5a; 0xcb; 0xb9; 0x28; 0x5d; 0xcc; 0xbe; 0x2f;
   0xe0; 0x71; 0x03; 0x92; 0xe7; 0x76; 0x04; 0x95; 0xee; 0x7f; 0x0d; 0x9c; 0xe9; 0x78; 0x0a; 0x9b;
   0xfc; 0x6d; 0x1f; 0x8e; 0xfb; 0x6a; 0x18; 0x89; 0xf2; 0x63; 0x11; 0x80; 0xf5; 0x64; 0x16; 0x87;
   0xd8; 0x49; 0x3b; 0xaa; 0xdf; 0x4e; 0x3c; 0xad; 0xd6; 0x47; 0x35; 0xa4; 0xd1; 0x40; 0x32; 0xa3;
   0xc4; 0x55; 0x27; 0xb6; 0xc3; 0x52; 0x20; 0xb1; 0xca; 0x5b; 0x29; 0xb8; 0xcd; 0x5c; 0x2e; 0xbf;
   0x90; 0x01; 0x73; 0xe2; 0x97; 0x06; 0x74; 0xe5; 0x9e; 0x0f; 0x7d; 0xec; 0x99; 0x08; 0x7a; 0xeb;
   0x8c; 0x1d; 0x6f; 0xfe; 0x8b; 0x1a; 0x68; 0xf9; 0x82; 0x13; 0x61; 0xf0; 0x85; 0x14; 0x66; 0xf7;
   0xa8; 0x39; 0x4b; 0xda; 0xaf; 0x3e; 0x4c; 0xdd; 0xa6; 0x37; 0x45; 0xd4; 0xa1; 0x30; 0x42; 0xd3;
   0xb4; 0x25; 0x57; 0xc6; 0xb3; 0x22; 0x50; 0xc1; 0xba; 0x2b; 0x59; 0xc8; 0xbd; 0x2c; 0x5e; 0xcf].

(** [table[i]] for an octet index. *)
Definition tbl (t : list Z) (i : Z) : Z := nth (Z.to_nat i) t 0.

(** One iteration of the loop of [crc3_transition]. *)
Definition crc3_shift (value : Z) : Z :=
  if Z.land value 1 =? 0 then Z.shiftr value 1
  else Z.lxor (Z.shiftr value 1) 0x06.

Definition crc3_transition (value : Z) : Z :=
  Z.land (Nat.iter 8 (fun v => u8 (crc3_shift v)) value) 0x07.

Definition make_crc3_table : list Z := map crc3_transition all_bytes.

Definition crc_table_3 : list Z := Eval vm_compute in make_crc3_table.

Definition crc3 (data : bytes) : Z :=
  fold_left (fun crc b => tbl crc_table_3 (Z.lxor crc b)) data 0x07.

Definition crc7 (data : bytes) : Z :=
  fold_left (fun crc b => tbl crc_table_7 (Z.lxor b (Z.land crc 0x7F))) data 0x7F.

Definition crc8 (data : bytes) : Z :=
  fold_left (fun crc b => tbl crc_table_8 (Z.lxor b crc)) data 0xFF.

(** ** Reference: the register, bit by bit *)

Module Register.

(** Shift the register by one bit, feeding back the reflected polynomial. *)
Definition shift (poly crc : Z) : Z :=
  if Z.odd crc then Z.lxor (Z.shiftr crc 1) poly else Z.shiftr crc 1.

(** Absorb one octet, least significant bit first. *)
Definition absorb (poly crc b : Z) : Z := Nat.iter 8 (shift poly) (Z.lxor crc b).

Definition crc (poly init : Z) (data : bytes) : Z := fold_left (absorb poly) data init.

End Register.

(** Polynomials 1+x+x^3, 1+x+x^2+x^3+x^6+x^7 and 1+x+x^2+x^8, reflected. *)
Definition poly3 : Z := 0x06.
Definition poly7 : Z := 0x79.
Definition poly8 : Z := 0xE0.

(** ** Tables *)

Lemma tbl_eq (t : list Z) (f : Z -> Z) :
  forallb (fun i => tbl t i =? f i) all_bytes = true ->
  forall i, byte_ok i -> tbl t i = f i.
Proof. intros H i Hi. apply Z.eqb_eq. by apply (byte_forall (fun i => tbl t i =? f i)). Qed.

Lemma tbl3_absorb i : byte_ok i -> tbl crc_table_3 i = Nat.iter 8 (Register.shift poly3) i.
Proof. revert i. apply tbl_eq. vm_compute. reflexivity. Qed.

Lemma tbl7_absorb i : byte_ok i -> tbl crc_table_7 i = Nat.iter 8 (Register.shift poly7) i.
Proof. revert i. apply tbl_eq. vm_compute. reflexivity. Qed.

Lemma tbl8_absorb i : byte_ok i -> tbl crc_table_8 i = Nat.iter 8 (Register.shift poly8) i.
Proof. revert i. apply tbl_eq. vm_compute. reflexivity. Qed.

Lemma tbl_bound (t : list Z) (n : Z) :
  forallb (fun i => (0 <=? tbl t i) && (tbl t i <? n)) all_bytes = true ->
  forall i, byte_ok i -> 0 <= tbl t i < n.
Proof.
  intros H i Hi.
  pose proof (byte_forall _ H i Hi) as Hb. cbv beta in Hb. bool_prop. lia.
Qed.

Lemma tbl3_bound i : byte_ok i -> 0 <= tbl crc_table_3 i < 8.
Proof. revert i. apply tbl_bound. vm_compute. reflexivity. Qed.

Lemma tbl7_bound i : byte_ok i -> 0 <= tbl crc_table_7 i < 128.
Proof. revert i. apply tbl_bound. vm_compute. reflexivity. Qed.

Lemma tbl8_bound i : byte_ok i -> byte_ok (tbl crc_table_8 i).
Proof. revert i. apply tbl_bound. vm_compute. reflexivity. Qed.

Lemma lxor_bound n a b :
  0 <= n -> 0 <= a < 2 ^ n -> 0 <= b < 2 ^ n -> 0 <= Z.lxor a b < 2 ^ n.
Proof.
  intros Hn Ha Hb.
  rewrite <- (Z.mod_small a (2 ^ n)), <- (Z.mod_small b (2 ^ n)) by done.
  replace (Z.lxor (a mod 2 ^ n) (b mod 2 ^ n)) with (Z.lxor a b mod 2 ^ n).
  - apply Z.mod_pos_bound. lia.
  - apply Z.bits_inj'. intros i Hi. rewrite Z.lxor_spec.
    destruct (decide (i < n)).
    + rewrite !Z.mod_pow2_bits_low by lia. by rewrite Z.lxor_spec.
    + by rewrite !Z.mod_pow2_bits_high by lia.
Qed.

Lemma lxor_byte a b : byte_ok a -> byte_ok b -> byte_ok (Z.lxor a b).
Proof. unfold byte_ok. apply (lxor_bound 8). lia. Qed.

Lemma land_7F_small c : 0 <= c < 128 -> Z.land c 0x7F = c.
Proof. intros. change 0x7F with (Z.ones 7). rewrite Z.land_ones by lia. by apply Z.mod_small. Qed.

#[export] Hint Resolve lxor_byte : rohc.

(** ** Range of the results *)

Lemma fold_left_inv {A B} (P : A -> Prop) (f : A -> B -> A) (l : list B) (a : A) :
  P a -> (forall a b, P a -> In b l -> P (f a b)) -> P (fold_left f l a).
Proof.
  revert a. induction l as [|b l IH]; simpl; intros a Ha Hf; [done|].
  apply IH; [|intros; apply Hf]; auto.
Qed.

Lemma bytes_ok_In l b : bytes_ok l -> In b l -> byte_ok b.
Proof. intros Hl Hb. by eapply (proj1 (List.Forall_forall _ _)). Qed.

Lemma crc8_bound data : bytes_ok data -> byte_ok (crc8 data).
Proof.
  intros Hd. apply (fold_left_inv byte_ok); [done|].
  intros c b Hc Hb. apply tbl8_bound, lxor_byte; [by eapply bytes_ok_In|done].
Qed.

Lemma crc7_bound data : bytes_ok data -> 0 <= crc7 data < 128.
Proof.
  intros Hd. apply (fold_left_inv (fun c => 0 <= c < 128)); [done|].
  intros c b Hc Hb. apply tbl7_bound, lxor_byte; [by eapply bytes_ok_In|].
  rewrite land_7F_small by done. unfold byte_ok; lia.
Qed.

Lemma crc3_bound data : bytes_ok data -> 0 <= crc3 data < 8.
Proof.
  intros Hd. apply (fold_left_inv (fun c => 0 <= c < 8)); [done|].
  intros c b Hc Hb. apply tbl3_bound, lxor_byte; [unfold byte_ok; lia|by eapply bytes_ok_In].
Qed.

#[export] Hint Resolve crc8_bound crc7_bound crc3_bound : rohc.

(** ** The table-driven loops compute the register *)

Lemma fold_left_ext_inv {A B} (P : A -> Prop) (f g : A -> B -> A) (l : list B) (a : A) :
  P a -> (forall a b, P a -> In b l -> P (f a b) /\ f a b = g a b) ->
  fold_left f l a = fold_left g l a.
Proof.
  revert a. induction l as [|b l IH]; simpl; intros a Ha Hf; [done|].
  destruct (Hf a b Ha) as [Hp He]; [by left|]. rewrite <- He. apply IH; auto.
Qed.

Lemma crc8_register data : bytes_ok data -> crc8 data = Register.crc poly8 0xFF data.
Proof.
  intros Hd. apply (fold_left_ext_inv byte_ok); [done|]. intros c b Hc Hb.
  assert (byte_ok b) by (by eapply bytes_ok_In). split; [by apply tbl8_bound, lxor_byte|].
  unfold Register.absorb. rewrite (Z.lxor_comm c b). by apply tbl8_absorb, lxor_byte.
Qed.

Lemma crc7_register data : bytes_ok data -> crc7 data = Register.crc poly7 0x7F data.
Proof.
  intros Hd. apply (fold_left_ext_inv (fun c => 0 <= c < 128)); [done|]. intros c b Hc Hb.
  assert (byte_ok b) by (by eapply bytes_ok_In). rewrite land_7F_small by done.
  assert (byte_ok c) by (unfold byte_ok; lia).
  split; [by apply tbl7_bound, lxor_byte|].
  unfold Register.absorb. rewrite (Z.lxor_comm c b). by apply tbl7_absorb, lxor_byte.
Qed.

Lemma crc3_register data : bytes_ok data -> crc3 data = Register.crc poly3 0x07 data.
Proof.
  intros Hd. apply (fold_left_ext_inv (fun c => 0 <= c < 8)); [done|]. intros c b Hc Hb.
  assert (byte_ok b) by (by eapply bytes_ok_In).
  assert (byte_ok c) by (unfold byte_ok; lia).
  split; [by apply tbl3_bound, lxor_byte|]. by apply tbl3_absorb, lxor_byte.
Qed.

(** C37: The table-driven [crc3], [crc7] and [crc8] compute, on every octet
    string, the bit-serial registers of RFC 3095 section 5.9 with all-ones
    initial value: the literal tables hold no wrong entry. *)
Theorem crc_tables_implement_register data (H : bytes_ok data) :
  crc3 data = Register.crc poly3 0x07 data /\
  crc7 data = Register.crc poly7 0x7F data /\
  crc8 data = Register.crc poly8 0xFF data.
Proof. by rewrite crc3_register, crc7_register, crc8_register. Qed.

Lemma crc_tables_implement_register_witness :
  crc3 [0xFD; 0x00; 0x04; 0x80] = Register.crc poly3 0x07 [0xFD; 0x00; 0x04; 0x80].
Proof.
  apply (crc_tables_implement_register [0xFD; 0x00; 0x04; 0x80]).
  repeat constructor; vm_compute; discriminate.
Defined.

(** ** Detection of a corrupted octet *)

Definition distinguishes (t : list Z) (diff : Z -> bool) : bool :=
  forallb (fun u => forallb (fun v =>
    negb (diff (Z.lxor u v)) || negb (tbl t u =? tbl t v)) all_bytes) all_bytes.

Lemma distinguishes_spec t diff u v :
  distinguishes t diff = true -> byte_ok u -> byte_ok v ->
  diff (Z.lxor u v) = true -> tbl t u <> tbl t v.
Proof.
  unfold distinguishes. intros H Hu Hv Hd Heq.
  pose proof (byte_forall _ H u Hu) as H1. cbv beta in H1.
  pose proof (byte_forall _ H1 v Hv) as H2. cbv beta in H2.
  rewrite Hd, Heq, Z.eqb_refl in H2. discriminate.
Qed.

Lemma lxor_cancel_l b c c' : Z.lxor (Z.lxor b c) (Z.lxor b c') = Z.lxor c c'.
Proof.
  rewrite (Z.lxor_comm b c), Z.lxor_assoc, <- (Z.lxor_assoc b b c'), Z.lxor_nilpotent.
  by rewrite Z.lxor_0_l.
Qed.

(** Two different register values stay different while the same octets follow. *)
Lemma fold_left_injective (P : Z -> Prop) (f : Z -> Z -> Z) l c c' :
  (forall c b, P c -> byte_ok b -> P (f c b)) ->
  (forall c c' b, P c -> P c' -> byte_ok b -> c <> c' -> f c b <> f c' b) ->
  bytes_ok l -> P c -> P c' -> c <> c' -> fold_left f l c <> fold_left f l c'.
Proof.
  intros Hp Hf. revert c c'. induction l as [|b l IH]; simpl; intros c c' Hl Hc Hc' Hn; [done|].
  apply bytes_ok_cons in Hl as [Hb Hl]. apply IH; auto.
Qed.

Lemma crc8_detects pre x y post :
  bytes_ok pre -> bytes_ok post -> byte_ok x -> byte_ok y -> x <> y ->
  crc8 (pre ++ x :: post) <> crc8 (pre ++ y :: post).
Proof.
  intros Hpre Hpost Hx Hy Hn. unfold crc8. rewrite !fold_left_app. simpl.
  fold (crc8 pre). pose proof (crc8_bound pre Hpre) as Hc.
  assert (D : distinguishes crc_table_8 (fun d => negb (d =? 0)) = true)
    by (vm_compute; reflexivity).
  assert (Hne : forall u v, u <> v -> negb (Z.lxor u v =? 0) = true).
  { intros u v Huv. apply negb_true_iff, Z.eqb_neq. by rewrite Z.lxor_eq_0_iff. }
  apply (fold_left_injective byte_ok); [| |done|..].
  - intros. by apply tbl8_bound, lxor_byte.
  - intros c c' b ????. eapply (distinguishes_spec _ _ _ _ D); [by apply lxor_byte..|].
    rewrite lxor_cancel_l. by apply Hne.
  - by apply tbl8_bound, lxor_byte.
  - by apply tbl8_bound, lxor_byte.
  - eapply (distinguishes_spec _ _ _ _ D); [by apply lxor_byte..|].
    rewrite (Z.lxor_comm x), (Z.lxor_comm y), lxor_cancel_l. by apply Hne.
Qed.

(** Two octet strings of one length that differ in one place. *)
Definition one_octet_apart (l l' : bytes) : Prop :=
  exists pre x y post, l = pre ++ x :: post /\ l' = pre ++ y :: post /\ x <> y.

Lemma one_octet_apart_length l l' : one_octet_apart l l' -> length l = length l'.
Proof. intros (pre & x & y & post & -> & -> & _). by rewrite !length_app. Qed.

Lemma one_octet_apart_neq l l' : one_octet_apart l l' -> l <> l'.
Proof. intros (pre & x & y & post & -> & -> & Hn) E. by simplify_list_eq. Qed.

Lemma one_octet_apart_app_l h l l' : one_octet_apart l l' -> one_octet_apart (h ++ l) (h ++ l').
Proof.
  intros (pre & x & y & post & -> & -> & Hn). exists (h ++ pre), x, y, post.
  by rewrite <- !app_assoc.
Qed.

Lemma one_octet_apart_app_r l l' t : one_octet_apart l l' -> one_octet_apart (l ++ t) (l' ++ t).
Proof.
  intros (pre & x & y & post & -> & -> & Hn). exists pre, x, y, (post ++ t).
  by rewrite <- !app_assoc.
Qed.

(** The difference lies in the first part or in the second. *)
Lemma one_octet_apart_split a b a' b' :
  length a = length a' -> one_octet_apart (a ++ b) (a' ++ b') ->
  one_octet_apart a a' /\ b = b' \/ a = a' /\ one_octet_apart b b'.
Proof.
  revert a'. induction a as [|u a IH]; intros [|u' a'] Hl H; try discriminate; [by right|].
  destruct H as (pre & x & y & post & E & E' & Hn). destruct pre as [|v pre]; cbn [app] in *.
  - injection E as -> E. injection E' as -> E'. rewrite <- E' in E.
    apply app_inj_1 in E as [-> ->]; [|by injection Hl]. left. split; [|done].
    by exists [], x, y, a'.
  - injection E as -> E. injection E' as -> E'.
    destruct (IH a' ltac:(by injection Hl)) as [[(p & x' & y' & q & -> & -> & Hn') ->]|[-> ?]].
    + by exists pre, x, y, post.
    + left. split; [|done]. by exists (v :: p), x', y', q.
    + by right.
Qed.

Lemma crc8_apart l l' :
  bytes_ok l -> bytes_ok l' -> one_octet_apart l l' -> crc8 l <> crc8 l'.
Proof.
  intros Hl Hl' (pre & x & y & post & -> & -> & Hn).
  apply bytes_ok_app in Hl as [? Hl], Hl' as [_ Hl'].
  apply bytes_ok_cons in Hl as [? ?], Hl' as [? _]. by apply crc8_detects.
Qed.

Lemma crc7_detects pre x y post :
  bytes_ok pre -> bytes_ok post -> byte_ok x -> byte_ok y -> x <> y -> Z.lxor x y <> 0xF3 ->
  crc7 (pre ++ x :: post) <> crc7 (pre ++ y :: post).
Proof.
  intros Hpre Hpost Hx Hy Hn Hf3. unfold crc7. rewrite !fold_left_app. simpl.
  fold (crc7 pre). pose proof (crc7_bound pre Hpre) as Hc.
  assert (D : distinguishes crc_table_7 (fun d => negb (d =? 0) && negb (d =? 0xF3)) = true)
    by (vm_compute; reflexivity).
  assert (Hb : forall c, 0 <= c < 128 -> byte_ok c) by (unfold byte_ok; lia).
  rewrite land_7F_small by done.
  apply (fold_left_injective (fun c => 0 <= c < 128)); [| |done|..].
  - intros c b H ?. rewrite land_7F_small by done. apply tbl7_bound, lxor_byte; auto.
  - intros c c' b H H' ? ?. rewrite !land_7F_small by done.
    eapply (distinguishes_spec _ _ _ _ D); [apply lxor_byte; auto..|].
    rewrite lxor_cancel_l. pose proof (lxor_bound 7 c c' ltac:(lia) H H').
    apply andb_true_iff; split; apply negb_true_iff, Z.eqb_neq; [|lia].
    by rewrite Z.lxor_eq_0_iff.
  - apply tbl7_bound, lxor_byte; auto.
  - apply tbl7_bound, lxor_byte; auto.
  - eapply (distinguishes_spec _ _ _ _ D); [apply lxor_byte; auto..|].
    rewrite (Z.lxor_comm x), (Z.lxor_comm y), lxor_cancel_l.
    apply andb_true_iff; split; apply negb_true_iff, Z.eqb_neq; [|done].
    by rewrite Z.lxor_eq_0_iff.
Qed.

(** CRC-8 tells apart any two headers of one length that differ in a
    single octet; CRC-7 does so unless the two octets differ by exactly the
    pattern 0xF3 (the generator polynomial aligned on the octet), and that
    exception is real. *)
Theorem crc_detects_octet pre x y post
  (Hpre : bytes_ok pre) (Hpost : bytes_ok post) (Hx : byte_ok x) (Hy : byte_ok y) (Hn : x <> y) :
  crc8 (pre ++ x :: post) <> crc8 (pre ++ y :: post) /\
  (Z.lxor x y <> 0xF3 -> crc7 (pre ++ x :: post) <> crc7 (pre ++ y :: post)) /\
  crc7 [0x00] = crc7 [0xF3].
Proof. split_and!; [by apply crc8_detects|intros; by apply crc7_detects|reflexivity]. Qed.

Lemma crc_detects_octet_witness :
  crc8 [0x7A; 0x00; 0x12] <> crc8 [0x7A; 0x04; 0x12].
Proof.
  apply (crc_detects_octet [0x7A] 0x00 0x04 [0x12]);
    repeat constructor; vm_compute; discriminate.
Defined.
