(* ===== verification/Cid.v ===== *)
(** * Context identifiers: include/rohccxx/core/cid.hpp

    Small CIDs (0..15) travel in an Add-CID octet, large ones (0..16383) in the
    one- or two-octet self-describing form, which the encoding methods and the
    chains also use for lengths (SDVL). *)

From S2P Require Import Prelude.

Definition small_cid_max : Z := 0x0F.
Definition large_cid_max : Z := 0x3FFF.

Definition is_small (value : Z) : bool := value <=? small_cid_max.

Definition is_valid_for_space (value : Z) (large_cid_space : bool) : bool :=
  if large_cid_space then value <=? large_cid_max else is_small value.

Definition write_large (value : Z) : M wst unit :=
  guard (value <=? large_cid_max) ;;;
  if value <=? 0x7F then
    r <- gets room ;;
    guard (1 <=? r) ;;;
    put (u8 value)
  else
    r <- gets room ;;
    guard (2 <=? r) ;;;
    put (u8 (Z.lor 0x80 (Z.land (Z.shiftr value 8) 0x3F))) ;;;
    put (u8 (Z.land value 0xFF)).

(** The decoded value and the number of octets consumed. *)
Definition read_large (p : bytes) : outcome (Z * Z) :=
  check negb (blen p =? 0) in
  let! p0 := rd p 0 in
  if Z.land p0 0x80 =? 0 then Ok (Z.land p0 0x7F, 1)
  else if Z.land p0 0xC0 =? 0x80 then
    check negb (blen p <? 2) in
    let! p1 := rd p 1 in
    let value := Z.lor (Z.shiftl (Z.land p0 0x3F) 8) p1 in
    check negb (value <=? 0x7F) in
    Ok (value, 2)
  else Rej.

Definition encoded_len (value : Z) : Z := if value <=? 0x7F then 1 else 2.

(** ** The octets [write_large] produces *)

Definition large_octets (value : Z) : bytes :=
  if value <=? 0x7F then [value] else [0x80 + value / 256; value mod 256].

Lemma large_octets_len v : blen (large_octets v) = encoded_len v.
Proof. unfold large_octets, encoded_len. by destruct (v <=? 0x7F). Qed.

Lemma encoded_len_bound v : 1 <= encoded_len v <= 2.
Proof. unfold encoded_len. destruct (v <=? 0x7F); lia. Qed.

Lemma large_hi v : 0 <= v <= 0x3FFF ->
  u8 (Z.lor 0x80 (Z.land (Z.shiftr v 8) 0x3F)) = 0x80 + v / 256.
Proof.
  intros. rewrite Z.shiftr_div_pow2 by lia. change (2 ^ 8) with 256.
  change 0x3F with (Z.ones 6). rewrite Z.land_ones by lia.
  assert (0 <= v / 256 < 64) by (Z.div_mod_to_equations; lia).
  rewrite Z.mod_small by done.
  pose proof (lor_disjoint_add 1 (v / 256) 7 ltac:(lia) ltac:(lia)) as E.
  change (Z.shiftl 1 7) with 0x80 in E. rewrite E. apply Z.mod_small. lia.
Qed.

Lemma large_octets_ok v : 0 <= v <= 0x3FFF -> bytes_ok (large_octets v).
Proof.
  intros. unfold large_octets. destruct (Z.leb_spec v 0x7F); repeat constructor;
    unfold byte_ok; Z.div_mod_to_equations; lia.
Qed.

Lemma write_large_ok v s :
  0 <= v <= large_cid_max -> encoded_len v <= room s ->
  write_large v s = (Ok tt, {| w_out := w_out s ++ large_octets v; w_cap := w_cap s |}).
Proof.
  unfold large_cid_max, encoded_len. intros Hv Hr. unfold write_large, large_octets.
  rewrite (proj2 (Z.leb_le v large_cid_max)) by (unfold large_cid_max; lia).
  destruct (Z.leb_spec v 0x7F).
  - erewrite bind_ok by done. erewrite bind_ok by done.
    rewrite (proj2 (Z.leb_le 1 (room s))) by done. erewrite bind_ok by done.
    unfold put. rewrite puts_ok by done. rewrite u8_small; [done|]. unfold byte_ok; lia.
  - erewrite bind_ok by done. erewrite bind_ok by done.
    rewrite (proj2 (Z.leb_le 2 (room s))) by done. erewrite bind_ok by done.
    unfold put. erewrite bind_ok by (apply puts_ok; blen_lia).
    rewrite puts_ok by blen_lia.
    cbn [w_out w_cap]. rewrite <- app_assoc. cbn [app]. rewrite large_hi by lia.
    rewrite land_255, u8_small; [done|]. apply Z.mod_pos_bound. lia.
Qed.

Lemma write_large_no_room v s :
  0 <= v -> (large_cid_max < v \/ room s < encoded_len v) -> write_large v s = (Rej, s).
Proof.
  unfold encoded_len. intros Hv H. unfold write_large.
  destruct (Z.leb_spec v large_cid_max); [|done]. erewrite bind_ok by done.
  destruct (Z.leb_spec v 0x7F); erewrite bind_ok by done.
  - by rewrite (proj2 (Z.leb_gt 1 (room s))) by lia.
  - by rewrite (proj2 (Z.leb_gt 2 (room s))) by lia.
Qed.

Lemma wp_write_large v (Q : unit -> wst -> Prop) R s :
  0 <= v ->
  (v <= large_cid_max -> encoded_len v <= room s ->
   Q tt {| w_out := w_out s ++ large_octets v; w_cap := w_cap s |}) ->
  R s -> wp (write_large v) Q R s.
Proof.
  intros Hv HQ HR. unfold wp.
  destruct (decide (v <= large_cid_max /\ encoded_len v <= room s)) as [[H1 H2]|H].
  - rewrite write_large_ok by lia. auto.
  - rewrite write_large_no_room by lia. done.
Qed.

Lemma marker_octet x : 0 <= x < 64 ->
  Z.land (0x80 + x) 0x80 <> 0 /\ Z.land (0x80 + x) 0xC0 = 0x80 /\ Z.land (0x80 + x) 0x3F = x.
Proof.
  intros Hx.
  pose proof (byte_forall (fun x => negb (x <? 64) || (negb (Z.land (0x80 + x) 0x80 =? 0) &&
    (Z.land (0x80 + x) 0xC0 =? 0x80) && (Z.land (0x80 + x) 0x3F =? x)))
    ltac:(vm_compute; reflexivity) x ltac:(unfold byte_ok; lia)) as D. cbv beta in D.
  rewrite (proj2 (Z.ltb_lt x 64)) in D by lia. simpl negb in D. rewrite orb_false_l in D.
  bool_prop. auto.
Qed.

Lemma low_octet x : 0 <= x <= 0x7F -> Z.land x 0x80 = 0 /\ Z.land x 0x7F = x.
Proof.
  intros Hx.
  pose proof (byte_forall (fun x => negb (x <=? 0x7F) ||
    ((Z.land x 0x80 =? 0) && (Z.land x 0x7F =? x)))
    ltac:(vm_compute; reflexivity) x ltac:(unfold byte_ok; lia)) as D. cbv beta in D.
  rewrite (proj2 (Z.leb_le x 0x7F)) in D by lia. simpl negb in D. rewrite orb_false_l in D.
  bool_prop. auto.
Qed.

Lemma read_large_octets v post :
  0 <= v <= large_cid_max -> read_large (large_octets v ++ post) = Ok (v, encoded_len v).
Proof.
  unfold large_cid_max, large_octets, encoded_len, read_large. intros Hv.
  pose proof (blen_nonneg post).
  destruct (Z.leb_spec v 0x7F) as [Hs|Hs]; autorewrite with blen.
  - rewrite (proj2 (Z.eqb_neq _ 0)) by lia. cbn [negb obind oguard]. rd_simp.
    destruct (low_octet v) as [-> ->]; [lia|]. done.
  - rewrite (proj2 (Z.eqb_neq _ 0)) by lia. cbn [negb obind oguard]. rd_simp.
    assert (Hh : 0 <= v / 256 < 64) by (Z.div_mod_to_equations; lia).
    destruct (marker_octet (v / 256) Hh) as (H1 & H2 & H3). rewrite H2, H3.
    rewrite (proj2 (Z.eqb_neq _ 0)) by done. rewrite Z.eqb_refl.
    rewrite (proj2 (Z.ltb_ge _ 2)) by lia. cbn [negb obind oguard]. rd_simp.
    rewrite combine16 by (apply Z.mod_pos_bound; lia).
    replace (v / 256 * 256 + v mod 256) with v by (pose proof (Z.div_mod v 256); lia).
    rewrite (proj2 (Z.leb_gt v 127)) by lia. done.
Qed.

(** The reader stays inside its buffer and accepts only what the writer
    produces. *)
Lemma read_large_inv p : bytes_ok p ->
  match read_large p with
  | Ok (v, n) => 0 <= v <= large_cid_max /\ n = encoded_len v /\
                 exists post, p = large_octets v ++ post
  | Rej => True
  | Ub => False
  end.
Proof.
  intros Hp. unfold read_large. destruct p as [|p0 p]; [done|].
  apply bytes_ok_cons in Hp as [H0 Hp]. pose proof (blen_nonneg p). rewrite blen_cons.
  rewrite (proj2 (Z.eqb_neq _ 0)) by lia. cbn [negb obind oguard]. rd_simp.
  destruct (Z.eqb_spec (Z.land p0 128) 0) as [E|E].
  - pose proof (byte_forall (fun x => negb (Z.land x 128 =? 0) ||
      ((Z.land x 0x7F =? x) && (x <=? 127))) ltac:(vm_compute; reflexivity) p0 H0) as D.
    cbv beta in D. rewrite (proj2 (Z.eqb_eq _ _) E) in D. simpl negb in D.
    rewrite orb_false_l in D. bool_prop. rewrite H1. unfold byte_ok, large_cid_max in *.
    unfold encoded_len, large_octets. rewrite (proj2 (Z.leb_le p0 0x7F)) by done.
    split_and!; [lia..|]. by exists p.
  - destruct (Z.eqb_spec (Z.land p0 192) 128) as [E2|]; [|done].
    destruct p as [|p1 p]; [done|]. apply bytes_ok_cons in Hp as [H1 Hp].
    rewrite blen_cons. pose proof (blen_nonneg p). rewrite (proj2 (Z.ltb_ge _ 2)) by lia.
    cbn [negb obind oguard]. rd_simp.
    pose proof (byte_forall (fun x => negb (Z.land x 192 =? 128) ||
      ((x =? 0x80 + Z.land x 0x3F) && (Z.land x 0x3F <? 64) && (0 <=? Z.land x 0x3F)))
      ltac:(vm_compute; reflexivity) p0 H0) as D.
    cbv beta in D. rewrite (proj2 (Z.eqb_eq _ _) E2) in D. simpl negb in D.
    rewrite orb_false_l in D. bool_prop. set (h := Z.land p0 63) in *.
    rewrite combine16 by done. unfold byte_ok in *.
    destruct (Z.leb_spec (h * 256 + p1) 127) as [|Hv]; [done|]. cbn [negb obind oguard].
    unfold encoded_len, large_octets, large_cid_max.
    rewrite (proj2 (Z.leb_gt _ 127)) by done. split_and!; [lia..|].
    exists p. replace ((h * 256 + p1) / 256) with h by (Z.div_mod_to_equations; lia).
    replace ((h * 256 + p1) mod 256) with p1 by (Z.div_mod_to_equations; lia).
    by rewrite <- H3.
Qed.

Lemma read_large_bounds p v n :
  bytes_ok p -> read_large p = Ok (v, n) ->
  0 <= v <= large_cid_max /\ n = encoded_len v /\ 1 <= n <= 2 /\ n <= blen p.
Proof.
  intros Hp E. pose proof (read_large_inv p Hp) as H. rewrite E in H.
  destruct H as (Hv & -> & post & ->). pose proof (encoded_len_bound v).
  pose proof (blen_nonneg post). rewrite blen_app, large_octets_len. lia.
Qed.

(** Large CIDs and SDVL lengths round-trip and are canonical: what
    [write_large] emits into a buffer with room is read back as the same value
    with the length [encoded_len] announces, whatever follows; and any octets
    [read_large] accepts start with exactly the encoding the writer would have
    produced for the value, so no value has two encodings. *)
Theorem large_cid_roundtrip v s post
  (Hv : 0 <= v <= large_cid_max) (Hr : encoded_len v <= room s) :
  (exists enc, write_large v s = (Ok tt, {| w_out := w_out s ++ enc; w_cap := w_cap s |}) /\
     blen enc = encoded_len v /\ read_large (enc ++ post) = Ok (v, encoded_len v) /\
     forall p w n, bytes_ok p -> read_large p = Ok (w, n) -> w = v ->
       n = encoded_len v /\ take (Z.to_nat n) p = enc).
Proof.
  exists (large_octets v). rewrite write_large_ok, large_octets_len, read_large_octets by done.
  split_and!; try done. intros p w n Hp E ->. pose proof (read_large_inv p Hp) as H.
  rewrite E in H. destruct H as (_ & -> & post' & ->). split; [done|].
  rewrite <- large_octets_len. unfold blen. by rewrite Nat2Z.id, take_app_length.
Qed.

Lemma large_cid_roundtrip_witness :
  exists enc, write_large 300 {| w_out := [0xFD]; w_cap := 8 |} =
    (Ok tt, {| w_out := [0xFD] ++ enc; w_cap := 8 |}) /\
    read_large (enc ++ [0x04]) = Ok (300, 2).
Proof.
  destruct (large_cid_roundtrip 300 {| w_out := [0xFD]; w_cap := 8 |} [0x04])
    as (enc & H1 & _ & H2 & _);
    [vm_compute; split; discriminate|vm_compute; discriminate|].
  exists enc. split; [exact H1|exact H2].
Defined.
