(* ===== verification/Bits.v ===== *)
(** * Bit cursors: include/rohccxx/core/bit_reader.hpp, bit_writer.hpp, bit_crc.hpp

    [BitReader] and [BitWriter] move a bit position, most significant bit
    first, over an octet buffer.  The theorems state what a write puts at each
    bit position, that a reader gets back the fields a writer wrote, and that
    the reader never leaves its buffer. *)

From S2P Require Import Prelude Crc.

Record BitReader := {
  br_buf : bytes;
  br_bit_len : Z;
  br_bitpos : Z;
  br_valid : bool }.

(** The explicit constructor with a buffer length. *)
Definition mk_bit_reader (b : bytes) (byte_len : Z) : BitReader :=
  let max := 2 ^ 64 - 1 in
  {| br_buf := b;
     br_bit_len := if max / 8 <? byte_len then max else byte_len * 8;
     br_bitpos := 0; br_valid := true |}.

(** The default length argument. *)
Definition default_byte_len : Z := (2 ^ 64 - 1) / 8.

Definition can_read (r : BitReader) (bits : Z) : bool :=
  br_valid r && (br_bitpos r <=? br_bit_len r) && (bits <=? br_bit_len r - br_bitpos r).

(** [(buf[bitpos >> 3] >> (7 - (bitpos & 7))) & 1]. *)
Definition fetch_bit (buf : bytes) (bitpos : Z) : outcome Z :=
  let! o := rd buf (Z.shiftr bitpos 3) in
  Ok (Z.land (Z.shiftr o (7 - Z.land bitpos 7)) 1).

Fixpoint read_loop (buf : bytes) (n : nat) (value bitpos : Z) : outcome Z :=
  match n with
  | O => Ok value
  | S n' =>
      let! b := fetch_bit buf bitpos in
      read_loop buf n' (Z.lor (u32 (Z.shiftl value 1)) b) (bitpos + 1)
  end.

Definition set_valid (v : bool) (r : BitReader) : BitReader :=
  {| br_buf := br_buf r; br_bit_len := br_bit_len r; br_bitpos := br_bitpos r; br_valid := v |}.
Definition set_bitpos (p : Z) (r : BitReader) : BitReader :=
  {| br_buf := br_buf r; br_bit_len := br_bit_len r; br_bitpos := p; br_valid := br_valid r |}.

(** [read_bits] has no refusal: out of range it returns 0 and clears [valid]. *)
Definition read_bits (bits : Z) : M BitReader Z := fun r =>
  if (32 <? bits) || negb (can_read r bits) then (Ok 0, set_valid false r)
  else (read_loop (br_buf r) (Z.to_nat bits) 0 (br_bitpos r),
        set_bitpos (br_bitpos r + bits) r).

Record BitWriter := { bw_buf : bytes; bw_bitpos : Z }.

(** [if(value & (1u << i)) buf[byte] |= (1u << bit);] *)
Definition store_bit (set : bool) (buf : bytes) (bitpos : Z) : outcome bytes :=
  if set then
    let! o := rd buf (Z.shiftr bitpos 3) in
    Ok (<[Z.to_nat (Z.shiftr bitpos 3) :=
          Z.lor o (u8 (Z.shiftl 1 (7 - Z.land bitpos 7)))]> buf)
  else Ok buf.

(** The loop over [i = bits - 1 .. 0]; [n] is [i + 1]. *)
Fixpoint write_loop (value : Z) (n : nat) (buf : bytes) (bitpos : Z) : outcome bytes :=
  match n with
  | O => Ok buf
  | S i =>
      let! buf' := store_bit (negb (Z.land value (Z.shiftl 1 (Z.of_nat i)) =? 0)) buf bitpos in
      write_loop value i buf' (bitpos + 1)
  end.

Definition write_bits (value bits : Z) : M BitWriter unit := fun w =>
  match write_loop value (Z.to_nat bits) (bw_buf w) (bw_bitpos w) with
  | Ok buf => (Ok tt, {| bw_buf := buf; bw_bitpos := bw_bitpos w + bits |})
  | Rej => (Rej, w)
  | Ub => (Ub, w)
  end.

Definition bytes_written (w : BitWriter) : Z := Z.shiftr (bw_bitpos w + 7) 3.

(** [validate_crc7_bits]: the last seven bits against the CRC-7 of the octets
    that cover the bits before them. *)
Definition validate_crc7_bits (buf : bytes) (total_bits : Z) : outcome bool :=
  if total_bits <? 7 then Ok false
  else
    let data_bits := total_bits - 7 in
    let data_bytes := Z.shiftr (data_bits + 7) 3 in
    let! data := slice buf 0 data_bytes in
    let expected := Z.land (crc7 data) 0x7F in
    let! received := read_loop buf 7 0 data_bits in
    Ok (expected =? received).

Definition validate_crc8_bits (buf : bytes) (total_bits : Z) : outcome bool :=
  if total_bits <? 8 then Ok false
  else
    let data_bits := total_bits - 8 in
    let data_bytes := Z.shiftr (data_bits + 7) 3 in
    let! data := slice buf 0 data_bytes in
    let! received := read_loop buf 8 0 data_bits in
    Ok (crc8 data =? received).

(** ** The buffer as a sequence of bits *)

Definition bit_at (buf : bytes) (i : Z) : bool :=
  Z.testbit (nth (Z.to_nat (i / 8)) buf 0) (7 - i mod 8).

(** The number whose bits, most significant first, are [bs]. *)
Definition bits_val (bs : list bool) : Z :=
  fold_left (fun v b => 2 * v + Z.b2z b) bs 0.

(** The [n] bits at position [p]. *)
Fixpoint bits_at (buf : bytes) (p : Z) (n : nat) : list bool :=
  match n with O => [] | S n' => bit_at buf p :: bits_at buf (p + 1) n' end.

(** The [n] low bits of [v], most significant first. *)
Fixpoint bits_of (v : Z) (n : nat) : list bool :=
  match n with O => [] | S i => Z.testbit v (Z.of_nat i) :: bits_of v i end.

Lemma shiftr_3 p : Z.shiftr p 3 = p / 8.
Proof. by rewrite Z.shiftr_div_pow2. Qed.

Lemma land_7 p : Z.land p 7 = p mod 8.
Proof. change 7 with (Z.ones 3). by rewrite Z.land_ones. Qed.

Lemma mod8_bound p : 0 <= p mod 8 < 8.
Proof. apply Z.mod_pos_bound. lia. Qed.


Lemma fetch_bit_spec buf p :
  0 <= p < 8 * blen buf -> fetch_bit buf p = Ok (Z.b2z (bit_at buf p)).
Proof.
  intros Hp. unfold fetch_bit, bit_at. rewrite shiftr_3, land_7.
  pose proof (mod8_bound p).
  rewrite rd_nth by (Z.div_mod_to_equations; lia). cbn [obind]. f_equal.
  change 1 with (Z.ones 1). rewrite Z.land_ones, <- Z.bit0_mod by lia.
  rewrite Z.shiftr_spec by lia. by rewrite Z.add_0_l.
Qed.

Lemma bits_at_length buf p n : length (bits_at buf p n) = n.
Proof. revert p. induction n; simpl; auto. Qed.

Lemma bits_of_length v n : length (bits_of v n) = n.
Proof. induction n; simpl; auto. Qed.

Lemma fold_bits_val bs v :
  fold_left (fun v b => 2 * v + Z.b2z b) bs v = v * 2 ^ Z.of_nat (length bs) + bits_val bs.
Proof.
  unfold bits_val. revert v. induction bs as [|b bs IH]; intros v; [simpl; lia|].
  cbn [fold_left length]. rewrite IH, (IH (2 * 0 + Z.b2z b)).
  rewrite Nat2Z.inj_succ, Z.pow_succ_r by lia. lia.
Qed.

Lemma bits_val_bound bs : 0 <= bits_val bs < 2 ^ Z.of_nat (length bs).
Proof.
  induction bs as [|b bs IH]; [by vm_compute|].
  unfold bits_val in *. cbn [fold_left length]. rewrite fold_bits_val. fold (bits_val bs) in *.
  rewrite Nat2Z.inj_succ, Z.pow_succ_r by lia. destruct b; cbn [Z.b2z]; lia.
Qed.

Lemma bits_val_of v n : bits_val (bits_of v n) = v mod 2 ^ Z.of_nat n.
Proof.
  induction n as [|i IH]; [by rewrite Z.mod_1_r|].
  unfold bits_val in *. cbn [fold_left bits_of]. rewrite fold_bits_val, bits_of_length.
  fold (bits_val (bits_of v i)) in *. rewrite IH.
  rewrite Nat2Z.inj_succ, Z.pow_succ_r by lia.
  rewrite (Z.mul_comm 2 (2 ^ _)), Z.rem_mul_r by lia.
  rewrite Z.testbit_spec' by lia. ring.
Qed.

Lemma read_loop_spec buf n v p :
  0 <= p -> p + Z.of_nat n <= 8 * blen buf ->
  0 <= v -> v * 2 ^ Z.of_nat n + (2 ^ Z.of_nat n - 1) < 2 ^ 32 ->
  read_loop buf n v p = Ok (v * 2 ^ Z.of_nat n + bits_val (bits_at buf p n)).
Proof.
  revert v p. induction n as [|n IH]; intros v p H0 H1 H2 H3.
  { simpl. f_equal. unfold bits_val. simpl. lia. }
  cbn [read_loop]. rewrite fetch_bit_spec by lia. cbn [obind].
  rewrite Nat2Z.inj_succ, Z.pow_succ_r in * by lia.
  assert (0 < 2 ^ Z.of_nat n) by (apply Z.pow_pos_nonneg; lia).
  assert (Hv : u32 (Z.shiftl v 1) = Z.shiftl v 1).
  { unfold u32. rewrite Z.shiftl_mul_pow2 by lia. apply Z.mod_small. nia. }
  assert (E : Z.lor (u32 (Z.shiftl v 1)) (Z.b2z (bit_at buf p)) = 2 * v + Z.b2z (bit_at buf p)).
  { rewrite Hv, lor_disjoint_add; [lia|lia|]. destruct (bit_at buf p); cbn; lia. }
  assert (0 <= Z.b2z (bit_at buf p) <= 1) by (destruct (bit_at buf p); cbn; lia).
  rewrite E, IH by nia.
  f_equal. cbn [bits_at]. unfold bits_val at 2. cbn [fold_left].
  rewrite fold_bits_val, bits_at_length. lia.
Qed.

(** ** What a write does to each bit *)

Lemma testbit_land_pow2 v i : 0 <= i -> negb (Z.land v (Z.shiftl 1 i) =? 0) = Z.testbit v i.
Proof.
  intros Hi. rewrite Z.shiftl_1_l. destruct (Z.testbit v i) eqn:E.
  - apply negb_true_iff, Z.eqb_neq. intros H0.
    assert (Z.testbit (Z.land v (2 ^ i)) i = false) by (rewrite H0; apply Z.bits_0).
    rewrite Z.land_spec, Z.pow2_bits_true, E in H by done. done.
  - apply negb_false_iff, Z.eqb_eq. apply Z.bits_inj'. intros j Hj.
    rewrite Z.land_spec, Z.bits_0. destruct (decide (j = i)) as [->|].
    + by rewrite E.
    + rewrite Z.pow2_bits_false by done. apply andb_false_r.
Qed.

Lemma u8_pow2 k : 0 <= k < 8 -> u8 (Z.shiftl 1 k) = 2 ^ k.
Proof.
  intros. rewrite Z.shiftl_1_l. apply Z.mod_small. split; [lia|].
  apply Z.pow_lt_mono_r; lia.
Qed.

Lemma store_bit_spec b buf p :
  0 <= p < 8 * blen buf ->
  exists buf', store_bit b buf p = Ok buf' /\ blen buf' = blen buf /\
    forall i, 0 <= i -> bit_at buf' i = if i =? p then bit_at buf p || b else bit_at buf i.
Proof.
  intros Hp. unfold store_bit. destruct b.
  2:{ exists buf. split_and!; try done. intros i Hi.
      destruct (Z.eqb_spec i p) as [->|]; [by rewrite orb_false_r|done]. }
  rewrite shiftr_3, land_7. pose proof (mod8_bound p).
  rewrite rd_nth by (Z.div_mod_to_equations; lia). cbn [obind].
  eexists; split; [done|]. split; [unfold blen; by rewrite length_insert|].
  intros i Hi. unfold bit_at. rewrite u8_pow2 by lia.
  set (q := Z.to_nat (p / 8)). unfold blen in Hp.
  assert (Hq : (q < length buf)%nat) by (unfold q; Z.div_mod_to_equations; lia).
  destruct (decide (i / 8 = p / 8)) as [Ed|Ed].
  - rewrite Ed. fold q.
    rewrite (nth_lookup_Some (<[q:=_]> buf) q 0 _ (list_lookup_insert_eq _ _ _ Hq)).
    rewrite Z.lor_spec. destruct (Z.eqb_spec i p) as [->|Hn].
    + rewrite Z.pow2_bits_true by lia. by rewrite !orb_true_r.
    + rewrite Z.pow2_bits_false by (Z.div_mod_to_equations; lia). by rewrite orb_false_r.
  - destruct (Z.eqb_spec i p) as [->|Hn]; [done|].
    assert (Z.to_nat (i / 8) <> q) by (unfold q; Z.div_mod_to_equations; lia).
    f_equal. rewrite !nth_lookup. by rewrite list_lookup_insert_ne.
Qed.

Lemma write_loop_spec v n buf p :
  0 <= p -> p + Z.of_nat n <= 8 * blen buf ->
  exists buf', write_loop v n buf p = Ok buf' /\ blen buf' = blen buf /\
    forall i, 0 <= i -> bit_at buf' i =
      if (p <=? i) && (i <? p + Z.of_nat n)
      then bit_at buf i || Z.testbit v (p + Z.of_nat n - 1 - i) else bit_at buf i.
Proof.
  revert buf p. induction n as [|n IH]; intros buf p H0 H1.
  { exists buf. split_and!; try done. intros i Hi.
    destruct (Z.leb_spec p i), (Z.ltb_spec i (p + Z.of_nat 0)); try done; lia. }
  cbn [write_loop]. rewrite testbit_land_pow2 by lia.
  destruct (store_bit_spec (Z.testbit v (Z.of_nat n)) buf p) as (b1 & -> & L1 & S1); [lia|].
  cbn [obind]. destruct (IH b1 (p + 1)) as (b2 & -> & L2 & S2); [lia..|].
  exists b2. split_and!; [done|lia|]. intros i Hi. rewrite S2, S1 by done.
  rewrite Nat2Z.inj_succ.
  destruct (Z.eqb_spec i p) as [->|].
  - rewrite (proj2 (Z.leb_gt (p + 1) p)) by lia. cbn [andb].
    rewrite (proj2 (Z.leb_le p p)) by lia. rewrite (proj2 (Z.ltb_lt p _)) by lia.
    cbn [andb]. f_equal. f_equal. lia.
  - destruct (Z.leb_spec (p + 1) i), (Z.leb_spec p i),
      (Z.ltb_spec i (p + 1 + Z.of_nat n)), (Z.ltb_spec i (p + Z.succ (Z.of_nat n)));
      cbn [andb]; try lia; try done.
    do 2 f_equal. lia.
Qed.

Lemma bits_at_ext buf buf' p n :
  (forall i, p <= i < p + Z.of_nat n -> bit_at buf i = bit_at buf' i) ->
  bits_at buf p n = bits_at buf' p n.
Proof.
  revert p. induction n as [|n IH]; intros p H; [done|].
  cbn [bits_at]. rewrite H by lia. f_equal. apply IH. intros. apply H. lia.
Qed.

Lemma bits_at_written buf v p n :
  (forall i, p <= i < p + Z.of_nat n -> bit_at buf i = Z.testbit v (p + Z.of_nat n - 1 - i)) ->
  bits_at buf p n = bits_of v n.
Proof.
  revert p. induction n as [|n IH]; intros p H; [done|].
  cbn [bits_at bits_of]. rewrite H by lia. f_equal; [f_equal; lia|].
  apply IH. intros i Hi. rewrite H by lia. f_equal. lia.
Qed.

(** ** Sequences of fields *)

(** A field is a value and its width in bits. *)
Fixpoint write_fields (fs : list (Z * Z)) : M BitWriter unit :=
  match fs with
  | [] => ret tt
  | (v, k) :: fs' => write_bits v k ;;; write_fields fs'
  end.

Fixpoint read_fields (ks : list Z) : M BitReader (list Z) :=
  match ks with
  | [] => ret []
  | k :: ks' => v <- read_bits k ;; vs <- read_fields ks' ;; ret (v :: vs)
  end.

Definition total_bits (fs : list (Z * Z)) : Z := fold_right (fun f n => snd f + n) 0 fs.

Definition fields_ok (fs : list (Z * Z)) : Prop :=
  Forall (fun f => 0 <= snd f <= 32 /\ 0 <= fst f < 2 ^ snd f) fs.

Lemma total_bits_nonneg fs : fields_ok fs -> 0 <= total_bits fs.
Proof. induction 1 as [|[v k] fs [Hk Hv] _ IH]; simpl in *; lia. Qed.

(** The buffer [buf] holds the fields [fs] at bit position [p]. *)
Fixpoint holds (buf : bytes) (p : Z) (fs : list (Z * Z)) : Prop :=
  match fs with
  | [] => True
  | (v, k) :: fs' => bits_at buf p (Z.to_nat k) = bits_of v (Z.to_nat k) /\ holds buf (p + k) fs'
  end.

Lemma holds_ext buf buf' p fs :
  fields_ok fs -> 0 <= p ->
  (forall i, p <= i -> bit_at buf i = bit_at buf' i) -> holds buf p fs -> holds buf' p fs.
Proof.
  intros Hf. revert p. induction Hf as [|[v k] fs [Hk Hv] _ IH]; intros p Hp He H; [done|].
  cbn [holds fst snd] in *. destruct H as [H1 H2]. split.
  - rewrite <- H1. symmetry. apply bits_at_ext. intros. apply He. lia.
  - apply IH; auto; [lia|]. intros. apply He. lia.
Qed.

Lemma write_fields_spec fs w :
  fields_ok fs -> 0 <= bw_bitpos w -> bw_bitpos w + total_bits fs <= 8 * blen (bw_buf w) ->
  (forall i, bw_bitpos w <= i -> bit_at (bw_buf w) i = false) ->
  exists buf', write_fields fs w = (Ok tt, {| bw_buf := buf'; bw_bitpos := bw_bitpos w + total_bits fs |}) /\
    blen buf' = blen (bw_buf w) /\ holds buf' (bw_bitpos w) fs /\
    (forall i, 0 <= i < bw_bitpos w -> bit_at buf' i = bit_at (bw_buf w) i) /\
    (forall i, bw_bitpos w + total_bits fs <= i -> bit_at buf' i = false).
Proof.
  intros Hf. revert w. induction Hf as [|[v k] fs [Hk Hv] Hfs IH]; intros [buf p] Hp Hl Hz;
    cbn [bw_buf bw_bitpos total_bits fold_right fst snd] in *.
  { exists buf. rewrite Z.add_0_r. split_and!; try done. }
  fold (total_bits fs) in *. pose proof (total_bits_nonneg fs Hfs).
  destruct (write_loop_spec v (Z.to_nat k) buf p) as (b1 & E1 & L1 & S1); [lia..|].
  rewrite Z2Nat.id in * by lia.
  destruct (IH {| bw_buf := b1; bw_bitpos := p + k |}) as (b2 & E2 & L2 & H2 & K2 & Z2);
    cbn [bw_buf bw_bitpos] in *; [lia..| |].
  { intros i Hi. rewrite S1 by lia. rewrite (proj2 (Z.ltb_ge i (p + k))) by lia.
    rewrite andb_false_r. apply Hz. lia. }
  exists b2. split_and!.
  - cbn [write_fields]. unfold bind. unfold write_bits at 1. cbn [bw_buf bw_bitpos].
    rewrite E1, E2. by rewrite Z.add_assoc.
  - lia.
  - cbn [holds]. split; [|done]. apply bits_at_written. rewrite Z2Nat.id by lia.
    intros i Hi. rewrite K2, S1 by lia.
    rewrite (proj2 (Z.leb_le p i)), (proj2 (Z.ltb_lt i (p + k))) by lia.
    by rewrite Hz by lia.
  - intros i Hi. rewrite K2, S1 by lia. by rewrite (proj2 (Z.leb_gt p i)) by lia.
  - intros i Hi. apply Z2. lia.
Qed.

Lemma read_fields_spec fs r :
  fields_ok fs -> 0 <= br_bitpos r -> br_valid r = true ->
  br_bitpos r + total_bits fs <= br_bit_len r ->
  br_bitpos r + total_bits fs <= 8 * blen (br_buf r) ->
  holds (br_buf r) (br_bitpos r) fs ->
  read_fields (map snd fs) r = (Ok (map fst fs), set_bitpos (br_bitpos r + total_bits fs) r).
Proof.
  intros Hf. revert r. induction Hf as [|[v k] fs [Hk Hv] Hfs IH]; intros r Hp Hval Hl1 Hl2 Hh.
  { cbn. rewrite Z.add_0_r. by destruct r. }
  cbn [total_bits fold_right fst snd holds map] in *. fold (total_bits fs) in *.
  pose proof (total_bits_nonneg fs Hfs). destruct Hh as [H1 H2].
  cbn [read_fields]. unfold bind at 1. unfold read_bits at 1, can_read.
  rewrite Hval, (proj2 (Z.ltb_ge 32 k)), (proj2 (Z.leb_le (br_bitpos r) _)),
    (proj2 (Z.leb_le k _)) by lia. cbn [andb orb negb].
  assert (0 < 2 ^ k <= 2 ^ 32) by (split; [lia|apply Z.pow_le_mono_r; lia]).
  rewrite read_loop_spec by (rewrite ?Z2Nat.id by lia; lia).
  rewrite H1, bits_val_of, Z2Nat.id, Z.mul_0_l, Z.add_0_l, Z.mod_small by lia.
  unfold bind at 1. rewrite IH; cbn [br_buf br_bitpos br_bit_len br_valid set_bitpos]; try done; try lia.
  cbn. unfold set_bitpos. cbn. by rewrite Z.add_assoc.
Qed.

Lemma holds_repeat0 n i : bit_at (repeat 0 n) i = false.
Proof.
  unfold bit_at. destruct (nth_in_or_default (Z.to_nat (i / 8)) (repeat 0 n) 0) as [H| ->].
  - apply repeat_spec in H. rewrite H. apply Z.bits_0.
  - apply Z.bits_0.
Qed.

Lemma mk_bit_reader_eq b n : n < 2 ^ 60 ->
  mk_bit_reader b n =
  {| br_buf := b; br_bit_len := n * 8; br_bitpos := 0; br_valid := true |}.
Proof.
  intros Hn. unfold mk_bit_reader. cbv zeta.
  assert (H : 2 ^ 60 <= (2 ^ 64 - 1) / 8) by (apply Z.leb_le; vm_compute; reflexivity).
  destruct (Z.ltb_spec ((2 ^ 64 - 1) / 8) n) as [Hl|]; [|reflexivity].
  exfalso. apply (Z.lt_irrefl n). eapply Z.lt_trans; [exact Hn|].
  eapply Z.le_lt_trans; [exact H|exact Hl].
Qed.

(** A reader gets back what a writer wrote: any sequence of fields, each of
    at most 32 bits and within its width, written by [write_bits] into a zeroed
    buffer that has room is returned unchanged by [read_bits] calls of the same
    widths, the reader stays valid, and both cursors end at the same bit. *)
Theorem bit_fields_roundtrip fs n
  (Hf : fields_ok fs) (Hn : total_bits fs <= 8 * Z.of_nat n) (Hs : Z.of_nat n < 2 ^ 60) :
  exists buf, write_fields fs {| bw_buf := repeat 0 n; bw_bitpos := 0 |} =
      (Ok tt, {| bw_buf := buf; bw_bitpos := total_bits fs |}) /\
    blen buf = Z.of_nat n /\
    read_fields (map snd fs) (mk_bit_reader buf (blen buf)) =
      (Ok (map fst fs), set_bitpos (total_bits fs) (mk_bit_reader buf (blen buf))).
Proof.
  destruct (write_fields_spec fs {| bw_buf := repeat 0 n; bw_bitpos := 0 |}) as (buf & E & L & Hh & _);
    cbn [bw_buf bw_bitpos]; [done|lia|unfold blen; rewrite repeat_length; lia| |].
  { intros. apply holds_repeat0. }
  cbn [bw_buf bw_bitpos] in *. unfold blen in L at 2. rewrite repeat_length in L.
  rewrite Z.add_0_l in E. exists buf. split_and!; [done|done|].
  rewrite mk_bit_reader_eq by (by rewrite L).
  rewrite read_fields_spec; cbn [br_buf br_bitpos br_bit_len br_valid];
    [by rewrite Z.add_0_l|done|lia|done|lia|lia|done].
Qed.

Lemma bit_fields_roundtrip_witness :
  exists buf, write_fields [(5, 3); (0x2A, 6); (0x11, 7)] {| bw_buf := [0; 0]; bw_bitpos := 0 |} =
      (Ok tt, {| bw_buf := buf; bw_bitpos := 16 |}).
Proof.
  destruct (bit_fields_roundtrip [(5, 3); (0x2A, 6); (0x11, 7)] 2) as (buf & E & _).
  - repeat constructor; vm_compute; discriminate.
  - vm_compute. discriminate.
  - vm_compute. reflexivity.
  - exists buf. exact E.
Defined.

(** A bounded reader over a buffer of its length never leaves it. *)
Definition reader_ok (r : BitReader) : Prop :=
  0 <= br_bitpos r /\ (br_valid r = true -> br_bitpos r <= br_bit_len r) /\
  br_bit_len r <= 8 * blen (br_buf r).

Lemma read_bits_safe k r :
  reader_ok r -> 0 <= k ->
  wp (read_bits k)
     (fun v r' => reader_ok r' /\ br_buf r' = br_buf r /\ br_bit_len r' = br_bit_len r /\
        0 <= v < 2 ^ k /\ (br_valid r' = true -> br_bitpos r' = br_bitpos r + k /\ k <= 32 /\
           br_bitpos r' <= br_bit_len r))
     (fun _ => False) r.
Proof.
  intros (H0 & H1 & H2) Hk. unfold wp, read_bits, can_read.
  assert (0 < 2 ^ k) by (apply Z.pow_pos_nonneg; lia).
  destruct (Z.ltb_spec 32 k); cbn [orb].
  { unfold reader_ok; cbn. split_and!; try done; lia. }
  destruct (br_valid r) eqn:Ev; cbn [andb negb]; cycle 1.
  { unfold reader_ok; cbn. split_and!; try done; lia. }
  destruct (Z.leb_spec (br_bitpos r) (br_bit_len r)); cbn [andb negb]; cycle 1.
  { unfold reader_ok; cbn. split_and!; try done; lia. }
  destruct (Z.leb_spec k (br_bit_len r - br_bitpos r)); cbn [negb]; cycle 1.
  { unfold reader_ok; cbn. split_and!; try done; lia. }
  assert (2 ^ k <= 2 ^ 32) by (apply Z.pow_le_mono_r; lia).
  rewrite read_loop_spec by (rewrite ?Z2Nat.id by lia; lia).
  pose proof (bits_val_bound (bits_at (br_buf r) (br_bitpos r) (Z.to_nat k))) as B.
  rewrite bits_at_length, Z2Nat.id in B by lia.
  unfold reader_ok; cbn. split_and!; try done; lia.
Qed.

Lemma validate_crc7_bits_safe buf n :
  0 <= n <= 8 * blen buf -> exists b, validate_crc7_bits buf n = Ok b.
Proof.
  intros Hn. unfold validate_crc7_bits. destruct (Z.ltb_spec n 7); [by eexists|].
  rewrite shiftr_3.
  destruct (slice_in_range buf 0 ((n - 7 + 7) / 8)) as (d & -> & _);
    [lia|Z.div_mod_to_equations; lia..|]. cbn [obind].
  rewrite read_loop_spec by (change (Z.of_nat 7) with 7; lia). cbn [obind]. by eexists.
Qed.

(** * Octets from bits *)

Lemma byte_bits a b : byte_ok a -> byte_ok b ->
  (forall j, 0 <= j < 8 -> Z.testbit a j = Z.testbit b j) -> a = b.
Proof.
  intros Ha Hb H. apply Z.bits_inj'. intros j Hj. destruct (Z.ltb_spec j 8) as [Hlt|Hge].
  - apply H. lia.
  - assert (Hhigh : forall x, byte_ok x -> Z.testbit x j = false).
    { intros x Hx. unfold byte_ok in Hx. destruct (Z.eq_dec x 0) as [->|]; [apply Z.testbit_0_l|].
      apply Z.bits_above_log2; [lia|]. apply Z.log2_lt_pow2; [lia|].
      apply Z.lt_le_trans with (2 ^ 8); [lia|]. by apply Z.pow_le_mono_r. }
    by rewrite !Hhigh.
Qed.

(** Buffers of octets with the same bits below an octet have the same octets. *)
Lemma same_bits_take a b n : bytes_ok a -> bytes_ok b -> length a = length b ->
  (forall i, 0 <= i < 8 * Z.of_nat n -> bit_at a i = bit_at b i) -> take n a = take n b.
Proof.
  intros Ha Hb Hl H. apply list_eq. intros i.
  destruct (decide (i < n)%nat) as [Hin|]; [|by rewrite !lookup_take_ge by lia].
  rewrite !lookup_take_lt by done.
  destruct (decide (i < length a)%nat) as [Hia|]; [|by rewrite !lookup_ge_None_2 by lia].
  destruct (lookup_lt_is_Some_2 a i Hia) as [x Hx].
  destruct (lookup_lt_is_Some_2 b i ltac:(lia)) as [y Hy]. rewrite Hx, Hy. f_equal.
  apply byte_bits; [by eapply (Forall_lookup_1 _ a)|by eapply (Forall_lookup_1 _ b)|].
  intros j Hj. specialize (H (8 * Z.of_nat i + (7 - j)) ltac:(lia)). unfold bit_at in H.
  replace ((8 * Z.of_nat i + (7 - j)) / 8) with (Z.of_nat i) in H by (Z.div_mod_to_equations; lia).
  replace ((8 * Z.of_nat i + (7 - j)) mod 8) with (7 - j) in H by (Z.div_mod_to_equations; lia).
  replace (7 - (7 - j)) with j in H by lia.
  by rewrite Nat2Z.id, (nth_lookup_Some a _ 0 _ Hx), (nth_lookup_Some b _ 0 _ Hy) in H.
Qed.

Lemma write_loop_octets v n buf p buf' : bytes_ok buf -> write_loop v n buf p = Ok buf' -> bytes_ok buf'.
Proof.
  revert buf p. induction n as [|n IH]; intros buf p Hb E; cbn [write_loop] in E; [by injection E as <-|].
  destruct (store_bit _ buf p) as [b1| |] eqn:E1; [|done|done]. cbn [obind] in E.
  eapply IH; [|exact E]. unfold store_bit in E1. destruct (negb _); [|by injection E1 as <-].
  destruct (rd buf _) as [o| |] eqn:Eo; [|done|done]. cbn [obind] in E1. injection E1 as <-.
  apply Forall_insert; [done|]. apply lor_byte; [|apply byte_u8].
  unfold rd in Eo. destruct (_ <? 0); [done|]. destruct (buf !! _) eqn:El; [|done].
  injection Eo as <-. by eapply (Forall_lookup_1 _ buf).
Qed.

Lemma write_fields_octets fs w w' :
  bytes_ok (bw_buf w) -> write_fields fs w = (Ok tt, w') -> bytes_ok (bw_buf w').
Proof.
  revert w. induction fs as [|[v k] fs IH]; intros w Hb E; [by injection E as <-|].
  cbn [write_fields] in E. unfold bind, write_bits in E.
  destruct (write_loop v (Z.to_nat k) (bw_buf w) (bw_bitpos w)) eqn:El; [|done|done].
  eapply IH; [|exact E]. cbn [bw_buf]. by eapply write_loop_octets.
Qed.

Lemma bit_at_prefix a b i : 0 <= i < 8 * blen a -> bit_at (a ++ b) i = bit_at a i.
Proof.
  intros Hi. unfold bit_at, blen in *. f_equal. apply app_nth1. Z.div_mod_to_equations. lia.
Qed.

Lemma bit_at_suffix a b c i : length a = length b -> 8 * blen a <= i -> bit_at (a ++ c) i = bit_at (b ++ c) i.
Proof.
  intros Hl Hi. unfold bit_at, blen in *. f_equal.
  rewrite !app_nth2 by (Z.div_mod_to_equations; lia). by rewrite Hl.
Qed.

Lemma bit_at_take a n i : 0 <= i < 8 * Z.of_nat n -> (n <= length a)%nat -> bit_at (take n a) i = bit_at a i.
Proof.
  intros Hi Hn. rewrite <- (take_drop n a) at 2. rewrite bit_at_prefix; [done|].
  unfold blen. rewrite length_take. lia.
Qed.

Lemma holds_bits a b p fs : fields_ok fs -> 0 <= p ->
  (forall i, p <= i < p + total_bits fs -> bit_at a i = bit_at b i) -> holds a p fs -> holds b p fs.
Proof.
  intros Hf. revert p. induction Hf as [|[v k] fs [Hk Hv] Hfs IH]; intros p Hp He H; [done|].
  cbn [holds total_bits fold_right fst snd] in *. fold (total_bits fs) in *.
  pose proof (total_bits_nonneg fs Hfs). destruct H as [H1 H2]. split.
  - rewrite <- H1. symmetry. apply bits_at_ext. intros. apply He. lia.
  - apply IH; auto; [lia|]. intros. apply He. lia.
Qed.

(** * One field *)

Lemma read_bits_at buf len p v k :
  0 <= k <= 32 -> 0 <= v < 2 ^ k -> 0 <= p -> p + k <= len -> p + k <= 8 * blen buf ->
  bits_at buf p (Z.to_nat k) = bits_of v (Z.to_nat k) ->
  read_bits k {| br_buf := buf; br_bit_len := len; br_bitpos := p; br_valid := true |} =
    (Ok v, {| br_buf := buf; br_bit_len := len; br_bitpos := p + k; br_valid := true |}).
Proof.
  intros Hk Hv Hp Hl Hb H. set (r := {| br_bitpos := p |}).
  pose proof (read_fields_spec [(v, k)] r) as R.
  cbn [map fst snd read_fields total_bits fold_right holds br_bitpos br_valid br_bit_len br_buf r] in R.
  rewrite Z.add_0_r in R. unfold bind, ret, r in R.
  specialize (R ltac:(by apply Forall_singleton) Hp eq_refl ltac:(lia) ltac:(lia) (conj H I)).
  destruct (read_bits k _) as [[x| |] r']; [|done|done]. by injection R as -> ->.
Qed.

(** A run of [write_bits] calls is [write_fields]. *)
Lemma write_fields_then {A} fs (m : M BitWriter A) w :
  fold_right (fun f m => write_bits (fst f) (snd f) ;;; m) m fs w = (write_fields fs ;;; m) w.
Proof.
  revert w. induction fs as [|[v k] fs IH]; intros w; [done|].
  cbn [fold_right write_fields fst snd]. rewrite bind_assoc. unfold bind at 1 3.
  destruct (write_bits v k w) as [[[]| |] w']; [|done|done]. apply IH.
Qed.

(** Fields written behind everything that is set. *)
Lemma write_fields_at fs buf p : fields_ok fs -> bytes_ok buf -> 0 <= p ->
  p + total_bits fs <= 8 * blen buf -> (forall i, p <= i -> bit_at buf i = false) ->
  exists buf', write_fields fs {| bw_buf := buf; bw_bitpos := p |} =
      (Ok tt, {| bw_buf := buf'; bw_bitpos := p + total_bits fs |}) /\
    bytes_ok buf' /\ length buf' = length buf /\ holds buf' p fs /\
    (forall i, 0 <= i < p -> bit_at buf' i = bit_at buf i) /\
    (forall i, p + total_bits fs <= i -> bit_at buf' i = false).
Proof.
  intros Hf Hb Hp Hl Hz.
  destruct (write_fields_spec fs {| bw_buf := buf; bw_bitpos := p |} Hf Hp Hl Hz)
    as (buf' & E & L & H1 & H2 & H3). cbn [bw_buf bw_bitpos] in *.
  pose proof (write_fields_octets fs {| bw_buf := buf; bw_bitpos := p |} _ Hb E) as Hb'.
  exists buf'. split_and!; try done. unfold blen in L. lia.
Qed.
