(* ===== verification/Encoding.v ===== *)
(** * Encoding methods: include/rohccxx/core/lsb_window.hpp, encoding_methods.hpp

    Least-significant-bit encodings and their interpretation intervals, IP-ID
    offsets, scaled and timer-based RTP timestamps, and the compressed lists of
    the chains.  The theorems give the exact window in which each LSB decoding
    is right, the inverse laws of the scalar encodings, the list round trip and
    the tiling invariant of the IPv6 extension-header walk. *)

From S2P Require Import Prelude Cid.

(** ** [LsbWindow<T, WindowSize>] for a [w]-bit [T] *)

Module LsbWindow.

(** [wrap w z] is the value of [z] stored in a [w]-bit unsigned integer. *)
Definition wrap (w z : Z) : Z := z mod 2 ^ w.

Definition init (initial : Z) : Z := initial.
Definition update (ref value : Z) : Z := value.

Definition dist_mod (w a b : Z) : Z :=
  let d := if b <=? a then a - b else b - a in
  let wrapped := wrap w (2 ^ w - 1 - d + 1) in
  if d <? wrapped then d else wrapped.

(** [uint16_t] operands are promoted to [int], so only for wider types does the
    sum [ref + half] wrap before the division. *)
Definition rounded (w x : Z) : Z := if w <=? 16 then x else wrap w x.

(** [k >= w] shifts out of the type or divides by zero. *)
Definition decode (w ref lsb k : Z) : outcome Z :=
  if w <=? k then Ub
  else
    let range := Z.shiftl 1 k in
    let half := Z.shiftr range 1 in
    let base := wrap w (rounded w (ref + half) / range * range) in
    let c0 := wrap w (base + lsb) in
    let c1 := wrap w (c0 + range) in
    let c2 := wrap w (c0 - range) in
    let best_dist := dist_mod w c0 ref in
    let d1 := dist_mod w c1 ref in
    let best := if d1 <? best_dist then c1 else c0 in
    let best_dist := if d1 <? best_dist then d1 else best_dist in
    let d2 := dist_mod w c2 ref in
    Ok (if d2 <? best_dist then c2 else best).

End LsbWindow.

(** ** Field widths *)

Inductive EncodedField :=
| RtpSequence | RtpTimestamp | IpId | IpIdOffset | UdpChecksum | UdpLiteCoverage.

Inductive ProfileList :=
| Generic | Ipv4Options | Ipv6ExtensionHeaders | RtpCsrc | RtpExtensionHeaders.

Inductive ExtensionListKind := ListEmpty | ListNonEmpty.

Definition natural_field_width (field : EncodedField) : Z :=
  match field with
  | RtpTimestamp => 32
  | RtpSequence | IpId | IpIdOffset | UdpChecksum | UdpLiteCoverage => 16
  end.

Definition default_lsb_width (field : EncodedField) : Z :=
  match field with
  | RtpSequence => 6
  | RtpTimestamp => 8
  | IpId | IpIdOffset | UdpChecksum | UdpLiteCoverage => natural_field_width field
  end.

Definition mask_for_width (width : Z) : Z :=
  if 32 <=? width then 0xFFFFFFFF else Z.shiftl 1 width - 1.

Definition least_significant_bits (value width : Z) : Z := Z.land value (mask_for_width width).

Definition lsb_u16 (value width : Z) : Z := u16 (least_significant_bits value width).
Definition lsb_u32 (value width : Z) : Z := least_significant_bits value width.

(** The loop over [width = min_width .. 31]; [n] widths remain. *)
Fixpoint minimal_lsb_loop (value reference width : Z) (n : nat) : Z :=
  match n with
  | O => 32
  | S n' =>
      if least_significant_bits value width =? least_significant_bits reference width
      then minimal_lsb_loop value reference (width + 1) n'
      else width
  end.

Definition minimal_lsb_width (value reference min_width : Z) : Z :=
  minimal_lsb_loop value reference min_width (Z.to_nat (32 - min_width)).

Definition modulus_for_width (width : Z) : Z :=
  if 32 <=? width then Z.shiftl 1 32 else Z.shiftl 1 width.

Definition decode_lsb_with_p (lsb width reference p field_width : Z) : outcome Z :=
  check negb ((width =? 0) || (field_width =? 0) || (32 <? field_width) ||
              (field_width <? width)) in
  let range := modulus_for_width width in
  let modulus := modulus_for_width field_width in
  check negb ((range <=? p) || negb (Z.land lsb (range - 1) =? lsb)) in
  if width =? field_width then Ok (Z.land lsb (mask_for_width field_width))
  else
    let ref := Z.land reference (modulus - 1) in
    let lower := (ref + modulus - p mod modulus) mod modulus in
    let candidate := Z.lor (Z.land lower (u64 (Z.lnot (range - 1)))) lsb in
    let candidate :=
      if range <=? (candidate + modulus - lower) mod modulus
      then (candidate + range) mod modulus else candidate in
    Ok (u32 (Z.land candidate (modulus - 1))).

Definition encode_offset_ip_id (ip_id sequence : Z) : Z := u16 (ip_id - sequence).
Definition decode_offset_ip_id (offset sequence : Z) : Z := u16 (sequence + offset).

Definition effective_width (field : EncodedField) (width : Z) : Z :=
  if width =? 0 then default_lsb_width field else width.

Definition encode_field_lsb (field : EncodedField) (value width : Z) : Z :=
  least_significant_bits value (effective_width field width).

Definition decode_field_lsb_with_p (field : EncodedField) (lsb reference width p : Z) : outcome Z :=
  decode_lsb_with_p lsb (effective_width field width) reference p (natural_field_width field).

(** A refused decoding yields 0. *)
Definition decode_field_lsb (field : EncodedField) (lsb reference width : Z) : Z :=
  let ew := effective_width field width in
  let default_p := if natural_field_width field <=? ew then 0 else Z.shiftl 1 (ew - 1) in
  match decode_field_lsb_with_p field lsb reference ew default_p with
  | Ok decoded => decoded
  | _ => 0
  end.

Definition decode_ip_id_offset_lsb_with_p (offset_lsb sequence reference_offset width p : Z)
  : outcome Z :=
  let! offset := decode_field_lsb_with_p IpIdOffset offset_lsb reference_offset width p in
  Ok (decode_offset_ip_id (u16 offset) sequence).

Definition encode_ip_id_offset_lsb (ip_id sequence width : Z) : Z :=
  u16 (encode_field_lsb IpIdOffset (encode_offset_ip_id ip_id sequence) width).

Definition decode_ip_id_offset_lsb (offset_lsb sequence reference_offset width : Z) : Z :=
  decode_offset_ip_id (u16 (decode_field_lsb IpIdOffset offset_lsb reference_offset width)) sequence.

(** ** Timestamps *)

Record ScaledTimestamp := { scaled : Z; residue : Z }.

(** [Some (stride, residue)], or [None] for [return false]. *)
Definition infer_timestamp_stride (previous_seq previous_ts current_seq current_ts : Z)
  : option (Z * Z) :=
  let seq_delta := u16 (current_seq - previous_seq) in
  let ts_delta := u32 (current_ts - previous_ts) in
  if (seq_delta =? 0) || (ts_delta =? 0) || negb (ts_delta mod seq_delta =? 0) then None
  else
    let stride := ts_delta / seq_delta in
    if 1000 <? stride then None
    else Some (stride, if stride =? 0 then 0 else current_ts mod stride).

Definition can_scale_timestamp (timestamp stride : Z) : bool :=
  negb (stride =? 0) && (timestamp mod stride =? 0).

Definition can_scale_timestamp_residue (timestamp stride residue : Z) : bool :=
  negb (stride =? 0) && (timestamp mod stride =? residue mod stride).

Definition scale_timestamp (timestamp stride : Z) : ScaledTimestamp :=
  {| scaled := if stride =? 0 then timestamp else timestamp / stride;
     residue := if stride =? 0 then 0 else timestamp mod stride |}.

Definition unscale_timestamp (scaled stride residue : Z) : Z :=
  if stride =? 0 then scaled else u32 (scaled * stride + residue).

(** [Some timestamp] when the source's [valid] flag is set. *)
Definition advance_timer_scaled_timestamp
  (reference_timestamp timestamp_stride elapsed_timer_ticks : Z) : option Z :=
  if timestamp_stride =? 0 then None
  else Some (u32 (reference_timestamp + timestamp_stride * elapsed_timer_ticks)).

Definition decode_scaled_lsb (scaled_lsb width reference_timestamp stride residue : Z) : outcome Z :=
  if stride =? 0 then LsbWindow.decode 32 (LsbWindow.init reference_timestamp) scaled_lsb width
  else
    let reference_scaled := reference_timestamp / stride in
    let! decoded_scaled := LsbWindow.decode 32 (LsbWindow.init reference_scaled) scaled_lsb width in
    Ok (unscale_timestamp decoded_scaled stride residue).

Definition decode_scaled_lsb_with_timestamp_prediction
  (scaled_lsb width predicted_timestamp fallback_reference_timestamp stride residue : Z) : outcome Z :=
  let predicted_scaled := scale_timestamp predicted_timestamp stride in
  if negb (stride =? 0) &&
     (encode_field_lsb RtpTimestamp (scaled predicted_scaled) width =? scaled_lsb)
  then Ok predicted_timestamp
  else decode_scaled_lsb scaled_lsb width fallback_reference_timestamp stride residue.

(** [Ok None] is the invalid result. *)
Definition decode_timer_scaled_lsb
  (scaled_lsb width reference_timestamp timestamp_stride elapsed_timer_ticks residue : Z)
  : outcome (option Z) :=
  match advance_timer_scaled_timestamp reference_timestamp timestamp_stride elapsed_timer_ticks with
  | None => Ok None
  | Some ts =>
      let! t := decode_scaled_lsb_with_timestamp_prediction scaled_lsb width ts ts
                  timestamp_stride residue in
      Ok (Some t)
  end.

(** ** Lists *)

Definition write_sdvl_14 (value : Z) : M wst unit := write_large value.
Definition read_sdvl_14 (p : bytes) : outcome (Z * Z) := read_large p.

Definition empty_list_marker : Z := 0x00.
Definition is_non_empty_list_marker (marker : Z) : bool := negb (marker =? empty_list_marker).
Definition is_empty_list (marker : Z) : bool := marker =? empty_list_marker.
Definition classify_extension_list_marker (marker : Z) : ExtensionListKind :=
  if is_empty_list marker then ListEmpty else ListNonEmpty.

Definition write_empty_list : M wst unit :=
  r <- gets room ;;
  guard (1 <=? r) ;;;
  put empty_list_marker.

(** The new position. *)
Definition read_empty_list (inp : bytes) (pos : Z) : outcome Z :=
  check pos <? blen inp in
  let! m := rd inp pos in
  check is_empty_list m in
  Ok (pos + 1).

Record ExtensionListItem := { item_type : Z; item_value : Z }.

Definition item_octets (i : ExtensionListItem) : bytes := [item_type i; item_value i].

Definition write_extension_list (items : list ExtensionListItem) : M wst unit :=
  let count := Z.of_nat (length items) in
  if count =? 0 then write_empty_list
  else
    r <- gets room ;;
    guard (negb ((0x7F <? count) || (r <? 1 + count * 2))) ;;;
    put (u8 (Z.lor 0x80 count)) ;;;
    puts (concat (map item_octets items)).

Fixpoint read_items (inp : bytes) (n : nat) (pos : Z) : outcome (list ExtensionListItem * Z) :=
  match n with
  | O => Ok ([], pos)
  | S n' =>
      let! t := rd inp pos in
      let! v := rd inp (pos + 1) in
      let! r := read_items inp n' (pos + 2) in
      Ok ({| item_type := t; item_value := v |} :: fst r, snd r)
  end.

(** The items and the new position. *)
Definition read_extension_list (inp : bytes) (pos capacity : Z)
  : outcome (list ExtensionListItem * Z) :=
  check pos <? blen inp in
  let! marker := rd inp pos in
  if is_empty_list marker then Ok ([], pos + 1)
  else
    check negb (Z.land marker 0x80 =? 0) in
    let count := Z.land marker 0x7F in
    check negb ((count =? 0) || (capacity <? count) ||
                (usub (usub (blen inp) pos) 1 <? count * 2)) in
    read_items inp (Z.to_nat count) (pos + 1).

Definition write_profile_list (_ : ProfileList) := write_extension_list.
Definition read_profile_list (_ : ProfileList) := read_extension_list.
Definition write_ipv4_options_list := write_profile_list Ipv4Options.
Definition read_ipv4_options_list := read_profile_list Ipv4Options.
Definition write_rtp_csrc_list := write_profile_list RtpCsrc.
Definition read_rtp_csrc_list := read_profile_list RtpCsrc.
Definition write_ipv6_extension_header_list := write_profile_list Ipv6ExtensionHeaders.
Definition read_ipv6_extension_header_list := read_profile_list Ipv6ExtensionHeaders.
Definition write_rtp_extension_header_list := write_profile_list RtpExtensionHeaders.
Definition read_rtp_extension_header_list := read_profile_list RtpExtensionHeaders.

(** ** IPv6 extension headers *)

Record Ipv6ExtensionHeaderItem := {
  ext_type : Z; ext_next_header : Z; ext_offset : Z; ext_length : Z }.

Definition is_ipv6_extension_header_type (next_header : Z) : bool :=
  (next_header =? 0) || (next_header =? 43) || (next_header =? 44) || (next_header =? 60).

Definition ipv6_extension_header_length (data : bytes) (header_type : Z) : outcome Z :=
  if header_type =? 44 then
    check negb (blen data <? 8) in Ok 8
  else
    check negb (blen data <? 2) in
    let! d1 := rd data 1 in
    let computed := (d1 + 1) * 8 in
    check negb ((computed <? 8) || (0xFF <? computed) || (blen data <? computed)) in
    Ok (u8 computed).

(** The loop; [items] are the entries stored so far. *)
Fixpoint parse_ipv6_loop (fuel : nat) (data : bytes) (capacity : Z)
  (items : list Ipv6ExtensionHeaderItem) (current pos : Z)
  : outcome (list Ipv6ExtensionHeaderItem * Z) :=
  if negb (pos <? blen data) then Ok (items, current)
  else
    match fuel with
    | O => Rej
    | S fuel' =>
        check negb (negb (is_ipv6_extension_header_type current) ||
                    (capacity <=? Z.of_nat (length items)) || (0xFF <? pos)) in
        let! t := tail_from data pos in
        let! header_len := ipv6_extension_header_length t current in
        let! d := rd data pos in
        parse_ipv6_loop fuel' data capacity
          (items ++ [{| ext_type := current; ext_next_header := d;
                        ext_offset := u8 pos; ext_length := header_len |}])
          d (pos + header_len)
    end.

(** The items and the terminal next header. *)
Definition parse_ipv6_extension_header_items (data : bytes) (first_next_header capacity : Z)
  : outcome (list Ipv6ExtensionHeaderItem * Z) :=
  if blen data =? 0 then
    check negb (is_ipv6_extension_header_type first_next_header) in
    Ok ([], first_next_header)
  else
    check negb (capacity =? 0) in
    parse_ipv6_loop (length data) data capacity [] first_next_header 0.

Definition validate_ipv6_extension_header_list (data : bytes) (first_next_header : Z) : outcome Z :=
  let! r := parse_ipv6_extension_header_items data first_next_header 16 in
  Ok (snd r).

(** * Properties *)

(** ** Masks *)

Lemma mask_is_ones width : 0 <= width <= 32 -> mask_for_width width = Z.ones width.
Proof.
  intros. unfold mask_for_width. destruct (Z.leb_spec 32 width).
  - by replace width with 32 by lia.
  - unfold Z.ones. lia.
Qed.

Lemma modulus_is_pow2 width : 0 <= width <= 32 -> modulus_for_width width = 2 ^ width.
Proof.
  intros. unfold modulus_for_width. destruct (Z.leb_spec 32 width).
  - by replace width with 32 by lia.
  - apply Z.shiftl_1_l.
Qed.

Lemma lsb_is_mod v width : 0 <= width <= 32 -> least_significant_bits v width = v mod 2 ^ width.
Proof.
  intros. unfold least_significant_bits. rewrite mask_is_ones by done.
  by rewrite Z.land_ones by lia.
Qed.

Lemma land_pred_pow2 v k : 0 <= k -> Z.land v (2 ^ k - 1) = v mod 2 ^ k.
Proof. intros. rewrite <- Z.land_ones by done. by rewrite Z.ones_equiv, Z.sub_1_r. Qed.

Lemma land_high v k :
  0 <= v < 2 ^ 32 -> 0 <= k <= 32 -> Z.land v (u64 (Z.lnot (2 ^ k - 1))) = v / 2 ^ k * 2 ^ k.
Proof.
  intros Hv Hk. rewrite <- Z.shiftr_div_pow2, <- Z.shiftl_mul_pow2 by lia.
  apply Z.bits_inj'. intros i Hi. rewrite Z.land_spec. unfold u64.
  replace (2 ^ k - 1) with (Z.ones k) by (rewrite Z.ones_equiv; lia).
  destruct (decide (i < k)).
  - rewrite Z.shiftl_spec_low by done.
    rewrite Z.mod_pow2_bits_low, Z.lnot_spec, Z.ones_spec_low by lia. by rewrite andb_false_r.
  - rewrite Z.shiftl_spec_high, Z.shiftr_spec by lia. replace (i - k + k) with i by lia.
    destruct (decide (i < 64)).
    + rewrite Z.mod_pow2_bits_low, Z.lnot_spec, Z.ones_spec_high by lia. by rewrite andb_true_r.
    + rewrite <- (Z.mod_small v (2 ^ 32)) by done.
      by rewrite (Z.mod_pow2_bits_high v 32 i) by lia.
Qed.

(** ** Interpretation interval of [decode_lsb_with_p] *)

Lemma mod_mod_divide v N R K : 0 < R -> 0 < K -> N = R * K -> (v mod N) mod R = v mod R.
Proof.
  intros HR HK ->. rewrite Z.rem_mul_r by lia.
  rewrite (Z.mul_comm R), Z.mod_add by lia. by rewrite Z.mod_mod by lia.
Qed.

(** The arithmetic of the decoder, with [N = R * K] the field modulus and [R]
    the LSB range. *)
Lemma interval_decode N R K lower v :
  0 < R -> 2 <= K -> N = R * K -> 0 <= lower < N -> 0 <= v < N ->
  (v - lower) mod N < R ->
  let cand := lower / R * R + v mod R in
  (if R <=? (cand + N - lower) mod N then (cand + R) mod N else cand) = v.
Proof.
  intros HR HK HN Hl Hv Hw. cbv zeta.
  set (x := (v - lower) mod N) in *.
  assert (Hx : 0 <= x) by (apply Z.mod_pos_bound; lia).
  assert (Hvx : v = (lower + x) mod N).
  { unfold x. rewrite Zplus_mod_idemp_r. replace (lower + (v - lower)) with v by lia.
    symmetry. by apply Z.mod_small. }
  pose proof (Z.div_mod lower R ltac:(lia)) as Hd. pose proof (Z.mod_pos_bound lower R HR) as Hr.
  set (q := lower / R) in *. set (r := lower mod R) in *.
  assert (Hlv : v mod R = (r + x) mod R).
  { rewrite Hvx, (mod_mod_divide _ N R K) by lia. unfold r. by rewrite Zplus_mod_idemp_l. }
  rewrite Hlv. assert (0 <= q < K) by nia.
  assert (Hq : q * R + R <= N) by nia.
  destruct (Z.ltb_spec (r + x) R).
  - rewrite (Z.mod_small (r + x) R) by lia.
    replace (q * R + (r + x) + N - lower) with (x + 1 * N) by lia.
    rewrite Z.mod_add, (Z.mod_small x N) by lia.
    rewrite (proj2 (Z.leb_gt R x)) by lia.
    rewrite Hvx, Z.mod_small by lia. lia.
  - assert (E : (r + x) mod R = r + x - R).
    { replace (r + x) with (r + x - R + 1 * R) at 1 by lia.
      rewrite Z.mod_add by lia. apply Z.mod_small. lia. }
    rewrite E. rewrite (Z.mod_small _ N) by nia.
    rewrite (proj2 (Z.leb_le R _)) by nia.
    rewrite Hvx. f_equal. lia.
Qed.

Lemma decode_lsb_with_p_eq width fw reference p lsb :
  0 < width < fw -> fw <= 32 -> 0 <= reference -> 0 <= p < 2 ^ width -> 0 <= lsb < 2 ^ width ->
  let N := 2 ^ fw in let R := 2 ^ width in
  let lower := (reference - p) mod N in
  let cand := lower / R * R + lsb in
  decode_lsb_with_p lsb width reference p fw =
  Ok ((if R <=? (cand + N - lower) mod N then (cand + R) mod N else cand) mod N).
Proof.
  intros Hw Hf Hr Hp Hl. cbv zeta. unfold decode_lsb_with_p.
  rewrite (proj2 (Z.eqb_neq width 0)), (proj2 (Z.eqb_neq fw 0)),
    (proj2 (Z.ltb_ge 32 fw)), (proj2 (Z.ltb_ge fw width)) by lia.
  cbn [orb negb obind oguard]. rewrite !modulus_is_pow2 by lia.
  rewrite (proj2 (Z.leb_gt (2 ^ width) p)) by lia.
  rewrite land_pred_pow2, (Z.mod_small lsb) by lia. rewrite Z.eqb_refl.
  cbn [orb negb obind oguard]. rewrite (proj2 (Z.eqb_neq width fw)) by lia.
  assert (2 ^ width < 2 ^ fw <= 2 ^ 32) by
    (split; [apply Z.pow_lt_mono_r|apply Z.pow_le_mono_r]; lia).
  rewrite (Z.mod_small p (2 ^ fw)) by lia. rewrite (land_pred_pow2 reference) by lia.
  assert (El : (reference mod 2 ^ fw + 2 ^ fw - p) mod 2 ^ fw = (reference - p) mod 2 ^ fw).
  { replace (reference mod 2 ^ fw + 2 ^ fw - p) with (reference mod 2 ^ fw + (1 * 2 ^ fw - p)) by lia.
    rewrite Zplus_mod_idemp_l.
    replace (reference + (1 * 2 ^ fw - p)) with (reference - p + 1 * 2 ^ fw) by lia.
    by rewrite Z.mod_add by lia. }
  rewrite El. set (lower := (reference - p) mod 2 ^ fw).
  assert (0 <= lower < 2 ^ fw) by (apply Z.mod_pos_bound; lia).
  rewrite land_high by lia. rewrite <- Z.shiftl_mul_pow2, lor_disjoint_add by lia.
  rewrite Z.shiftl_mul_pow2 by lia. rewrite land_pred_pow2 by lia.
  unfold u32. rewrite (Z.mod_small (_ mod 2 ^ fw)); [done|].
  pose proof (Z.mod_pos_bound (if 2 ^ width <=? (lower / 2 ^ width * 2 ^ width + lsb + 2 ^ fw - lower) mod 2 ^ fw
    then (lower / 2 ^ width * 2 ^ width + lsb + 2 ^ width) mod 2 ^ fw
    else lower / 2 ^ width * 2 ^ width + lsb) (2 ^ fw)). lia.
Qed.

Lemma pow2_split fw width : 0 < width < fw -> 2 ^ fw = 2 ^ width * 2 ^ (fw - width) /\ 2 <= 2 ^ (fw - width).
Proof.
  intros. split; [rewrite <- Z.pow_add_r by lia; f_equal; lia|].
  change 2 with (2 ^ 1) at 1. apply Z.pow_le_mono_r; lia.
Qed.

Lemma decode_lsb_window v width fw reference p :
  0 < width < fw -> fw <= 32 -> 0 <= reference -> 0 <= p < 2 ^ width -> 0 <= v < 2 ^ fw ->
  (v - (reference - p)) mod 2 ^ fw < 2 ^ width ->
  decode_lsb_with_p (least_significant_bits v width) width reference p fw = Ok v.
Proof.
  intros Hw Hf Hr Hp Hv Hin. rewrite lsb_is_mod by lia.
  destruct (pow2_split fw width Hw) as [HN HK].
  assert (0 < 2 ^ width) by (apply Z.pow_pos_nonneg; lia).
  rewrite decode_lsb_with_p_eq by (try apply Z.mod_pos_bound; lia).
  set (lower := (reference - p) mod 2 ^ fw).
  assert (0 <= lower < 2 ^ fw) by (apply Z.mod_pos_bound; lia).
  rewrite (interval_decode (2 ^ fw) (2 ^ width) (2 ^ (fw - width))); try lia; cycle 1.
  { unfold lower. by rewrite Zminus_mod_idemp_r. }
  by rewrite Z.mod_small.
Qed.

Lemma decode_lsb_total lsb width fw reference p :
  0 < width < fw -> fw <= 32 -> 0 <= reference -> 0 <= p < 2 ^ width -> 0 <= lsb < 2 ^ width ->
  exists v, decode_lsb_with_p lsb width reference p fw = Ok v /\ 0 <= v < 2 ^ fw /\
    least_significant_bits v width = lsb /\ (v - (reference - p)) mod 2 ^ fw < 2 ^ width.
Proof.
  intros Hw Hf Hr Hp Hl. destruct (pow2_split fw width Hw) as [HN HK].
  assert (0 < 2 ^ width) by (apply Z.pow_pos_nonneg; lia).
  set (lower := reference - p). set (x := (lsb - lower) mod 2 ^ width).
  assert (Hx : 0 <= x < 2 ^ width) by (apply Z.mod_pos_bound; lia).
  set (v := (lower + x) mod 2 ^ fw). assert (Hv : 0 <= v < 2 ^ fw) by (apply Z.mod_pos_bound; nia).
  assert (Ew : (v - lower) mod 2 ^ fw = x).
  { unfold v. rewrite Zminus_mod_idemp_l. replace (lower + x - lower) with x by lia.
    apply Z.mod_small. nia. }
  assert (El : v mod 2 ^ width = lsb).
  { unfold v. rewrite (mod_mod_divide _ _ _ (2 ^ (fw - width))) by lia. unfold x.
    rewrite Zplus_mod_idemp_r. replace (lower + (lsb - lower)) with lsb by lia.
    by apply Z.mod_small. }
  exists v. rewrite lsb_is_mod by lia. split_and!; [|lia..].
  rewrite <- El, <- lsb_is_mod by lia. apply decode_lsb_window; try lia. fold lower. lia.
Qed.

(** W-LSB decoding is exact on its interpretation interval: with the
    interval [reference - p, reference - p + 2^width) modulo the field size, a
    value of the interval is recovered from its low bits, and conversely every
    LSB field decodes, to the one value of the interval that carries it. *)
Theorem lsb_interval_exact width fw reference p v lsb
  (Hw : 0 < width < fw) (Hf : fw <= 32) (Hr : 0 <= reference) (Hp : 0 <= p < 2 ^ width)
  (Hv : 0 <= v < 2 ^ fw) (Hl : 0 <= lsb < 2 ^ width) :
  ((v - (reference - p)) mod 2 ^ fw < 2 ^ width ->
     decode_lsb_with_p (least_significant_bits v width) width reference p fw = Ok v) /\
  exists d, decode_lsb_with_p lsb width reference p fw = Ok d /\
    least_significant_bits d width = lsb /\ (d - (reference - p)) mod 2 ^ fw < 2 ^ width.
Proof.
  split; [intros; by apply decode_lsb_window|].
  destruct (decode_lsb_total lsb width fw reference p) as (d & E & _ & H1 & H2); try done.
  by exists d.
Qed.

Lemma lsb_interval_exact_witness :
  decode_lsb_with_p (least_significant_bits 3 6) 6 65530 31 16 = Ok 3.
Proof.
  apply (lsb_interval_exact 6 16 65530 31 3 0); first [lia | vm_compute; reflexivity].
Defined.

(** ** [LsbWindow::decode] *)

Lemma dist_mod_spec w N ref t :
  0 < w -> N = 2 ^ w -> 0 <= ref < N ->
  LsbWindow.dist_mod w ((ref + t) mod N) ref = Z.min (t mod N) (N - t mod N).
Proof.
  intros Hw HN Hr. assert (H : 0 < N) by (rewrite HN; apply Z.pow_pos_nonneg; lia). pose proof (Z.mod_pos_bound t N H) as Ht.
  assert (E : (ref + t) mod N = (ref + t mod N) mod N) by (by rewrite Zplus_mod_idemp_r).
  rewrite E. set (x := t mod N) in *. unfold LsbWindow.dist_mod, LsbWindow.wrap. rewrite <- HN.
  destruct (Z.ltb_spec (ref + x) N).
  - rewrite (Z.mod_small (ref + x)) by lia. rewrite (proj2 (Z.leb_le ref _)) by lia.
    replace (ref + x - ref) with x by lia.
    destruct (decide (x = 0)) as [->|].
    + replace (N - 1 - 0 + 1) with N by lia. rewrite Z.mod_same by lia. cbn. lia.
    + rewrite (Z.mod_small (N - 1 - x + 1)) by lia.
      destruct (Z.ltb_spec x (N - 1 - x + 1)); lia.
  - replace (ref + x) with (ref + x - N + 1 * N) by lia. rewrite Z.mod_add by lia.
    rewrite (Z.mod_small (ref + x - N)) by lia.
    destruct (Z.leb_spec ref (ref + x - N)); [lia|].
    rewrite (Z.mod_small (N - 1 - _ + 1)) by lia.
    destruct (Z.ltb_spec (ref - (ref + x - N)) (N - 1 - (ref - (ref + x - N)) + 1)); lia.
Qed.

Lemma mod_range_neg t N : - N <= t < 0 -> t mod N = t + N.
Proof.
  intros. replace t with (t + N + (-1) * N) at 1 by lia.
  rewrite Z.mod_add by lia. apply Z.mod_small. lia.
Qed.

Lemma mod_range_2 t N : N <= t < 2 * N -> t mod N = t - N.
Proof.
  intros. replace t with (t - N + 1 * N) at 1 by lia.
  rewrite Z.mod_add by lia. apply Z.mod_small. lia.
Qed.

(** The base the source computes, whether or not the sum wrapped first. *)
Lemma lsb_base w k s :
  (w = 16 \/ w = 32) -> 0 < k < w -> 0 <= s ->
  LsbWindow.wrap w (LsbWindow.rounded w s / 2 ^ k * 2 ^ k) = (s - s mod 2 ^ k) mod 2 ^ w.
Proof.
  intros Hw Hk Hs. destruct (pow2_split w k Hk) as [HN HK].
  assert (0 < 2 ^ k) by (apply Z.pow_pos_nonneg; lia).
  unfold LsbWindow.wrap, LsbWindow.rounded.
  assert (E : forall x, x / 2 ^ k * 2 ^ k = x - x mod 2 ^ k).
  { intros x. pose proof (Z.div_mod x (2 ^ k)). lia. }
  destruct Hw as [-> | ->]; cbn [Z.leb Z.compare Pos.compare Pos.compare_cont]; rewrite E; [done|].
  unfold LsbWindow.wrap. rewrite (mod_mod_divide _ _ _ (2 ^ (32 - k))) by lia.
  by rewrite Zminus_mod_idemp_l.
Qed.

(** The choice among the three candidates, with [N = 2^w], [R] the range and
    [h] half of it; [d] is the signed distance of the value. *)
Lemma lsb_choose w N R h ref d m :
  0 < w -> N = 2 ^ w -> R = 2 * h -> 0 < h -> (N = 2 * R \/ 4 * R <= N) ->
  0 <= ref < N -> - h < d < h -> 0 <= m < R ->
  let l := (m - h + d) mod R in
  let c0 := ref + h - m + l in
  let dist c := LsbWindow.dist_mod w c ref in
  let best := if dist ((c0 + R) mod N) <? dist (c0 mod N) then (c0 + R) mod N else c0 mod N in
  let best_dist := if dist ((c0 + R) mod N) <? dist (c0 mod N)
                   then dist ((c0 + R) mod N) else dist (c0 mod N) in
  Ok (if dist ((c0 - R) mod N) <? best_dist then (c0 - R) mod N else best) = Ok ((ref + d) mod N).
Proof.
  intros Hw HN HR Hh HN4 Hr Hd Hm l c0 dist best best_dist.
  assert (Hp : forall t, 0 <= t < N -> dist ((ref + t) mod N) = Z.min t (N - t)).
  { intros t Ht. unfold dist. by rewrite (dist_mod_spec w N), Z.mod_small by lia. }
  assert (Hn : forall t, - N < t < 0 -> dist ((ref + t) mod N) = Z.min (- t) (N + t)).
  { intros t Ht. unfold dist. rewrite (dist_mod_spec w N), (mod_range_neg t N) by lia. lia. }
  assert (Hdd : dist ((ref + d) mod N) = Z.abs d).
  { destruct (Z.ltb_spec d 0); [rewrite Hn|rewrite Hp]; lia. }
  assert (Hcase : c0 = ref + d \/ c0 = ref + (d + R)).
  { unfold c0, l. destruct (Z.ltb_spec (m - h + d) 0);
      [right; rewrite mod_range_neg|left; rewrite Z.mod_small]; lia. }
  unfold best, best_dist. destruct Hcase as [-> | ->].
  - replace (ref + d + R) with (ref + (d + R)) by lia.
    replace (ref + d - R) with (ref + (d - R)) by lia.
    rewrite Hdd, (Hp (d + R)), (Hn (d - R)) by lia.
    rewrite (proj2 (Z.ltb_ge (Z.min (d + R) _) _)) by lia.
    by rewrite (proj2 (Z.ltb_ge (Z.min (- (d - R)) _) _)) by lia.
  - replace (ref + (d + R) - R) with (ref + d) by lia.
    replace (ref + (d + R) + R) with (ref + (d + 2 * R)) by lia.
    rewrite Hdd, (Hp (d + R)) by lia. destruct HN4 as [HN2|HN4].
    + assert (E : (ref + (d + 2 * R)) mod N = (ref + d) mod N).
      { replace (ref + (d + 2 * R)) with (ref + d + 1 * N) by lia. apply Z.mod_add. lia. }
      rewrite E, Hdd. rewrite (proj2 (Z.ltb_lt (Z.abs d) (Z.min (d + R) _))) by lia.
      by rewrite Z.ltb_irrefl.
    + rewrite (Hp (d + 2 * R)) by lia.
      destruct (Z.ltb_spec (Z.min (d + 2 * R) (N - (d + 2 * R))) (Z.min (d + R) (N - (d + R))));
        rewrite (proj2 (Z.ltb_lt (Z.abs d) _)) by lia; done.
Qed.

(** The decoding of a value near the reference. *)
Lemma lsb_window_exact w k ref v
  (Hw : w = 16 \/ w = 32) (Hk : 0 < k < w) (Hr : 0 <= ref < 2 ^ w) (Hv : 0 <= v < 2 ^ w)
  (Hd : 0 < (v - ref + 2 ^ (k - 1)) mod 2 ^ w < 2 ^ k) :
  LsbWindow.decode w ref (v mod 2 ^ k) k = Ok v.
Proof.
  destruct (pow2_split w k Hk) as [HN HK].
  assert (HR : 2 ^ k = 2 * 2 ^ (k - 1)) by (rewrite <- Z.pow_succ_r by lia; f_equal; lia).
  assert (Hh0 : 0 < 2 ^ (k - 1)) by (apply Z.pow_pos_nonneg; lia).
  assert (HN4 : 2 ^ w = 2 * 2 ^ k \/ 4 * 2 ^ k <= 2 ^ w).
  { destruct (decide (w - k = 1)) as [e|]; [left; rewrite HN, e; lia|right].
    rewrite HN. assert (2 ^ 2 <= 2 ^ (w - k)) by (apply Z.pow_le_mono_r; lia). nia. }
  unfold LsbWindow.decode. rewrite (proj2 (Z.leb_gt w k)) by lia. rewrite Z.shiftl_1_l.
  rewrite Z.shiftr_div_pow2 by lia. change (2 ^ 1) with 2.
  replace (2 ^ k / 2) with (2 ^ (k - 1)) by (rewrite HR, Z.mul_comm, Z.div_mul; lia).
  rewrite lsb_base by lia.
  remember (2 ^ w) as N eqn:HNw. set (R := 2 ^ k) in *. set (h := 2 ^ (k - 1)) in *.
  set (K := 2 ^ (w - k)) in *. clearbody R h K.
  set (d := (v - ref + h) mod N - h). assert (Hdb : - h < d < h) by (unfold d; lia).
  assert (Hvd : v = (ref + d) mod N).
  { unfold d. replace (ref + ((v - ref + h) mod N - h)) with ((v - ref + h) mod N + (ref - h)) by lia.
    rewrite Zplus_mod_idemp_l. replace (v - ref + h + (ref - h)) with v by lia.
    by rewrite Z.mod_small. }
  clearbody d. set (m := (ref + h) mod R).
  assert (Hm : 0 <= m < R) by (apply Z.mod_pos_bound; lia).
  assert (Hl : v mod R = (m - h + d) mod R).
  { rewrite Hvd, (mod_mod_divide _ N R K) by lia. unfold m.
    replace ((ref + h) mod R - h + d) with ((ref + h) mod R + (d - h)) by lia.
    rewrite Zplus_mod_idemp_l. f_equal. lia. }
  rewrite Hl. clearbody m. unfold LsbWindow.wrap. rewrite <- HNw.
  rewrite Zplus_mod_idemp_l, (Zplus_mod_idemp_l (ref + h - m + _)), (Zminus_mod_idemp_l (ref + h - m + _)).
  rewrite Hvd. apply (lsb_choose w N R h ref d m); lia.
Qed.

(** The sliding window decodes every value strictly closer to the reference
    than half the LSB range, across wrap-around, for both instantiations
    ([uint16_t] and [uint32_t]) and every width below the type's. *)
Theorem lsb_window_decode w k ref v
  (Hw : w = 16 \/ w = 32) (Hk : 0 < k < w) (Hr : 0 <= ref < 2 ^ w) (Hv : 0 <= v < 2 ^ w)
  (Hd : 0 < (v - ref + 2 ^ (k - 1)) mod 2 ^ w < 2 ^ k) :
  LsbWindow.decode w ref (v mod 2 ^ k) k = Ok v.
Proof. by apply lsb_window_exact. Qed.

Lemma lsb_window_decode_witness : LsbWindow.decode 16 65530 (3 mod 2 ^ 6) 6 = Ok 3.
Proof. apply (lsb_window_decode 16 6 65530 3); [by left|lia..|vm_compute; by split]. Defined.

(** ** Scalar inverses *)

Lemma offset_ip_id_inverse ip_id sequence :
  0 <= ip_id < 2 ^ 16 -> decode_offset_ip_id (encode_offset_ip_id ip_id sequence) sequence = ip_id.
Proof.
  intros. unfold decode_offset_ip_id, encode_offset_ip_id, u16.
  rewrite Zplus_mod_idemp_r. replace (sequence + (ip_id - sequence)) with ip_id by lia.
  by apply Z.mod_small.
Qed.

Lemma scale_unscale ts stride :
  0 <= ts < 2 ^ 32 -> 0 <= stride ->
  unscale_timestamp (scaled (scale_timestamp ts stride)) stride (residue (scale_timestamp ts stride)) = ts.
Proof.
  intros Ht Hs. unfold unscale_timestamp, scale_timestamp. cbn [scaled residue].
  destruct (Z.eqb_spec stride 0) as [|Hn]; [done|].
  replace (ts / stride * stride + ts mod stride) with ts
    by (pose proof (Z.div_mod ts stride Hn); lia).
  by apply Z.mod_small.
Qed.

(** Half-range decoding of a field narrower than its type. *)
Lemma decode_field_lsb_window field v reference k :
  0 < k < natural_field_width field -> 0 <= reference -> 0 <= v < 2 ^ natural_field_width field ->
  (v - (reference - 2 ^ (k - 1))) mod 2 ^ natural_field_width field < 2 ^ k ->
  decode_field_lsb field (encode_field_lsb field v k) reference k = v.
Proof.
  intros Hk Hr Hv Hin.
  assert (natural_field_width field <= 32) by (destruct field; cbn; lia).
  assert (He : effective_width field k = k).
  { unfold effective_width. by rewrite (proj2 (Z.eqb_neq k 0)) by lia. }
  unfold decode_field_lsb, encode_field_lsb, decode_field_lsb_with_p. rewrite He, He.
  rewrite (proj2 (Z.leb_gt _ k)) by lia. rewrite Z.shiftl_1_l.
  assert (2 ^ (k - 1) < 2 ^ k) by (apply Z.pow_lt_mono_r; lia).
  rewrite decode_lsb_window; lia.
Qed.

Lemma infer_stride_sound seq0 ts0 seq ts stride res :
  0 <= ts0 < 2 ^ 32 -> 0 <= ts < 2 ^ 32 ->
  infer_timestamp_stride seq0 ts0 seq ts = Some (stride, res) ->
  0 < stride <= 1000 /\ res = ts mod stride /\ u32 (ts0 + stride * u16 (seq - seq0)) = ts.
Proof.
  intros H0 H1 E. unfold infer_timestamp_stride in E.
  set (sd := u16 (seq - seq0)) in *. set (td := u32 (ts - ts0)) in *.
  assert (0 <= sd) by (apply Z.mod_pos_bound; lia).
  assert (Htd : 0 <= td < 2 ^ 32) by (apply Z.mod_pos_bound; lia).
  destruct (Z.eqb_spec sd 0); [done|]. destruct (Z.eqb_spec td 0); [done|].
  destruct (Z.eqb_spec (td mod sd) 0) as [Hm|]; [|done]. cbn [orb negb] in E.
  destruct (Z.ltb_spec 1000 (td / sd)); [done|].
  pose proof (Z.div_mod td sd ltac:(lia)) as Hd. rewrite Hm in Hd.
  destruct (Z.eqb_spec (td / sd) 0) as [Hz|Hz].
  { rewrite Hz in Hd. lia. }
  injection E as <- <-. assert (0 <= td / sd) by (apply Z.div_pos; lia).
  split_and!; [lia..|done|].
  replace (td / sd * sd) with td by lia. unfold td, u32.
  rewrite Zplus_mod_idemp_r. replace (ts0 + (ts - ts0)) with ts by lia. by apply Z.mod_small.
Qed.

(** Timestamps survive scaling: a scaled timestamp with its residue
    restores the original for every stride (0 included), a stride the
    compressor infers is in 1..1000 and predicts the observed timestamp from
    the sequence delta modulo 2^32, and a receiver whose prediction is right
    takes it whatever the width of the transmitted LSBs. *)
Theorem timestamp_scaling ts stride width
  (Ht : 0 <= ts < 2 ^ 32) (Hs : 0 <= stride) (Hw : 0 < width <= 32) :
  unscale_timestamp (scaled (scale_timestamp ts stride)) stride
                    (residue (scale_timestamp ts stride)) = ts /\
  (forall seq0 ts0 seq res, 0 <= ts0 < 2 ^ 32 ->
     infer_timestamp_stride seq0 ts0 seq ts = Some (stride, res) ->
     0 < stride <= 1000 /\ res = ts mod stride /\ u32 (ts0 + stride * u16 (seq - seq0)) = ts) /\
  (stride <> 0 -> forall fallback res,
     decode_scaled_lsb_with_timestamp_prediction
       (encode_field_lsb RtpTimestamp (scaled (scale_timestamp ts stride)) width)
       width ts fallback stride res = Ok ts).
Proof.
  split_and!.
  - by apply scale_unscale.
  - intros. by eapply infer_stride_sound.
  - intros Hn fb res. unfold decode_scaled_lsb_with_timestamp_prediction.
    rewrite (proj2 (Z.eqb_neq stride 0)), Z.eqb_refl by done. done.
Qed.

Lemma timestamp_scaling_witness :
  unscale_timestamp (scaled (scale_timestamp 50161 160)) 160 (residue (scale_timestamp 50161 160)) = 50161.
Proof. apply (timestamp_scaling 50161 160 8); lia. Defined.

(** ** Lists *)

Definition list_octets (items : list ExtensionListItem) : bytes :=
  match items with
  | [] => [empty_list_marker]
  | _ => (0x80 + Z.of_nat (length items)) :: concat (map item_octets items)
  end.

Lemma concat_items_len items : blen (concat (map item_octets items)) = 2 * Z.of_nat (length items).
Proof.
  induction items as [|i l IH]; [done|]. cbn [map concat length]. rewrite blen_app, IH.
  change (blen (item_octets i)) with 2. lia.
Qed.

Lemma read_items_concat pre items post :
  read_items (pre ++ concat (map item_octets items) ++ post) (length items) (blen pre) =
  Ok (items, blen pre + 2 * Z.of_nat (length items)).
Proof.
  revert pre. induction items as [|[t v] l IH]; intros pre.
  { cbn. by rewrite Z.add_0_r. }
  cbn [map concat length read_items]. cbn [item_octets item_type item_value app].
  rewrite rd_app_0, rd_app by lia. rd_simp.
  specialize (IH (pre ++ [t; v])). rewrite <- app_assoc in IH. cbn [app] in IH.
  rewrite blen_app in IH. autorewrite with blen in IH. rewrite Z.add_0_r in IH.
  change (1 + 1) with 2 in IH. rewrite IH. cbn [obind fst snd]. do 2 f_equal. lia.
Qed.

Lemma count_marker n : 0 < n <= 0x7F ->
  u8 (Z.lor 0x80 n) = 0x80 + n /\ Z.land (0x80 + n) 0x80 <> 0 /\ Z.land (0x80 + n) 0x7F = n.
Proof.
  intros Hn.
  pose proof (byte_forall (fun n => negb (n <=? 0x7F) || ((u8 (Z.lor 0x80 n) =? 0x80 + n) &&
    negb (Z.land (0x80 + n) 0x80 =? 0) && (Z.land (0x80 + n) 0x7F =? n)))
    ltac:(vm_compute; reflexivity) n ltac:(unfold byte_ok; lia)) as D. cbv beta in D.
  rewrite (proj2 (Z.leb_le n 0x7F)) in D by lia. simpl negb in D. rewrite orb_false_l in D.
  bool_prop. auto.
Qed.

Lemma list_octets_len items : blen (list_octets items) = 1 + 2 * Z.of_nat (length items).
Proof. destruct items as [|i l]; [done|]. unfold list_octets. rewrite blen_cons, concat_items_len. lia. Qed.

Lemma write_extension_list_ok items s :
  Z.of_nat (length items) <= 0x7F -> blen (list_octets items) <= room s ->
  write_extension_list items s =
    (Ok tt, {| w_out := w_out s ++ list_octets items; w_cap := w_cap s |}).
Proof.
  rewrite list_octets_len. intros Hc Hr. unfold write_extension_list. cbv zeta.
  destruct items as [|i l] eqn:Ei.
  { cbn [length]. change (Z.of_nat 0 =? 0) with true. cbv iota. unfold write_empty_list. erewrite bind_ok by done.
    rewrite (proj2 (Z.leb_le 1 _)) by (cbn [length] in *; lia). erewrite bind_ok by done.
    unfold put. rewrite puts_ok by (cbn [length] in *; blen_lia). done. }
  rewrite <- Ei in *. assert (Hp : 0 < Z.of_nat (length items)) by (rewrite Ei; cbn [length]; lia).
  rewrite (proj2 (Z.eqb_neq _ 0)) by lia. erewrite bind_ok by done.
  rewrite (proj2 (Z.ltb_ge 0x7F _)), (proj2 (Z.ltb_ge (room s) _)) by lia.
  cbn [orb negb]. erewrite bind_ok by done. unfold put.
  erewrite bind_ok by (apply puts_ok; blen_lia).
  rewrite puts_ok by (rewrite concat_items_len; blen_lia). cbn [w_out w_cap].
  rewrite <- app_assoc. cbn [app].
  destruct (count_marker (Z.of_nat (length items))) as [-> _]; [lia|].
  unfold list_octets. rewrite Ei. done.
Qed.

Lemma read_extension_list_octets pre items post capacity :
  Z.of_nat (length items) <= 0x7F -> Z.of_nat (length items) <= capacity ->
  size_ok (blen (pre ++ list_octets items ++ post)) ->
  read_extension_list (pre ++ list_octets items ++ post) (blen pre) capacity =
    Ok (items, blen pre + blen (list_octets items)).
Proof.
  intros Hc Hcap Hs. unfold size_ok in Hs. unfold read_extension_list. rewrite !blen_app in *.
  rewrite list_octets_len in *. pose proof (blen_nonneg pre). pose proof (blen_nonneg post).
  rewrite (proj2 (Z.ltb_lt (blen pre) _)) by lia. cbn [obind oguard].
  destruct items as [|i l] eqn:Ei.
  { cbn [list_octets app]. rewrite rd_app_0. cbn [obind]. done. }
  rewrite <- Ei in *. assert (Hp : 0 < Z.of_nat (length items)) by (rewrite Ei; cbn [length]; lia).
  assert (El : list_octets items = (0x80 + Z.of_nat (length items)) :: concat (map item_octets items))
    by (by rewrite Ei).
  destruct (count_marker (Z.of_nat (length items))) as (_ & H1 & H2); [lia|].
  rewrite El. cbn [app]. rewrite rd_app_0. cbn [obind].
  unfold is_empty_list, empty_list_marker. rewrite (proj2 (Z.eqb_neq _ 0)) by lia.
  rewrite (proj2 (Z.eqb_neq _ 0)) by done. cbn [negb obind oguard]. rewrite H2.
  rewrite (proj2 (Z.eqb_neq _ 0)), (proj2 (Z.ltb_ge capacity _)) by lia.
  rewrite (usub_small (blen pre + _)) by lia. rewrite usub_small by lia.
  rewrite (proj2 (Z.ltb_ge _ (_ * 2))) by lia.
  cbn [orb negb obind oguard]. rewrite Nat2Z.id.
  change (pre ++ _ :: ?l) with (pre ++ [0x80 + Z.of_nat (length items)] ++ l).
  rewrite app_assoc. replace (blen pre + 1) with (blen (pre ++ [0x80 + Z.of_nat (length items)]))
    by (autorewrite with blen; lia).
  rewrite read_items_concat. autorewrite with blen. do 2 f_equal. lia.
Qed.

(** Compressed lists round-trip: up to 127 items written by
    [write_extension_list] into a buffer with room are read back at the same
    position with the cursor just after them, whatever precedes and follows,
    and a writer without room or with more items refuses without writing. *)
Theorem extension_list_roundtrip items pre post s capacity
  (Hc : Z.of_nat (length items) <= 0x7F) (Hcap : Z.of_nat (length items) <= capacity)
  (Hs : size_ok (blen (pre ++ list_octets items ++ post))) :
  (blen (list_octets items) <= room s ->
     write_extension_list items s =
       (Ok tt, {| w_out := w_out s ++ list_octets items; w_cap := w_cap s |})) /\
  (room s < blen (list_octets items) -> write_extension_list items s = (Rej, s)) /\
  read_extension_list (pre ++ list_octets items ++ post) (blen pre) capacity =
    Ok (items, blen pre + blen (list_octets items)).
Proof.
  split_and!; [intros; by apply write_extension_list_ok| |by apply read_extension_list_octets].
  rewrite list_octets_len. intros Hr. unfold write_extension_list. cbv zeta.
  destruct items as [|i l] eqn:Ei; cbn [length] in *.
  - unfold write_empty_list. change (Z.of_nat 0 =? 0) with true. cbv iota. erewrite bind_ok by done.
    by rewrite (proj2 (Z.leb_gt 1 _)) by lia.
  - rewrite (proj2 (Z.eqb_neq _ 0)) by lia. erewrite bind_ok by done.
    rewrite (proj2 (Z.ltb_lt (room s) _)) by lia. by rewrite orb_true_r.
Qed.

Lemma extension_list_roundtrip_witness :
  read_extension_list ([0x40] ++ list_octets [{| item_type := 7; item_value := 9 |}] ++ [0xAA]) 1 4 =
    Ok ([{| item_type := 7; item_value := 9 |}], 4).
Proof.
  apply (extension_list_roundtrip [{| item_type := 7; item_value := 9 |}] [0x40] [0xAA]
    {| w_out := []; w_cap := 0 |} 4); vm_compute; try split; discriminate || reflexivity.
Defined.

(** ** The IPv6 extension-header walk *)

(** [items] cover [data] from [pos] without gap or overlap, each of the type
    the previous one announced, and the last announces [term]. *)
Fixpoint tiles (data : bytes) (items : list Ipv6ExtensionHeaderItem) (pos current term : Z) : Prop :=
  match items with
  | [] => pos = blen data /\ current = term
  | it :: rest =>
      ext_type it = current /\ is_ipv6_extension_header_type current = true /\
      ext_offset it = pos /\ 8 <= ext_length it <= 0xFF /\
      pos + ext_length it <= blen data /\ rd data pos = Ok (ext_next_header it) /\
      tiles data rest (pos + ext_length it) (ext_next_header it) term
  end.

Lemma ipv6_extension_header_length_spec data t :
  bytes_ok data ->
  match ipv6_extension_header_length data t with
  | Ok n => 8 <= n <= 0xFF /\ n <= blen data
  | Rej => True
  | Ub => False
  end.
Proof.
  intros Hd. unfold ipv6_extension_header_length. destruct (t =? 44).
  - destruct (Z.ltb_spec (blen data) 8); cbn; lia.
  - destruct (Z.ltb_spec (blen data) 2); [done|]. cbn [negb obind oguard].
    destruct (rd_in_range data 1) as (d & -> & Hok); [lia|]. specialize (Hok Hd). cbn [obind].
    unfold byte_ok in Hok.
    destruct (Z.ltb_spec ((d + 1) * 8) 8), (Z.ltb_spec 255 ((d + 1) * 8)),
      (Z.ltb_spec (blen data) ((d + 1) * 8)); cbn [orb negb obind oguard]; try done.
    rewrite u8_small by (unfold byte_ok; lia). lia.
Qed.

Lemma parse_ipv6_loop_spec data capacity fuel items current pos :
  bytes_ok data -> 0 <= pos <= blen data -> blen data - pos <= Z.of_nat fuel ->
  Z.of_nat (length items) <= capacity ->
  match parse_ipv6_loop fuel data capacity items current pos with
  | Ok (out, term) => Z.of_nat (length out) <= capacity /\
      exists more, out = items ++ more /\ tiles data more pos current term
  | Rej => True
  | Ub => False
  end.
Proof.
  intros Hd. revert items current pos.
  induction fuel as [|fuel IH]; intros items current pos Hp Hf Hc; cbn [parse_ipv6_loop];
    destruct (Z.ltb_spec pos (blen data)); cbn [negb]; try lia.
  1, 3: split; [done|]; exists []; rewrite app_nil_r; split; [done|]; cbn; split; [lia|done].
  destruct (is_ipv6_extension_header_type current) eqn:Et; [|done].
  destruct (Z.leb_spec capacity (Z.of_nat (length items))); [done|].
  destruct (Z.ltb_spec 255 pos); [done|]. cbn [orb negb obind oguard].
  destruct (tail_from_in_range data pos) as (t & -> & Hl & Hok); [lia|]. specialize (Hok Hd).
  cbn [obind]. pose proof (ipv6_extension_header_length_spec t current Hok) as Hs.
  destruct (ipv6_extension_header_length t current) as [n| |]; [|done|done]. cbn [obind].
  destruct (rd_in_range data pos) as (d & Ed & _); [lia|]. rewrite Ed. cbn [obind].
  set (it := {| ext_type := current; ext_next_header := d; ext_offset := u8 pos; ext_length := n |}).
  specialize (IH (items ++ [it]) d (pos + n)).
  destruct (parse_ipv6_loop fuel data capacity (items ++ [it]) d (pos + n)) as [[out term]| |];
    [|done|apply IH; try lia; rewrite length_app; cbn [length]; lia].
  destruct IH as (Hlen & more & Ho & Ht); [lia..|rewrite length_app; cbn [length]; lia|].
  split; [done|]. exists (it :: more). rewrite Ho, <- app_assoc. split; [done|].
  cbn [tiles it ext_type ext_offset ext_length ext_next_header].
  rewrite u8_small by (unfold byte_ok; lia). split_and!; try done; lia.
Qed.

(** More fuel changes nothing: the source's loop runs to its end. *)
Lemma parse_ipv6_loop_fuel data capacity fuel fuel' items current pos :
  bytes_ok data -> 0 <= pos <= blen data ->
  blen data - pos <= Z.of_nat fuel -> blen data - pos <= Z.of_nat fuel' ->
  parse_ipv6_loop fuel data capacity items current pos =
  parse_ipv6_loop fuel' data capacity items current pos.
Proof.
  intros Hd. revert fuel' items current pos.
  induction fuel as [|fuel IH]; intros fuel' items current pos Hp Hf Hf';
    destruct fuel' as [|fuel']; cbn [parse_ipv6_loop];
    destruct (Z.ltb_spec pos (blen data)); cbn [negb]; try lia; try done.
  destruct (negb _); [|done]. cbn [obind oguard].
  destruct (tail_from_in_range data pos) as (t & -> & Hl & Hok); [lia|]. specialize (Hok Hd).
  cbn [obind]. pose proof (ipv6_extension_header_length_spec t current Hok) as Hs.
  destruct (ipv6_extension_header_length t current) as [n| |]; [|done|done]. cbn [obind].
  destruct (rd data pos); [|done|done]. cbn [obind]. apply IH; lia.
Qed.

(** C40: The IPv6 extension-header walk is safe, terminates and tiles its input:
    on any octets it reads nothing out of bounds; when it accepts, the items it
    lists (at most [capacity]) cover the octets exactly, in order, each of the
    type announced before it and at least 8 octets long, and the terminal next
    header is the one the last item announces; and the loop bound of the model
    is never what stops it. *)
Theorem ipv6_extension_walk data first capacity (Hd : bytes_ok data) (Hc : 0 <= capacity) :
  match parse_ipv6_extension_header_items data first capacity with
  | Ok (items, term) => Z.of_nat (length items) <= capacity /\ tiles data items 0 first term
  | Rej => True
  | Ub => False
  end /\
  forall fuel, (length data <= fuel)%nat ->
    parse_ipv6_loop fuel data capacity [] first 0 =
    parse_ipv6_loop (length data) data capacity [] first 0.
Proof.
  split.
  - unfold parse_ipv6_extension_header_items. destruct (Z.eqb_spec (blen data) 0) as [E|E].
    + destruct (is_ipv6_extension_header_type first); [done|]. cbn. split; [done|]. by rewrite E.
    + destruct (Z.eqb_spec capacity 0); [done|]. cbn [negb obind oguard].
      pose proof (parse_ipv6_loop_spec data capacity (length data) [] first 0 Hd) as H.
      pose proof (blen_nonneg data).
      destruct (parse_ipv6_loop (length data) data capacity [] first 0) as [[o t]| |];
        [|done|apply H; unfold blen in *; cbn [length]; lia].
      destruct H as (Hl & more & -> & Ht); [unfold blen in *; cbn [length]; lia..|]. done.
  - intros fuel Hf. pose proof (blen_nonneg data). apply parse_ipv6_loop_fuel; unfold blen in *; try done; lia.
Qed.

Lemma ipv6_extension_walk_witness :
  match parse_ipv6_extension_header_items [43; 0; 0; 0; 0; 0; 0; 0; 17; 0; 0; 0; 0; 0; 0; 0] 0 16 with
  | Ok (items, term) => Z.of_nat (length items) <= 16 /\
      tiles [43; 0; 0; 0; 0; 0; 0; 0; 17; 0; 0; 0; 0; 0; 0; 0] items 0 0 term
  | Rej => True
  | Ub => False
  end.
Proof.
  apply (ipv6_extension_walk [43; 0; 0; 0; 0; 0; 0; 0; 17; 0; 0; 0; 0; 0; 0; 0] 0 16);
    [repeat constructor; vm_compute; discriminate|lia].
Defined.
