(* ===== verification/Context.v ===== *)
(** * Compression contexts: include/rohccxx/core/context.hpp, context_table.hpp,
    context_init.hpp, context_crc.hpp, profile.hpp

    [Context] and [RtpContext] have the fields of the source's structs, under
    the source's names; fixed arrays are lists of the declared length and the
    two [LsbWindow] members are their only field, the reference.  Updates are
    written [c <| field := v |>]. *)

From S2P Require Import Prelude Crc Encoding.

Inductive Profile :=
| Uncompressed | LLA_RTP | RTP | UDP | ESP | IP | RTP_UDP_Lite | UDP_Lite.

Definition profile_id (p : Profile) : Z :=
  match p with
  | Uncompressed => 0x0000 | LLA_RTP => 0x0005 | RTP => 0x0101 | UDP => 0x0102
  | ESP => 0x0103 | IP => 0x0104 | RTP_UDP_Lite => 0x0107 | UDP_Lite => 0x0108
  end.

Inductive Direction := Uplink | Downlink.
Inductive Mode := ModeUncompressed | Optimistic | Reliable.

Definition mode_val (m : Mode) : Z :=
  match m with ModeUncompressed => 0 | Optimistic => 1 | Reliable => 2 end.

Inductive RohcState := NoContext | StaticEstablished | DynamicEstablished.

#[export] Instance Profile_eq_dec : EqDecision Profile.
Proof. solve_decision. Defined.
#[export] Instance Mode_eq_dec : EqDecision Mode.
Proof. solve_decision. Defined.
#[export] Instance RohcState_eq_dec : EqDecision RohcState.
Proof. solve_decision. Defined.

Definition profile_eqb (a b : Profile) : bool := bool_decide (a = b).
Definition mode_eqb (a b : Mode) : bool := bool_decide (a = b).
Definition state_eqb (a b : RohcState) : bool := bool_decide (a = b).

(** ** Record update *)

Class Settable (R : Type) {T : Type} (field : R -> T) := set_field : T -> R -> R.
Arguments set_field {R T} field {_} _ _.
Notation "r <| f := v |>" := (set_field f v r)
  (at level 12, f at next level, v at level 200, left associativity) : rohc_scope.

(** Builds [fun v r => (all fields of r, but v at field)] from the expansion
    [eta r] of a record into its fields. *)
Ltac make_setter eta field :=
  let v := fresh "v" in
  let r := fresh "r" in
  intros v r;
  let e := eval cbv beta delta [eta] in (eta r) in
  match eval pattern (field r) in e with
  | ?F _ => let t := eval cbv beta in (F v) in exact t
  end.

Record RtpContext := mkRtp {
  ssrc : Z;
  last_seq : Z;
  last_ts : Z;
  vpxcc : Z;
  mpt : Z;
  initialized : Z;
  ts_stride : Z;
  ts_residue : Z;
  timer_elapsed_ticks : Z;
  timer_based_ts : bool;
  csrc_list_len : Z;
  csrc_list : bytes;
  extension_len : Z;
  extension_bytes : bytes;
  padding_len : Z;
  padding_bytes : bytes;
  seq_window : Z;
  ts_window : Z }.

Definition eta_rtp (r : RtpContext) : RtpContext :=
  mkRtp
   (ssrc r) (last_seq r) (last_ts r) (vpxcc r) (mpt r) (initialized r) (ts_stride r)
   (ts_residue r) (timer_elapsed_ticks r) (timer_based_ts r) (csrc_list_len r)
   (csrc_list r) (extension_len r) (extension_bytes r) (padding_len r)
   (padding_bytes r) (seq_window r) (ts_window r).

#[export] Instance set_ssrc : Settable RtpContext (@ssrc) := ltac:(make_setter eta_rtp ssrc).
#[export] Instance set_last_seq : Settable RtpContext (@last_seq) := ltac:(make_setter eta_rtp last_seq).
#[export] Instance set_last_ts : Settable RtpContext (@last_ts) := ltac:(make_setter eta_rtp last_ts).
#[export] Instance set_vpxcc : Settable RtpContext (@vpxcc) := ltac:(make_setter eta_rtp vpxcc).
#[export] Instance set_mpt : Settable RtpContext (@mpt) := ltac:(make_setter eta_rtp mpt).
#[export] Instance set_initialized : Settable RtpContext (@initialized) := ltac:(make_setter eta_rtp initialized).
#[export] Instance set_ts_stride : Settable RtpContext (@ts_stride) := ltac:(make_setter eta_rtp ts_stride).
#[export] Instance set_ts_residue : Settable RtpContext (@ts_residue) := ltac:(make_setter eta_rtp ts_residue).
#[export] Instance set_timer_elapsed_ticks : Settable RtpContext (@timer_elapsed_ticks) := ltac:(make_setter eta_rtp timer_elapsed_ticks).
#[export] Instance set_timer_based_ts : Settable RtpContext (@timer_based_ts) := ltac:(make_setter eta_rtp timer_based_ts).
#[export] Instance set_csrc_list_len : Settable RtpContext (@csrc_list_len) := ltac:(make_setter eta_rtp csrc_list_len).
#[export] Instance set_csrc_list : Settable RtpContext (@csrc_list) := ltac:(make_setter eta_rtp csrc_list).
#[export] Instance set_extension_len : Settable RtpContext (@extension_len) := ltac:(make_setter eta_rtp extension_len).
#[export] Instance set_extension_bytes : Settable RtpContext (@extension_bytes) := ltac:(make_setter eta_rtp extension_bytes).
#[export] Instance set_padding_len : Settable RtpContext (@padding_len) := ltac:(make_setter eta_rtp padding_len).
#[export] Instance set_padding_bytes : Settable RtpContext (@padding_bytes) := ltac:(make_setter eta_rtp padding_bytes).
#[export] Instance set_seq_window : Settable RtpContext (@seq_window) := ltac:(make_setter eta_rtp seq_window).
#[export] Instance set_ts_window : Settable RtpContext (@ts_window) := ltac:(make_setter eta_rtp ts_window).

Record Context := mkContext {
  profile : Profile;
  mode : Mode;
  rohc_state : RohcState;
  cid : Z;
  large_cid : bool;
  tx_count : Z;
  nack_count : Z;
  static_acked : bool;
  dynamic_acked : bool;
  profile_has_been_used : bool;
  profile_replacement_active : bool;
  profile_replacement_pending : bool;
  formal_pt0_since_confirmation : Z;
  formal_pt0_crc7_seen : bool;
  formal_pt0_crc3_retired : bool;
  reject_legacy_udp_pt0_until_refresh : bool;
  limit_legacy_udp_pt0_to_sequential : bool;
  compact_profile_replacement_seen : bool;
  context_revision : Z;
  msn : Z;
  reorder_ratio : Z;
  transmitted_msn_history : list Z;
  transmitted_context_revision_history : list Z;
  transmitted_msn_head : Z;
  transmitted_msn_count : Z;
  ip_version : Z;
  ipv4_tos : Z;
  ipv4_ttl : Z;
  ipv4_id : Z;
  ipv4_flags : Z;
  ipv4_id_sequential : bool;
  ipv4_id_behavior : Z;
  ipv4_protocol : Z;
  ipv4_saddr : Z;
  ipv4_daddr : Z;
  ipv4_options_len : Z;
  ipv4_options : bytes;
  ipv6_traffic_class : Z;
  ipv6_flow_label : Z;
  ipv6_next_header : Z;
  ipv6_hop_limit : Z;
  ipv6_extension_len : Z;
  ipv6_saddr : bytes;
  ipv6_daddr : bytes;
  ipv6_extensions : bytes;
  udp_sport : Z;
  udp_dport : Z;
  udp_length_or_coverage : Z;
  udp_check : Z;
  udp_checksum_used : bool;
  esp_spi : Z;
  esp_sequence : Z;
  legacy_esp_payload_includes_header : bool;
  rtp : RtpContext }.

Definition eta_context (r : Context) : Context :=
  mkContext
   (profile r) (mode r) (rohc_state r) (cid r) (large_cid r) (tx_count r)
   (nack_count r) (static_acked r) (dynamic_acked r) (profile_has_been_used r)
   (profile_replacement_active r) (profile_replacement_pending r)
   (formal_pt0_since_confirmation r) (formal_pt0_crc7_seen r)
   (formal_pt0_crc3_retired r) (reject_legacy_udp_pt0_until_refresh r)
   (limit_legacy_udp_pt0_to_sequential r) (compact_profile_replacement_seen r)
   (context_revision r) (msn r) (reorder_ratio r) (transmitted_msn_history r)
   (transmitted_context_revision_history r) (transmitted_msn_head r)
   (transmitted_msn_count r) (ip_version r) (ipv4_tos r) (ipv4_ttl r) (ipv4_id r)
   (ipv4_flags r) (ipv4_id_sequential r) (ipv4_id_behavior r) (ipv4_protocol r)
   (ipv4_saddr r) (ipv4_daddr r) (ipv4_options_len r) (ipv4_options r)
   (ipv6_traffic_class r) (ipv6_flow_label r) (ipv6_next_header r) (ipv6_hop_limit r)
   (ipv6_extension_len r) (ipv6_saddr r) (ipv6_daddr r) (ipv6_extensions r)
   (udp_sport r) (udp_dport r) (udp_length_or_coverage r) (udp_check r)
   (udp_checksum_used r) (esp_spi r) (esp_sequence r)
   (legacy_esp_payload_includes_header r) (rtp r).

#[export] Instance set_profile : Settable Context (@profile) := ltac:(make_setter eta_context profile).
#[export] Instance set_mode : Settable Context (@mode) := ltac:(make_setter eta_context mode).
#[export] Instance set_rohc_state : Settable Context (@rohc_state) := ltac:(make_setter eta_context rohc_state).
#[export] Instance set_cid : Settable Context (@cid) := ltac:(make_setter eta_context cid).
#[export] Instance set_large_cid : Settable Context (@large_cid) := ltac:(make_setter eta_context large_cid).
#[export] Instance set_tx_count : Settable Context (@tx_count) := ltac:(make_setter eta_context tx_count).
#[export] Instance set_nack_count : Settable Context (@nack_count) := ltac:(make_setter eta_context nack_count).
#[export] Instance set_static_acked : Settable Context (@static_acked) := ltac:(make_setter eta_context static_acked).
#[export] Instance set_dynamic_acked : Settable Context (@dynamic_acked) := ltac:(make_setter eta_context dynamic_acked).
#[export] Instance set_profile_has_been_used : Settable Context (@profile_has_been_used) := ltac:(make_setter eta_context profile_has_been_used).
#[export] Instance set_profile_replacement_active : Settable Context (@profile_replacement_active) := ltac:(make_setter eta_context profile_replacement_active).
#[export] Instance set_profile_replacement_pending : Settable Context (@profile_replacement_pending) := ltac:(make_setter eta_context profile_replacement_pending).
#[export] Instance set_formal_pt0_since_confirmation : Settable Context (@formal_pt0_since_confirmation) := ltac:(make_setter eta_context formal_pt0_since_confirmation).
#[export] Instance set_formal_pt0_crc7_seen : Settable Context (@formal_pt0_crc7_seen) := ltac:(make_setter eta_context formal_pt0_crc7_seen).
#[export] Instance set_formal_pt0_crc3_retired : Settable Context (@formal_pt0_crc3_retired) := ltac:(make_setter eta_context formal_pt0_crc3_retired).
#[export] Instance set_reject_legacy_udp_pt0_until_refresh : Settable Context (@reject_legacy_udp_pt0_until_refresh) := ltac:(make_setter eta_context reject_legacy_udp_pt0_until_refresh).
#[export] Instance set_limit_legacy_udp_pt0_to_sequential : Settable Context (@limit_legacy_udp_pt0_to_sequential) := ltac:(make_setter eta_context limit_legacy_udp_pt0_to_sequential).
#[export] Instance set_compact_profile_replacement_seen : Settable Context (@compact_profile_replacement_seen) := ltac:(make_setter eta_context compact_profile_replacement_seen).
#[export] Instance set_context_revision : Settable Context (@context_revision) := ltac:(make_setter eta_context context_revision).
#[export] Instance set_msn : Settable Context (@msn) := ltac:(make_setter eta_context msn).
#[export] Instance set_reorder_ratio : Settable Context (@reorder_ratio) := ltac:(make_setter eta_context reorder_ratio).
#[export] Instance set_transmitted_msn_history : Settable Context (@transmitted_msn_history) := ltac:(make_setter eta_context transmitted_msn_history).
#[export] Instance set_transmitted_context_revision_history : Settable Context (@transmitted_context_revision_history) := ltac:(make_setter eta_context transmitted_context_revision_history).
#[export] Instance set_transmitted_msn_head : Settable Context (@transmitted_msn_head) := ltac:(make_setter eta_context transmitted_msn_head).
#[export] Instance set_transmitted_msn_count : Settable Context (@transmitted_msn_count) := ltac:(make_setter eta_context transmitted_msn_count).
#[export] Instance set_ip_version : Settable Context (@ip_version) := ltac:(make_setter eta_context ip_version).
#[export] Instance set_ipv4_tos : Settable Context (@ipv4_tos) := ltac:(make_setter eta_context ipv4_tos).
#[export] Instance set_ipv4_ttl : Settable Context (@ipv4_ttl) := ltac:(make_setter eta_context ipv4_ttl).
#[export] Instance set_ipv4_id : Settable Context (@ipv4_id) := ltac:(make_setter eta_context ipv4_id).
#[export] Instance set_ipv4_flags : Settable Context (@ipv4_flags) := ltac:(make_setter eta_context ipv4_flags).
#[export] Instance set_ipv4_id_sequential : Settable Context (@ipv4_id_sequential) := ltac:(make_setter eta_context ipv4_id_sequential).
#[export] Instance set_ipv4_id_behavior : Settable Context (@ipv4_id_behavior) := ltac:(make_setter eta_context ipv4_id_behavior).
#[export] Instance set_ipv4_protocol : Settable Context (@ipv4_protocol) := ltac:(make_setter eta_context ipv4_protocol).
#[export] Instance set_ipv4_saddr : Settable Context (@ipv4_saddr) := ltac:(make_setter eta_context ipv4_saddr).
#[export] Instance set_ipv4_daddr : Settable Context (@ipv4_daddr) := ltac:(make_setter eta_context ipv4_daddr).
#[export] Instance set_ipv4_options_len : Settable Context (@ipv4_options_len) := ltac:(make_setter eta_context ipv4_options_len).
#[export] Instance set_ipv4_options : Settable Context (@ipv4_options) := ltac:(make_setter eta_context ipv4_options).
#[export] Instance set_ipv6_traffic_class : Settable Context (@ipv6_traffic_class) := ltac:(make_setter eta_context ipv6_traffic_class).
#[export] Instance set_ipv6_flow_label : Settable Context (@ipv6_flow_label) := ltac:(make_setter eta_context ipv6_flow_label).
#[export] Instance set_ipv6_next_header : Settable Context (@ipv6_next_header) := ltac:(make_setter eta_context ipv6_next_header).
#[export] Instance set_ipv6_hop_limit : Settable Context (@ipv6_hop_limit) := ltac:(make_setter eta_context ipv6_hop_limit).
#[export] Instance set_ipv6_extension_len : Settable Context (@ipv6_extension_len) := ltac:(make_setter eta_context ipv6_extension_len).
#[export] Instance set_ipv6_saddr : Settable Context (@ipv6_saddr) := ltac:(make_setter eta_context ipv6_saddr).
#[export] Instance set_ipv6_daddr : Settable Context (@ipv6_daddr) := ltac:(make_setter eta_context ipv6_daddr).
#[export] Instance set_ipv6_extensions : Settable Context (@ipv6_extensions) := ltac:(make_setter eta_context ipv6_extensions).
#[export] Instance set_udp_sport : Settable Context (@udp_sport) := ltac:(make_setter eta_context udp_sport).
#[export] Instance set_udp_dport : Settable Context (@udp_dport) := ltac:(make_setter eta_context udp_dport).
#[export] Instance set_udp_length_or_coverage : Settable Context (@udp_length_or_coverage) := ltac:(make_setter eta_context udp_length_or_coverage).
#[export] Instance set_udp_check : Settable Context (@udp_check) := ltac:(make_setter eta_context udp_check).
#[export] Instance set_udp_checksum_used : Settable Context (@udp_checksum_used) := ltac:(make_setter eta_context udp_checksum_used).
#[export] Instance set_esp_spi : Settable Context (@esp_spi) := ltac:(make_setter eta_context esp_spi).
#[export] Instance set_esp_sequence : Settable Context (@esp_sequence) := ltac:(make_setter eta_context esp_sequence).
#[export] Instance set_legacy_esp_payload_includes_header : Settable Context (@legacy_esp_payload_includes_header) := ltac:(make_setter eta_context legacy_esp_payload_includes_header).
#[export] Instance set_rtp : Settable Context (@rtp) := ltac:(make_setter eta_context rtp).


(** ** Initial values: [new Context[n]()] zero-initialises, then applies the
    default member initialisers of the struct *)

Definition initial_rtp_context : RtpContext :=
  mkRtp 0 0 0 0 0 0 0 0 0 false 0 (repeat 0 60) 0 (repeat 0 256) 0 (repeat 0 255) 0 0.

Definition initial_context : Context :=
  mkContext Uncompressed ModeUncompressed NoContext 0 false 0 0 false false false false false
    0 false false false false false 0 0 0 (repeat 0 64) (repeat 0 64) 0 0
    4 0 0 0 0 false 0 0 0 0 0 (repeat 0 40)
    0 0 0 0 0 (repeat 0 16) (repeat 0 16) (repeat 0 128)
    0 0 0 0 false 0 0 false initial_rtp_context.

(** ** ContextTable *)

Record ContextTable := { table : list Context; max_cid : Z }.

(** The array has [max_cid + 1] elements, computed in [uint32_t]. *)
Definition table_init (max : Z) : ContextTable :=
  {| table := repeat initial_context (Z.to_nat (u32 (max + 1))); max_cid := max |}.

(** [destroy] leaves a null table whose [max_cid] is 0. *)
Definition table_destroy (_ : ContextTable) : ContextTable := {| table := []; max_cid := 0 |}.

(** [get]: a null pointer ([Rej]) beyond [max_cid]; the context read through
    the pointer otherwise, undefined when the array has no such element. *)
Definition table_get (t : ContextTable) (cid : Z) : outcome Context :=
  if max_cid t <? cid then Rej
  else match table t !! Z.to_nat cid with Some c => Ok c | None => Ub end.

(** A store through the pointer that [get] returned. *)
Definition table_set (t : ContextTable) (cid : Z) (c : Context) : ContextTable :=
  {| table := <[Z.to_nat cid := c]> (table t); max_cid := max_cid t |}.

(** An [rtp::Header] after [wire::to_host]: sequence, timestamp, ssrc. *)
Record RtpHeader := {
  h_vpxcc : Z; h_mpt : Z; h_sequence : Z; h_timestamp : Z; h_ssrc : Z }.

Definition init_rtp_context (tbl : ContextTable) (cid_ : Z) (rtp_ : option RtpHeader)
    : outcome ContextTable :=
  let! ctx := table_get tbl cid_ in
  let ctx := ctx <| cid := cid_ |> <| profile := RTP |> <| mode := Optimistic |>
                 <| tx_count := 0 |> <| nack_count := 0 |> in
  let ctx :=
    match rtp_ with
    | None => ctx
    | Some h =>
        ctx <| rtp := rtp ctx
              <| ssrc := h_ssrc h |> <| last_seq := h_sequence h |>
              <| last_ts := h_timestamp h |>
              <| seq_window := LsbWindow.init (h_sequence h) |>
              <| ts_window := LsbWindow.init (h_timestamp h) |>
              <| initialized := 1 |> |>
    end in
  Ok (table_set tbl cid_ ctx).

(** ** Profile selection: which of the three headers were recognised *)

Definition select_profile (ip udp rtp_ : bool) : Profile :=
  if ip && udp && rtp_ then RTP
  else if ip && udp then UDP
  else Uncompressed.

(** ** The context CRC of the LLA context-check packet *)

Definition write_context_u16 (v : Z) : M wst unit := puts (be16 v).
Definition write_context_u32 (v : Z) : M wst unit := puts (be32 v).

Definition context_crc7 (ctx : Context) : outcome Z :=
  let write :=
    write_context_u16 (profile_id (profile ctx)) ;;;
    write_context_u32 (cid ctx) ;;;
    put (ip_version ctx) ;;;
    put (ipv4_tos ctx) ;;;
    put (ipv4_ttl ctx) ;;;
    write_context_u16 (ipv4_id ctx) ;;;
    put (ipv4_flags ctx) ;;;
    put (if ipv4_id_sequential ctx then 1 else 0) ;;;
    write_context_u32 (ipv4_saddr ctx) ;;;
    write_context_u32 (ipv4_daddr ctx) ;;;
    write_context_u16 (udp_sport ctx) ;;;
    write_context_u16 (udp_dport ctx) ;;;
    write_context_u16 (udp_check ctx) ;;;
    put (vpxcc (rtp ctx)) ;;;
    put (mpt (rtp ctx)) ;;;
    write_context_u16 (last_seq (rtp ctx)) ;;;
    write_context_u32 (last_ts (rtp ctx)) ;;;
    write_context_u32 (ssrc (rtp ctx)) ;;;
    write_context_u32 (ts_stride (rtp ctx)) in
  match write {| w_out := []; w_cap := 64 |} with
  | (Ok _, s) => Ok (Z.land (crc7 (w_out s)) 0x7F)
  | (Rej, _) => Rej
  | (Ub, _) => Ub
  end.

(** ** Well-formed contexts: every field within its C++ type, and the IPv4
    options and IPv6 extension headers within their arrays *)

Definition rtp_ok (r : RtpContext) : Prop :=
  0 <= ssrc r < 2 ^ 32 /\ 0 <= last_seq r < 2 ^ 16 /\ 0 <= last_ts r < 2 ^ 32 /\
  byte_ok (vpxcc r) /\ byte_ok (mpt r) /\ byte_ok (initialized r) /\
  0 <= ts_stride r < 2 ^ 32 /\ 0 <= ts_residue r < 2 ^ 32 /\
  0 <= timer_elapsed_ticks r < 2 ^ 32 /\
  byte_ok (csrc_list_len r) /\ (length (csrc_list r) = 60%nat /\ bytes_ok (csrc_list r)) /\
  0 <= extension_len r < 2 ^ 16 /\
  (length (extension_bytes r) = 256%nat /\ bytes_ok (extension_bytes r)) /\
  byte_ok (padding_len r) /\ (length (padding_bytes r) = 255%nat /\ bytes_ok (padding_bytes r)) /\
  0 <= seq_window r < 2 ^ 16 /\ 0 <= ts_window r < 2 ^ 32.

Definition control_ok (c : Context) : Prop :=
  0 <= cid c < 2 ^ 32 /\ 0 <= tx_count c < 2 ^ 32 /\ byte_ok (nack_count c) /\
  byte_ok (formal_pt0_since_confirmation c) /\ 0 <= context_revision c < 2 ^ 64 /\
  0 <= msn c < 2 ^ 16 /\ byte_ok (reorder_ratio c) /\
  length (transmitted_msn_history c) = 64%nat /\
  length (transmitted_context_revision_history c) = 64%nat /\
  byte_ok (transmitted_msn_head c) /\ byte_ok (transmitted_msn_count c) /\
  byte_ok (ip_version c).

Definition ipv4_ok (c : Context) : Prop :=
  byte_ok (ipv4_tos c) /\ byte_ok (ipv4_ttl c) /\
  0 <= ipv4_id c < 2 ^ 16 /\ byte_ok (ipv4_flags c) /\ byte_ok (ipv4_id_behavior c) /\
  byte_ok (ipv4_protocol c) /\ 0 <= ipv4_saddr c < 2 ^ 32 /\ 0 <= ipv4_daddr c < 2 ^ 32 /\
  0 <= ipv4_options_len c <= 40 /\ (length (ipv4_options c) = 40%nat /\ bytes_ok (ipv4_options c)).

Definition ipv6_ok (c : Context) : Prop :=
  byte_ok (ipv6_traffic_class c) /\ 0 <= ipv6_flow_label c < 2 ^ 32 /\
  byte_ok (ipv6_next_header c) /\ byte_ok (ipv6_hop_limit c) /\ 0 <= ipv6_extension_len c <= 128 /\
  (length (ipv6_saddr c) = 16%nat /\ bytes_ok (ipv6_saddr c)) /\
  (length (ipv6_daddr c) = 16%nat /\ bytes_ok (ipv6_daddr c)) /\
  (length (ipv6_extensions c) = 128%nat /\ bytes_ok (ipv6_extensions c)).

Definition transport_ok (c : Context) : Prop :=
  0 <= udp_sport c < 2 ^ 16 /\ 0 <= udp_dport c < 2 ^ 16 /\
  0 <= udp_length_or_coverage c < 2 ^ 16 /\ 0 <= udp_check c < 2 ^ 16 /\
  0 <= esp_spi c < 2 ^ 32 /\ 0 <= esp_sequence c < 2 ^ 32.

Definition context_ok (c : Context) : Prop :=
  control_ok c /\ ipv4_ok c /\ ipv6_ok c /\ transport_ok c /\ rtp_ok (rtp c).

(** ** Single fields of a well-formed context *)

Ltac field_of := intros H; unfold context_ok, control_ok, ipv4_ok, ipv6_ok, transport_ok, rtp_ok in H;
  decompose [and] H; split; assumption.

Lemma ok_cid c : context_ok c -> 0 <= cid c < 2 ^ 32.
Proof. field_of. Qed.
Lemma ok_msn c : context_ok c -> 0 <= msn c < 2 ^ 16.
Proof. field_of. Qed.
Lemma ok_ipv4_id c : context_ok c -> 0 <= ipv4_id c < 2 ^ 16.
Proof. field_of. Qed.
Lemma ok_ipv4_saddr c : context_ok c -> 0 <= ipv4_saddr c < 2 ^ 32.
Proof. field_of. Qed.
Lemma ok_ipv4_daddr c : context_ok c -> 0 <= ipv4_daddr c < 2 ^ 32.
Proof. field_of. Qed.
Lemma ok_udp_sport c : context_ok c -> 0 <= udp_sport c < 2 ^ 16.
Proof. field_of. Qed.
Lemma ok_udp_dport c : context_ok c -> 0 <= udp_dport c < 2 ^ 16.
Proof. field_of. Qed.
Lemma ok_udp_length_or_coverage c : context_ok c -> 0 <= udp_length_or_coverage c < 2 ^ 16.
Proof. field_of. Qed.
Lemma ok_udp_check c : context_ok c -> 0 <= udp_check c < 2 ^ 16.
Proof. field_of. Qed.
Lemma ok_esp_spi c : context_ok c -> 0 <= esp_spi c < 2 ^ 32.
Proof. field_of. Qed.
Lemma ok_esp_sequence c : context_ok c -> 0 <= esp_sequence c < 2 ^ 32.
Proof. field_of. Qed.
Lemma ok_ssrc c : context_ok c -> 0 <= ssrc (rtp c) < 2 ^ 32.
Proof. field_of. Qed.
Lemma ok_last_seq c : context_ok c -> 0 <= last_seq (rtp c) < 2 ^ 16.
Proof. field_of. Qed.
Lemma ok_last_ts c : context_ok c -> 0 <= last_ts (rtp c) < 2 ^ 32.
Proof. field_of. Qed.
Lemma ok_ipv6_saddr c : context_ok c -> blen (ipv6_saddr c) = 16 /\ bytes_ok (ipv6_saddr c).
Proof. unfold blen. intros H. unfold context_ok, ipv6_ok in H. decompose [and] H. split; [lia|done]. Qed.
Lemma ok_ipv6_daddr c : context_ok c -> blen (ipv6_daddr c) = 16 /\ bytes_ok (ipv6_daddr c).
Proof. unfold blen. intros H. unfold context_ok, ipv6_ok in H. decompose [and] H. split; [lia|done]. Qed.

#[export] Hint Resolve ok_cid ok_msn ok_ipv4_id ok_ipv4_saddr ok_ipv4_daddr ok_udp_sport ok_udp_dport ok_udp_length_or_coverage ok_udp_check ok_esp_spi ok_esp_sequence ok_ssrc ok_last_seq ok_last_ts : rohc.

(** The context of [initial_context] is well formed. *)
Lemma initial_context_ok : context_ok initial_context.
Proof.
  assert (R : forall n, bytes_ok (repeat 0 n)).
  { induction n; constructor; [unfold byte_ok; lia | done]. }
  unfold context_ok, control_ok, ipv4_ok, ipv6_ok, transport_ok, rtp_ok.
  repeat split; first [apply R | reflexivity | vm_compute; congruence].
Qed.

(** ** Cells of the table *)

Lemma table_get_set t i c c' : table_get t i = Ok c -> table_get (table_set t i c') i = Ok c'.
Proof.
  unfold table_get, table_set. cbn. destruct (max_cid t <? i); [done|].
  destruct (table t !! Z.to_nat i) eqn:E; [|done]. intros _.
  by rewrite list_lookup_insert_eq by (by eapply lookup_lt_Some).
Qed.

Lemma table_get_set_ne t i j c :
  0 <= i -> 0 <= j -> i <> j -> table_get (table_set t i c) j = table_get t j.
Proof.
  intros Hi Hj Hn. unfold table_get, table_set. cbn.
  by rewrite list_lookup_insert_ne by (by intros E%Z2Nat.inj).
Qed.

Lemma table_set_set t i c c' : table_set (table_set t i c) i c' = table_set t i c'.
Proof. unfold table_set. cbn. by rewrite list_insert_insert_eq. Qed.

Lemma table_set_get t i c : table_get t i = Ok c -> table_set t i c = t.
Proof.
  unfold table_get, table_set. destruct t as [l m]. cbn. destruct (m <? i); [done|].
  destruct (l !! Z.to_nat i) eqn:E; [|done]. intros [= ->]. by rewrite list_insert_id.
Qed.

Lemma lookup_repeat {A} (x : A) n i : (i < n)%nat -> repeat x n !! i = Some x.
Proof. revert i. induction n as [|n IH]; intros [|i] H; cbn; [lia..|done|apply IH; lia]. Qed.

Lemma table_init_get max i :
  0 <= i <= max -> max < 2 ^ 32 - 1 -> table_get (table_init max) i = Ok initial_context.
Proof.
  intros Hi Hm. unfold table_get, table_init. cbn [table max_cid].
  rewrite (proj2 (Z.ltb_ge max i)) by lia. unfold u32. rewrite Z.mod_small by lia.
  by rewrite lookup_repeat by lia.
Qed.

(** ** The context CRC never leaves its scratch buffer *)

Definition context_octets (ctx : Context) : bytes :=
  be16 (profile_id (profile ctx)) ++ be32 (cid ctx) ++
  [ip_version ctx; ipv4_tos ctx; ipv4_ttl ctx] ++ be16 (ipv4_id ctx) ++
  [ipv4_flags ctx; if ipv4_id_sequential ctx then 1 else 0] ++
  be32 (ipv4_saddr ctx) ++ be32 (ipv4_daddr ctx) ++
  be16 (udp_sport ctx) ++ be16 (udp_dport ctx) ++ be16 (udp_check ctx) ++
  [vpxcc (rtp ctx); mpt (rtp ctx)] ++ be16 (last_seq (rtp ctx)) ++
  be32 (last_ts (rtp ctx)) ++ be32 (ssrc (rtp ctx)) ++ be32 (ts_stride (rtp ctx)).

Lemma context_octets_ok ctx : context_ok ctx -> bytes_ok (context_octets ctx).
Proof.
  intros H. unfold context_ok, control_ok, ipv4_ok, transport_ok, rtp_ok in H.
  decompose [and] H. unfold context_octets.
  assert (Hs : byte_ok (if ipv4_id_sequential ctx then 1 else 0))
    by (unfold byte_ok; destruct (ipv4_id_sequential ctx); lia).
  repeat (apply bytes_ok_app; split; [auto with rohc|]); auto with rohc;
    repeat (apply bytes_ok_cons; split; [assumption|]); apply bytes_ok_nil.
Qed.

Lemma context_crc7_runs ctx : context_crc7 ctx = Ok (Z.land (crc7 (context_octets ctx)) 0x7F).
Proof. reflexivity. Qed.

Lemma context_crc7_eq ctx : context_ok ctx -> context_crc7 ctx = Ok (crc7 (context_octets ctx)).
Proof.
  intros H. rewrite context_crc7_runs, land_7F_small; [done|].
  by apply crc7_bound, context_octets_ok.
Qed.

(** ** Updates that keep a context well formed *)

Ltac split_all := repeat match goal with |- _ /\ _ => split end.

(** Only the group the field belongs to needs opening. *)
Ltac open_group P :=
  match goal with H : P ?c |- P _ =>
    unfold P in H |- *;
    repeat match goal with H' : _ /\ _ |- _ => destruct H' end; split_all; assumption
  end.

Ltac keeps_ok H :=
  lazymatch type of H with
  | context_ok _ => destruct H as (? & ? & ? & ? & ?); unfold context_ok; split_all
  | _ => idtac
  end;
  first [ assumption | open_group control_ok | open_group ipv4_ok | open_group ipv6_ok
        | open_group transport_ok | open_group rtp_ok ].

Create HintDb ctxok.

Lemma ok_set_ssrc c v : rtp_ok c -> 0 <= v < 2 ^ 32 -> rtp_ok (c <| ssrc := v |>).
Proof. intros H; intros; keeps_ok H. Qed.
Lemma ok_set_last_seq c v : rtp_ok c -> 0 <= v < 2 ^ 16 -> rtp_ok (c <| last_seq := v |>).
Proof. intros H; intros; keeps_ok H. Qed.
Lemma ok_set_last_ts c v : rtp_ok c -> 0 <= v < 2 ^ 32 -> rtp_ok (c <| last_ts := v |>).
Proof. intros H; intros; keeps_ok H. Qed.
Lemma ok_set_vpxcc c v : rtp_ok c -> byte_ok v -> rtp_ok (c <| vpxcc := v |>).
Proof. intros H; intros; keeps_ok H. Qed.
Lemma ok_set_mpt c v : rtp_ok c -> byte_ok v -> rtp_ok (c <| mpt := v |>).
Proof. intros H; intros; keeps_ok H. Qed.
Lemma ok_set_initialized c v : rtp_ok c -> byte_ok v -> rtp_ok (c <| initialized := v |>).
Proof. intros H; intros; keeps_ok H. Qed.
Lemma ok_set_ts_stride c v : rtp_ok c -> 0 <= v < 2 ^ 32 -> rtp_ok (c <| ts_stride := v |>).
Proof. intros H; intros; keeps_ok H. Qed.
Lemma ok_set_ts_residue c v : rtp_ok c -> 0 <= v < 2 ^ 32 -> rtp_ok (c <| ts_residue := v |>).
Proof. intros H; intros; keeps_ok H. Qed.
Lemma ok_set_timer_elapsed_ticks c v : rtp_ok c -> 0 <= v < 2 ^ 32 -> rtp_ok (c <| timer_elapsed_ticks := v |>).
Proof. intros H; intros; keeps_ok H. Qed.
Lemma ok_set_timer_based_ts c v : rtp_ok c -> rtp_ok (c <| timer_based_ts := v |>).
Proof. intros H; intros; keeps_ok H. Qed.
Lemma ok_set_csrc_list_len c v : rtp_ok c -> byte_ok v -> rtp_ok (c <| csrc_list_len := v |>).
Proof. intros H; intros; keeps_ok H. Qed.
Lemma ok_set_csrc_list c v : rtp_ok c -> length v = 60%nat -> bytes_ok v -> rtp_ok (c <| csrc_list := v |>).
Proof. intros H; intros; keeps_ok H. Qed.
Lemma ok_set_extension_len c v : rtp_ok c -> 0 <= v < 2 ^ 16 -> rtp_ok (c <| extension_len := v |>).
Proof. intros H; intros; keeps_ok H. Qed.
Lemma ok_set_extension_bytes c v : rtp_ok c -> length v = 256%nat -> bytes_ok v -> rtp_ok (c <| extension_bytes := v |>).
Proof. intros H; intros; keeps_ok H. Qed.
Lemma ok_set_padding_len c v : rtp_ok c -> byte_ok v -> rtp_ok (c <| padding_len := v |>).
Proof. intros H; intros; keeps_ok H. Qed.
Lemma ok_set_padding_bytes c v : rtp_ok c -> length v = 255%nat -> bytes_ok v -> rtp_ok (c <| padding_bytes := v |>).
Proof. intros H; intros; keeps_ok H. Qed.
Lemma ok_set_seq_window c v : rtp_ok c -> 0 <= v < 2 ^ 16 -> rtp_ok (c <| seq_window := v |>).
Proof. intros H; intros; keeps_ok H. Qed.
Lemma ok_set_ts_window c v : rtp_ok c -> 0 <= v < 2 ^ 32 -> rtp_ok (c <| ts_window := v |>).
Proof. intros H; intros; keeps_ok H. Qed.
Lemma ok_set_cid c v : context_ok c -> 0 <= v < 2 ^ 32 -> context_ok (c <| cid := v |>).
Proof. intros H; intros; keeps_ok H. Qed.
Lemma ok_set_tx_count c v : context_ok c -> 0 <= v < 2 ^ 32 -> context_ok (c <| tx_count := v |>).
Proof. intros H; intros; keeps_ok H. Qed.
Lemma ok_set_nack_count c v : context_ok c -> byte_ok v -> context_ok (c <| nack_count := v |>).
Proof. intros H; intros; keeps_ok H. Qed.
Lemma ok_set_formal_pt0_since_confirmation c v : context_ok c -> byte_ok v -> context_ok (c <| formal_pt0_since_confirmation := v |>).
Proof. intros H; intros; keeps_ok H. Qed.
Lemma ok_set_context_revision c v : context_ok c -> 0 <= v < 2 ^ 64 -> context_ok (c <| context_revision := v |>).
Proof. intros H; intros; keeps_ok H. Qed.
Lemma ok_set_msn c v : context_ok c -> 0 <= v < 2 ^ 16 -> context_ok (c <| msn := v |>).
Proof. intros H; intros; keeps_ok H. Qed.
Lemma ok_set_reorder_ratio c v : context_ok c -> byte_ok v -> context_ok (c <| reorder_ratio := v |>).
Proof. intros H; intros; keeps_ok H. Qed.
Lemma ok_set_transmitted_msn_head c v : context_ok c -> byte_ok v -> context_ok (c <| transmitted_msn_head := v |>).
Proof. intros H; intros; keeps_ok H. Qed.
Lemma ok_set_transmitted_msn_count c v : context_ok c -> byte_ok v -> context_ok (c <| transmitted_msn_count := v |>).
Proof. intros H; intros; keeps_ok H. Qed.
Lemma ok_set_transmitted_msn_history c v : context_ok c -> length v = 64%nat -> context_ok (c <| transmitted_msn_history := v |>).
Proof. intros H; intros; keeps_ok H. Qed.
Lemma ok_set_transmitted_context_revision_history c v : context_ok c -> length v = 64%nat -> context_ok (c <| transmitted_context_revision_history := v |>).
Proof. intros H; intros; keeps_ok H. Qed.
Lemma ok_set_ip_version c v : context_ok c -> byte_ok v -> context_ok (c <| ip_version := v |>).
Proof. intros H; intros; keeps_ok H. Qed.
Lemma ok_set_ipv4_tos c v : context_ok c -> byte_ok v -> context_ok (c <| ipv4_tos := v |>).
Proof. intros H; intros; keeps_ok H. Qed.
Lemma ok_set_ipv4_ttl c v : context_ok c -> byte_ok v -> context_ok (c <| ipv4_ttl := v |>).
Proof. intros H; intros; keeps_ok H. Qed.
Lemma ok_set_ipv4_id c v : context_ok c -> 0 <= v < 2 ^ 16 -> context_ok (c <| ipv4_id := v |>).
Proof. intros H; intros; keeps_ok H. Qed.
Lemma ok_set_ipv4_flags c v : context_ok c -> byte_ok v -> context_ok (c <| ipv4_flags := v |>).
Proof. intros H; intros; keeps_ok H. Qed.
Lemma ok_set_ipv4_id_behavior c v : context_ok c -> byte_ok v -> context_ok (c <| ipv4_id_behavior := v |>).
Proof. intros H; intros; keeps_ok H. Qed.
Lemma ok_set_ipv4_protocol c v : context_ok c -> byte_ok v -> context_ok (c <| ipv4_protocol := v |>).
Proof. intros H; intros; keeps_ok H. Qed.
Lemma ok_set_ipv4_saddr c v : context_ok c -> 0 <= v < 2 ^ 32 -> context_ok (c <| ipv4_saddr := v |>).
Proof. intros H; intros; keeps_ok H. Qed.
Lemma ok_set_ipv4_daddr c v : context_ok c -> 0 <= v < 2 ^ 32 -> context_ok (c <| ipv4_daddr := v |>).
Proof. intros H; intros; keeps_ok H. Qed.
Lemma ok_set_ipv4_options_len c v : context_ok c -> 0 <= v <= 40 -> context_ok (c <| ipv4_options_len := v |>).
Proof. intros H; intros; keeps_ok H. Qed.
Lemma ok_set_ipv4_options c v : context_ok c -> length v = 40%nat -> bytes_ok v -> context_ok (c <| ipv4_options := v |>).
Proof. intros H; intros; keeps_ok H. Qed.
Lemma ok_set_ipv6_traffic_class c v : context_ok c -> byte_ok v -> context_ok (c <| ipv6_traffic_class := v |>).
Proof. intros H; intros; keeps_ok H. Qed.
Lemma ok_set_ipv6_flow_label c v : context_ok c -> 0 <= v < 2 ^ 32 -> context_ok (c <| ipv6_flow_label := v |>).
Proof. intros H; intros; keeps_ok H. Qed.
Lemma ok_set_ipv6_next_header c v : context_ok c -> byte_ok v -> context_ok (c <| ipv6_next_header := v |>).
Proof. intros H; intros; keeps_ok H. Qed.
Lemma ok_set_ipv6_hop_limit c v : context_ok c -> byte_ok v -> context_ok (c <| ipv6_hop_limit := v |>).
Proof. intros H; intros; keeps_ok H. Qed.
Lemma ok_set_ipv6_extension_len c v : context_ok c -> 0 <= v <= 128 -> context_ok (c <| ipv6_extension_len := v |>).
Proof. intros H; intros; keeps_ok H. Qed.
Lemma ok_set_ipv6_saddr c v : context_ok c -> length v = 16%nat -> bytes_ok v -> context_ok (c <| ipv6_saddr := v |>).
Proof. intros H; intros; keeps_ok H. Qed.
Lemma ok_set_ipv6_daddr c v : context_ok c -> length v = 16%nat -> bytes_ok v -> context_ok (c <| ipv6_daddr := v |>).
Proof. intros H; intros; keeps_ok H. Qed.
Lemma ok_set_ipv6_extensions c v : context_ok c -> length v = 128%nat -> bytes_ok v -> context_ok (c <| ipv6_extensions := v |>).
Proof. intros H; intros; keeps_ok H. Qed.
Lemma ok_set_udp_sport c v : context_ok c -> 0 <= v < 2 ^ 16 -> context_ok (c <| udp_sport := v |>).
Proof. intros H; intros; keeps_ok H. Qed.
Lemma ok_set_udp_dport c v : context_ok c -> 0 <= v < 2 ^ 16 -> context_ok (c <| udp_dport := v |>).
Proof. intros H; intros; keeps_ok H. Qed.
Lemma ok_set_udp_length_or_coverage c v : context_ok c -> 0 <= v < 2 ^ 16 -> context_ok (c <| udp_length_or_coverage := v |>).
Proof. intros H; intros; keeps_ok H. Qed.
Lemma ok_set_udp_check c v : context_ok c -> 0 <= v < 2 ^ 16 -> context_ok (c <| udp_check := v |>).
Proof. intros H; intros; keeps_ok H. Qed.
Lemma ok_set_esp_spi c v : context_ok c -> 0 <= v < 2 ^ 32 -> context_ok (c <| esp_spi := v |>).
Proof. intros H; intros; keeps_ok H. Qed.
Lemma ok_set_esp_sequence c v : context_ok c -> 0 <= v < 2 ^ 32 -> context_ok (c <| esp_sequence := v |>).
Proof. intros H; intros; keeps_ok H. Qed.
Lemma ok_set_rtp c v : context_ok c -> rtp_ok v -> context_ok (c <| rtp := v |>).
Proof. intros H; intros; keeps_ok H. Qed.
Lemma ok_set_profile c v : context_ok c -> context_ok (c <| profile := v |>).
Proof. intros H; intros; keeps_ok H. Qed.
Lemma ok_set_mode c v : context_ok c -> context_ok (c <| mode := v |>).
Proof. intros H; intros; keeps_ok H. Qed.
Lemma ok_set_rohc_state c v : context_ok c -> context_ok (c <| rohc_state := v |>).
Proof. intros H; intros; keeps_ok H. Qed.
Lemma ok_set_large_cid c v : context_ok c -> context_ok (c <| large_cid := v |>).
Proof. intros H; intros; keeps_ok H. Qed.
Lemma ok_set_static_acked c v : context_ok c -> context_ok (c <| static_acked := v |>).
Proof. intros H; intros; keeps_ok H. Qed.
Lemma ok_set_dynamic_acked c v : context_ok c -> context_ok (c <| dynamic_acked := v |>).
Proof. intros H; intros; keeps_ok H. Qed.
Lemma ok_set_profile_has_been_used c v : context_ok c -> context_ok (c <| profile_has_been_used := v |>).
Proof. intros H; intros; keeps_ok H. Qed.
Lemma ok_set_profile_replacement_active c v : context_ok c -> context_ok (c <| profile_replacement_active := v |>).
Proof. intros H; intros; keeps_ok H. Qed.
Lemma ok_set_profile_replacement_pending c v : context_ok c -> context_ok (c <| profile_replacement_pending := v |>).
Proof. intros H; intros; keeps_ok H. Qed.
Lemma ok_set_formal_pt0_crc7_seen c v : context_ok c -> context_ok (c <| formal_pt0_crc7_seen := v |>).
Proof. intros H; intros; keeps_ok H. Qed.
Lemma ok_set_formal_pt0_crc3_retired c v : context_ok c -> context_ok (c <| formal_pt0_crc3_retired := v |>).
Proof. intros H; intros; keeps_ok H. Qed.
Lemma ok_set_reject_legacy_udp_pt0_until_refresh c v : context_ok c -> context_ok (c <| reject_legacy_udp_pt0_until_refresh := v |>).
Proof. intros H; intros; keeps_ok H. Qed.
Lemma ok_set_limit_legacy_udp_pt0_to_sequential c v : context_ok c -> context_ok (c <| limit_legacy_udp_pt0_to_sequential := v |>).
Proof. intros H; intros; keeps_ok H. Qed.
Lemma ok_set_compact_profile_replacement_seen c v : context_ok c -> context_ok (c <| compact_profile_replacement_seen := v |>).
Proof. intros H; intros; keeps_ok H. Qed.
Lemma ok_set_ipv4_id_sequential c v : context_ok c -> context_ok (c <| ipv4_id_sequential := v |>).
Proof. intros H; intros; keeps_ok H. Qed.
Lemma ok_set_udp_checksum_used c v : context_ok c -> context_ok (c <| udp_checksum_used := v |>).
Proof. intros H; intros; keeps_ok H. Qed.
Lemma ok_set_legacy_esp_payload_includes_header c v : context_ok c -> context_ok (c <| legacy_esp_payload_includes_header := v |>).
Proof. intros H; intros; keeps_ok H. Qed.

#[export] Hint Resolve
  ok_set_ssrc ok_set_last_seq ok_set_last_ts ok_set_vpxcc ok_set_mpt
  ok_set_initialized ok_set_ts_stride ok_set_ts_residue ok_set_timer_elapsed_ticks ok_set_timer_based_ts
  ok_set_csrc_list_len ok_set_csrc_list ok_set_extension_len ok_set_extension_bytes ok_set_padding_len
  ok_set_padding_bytes ok_set_seq_window ok_set_ts_window ok_set_cid ok_set_tx_count
  ok_set_nack_count ok_set_formal_pt0_since_confirmation ok_set_context_revision ok_set_msn ok_set_reorder_ratio
  ok_set_transmitted_msn_head ok_set_transmitted_msn_count ok_set_transmitted_msn_history ok_set_transmitted_context_revision_history ok_set_ip_version
  ok_set_ipv4_tos ok_set_ipv4_ttl ok_set_ipv4_id ok_set_ipv4_flags ok_set_ipv4_id_behavior
  ok_set_ipv4_protocol ok_set_ipv4_saddr ok_set_ipv4_daddr ok_set_ipv4_options_len ok_set_ipv4_options
  ok_set_ipv6_traffic_class ok_set_ipv6_flow_label ok_set_ipv6_next_header ok_set_ipv6_hop_limit ok_set_ipv6_extension_len
  ok_set_ipv6_saddr ok_set_ipv6_daddr ok_set_ipv6_extensions ok_set_udp_sport ok_set_udp_dport
  ok_set_udp_length_or_coverage ok_set_udp_check ok_set_esp_spi ok_set_esp_sequence ok_set_rtp
  ok_set_profile ok_set_mode ok_set_rohc_state ok_set_large_cid ok_set_static_acked
  ok_set_dynamic_acked ok_set_profile_has_been_used ok_set_profile_replacement_active ok_set_profile_replacement_pending ok_set_formal_pt0_crc7_seen
  ok_set_formal_pt0_crc3_retired ok_set_reject_legacy_udp_pt0_until_refresh ok_set_limit_legacy_udp_pt0_to_sequential ok_set_compact_profile_replacement_seen ok_set_ipv4_id_sequential
  ok_set_udp_checksum_used ok_set_legacy_esp_payload_includes_header : ctxok.

Lemma ok_rtp c : context_ok c -> rtp_ok (rtp c).
Proof. unfold context_ok. intros H. by decompose [and] H. Qed.
#[export] Hint Resolve ok_rtp : ctxok.
