(* ===== verification/Cursor.v ===== *)
(** * Cursors: how the emitters and decoders walk a buffer

    An emitter appends through a pointer [p] bounded by [end] ([wst] of the
    prelude).  A decoder carries a position [pos] in its input and the context
    it fills in ([dst]); a refusal leaves both as they are at that point. *)

From S2P Require Import Prelude Context.

(** ** Writing *)

(** A writer called with an [end] of its own, [e] octets from the current
    position; what it stores must still lie in the buffer. *)
Definition with_end {A} (e : Z) (m : M wst A) : M wst A := fun s =>
  let cap := w_cap s in
  match m {| w_out := w_out s; w_cap := blen (w_out s) + e |} with
  | (o, s') =>
      if blen (w_out s') <=? cap then (o, {| w_out := w_out s'; w_cap := cap |})
      else (Ub, {| w_out := w_out s'; w_cap := cap |})
  end.

(** A call whose boolean result is ignored. *)
Definition ignore_result {A S} (m : M S A) : M S unit := fun s =>
  match m s with
  | (Ok _, s') => (Ok tt, s')
  | (Rej, s') => (Ok tt, s')
  | (Ub, s') => (Ub, s')
  end.

(** ** Reading *)

Record dst := mkdst { d_pos : Z; d_ctx : Context }.

Definition upd (f : Context -> Context) : M dst unit :=
  modify (fun s => mkdst (d_pos s) (f (d_ctx s))).
Definition upd_rtp (f : RtpContext -> RtpContext) : M dst unit :=
  upd (fun c => c <| rtp := f (rtp c) |>).
Definition advance (n : Z) : M dst unit :=
  modify (fun s => mkdst (d_pos s + n) (d_ctx s)).

Section Reading.
Context (inp : bytes).

(** [in[pos++]], [read_u16(in + pos); pos += 2], and a [memcpy] from [in + pos]. *)
Definition next : M dst Z :=
  p <- gets d_pos ;; b <- lift (rd inp p) ;; advance 1 ;;; ret b.
Definition next16 : M dst Z :=
  p <- gets d_pos ;; v <- lift (rd_u16 inp p) ;; advance 2 ;;; ret v.
Definition next32 : M dst Z :=
  p <- gets d_pos ;; v <- lift (rd_u32 inp p) ;; advance 4 ;;; ret v.
Definition next_n (n : Z) : M dst bytes :=
  p <- gets d_pos ;; v <- lift (slice inp p n) ;; advance n ;;; ret v.

(** [len - pos], a [size_t] subtraction. *)
Definition remaining : M dst Z := gets (fun s => usub (blen inp) (d_pos s)).

(** [if(pos >= len) return false]. *)
Definition more : M dst unit := p <- gets d_pos ;; guard (p <? blen inp).
End Reading.

(** ** Reading at a known place *)

(** The octets of [inp] from position [p] on are [l]. *)
Definition suffix_at (inp : bytes) (p : Z) (l : bytes) : Prop :=
  exists pre, inp = pre ++ l /\ blen pre = p.

Lemma suffix_at_start l : suffix_at l 0 l.
Proof. by exists []. Qed.

Lemma suffix_at_app inp p a l : suffix_at inp p (a ++ l) -> suffix_at inp (p + blen a) l.
Proof.
  intros (pre & -> & <-). exists (pre ++ a). rewrite app_assoc. split; [done|]. blen_lia.
Qed.

Lemma suffix_at_cons inp p b l : suffix_at inp p (b :: l) -> suffix_at inp (p + 1) l.
Proof. apply (suffix_at_app inp p [b] l). Qed.

Lemma suffix_at_len inp p l : suffix_at inp p l -> 0 <= p /\ p + blen l = blen inp.
Proof. intros (pre & -> & <-). rewrite blen_app. split; [apply blen_nonneg|lia]. Qed.

Section ReadingAt.
Context (inp : bytes).

Lemma next_at p b l c :
  suffix_at inp p (b :: l) -> next inp (mkdst p c) = (Ok b, mkdst (p + 1) c).
Proof.
  intros (pre & -> & <-). unfold next. erewrite bind_ok by done. cbn [d_pos].
  unfold lift at 1. unfold bind at 1. by rewrite rd_app_0.
Qed.

Lemma next16_at p v l c :
  0 <= v < 2 ^ 16 -> suffix_at inp p (be16 v ++ l) ->
  next16 inp (mkdst p c) = (Ok v, mkdst (p + 2) c).
Proof.
  intros Hv (pre & -> & <-). unfold next16. erewrite bind_ok by done. cbn [d_pos].
  unfold lift at 1. unfold bind at 1. by rewrite rd_u16_be16.
Qed.

Lemma next32_at p v l c :
  0 <= v < 2 ^ 32 -> suffix_at inp p (be32 v ++ l) ->
  next32 inp (mkdst p c) = (Ok v, mkdst (p + 4) c).
Proof.
  intros Hv (pre & -> & <-). unfold next32. erewrite bind_ok by done. cbn [d_pos].
  unfold lift at 1. unfold bind at 1. by rewrite rd_u32_be32.
Qed.

Lemma next_n_at p a l c n :
  n = blen a -> suffix_at inp p (a ++ l) ->
  next_n inp n (mkdst p c) = (Ok a, mkdst (p + n) c).
Proof.
  intros -> (pre & -> & <-). unfold next_n. erewrite bind_ok by done. cbn [d_pos].
  unfold lift at 1. unfold bind at 1. by rewrite slice_exact.
Qed.

Lemma remaining_at p l c :
  size_ok (blen inp) -> suffix_at inp p l -> remaining inp (mkdst p c) = (Ok (blen l), mkdst p c).
Proof.
  intros Hs H. apply suffix_at_len in H. unfold remaining, gets. cbn [d_pos].
  pose proof (blen_nonneg l). unfold size_ok in Hs. rewrite usub_small by lia.
  repeat f_equal. lia.
Qed.

Lemma more_at p b l c : suffix_at inp p (b :: l) -> more inp (mkdst p c) = (Ok tt, mkdst p c).
Proof.
  intros H. apply suffix_at_len in H. rewrite blen_cons in H. pose proof (blen_nonneg l).
  unfold more. erewrite bind_ok by done. cbn [d_pos].
  by rewrite (proj2 (Z.ltb_lt p (blen inp))) by lia.
Qed.
End ReadingAt.

(** ** Reading at any place: no access leaves the input *)

Section ReadingSafely.
Context (inp : bytes).

Lemma wp_next p c (Q : Z -> dst -> Prop) R :
  0 <= p < blen inp -> (forall b, (bytes_ok inp -> byte_ok b) -> Q b (mkdst (p + 1) c)) ->
  wp (next inp) Q R (mkdst p c).
Proof.
  intros Hp HQ. unfold next. repeat (wp_step; cbn [d_pos]); [done|]. by apply HQ.
Qed.

Lemma wp_next16 p c (Q : Z -> dst -> Prop) R :
  0 <= p -> p + 2 <= blen inp ->
  (forall v, (bytes_ok inp -> 0 <= v < 2 ^ 16) -> Q v (mkdst (p + 2) c)) ->
  wp (next16 inp) Q R (mkdst p c).
Proof.
  intros Hp Hl HQ. unfold next16. repeat (wp_step; cbn [d_pos]); [done..|]. by apply HQ.
Qed.

Lemma wp_next32 p c (Q : Z -> dst -> Prop) R :
  0 <= p -> p + 4 <= blen inp ->
  (forall v, (bytes_ok inp -> 0 <= v < 2 ^ 32) -> Q v (mkdst (p + 4) c)) ->
  wp (next32 inp) Q R (mkdst p c).
Proof.
  intros Hp Hl HQ. unfold next32. repeat (wp_step; cbn [d_pos]); [done..|]. by apply HQ.
Qed.

Lemma wp_next_n p c n (Q : bytes -> dst -> Prop) R :
  0 <= p -> 0 <= n -> p + n <= blen inp ->
  (forall l, blen l = n -> (bytes_ok inp -> bytes_ok l) -> Q l (mkdst (p + n) c)) ->
  wp (next_n inp n) Q R (mkdst p c).
Proof.
  intros Hp Hn Hl HQ. unfold next_n. repeat (wp_step; cbn [d_pos]); [done..|]. by apply HQ.
Qed.

Lemma wp_remaining p c (Q : Z -> dst -> Prop) R :
  size_ok (blen inp) -> 0 <= p <= blen inp -> Q (blen inp - p) (mkdst p c) ->
  wp (remaining inp) Q R (mkdst p c).
Proof.
  intros Hs Hp HQ. unfold remaining, size_ok in *. wp_step. cbn [d_pos].
  by rewrite usub_small by lia.
Qed.

Lemma wp_more p c (Q : unit -> dst -> Prop) (R : dst -> Prop) :
  (p < blen inp -> Q tt (mkdst p c)) -> R (mkdst p c) -> wp (more inp) Q R (mkdst p c).
Proof.
  intros HQ HR. unfold more. repeat (wp_step; cbn [d_pos]); [|done].
  apply HQ. by apply Z.ltb_lt.
Qed.

Lemma wp_upd f p c (Q : unit -> dst -> Prop) R :
  Q tt (mkdst p (f c)) -> wp (upd f) Q R (mkdst p c).
Proof. done. Qed.

Lemma wp_advance n p c (Q : unit -> dst -> Prop) R :
  Q tt (mkdst (p + n) c) -> wp (advance n) Q R (mkdst p c).
Proof. done. Qed.
End ReadingSafely.

(** ** Decoding what is known to be there *)

Section DecodingAt.
Context (inp : bytes).

Lemma wp_run {A} (m : M dst A) s a s' (Q : A -> dst -> Prop) R :
  m s = (Ok a, s') -> Q a s' -> wp m Q R s.
Proof. unfold wp. by intros ->. Qed.

Lemma wp_next_at p b l c (Q : Z -> dst -> Prop) R :
  suffix_at inp p (b :: l) -> (suffix_at inp (p + 1) l -> Q b (mkdst (p + 1) c)) ->
  wp (next inp) Q R (mkdst p c).
Proof.
  intros H HQ. eapply wp_run; [by eapply next_at|]. apply HQ. by eapply suffix_at_cons.
Qed.

Lemma wp_next16_at p v l c (Q : Z -> dst -> Prop) R :
  suffix_at inp p (be16 v ++ l) -> 0 <= v < 2 ^ 16 ->
  (suffix_at inp (p + 2) l -> Q v (mkdst (p + 2) c)) ->
  wp (next16 inp) Q R (mkdst p c).
Proof.
  intros H Hv HQ. eapply wp_run; [by eapply next16_at|]. apply HQ.
  by apply (suffix_at_app _ _ (be16 v)).
Qed.

Lemma wp_next32_at p v l c (Q : Z -> dst -> Prop) R :
  suffix_at inp p (be32 v ++ l) -> 0 <= v < 2 ^ 32 ->
  (suffix_at inp (p + 4) l -> Q v (mkdst (p + 4) c)) ->
  wp (next32 inp) Q R (mkdst p c).
Proof.
  intros H Hv HQ. eapply wp_run; [by eapply next32_at|]. apply HQ.
  by apply (suffix_at_app _ _ (be32 v)).
Qed.

Lemma wp_next_n_at p a l c n (Q : bytes -> dst -> Prop) R :
  suffix_at inp p (a ++ l) -> n = blen a ->
  (suffix_at inp (p + n) l -> Q a (mkdst (p + n) c)) ->
  wp (next_n inp n) Q R (mkdst p c).
Proof.
  intros H Hn HQ. eapply wp_run; [by eapply next_n_at|]. apply HQ. subst.
  by apply suffix_at_app.
Qed.

Lemma wp_remaining_at p l c (Q : Z -> dst -> Prop) R :
  suffix_at inp p l -> size_ok (blen inp) -> Q (blen l) (mkdst p c) ->
  wp (remaining inp) Q R (mkdst p c).
Proof. intros H Hs HQ. eapply wp_run; [by eapply remaining_at|done]. Qed.

Lemma wp_more_at p b l c (Q : unit -> dst -> Prop) R :
  suffix_at inp p (b :: l) -> Q tt (mkdst p c) -> wp (more inp) Q R (mkdst p c).
Proof. intros H HQ. eapply wp_run; [by eapply more_at|done]. Qed.

Lemma wp_rd_at p b l c (Q : Z -> dst -> Prop) R :
  suffix_at inp p (b :: l) -> Q b (mkdst p c) -> wp (lift (rd inp p)) Q R (mkdst p c).
Proof.
  intros (pre & -> & <-) HQ. apply wp_lift. by rewrite rd_app_0.
Qed.

Lemma wp_tail_at p l c (Q : bytes -> dst -> Prop) R :
  suffix_at inp p l -> Q l (mkdst p c) -> wp (lift (tail_from inp p)) Q R (mkdst p c).
Proof. intros (pre & -> & <-) HQ. apply wp_lift. by rewrite tail_from_app. Qed.

Lemma wp_advance_at p a l c n (Q : unit -> dst -> Prop) R :
  suffix_at inp p (a ++ l) -> n = blen a ->
  (suffix_at inp (p + n) l -> Q tt (mkdst (p + n) c)) ->
  wp (advance n) Q R (mkdst p c).
Proof. intros H -> HQ. apply wp_advance, HQ. by apply suffix_at_app. Qed.
End DecodingAt.

Lemma wp_guard_true {S} b (Q : unit -> S -> Prop) R s : b = true -> Q tt s -> wp (guard b) Q R s.
Proof. by intros ->. Qed.

Lemma wp_if_true {S A} (b : bool) (m1 m2 : M S A) Q R s :
  b = true -> wp m1 Q R s -> wp (if b then m1 else m2) Q R s.
Proof. by intros ->. Qed.

Lemma wp_if_false {S A} (b : bool) (m1 m2 : M S A) Q R s :
  b = false -> wp m2 Q R s -> wp (if b then m1 else m2) Q R s.
Proof. by intros ->. Qed.

(** One step of a decoder over octets that a hypothesis [suffix_at] gives;
    guards are left to the caller. *)
Ltac at_step :=
  cbn [d_pos d_ctx app];
  lazymatch goal with
  | H : suffix_at ?i ?p _ |- wp (next ?i) _ _ (mkdst ?p _) =>
      eapply (wp_next_at _ _ _ _ _ _ _ H); clear H; intros H
  | H : suffix_at ?i ?p _ |- wp (next16 ?i) _ _ (mkdst ?p _) =>
      eapply (wp_next16_at _ _ _ _ _ _ _ H); [|clear H; intros H]
  | H : suffix_at ?i ?p _ |- wp (next32 ?i) _ _ (mkdst ?p _) =>
      eapply (wp_next32_at _ _ _ _ _ _ _ H); [|clear H; intros H]
  | H : suffix_at ?i ?p _ |- wp (next_n ?i _) _ _ (mkdst ?p _) =>
      eapply (wp_next_n_at _ _ _ _ _ _ _ _ H); [|clear H; intros H]
  | H : suffix_at ?i ?p _ |- wp (remaining ?i) _ _ (mkdst ?p _) =>
      eapply (wp_remaining_at _ _ _ _ _ _ H); [assumption|]
  | H : suffix_at ?i ?p _ |- wp (more ?i) _ _ (mkdst ?p _) =>
      eapply (wp_more_at _ _ _ _ _ _ _ H)
  | H : suffix_at ?i ?p _ |- wp (lift (rd ?i ?p)) _ _ (mkdst ?p _) =>
      eapply (wp_rd_at _ _ _ _ _ _ _ H)
  | H : suffix_at ?i ?p _ |- wp (lift (tail_from ?i ?p)) _ _ (mkdst ?p _) =>
      eapply (wp_tail_at _ _ _ _ _ _ H)
  | |- wp (upd _) _ _ _ => apply wp_upd
  | |- wp (upd_rtp _) _ _ _ => unfold upd_rtp; apply wp_upd
  | |- wp (advance _) _ _ _ => fail
  | |- wp (guard _) _ _ _ => fail
  | |- wp (if _ then _ else _) _ _ _ => fail
  | _ => wp_step
  end.

(** The length tests of a decoder over octets that are known to be there. *)
Ltac at_side :=
  repeat match goal with
  | H : Z.land ?c ?m = _ |- context [Z.land ?c ?m] => rewrite H
  | |- context [?x <? Zpos ?n] => rewrite (proj2 (Z.ltb_ge x (Zpos n))) by blen_lia
  end; cbn [fst snd]; rewrite ?Z.eqb_refl; reflexivity.

(** Run a decoder as far as its tests can be decided. *)
Ltac at_go :=
  repeat first
    [ progress cbv zeta
    | lazymatch goal with
      | |- wp (guard _) _ _ _ => apply wp_guard_true; [solve [at_side]|]
      | |- wp (if _ then _ else _) _ _ _ =>
          first [ apply wp_if_true; [reflexivity|] | apply wp_if_false; [reflexivity|] ]
      | _ => at_step
      end ];
  try assumption.

(** The same when the value is a position too. *)
Ltac at_done_pos HQ :=
  match goal with
  | H : suffix_at _ ?p' _ |- ?Q (?v', ?x) (mkdst ?p' _) =>
      match type of HQ with
      | suffix_at _ ?p _ -> ?Q (?v, ?x) _ =>
          let E := fresh in let E' := fresh in
          assert (E : p' = p) by blen_lia; assert (E' : v' = v) by blen_lia;
          rewrite E in H |- *; rewrite E'; exact (HQ H)
      end
  end.

(** Conclude from a continuation stated at another form of the position. *)
Ltac at_done HQ :=
  match goal with
  | H : suffix_at _ ?p' _ |- _ =>
      match type of HQ with
      | suffix_at _ ?p _ -> _ =>
          let E := fresh in
          assert (E : p' = p) by blen_lia; rewrite E in *; exact (HQ H)
      end
  end.

(** ** Emitters that append known octets *)

(** Given room for [n] octets, [m] appends [l], or refuses. *)
Definition emits (m : M wst unit) (n : Z) (o : option bytes) : Prop :=
  forall s, n <= room s ->
  match o with
  | Some l => blen l <= n /\ m s = (Ok tt, {| w_out := w_out s ++ l; w_cap := w_cap s |})
  | None => exists s', m s = (Rej, s')
  end.

(** Concatenation of what two emitters append. *)
Definition ocat (o1 o2 : option bytes) : option bytes :=
  match o1, o2 with Some l1, Some l2 => Some (l1 ++ l2) | _, _ => None end.

Lemma emits_puts l : emits (puts l) (blen l) (Some l).
Proof. intros s H. split; [lia|]. by apply puts_ok. Qed.

Lemma emits_put b : emits (put b) 1 (Some [b]).
Proof. apply (emits_puts [b]). Qed.

Lemma emits_ret : emits (ret tt) 0 (Some []).
Proof. intros [o cap] H. split; [done|]. unfold ret. cbn. by rewrite app_nil_r. Qed.

Lemma emits_seq m1 m2 n1 n2 o1 o2 :
  emits m1 n1 o1 -> emits m2 n2 o2 -> 0 <= n2 -> emits (m1 ;;; m2) (n1 + n2) (ocat o1 o2).
Proof.
  intros H1 H2 Hn s Hr. specialize (H1 s ltac:(lia)). destruct o1 as [l1|]; cbn [ocat].
  - destruct H1 as [Hl H1]. unfold bind. rewrite H1.
    specialize (H2 {| w_out := w_out s ++ l1; w_cap := w_cap s |} ltac:(blen_lia)).
    destruct o2 as [l2|]; [|done]. destruct H2 as [Hl2 ->]. cbn [w_out w_cap].
    rewrite app_assoc. split; [blen_lia|done].
  - destruct H1 as [s' H1]. exists s'. unfold bind. by rewrite H1.
Qed.

Lemma emits_guard b m n o : emits m n o -> emits (guard b ;;; m) n (if b then o else None).
Proof.
  intros H s Hr. destruct b.
  - specialize (H s Hr). destruct o; by erewrite bind_ok by done.
  - by exists s.
Qed.

(** A guard that also looks at the room, which is enough for [n] octets. *)
Lemma emits_room (f : Z -> bool) b m n o :
  (forall r, n <= r -> f r = b) -> emits m n o ->
  emits (r <- gets room ;; guard (f r) ;;; m) n (if b then o else None).
Proof.
  intros Hf H s Hr. pose proof (emits_guard b m n o H s Hr) as G.
  assert (E : (r <- gets room ;; guard (f r) ;;; m) s = (guard b ;;; m) s).
  { erewrite bind_ok by done. by rewrite Hf by done. }
  by rewrite E.
Qed.

Lemma emits_if (b : bool) m1 m2 n o1 o2 :
  emits m1 n o1 -> emits m2 n o2 ->
  emits (if b then m1 else m2) n (if b then o1 else o2).
Proof. by destruct b. Qed.

Lemma emits_weaken m n n' o : n <= n' -> emits m n o -> emits m n' o.
Proof.
  intros Hn H s Hr. specialize (H s ltac:(lia)). destruct o; [|done].
  destruct H. split; [lia|done].
Qed.

Lemma emits_eq m n o o' : emits m n o -> o = o' -> emits m n o'.
Proof. by intros ? <-. Qed.

Lemma emits_seq_if (b : bool) m1 m2 n1 n2 l1 o2 :
  emits m1 n1 (if b then Some l1 else None) -> (b = true -> emits m2 n2 o2) -> 0 <= n2 ->
  emits (m1 ;;; m2) (n1 + n2) (if b then ocat (Some l1) o2 else None).
Proof.
  intros H1 H2 Hn. destruct b; [by apply emits_seq; auto|].
  intros s Hr. destruct (H1 s ltac:(lia)) as [s' E]. exists s'. unfold bind. by rewrite E.
Qed.

(** A bound on the octets, and the octets, of a sequence of [put]s. *)
Ltac emit_puts :=
  repeat match goal with
  | |- emits (bind (puts _) _) _ _ => eapply emits_seq; [apply emits_puts| |]
  | |- emits (bind (put _) _) _ _ => eapply emits_seq; [apply emits_put| |]
  | |- emits (bind (ret _) _) _ _ => eapply emits_seq; [apply emits_ret| |]
  | |- emits (puts _) _ _ => apply emits_puts
  | |- emits (put _) _ _ => apply emits_put
  | |- emits (ret _) _ _ => apply emits_ret
  | |- 0 <= blen _ => apply blen_nonneg
  | |- 0 <= _ + _ => apply Z.add_nonneg_nonneg
  | |- 0 <= Zpos _ => lia
  | |- 0 <= 0 => lia
  end.

(** The emitted octets are found by [tac], then compared with those stated. *)
Ltac emit_as tac :=
  eapply emits_weaken; [|eapply emits_eq; [tac|]]; cbn [ocat];
  rewrite <- ?app_assoc; cbn [app]; try reflexivity; autorewrite with blen.

(** Running an emitter before the rest. *)
Lemma emits_then {B} m n l (k : unit -> M wst B) s :
  emits m n (Some l) -> n <= room s ->
  bind m k s = k tt {| w_out := w_out s ++ l; w_cap := w_cap s |}.
Proof. intros H Hr. apply bind_ok. by destruct (H s Hr). Qed.

Lemma emits_refuse {B} m n (k : unit -> M wst B) s :
  emits m n None -> n <= room s -> fst (bind m k s) = Rej.
Proof. intros H Hr. destruct (H s Hr) as [s' E]. unfold bind. by rewrite E. Qed.

(** What an emitter leaves in a buffer it starts. *)
Lemma emits_run m n l cap :
  emits m n (Some l) -> n <= cap ->
  m {| w_out := []; w_cap := cap |} = (Ok tt, {| w_out := l; w_cap := cap |}).
Proof. intros H Hc. by destruct (H {| w_out := []; w_cap := cap |} ltac:(blen_lia)). Qed.

(** [memcpy] into a fixed array from a source that fits. *)
Lemma overwrite_fits dst src :
  (length src <= length dst)%nat ->
  overwrite dst src = Ok (src ++ drop (length src) dst).
Proof. intros. unfold overwrite. by destruct (Nat.ltb_spec (length dst) (length src)); [lia|]. Qed.

Lemma overwrite_exact dst src : length src = length dst -> overwrite dst src = Ok src.
Proof. intros H. rewrite overwrite_fits by lia. by rewrite H, drop_all, app_nil_r. Qed.

(** One step of symbolic execution of a decoder. *)
Ltac dec_step :=
  cbn [d_pos d_ctx];
  lazymatch goal with
  | |- wp (next _) _ _ _ => apply wp_next; [|intros]
  | |- wp (next16 _) _ _ _ => apply wp_next16; [| |intros]
  | |- wp (next32 _) _ _ _ => apply wp_next32; [| |intros]
  | |- wp (next_n _ _) _ _ _ => apply wp_next_n; [| | |intros]
  | |- wp (remaining _) _ _ _ => apply wp_remaining
  | |- wp (more _) _ _ _ => apply wp_more; [intros|]
  | |- wp (upd _) _ _ _ => apply wp_upd
  | |- wp (upd_rtp _) _ _ _ => unfold upd_rtp; apply wp_upd
  | |- wp (advance _) _ _ _ => apply wp_advance
  | _ => wp_step
  end.
