(* ===== verification/Chains.v ===== *)
(** * Static and dynamic chains: include/rohccxx/core/rfc5225_chains.hpp

    The writers append to the output cursor [wst]; a bound [end] that the
    source recomputes locally is a [with_end].  The readers run on [dst], the
    read position [pos] and the context they fill in, over the whole input. *)

From S2P Require Import Prelude Crc Cid Encoding Context Cursor.

(** ** Wire constants *)

Definition ipv4_static_chain_terminal : Z := 0x40.
Definition generic_extension_list_empty : Z := empty_list_marker.
Definition ipv4_options_list_marker : Z := 0x40.
Definition ipv6_static_chain_terminal : Z := 0x60.
Definition ipv6_extensions_list_marker : Z := 0x80.
Definition rtp_extras_list_marker : Z := 0x80.
Definition rtp_extra_csrc_present : Z := 0x01.
Definition rtp_extra_extension_present : Z := 0x02.
Definition rtp_extra_padding_present : Z := 0x04.
Definition udp_protocol : Z := 17.

(** ** Writers *)

Definition write_u16 (value : Z) : M wst unit := puts (be16 value).
Definition write_u32 (value : Z) : M wst unit := puts (be32 value).

Definition write_ipv4_static_with_protocol (ctx : Context) (protocol : Z) : M wst unit :=
  put ipv4_static_chain_terminal ;;;
  put protocol ;;;
  write_u32 (ipv4_saddr ctx) ;;;
  write_u32 (ipv4_daddr ctx).

Definition write_ipv4_static (ctx : Context) : M wst unit :=
  write_ipv4_static_with_protocol ctx udp_protocol.

Definition write_ipv6_static (ctx : Context) : M wst unit :=
  put ipv6_static_chain_terminal ;;;
  put (ipv6_next_header ctx) ;;;
  puts (ipv6_saddr ctx) ;;;
  puts (ipv6_daddr ctx).

Definition write_ip_static_with_protocol (ctx : Context) (protocol : Z) : M wst unit :=
  if ip_version ctx =? 6 then write_ipv6_static ctx
  else write_ipv4_static_with_protocol ctx protocol.

Definition write_ip_static (ctx : Context) : M wst unit :=
  if ip_version ctx =? 6 then write_ipv6_static ctx else write_ipv4_static ctx.

Definition write_udp_static (ctx : Context) : M wst unit :=
  write_u16 (udp_sport ctx) ;;; write_u16 (udp_dport ctx).

Definition write_rtp_static (ctx : Context) : M wst unit := write_u32 (ssrc (rtp ctx)).

Definition write_standard_ip_static (ctx : Context) : M wst unit :=
  if ip_version ctx =? 4 then
    r <- gets room ;;
    guard (negb (negb (ipv4_options_len ctx =? 0) || (r <? 10))) ;;;
    write_ipv4_static_with_protocol ctx (ipv4_protocol ctx)
  else
    r <- gets room ;;
    guard (negb (negb (ip_version ctx =? 6) || negb (ipv6_extension_len ctx =? 0) ||
                 negb (ipv6_flow_label ctx =? 0) || (r <? 34))) ;;;
    put 0xC0 ;;;
    put (ipv6_next_header ctx) ;;;
    puts (ipv6_saddr ctx) ;;;
    puts (ipv6_daddr ctx).

Definition write_standard_ip_dynamic (ctx : Context) (endpoint : bool) : M wst unit :=
  if ip_version ctx =? 6 then
    let required := if endpoint then 5 else 2 in
    r <- gets room ;;
    guard (negb (negb (ipv6_extension_len ctx =? 0) || (r <? required))) ;;;
    put (ipv6_traffic_class ctx) ;;;
    put (ipv6_hop_limit ctx) ;;;
    if endpoint then
      put (Z.land (reorder_ratio ctx) 0x03) ;;; write_u16 (msn ctx)
    else ret tt
  else
    guard (negb (negb (ip_version ctx =? 4) || negb (ipv4_options_len ctx =? 0))) ;;;
    let behavior := Z.land (ipv4_id_behavior ctx) 0x03 in
    let id_present := negb (behavior =? 3) in
    let required := 3 + (if id_present then 2 else 0) + (if endpoint then 2 else 0) in
    r <- gets room ;;
    guard (negb (r <? required)) ;;;
    let df := Z.land (Z.shiftr (ipv4_flags ctx) 1) 0x01 in
    put (if endpoint
         then Z.lor (Z.lor (Z.shiftl (Z.land (reorder_ratio ctx) 0x03) 3) (Z.shiftl df 2)) behavior
         else Z.lor (Z.shiftl df 2) behavior) ;;;
    put (ipv4_tos ctx) ;;;
    put (ipv4_ttl ctx) ;;;
    (if id_present then write_u16 (ipv4_id ctx) else ret tt) ;;;
    if endpoint then write_u16 (msn ctx) else ret tt.

Definition write_standard_udp_endpoint_dynamic (ctx : Context) : M wst unit :=
  r <- gets room ;;
  guard (negb (r <? 5)) ;;;
  write_u16 (udp_check ctx) ;;;
  write_u16 (msn ctx) ;;;
  put (Z.land (reorder_ratio ctx) 0x03).

Definition write_standard_esp_static (ctx : Context) : M wst unit :=
  r <- gets room ;;
  guard (negb (r <? 4)) ;;;
  write_u32 (esp_spi ctx).

Definition write_standard_esp_dynamic (ctx : Context) : M wst unit :=
  r <- gets room ;;
  guard (negb (r <? 5)) ;;;
  write_u32 (esp_sequence ctx) ;;;
  put (Z.land (reorder_ratio ctx) 0x03).

Definition write_standard_rtp_dynamic (ctx : Context) : M wst unit :=
  let cc := Z.land (vpxcc (rtp ctx)) 0x0F in
  let padding := negb (Z.land (vpxcc (rtp ctx)) 0x20 =? 0) in
  let extension := negb (Z.land (vpxcc (rtp ctx)) 0x10 =? 0) in
  r <- gets room ;;
  guard (negb (negb (cc =? 0) || padding || extension ||
               negb (csrc_list_len (rtp ctx) =? 0) || negb (extension_len (rtp ctx) =? 0) ||
               negb (padding_len (rtp ctx) =? 0) || (r <? 8))) ;;;
  put (u8 (Z.shiftl (Z.land (reorder_ratio ctx) 0x03) 5)) ;;;
  put (mpt (rtp ctx)) ;;;
  write_u16 (last_seq (rtp ctx)) ;;;
  write_u32 (last_ts (rtp ctx)).

Definition write_ipv4_options_list (ctx : Context) : M wst unit :=
  if ipv4_options_len ctx =? 0 then write_empty_list
  else
    r <- gets room ;;
    guard (negb ((blen (ipv4_options ctx) <? ipv4_options_len ctx) ||
                 (r <? 1 + ipv4_options_len ctx))) ;;;
    put (Z.lor ipv4_options_list_marker (ipv4_options_len ctx)) ;;;
    o <- lift (slice (ipv4_options ctx) 0 (ipv4_options_len ctx)) ;;
    puts o.

Definition write_ipv4_dynamic (ctx : Context) : M wst unit :=
  put (ipv4_tos ctx) ;;;
  put (ipv4_ttl ctx) ;;;
  write_u16 (ipv4_id ctx) ;;;
  put (ipv4_flags ctx) ;;;
  ignore_result (with_end (1 + ipv4_options_len ctx) (write_ipv4_options_list ctx)).

Definition write_ipv6_extensions_list (ctx : Context) : M wst unit :=
  if ipv6_extension_len ctx =? 0 then write_empty_list
  else
    r <- gets room ;;
    guard (negb ((127 <? ipv6_extension_len ctx) ||
                 (blen (ipv6_extensions ctx) <? ipv6_extension_len ctx) ||
                 (r <? 1 + ipv6_extension_len ctx))) ;;;
    put (Z.lor ipv6_extensions_list_marker (ipv6_extension_len ctx)) ;;;
    o <- lift (slice (ipv6_extensions ctx) 0 (ipv6_extension_len ctx)) ;;
    puts o.

Definition write_ipv6_dynamic (ctx : Context) : M wst unit :=
  put (ipv6_traffic_class ctx) ;;;
  put (Z.land (Z.shiftr (ipv6_flow_label ctx) 16) 0x0F) ;;;
  put (Z.land (Z.shiftr (ipv6_flow_label ctx) 8) 0xFF) ;;;
  put (Z.land (ipv6_flow_label ctx) 0xFF) ;;;
  put (ipv6_hop_limit ctx) ;;;
  put (ipv4_protocol ctx) ;;;
  ignore_result (with_end (1 + ipv6_extension_len ctx) (write_ipv6_extensions_list ctx)).

Definition write_ip_dynamic (ctx : Context) : M wst unit :=
  if ip_version ctx =? 6 then write_ipv6_dynamic ctx else write_ipv4_dynamic ctx.

Definition write_udp_dynamic (ctx : Context) : M wst unit := write_u16 (udp_check ctx).

Definition write_udp_lite_dynamic (ctx : Context) : M wst unit :=
  write_u16 (udp_length_or_coverage ctx) ;;; write_u16 (udp_check ctx).

Definition rtp_extension_bytes_valid (ctx : Context) : outcome bool :=
  let r := rtp ctx in
  if extension_len r =? 0 then Ok true
  else if (extension_len r <? 4) || (blen (extension_bytes r) <? extension_len r) ||
          negb (extension_len r mod 4 =? 0) then Ok false
  else
    let! extension_words := rd_u16 (extension_bytes r) 2 in
    Ok (4 + extension_words * 4 =? extension_len r).

(** The length of the extras body, 0 when there are no extras. *)
Definition rtp_extras_body_len (ctx : Context) : outcome Z :=
  let r := rtp ctx in
  let csrc_count := Z.land (vpxcc r) 0x0F in
  let csrc_len := csrc_count * 4 in
  let extension_present := negb (Z.land (vpxcc r) 0x10 =? 0) in
  let padding_present := negb (Z.land (vpxcc r) 0x20 =? 0) in
  check negb (negb (csrc_list_len r =? csrc_len) || (blen (csrc_list r) <? csrc_len)) in
  let! _ :=
    (if extension_present then
       check negb (extension_len r =? 0) in
       let! valid := rtp_extension_bytes_valid ctx in
       oguard valid
     else oguard (extension_len r =? 0)) in
  let! _ :=
    (if padding_present then
       check negb ((padding_len r =? 0) || (blen (padding_bytes r) <? padding_len r)) in
       let! last := rd (padding_bytes r) (padding_len r - 1) in
       oguard (last =? padding_len r)
     else oguard (padding_len r =? 0)) in
  if (csrc_len =? 0) && (extension_len r =? 0) && (padding_len r =? 0) then Ok 0
  else
    let body_len := u32 (5 + csrc_len + extension_len r + padding_len r) in
    check body_len <=? large_cid_max in
    Ok body_len.

Definition write_rtp_extras_list (ctx : Context) : M wst unit :=
  let r := rtp ctx in
  body_len <- lift (rtp_extras_body_len ctx) ;;
  if body_len =? 0 then write_empty_list
  else
    rm <- gets room ;;
    guard (0 <? rm) ;;;
    let csrc_count := Z.land (vpxcc r) 0x0F in
    let flags :=
      Z.lor (Z.lor (if 0 <? csrc_list_len r then rtp_extra_csrc_present else 0)
                   (if 0 <? extension_len r then rtp_extra_extension_present else 0))
            (if 0 <? padding_len r then rtp_extra_padding_present else 0) in
    put rtp_extras_list_marker ;;;
    write_sdvl_14 body_len ;;;
    rm <- gets room ;;
    guard (negb (rm <? body_len)) ;;;
    put flags ;;;
    put csrc_count ;;;
    write_u16 (extension_len r) ;;;
    put (padding_len r) ;;;
    (if 0 <? csrc_list_len r then
       o <- lift (slice (csrc_list r) 0 (csrc_list_len r)) ;; puts o else ret tt) ;;;
    (if 0 <? extension_len r then
       o <- lift (slice (extension_bytes r) 0 (extension_len r)) ;; puts o else ret tt) ;;;
    (if 0 <? padding_len r then
       o <- lift (slice (padding_bytes r) 0 (padding_len r)) ;; puts o else ret tt).

Definition write_rtp_dynamic (ctx : Context) : M wst unit :=
  rm <- gets room ;;
  guard (negb (rm <? 8)) ;;;
  let version := Z.land (Z.shiftr (vpxcc (rtp ctx)) 6) 0x03 in
  let padding := Z.land (Z.shiftr (vpxcc (rtp ctx)) 5) 0x01 in
  let extension := Z.land (Z.shiftr (vpxcc (rtp ctx)) 4) 0x01 in
  let csrc_count := Z.land (vpxcc (rtp ctx)) 0x0F in
  let marker := Z.land (Z.shiftr (mpt (rtp ctx)) 7) 0x01 in
  let payload_type := Z.land (mpt (rtp ctx)) 0x7F in
  put (Z.lor (Z.lor (Z.lor (Z.shiftl version 6) (Z.shiftl padding 5)) (Z.shiftl extension 4))
             csrc_count) ;;;
  put (Z.lor (Z.shiftl marker 7) payload_type) ;;;
  write_u16 (last_seq (rtp ctx)) ;;;
  write_u32 (last_ts (rtp ctx)) ;;;
  write_rtp_extras_list ctx.

(** The overload that computes its own [end]. *)
Definition write_rtp_dynamic_unbounded (ctx : Context) : M wst unit :=
  with_end (8 + 1 + csrc_list_len (rtp ctx) + extension_len (rtp ctx) +
            padding_len (rtp ctx) + 2 + 5) (write_rtp_dynamic ctx).

(** ** Readers *)

Definition read_ipv4_options_list (inp : bytes) : M dst unit :=
  more inp ;;;
  marker <- next inp ;;
  upd (fun c => c <| ipv4_options_len := 0 |> <| ipv4_options := repeat 0 40 |>) ;;;
  if is_empty_list marker then ret tt
  else
    guard (Z.land marker 0xC0 =? ipv4_options_list_marker) ;;;
    let options_len := Z.land marker 0x3F in
    left_ <- remaining inp ;;
    guard (negb ((options_len =? 0) || (40 <? options_len) || (left_ <? options_len))) ;;;
    upd (fun c => c <| ipv4_options_len := options_len |>) ;;;
    o <- next_n inp options_len ;;
    arr <- lift (overwrite (repeat 0 40) o) ;;
    upd (fun c => c <| ipv4_options := arr |>).

Definition read_ipv6_extensions_list (inp : bytes) : M dst unit :=
  more inp ;;;
  marker <- next inp ;;
  upd (fun c => c <| ipv6_extension_len := 0 |> <| ipv6_extensions := repeat 0 128 |>) ;;;
  if is_empty_list marker then ret tt
  else
    guard (Z.land marker 0x80 =? ipv6_extensions_list_marker) ;;;
    let ext_len := Z.land marker 0x7F in
    left_ <- remaining inp ;;
    guard (negb ((ext_len =? 0) || (128 <? ext_len) || (left_ <? ext_len))) ;;;
    upd (fun c => c <| ipv6_extension_len := ext_len |>) ;;;
    o <- next_n inp ext_len ;;
    arr <- lift (overwrite (repeat 0 128) o) ;;
    upd (fun c => c <| ipv6_extensions := arr |>).

Definition read_ip_extension_list (inp : bytes) : M dst unit :=
  v <- gets (fun s => ip_version (d_ctx s)) ;;
  if v =? 6 then read_ipv6_extensions_list inp else read_ipv4_options_list inp.

Definition read_empty_extension_list (inp : bytes) (pos : Z) : outcome Z := read_empty_list inp pos.

Definition read_rtp_extras_list (inp : bytes) : M dst unit :=
  upd_rtp (fun r => r <| csrc_list_len := 0 |> <| csrc_list := repeat 0 60 |>
                      <| extension_len := 0 |> <| extension_bytes := repeat 0 256 |>
                      <| padding_len := 0 |> <| padding_bytes := repeat 0 255 |>) ;;;
  more inp ;;;
  marker <- next inp ;;
  if is_empty_list marker then
    upd_rtp (fun r => r <| vpxcc := Z.land (vpxcc r) 0xC0 |>)
  else
    guard (marker =? rtp_extras_list_marker) ;;;
    pos <- gets d_pos ;;
    rest <- lift (tail_from inp pos) ;;
    sdvl <- lift (read_sdvl_14 rest) ;;
    let '(body_len, consumed) := sdvl in
    left_ <- remaining inp ;;
    guard (negb ((body_len <? 5) || (usub left_ consumed <? body_len))) ;;;
    advance consumed ;;;
    body_end <- gets (fun s => d_pos s + body_len) ;;
    flags <- next inp ;;
    guard (Z.land flags 0xF8 =? 0) ;;;
    csrc_count <- next inp ;;
    extension_len_ <- next16 inp ;;
    padding_len_ <- next inp ;;
    let csrc_len := csrc_count * 4 in
    v <- gets (fun s => vpxcc (rtp (d_ctx s))) ;;
    let has f := negb (Z.land flags f =? 0) in
    guard (negb (negb (csrc_count =? Z.land v 0x0F) || (60 <? csrc_len))) ;;;
    guard (eqb (has rtp_extra_csrc_present) (0 <? csrc_len)) ;;;
    guard (eqb (has rtp_extra_extension_present) (negb (Z.land v 0x10 =? 0))) ;;;
    guard (eqb (has rtp_extra_padding_present) (negb (Z.land v 0x20 =? 0))) ;;;
    guard (eqb (negb (has rtp_extra_extension_present)) (extension_len_ =? 0)) ;;;
    guard (eqb (negb (has rtp_extra_padding_present)) (padding_len_ =? 0)) ;;;
    guard (negb ((256 <? extension_len_) || (255 <? padding_len_))) ;;;
    pos <- gets d_pos ;;
    guard (usub body_end pos =? csrc_len + extension_len_ + padding_len_) ;;;
    upd_rtp (fun r => r <| csrc_list_len := u8 csrc_len |>) ;;;
    (if 0 <? csrc_len then
       o <- next_n inp csrc_len ;;
       arr <- lift (overwrite (repeat 0 60) o) ;;
       upd_rtp (fun r => r <| csrc_list := arr |>)
     else ret tt) ;;;
    upd_rtp (fun r => r <| extension_len := extension_len_ |>) ;;;
    (if 0 <? extension_len_ then
       o <- next_n inp extension_len_ ;;
       arr <- lift (overwrite (repeat 0 256) o) ;;
       upd_rtp (fun r => r <| extension_bytes := arr |>)
     else ret tt) ;;;
    upd_rtp (fun r => r <| padding_len := padding_len_ |>) ;;;
    (if 0 <? padding_len_ then
       o <- next_n inp padding_len_ ;;
       arr <- lift (overwrite (repeat 0 255) o) ;;
       upd_rtp (fun r => r <| padding_bytes := arr |>)
     else ret tt) ;;;
    pos <- gets d_pos ;;
    guard (pos =? body_end) ;;;
    c <- gets d_ctx ;;
    validated_body_len <- lift (rtp_extras_body_len c) ;;
    guard (validated_body_len =? body_len).

(** ** What the standard writers append *)

Definition standard_ip_ok (ctx : Context) : bool :=
  if ip_version ctx =? 4 then ipv4_options_len ctx =? 0
  else (ip_version ctx =? 6) && (ipv6_extension_len ctx =? 0) && (ipv6_flow_label ctx =? 0).

Definition ip_static_octets (ctx : Context) : bytes :=
  if ip_version ctx =? 4
  then [0x40; ipv4_protocol ctx] ++ be32 (ipv4_saddr ctx) ++ be32 (ipv4_daddr ctx)
  else [0xC0; ipv6_next_header ctx] ++ ipv6_saddr ctx ++ ipv6_daddr ctx.

Definition id_behavior (ctx : Context) : Z := Z.land (ipv4_id_behavior ctx) 0x03.
Definition id_present (ctx : Context) : bool := negb (id_behavior ctx =? 3).
Definition ratio (ctx : Context) : Z := Z.land (reorder_ratio ctx) 0x03.
Definition df (ctx : Context) : Z := Z.land (Z.shiftr (ipv4_flags ctx) 1) 0x01.

Definition ip_control (ctx : Context) (endpoint : bool) : Z :=
  if endpoint then Z.lor (Z.lor (Z.shiftl (ratio ctx) 3) (Z.shiftl (df ctx) 2)) (id_behavior ctx)
  else Z.lor (Z.shiftl (df ctx) 2) (id_behavior ctx).

Definition ip_dynamic_octets (ctx : Context) (endpoint : bool) : bytes :=
  if ip_version ctx =? 6
  then [ipv6_traffic_class ctx; ipv6_hop_limit ctx] ++
       (if endpoint then [ratio ctx] ++ be16 (msn ctx) else [])
  else [ip_control ctx endpoint; ipv4_tos ctx; ipv4_ttl ctx] ++
       (if id_present ctx then be16 (ipv4_id ctx) else []) ++
       (if endpoint then be16 (msn ctx) else []).

Definition udp_static_octets (ctx : Context) : bytes :=
  be16 (udp_sport ctx) ++ be16 (udp_dport ctx).
Definition udp_endpoint_octets (ctx : Context) : bytes :=
  be16 (udp_check ctx) ++ be16 (msn ctx) ++ [ratio ctx].
Definition esp_dynamic_octets (ctx : Context) : bytes := be32 (esp_sequence ctx) ++ [ratio ctx].

Definition standard_rtp_ok (ctx : Context) : bool :=
  (Z.land (vpxcc (rtp ctx)) 0x0F =? 0) && (Z.land (vpxcc (rtp ctx)) 0x20 =? 0) &&
  (Z.land (vpxcc (rtp ctx)) 0x10 =? 0) && (csrc_list_len (rtp ctx) =? 0) &&
  (extension_len (rtp ctx) =? 0) && (padding_len (rtp ctx) =? 0).

Definition rtp_dynamic_octets (ctx : Context) : bytes :=
  [Z.shiftl (ratio ctx) 5; mpt (rtp ctx)] ++ be16 (last_seq (rtp ctx)) ++ be32 (last_ts (rtp ctx)).

Lemma ratio_bound ctx : 0 <= ratio ctx < 4.
Proof. unfold ratio. change 3 with (Z.ones 2). rewrite Z.land_ones by lia. apply Z.mod_pos_bound. lia. Qed.

Lemma id_behavior_bound ctx : 0 <= id_behavior ctx < 4.
Proof. unfold id_behavior. change 3 with (Z.ones 2). rewrite Z.land_ones by lia. apply Z.mod_pos_bound. lia. Qed.

Lemma df_bound ctx : 0 <= df ctx < 2.
Proof. unfold df. change (Z.land (Z.shiftr (ipv4_flags ctx) 1) 1) with (Z.land (Z.shiftr (ipv4_flags ctx) 1) (Z.ones 1)). rewrite Z.land_ones by lia. apply Z.mod_pos_bound. lia. Qed.

(** Tests of a room that is known to suffice. *)
Ltac room_test :=
  intros ? ?;
  repeat match goal with
  | |- context [?r <? ?n] => rewrite (proj2 (Z.ltb_ge r n)) by lia
  | |- context [0 <? ?r] => rewrite (proj2 (Z.ltb_lt 0 r)) by lia
  end;
  rewrite ?Z.eqb_refl; repeat match goal with |- context [?x =? ?y] => destruct (x =? y) end; reflexivity.

Lemma emits_standard_ip_static ctx :
  length (ipv6_saddr ctx) = 16%nat -> length (ipv6_daddr ctx) = 16%nat ->
  emits (write_standard_ip_static ctx) 34
    (if standard_ip_ok ctx then Some (ip_static_octets ctx) else None).
Proof.
  intros Hs Hd. unfold write_standard_ip_static, standard_ip_ok, ip_static_octets.
  destruct (ip_version ctx =? 4) eqn:E4.
  - apply (emits_room _ (ipv4_options_len ctx =? 0)); [room_test|].
    unfold write_ipv4_static_with_protocol, write_u32. emit_as ltac:(emit_puts). lia.
  - apply (emits_room _ ((ip_version ctx =? 6) && (ipv6_extension_len ctx =? 0) &&
                         (ipv6_flow_label ctx =? 0))); [room_test|].
    emit_as ltac:(emit_puts). unfold blen. rewrite Hs, Hd. lia.
Qed.

Lemma emits_standard_ip_dynamic ctx endpoint :
  standard_ip_ok ctx = true ->
  emits (write_standard_ip_dynamic ctx endpoint) 7 (Some (ip_dynamic_octets ctx endpoint)).
Proof.
  intros Hok. unfold standard_ip_ok in Hok. unfold write_standard_ip_dynamic, ip_dynamic_octets.
  destruct (ip_version ctx =? 6) eqn:E6.
  - assert (Hx : ipv6_extension_len ctx = 0).
    { destruct (ip_version ctx =? 4) eqn:E4; bool_prop; lia. }
    eapply emits_eq; [apply (emits_room _ true)|reflexivity].
    + rewrite Hx. destruct endpoint; room_test.
    + unfold write_u16. destruct endpoint; emit_as ltac:(emit_puts); lia.
  - destruct (ip_version ctx =? 4) eqn:E4; [|done]. rewrite Hok. cbv zeta.
    eapply emits_eq; [apply emits_guard; eapply (emits_room _ true)|reflexivity].
    + intros r Hr. apply negb_true_iff, Z.ltb_ge.
      destruct (negb (Z.land (ipv4_id_behavior ctx) 3 =? 3)), endpoint; lia.
    + unfold id_present, id_behavior, ip_control, write_u16.
      destruct (Z.land (ipv4_id_behavior ctx) 3 =? 3), endpoint; cbn [negb];
        emit_as ltac:(emit_puts); lia.
Qed.

Lemma emits_standard_udp_endpoint_dynamic ctx :
  emits (write_standard_udp_endpoint_dynamic ctx) 5 (Some (udp_endpoint_octets ctx)).
Proof.
  eapply emits_eq; [apply (emits_room _ true); [room_test|]|reflexivity].
  unfold write_u16. emit_as ltac:(emit_puts).
Qed.

Lemma emits_standard_esp_static ctx :
  emits (write_standard_esp_static ctx) 4 (Some (be32 (esp_spi ctx))).
Proof.
  eapply emits_eq; [apply (emits_room _ true); [room_test|]|reflexivity]. apply emits_puts.
Qed.

Lemma emits_standard_esp_dynamic ctx :
  emits (write_standard_esp_dynamic ctx) 5 (Some (esp_dynamic_octets ctx)).
Proof.
  eapply emits_eq; [apply (emits_room _ true); [room_test|]|reflexivity].
  unfold write_u32. emit_as ltac:(emit_puts).
Qed.

Lemma emits_udp_static ctx : emits (write_udp_static ctx) 4 (Some (udp_static_octets ctx)).
Proof. unfold write_udp_static, write_u16. emit_as ltac:(emit_puts). Qed.

Lemma emits_standard_rtp_dynamic ctx :
  emits (write_standard_rtp_dynamic ctx) 8
    (if standard_rtp_ok ctx then Some (rtp_dynamic_octets ctx) else None).
Proof.
  apply emits_room.
  - unfold standard_rtp_ok. room_test.
  - unfold write_u16, write_u32. emit_as ltac:(emit_puts).
    unfold rtp_dynamic_octets. cbn [app]. do 2 f_equal. apply u8_small.
    pose proof (ratio_bound ctx). fold (ratio ctx). unfold byte_ok.
    rewrite Z.shiftl_mul_pow2 by lia. lia.
Qed.
