(* ===== verification/EmitIr.v ===== *)
(** * IR packets, compressor side: include/rohccxx/core/emit_ir.hpp,
    emit_ir_dyn.hpp, emit_uncompressed.hpp

    An emitter is an operation on the output cursor; [out_len] on success is
    the number of octets written.  [emit_ir_atomically] runs one into a 2048
    octet scratch buffer and copies the result out when it fits. *)

From S2P Require Import Prelude Crc Cid Encoding Context Cursor Chains.

Definition emit_add_cid_if_needed (ctx : Context) : M wst unit :=
  guard (negb (negb (large_cid ctx) && negb (is_small (cid ctx)))) ;;;
  if negb (large_cid ctx) && (0 <? cid ctx) then
    r <- gets room ;;
    guard (0 <? r) ;;;
    put (Z.lor 0xE0 (Z.land (cid ctx) 0x0F))
  else ret tt.

(** Up to the profile octet. *)
Definition emit_ir_type (ctx : Context) (profile_octet : Z) : M wst unit :=
  emit_add_cid_if_needed ctx ;;;
  r <- gets room ;;
  guard (0 <? r) ;;;
  put 0xFD ;;;
  (if large_cid ctx then write_large (cid ctx) else ret tt) ;;;
  r <- gets room ;;
  guard (negb (r <? 2)) ;;;
  put profile_octet.

(** [crc_pos = p++], the place of the CRC octet, which stays 0 for now. *)
Definition reserve_crc : M wst Z :=
  crc_pos <- gets (fun s => blen (w_out s)) ;; put 0 ;;; ret crc_pos.

Definition emit_ir_prefix (ctx : Context) (profile_octet : Z) : M wst Z :=
  emit_ir_type ctx profile_octet ;;; reserve_crc.

(** [*crc_pos = crc8(out, p - out)]. *)
Definition patch_crc8 (crc_pos : Z) : M wst unit :=
  out <- gets w_out ;; patch crc_pos (crc8 out).

(** The lengths of the static and dynamic parts of a legacy IR packet. *)
Definition legacy_ir_lengths (ctx : Context) (with_rtp : bool)
    (transport_static_len transport_dynamic_len : Z) : outcome (Z * Z) :=
  let! (static_len, dynamic_len) :=
    (if ip_version ctx =? 4 then
       check negb (blen (ipv4_options ctx) <? ipv4_options_len ctx) in
       Ok (10 + transport_static_len, 6 + ipv4_options_len ctx + transport_dynamic_len)
     else if ip_version ctx =? 6 then
       check negb ((127 <? ipv6_extension_len ctx) ||
                   (blen (ipv6_extensions ctx) <? ipv6_extension_len ctx)) in
       Ok (34 + transport_static_len, 7 + ipv6_extension_len ctx + transport_dynamic_len)
     else Rej) in
  if with_rtp then
    let! body_len := rtp_extras_body_len ctx in
    let extras_len := if body_len =? 0 then 1 else 1 + encoded_len body_len + body_len in
    Ok (static_len, dynamic_len + (8 + extras_len))
  else Ok (static_len, dynamic_len).

Definition legacy_ir_capacity_ok (out_len : Z) (ctx : Context) (dynamic_only with_rtp : bool)
    (transport_static_len transport_dynamic_len : Z) (trailing_mode : bool) : outcome bool :=
  if (large_cid ctx && (large_cid_max <? cid ctx)) ||
     (negb (large_cid ctx) && negb (is_small (cid ctx))) then Ok false
  else
    match legacy_ir_lengths ctx with_rtp transport_static_len transport_dynamic_len with
    | Rej => Ok false
    | Ub => Ub
    | Ok (static_len, dynamic_len) =>
        let cid_len := if large_cid ctx then encoded_len (cid ctx)
                       else if negb (large_cid ctx) && (0 <? cid ctx) then 1 else 0 in
        let required := cid_len + 3 + (if dynamic_only then 0 else static_len) +
                        dynamic_len + (if trailing_mode then 1 else 0) in
        Ok (required <=? out_len)
    end.

Definition emit_ir_esp_into (ctx : Context) : M wst unit :=
  crc_pos <- emit_ir_prefix ctx 0x03 ;;
  write_standard_ip_static ctx ;;;
  write_standard_esp_static ctx ;;;
  write_standard_ip_dynamic ctx false ;;;
  write_standard_esp_dynamic ctx ;;;
  patch_crc8 crc_pos.

Definition emit_ir_ip_into (ctx : Context) : M wst unit :=
  crc_pos <- emit_ir_prefix ctx 0x04 ;;
  write_standard_ip_static ctx ;;;
  write_standard_ip_dynamic ctx true ;;;
  patch_crc8 crc_pos.

(** The packet type, the large CID, the profile and the CRC octet of the
    legacy emitters, whose room [legacy_ir_capacity_ok] has checked. *)
Definition emit_legacy_prefix (ctx : Context) (type profile_octet : Z) : M wst Z :=
  (emit_add_cid_if_needed ctx ;;;
   put type ;;;
   (if large_cid ctx then write_large (cid ctx) else ret tt) ;;;
   put profile_octet) ;;;
  reserve_crc.

Definition legacy_capacity (ctx : Context) (dynamic_only with_rtp : bool)
    (static_len dynamic_len : Z) (trailing_mode : bool) : M wst unit :=
  cap <- gets w_cap ;;
  ok <- lift (legacy_ir_capacity_ok cap ctx dynamic_only with_rtp static_len dynamic_len
                trailing_mode) ;;
  guard ok.

Definition put_mode (ctx : Context) : M wst unit :=
  put (Z.shiftl (Z.land (mode_val (mode ctx)) 0x03) 2).

Definition emit_ir_udp_lite_into (ctx : Context) : M wst unit :=
  legacy_capacity ctx false false 4 4 true ;;;
  crc_pos <- emit_legacy_prefix ctx 0xFD 0x08 ;;
  write_ip_static_with_protocol ctx (ipv4_protocol ctx) ;;;
  write_udp_static ctx ;;;
  write_ip_dynamic ctx ;;;
  write_udp_lite_dynamic ctx ;;;
  patch_crc8 crc_pos ;;;
  put_mode ctx.

Definition emit_ir_udp_into (ctx : Context) : M wst unit :=
  crc_pos <- emit_ir_prefix ctx 0x02 ;;
  write_standard_ip_static ctx ;;;
  r <- gets room ;;
  guard (negb (r <? 4)) ;;;
  write_udp_static ctx ;;;
  write_standard_ip_dynamic ctx false ;;;
  write_standard_udp_endpoint_dynamic ctx ;;;
  patch_crc8 crc_pos.

Definition emit_ir_rtp_udp_lite_into (ctx : Context) : M wst unit :=
  legacy_capacity ctx false true 8 4 true ;;;
  crc_pos <- emit_legacy_prefix ctx 0xFD 0x07 ;;
  write_ip_static_with_protocol ctx (ipv4_protocol ctx) ;;;
  write_udp_static ctx ;;;
  write_rtp_static ctx ;;;
  write_ip_dynamic ctx ;;;
  write_udp_lite_dynamic ctx ;;;
  write_rtp_dynamic ctx ;;;
  patch_crc8 crc_pos ;;;
  put_mode ctx.

Definition emit_ir_rtp_into (ctx : Context) : M wst unit :=
  crc_pos <- emit_ir_prefix ctx 0x01 ;;
  write_standard_ip_static ctx ;;;
  r <- gets room ;;
  guard (negb (r <? 8)) ;;;
  write_udp_static ctx ;;;
  write_rtp_static ctx ;;;
  write_standard_ip_dynamic ctx false ;;;
  write_udp_dynamic ctx ;;;
  write_standard_rtp_dynamic ctx ;;;
  patch_crc8 crc_pos.

Definition scratch_len : Z := 2048.

Definition emit_ir_atomically (out_len : Z) (ctx : Context) (emitter : Context -> M wst unit)
    : outcome bytes :=
  match emitter ctx {| w_out := []; w_cap := scratch_len |} with
  | (Ok _, s) => check negb (out_len <? blen (w_out s)) in Ok (w_out s)
  | (Rej, _) => Rej
  | (Ub, _) => Ub
  end.

Definition emit_ir_esp (out_len : Z) (ctx : Context) := emit_ir_atomically out_len ctx emit_ir_esp_into.
Definition emit_ir_ip (out_len : Z) (ctx : Context) := emit_ir_atomically out_len ctx emit_ir_ip_into.
Definition emit_ir_udp_lite (out_len : Z) (ctx : Context) :=
  emit_ir_atomically out_len ctx emit_ir_udp_lite_into.
Definition emit_ir_udp (out_len : Z) (ctx : Context) := emit_ir_atomically out_len ctx emit_ir_udp_into.
Definition emit_ir_rtp_udp_lite (out_len : Z) (ctx : Context) :=
  emit_ir_atomically out_len ctx emit_ir_rtp_udp_lite_into.
Definition emit_ir_rtp (out_len : Z) (ctx : Context) := emit_ir_atomically out_len ctx emit_ir_rtp_into.

(** ** IR-DYN: the profiles with a standard IR send that again *)

Definition emit_ir_dyn_esp (out_len : Z) (ctx : Context) : outcome bytes := emit_ir_esp out_len ctx.
Definition emit_ir_dyn_ip (out_len : Z) (ctx : Context) : outcome bytes := emit_ir_ip out_len ctx.
Definition emit_ir_dyn_udp (out_len : Z) (ctx : Context) : outcome bytes := emit_ir_udp out_len ctx.
Definition emit_ir_dyn_rtp (out_len : Z) (ctx : Context) : outcome bytes := emit_ir_rtp out_len ctx.

Definition emit_ir_dyn_udp_lite_into (ctx : Context) : M wst unit :=
  legacy_capacity ctx true false 0 4 false ;;;
  crc_pos <- emit_legacy_prefix ctx 0xF8 0x08 ;;
  write_ip_dynamic ctx ;;;
  write_udp_lite_dynamic ctx ;;;
  patch_crc8 crc_pos.

Definition emit_ir_dyn_rtp_udp_lite_into (ctx : Context) : M wst unit :=
  legacy_capacity ctx true true 0 4 false ;;;
  crc_pos <- emit_legacy_prefix ctx 0xF8 0x07 ;;
  write_ip_dynamic ctx ;;;
  write_udp_lite_dynamic ctx ;;;
  write_rtp_dynamic ctx ;;;
  patch_crc8 crc_pos.

Definition emit_ir_dyn_udp_lite (out_len : Z) (ctx : Context) :=
  emit_ir_atomically out_len ctx emit_ir_dyn_udp_lite_into.
Definition emit_ir_dyn_rtp_udp_lite (out_len : Z) (ctx : Context) :=
  emit_ir_atomically out_len ctx emit_ir_dyn_rtp_udp_lite_into.

(** ** The Uncompressed profile: an IR header before the packet itself *)

Definition emit_uncompressed_ir (out_len : Z) (ctx : Context) (inp : bytes) : outcome bytes :=
  let cid_len := if large_cid ctx then encoded_len (cid ctx) else if 0 <? cid ctx then 1 else 0 in
  let header_len := cid_len + 3 in
  check negb ((large_cid ctx && (large_cid_max <? cid ctx)) ||
              (negb (large_cid ctx) && negb (is_small (cid ctx))) ||
              (out_len <? header_len) || (out_len - header_len <? blen inp)) in
  let body :=
    (if negb (large_cid ctx) && (0 <? cid ctx) then put (u8 (Z.lor 0xE0 (cid ctx))) else ret tt) ;;;
    put 0xFD ;;;
    (if large_cid ctx then write_large (cid ctx) else ret tt) ;;;
    put 0x00 ;;;
    crc <- gets (fun s => blen (w_out s)) ;;
    put 0 ;;;
    patch_crc8 crc ;;;
    puts inp in
  match body {| w_out := []; w_cap := out_len |} with
  | (Ok _, s) => Ok (w_out s)
  | (Rej, _) => Rej
  | (Ub, _) => Ub
  end.

(** ** The octets of a standard IR packet *)

Definition add_cid_octets (ctx : Context) : bytes :=
  if negb (large_cid ctx) && (0 <? cid ctx) then [Z.lor 0xE0 (Z.land (cid ctx) 0x0F)] else [].
Definition large_cid_octets (ctx : Context) : bytes :=
  if large_cid ctx then large_octets (cid ctx) else [].

Definition ir_head (ctx : Context) (type profile_octet crc : Z) : bytes :=
  add_cid_octets ctx ++ [type] ++ large_cid_octets ctx ++ [profile_octet; crc].

(** The header with its CRC octet, computed while that octet is 0, and the chains. *)
Definition ir_packet (ctx : Context) (type profile_octet : Z) (chains : bytes) : bytes :=
  ir_head ctx type profile_octet (crc8 (ir_head ctx type profile_octet 0 ++ chains)) ++ chains.

Definition esp_chains (ctx : Context) : bytes :=
  ip_static_octets ctx ++ be32 (esp_spi ctx) ++ ip_dynamic_octets ctx false ++ esp_dynamic_octets ctx.
Definition ip_chains (ctx : Context) : bytes := ip_static_octets ctx ++ ip_dynamic_octets ctx true.
Definition udp_chains (ctx : Context) : bytes :=
  ip_static_octets ctx ++ udp_static_octets ctx ++ ip_dynamic_octets ctx false ++
  udp_endpoint_octets ctx.
Definition rtp_chains (ctx : Context) : bytes :=
  ip_static_octets ctx ++ udp_static_octets ctx ++ be32 (ssrc (rtp ctx)) ++
  ip_dynamic_octets ctx false ++ be16 (udp_check ctx) ++ rtp_dynamic_octets ctx.

Definition cid_ok (ctx : Context) : bool := is_valid_for_space (cid ctx) (large_cid ctx).

Lemma ir_head_len ctx type p crc : 3 <= blen (ir_head ctx type p crc) <= 5.
Proof.
  unfold ir_head, add_cid_octets, large_cid_octets. pose proof (encoded_len_bound (cid ctx)).
  destruct (large_cid ctx); cbn [negb andb]; [|destruct (0 <? cid ctx)]; autorewrite with blen;
    rewrite ?large_octets_len; lia.
Qed.

Lemma emits_add_cid ctx :
  emits (emit_add_cid_if_needed ctx) 1
    (if negb (large_cid ctx) && negb (is_small (cid ctx)) then None else Some (add_cid_octets ctx)).
Proof.
  eapply emits_eq.
  - apply emits_guard. apply (emits_if _ _ _ 1 (Some [Z.lor 0xE0 (Z.land (cid ctx) 0x0F)]) (Some [])).
    + eapply emits_eq; [apply (emits_room _ true); [room_test|]|reflexivity]. apply emits_put.
    + eapply emits_weaken; [|apply emits_ret]. lia.
  - unfold add_cid_octets. by destruct (large_cid ctx), (is_small (cid ctx)), (0 <? cid ctx).
Qed.

Lemma emits_write_large v :
  0 <= v -> emits (write_large v) 2 (if v <=? large_cid_max then Some (large_octets v) else None).
Proof.
  intros Hv s Hr. pose proof (encoded_len_bound v). destruct (Z.leb_spec v large_cid_max).
  - split; [rewrite large_octets_len; lia|]. apply write_large_ok; lia.
  - exists s. apply write_large_no_room; lia.
Qed.

Lemma emits_large_cid ctx :
  0 <= cid ctx ->
  emits (if large_cid ctx then write_large (cid ctx) else ret tt) 2
    (if large_cid ctx && (large_cid_max <? cid ctx) then None else Some (large_cid_octets ctx)).
Proof.
  intros Hc. unfold large_cid_octets. destruct (large_cid ctx); cbn [andb].
  - eapply emits_eq; [by apply emits_write_large|]. rewrite Z.ltb_antisym.
    by destruct (cid ctx <=? large_cid_max).
  - eapply emits_weaken; [|apply emits_ret]. lia.
Qed.

(** The octets before the CRC. *)
Definition ir_type_octets (ctx : Context) (type profile_octet : Z) : bytes :=
  add_cid_octets ctx ++ [type] ++ large_cid_octets ctx ++ [profile_octet].

Lemma ir_head_type ctx type p crc : ir_head ctx type p crc = ir_type_octets ctx type p ++ [crc].
Proof. unfold ir_head, ir_type_octets. by rewrite <- !app_assoc. Qed.

Lemma emits_ir_type ctx p :
  0 <= cid ctx ->
  emits (emit_ir_type ctx p) 7 (if cid_ok ctx then Some (ir_type_octets ctx 0xFD p) else None).
Proof.
  intros Hc. eapply emits_weaken; [|eapply emits_eq].
  2: { unfold emit_ir_type. eapply emits_seq; [apply emits_add_cid| |].
       - apply (emits_room _ true _ (1 + (2 + 2))); [room_test|].
         eapply emits_seq; [apply emits_put| |].
         + eapply emits_seq; [by apply emits_large_cid| |].
           * apply (emits_room _ true _ 2); [room_test|].
             eapply emits_weaken; [|apply emits_put]. lia.
           * lia.
         + lia.
       - lia. }
  - lia.
  - unfold cid_ok, is_valid_for_space, ir_type_octets. rewrite Z.ltb_antisym.
    destruct (large_cid ctx), (is_small (cid ctx)), (cid ctx <=? large_cid_max); reflexivity.
Qed.

Lemma patch_here l b v rest cap :
  patch (blen l) v {| w_out := l ++ b :: rest; w_cap := cap |} =
  (Ok tt, {| w_out := l ++ v :: rest; w_cap := cap |}).
Proof.
  unfold patch. cbn [w_out w_cap]. pose proof (blen_nonneg l). pose proof (blen_nonneg rest).
  rewrite (proj2 (Z.ltb_ge (blen l) 0)) by lia. rewrite (proj2 (Z.leb_gt _ _)) by blen_lia.
  cbn [orb]. do 3 f_equal. unfold blen. rewrite Nat2Z.id.
  rewrite insert_app_r_alt by lia. by rewrite Nat.sub_diag.
Qed.

(** Any emitter of the shape the source's standard emitters have: the prefix,
    the chains, the CRC. *)
Lemma emit_ir_shape ctx p body n o :
  0 <= cid ctx -> emits body n o -> 0 <= n <= 1024 ->
  let run := (crc_pos <- emit_ir_prefix ctx p ;; body ;;; patch_crc8 crc_pos)
               {| w_out := []; w_cap := scratch_len |} in
  match (if cid_ok ctx then o else None) with
  | Some l => run = (Ok tt, {| w_out := ir_packet ctx 0xFD p l; w_cap := scratch_len |})
  | None => fst run = Rej
  end.
Proof.
  intros Hc Hb Hn run. subst run.
  assert (Ht := emits_ir_type ctx p Hc). unfold emit_ir_prefix. rewrite bind_assoc.
  unfold scratch_len. destruct (cid_ok ctx).
  - destruct (Ht {| w_out := []; w_cap := 2048 |} ltac:(blen_lia)) as [Hl Ht'].
    erewrite bind_ok by exact Ht'. cbn [w_out w_cap app].
    remember (ir_type_octets ctx 253 p) as h eqn:Eh. clear Ht Ht'. unfold reserve_crc. rewrite bind_assoc.
    erewrite bind_ok by done. cbn [w_out w_cap]. rewrite bind_assoc.
    erewrite bind_ok by (apply puts_ok; blen_lia). cbn [w_out w_cap].
    erewrite bind_ok by done.
    assert (Hr : n <= room {| w_out := h ++ [0]; w_cap := 2048 |}) by blen_lia.
    destruct o as [l|]; [|by apply (emits_refuse body n)].
    erewrite emits_then by eassumption. cbn [w_out w_cap].
    unfold patch_crc8. erewrite bind_ok by done. cbn [w_out w_cap].
    rewrite <- app_assoc. cbn [app]. rewrite patch_here.
    unfold ir_packet. rewrite !ir_head_type, <- Eh. by rewrite <- !app_assoc.
  - by apply (emits_refuse _ 7); [|blen_lia].
Qed.

Lemma atomically_shape ctx p body n o out_len emitter :
  0 <= cid ctx -> emits body n o -> 0 <= n <= 1024 ->
  (forall s, emitter ctx s = (crc_pos <- emit_ir_prefix ctx p ;; body ;;; patch_crc8 crc_pos) s) ->
  emit_ir_atomically out_len ctx emitter =
  match (if cid_ok ctx then o else None) with
  | Some l => check negb (out_len <? blen (ir_packet ctx 0xFD p l)) in Ok (ir_packet ctx 0xFD p l)
  | None => Rej
  end.
Proof.
  intros Hc Hb Hn He. unfold emit_ir_atomically. rewrite He.
  pose proof (emit_ir_shape ctx p body n o Hc Hb Hn) as H. cbv zeta in H.
  destruct (if cid_ok ctx then o else None) as [l|].
  - by rewrite H.
  - destruct (bind _ _ _) as [[] s]; done.
Qed.

(** ** What each standard emitter produces, and when it refuses *)

Definition addresses_ok (ctx : Context) : Prop :=
  length (ipv6_saddr ctx) = 16%nat /\ length (ipv6_daddr ctx) = 16%nat.

Definition deliver (out_len : Z) (ok : bool) (packet : bytes) : outcome bytes :=
  if ok && (blen packet <=? out_len) then Ok packet else Rej.

(** The emitters of the source nest their steps to the right. *)
Ltac regroup :=
  intros ?; unfold bind;
  repeat match goal with
  | |- context [match ?m ?s with (_, _) => _ end] =>
      destruct (m s) as [[?| |] ?]; cbn beta iota; try reflexivity
  end.

Ltac deliver_cases ok :=
  unfold deliver; destruct (cid_ok _), ok; cbn [andb];
  rewrite ?Z.leb_antisym; try (destruct (_ <? _)); reflexivity.

Lemma emit_ir_esp_spec out_len ctx :
  0 <= cid ctx -> addresses_ok ctx ->
  emit_ir_esp out_len ctx =
  deliver out_len (cid_ok ctx && standard_ip_ok ctx) (ir_packet ctx 0xFD 0x03 (esp_chains ctx)).
Proof.
  intros Hc [Hs Hd]. unfold emit_ir_esp.
  rewrite (atomically_shape ctx 0x03
    (write_standard_ip_static ctx ;;; write_standard_esp_static ctx ;;;
     write_standard_ip_dynamic ctx false ;;; write_standard_esp_dynamic ctx)
    (34 + (4 + (7 + 5))) (if standard_ip_ok ctx then Some (esp_chains ctx) else None));
    [|done| |lia|unfold emit_ir_esp_into; regroup].
  - deliver_cases (standard_ip_ok ctx).
  - eapply emits_eq.
    + eapply emits_seq_if; [by apply emits_standard_ip_static|intros Hok|lia].
      eapply emits_seq; [apply emits_standard_esp_static| |lia].
      eapply emits_seq; [by apply emits_standard_ip_dynamic|apply emits_standard_esp_dynamic|lia].
    + by destruct (standard_ip_ok ctx).
Qed.

Lemma emit_ir_ip_spec out_len ctx :
  0 <= cid ctx -> addresses_ok ctx ->
  emit_ir_ip out_len ctx =
  deliver out_len (cid_ok ctx && standard_ip_ok ctx) (ir_packet ctx 0xFD 0x04 (ip_chains ctx)).
Proof.
  intros Hc [Hs Hd]. unfold emit_ir_ip.
  rewrite (atomically_shape ctx 0x04
    (write_standard_ip_static ctx ;;; write_standard_ip_dynamic ctx true)
    (34 + 7) (if standard_ip_ok ctx then Some (ip_chains ctx) else None));
    [|done| |lia|unfold emit_ir_ip_into; regroup].
  - deliver_cases (standard_ip_ok ctx).
  - eapply emits_eq.
    + eapply emits_seq_if; [by apply emits_standard_ip_static|intros Hok|lia].
      by apply emits_standard_ip_dynamic.
    + by destruct (standard_ip_ok ctx).
Qed.

Lemma emit_ir_udp_spec out_len ctx :
  0 <= cid ctx -> addresses_ok ctx ->
  emit_ir_udp out_len ctx =
  deliver out_len (cid_ok ctx && standard_ip_ok ctx) (ir_packet ctx 0xFD 0x02 (udp_chains ctx)).
Proof.
  intros Hc [Hs Hd]. unfold emit_ir_udp.
  rewrite (atomically_shape ctx 0x02
    (write_standard_ip_static ctx ;;; r <- gets room ;; guard (negb (r <? 4)) ;;;
     write_udp_static ctx ;;; write_standard_ip_dynamic ctx false ;;;
     write_standard_udp_endpoint_dynamic ctx)
    (34 + (4 + (7 + 5))) (if standard_ip_ok ctx then Some (udp_chains ctx) else None));
    [|done| |lia|unfold emit_ir_udp_into; regroup].
  - deliver_cases (standard_ip_ok ctx).
  - eapply emits_eq.
    + eapply emits_seq_if; [by apply emits_standard_ip_static|intros Hok|lia].
      apply (emits_room _ true); [room_test|].
      eapply emits_seq; [apply emits_udp_static| |lia].
      eapply emits_seq; [by apply emits_standard_ip_dynamic|apply emits_standard_udp_endpoint_dynamic|lia].
    + by destruct (standard_ip_ok ctx).
Qed.

Lemma emit_ir_rtp_spec out_len ctx :
  0 <= cid ctx -> addresses_ok ctx ->
  emit_ir_rtp out_len ctx =
  deliver out_len (cid_ok ctx && (standard_ip_ok ctx && standard_rtp_ok ctx))
    (ir_packet ctx 0xFD 0x01 (rtp_chains ctx)).
Proof.
  intros Hc [Hs Hd]. unfold emit_ir_rtp.
  rewrite (atomically_shape ctx 0x01
    (write_standard_ip_static ctx ;;; r <- gets room ;; guard (negb (r <? 8)) ;;;
     write_udp_static ctx ;;; write_rtp_static ctx ;;; write_standard_ip_dynamic ctx false ;;;
     write_udp_dynamic ctx ;;; write_standard_rtp_dynamic ctx)
    (34 + (4 + (4 + (7 + (2 + 8)))))
    (if standard_ip_ok ctx && standard_rtp_ok ctx then Some (rtp_chains ctx) else None));
    [|done| |lia|unfold emit_ir_rtp_into; regroup].
  - deliver_cases (standard_ip_ok ctx && standard_rtp_ok ctx).
  - eapply emits_eq.
    + eapply emits_seq_if; [by apply emits_standard_ip_static|intros Hok|lia].
      apply (emits_room _ true); [room_test|].
      eapply emits_seq; [apply emits_udp_static| |lia].
      eapply emits_seq; [apply (emits_puts (be32 (ssrc (rtp ctx))))| |lia].
      eapply emits_seq; [by apply emits_standard_ip_dynamic| |lia].
      eapply emits_seq; [apply (emits_puts (be16 (udp_check ctx)))|apply emits_standard_rtp_dynamic|lia].
    + by destruct (standard_ip_ok ctx), (standard_rtp_ok ctx).
Qed.
