(* ===== verification/DecodeIr.v ===== *)
(** * IR packets, decompressor side: include/rohccxx/core/decode_ir.hpp

    The standard (RFC 5225) decoder, the legacy decoders kept for the older
    wire format, and [decode_ir_compatible], which tries both on copies of the
    context.  A decoder runs on the position and the context; its value is the
    length of the header it consumed. *)

From S2P Require Import Prelude Crc Cid Encoding Context Cursor Chains.

(** ** Shared pieces of the legacy decoders *)

Definition available (len pos required : Z) : bool := (pos <=? len) && (required <=? usub len pos).

Definition need (inp : bytes) (required : Z) : M dst unit :=
  p <- gets d_pos ;; guard (available (blen inp) p required).

Definition read_large_cid_if_present (inp : bytes) : M dst unit :=
  ctx <- gets d_ctx ;;
  if negb (large_cid ctx) then ret tt
  else
    more inp ;;;
    pos <- gets d_pos ;;
    rest <- lift (tail_from inp pos) ;;
    v <- lift (read_large rest) ;;
    let '(wire_cid, consumed) := v in
    guard (wire_cid =? cid ctx) ;;;
    advance consumed.

(** The mode octet at [pos]: only Optimistic and Reliable are accepted. *)
Definition read_legacy_mode (inp : bytes) : M dst unit :=
  pos <- gets d_pos ;;
  guard (pos <? blen inp) ;;;
  value <- lift (rd inp pos) ;;
  guard (Z.land value 0xF3 =? 0) ;;;
  let wire_mode := Z.land (Z.shiftr value 2) 0x03 in
  guard (negb ((wire_mode <? mode_val Optimistic) || (mode_val Reliable <? wire_mode))) ;;;
  upd (fun c => c <| mode := if wire_mode =? 1 then Optimistic else Reliable |>).

(** The payload and its length. *)
Definition payload_after_header (base : bytes) (header_len : Z) : outcome bytes :=
  check negb (blen base <? header_len) in tail_from base header_len.

Definition ipv4_options_extra_len (inp : bytes) (marker_pos : Z) : outcome Z :=
  check marker_pos <? blen inp in
  let! marker := rd inp marker_pos in
  if is_empty_list marker then Ok 0
  else
    check Z.land marker 0xC0 =? ipv4_options_list_marker in
    let extra_len := Z.land marker 0x3F in
    check (0 <? extra_len) && (extra_len <=? 40) &&
          (extra_len <=? usub (usub (blen inp) marker_pos) 1) in
    Ok extra_len.

Definition crc8_exact_matches (inp : bytes) (crc_len crc_index received_crc : Z) : outcome bool :=
  if (1024 <? crc_len) || (blen inp <? crc_len) || (crc_len <=? crc_index) then Ok false
  else
    let! crc_buf := slice inp 0 crc_len in
    Ok (crc8 (<[Z.to_nat crc_index := 0]> crc_buf) =? received_crc).

Definition check_crc8 (inp : bytes) (crc_index received_crc : Z) : M dst unit :=
  pos <- gets d_pos ;;
  ok <- lift (crc8_exact_matches inp pos crc_index received_crc) ;;
  guard ok.

Definition read_ip_static_chain (inp : bytes) : M dst unit :=
  more inp ;;;
  pos <- gets d_pos ;;
  first <- lift (rd inp pos) ;;
  let version := Z.shiftr first 4 in
  if version =? 4 then
    upd (fun c => c <| ip_version := 4 |>) ;;;
    advance 1 ;;;
    more inp ;;;
    protocol <- next inp ;;
    upd (fun c => c <| ipv4_protocol := protocol |>) ;;;
    left_ <- remaining inp ;;
    guard (negb (left_ <? 8)) ;;;
    saddr <- next32 inp ;;
    upd (fun c => c <| ipv4_saddr := saddr |>) ;;;
    daddr <- next32 inp ;;
    upd (fun c => c <| ipv4_daddr := daddr |>)
  else if version =? 6 then
    upd (fun c => c <| ip_version := 6 |>) ;;;
    advance 1 ;;;
    left_ <- remaining inp ;;
    guard (negb (left_ <? 33)) ;;;
    next_header <- next inp ;;
    upd (fun c => c <| ipv6_next_header := next_header |>) ;;;
    saddr <- next_n inp 16 ;;
    upd (fun c => c <| ipv6_saddr := saddr |>) ;;;
    daddr <- next_n inp 16 ;;
    upd (fun c => c <| ipv6_daddr := daddr |>) ;;;
    upd (fun c => c <| ipv4_protocol := ipv6_next_header c |>)
  else lift Rej.

Definition read_ip_dynamic_chain (inp : bytes) : M dst unit :=
  v <- gets (fun s => ip_version (d_ctx s)) ;;
  left_ <- remaining inp ;;
  if v =? 6 then
    guard (negb (left_ <? 7)) ;;;
    tc <- next inp ;;
    upd (fun c => c <| ipv6_traffic_class := tc |>) ;;;
    f0 <- next inp ;;
    upd (fun c => c <| ipv6_flow_label := Z.shiftl (Z.land f0 0x0F) 16 |>) ;;;
    f1 <- next inp ;;
    upd (fun c => c <| ipv6_flow_label := Z.lor (ipv6_flow_label c) (Z.shiftl f1 8) |>) ;;;
    f2 <- next inp ;;
    upd (fun c => c <| ipv6_flow_label := Z.lor (ipv6_flow_label c) f2 |>) ;;;
    hl <- next inp ;;
    upd (fun c => c <| ipv6_hop_limit := hl |>) ;;;
    pr <- next inp ;;
    upd (fun c => c <| ipv4_protocol := pr |>) ;;;
    read_ipv6_extensions_list inp
  else
    guard (negb (left_ <? 6)) ;;;
    tos <- next inp ;;
    upd (fun c => c <| ipv4_tos := tos |>) ;;;
    ttl <- next inp ;;
    upd (fun c => c <| ipv4_ttl := ttl |>) ;;;
    id <- next16 inp ;;
    upd (fun c => c <| ipv4_id := id |>) ;;;
    fl <- next inp ;;
    upd (fun c => c <| ipv4_flags := fl |>) ;;;
    read_ipv4_options_list inp.

Definition read_legacy_ip_dynamic_consistent (inp : bytes) : M dst unit :=
  static_terminal <- gets (fun s => let c := d_ctx s in
    if ip_version c =? 6 then ipv6_next_header c else ipv4_protocol c) ;;
  read_ip_dynamic_chain inp ;;;
  c <- gets d_ctx ;;
  guard (negb (ip_version c =? 6) || (ipv4_protocol c =? static_terminal)).

Definition ip_dynamic_extra_len (inp : bytes) (dynamic_pos : Z) (ctx : Context) : outcome Z :=
  if ip_version ctx =? 6 then
    let marker_pos := dynamic_pos + 6 in
    check marker_pos <? blen inp in
    let! marker := rd inp marker_pos in
    if is_empty_list marker then Ok 0
    else
      check Z.land marker 0x80 =? ipv6_extensions_list_marker in
      let extra_len := Z.land marker 0x7F in
      check (0 <? extra_len) && (extra_len <=? 127) &&
            (extra_len <=? usub (usub (blen inp) marker_pos) 1) in
      Ok extra_len
  else ipv4_options_extra_len inp (dynamic_pos + 5).

Definition rtp_dynamic_extra_len (inp : bytes) (marker_pos : Z) : outcome Z :=
  check marker_pos <? blen inp in
  let! marker := rd inp marker_pos in
  if is_empty_list marker then Ok 0
  else
    check marker =? rtp_extras_list_marker in
    let! rest := tail_from inp (marker_pos + 1) in
    let! (body_len, consumed) := read_sdvl_14 rest in
    check negb ((body_len <? 5) || (large_cid_max <? body_len) ||
                (usub (usub (usub (blen inp) marker_pos) 1) consumed <? body_len)) in
    Ok (consumed + body_len).

(** ** The legacy decoders *)

(** The header they all start with: an Add-CID octet for a small non-zero CID,
    the packet type, the large CID, the profile and the CRC.  Returns the CRC
    received and its index. *)
Definition read_legacy_prefix (inp : bytes) (header_len_no_cid profile_octet : Z) : M dst (Z * Z) :=
  guard (negb (blen inp <? header_len_no_cid)) ;;;
  ctx <- gets d_ctx ;;
  let has_cid := negb (large_cid ctx) && (0 <? cid ctx) in
  (if has_cid then
     guard (negb (blen inp <? header_len_no_cid + 1)) ;;;
     b <- next inp ;;
     guard (negb (negb (Z.land b 0xF0 =? 0xE0) || negb (Z.land b 0x0F =? Z.land (cid ctx) 0x0F)))
   else ret tt) ;;;
  need inp 1 ;;;
  type <- next inp ;;
  guard (Z.land type 0xFE =? 0xFC) ;;;
  read_large_cid_if_present inp ;;;
  need inp 2 ;;;
  pr <- next inp ;;
  guard (pr =? profile_octet) ;;;
  received_crc <- next inp ;;
  let crc_index := if has_cid then 3
                   else if large_cid ctx then 2 + encoded_len (cid ctx) else 2 in
  ret (received_crc, crc_index).

Definition protocol_is (protocol : Z) : M dst unit :=
  c <- gets d_ctx ;; guard (ipv4_protocol c =? protocol).

Definition read_udp_ports (inp : bytes) : M dst unit :=
  sport <- next16 inp ;;
  upd (fun c => c <| udp_sport := sport |>) ;;;
  dport <- next16 inp ;;
  upd (fun c => c <| udp_dport := dport |>).

Definition decode_ir_esp_legacy (inp : bytes) : M dst Z :=
  h <- read_legacy_prefix inp 20 0x03 ;;
  read_ip_static_chain inp ;;;
  read_legacy_ip_dynamic_consistent inp ;;;
  protocol_is 50 ;;;
  check_crc8 inp (snd h) (fst h) ;;;
  read_legacy_mode inp ;;;
  pos <- gets d_pos ;;
  upd (fun c => c <| profile := ESP |> <| rohc_state := StaticEstablished |>
                  <| legacy_esp_payload_includes_header := true |>) ;;;
  ret (pos + 1).

Definition decode_ir_ip_legacy (inp : bytes) : M dst Z :=
  h <- read_legacy_prefix inp 20 0x04 ;;
  read_ip_static_chain inp ;;;
  read_legacy_ip_dynamic_consistent inp ;;;
  more inp ;;;
  check_crc8 inp (snd h) (fst h) ;;;
  read_legacy_mode inp ;;;
  pos <- gets d_pos ;;
  upd (fun c => c <| profile := IP |> <| rohc_state := StaticEstablished |>) ;;;
  ret (pos + 1).

Definition decode_ir_udp_lite_legacy (inp : bytes) : M dst Z :=
  h <- read_legacy_prefix inp 28 0x08 ;;
  read_ip_static_chain inp ;;;
  need inp 4 ;;;
  read_udp_ports inp ;;;
  read_legacy_ip_dynamic_consistent inp ;;;
  protocol_is 136 ;;;
  need inp 4 ;;;
  coverage <- next16 inp ;;
  upd (fun c => c <| udp_length_or_coverage := coverage |>) ;;;
  chk <- next16 inp ;;
  upd (fun c => c <| udp_check := chk |>) ;;;
  more inp ;;;
  check_crc8 inp (snd h) (fst h) ;;;
  read_legacy_mode inp ;;;
  pos <- gets d_pos ;;
  upd (fun c => c <| profile := UDP_Lite |> <| rohc_state := StaticEstablished |>) ;;;
  ret (pos + 1).

Definition decode_ir_udp_legacy (inp : bytes) : M dst Z :=
  h <- read_legacy_prefix inp 26 0x02 ;;
  read_ip_static_chain inp ;;;
  need inp 4 ;;;
  read_udp_ports inp ;;;
  read_legacy_ip_dynamic_consistent inp ;;;
  protocol_is 17 ;;;
  need inp 2 ;;;
  chk <- next16 inp ;;
  upd (fun c => c <| udp_check := chk |>) ;;;
  more inp ;;;
  check_crc8 inp (snd h) (fst h) ;;;
  read_legacy_mode inp ;;;
  pos <- gets d_pos ;;
  upd (fun c => c <| profile := UDP |> <| rohc_state := StaticEstablished |>) ;;;
  ret (pos + 1).

(** RTP's first two octets, sequence number, timestamp and extras. *)
Definition read_legacy_rtp_dynamic (inp : bytes) : M dst unit :=
  rtp_first <- next inp ;;
  rtp_second <- next inp ;;
  upd_rtp (fun r => r <| vpxcc := Z.lor (Z.land rtp_first 0xF0) (Z.land rtp_first 0x0F) |>
                      <| mpt := rtp_second |>) ;;;
  seq <- next16 inp ;;
  upd_rtp (fun r => r <| last_seq := seq |>) ;;;
  ts <- next32 inp ;;
  upd_rtp (fun r => r <| last_ts := ts |>) ;;;
  read_rtp_extras_list inp.

(** The commit at the end of both RTP decoders. *)
Definition commit_legacy_rtp (p : Profile) : M dst unit :=
  upd (fun c =>
    let r := rtp c in
    c <| ipv4_id_sequential := false |>
      <| rtp := r <| seq_window := LsbWindow.init (last_seq r) |>
                  <| ts_window := LsbWindow.init (last_ts r) |>
                  <| ts_residue := if ts_stride r =? 0 then 0 else last_ts r mod ts_stride r |>
                  <| initialized := 1 |> |>
      <| profile := p |> <| rohc_state := DynamicEstablished |>).

Definition decode_ir_rtp_udp_lite_legacy (inp : bytes) : M dst Z :=
  h <- read_legacy_prefix inp 41 0x07 ;;
  read_ip_static_chain inp ;;;
  need inp 8 ;;;
  read_udp_ports inp ;;;
  ssrc_ <- next32 inp ;;
  upd_rtp (fun r => r <| ssrc := ssrc_ |>) ;;;
  read_legacy_ip_dynamic_consistent inp ;;;
  protocol_is 136 ;;;
  need inp 12 ;;;
  coverage <- next16 inp ;;
  upd (fun c => c <| udp_length_or_coverage := coverage |>) ;;;
  chk <- next16 inp ;;
  upd (fun c => c <| udp_check := chk |>) ;;;
  vp <- next inp ;;
  upd_rtp (fun r => r <| vpxcc := vp |>) ;;;
  mp <- next inp ;;
  upd_rtp (fun r => r <| mpt := mp |>) ;;;
  seq <- next16 inp ;;
  upd_rtp (fun r => r <| last_seq := seq |>) ;;;
  ts <- next32 inp ;;
  upd_rtp (fun r => r <| last_ts := ts |>) ;;;
  read_rtp_extras_list inp ;;;
  more inp ;;;
  check_crc8 inp (snd h) (fst h) ;;;
  read_legacy_mode inp ;;;
  pos <- gets d_pos ;;
  commit_legacy_rtp RTP_UDP_Lite ;;;
  ret (pos + 1).

Definition decode_ir_rtp_legacy (inp : bytes) : M dst Z :=
  h <- read_legacy_prefix inp 4 0x01 ;;
  read_ip_static_chain inp ;;;
  need inp 8 ;;;
  read_udp_ports inp ;;;
  ssrc_ <- next32 inp ;;
  upd_rtp (fun r => r <| ssrc := ssrc_ |>) ;;;
  read_legacy_ip_dynamic_consistent inp ;;;
  protocol_is 17 ;;;
  need inp 12 ;;;
  chk <- next16 inp ;;
  upd (fun c => c <| udp_check := chk |>) ;;;
  read_legacy_rtp_dynamic inp ;;;
  more inp ;;;
  check_crc8 inp (snd h) (fst h) ;;;
  read_legacy_mode inp ;;;
  pos <- gets d_pos ;;
  commit_legacy_rtp RTP ;;;
  ret (pos + 1).

(** ** The standard decoder *)

Definition read_standard_ip_static (inp : bytes) : M dst unit :=
  more inp ;;;
  first <- next inp ;;
  let ipv6 := negb (Z.land first 0x80 =? 0) in
  guard (negb (Z.land first 0x40 =? 0)) ;;;
  left_ <- remaining inp ;;
  if negb ipv6 then
    guard (negb (negb (Z.land first 0x3F =? 0) || (left_ <? 9))) ;;;
    upd (fun c => c <| ip_version := 4 |>) ;;;
    protocol <- next inp ;;
    upd (fun c => c <| ipv4_protocol := protocol |>) ;;;
    saddr <- next32 inp ;;
    upd (fun c => c <| ipv4_saddr := saddr |>) ;;;
    daddr <- next32 inp ;;
    upd (fun c => c <| ipv4_daddr := daddr |> <| ipv4_options_len := 0 |>
                    <| ipv4_options := repeat 0 40 |>)
  else
    guard (negb (negb (first =? 0xC0) || (left_ <? 33))) ;;;
    upd (fun c => c <| ip_version := 6 |> <| ipv6_flow_label := 0 |>) ;;;
    next_header <- next inp ;;
    upd (fun c => c <| ipv6_next_header := next_header |> <| ipv4_protocol := next_header |>) ;;;
    saddr <- next_n inp 16 ;;
    upd (fun c => c <| ipv6_saddr := saddr |>) ;;;
    daddr <- next_n inp 16 ;;
    upd (fun c => c <| ipv6_daddr := daddr |> <| ipv6_extension_len := 0 |>
                    <| ipv6_extensions := repeat 0 128 |>).

Definition read_standard_ip_dynamic (inp : bytes) (endpoint : bool) : M dst unit :=
  v <- gets (fun s => ip_version (d_ctx s)) ;;
  left_ <- remaining inp ;;
  if v =? 6 then
    let required := if endpoint then 5 else 2 in
    guard (negb (left_ <? required)) ;;;
    tc <- next inp ;;
    upd (fun c => c <| ipv6_traffic_class := tc |>) ;;;
    hl <- next inp ;;
    upd (fun c => c <| ipv6_hop_limit := hl |>) ;;;
    if endpoint then
      control <- next inp ;;
      guard (Z.land control 0xFC =? 0) ;;;
      upd (fun c => c <| reorder_ratio := Z.land control 0x03 |>) ;;;
      m <- next16 inp ;;
      upd (fun c => c <| msn := m |>)
    else ret tt
  else
    guard (negb (left_ <? 3)) ;;;
    control <- next inp ;;
    (if endpoint then
       guard (Z.land control 0xE0 =? 0) ;;;
       upd (fun c => c <| reorder_ratio := Z.land (Z.shiftr control 3) 0x03 |>)
     else guard (Z.land control 0xF8 =? 0)) ;;;
    let behavior := Z.land control 0x03 in
    upd (fun c => c <| ipv4_flags := Z.shiftl (Z.land (Z.shiftr control 2) 0x01) 1 |>
                    <| ipv4_id_behavior := behavior |>
                    <| ipv4_id_sequential := behavior <=? 1 |>) ;;;
    tos <- next inp ;;
    upd (fun c => c <| ipv4_tos := tos |>) ;;;
    ttl <- next inp ;;
    upd (fun c => c <| ipv4_ttl := ttl |>) ;;;
    (if negb (behavior =? 3) then
       left_ <- remaining inp ;;
       guard (negb (left_ <? 2)) ;;;
       id <- next16 inp ;;
       upd (fun c => c <| ipv4_id := id |>)
     else upd (fun c => c <| ipv4_id := 0 |>)) ;;;
    if endpoint then
      left_ <- remaining inp ;;
      guard (negb (left_ <? 2)) ;;;
      m <- next16 inp ;;
      upd (fun c => c <| msn := m |>)
    else ret tt.

(** Returns the index of the CRC octet and the CRC received. *)
Definition read_standard_ir_prefix (inp : bytes) (profile_octet : Z) : M dst (Z * Z) :=
  expected <- gets d_ctx ;;
  (if negb (large_cid expected) && (0 <? cid expected) then
     more inp ;;;
     b <- next inp ;;
     guard (b =? u8 (Z.lor 0xE0 (cid expected)))
   else ret tt) ;;;
  more inp ;;;
  type <- next inp ;;
  guard (type =? 0xFD) ;;;
  (if large_cid expected then
     pos <- gets d_pos ;;
     rest <- lift (tail_from inp pos) ;;
     v <- lift (read_large rest) ;;
     guard (fst v =? cid expected) ;;;
     advance (snd v)
   else ret tt) ;;;
  left_ <- remaining inp ;;
  guard (negb (left_ <? 2)) ;;;
  pr <- next inp ;;
  guard (pr =? profile_octet) ;;;
  crc_index <- gets d_pos ;;
  received_crc <- next inp ;;
  ret (crc_index, received_crc).

Definition bytes_eqb (a b : bytes) : bool := bool_decide (a = b).

Definition standard_rtp_equal (a b : RtpContext) : bool :=
  (ssrc a =? ssrc b) && (vpxcc a =? vpxcc b) && (mpt a =? mpt b) &&
  (last_seq a =? last_seq b) && (last_ts a =? last_ts b) &&
  (initialized a =? initialized b) && (ts_stride a =? ts_stride b) &&
  (ts_residue a =? ts_residue b) && (timer_elapsed_ticks a =? timer_elapsed_ticks b) &&
  eqb (timer_based_ts a) (timer_based_ts b) && (csrc_list_len a =? csrc_list_len b) &&
  bytes_eqb (csrc_list a) (csrc_list b) && (extension_len a =? extension_len b) &&
  bytes_eqb (extension_bytes a) (extension_bytes b) && (padding_len a =? padding_len b) &&
  bytes_eqb (padding_bytes a) (padding_bytes b) && (seq_window a =? seq_window b) &&
  (ts_window a =? ts_window b).

(** Every field but the transmission histories. *)
Definition standard_context_equal (a b : Context) : bool :=
  profile_eqb (profile a) (profile b) && mode_eqb (mode a) (mode b) &&
  state_eqb (rohc_state a) (rohc_state b) && (cid a =? cid b) &&
  eqb (large_cid a) (large_cid b) && (tx_count a =? tx_count b) &&
  (nack_count a =? nack_count b) && eqb (static_acked a) (static_acked b) &&
  eqb (dynamic_acked a) (dynamic_acked b) &&
  eqb (profile_has_been_used a) (profile_has_been_used b) &&
  eqb (profile_replacement_active a) (profile_replacement_active b) &&
  eqb (profile_replacement_pending a) (profile_replacement_pending b) &&
  (formal_pt0_since_confirmation a =? formal_pt0_since_confirmation b) &&
  eqb (formal_pt0_crc7_seen a) (formal_pt0_crc7_seen b) &&
  eqb (formal_pt0_crc3_retired a) (formal_pt0_crc3_retired b) &&
  eqb (reject_legacy_udp_pt0_until_refresh a) (reject_legacy_udp_pt0_until_refresh b) &&
  eqb (limit_legacy_udp_pt0_to_sequential a) (limit_legacy_udp_pt0_to_sequential b) &&
  eqb (compact_profile_replacement_seen a) (compact_profile_replacement_seen b) &&
  (context_revision a =? context_revision b) && (msn a =? msn b) &&
  (reorder_ratio a =? reorder_ratio b) && (ip_version a =? ip_version b) &&
  (ipv4_tos a =? ipv4_tos b) && (ipv4_ttl a =? ipv4_ttl b) && (ipv4_id a =? ipv4_id b) &&
  (ipv4_flags a =? ipv4_flags b) && (ipv4_protocol a =? ipv4_protocol b) &&
  (ipv4_id_behavior a =? ipv4_id_behavior b) &&
  eqb (ipv4_id_sequential a) (ipv4_id_sequential b) &&
  (ipv4_saddr a =? ipv4_saddr b) && (ipv4_daddr a =? ipv4_daddr b) &&
  (ipv4_options_len a =? ipv4_options_len b) && bytes_eqb (ipv4_options a) (ipv4_options b) &&
  (ipv6_traffic_class a =? ipv6_traffic_class b) && (ipv6_flow_label a =? ipv6_flow_label b) &&
  (ipv6_next_header a =? ipv6_next_header b) && (ipv6_hop_limit a =? ipv6_hop_limit b) &&
  bytes_eqb (ipv6_saddr a) (ipv6_saddr b) && bytes_eqb (ipv6_daddr a) (ipv6_daddr b) &&
  (ipv6_extension_len a =? ipv6_extension_len b) &&
  bytes_eqb (ipv6_extensions a) (ipv6_extensions b) &&
  (udp_sport a =? udp_sport b) && (udp_dport a =? udp_dport b) &&
  (udp_length_or_coverage a =? udp_length_or_coverage b) && (udp_check a =? udp_check b) &&
  eqb (udp_checksum_used a) (udp_checksum_used b) && (esp_spi a =? esp_spi b) &&
  (esp_sequence a =? esp_sequence b) &&
  eqb (legacy_esp_payload_includes_header a) (legacy_esp_payload_includes_header b) &&
  standard_rtp_equal (rtp a) (rtp b).

Definition require_left (inp : bytes) (n : Z) : M dst unit :=
  left_ <- remaining inp ;; guard (negb (left_ <? n)).

(** UDP endpoint: the dynamic part of [decode_ir_standard] for that profile. *)
Definition decode_standard_udp (inp : bytes) : M dst unit :=
  require_left inp 5 ;;;
  chk <- next16 inp ;;
  upd (fun c => c <| udp_check := chk |> <| udp_checksum_used := negb (chk =? 0) |>) ;;;
  m <- next16 inp ;;
  upd (fun c => c <| msn := m |>) ;;;
  control <- next inp ;;
  guard (Z.land control 0xFC =? 0) ;;;
  upd (fun c => c <| reorder_ratio := Z.land control 0x03 |>).

Definition decode_standard_esp (inp : bytes) : M dst unit :=
  require_left inp 5 ;;;
  seq <- next32 inp ;;
  upd (fun c => c <| esp_sequence := seq |>) ;;;
  control <- next inp ;;
  guard (Z.land control 0xFC =? 0) ;;;
  upd (fun c => c <| reorder_ratio := Z.land control 0x03 |> <| msn := u16 (esp_sequence c) |>).

(** RTP; [before] is the context the packet found. *)
Definition decode_standard_rtp (inp : bytes) (before : Context) : M dst unit :=
  let had_rtp_context := negb (initialized (rtp before) =? 0) in
  let previous_rtp_seq := last_seq (rtp before) in
  let previous_rtp_ts := last_ts (rtp before) in
  let had_ipv4_context := (ip_version before =? 4) && negb (state_eqb (rohc_state before) NoContext) in
  let previous_ipv4_id := ipv4_id before in
  require_left inp 10 ;;;
  chk <- next16 inp ;;
  upd (fun c => c <| udp_check := chk |> <| udp_checksum_used := negb (chk =? 0) |>) ;;;
  indicators <- next inp ;;
  guard (negb (negb (Z.land indicators 0x80 =? 0) || negb (Z.land indicators 0x1C =? 0))) ;;;
  upd (fun c => c <| reorder_ratio := Z.land (Z.shiftr indicators 5) 0x03 |>) ;;;
  let pad_extension := Z.land indicators 0x03 in
  upd_rtp (fun r => r <| vpxcc := u8 (Z.lor (Z.lor 0x80 (Z.shiftl (Z.land pad_extension 0x02) 4))
                                            (Z.shiftl (Z.land pad_extension 0x01) 4)) |>) ;;;
  mp <- next inp ;;
  upd_rtp (fun r => r <| mpt := mp |>) ;;;
  seq <- next16 inp ;;
  upd_rtp (fun r => r <| last_seq := seq |>) ;;;
  ts <- next32 inp ;;
  upd_rtp (fun r => r <| last_ts := ts |>) ;;;
  upd_rtp (fun r =>
    if had_rtp_context then
      match infer_timestamp_stride previous_rtp_seq previous_rtp_ts seq ts with
      | Some (stride, res) => r <| ts_stride := stride |> <| ts_residue := res |>
      | None => r
      end
    else r) ;;;
  upd (fun c =>
    if (ip_version c =? 4) && had_ipv4_context then
      let id_delta := u16 (ipv4_id c - previous_ipv4_id) in
      let seq_delta := u16 (last_seq (rtp c) - previous_rtp_seq) in
      c <| ipv4_id_sequential := id_delta =? seq_delta |>
    else c) ;;;
  upd (fun c => c <| msn := last_seq (rtp c) |>
                  <| rtp := rtp c <| initialized := 1 |>
                       <| seq_window := LsbWindow.init (last_seq (rtp c)) |>
                       <| ts_window := LsbWindow.init (last_ts (rtp c)) |> |>).

Definition decode_ir_standard (inp : bytes) (profile_ : Profile) (profile_octet : Z) : M dst Z :=
  before <- gets d_ctx ;;
  h <- read_standard_ir_prefix inp profile_octet ;;
  read_standard_ip_static inp ;;;
  c <- gets d_ctx ;;
  let terminal_protocol := if ip_version c =? 6 then ipv6_next_header c else ipv4_protocol c in
  let required_protocol :=
    if profile_eqb profile_ ESP then 50
    else if profile_eqb profile_ UDP || profile_eqb profile_ RTP then 17
    else terminal_protocol in
  guard (terminal_protocol =? required_protocol) ;;;
  upd (fun c => c <| legacy_esp_payload_includes_header := false |>) ;;;
  (if profile_eqb profile_ UDP || profile_eqb profile_ RTP then
     require_left inp 4 ;;;
     read_udp_ports inp ;;;
     upd (fun c => c <| udp_checksum_used := false |>)
   else ret tt) ;;;
  (if profile_eqb profile_ ESP then
     require_left inp 4 ;;;
     spi <- next32 inp ;;
     upd (fun c => c <| esp_spi := spi |>)
   else ret tt) ;;;
  (if profile_eqb profile_ RTP then
     require_left inp 4 ;;;
     s <- next32 inp ;;
     upd_rtp (fun r => r <| ssrc := s |>)
   else ret tt) ;;;
  read_standard_ip_dynamic inp (profile_eqb profile_ IP) ;;;
  (if profile_eqb profile_ UDP then decode_standard_udp inp
   else if profile_eqb profile_ ESP then decode_standard_esp inp
   else if profile_eqb profile_ RTP then decode_standard_rtp inp before
   else ret tt) ;;;
  check_crc8 inp (fst h) (snd h) ;;;
  upd (fun c => c <| profile := profile_ |> <| rohc_state := DynamicEstablished |>) ;;;
  gets d_pos.

(** ** Both formats *)

(** A decoder on a copy of the context: the new context and the length. *)
Definition run_decoder (d : bytes -> M dst Z) (inp : bytes) (ctx : Context)
    : outcome (Context * Z) :=
  match d inp (mkdst 0 ctx) with
  | (Ok n, s) => Ok (d_ctx s, n)
  | (Rej, _) => Rej
  | (Ub, _) => Ub
  end.

Definition is_ok {A} (o : outcome A) : bool := match o with Ok _ => true | _ => false end.

Definition decode_ir_compatible (inp : bytes) (ctx : Context) (profile_ : Profile)
    (profile_octet : Z) (legacy : bytes -> M dst Z) : outcome (Context * Z) :=
  match run_decoder (fun i => decode_ir_standard i profile_ profile_octet) inp ctx,
        run_decoder legacy inp ctx with
  | Ub, _ | _, Ub => Ub
  | Ok (sc, sl), Ok (lc, ll) =>
      if negb (sl =? ll) || negb (standard_context_equal sc lc) then Rej else Ok (sc, sl)
  | Ok r, Rej => Ok r
  | Rej, Ok r => Ok r
  | Rej, Rej => Rej
  end.

Definition decode_ir_esp (inp : bytes) (ctx : Context) : outcome (Context * Z) :=
  decode_ir_compatible inp ctx ESP 0x03 decode_ir_esp_legacy.
Definition decode_ir_ip (inp : bytes) (ctx : Context) : outcome (Context * Z) :=
  decode_ir_compatible inp ctx IP 0x04 decode_ir_ip_legacy.
Definition decode_ir_udp (inp : bytes) (ctx : Context) : outcome (Context * Z) :=
  decode_ir_compatible inp ctx UDP 0x02 decode_ir_udp_legacy.
Definition decode_ir_rtp (inp : bytes) (ctx : Context) : outcome (Context * Z) :=
  decode_ir_compatible inp ctx RTP 0x01 decode_ir_rtp_legacy.
Definition decode_ir_udp_lite (inp : bytes) (ctx : Context) : outcome (Context * Z) :=
  run_decoder decode_ir_udp_lite_legacy inp ctx.
Definition decode_ir_rtp_udp_lite (inp : bytes) (ctx : Context) : outcome (Context * Z) :=
  run_decoder decode_ir_rtp_udp_lite_legacy inp ctx.
