(* ===== verification/StandardIr.v ===== *)
(** * The standard IR packet: decoding what the emitters produce

    [ir_octets_decode_*]: over the octets of [EmitIr] followed by any payload,
    [decode_ir_standard] consumes exactly the header and leaves the context
    [*_image] describes. *)

From S2P Require Import Prelude Crc Cid Encoding Context Cursor Chains EmitIr DecodeIr.

(** ** What a receiver's context becomes *)

Definition static_image (tx c : Context) : Context :=
  if ip_version tx =? 4 then
    c <| ip_version := 4 |> <| ipv4_protocol := ipv4_protocol tx |>
      <| ipv4_saddr := ipv4_saddr tx |>
      <| ipv4_daddr := ipv4_daddr tx |> <| ipv4_options_len := 0 |> <| ipv4_options := repeat 0 40 |>
  else
    c <| ip_version := 6 |> <| ipv6_flow_label := 0 |>
      <| ipv6_next_header := ipv6_next_header tx |> <| ipv4_protocol := ipv6_next_header tx |>
      <| ipv6_saddr := ipv6_saddr tx |>
      <| ipv6_daddr := ipv6_daddr tx |> <| ipv6_extension_len := 0 |>
      <| ipv6_extensions := repeat 0 128 |>.

Definition dynamic_image (tx : Context) (endpoint : bool) (c : Context) : Context :=
  if ip_version tx =? 6 then
    let c := c <| ipv6_traffic_class := ipv6_traffic_class tx |>
               <| ipv6_hop_limit := ipv6_hop_limit tx |> in
    if endpoint then c <| reorder_ratio := ratio tx |> <| msn := msn tx |> else c
  else
    let c := if endpoint then c <| reorder_ratio := ratio tx |> else c in
    let c := c <| ipv4_flags := Z.shiftl (df tx) 1 |>
               <| ipv4_id_behavior := id_behavior tx |>
               <| ipv4_id_sequential := id_behavior tx <=? 1 |>
               <| ipv4_tos := ipv4_tos tx |> <| ipv4_ttl := ipv4_ttl tx |>
               <| ipv4_id := if id_present tx then ipv4_id tx else 0 |> in
    if endpoint then c <| msn := msn tx |> else c.

(** ** Reading the chains *)

Lemma standard_ip_version tx : standard_ip_ok tx = true -> ip_version tx = 4 \/ ip_version tx = 6.
Proof.
  unfold standard_ip_ok. destruct (ip_version tx =? 4) eqn:E; intros; bool_prop; auto.
Qed.

(** The octet of IPv4 flags, as the decoder takes it apart. *)
Lemma control_endpoint r d b :
  0 <= r < 4 -> 0 <= d < 2 -> 0 <= b < 4 ->
  let c := Z.lor (Z.lor (Z.shiftl r 3) (Z.shiftl d 2)) b in
  Z.land c 0xE0 = 0 /\ Z.land (Z.shiftr c 3) 0x03 = r /\
  Z.land (Z.shiftr c 2) 0x01 = d /\ Z.land c 0x03 = b.
Proof.
  intros Hr Hd Hb c. subst c.
  assert (r = 0 \/ r = 1 \/ r = 2 \/ r = 3) as [-> | [-> | [-> | ->]]] by lia;
    assert (d = 0 \/ d = 1) as [-> | ->] by lia;
    assert (b = 0 \/ b = 1 \/ b = 2 \/ b = 3) as [-> | [-> | [-> | ->]]] by lia;
    by vm_compute.
Qed.

Lemma control_inner d b :
  0 <= d < 2 -> 0 <= b < 4 ->
  let c := Z.lor (Z.shiftl d 2) b in
  Z.land c 0xF8 = 0 /\ Z.land (Z.shiftr c 2) 0x01 = d /\ Z.land c 0x03 = b.
Proof.
  intros Hd Hb c. subst c.
  assert (d = 0 \/ d = 1) as [-> | ->] by lia;
    assert (b = 0 \/ b = 1 \/ b = 2 \/ b = 3) as [-> | [-> | [-> | ->]]] by lia;
    by vm_compute.
Qed.

Lemma ratio_octet r : 0 <= r < 4 ->
  Z.land r 0xFC = 0 /\ Z.land r 0x03 = r /\
  Z.land (Z.shiftl r 5) 0x80 = 0 /\ Z.land (Z.shiftl r 5) 0x1C = 0 /\
  Z.land (Z.shiftr (Z.shiftl r 5) 5) 0x03 = r /\ Z.land (Z.shiftl r 5) 0x03 = 0.
Proof.
  intros Hr. by assert (r = 0 \/ r = 1 \/ r = 2 \/ r = 3) as [-> | [-> | [-> | ->]]] by lia; vm_compute.
Qed.

Lemma small_cid_octet v : 0 <= v <= 15 -> u8 (Z.lor 0xE0 v) = Z.lor 0xE0 (Z.land v 0x0F).
Proof.
  intros Hv. apply Z.eqb_eq.
  pose proof (byte_forall (fun v => negb (v <=? 15) ||
    (u8 (Z.lor 0xE0 v) =? Z.lor 0xE0 (Z.land v 0x0F))) ltac:(vm_compute; reflexivity) v
    ltac:(unfold byte_ok; lia)) as D. cbv beta in D.
  rewrite (proj2 (Z.leb_le v 15)) in D by lia. exact D.
Qed.

Section Reading.
Context (inp : bytes) (tx : Context).
Hypothesis Hsize : size_ok (blen inp).
Hypothesis Htx : context_ok tx.
Hypothesis Hip : standard_ip_ok tx = true.

Lemma ip_static_at p l c (Q : unit -> dst -> Prop) R :
  suffix_at inp p (ip_static_octets tx ++ l) ->
  (suffix_at inp (p + blen (ip_static_octets tx)) l ->
   Q tt (mkdst (p + blen (ip_static_octets tx)) (static_image tx c))) ->
  wp (read_standard_ip_static inp) Q R (mkdst p c).
Proof.
  intros H HQ. unfold read_standard_ip_static.
  unfold ip_static_octets, static_image in *.
  destruct (standard_ip_version tx Hip) as [E|E]; rewrite E in *; cbn [Z.eqb Pos.eqb] in *.
  - rewrite <- ?app_assoc in H; cbn [app] in H. at_go; [auto with rohc..|]. at_done HQ.
  - destruct (ok_ipv6_saddr tx Htx), (ok_ipv6_daddr tx Htx).
    rewrite <- ?app_assoc in H; cbn [app] in H. at_go; [auto with rohc..|]. at_done HQ.
Qed.

Lemma ip_dynamic_at endpoint p l c (Q : unit -> dst -> Prop) R :
  ip_version c = ip_version tx ->
  suffix_at inp p (ip_dynamic_octets tx endpoint ++ l) ->
  (suffix_at inp (p + blen (ip_dynamic_octets tx endpoint)) l ->
   Q tt (mkdst (p + blen (ip_dynamic_octets tx endpoint)) (dynamic_image tx endpoint c))) ->
  wp (read_standard_ip_dynamic inp endpoint) Q R (mkdst p c).
Proof.
  intros Hv H HQ. unfold read_standard_ip_dynamic.
  apply wp_bind, wp_gets. cbn [d_ctx]. rewrite Hv.
  pose proof (ratio_octet (ratio tx) (ratio_bound tx)) as (Hr1 & Hr2 & _).
  unfold ip_dynamic_octets, dynamic_image in *.
  destruct (standard_ip_version tx Hip) as [E|E]; rewrite E in *; cbn [Z.eqb Pos.eqb] in *.
  - unfold ip_control, id_present in *.
    pose proof (control_endpoint (ratio tx) (df tx) (id_behavior tx) (ratio_bound tx)
                  (df_bound tx) (id_behavior_bound tx)) as (C1 & C2 & C3 & C4).
    pose proof (control_inner (df tx) (id_behavior tx)
                  (df_bound tx) (id_behavior_bound tx)) as (D1 & D2 & D3).
    rewrite <- ?app_assoc in H; cbn [app] in H.
    destruct endpoint, (id_behavior tx =? 3) eqn:Eb; cbn [negb] in *;
      rewrite <- ?app_assoc in H; cbn [app] in H;
      at_go; rewrite ?C2, ?C3, ?C4, ?D2, ?D3, Eb; at_go; auto with rohc; at_done HQ.
  - destruct endpoint; rewrite <- ?app_assoc in H; cbn [app] in H; at_go; auto with rohc;
      rewrite ?Hr2; at_done HQ.
Qed.

Lemma ir_prefix_at pr crc l c (Q : Z * Z -> dst -> Prop) R :
  cid c = cid tx -> large_cid c = large_cid tx -> cid_ok tx = true ->
  suffix_at inp 0 (ir_head tx 0xFD pr crc ++ l) ->
  (suffix_at inp (blen (ir_head tx 0xFD pr crc)) l ->
   Q (blen (ir_type_octets tx 0xFD pr), crc) (mkdst (blen (ir_head tx 0xFD pr crc)) c)) ->
  wp (read_standard_ir_prefix inp pr) Q R (mkdst 0 c).
Proof.
  intros Hc Hl Hok H HQ. pose proof (ok_cid tx Htx) as [Hc0 _]. unfold read_standard_ir_prefix.
  apply wp_bind, wp_gets. cbn [d_ctx]. rewrite Hc, Hl.
  unfold cid_ok, is_valid_for_space, is_small, small_cid_max in Hok.
  unfold ir_head, ir_type_octets, add_cid_octets, large_cid_octets in *.
  destruct (large_cid tx) eqn:EL; cbn [negb andb] in *.
  - cbn [app] in H. rewrite <- ?app_assoc in H. at_go.
    pose proof (large_octets_len (cid tx)) as Hle.
    assert (Hm : cid tx <= large_cid_max) by (apply Z.leb_le, Hok).
    rewrite read_large_octets by lia. apply wp_lift. at_go.
    eapply wp_advance_at; [exact H|cbn [snd]; lia|]. clear H. intros H. cbn [snd] in *.
    at_go. at_done_pos HQ.
  - destruct (0 <? cid tx) eqn:E0; cbn [app] in H |- *.
    + at_go.
      * apply wp_guard_true; [|at_go; at_done_pos HQ].
        apply Z.eqb_eq. symmetry. apply small_cid_octet. lia.
    + at_go. at_done_pos HQ.
Qed.
End Reading.

(** ** The CRC octet *)

Lemma ir_head_len_eq ctx type pr crc crc' :
  blen (ir_head ctx type pr crc) = blen (ir_head ctx type pr crc').
Proof. rewrite !ir_head_type. blen_lia. Qed.

Lemma ir_packet_len ctx type pr chains :
  blen (ir_packet ctx type pr chains) = blen (ir_head ctx type pr 0) + blen chains.
Proof. unfold ir_packet. rewrite blen_app. f_equal. apply ir_head_len_eq. Qed.

Lemma crc8_packet_matches ctx type pr chains payload :
  blen (ir_packet ctx type pr chains) <= 1024 ->
  crc8_exact_matches (ir_packet ctx type pr chains ++ payload)
    (blen (ir_packet ctx type pr chains)) (blen (ir_type_octets ctx type pr))
    (crc8 (ir_head ctx type pr 0 ++ chains)) = Ok true.
Proof.
  intros Hl. unfold crc8_exact_matches.
  assert (Hp : ir_packet ctx type pr chains =
    ir_type_octets ctx type pr ++ crc8 (ir_head ctx type pr 0 ++ chains) :: chains).
  { unfold ir_packet. rewrite ir_head_type. by rewrite <- app_assoc. }
  set (pk := ir_packet ctx type pr chains) in *.
  rewrite (proj2 (Z.ltb_ge 1024 _)) by lia.
  rewrite (proj2 (Z.ltb_ge (blen (pk ++ payload)) _)) by blen_lia.
  rewrite (proj2 (Z.leb_gt _ _)) by (rewrite Hp; blen_lia). cbn [orb].
  rewrite (slice_exact [] pk payload) by done. cbn [obind].
  rewrite Hp. unfold blen. rewrite Nat2Z.id, insert_app_r_alt by lia. rewrite Nat.sub_diag.
  cbn [insert list_insert]. rewrite (ir_head_type ctx type pr 0), <- app_assoc. cbn [app].
  by rewrite Z.eqb_refl.
Qed.

Definition terminal_protocol (ctx : Context) : Z :=
  if ip_version ctx =? 6 then ipv6_next_header ctx else ipv4_protocol ctx.

(** The contexts the packet leaves, profile by profile. *)
Definition base_image (tx rx : Context) : Context :=
  static_image tx rx <| legacy_esp_payload_includes_header := false |>.

Definition commit (p : Profile) (c : Context) : Context :=
  c <| profile := p |> <| rohc_state := DynamicEstablished |>.

Definition ip_image (tx rx : Context) : Context :=
  commit IP (dynamic_image tx true (base_image tx rx)).

Definition esp_image (tx rx : Context) : Context :=
  commit ESP
    (dynamic_image tx false (base_image tx rx <| esp_spi := esp_spi tx |>)
       <| esp_sequence := esp_sequence tx |>
       <| reorder_ratio := ratio tx |> <| msn := u16 (esp_sequence tx) |>).

Definition ports_image (tx c : Context) : Context :=
  c <| udp_sport := udp_sport tx |> <| udp_dport := udp_dport tx |>
    <| udp_checksum_used := false |>.

Definition checksum_image (tx c : Context) : Context :=
  c <| udp_check := udp_check tx |> <| udp_checksum_used := negb (udp_check tx =? 0) |>.

Definition udp_image (tx rx : Context) : Context :=
  commit UDP
    (checksum_image tx (dynamic_image tx false (ports_image tx (base_image tx rx)))
       <| msn := msn tx |> <| reorder_ratio := ratio tx |>).

(** What the RTP decoder infers from the context it had. *)
Definition stride_image (tx rx : Context) (r : RtpContext) : RtpContext :=
  if negb (initialized (rtp rx) =? 0) then
    match infer_timestamp_stride (last_seq (rtp rx)) (last_ts (rtp rx))
            (last_seq (rtp tx)) (last_ts (rtp tx)) with
    | Some (stride, res) => r <| ts_stride := stride |> <| ts_residue := res |>
    | None => r
    end
  else r.

Definition id_image (rx c : Context) : Context :=
  if (ip_version c =? 4) && ((ip_version rx =? 4) && negb (state_eqb (rohc_state rx) NoContext))
  then c <| ipv4_id_sequential :=
             u16 (ipv4_id c - ipv4_id rx) =? u16 (last_seq (rtp c) - last_seq (rtp rx)) |>
  else c.

Definition rtp_fields_image (tx : Context) (r : RtpContext) : RtpContext :=
  r <| vpxcc := 0x80 |> <| mpt := mpt (rtp tx) |>
    <| last_seq := last_seq (rtp tx) |> <| last_ts := last_ts (rtp tx) |>.

Definition rtp_windows_image (c : Context) : Context :=
  c <| msn := last_seq (rtp c) |>
    <| rtp := rtp c <| initialized := 1 |> <| seq_window := last_seq (rtp c) |>
                    <| ts_window := last_ts (rtp c) |> |>.

Definition rtp_image (tx rx : Context) : Context :=
  let c := ports_image tx (base_image tx rx) in
  let c := c <| rtp := rtp c <| ssrc := ssrc (rtp tx) |> |> in
  let c := checksum_image tx (dynamic_image tx false c) <| reorder_ratio := ratio tx |> in
  let c := c <| rtp := stride_image tx rx (rtp_fields_image tx (rtp c)) |> in
  commit RTP (rtp_windows_image (id_image rx c)).

(** ** The four standard profiles decoded *)

Lemma static_image_version tx c :
  standard_ip_ok tx = true -> ip_version (static_image tx c) = ip_version tx.
Proof.
  intros H. unfold static_image. by destruct (standard_ip_version tx H) as [E|E]; rewrite E.
Qed.

Lemma static_image_protocol tx c :
  standard_ip_ok tx = true ->
  terminal_protocol (static_image tx c) = terminal_protocol tx.
Proof.
  intros H. unfold static_image, terminal_protocol.
  by destruct (standard_ip_version tx H) as [E|E]; rewrite E.
Qed.

Section Decoding.
Context (tx rx : Context) (payload : bytes).
Hypothesis Htx : context_ok tx.
Hypothesis Hip : standard_ip_ok tx = true.
Hypothesis Hcid : cid rx = cid tx.
Hypothesis Hlarge : large_cid rx = large_cid tx.
Hypothesis Hok : cid_ok tx = true.

Lemma wp_check_crc inp pr chains p c (Q : unit -> dst -> Prop) R :
  inp = ir_packet tx 0xFD pr chains ++ payload ->
  blen (ir_packet tx 0xFD pr chains) <= 1024 ->
  p = blen (ir_packet tx 0xFD pr chains) ->
  Q tt (mkdst p c) ->
  wp (check_crc8 inp (blen (ir_type_octets tx 0xFD pr)) (crc8 (ir_head tx 0xFD pr 0 ++ chains)))
    Q R (mkdst p c).
Proof.
  intros -> Hl -> HQ. unfold check_crc8. apply wp_bind, wp_gets. cbn [d_pos].
  apply wp_bind, wp_lift. rewrite crc8_packet_matches by done. by apply wp_guard_true.
Qed.

(** The prefix and the static IP chain, in any of the four decoders. *)
Lemma standard_start_at {A} pr rest (k : Z * Z -> M dst A) Q R :
  let chains := ip_static_octets tx ++ rest in
  let inp := ir_packet tx 0xFD pr chains ++ payload in
  let p := blen (ir_head tx 0xFD pr 0) + blen (ip_static_octets tx) in
  size_ok (blen inp) ->
  (suffix_at inp p (rest ++ payload) ->
   wp (k (blen (ir_type_octets tx 0xFD pr), crc8 (ir_head tx 0xFD pr 0 ++ chains)))
     Q R (mkdst p (static_image tx rx))) ->
  wp (h <- read_standard_ir_prefix inp pr ;; read_standard_ip_static inp ;;; k h)
    Q R (mkdst 0 rx).
Proof.
  intros chains inp p Hs Hk. assert (H : suffix_at inp 0 inp) by apply suffix_at_start.
  unfold inp at 2, ir_packet in H. rewrite <- app_assoc in H.
  apply wp_bind. eapply ir_prefix_at; eauto. clear H. intros H.
  unfold chains at 2 in H. rewrite <- app_assoc in H.
  apply wp_bind. eapply ip_static_at; eauto. clear H. intros H.
  rewrite (ir_head_len_eq _ _ _ _ 0) in H |- *. by apply Hk.
Qed.

Lemma chains_len endpoint :
  blen (ip_static_octets tx) <= 34 /\ blen (ip_dynamic_octets tx endpoint) <= 7.
Proof.
  unfold ip_static_octets, ip_dynamic_octets.
  destruct (ok_ipv6_saddr tx Htx), (ok_ipv6_daddr tx Htx).
  split; destruct (_ =? _), endpoint, (id_present tx); blen_lia.
Qed.

(** The length of a packet whose chains [lens] unfolds. *)
Ltac packet_len lens :=
  pose proof (chains_len true); pose proof (chains_len false);
  rewrite ir_packet_len; lens; autorewrite with blen in *; lia.

(** The updates after the dynamic chain, on any context. *)
Ltac generalize_base :=
  match goal with
  | |- context [dynamic_image tx ?e ?c] => generalize (dynamic_image tx e c); intros ?
  end.

Ltac normalise :=
  first
    [ lazymatch goal with |- context [infer_timestamp_stride ?a ?b ?c ?d] =>
        destruct (infer_timestamp_stride a b c d) as [[? ?]|]; destruct (negb _);
        lazy -[u16 Z.eqb Z.sub state_eqb negb ratio]; reflexivity
      end
    | reflexivity ].

(** The CRC and the commit. *)
Ltac standard_end pr lens :=
  cbn [fst snd]; eapply wp_check_crc;
  [ reflexivity
  | pose proof (ir_head_len tx 0xFD pr 0); packet_len lens
  | packet_len lens
  | at_go; split; cbn [d_pos d_ctx];
    [ packet_len lens
    | unfold ip_image, esp_image, udp_image, rtp_image, commit, checksum_image, ports_image,
        base_image, rtp_windows_image, id_image, stride_image, rtp_fields_image;
        cbv zeta beta; generalize_base; normalise ] ].

Lemma decode_ip_at :
  let packet := ir_packet tx 0xFD 0x04 (ip_chains tx) in
  size_ok (blen (packet ++ payload)) ->
  wp (decode_ir_standard (packet ++ payload) IP 0x04)
    (fun n s => n = blen packet /\ d_ctx s = ip_image tx rx) (fun _ => False) (mkdst 0 rx).
Proof.
  intros packet Hs. subst packet. unfold decode_ir_standard.
  apply wp_bind, wp_gets. cbn [d_ctx].
  apply standard_start_at; [done|]. intros H.
  apply wp_bind, wp_gets. cbn [d_ctx]. cbv zeta.
  apply wp_bind, wp_guard_true; [apply Z.eqb_refl|].
  change (profile_eqb IP IP) with true. at_go.
  eapply ip_dynamic_at; eauto; [by rewrite <- (static_image_version tx rx)|].
  clear H. intros H. at_go. standard_end 0x04 ltac:(unfold ip_chains).
Qed.

Lemma decode_esp_at :
  let packet := ir_packet tx 0xFD 0x03 (esp_chains tx) in
  size_ok (blen (packet ++ payload)) -> terminal_protocol tx = 50 ->
  wp (decode_ir_standard (packet ++ payload) ESP 0x03)
    (fun n s => n = blen packet /\ d_ctx s = esp_image tx rx) (fun _ => False) (mkdst 0 rx).
Proof.
  intros packet Hs Ht. subst packet. unfold decode_ir_standard.
  apply wp_bind, wp_gets. cbn [d_ctx].
  apply standard_start_at; [done|]. intros H. rewrite <- !app_assoc in H.
  apply wp_bind, wp_gets. cbn [d_ctx]. cbv zeta.
  fold (terminal_protocol (static_image tx rx)). rewrite (static_image_protocol tx rx Hip), Ht.
  change (profile_eqb ESP IP) with false.
  at_go.
  unfold require_left. at_go; [auto with rohc|].
  eapply ip_dynamic_at; eauto; [by rewrite <- (static_image_version tx rx)|].
  clear H. intros H. unfold esp_dynamic_octets in H. rewrite <- app_assoc in H.
  destruct (ratio_octet (ratio tx) (ratio_bound tx)) as (Hr1 & Hr2 & _).
  unfold decode_standard_esp, require_left. at_go; [auto with rohc|].
  rewrite Hr2. standard_end 0x03 ltac:(unfold esp_chains, esp_dynamic_octets).
Qed.

Lemma decode_udp_at :
  let packet := ir_packet tx 0xFD 0x02 (udp_chains tx) in
  size_ok (blen (packet ++ payload)) -> terminal_protocol tx = 17 ->
  wp (decode_ir_standard (packet ++ payload) UDP 0x02)
    (fun n s => n = blen packet /\ d_ctx s = udp_image tx rx) (fun _ => False) (mkdst 0 rx).
Proof.
  intros packet Hs Ht. subst packet. unfold decode_ir_standard.
  apply wp_bind, wp_gets. cbn [d_ctx].
  apply standard_start_at; [done|]. intros H. rewrite <- !app_assoc in H.
  apply wp_bind, wp_gets. cbn [d_ctx]. cbv zeta.
  fold (terminal_protocol (static_image tx rx)). rewrite (static_image_protocol tx rx Hip), Ht.
  change (profile_eqb UDP IP) with false.
  at_go.
  unfold udp_static_octets in H. rewrite <- app_assoc in H.
  unfold require_left, read_udp_ports. at_go; [auto with rohc..|].
  eapply ip_dynamic_at; eauto; [by rewrite <- (static_image_version tx rx)|].
  clear H. intros H. unfold udp_endpoint_octets in H. rewrite <- !app_assoc in H.
  destruct (ratio_octet (ratio tx) (ratio_bound tx)) as (Hr1 & Hr2 & _).
  unfold decode_standard_udp, require_left. at_go; [auto with rohc..|].
  rewrite Hr2. standard_end 0x02 ltac:(unfold udp_chains, udp_endpoint_octets, udp_static_octets).
Qed.

Lemma decode_rtp_at :
  let packet := ir_packet tx 0xFD 0x01 (rtp_chains tx) in
  size_ok (blen (packet ++ payload)) -> terminal_protocol tx = 17 ->
  wp (decode_ir_standard (packet ++ payload) RTP 0x01)
    (fun n s => n = blen packet /\ d_ctx s = rtp_image tx rx) (fun _ => False) (mkdst 0 rx).
Proof.
  intros packet Hs Ht. subst packet. unfold decode_ir_standard.
  apply wp_bind, wp_gets. cbn [d_ctx].
  apply standard_start_at; [done|]. intros H. rewrite <- !app_assoc in H.
  apply wp_bind, wp_gets. cbn [d_ctx]. cbv zeta.
  fold (terminal_protocol (static_image tx rx)). rewrite (static_image_protocol tx rx Hip), Ht.
  change (profile_eqb RTP IP) with false.
  at_go.
  unfold udp_static_octets in H. rewrite <- app_assoc in H.
  unfold require_left, read_udp_ports. at_go; [auto with rohc..|].
  eapply ip_dynamic_at; eauto; [by rewrite <- (static_image_version tx rx)|].
  clear H. intros H. unfold rtp_dynamic_octets in H. rewrite <- !app_assoc in H.
  destruct (ratio_octet (ratio tx) (ratio_bound tx)) as (_ & _ & Hr1 & Hr2 & Hr3 & Hr4).
  unfold decode_standard_rtp, require_left. at_go; [auto with rohc..|].
  rewrite Hr3, Hr4.
  at_go. standard_end 0x01 ltac:(unfold rtp_chains, rtp_dynamic_octets, udp_static_octets).
Qed.
End Decoding.
