(* ===== verification/DecodeIrDyn.v ===== *)
(** * IR-DYN packets, decompressor side: include/rohccxx/core/decode_ir_dyn.hpp *)

From S2P Require Import Prelude Crc Cid Encoding Context Cursor Chains DecodeIr.

(** [(!ctx.large_cid && ctx.cid > 0)], and the octets the CID takes. *)
Definition has_small_cid (ctx : Context) : bool := negb (large_cid ctx) && (0 <? cid ctx).
Definition small_cid_len (ctx : Context) : Z := if has_small_cid ctx then 1 else 0.
Definition large_cid_len (ctx : Context) : Z := if large_cid ctx then encoded_len (cid ctx) else 0.

Definition dyn_crc_index (ctx : Context) : Z :=
  if has_small_cid ctx then 3 else if large_cid ctx then 2 + encoded_len (cid ctx) else 2.

(** From the Add-CID octet to the CRC octet, once the length is checked. *)
Definition read_dyn_octets (inp : bytes) (profile_octet : Z) : M dst Z :=
  ctx <- gets d_ctx ;;
  (if has_small_cid ctx then
     b <- next inp ;;
     guard (negb (negb (Z.land b 0xF0 =? 0xE0) || negb (Z.land b 0x0F =? Z.land (cid ctx) 0x0F)))
   else ret tt) ;;;
  type <- next inp ;;
  guard (type =? 0xF8) ;;;
  read_large_cid_if_present inp ;;;
  pr <- next inp ;;
  guard (pr =? profile_octet) ;;;
  next inp.

(** The prefix of the profiles without RTP: the received CRC. *)
Definition read_dyn_prefix (inp : bytes) (header_len_no_cid profile_octet : Z) : M dst Z :=
  guard (negb (blen inp <? header_len_no_cid)) ;;;
  ctx <- gets d_ctx ;;
  guard (negb (has_small_cid ctx && (blen inp <? header_len_no_cid + 1))) ;;;
  read_dyn_octets inp profile_octet.

Definition ipv6_dynamic_delta (ctx : Context) : Z := if ip_version ctx =? 6 then 1 else 0.

(** The length of the whole header, whose CRC is checked before the context
    is touched, and the IP dynamic chain. *)
Definition read_dyn_ip (inp : bytes) (header_len_no_cid received_crc : Z) : M dst Z :=
  ctx <- gets d_ctx ;;
  let min_header_len := header_len_no_cid + ipv6_dynamic_delta ctx + small_cid_len ctx +
                        large_cid_len ctx in
  pos <- gets d_pos ;;
  options_extra_len <- lift (ip_dynamic_extra_len inp pos ctx) ;;
  let header_len := min_header_len + options_extra_len in
  ok <- lift (crc8_exact_matches inp header_len (dyn_crc_index ctx) received_crc) ;;
  guard ok ;;;
  read_legacy_ip_dynamic_consistent inp ;;;
  ret header_len.

Definition decode_ir_dyn_esp (inp : bytes) : M dst Z :=
  received_crc <- read_dyn_prefix inp 9 0x03 ;;
  header_len <- read_dyn_ip inp 9 received_crc ;;
  upd (fun c => c <| profile := ESP |> <| rohc_state := DynamicEstablished |>) ;;;
  ret header_len.

Definition decode_ir_dyn_ip (inp : bytes) : M dst Z :=
  received_crc <- read_dyn_prefix inp 9 0x04 ;;
  header_len <- read_dyn_ip inp 9 received_crc ;;
  upd (fun c => c <| profile := IP |> <| rohc_state := DynamicEstablished |>) ;;;
  ret header_len.

Definition decode_ir_dyn_udp_lite (inp : bytes) : M dst Z :=
  received_crc <- read_dyn_prefix inp 13 0x08 ;;
  header_len <- read_dyn_ip inp 13 received_crc ;;
  coverage <- next16 inp ;;
  upd (fun c => c <| udp_length_or_coverage := coverage |>) ;;;
  pos <- gets d_pos ;;
  chk <- lift (rd_u16 inp pos) ;;
  upd (fun c => c <| udp_check := chk |>) ;;;
  upd (fun c => c <| profile := UDP_Lite |> <| rohc_state := DynamicEstablished |>) ;;;
  ret header_len.

Definition decode_ir_dyn_udp (inp : bytes) : M dst Z :=
  received_crc <- read_dyn_prefix inp 11 0x02 ;;
  header_len <- read_dyn_ip inp 11 received_crc ;;
  pos <- gets d_pos ;;
  chk <- lift (rd_u16 inp pos) ;;
  upd (fun c => c <| udp_check := chk |>) ;;;
  upd (fun c => c <| profile := UDP |> <| rohc_state := DynamicEstablished |>) ;;;
  ret header_len.

(** The RTP part: first octets, sequence number and timestamp, the stride and
    the IP-ID behaviour inferred from the context [before] the packet. *)
Definition read_dyn_rtp (inp : bytes) (before : Context) (candidate_len : Z) : M dst unit :=
  let had_ipv4_rtp_context := (ip_version before =? 4) && negb (initialized (rtp before) =? 0) in
  rtp_first <- next inp ;;
  rtp_second <- next inp ;;
  upd_rtp (fun r => r <| vpxcc := Z.lor (Z.land rtp_first 0xF0) (Z.land rtp_first 0x0F) |>
                      <| mpt := rtp_second |>) ;;;
  decoded_seq <- next16 inp ;;
  decoded_ts <- next32 inp ;;
  upd_rtp (fun r =>
    if initialized r =? 0 then r
    else match infer_timestamp_stride (last_seq r) (last_ts r) decoded_seq decoded_ts with
         | Some (stride, res) => r <| ts_stride := stride |> <| ts_residue := res |>
         | None => r
         end) ;;;
  upd (fun c =>
    c <| ipv4_id_sequential :=
           if (ip_version c =? 4) && had_ipv4_rtp_context then
             let id_delta := u16 (ipv4_id c - ipv4_id before) in
             let seq_delta := u16 (decoded_seq - last_seq (rtp before)) in
             negb (id_delta =? 0) && (id_delta =? seq_delta)
           else false |>) ;;;
  upd_rtp (fun r => r <| last_seq := decoded_seq |> <| last_ts := decoded_ts |>) ;;;
  header <- lift (slice inp 0 candidate_len) ;;
  read_rtp_extras_list header ;;;
  pos <- gets d_pos ;;
  guard (pos =? candidate_len).

(** The length of an IR-DYN header with RTP, checked against its CRC. *)
Definition check_dyn_rtp (inp : bytes) (fixed udp_len received_crc : Z) : M dst Z :=
  ctx <- gets d_ctx ;;
  let candidate_min_header_len := fixed + large_cid_len ctx + small_cid_len ctx +
                                  ipv6_dynamic_delta ctx in
  dynamic_pos <- gets d_pos ;;
  options_extra_len <- lift (ip_dynamic_extra_len inp dynamic_pos ctx) ;;
  let ip_dynamic_len := (if ip_version ctx =? 6 then 7 else 6) + options_extra_len in
  let rtp_marker_pos := dynamic_pos + ip_dynamic_len + udp_len + 8 in
  rtp_extra_len <- lift (rtp_dynamic_extra_len inp rtp_marker_pos) ;;
  let candidate_len := candidate_min_header_len + options_extra_len + rtp_extra_len in
  ok <- lift (crc8_exact_matches inp candidate_len (dyn_crc_index ctx) received_crc) ;;
  guard ok ;;;
  ret candidate_len.

Definition commit_dyn_rtp : M dst unit :=
  upd (fun c =>
    let r := rtp c in
    c <| rtp := r <| seq_window := LsbWindow.init (last_seq r) |>
                  <| ts_window := LsbWindow.init (last_ts r) |>
                  <| ts_residue := if ts_stride r =? 0 then 0 else last_ts r mod ts_stride r |>
                  <| initialized := 1 |> |>
      <| rohc_state := DynamicEstablished |>).

Definition decode_ir_dyn_rtp_udp_lite (inp : bytes) : M dst Z :=
  before <- gets d_ctx ;;
  guard (negb (blen inp <? 22 + large_cid_len before + small_cid_len before)) ;;;
  received_crc <- read_dyn_octets inp 0x07 ;;
  candidate_len <- check_dyn_rtp inp 22 4 received_crc ;;
  read_legacy_ip_dynamic_consistent inp ;;;
  coverage <- next16 inp ;;
  upd (fun c => c <| udp_length_or_coverage := coverage |>) ;;;
  chk <- next16 inp ;;
  upd (fun c => c <| udp_check := chk |>) ;;;
  read_dyn_rtp inp before candidate_len ;;;
  upd (fun c => c <| profile := RTP_UDP_Lite |>) ;;;
  commit_dyn_rtp ;;;
  ret candidate_len.

Definition decode_ir_dyn_rtp (inp : bytes) : M dst Z :=
  before <- gets d_ctx ;;
  guard (negb (blen inp <? 20 + large_cid_len before + small_cid_len before)) ;;;
  received_crc <- read_dyn_octets inp 0x01 ;;
  candidate_len <- check_dyn_rtp inp 20 2 received_crc ;;
  read_legacy_ip_dynamic_consistent inp ;;;
  chk <- next16 inp ;;
  upd (fun c => c <| udp_check := chk |>) ;;;
  read_dyn_rtp inp before candidate_len ;;;
  commit_dyn_rtp ;;;
  ret candidate_len.
