(* ===== verification/Safety.v ===== *)
(** * The decoders stay inside their input

    Every read of every IR and IR-DYN decoder, on any octets at all, lies in
    the input, every [memcpy] in its array, and the context the decoder leaves
    is well formed: each field within its C++ type. *)

From S2P Require Import Prelude Crc Cid Encoding Context Cursor Chains EmitIr DecodeIr DecodeIrDyn.

(** [m], started at [p] with the context [c], stays in the input, advances
    to [q] at least and keeps the context well formed. *)
Definition keeps {A} (inp : bytes) (m : M dst A) (q p : Z) (c : Context) : Prop :=
  wp m (fun _ s => q <= d_pos s <= blen inp /\ context_ok (d_ctx s)) (fun _ => True) (mkdst p c).

Lemma wp_call {A} (m : M dst A) p c (P Q : A -> dst -> Prop) :
  wp m P (fun _ => True) (mkdst p c) ->
  (forall a p' c', P a (mkdst p' c') -> Q a (mkdst p' c')) ->
  wp m Q (fun _ => True) (mkdst p c).
Proof. intros H HQ. eapply wp_mono; [|done|exact H]. intros a [p' c']. apply HQ. Qed.

Lemma overwrite_ok dst src :
  (length src <= length dst)%nat -> bytes_ok dst -> bytes_ok src ->
  exists arr, overwrite dst src = Ok arr /\ length arr = length dst /\ bytes_ok arr.
Proof.
  intros Hl Hd Hs. rewrite overwrite_fits by done. eexists; split; [done|]. split.
  - rewrite length_app, length_drop. lia.
  - apply bytes_ok_app. auto with rohc.
Qed.

Lemma zeros_ok n : bytes_ok (repeat 0 n).
Proof. induction n; constructor; [unfold byte_ok; lia|done]. Qed.

#[local] Hint Resolve zeros_ok : rohc.

Lemma wp_overwrite n src p c (Q : bytes -> dst -> Prop) R :
  blen src <= Z.of_nat n -> bytes_ok src ->
  (forall arr, length arr = n -> bytes_ok arr -> Q arr (mkdst p c)) ->
  wp (lift (overwrite (repeat 0 n) src)) Q R (mkdst p c).
Proof.
  intros Hl Hs HQ. unfold blen in Hl.
  destruct (overwrite_ok (repeat 0 n) src) as (arr & E & Hlen & Harr);
    [rewrite repeat_length; lia|auto with rohc|done|].
  apply wp_lift. rewrite E. apply HQ; [by rewrite Hlen, repeat_length|done].
Qed.

Lemma wp_read_large t p c (Q : Z * Z -> dst -> Prop) :
  bytes_ok t ->
  (forall v n, 0 <= v <= large_cid_max -> n = encoded_len v -> 1 <= n <= 2 -> n <= blen t ->
   Q (v, n) (mkdst p c)) ->
  wp (lift (read_large t)) Q (fun _ => True) (mkdst p c).
Proof.
  intros Ht HQ. apply wp_lift. destruct (read_large t) as [[v n]| |] eqn:E; [|done|].
  - apply read_large_bounds in E; [|done]. destruct E as (? & ? & ? & ?). by apply HQ.
  - pose proof (read_large_inv t Ht) as X. by rewrite E in X.
Qed.

(** An update is only known to keep the context well formed. *)
Lemma wp_upd_ok f p c (Q : unit -> dst -> Prop) R :
  context_ok (f c) -> (forall c', context_ok c' -> Q tt (mkdst p c')) ->
  wp (upd f) Q R (mkdst p c).
Proof. intros Hf HQ. by apply wp_upd, HQ. Qed.

Lemma next_header_ok c : context_ok c -> byte_ok (ipv6_next_header c).
Proof. intros H. unfold context_ok, ipv6_ok in H. by decompose [and] H. Qed.

Lemma flow_octet_ok c f k :
  context_ok c -> byte_ok f -> 0 <= k <= 16 ->
  0 <= Z.lor (ipv6_flow_label c) (Z.shiftl f k) < 2 ^ 32.
Proof.
  intros H Hf Hk. unfold context_ok, ipv6_ok in H. decompose [and] H. unfold byte_ok in Hf.
  apply (lor_range 32); [lia|lia|]. rewrite Z.shiftl_mul_pow2 by lia.
  assert (2 ^ 0 <= 2 ^ k <= 2 ^ 16) by (split; apply Z.pow_le_mono_r; lia). nia.
Qed.

Lemma flow_last_ok c f :
  context_ok c -> byte_ok f -> 0 <= Z.lor (ipv6_flow_label c) f < 2 ^ 32.
Proof.
  intros H Hf. pose proof (flow_octet_ok c f 0 H Hf ltac:(lia)) as X.
  by rewrite Z.shiftl_0_r in X.
Qed.

Lemma flow_first_ok f : 0 <= Z.shiftl (Z.land f 0x0F) 16 < 2 ^ 32.
Proof. pose proof (land_range f 15 ltac:(lia)). rewrite Z.shiftl_mul_pow2; lia. Qed.

Lemma or_nibbles_ok b : byte_ok b -> byte_ok (Z.lor (Z.land b 0xF0) (Z.land b 0x0F)).
Proof.
  intros Hb. pose proof (land_range b 0xF0 ltac:(lia)). pose proof (land_range b 0x0F ltac:(lia)).
  unfold byte_ok. apply (lor_range 8); lia.
Qed.

Lemma shifted_bit_ok x : byte_ok (Z.shiftl (Z.land x 0x01) 1).
Proof.
  pose proof (land_range x 1 ltac:(lia)). unfold byte_ok. rewrite Z.shiftl_mul_pow2 by lia. lia.
Qed.

Lemma u16_ok v : 0 <= u16 v < 2 ^ 16.
Proof. apply Z.mod_pos_bound. lia. Qed.

Lemma stride_ok (b : bool) r s0 t0 s1 t1 :
  0 <= t0 < 2 ^ 32 -> 0 <= t1 < 2 ^ 32 -> rtp_ok r ->
  rtp_ok (if b then
            match infer_timestamp_stride s0 t0 s1 t1 with
            | Some (stride, res) => r <| ts_stride := stride |> <| ts_residue := res |>
            | None => r
            end
          else r).
Proof.
  intros H0 H1 Hr. destruct b; [|done].
  destruct (infer_timestamp_stride s0 t0 s1 t1) as [[st res]|] eqn:E; [|done].
  apply infer_stride_sound in E as (Hst & -> & _); [|done..].
  pose proof (Z.mod_pos_bound t1 st ltac:(lia)).
  apply ok_set_ts_residue; [apply ok_set_ts_stride|]; [done|lia|lia].
Qed.

#[local] Hint Resolve next_header_ok flow_octet_ok flow_last_ok flow_first_ok or_nibbles_ok
  shifted_bit_ok u16_ok stride_ok : ctxok.

Ltac land_facts :=
  repeat match goal with
  | |- context [Z.land ?x (Zpos ?m)] =>
      lazymatch goal with
      | _ : 0 <= Z.land x (Zpos m) <= _ |- _ => fail
      | _ => pose proof (land_range x (Zpos m) ltac:(lia))
      end
  end.
Ltac side :=
  match goal with
  | |- wp _ _ _ _ => fail 1
  | |- size_ok _ => assumption
  | |- True => exact I
  | |- bytes_ok _ => assumption || auto with rohc
  | |- blen ?l <= Z.of_nat _ => rewrite ?blen_nil; lia
  | |- _ => land_facts; unfold byte_ok in *; lia
  end.
Ltac safe_step :=
  first
    [ progress cbv zeta
    | progress cbn [d_pos d_ctx fst snd]
    | lazymatch goal with
      | |- wp (lift (overwrite (repeat 0 _) _)) _ _ _ => apply wp_overwrite; [| |intros ? ? ?]
      | |- wp (lift Rej) _ _ _ => exact I
      | |- wp (upd_rtp _) _ _ _ =>
          unfold upd_rtp; apply wp_upd_ok; [solve [cbn beta; auto 50 with ctxok rohc]|intros]
      | |- wp (upd _) _ _ _ => apply wp_upd_ok; [solve [cbn beta; auto 50 with ctxok rohc]|intros]
      | |- wp (lift (read_large _)) _ _ _ => apply wp_read_large; [|intros]
      | |- wp (lift (read_sdvl_14 _)) _ _ _ => apply wp_read_large; [|intros]
      | _ => dec_step
      end;
      repeat match goal with Hb : bytes_ok ?i, H : bytes_ok ?i -> _ |- _ => specialize (H Hb) end;
      bool_prop;
      repeat match goal with H : context [usub ?a ?b] |- _ => rewrite (usub_small a b) in H by lia end ];
  try side.
Ltac ok_side :=
  first [ assumption | lia | apply repeat_length | apply zeros_ok | apply byte_u8
        | land_facts; unfold byte_ok in *; lia | unfold blen in *; lia ].
#[local] Hint Extern 5 (byte_ok _) => ok_side : ctxok.
#[local] Hint Extern 5 (_ <= _ < _) => ok_side : ctxok.
#[local] Hint Extern 5 (_ <= _ <= _) => ok_side : ctxok.
#[local] Hint Extern 5 (length _ = _) => ok_side : ctxok.
#[local] Hint Extern 5 (bytes_ok _) => ok_side : ctxok.
(** A final state: the position, and the well-formed context. *)
Ltac ctx_ok := cbn [d_pos d_ctx]; split_all; first [lia | solve [auto 50 with ctxok] | ok_side].
Ltac safe_go := repeat safe_step.

(** Calls into operations already shown safe. *)
Ltac call L :=
  lazymatch goal with |- wp _ _ _ _ => idtac end;
  eapply wp_call; [apply L; try side; auto 50 with ctxok|]; intros ? ? ?; cbn [d_pos d_ctx];
  intros ?; destruct_and?.

Section Reading.
Context (inp : bytes).
Hypothesis Hsize : size_ok (blen inp).
Hypothesis Hbytes : bytes_ok inp.

Lemma wp_next_rd p c (Q : Z -> dst -> Prop) R :
  0 <= p < blen inp ->
  (forall b, rd inp p = Ok b -> byte_ok b -> Q b (mkdst (p + 1) c)) ->
  wp (next inp) Q R (mkdst p c).
Proof.
  intros Hp HQ. destruct (rd_in_range inp p Hp) as (b & E & Hb).
  unfold next. apply wp_bind, wp_gets, wp_bind, wp_lift. cbn [d_pos]. rewrite E.
  apply wp_bind, wp_advance, wp_ret. auto.
Qed.

(** The two extension lists move by what their length helpers announce. *)
Lemma safe_ipv4_options_list p c :
  0 <= p <= blen inp -> context_ok c ->
  wp (read_ipv4_options_list inp)
    (fun _ s => ipv4_options_extra_len inp p = Ok (d_pos s - p - 1) /\
                p + 1 <= d_pos s <= blen inp /\ context_ok (d_ctx s))
    (fun _ => True) (mkdst p c).
Proof.
  intros Hp Hc. unfold read_ipv4_options_list, size_ok in *. do 2 safe_step.
  apply wp_bind, wp_next_rd; [lia|]. intros marker Em Hm.
  unfold ipv4_options_extra_len. rewrite (proj2 (Z.ltb_lt p (blen inp))) by lia.
  cbn [obind oguard]. rewrite Em. cbn [obind]. safe_go.
  - rewrite H1. split; [f_equal; lia|]. split; [lia|done].
  - rewrite H1, (proj2 (Z.eqb_eq _ _)) by eassumption. cbn [obind oguard].
    pose proof (land_range marker 63 ltac:(lia)).
    rewrite (usub_small (blen inp) p), usub_small by lia.
    rewrite (proj2 (Z.ltb_lt 0 (Z.land marker 63))) by lia.
    rewrite (proj2 (Z.leb_le (Z.land marker 63) 40)) by lia.
    rewrite (proj2 (Z.leb_le (Z.land marker 63) (blen inp - p - 1))) by lia.
    cbn [obind oguard andb]. split; [f_equal; lia|split; [lia|done]].
Qed.

Definition ipv6_extensions_extra_len (marker_pos : Z) : outcome Z :=
  check marker_pos <? blen inp in
  let! marker := rd inp marker_pos in
  if is_empty_list marker then Ok 0
  else
    check Z.land marker 0x80 =? ipv6_extensions_list_marker in
    let extra_len := Z.land marker 0x7F in
    check (0 <? extra_len) && (extra_len <=? 127) &&
          (extra_len <=? usub (usub (blen inp) marker_pos) 1) in
    Ok extra_len.

Lemma safe_ipv6_extensions_list p c :
  0 <= p <= blen inp -> context_ok c ->
  wp (read_ipv6_extensions_list inp)
    (fun _ s => ipv6_extensions_extra_len p = Ok (d_pos s - p - 1) /\
                p + 1 <= d_pos s <= blen inp /\ context_ok (d_ctx s))
    (fun _ => True) (mkdst p c).
Proof.
  intros Hp Hc. unfold read_ipv6_extensions_list, size_ok in *. do 2 safe_step.
  apply wp_bind, wp_next_rd; [lia|]. intros marker Em Hm.
  unfold ipv6_extensions_extra_len. rewrite (proj2 (Z.ltb_lt p (blen inp))) by lia.
  cbn [obind oguard]. rewrite Em. cbn [obind]. safe_go.
  - rewrite H1. split; [f_equal; lia|]. split; [lia|done].
  - rewrite H1, (proj2 (Z.eqb_eq _ _)) by eassumption. cbn [obind oguard].
    pose proof (land_range marker 127 ltac:(lia)).
    rewrite (usub_small (blen inp) p), usub_small by lia.
    rewrite (proj2 (Z.ltb_lt 0 (Z.land marker 127))) by lia.
    rewrite (proj2 (Z.leb_le (Z.land marker 127) 127)) by lia.
    rewrite (proj2 (Z.leb_le (Z.land marker 127) (blen inp - p - 1))) by lia.
    cbn [obind oguard andb]. split; [f_equal; lia|split; [lia|done]].
Qed.

Lemma safe_ip_static_chain p c :
  0 <= p <= blen inp -> context_ok c -> keeps inp (read_ip_static_chain inp) p p c.
Proof. intros Hp Hc. unfold keeps, read_ip_static_chain. safe_go; ctx_ok. Qed.

(** The dynamic chain takes its five or six octets, the list marker, and
    the octets [ip_dynamic_extra_len] announces. *)
Lemma safe_ip_dynamic_chain p c :
  0 <= p <= blen inp -> context_ok c ->
  wp (read_ip_dynamic_chain inp)
    (fun _ s => (exists extra, ip_dynamic_extra_len inp p c = Ok extra /\ 0 <= extra /\
                 d_pos s = p + 6 + ipv6_dynamic_delta c + extra) /\
                p + 6 <= d_pos s <= blen inp /\ context_ok (d_ctx s))
    (fun _ => True) (mkdst p c).
Proof.
  intros Hp Hc. unfold read_ip_dynamic_chain, ip_dynamic_extra_len, ipv6_dynamic_delta.
  safe_go.
  - call safe_ipv6_extensions_list. rewrite (proj2 (Z.eqb_eq _ _)) by eassumption.
    split; [|split; [lia|done]].
    eexists. replace (p + 6) with (p + 1 + 1 + 1 + 1 + 1 + 1) by lia.
    split; [eassumption|lia].
  - call safe_ipv4_options_list. rewrite (proj2 (Z.eqb_neq _ _)) by eassumption.
    split; [|split; [lia|done]].
    eexists. replace (p + 5) with (p + 1 + 1 + 2 + 1) by lia.
    split; [eassumption|lia].
Qed.

Lemma safe_ip_dynamic_consistent p c :
  0 <= p <= blen inp -> context_ok c ->
  wp (read_legacy_ip_dynamic_consistent inp)
    (fun _ s => (exists extra, ip_dynamic_extra_len inp p c = Ok extra /\ 0 <= extra /\
                 d_pos s = p + 6 + ipv6_dynamic_delta c + extra) /\
                p + 6 <= d_pos s <= blen inp /\ context_ok (d_ctx s))
    (fun _ => True) (mkdst p c).
Proof.
  intros Hp Hc. unfold read_legacy_ip_dynamic_consistent. safe_go.
  call safe_ip_dynamic_chain. safe_go. auto.
Qed.

Lemma safe_ip_dynamic_known x p c :
  ip_dynamic_extra_len inp p c = Ok x -> 0 <= p <= blen inp -> context_ok c ->
  wp (read_legacy_ip_dynamic_consistent inp)
    (fun _ s => d_pos s = p + 6 + ipv6_dynamic_delta c + x /\ 0 <= x /\
                d_pos s <= blen inp /\ context_ok (d_ctx s))
    (fun _ => True) (mkdst p c).
Proof.
  intros Ex Hp Hc. call safe_ip_dynamic_consistent.
  match goal with H : exists _, _ |- _ => destruct H as (y & Ey & Hy & Hq) end.
  rewrite Ex in Ey. injection Ey as <-. split_all; [lia..|done].
Qed.

Lemma wp_need n p c (Q : unit -> dst -> Prop) :
  0 <= p <= blen inp -> (n <= blen inp - p -> Q tt (mkdst p c)) ->
  wp (need inp n) Q (fun _ => True) (mkdst p c).
Proof.
  intros Hp HQ. unfold need, available, size_ok in *. safe_go.
  apply HQ. lia.
Qed.

Lemma safe_large_cid p c :
  0 <= p <= blen inp ->
  wp (read_large_cid_if_present inp)
    (fun _ s => d_pos s = p + (if large_cid c then encoded_len (cid c) else 0) /\
                d_pos s <= blen inp /\ d_ctx s = c) (fun _ => True) (mkdst p c).
Proof.
  intros Hp. unfold read_large_cid_if_present. safe_go.
  - rewrite H. repeat split; lia.
  - subst v. rewrite H. repeat split; lia.
Qed.

Lemma crc8_exact_safe n i r :
  0 <= n ->
  exists b, crc8_exact_matches inp n i r = Ok b /\ (b = true -> n <= blen inp).
Proof.
  intros Hn. unfold crc8_exact_matches.
  destruct (Z.ltb_spec 1024 n); [by exists false|].
  destruct (Z.ltb_spec (blen inp) n); [by exists false|].
  destruct (Z.leb_spec n i); [by exists false|]. cbn [orb].
  destruct (slice_in_range inp 0 n) as (s & -> & _ & _); [lia..|]. cbn [obind].
  eexists; split; [done|lia].
Qed.

Lemma wp_check_crc8 i r p c (Q : unit -> dst -> Prop) :
  0 <= p -> Q tt (mkdst p c) -> wp (check_crc8 inp i r) Q (fun _ => True) (mkdst p c).
Proof.
  intros Hp HQ. unfold check_crc8. safe_go.
  destruct (crc8_exact_safe p i r Hp) as (b & E & _). apply wp_lift. rewrite E. by safe_go.
Qed.

Lemma safe_legacy_mode p c :
  0 <= p <= blen inp -> context_ok c ->
  wp (read_legacy_mode inp)
    (fun _ s => d_pos s = p /\ p < blen inp /\ context_ok (d_ctx s)) (fun _ => True) (mkdst p c).
Proof. intros Hp Hc. unfold read_legacy_mode. safe_go. ctx_ok. Qed.

(** ** The RTP extras *)

Lemma extras_body_len_safe c : context_ok c -> rtp_extras_body_len c <> Ub.
Proof.
  intros Hc. apply ok_rtp in Hc. unfold rtp_ok, bytes_ok in Hc. decompose [and] Hc. clear Hc.
  unfold rtp_extras_body_len, rtp_extension_bytes_valid. cbv zeta.
  assert (He : blen (extension_bytes (rtp c)) = 256) by (unfold blen; lia).
  assert (Hpd : blen (padding_bytes (rtp c)) = 255) by (unfold blen; lia).
  destruct (rd_u16_in_range (extension_bytes (rtp c)) 2) as (w & Ew & _); [lia..|].
  rewrite Ew. unfold byte_ok in *.
  repeat match goal with
  | |- context [obind (rd ?l ?i) _] =>
      destruct (rd_in_range l i) as (? & -> & _); [bool_prop; lia|]; cbn [obind]
  | |- context [oguard ?b] => destruct b eqn:?; cbn [obind oguard]; try discriminate
  | |- context [if ?b then _ else _] => destruct b eqn:?; cbn [obind oguard]; try discriminate
  end.
Qed.

(** One of the three copies into a fixed array, skipped when empty. *)
Lemma safe_copy n k (f : bytes -> RtpContext -> RtpContext) p c :
  0 <= n <= Z.of_nat k -> 0 <= p -> p + n <= blen inp -> context_ok c ->
  (forall arr r, rtp_ok r -> length arr = k -> bytes_ok arr -> rtp_ok (f arr r)) ->
  wp (if 0 <? n
      then o <- next_n inp n ;; arr <- lift (overwrite (repeat 0 k) o) ;; upd_rtp (f arr)
      else ret tt)
    (fun _ s => d_pos s = p + n /\ context_ok (d_ctx s)) (fun _ => True) (mkdst p c).
Proof.
  intros Hn Hp Hl Hc Hf. safe_go; (split; [lia|done]).
Qed.

Ltac copy f :=
  repeat (lazymatch goal with |- wp (if _ then _ else _) _ _ _ => fail | _ => safe_step end);
  eapply wp_call; [apply (safe_copy _ _ f); try side; auto 50 with ctxok|];
  intros ? ? ?; cbn [d_pos d_ctx]; intros [-> ?].

Lemma safe_rtp_extras p c :
  0 <= p <= blen inp -> context_ok c -> keeps inp (read_rtp_extras_list inp) (p + 1) p c.
Proof.
  intros Hp Hc. pose proof Hsize as Hs. unfold size_ok in Hs.
  unfold keeps, read_rtp_extras_list.
  repeat (lazymatch goal with
          | |- wp (guard (usub _ _ =? _)) _ _ _ => fail
          | _ => safe_step end); [ctx_ok|].
  rewrite usub_small by lia. unfold upd_rtp. safe_step.
  copy (fun arr r => r <| csrc_list := arr |>).
  copy (fun arr r => r <| extension_bytes := arr |>).
  copy (fun arr r => r <| padding_bytes := arr |>).
  safe_go. apply wp_lift.
  destruct (rtp_extras_body_len _) as [bl| |] eqn:En; [|done|by eapply extras_body_len_safe].
  safe_go. split; [lia|done].
Qed.

End Reading.

(** ** The legacy decoders *)

Section Decoders.
Context (inp : bytes).
Hypothesis Hsize : size_ok (blen inp).
Hypothesis Hbytes : bytes_ok inp.

(** The header length a decoder answers lies in the input, and the context
    it leaves is well formed. *)
Definition decodes (m : M dst Z) (c : Context) : Prop :=
  wp m (fun n s => 0 <= n <= blen inp /\ context_ok (d_ctx s)) (fun _ => True) (mkdst 0 c).

Lemma safe_legacy_prefix n pr c :
  4 <= n -> context_ok c ->
  wp (read_legacy_prefix inp n pr)
    (fun _ s => 3 <= d_pos s <= blen inp /\ d_ctx s = c) (fun _ => True) (mkdst 0 c).
Proof.
  intros Hn Hc. pose proof (encoded_len_bound (cid c)). unfold read_legacy_prefix. safe_go.
  all: apply wp_need; [done|lia|intros]; safe_go; call safe_large_cid; subst; safe_go.
  all: apply wp_need; [done|destruct (large_cid c); lia|intros];
    destruct (large_cid c); safe_go; (split; [lia|done]).
Qed.

Ltac prefix n pr :=
  eapply wp_call; [apply (safe_legacy_prefix n pr); [lia|done]|];
  intros [received_crc crc_index] p c' [Hp Hc']; cbn [d_pos d_ctx fst snd] in *; subst c'.

Ltac legacy_step :=
  first
    [ lazymatch goal with
      | |- wp (need inp _) _ _ _ => apply wp_need; [done|lia|intros]
      | |- wp (read_ip_static_chain inp) _ _ _ => call safe_ip_static_chain
      | |- wp (read_legacy_ip_dynamic_consistent inp) _ _ _ => call safe_ip_dynamic_consistent
      | |- wp (check_crc8 inp _ _) _ _ _ => apply wp_check_crc8; [lia|]
      | |- wp (read_legacy_mode inp) _ _ _ => call safe_legacy_mode
      | |- wp (protocol_is _) _ _ _ => unfold protocol_is
      | |- wp (read_udp_ports inp) _ _ _ => unfold read_udp_ports
      | |- wp (read_rtp_extras_list inp) _ _ _ => call safe_rtp_extras
      | |- wp (read_legacy_rtp_dynamic inp) _ _ _ => unfold read_legacy_rtp_dynamic
      | |- wp (require_left inp _) _ _ _ => unfold require_left
      end
    | safe_step ].

Lemma safe_esp_legacy c : context_ok c -> decodes (decode_ir_esp_legacy inp) c.
Proof.
  intros Hc. unfold decodes, decode_ir_esp_legacy. safe_go. prefix 20 0x03.
  repeat legacy_step. ctx_ok.
Qed.

Lemma safe_ip_legacy c : context_ok c -> decodes (decode_ir_ip_legacy inp) c.
Proof.
  intros Hc. unfold decodes, decode_ir_ip_legacy. safe_go. prefix 20 0x04.
  repeat legacy_step. ctx_ok.
Qed.

Lemma safe_udp_lite_legacy c : context_ok c -> decodes (decode_ir_udp_lite_legacy inp) c.
Proof.
  intros Hc. unfold decodes, decode_ir_udp_lite_legacy. safe_go. prefix 28 0x08.
  repeat legacy_step. ctx_ok.
Qed.

Lemma safe_udp_legacy c : context_ok c -> decodes (decode_ir_udp_legacy inp) c.
Proof.
  intros Hc. unfold decodes, decode_ir_udp_legacy. safe_go. prefix 26 0x02.
  repeat legacy_step. ctx_ok.
Qed.

Lemma commit_rtp_ok c :
  context_ok c ->
  rtp_ok (rtp c <| seq_window := LsbWindow.init (last_seq (rtp c)) |>
                <| ts_window := LsbWindow.init (last_ts (rtp c)) |>
                <| ts_residue := if ts_stride (rtp c) =? 0 then 0
                                 else last_ts (rtp c) mod ts_stride (rtp c) |>
                <| initialized := 1 |>).
Proof.
  intros Hc. pose proof (ok_last_seq c Hc). pose proof (ok_last_ts c Hc).
  assert (Hr : 0 <= (if ts_stride (rtp c) =? 0 then 0 else last_ts (rtp c) mod ts_stride (rtp c)) < 2 ^ 32).
  { apply ok_rtp in Hc. unfold rtp_ok in Hc. decompose [and] Hc.
    destruct (Z.eqb_spec (ts_stride (rtp c)) 0); [lia|].
    pose proof (Z.mod_pos_bound (last_ts (rtp c)) (ts_stride (rtp c)) ltac:(lia)). lia. }
  apply ok_rtp in Hc. unfold LsbWindow.init. auto 50 with ctxok.
Qed.

Lemma commit_legacy_rtp_ok pr c :
  context_ok c ->
  context_ok (c <| ipv4_id_sequential := false |>
    <| rtp := rtp c <| seq_window := LsbWindow.init (last_seq (rtp c)) |>
                <| ts_window := LsbWindow.init (last_ts (rtp c)) |>
                <| ts_residue := if ts_stride (rtp c) =? 0 then 0
                                 else last_ts (rtp c) mod ts_stride (rtp c) |>
                <| initialized := 1 |> |>
    <| profile := pr |> <| rohc_state := DynamicEstablished |>).
Proof. intros Hc. pose proof (commit_rtp_ok c Hc). auto 50 with ctxok. Qed.

Ltac commit_ok :=
  lazymatch goal with
  | |- wp (commit_legacy_rtp _) _ _ _ =>
      unfold commit_legacy_rtp; apply wp_upd; cbn [d_pos d_ctx]; safe_go;
      split; [lia|apply commit_legacy_rtp_ok]
  end.

Lemma safe_rtp_legacy c : context_ok c -> decodes (decode_ir_rtp_legacy inp) c.
Proof.
  intros Hc. unfold decodes, decode_ir_rtp_legacy. safe_go. prefix 4 0x01.
  repeat legacy_step. commit_ok. done.
Qed.

Lemma safe_rtp_udp_lite_legacy c :
  context_ok c -> decodes (decode_ir_rtp_udp_lite_legacy inp) c.
Proof.
  intros Hc. unfold decodes, decode_ir_rtp_udp_lite_legacy. safe_go. prefix 41 0x07.
  repeat legacy_step. commit_ok. done.
Qed.

(** ** The standard decoder *)

Lemma safe_standard_ip_static p c :
  0 <= p <= blen inp -> context_ok c -> keeps inp (read_standard_ip_static inp) (p + 1) p c.
Proof. intros Hp Hc. unfold keeps, read_standard_ip_static. safe_go; ctx_ok. Qed.

Lemma safe_standard_ip_dynamic e p c :
  0 <= p <= blen inp -> context_ok c -> keeps inp (read_standard_ip_dynamic inp e) p p c.
Proof.
  intros Hp Hc. unfold keeps, read_standard_ip_dynamic. destruct e; safe_go; ctx_ok.
Qed.

Lemma safe_standard_prefix pr c :
  context_ok c ->
  wp (read_standard_ir_prefix inp pr)
    (fun _ s => 3 <= d_pos s <= blen inp /\ d_ctx s = c) (fun _ => True) (mkdst 0 c).
Proof.
  intros Hc. unfold read_standard_ir_prefix. safe_go; (split; [lia|done]).
Qed.

Lemma safe_standard_udp p c :
  0 <= p <= blen inp -> context_ok c -> keeps inp (decode_standard_udp inp) p p c.
Proof. intros Hp Hc. unfold keeps, decode_standard_udp. repeat legacy_step. ctx_ok. Qed.

Lemma safe_standard_esp p c :
  0 <= p <= blen inp -> context_ok c -> keeps inp (decode_standard_esp inp) p p c.
Proof. intros Hp Hc. unfold keeps, decode_standard_esp. repeat legacy_step. ctx_ok. Qed.

Lemma safe_standard_rtp before p c :
  0 <= p <= blen inp -> context_ok before -> context_ok c ->
  keeps inp (decode_standard_rtp inp before) p p c.
Proof.
  intros Hp Hb Hc. unfold keeps, decode_standard_rtp. repeat legacy_step.
  apply wp_upd_ok; [destruct (_ && _); auto 50 with ctxok|intros].
  apply wp_upd_ok; [unfold LsbWindow.init; auto 50 with ctxok rohc|intros].
  cbn [d_pos d_ctx]. split; [lia|done].
Qed.

Ltac standard_step :=
  first
    [ lazymatch goal with
      | |- wp (if _ then _ else _) _ _ _ =>
          first [ apply wp_if_true; [reflexivity|] | apply wp_if_false; [reflexivity|] ]
      | |- wp (read_standard_ip_dynamic inp _) _ _ _ => call safe_standard_ip_dynamic
      | |- wp (decode_standard_udp inp) _ _ _ => call safe_standard_udp
      | |- wp (decode_standard_esp inp) _ _ _ => call safe_standard_esp
      | |- wp (decode_standard_rtp inp _) _ _ _ => call safe_standard_rtp
      end
    | legacy_step ].

(** The decoder of any of the four standard profiles. *)
Lemma safe_standard pr octet c : context_ok c -> decodes (decode_ir_standard inp pr octet) c.
Proof.
  intros Hc. unfold decodes, decode_ir_standard. safe_go.
  eapply wp_call; [by apply safe_standard_prefix|]. intros h p c' [Hp Hc']. cbn [d_pos d_ctx] in *.
  subst c'. safe_go. call safe_standard_ip_static.
  destruct pr; repeat standard_step; ctx_ok.
Qed.

(** ** The IR-DYN decoders *)

Ltac on_guard :=
  match goal with
  | |- context [oguard ?b] => destruct b eqn:?; cbn [obind oguard]; [bool_prop|done]
  end.

Lemma ip_dynamic_extra_safe p c :
  0 <= p ->
  match ip_dynamic_extra_len inp p c with Ok n => 0 <= n | Rej => True | Ub => False end.
Proof.
  intros Hp. unfold ip_dynamic_extra_len, ipv4_options_extra_len. cbv zeta.
  destruct (ip_version c =? 6);
    (on_guard;
     match goal with |- context [rd inp ?i] => destruct (rd_in_range inp i) as (m & -> & _); [lia|] end;
     cbn [obind oguard]; destruct (is_empty_list m); [lia|];
     repeat on_guard; lia).
Qed.

Lemma rtp_dynamic_extra_safe p :
  0 <= p ->
  match rtp_dynamic_extra_len inp p with Ok n => 0 <= n | Rej => True | Ub => False end.
Proof.
  intros Hp. unfold rtp_dynamic_extra_len.
  destruct (Z.ltb_spec p (blen inp)); cbn [obind oguard]; [|done].
  destruct (rd_in_range inp p) as (m & -> & _); [lia|]. cbn [obind].
  destruct (is_empty_list m); [lia|]. destruct (m =? _); cbn [obind oguard]; [|done].
  destruct (tail_from_in_range inp (p + 1)) as (t & -> & _ & Ht); [lia|]. cbn [obind].
  pose proof (read_large_inv t (Ht Hbytes)) as X. unfold read_sdvl_14.
  destruct (read_large t) as [[v n]| |] eqn:E; cbn [obind]; [|done|done].
  apply read_large_bounds in E; [|auto]. on_guard. lia.
Qed.

Definition cid_octets (c : Context) : Z := small_cid_len c + large_cid_len c.

Lemma cid_octets_bound c : 0 <= cid_octets c <= 2.
Proof.
  unfold cid_octets, small_cid_len, large_cid_len, has_small_cid.
  pose proof (encoded_len_bound (cid c)). destruct (large_cid c), (0 <? cid c); cbn [negb andb]; lia.
Qed.

Lemma safe_dyn_octets pr c :
  5 <= blen inp ->
  wp (read_dyn_octets inp pr)
    (fun _ s => d_pos s = 3 + cid_octets c /\ d_pos s <= blen inp /\ d_ctx s = c)
    (fun _ => True) (mkdst 0 c).
Proof.
  intros Hl. unfold read_dyn_octets, cid_octets, small_cid_len, large_cid_len, has_small_cid.
  pose proof (encoded_len_bound (cid c)). safe_go; call safe_large_cid; subst;
    destruct (large_cid c); try discriminate; cbn [negb andb] in *;
    try (destruct (0 <? cid c) eqn:?; try discriminate); bool_prop; try lia; safe_go;
    repeat split; lia.
Qed.

Lemma safe_dyn_prefix n pr c :
  5 <= n ->
  wp (read_dyn_prefix inp n pr)
    (fun _ s => d_pos s = 3 + cid_octets c /\ d_pos s <= blen inp /\ d_ctx s = c)
    (fun _ => True) (mkdst 0 c).
Proof.
  intros Hn. unfold read_dyn_prefix. safe_go. all: call (safe_dyn_octets pr); auto.
Qed.

(** An accepted candidate length lies in the input. *)
Lemma wp_crc n i r p c (Q : bool -> dst -> Prop) R :
  0 <= n -> (forall b, (b = true -> n <= blen inp) -> Q b (mkdst p c)) ->
  wp (lift (crc8_exact_matches inp n i r)) Q R (mkdst p c).
Proof.
  intros Hn HQ. destruct (crc8_exact_safe inp n i r Hn) as (b & E & Hb).
  apply wp_lift. rewrite E. auto.
Qed.

Lemma wp_ip_extra p c (Q : Z -> dst -> Prop) :
  0 <= p ->
  (forall x, 0 <= x -> ip_dynamic_extra_len inp p c = Ok x -> Q x (mkdst p c)) ->
  wp (lift (ip_dynamic_extra_len inp p c)) Q (fun _ => True) (mkdst p c).
Proof.
  intros Hp HQ. pose proof (ip_dynamic_extra_safe p c Hp). apply wp_lift.
  destruct (ip_dynamic_extra_len inp p c); auto.
Qed.

Lemma delta_bound c : 0 <= ipv6_dynamic_delta c <= 1.
Proof. unfold ipv6_dynamic_delta. destruct (_ =? 6); lia. Qed.

Lemma safe_dyn_ip n r c :
  9 <= n -> context_ok c -> 3 + cid_octets c <= blen inp ->
  wp (read_dyn_ip inp n r)
    (fun h s => h = d_pos s + n - 9 /\ 6 <= d_pos s /\ h <= blen inp /\ context_ok (d_ctx s))
    (fun _ => True) (mkdst (3 + cid_octets c) c).
Proof.
  intros Hn Hc Hp. pose proof (cid_octets_bound c). pose proof (delta_bound c).
  unfold read_dyn_ip. safe_go. apply wp_ip_extra; [lia|]. intros x Hx Ex.
  safe_step. apply wp_crc; [unfold cid_octets in *; lia|]. intros b Hb. safe_go.
  specialize (Hb ltac:(done)). call (safe_ip_dynamic_known inp Hsize Hbytes x). safe_go. unfold cid_octets in *.
  split_all; [lia..|done].
Qed.

Ltac dyn_prefix n pr :=
  eapply wp_call; [apply (safe_dyn_prefix n pr); lia|]; intros crc p c' (Hq & Hp & Hc');
  cbn [d_pos d_ctx] in *; subst p c'; safe_go; call safe_dyn_ip.

Lemma safe_dyn_esp c : context_ok c -> decodes (decode_ir_dyn_esp inp) c.
Proof.
  intros Hc. unfold decodes, decode_ir_dyn_esp. safe_go. dyn_prefix 9 3. safe_go. ctx_ok.
Qed.

Lemma safe_dyn_ip_profile c : context_ok c -> decodes (decode_ir_dyn_ip inp) c.
Proof.
  intros Hc. unfold decodes, decode_ir_dyn_ip. safe_go. dyn_prefix 9 4. safe_go. ctx_ok.
Qed.

Lemma safe_dyn_udp_lite c : context_ok c -> decodes (decode_ir_dyn_udp_lite inp) c.
Proof.
  intros Hc. unfold decodes, decode_ir_dyn_udp_lite. safe_go. dyn_prefix 13 8. safe_go. ctx_ok.
Qed.

Lemma safe_dyn_udp c : context_ok c -> decodes (decode_ir_dyn_udp inp) c.
Proof.
  intros Hc. unfold decodes, decode_ir_dyn_udp. safe_go. dyn_prefix 11 2. safe_go. ctx_ok.
Qed.

Lemma wp_rtp_extra p q c (Q : Z -> dst -> Prop) :
  0 <= p -> (forall x, 0 <= x -> Q x (mkdst q c)) ->
  wp (lift (rtp_dynamic_extra_len inp p)) Q (fun _ => True) (mkdst q c).
Proof.
  intros Hp HQ. pose proof (rtp_dynamic_extra_safe p Hp). apply wp_lift.
  destruct (rtp_dynamic_extra_len inp p); auto.
Qed.

(** The length the CRC confirmed covers the two CRC-bearing chains and the
    RTP octets the decoder goes on to read. *)
Lemma safe_check_dyn_rtp fixed udp r c :
  20 <= fixed -> 0 <= udp ->
  wp (check_dyn_rtp inp fixed udp r)
    (fun n s => s = mkdst (3 + cid_octets c) c /\ n <= blen inp /\
       exists x, ip_dynamic_extra_len inp (3 + cid_octets c) c = Ok x /\
                 fixed + cid_octets c + ipv6_dynamic_delta c + x <= n)
    (fun _ => True) (mkdst (3 + cid_octets c) c).
Proof.
  intros Hf Hu. pose proof (cid_octets_bound c). pose proof (delta_bound c).
  unfold check_dyn_rtp. safe_go. apply wp_ip_extra; [lia|]. intros x Hx Ex. safe_go.
  apply wp_rtp_extra; [destruct (ip_version c =? 6); lia|]. intros y Hy. safe_step.
  apply wp_crc; [unfold cid_octets in *; lia|]. intros b Hb. safe_go.
  specialize (Hb ltac:(done)). split; [done|]. split; [lia|].
  exists x. split; [done|]. unfold cid_octets. lia.
Qed.

Lemma infer_ok (b : bool) s t r :
  0 <= t < 2 ^ 32 -> rtp_ok r ->
  rtp_ok (if b then r
          else match infer_timestamp_stride (last_seq r) (last_ts r) s t with
               | Some (stride, res) => r <| ts_stride := stride |> <| ts_residue := res |>
               | None => r
               end).
Proof.
  intros Ht Hr. destruct b; [done|].
  apply (stride_ok true r (last_seq r) (last_ts r) s t); [|done..].
  unfold rtp_ok in Hr. by decompose [and] Hr.
Qed.

Lemma safe_read_dyn_rtp before n p c :
  0 <= p -> p + 9 <= n <= blen inp -> context_ok c ->
  wp (read_dyn_rtp inp before n) (fun _ s => d_pos s = n /\ context_ok (d_ctx s))
    (fun _ => True) (mkdst p c).
Proof.
  intros Hp Hn Hc. unfold read_dyn_rtp. pose proof infer_ok as Hinf. safe_go.
  match goal with H : blen ?h = n |- _ =>
    assert (size_ok (blen h)) by (unfold size_ok in *; lia) end.
  call safe_rtp_extras. safe_go. ctx_ok.
Qed.

Lemma safe_commit_dyn_rtp p c :
  context_ok c ->
  wp commit_dyn_rtp (fun _ s => d_pos s = p /\ context_ok (d_ctx s)) (fun _ => True) (mkdst p c).
Proof.
  intros Hc. unfold commit_dyn_rtp. apply wp_upd. cbn [d_pos d_ctx]. split; [done|].
  cbv zeta. pose proof (commit_rtp_ok c Hc). auto with ctxok.
Qed.

Ltac dyn_rtp pr :=
  safe_go;
  eapply wp_call; [apply (safe_dyn_octets pr); unfold cid_octets in *; lia|];
  intros crc p c' (Hq & Hp & Hc'); cbn [d_pos d_ctx] in *; subst p c'; safe_go;
  eapply wp_call; [apply safe_check_dyn_rtp; lia|];
  intros n p c' (E & Hn & x & Ex & Hx); injection E as -> ->; safe_go;
  call (safe_ip_dynamic_known inp Hsize Hbytes x); safe_go;
  call safe_read_dyn_rtp; safe_go; call safe_commit_dyn_rtp; safe_go; ctx_ok.

Lemma safe_dyn_rtp c : context_ok c -> decodes (decode_ir_dyn_rtp inp) c.
Proof.
  intros Hc. pose proof (cid_octets_bound c) as Hco. pose proof (delta_bound c) as Hd.
  unfold decodes, decode_ir_dyn_rtp. dyn_rtp 1.
Qed.

Lemma safe_dyn_rtp_udp_lite c : context_ok c -> decodes (decode_ir_dyn_rtp_udp_lite inp) c.
Proof.
  intros Hc. pose proof (cid_octets_bound c) as Hco. pose proof (delta_bound c) as Hd.
  unfold decodes, decode_ir_dyn_rtp_udp_lite. dyn_rtp 7.
Qed.
End Decoders.
