(* ===== verification/IrProperties.v ===== *)
(** * What the IR packets guarantee

    The four standard profiles together: what their emitters answer, that the
    decoder reads back what they wrote, that trying the legacy reading beside
    the standard one can refuse such a packet but never misread it, and that
    every IR and IR-DYN decoder is memory safe on arbitrary octets. *)

From S2P Require Import Prelude Crc Cid Encoding Context Cursor Chains EmitIr DecodeIr.
From S2P Require Import StandardIr DecodeIrDyn Safety.

(** ** The profiles with a standard IR packet *)

Inductive StandardProfile := StdIP | StdESP | StdUDP | StdRTP.

Definition as_profile (p : StandardProfile) : Profile :=
  match p with StdIP => IP | StdESP => ESP | StdUDP => UDP | StdRTP => RTP end.

Definition profile_octet (p : StandardProfile) : Z :=
  match p with StdIP => 0x04 | StdESP => 0x03 | StdUDP => 0x02 | StdRTP => 0x01 end.

Definition emit_ir (p : StandardProfile) : Z -> Context -> outcome bytes :=
  match p with
  | StdIP => emit_ir_ip | StdESP => emit_ir_esp | StdUDP => emit_ir_udp | StdRTP => emit_ir_rtp
  end.

Definition decode_ir (p : StandardProfile) : bytes -> Context -> outcome (Context * Z) :=
  match p with
  | StdIP => decode_ir_ip | StdESP => decode_ir_esp | StdUDP => decode_ir_udp
  | StdRTP => decode_ir_rtp
  end.

Definition legacy_decoder (p : StandardProfile) : bytes -> M dst Z :=
  match p with
  | StdIP => decode_ir_ip_legacy | StdESP => decode_ir_esp_legacy
  | StdUDP => decode_ir_udp_legacy | StdRTP => decode_ir_rtp_legacy
  end.

(** The contexts a profile can describe: one address family and a
    well-formed DF bit; for RTP a header without CSRC list or extension. *)
Definition expressible (p : StandardProfile) (ctx : Context) : bool :=
  standard_ip_ok ctx && match p with StdRTP => standard_rtp_ok ctx | _ => true end.

(** The protocol the profile compresses follows the IP header. *)
Definition carries (p : StandardProfile) (ctx : Context) : Prop :=
  match p with
  | StdIP => True | StdESP => terminal_protocol ctx = 50 | _ => terminal_protocol ctx = 17
  end.

Definition chains (p : StandardProfile) (ctx : Context) : bytes :=
  match p with
  | StdIP => ip_chains ctx | StdESP => esp_chains ctx | StdUDP => udp_chains ctx
  | StdRTP => rtp_chains ctx
  end.

Definition header (p : StandardProfile) (ctx : Context) : bytes :=
  ir_packet ctx 0xFD (profile_octet p) (chains p ctx).

(** The context a receiver [rx] is left with. *)
Definition image (p : StandardProfile) (tx rx : Context) : Context :=
  match p with
  | StdIP => ip_image tx rx | StdESP => esp_image tx rx | StdUDP => udp_image tx rx
  | StdRTP => rtp_image tx rx
  end.

(** Both ends use the same context identifier. *)
Definition same_channel (tx rx : Context) : Prop :=
  cid rx = cid tx /\ large_cid rx = large_cid tx.

Lemma addresses_of ctx : context_ok ctx -> addresses_ok ctx.
Proof.
  intros H. destruct (ok_ipv6_saddr ctx H), (ok_ipv6_daddr ctx H).
  unfold addresses_ok, blen in *. lia.
Qed.

Lemma decode_ir_is p inp rx :
  decode_ir p inp rx =
  decode_ir_compatible inp rx (as_profile p) (profile_octet p) (legacy_decoder p).
Proof. by destruct p. Qed.

Lemma cid_nonneg ctx : context_ok ctx -> 0 <= cid ctx.
Proof. intros H. unfold context_ok, control_ok in H. by decompose [and] H. Qed.

Lemma emitted p out_len ctx :
  context_ok ctx ->
  emit_ir p out_len ctx = deliver out_len (cid_ok ctx && expressible p ctx) (header p ctx).
Proof.
  intros H. pose proof (addresses_of ctx H). pose proof (cid_nonneg ctx H). unfold expressible.
  destruct p; cbn [emit_ir]; rewrite ?andb_true_r.
  - by rewrite emit_ir_ip_spec.
  - by rewrite emit_ir_esp_spec.
  - by rewrite emit_ir_udp_spec.
  - by rewrite emit_ir_rtp_spec.
Qed.

Lemma run_decoder_wp d inp rx n c :
  wp (d inp) (fun v s => v = n /\ d_ctx s = c) (fun _ => False) (mkdst 0 rx) ->
  run_decoder d inp rx = Ok (c, n).
Proof.
  unfold wp, run_decoder. destruct (d inp (mkdst 0 rx)) as [[v| |] s]; [|done|done].
  by intros [-> ->].
Qed.

(** The header, whatever follows it, leaves the receiver with its image. *)
Lemma header_decoded p tx rx payload :
  context_ok tx -> cid_ok tx = true -> expressible p tx = true -> carries p tx ->
  same_channel tx rx -> size_ok (blen (header p tx ++ payload)) ->
  run_decoder (fun i => decode_ir_standard i (as_profile p) (profile_octet p))
    (header p tx ++ payload) rx = Ok (image p tx rx, blen (header p tx)).
Proof.
  intros Htx Hcid Hexp Hcar [Hc Hl] Hs. unfold expressible in Hexp. bool_prop.
  apply run_decoder_wp. destruct p; cbn [as_profile profile_octet image].
  - by apply decode_ip_at.
  - by apply decode_esp_at.
  - by apply decode_udp_at.
  - by apply decode_rtp_at.
Qed.

(** ** Emission *)

(** The emitter of a standard profile answers exactly one packet - the
    optional Add-CID octet, the type octet 0xFD, the optional large CID, the
    profile octet, the CRC-8 of the header with that octet zero, and the static
    and dynamic chains - when the context is expressible, its CID encodable and
    the packet fits; otherwise it refuses, and it never writes outside its
    buffer. *)
Theorem standard_ir_emission p out_len ctx :
  context_ok ctx ->
  emit_ir p out_len ctx =
  if (cid_ok ctx && expressible p ctx) && (blen (header p ctx) <=? out_len)
  then Ok (header p ctx) else Rej.
Proof. apply emitted. Qed.

(** A call seen by the compressor: an RTP stream over IPv4. *)
Definition sample_sender : Context :=
  initial_context <| ip_version := 4 |> <| ipv4_protocol := 17 |> <| ipv4_ttl := 64 |>
    <| ipv4_saddr := 0x0A000001 |> <| ipv4_daddr := 0x0A000002 |> <| ipv4_id := 7 |>
    <| ipv4_id_behavior := 2 |> <| udp_sport := 5004 |> <| udp_dport := 5006 |>
    <| udp_check := 0x1234 |> <| cid := 3 |>
    <| rtp := rtp initial_context <| vpxcc := 0x80 |> <| last_seq := 100 |> <| last_ts := 16000 |>
                                  <| ssrc := 0xCAFE |> |>.
Definition sample_receiver : Context := initial_context <| cid := 3 |>.

#[local] Hint Extern 5 (byte_ok _) => unfold byte_ok; lia : ctxok.
#[local] Hint Extern 5 (_ <= _ < _) => lia : ctxok.

Lemma sample_sender_ok : context_ok sample_sender.
Proof. unfold sample_sender. pose proof initial_context_ok. auto 50 with ctxok. Qed.

Lemma sample_receiver_ok : context_ok sample_receiver.
Proof. unfold sample_receiver. pose proof initial_context_ok. auto 50 with ctxok. Qed.

Lemma standard_ir_emission_witness :
  exists packet, emit_ir StdRTP 64 sample_sender = Ok packet /\ blen packet = 37.
Proof.
  rewrite (standard_ir_emission StdRTP 64 sample_sender sample_sender_ok).
  eexists. split; vm_compute; reflexivity.
Defined.

(** ** Reading it back *)

(** C27: what an emitter wrote, followed by any payload, is decoded by the
    standard reading of its profile on any receiver of the same channel: the
    decoder consumes exactly the header and leaves the receiver's context
    equal to [image], every static and dynamic field transferred. *)
Theorem standard_ir_roundtrip p tx rx out_len packet payload :
  context_ok tx -> carries p tx -> same_channel tx rx ->
  emit_ir p out_len tx = Ok packet -> size_ok (blen (packet ++ payload)) ->
  run_decoder (fun i => decode_ir_standard i (as_profile p) (profile_octet p))
    (packet ++ payload) rx = Ok (image p tx rx, blen packet).
Proof.
  intros Htx Hcar Hch E Hs. rewrite (emitted p out_len tx Htx) in E. unfold deliver in E.
  destruct (_ && _) eqn:H in E; [|done]. injection E as <-. bool_prop. by apply header_decoded.
Qed.

Lemma standard_ir_roundtrip_witness :
  exists packet, emit_ir StdRTP 64 sample_sender = Ok packet /\
  run_decoder (fun i => decode_ir_standard i RTP 0x01) (packet ++ [1; 2; 3]) sample_receiver =
  Ok (image StdRTP sample_sender sample_receiver, 37).
Proof.
  destruct (emit_ir StdRTP 64 sample_sender) as [packet| |] eqn:E;
    [|vm_compute in E; discriminate..].
  exists packet. split; [done|].
  pose proof (standard_ir_roundtrip StdRTP sample_sender sample_receiver 64 packet [1; 2; 3]
    sample_sender_ok eq_refl (conj eq_refl eq_refl) E) as H.
  vm_compute in E. injection E as <-. apply H. vm_compute. by split.
Defined.

(** Every emitted octet is one. *)
Lemma land_byte a b : 0 <= b < 256 -> byte_ok (Z.land a b).
Proof. intros H. pose proof (land_range a b ltac:(lia)). unfold byte_ok. lia. Qed.

Ltac octets :=
  repeat first
    [ apply bytes_ok_app; split | apply bytes_ok_cons; split | apply bytes_ok_nil | apply bytes_ok_be16
    | apply bytes_ok_be32 | apply lor_byte | apply byte_u8 | apply land_byte | case_match ];
  try (unfold byte_ok; lia).

Lemma ip_octets_ok ctx e :
  context_ok ctx -> bytes_ok (ip_static_octets ctx) /\ bytes_ok (ip_dynamic_octets ctx e).
Proof.
  intros H. destruct (ok_ipv6_saddr ctx H), (ok_ipv6_daddr ctx H).
  pose proof (df_bound ctx). pose proof (ratio_bound ctx). pose proof (id_behavior_bound ctx).
  unfold context_ok, ipv4_ok, ipv6_ok in H. decompose [and] H.
  unfold ip_static_octets, ip_dynamic_octets, ip_control. split; octets; try assumption;
    rewrite Z.shiftl_mul_pow2; unfold byte_ok; lia.
Qed.

Lemma chains_ok p ctx : context_ok ctx -> bytes_ok (chains p ctx).
Proof.
  intros H. pose proof (ip_octets_ok ctx true H) as [? ?]. pose proof (ip_octets_ok ctx false H) as [? ?].
  pose proof (ratio_bound ctx). unfold context_ok, transport_ok, rtp_ok in H. decompose [and] H.
  unfold chains, ip_chains, esp_chains, udp_chains, rtp_chains, udp_static_octets,
    udp_endpoint_octets, esp_dynamic_octets, rtp_dynamic_octets.
  octets; try assumption. rewrite Z.shiftl_mul_pow2; unfold byte_ok; lia.
Qed.

Lemma head_ok p ctx crc :
  context_ok ctx -> cid_ok ctx = true -> byte_ok crc ->
  bytes_ok (ir_head ctx 0xFD (profile_octet p) crc).
Proof.
  intros H Hc Hcrc. pose proof (cid_nonneg ctx H).
  unfold ir_head, add_cid_octets, large_cid_octets, cid_ok, is_valid_for_space in *.
  octets; try assumption; try (destruct p; unfold byte_ok; cbn; lia).
  apply large_octets_ok. destruct (large_cid ctx); [|done].
  bool_prop. unfold large_cid_max in *. lia.
Qed.

Lemma header_ok p ctx : context_ok ctx -> cid_ok ctx = true -> bytes_ok (header p ctx).
Proof.
  intros H Hc. pose proof (chains_ok p ctx H). unfold header, ir_packet.
  apply bytes_ok_app; split; [|done]. apply head_ok; [done|done|].
  apply crc8_bound, bytes_ok_app; split; [|done]. apply head_ok; [done|done|unfold byte_ok; lia].
Qed.

Lemma run_decoder_safe d inp rx :
  decodes inp (d inp) rx ->
  match run_decoder d inp rx with
  | Ok (c, n) => context_ok c /\ 0 <= n <= blen inp | Rej => True | Ub => False
  end.
Proof.
  unfold decodes, wp, run_decoder. destruct (d inp (mkdst 0 rx)) as [[v| |] s]; [|done|done].
  intros [? ?]. by split.
Qed.

Lemma legacy_safe p inp rx :
  size_ok (blen inp) -> bytes_ok inp -> context_ok rx -> decodes inp (legacy_decoder p inp) rx.
Proof.
  intros. destruct p; cbn [legacy_decoder];
    [by apply safe_ip_legacy|by apply safe_esp_legacy|by apply safe_udp_legacy|by apply safe_rtp_legacy].
Qed.

Lemma decoded_or_refused p tx rx payload :
  context_ok tx -> context_ok rx -> cid_ok tx = true -> expressible p tx = true -> carries p tx ->
  same_channel tx rx -> bytes_ok payload -> size_ok (blen (header p tx ++ payload)) ->
  decode_ir p (header p tx ++ payload) rx = Ok (image p tx rx, blen (header p tx)) \/
  decode_ir p (header p tx ++ payload) rx = Rej /\
  exists r, run_decoder (legacy_decoder p) (header p tx ++ payload) rx = Ok r.
Proof.
  intros Htx Hrx Hcid Hexp Hcar Hch Hpay Hs.
  rewrite decode_ir_is. unfold decode_ir_compatible. rewrite header_decoded by done.
  assert (Hb : bytes_ok (header p tx ++ payload)) by (apply bytes_ok_app; auto using header_ok).
  pose proof (run_decoder_safe _ _ rx (legacy_safe p _ rx Hs Hb Hrx)) as Hsafe.
  destruct (run_decoder (legacy_decoder p) _ rx) as [[lc ll]| |]; [|by left|done].
  destruct (_ || _); [right; eauto|by left].
Qed.

(** Trying the legacy reading as well never makes a decoder misread a
    standard packet: whatever payload follows, the answer is the right header
    length and context, or a refusal, and a refusal only when the legacy
    decoder of the profile accepts the same octets. *)
Theorem compatible_decoding_agrees p tx rx out_len packet payload :
  context_ok tx -> context_ok rx -> carries p tx -> same_channel tx rx ->
  emit_ir p out_len tx = Ok packet -> bytes_ok payload -> size_ok (blen (packet ++ payload)) ->
  decode_ir p (packet ++ payload) rx = Ok (image p tx rx, blen packet) \/
  decode_ir p (packet ++ payload) rx = Rej /\
  exists r, run_decoder (legacy_decoder p) (packet ++ payload) rx = Ok r.
Proof.
  intros Htx Hrx Hcar Hch E Hpay Hs. rewrite (emitted p out_len tx Htx) in E. unfold deliver in E.
  destruct (_ && _) eqn:H in E; [|done]. injection E as <-. bool_prop. by apply decoded_or_refused.
Qed.

Lemma compatible_decoding_agrees_witness :
  exists packet, emit_ir StdRTP 64 sample_sender = Ok packet /\
  (decode_ir StdRTP (packet ++ [1; 2; 3]) sample_receiver =
     Ok (image StdRTP sample_sender sample_receiver, blen packet) \/
   decode_ir StdRTP (packet ++ [1; 2; 3]) sample_receiver = Rej /\
   exists r, run_decoder (legacy_decoder StdRTP) (packet ++ [1; 2; 3]) sample_receiver = Ok r).
Proof.
  destruct (emit_ir StdRTP 64 sample_sender) as [packet| |] eqn:E;
    [|vm_compute in E; discriminate..].
  exists packet. split; [done|].
  apply (compatible_decoding_agrees StdRTP sample_sender sample_receiver 64 packet [1; 2; 3]);
    [exact sample_sender_ok|exact sample_receiver_ok|exact eq_refl|exact (conj eq_refl eq_refl)|exact E| |].
  - repeat constructor; unfold byte_ok; lia.
  - vm_compute in E. injection E as <-. vm_compute. by split.
Defined.

(** ** Arbitrary input *)

(** The decoders the program calls, on any octets. *)
Definition ir_decoders : list (bytes -> Context -> outcome (Context * Z)) :=
  [decode_ir_ip; decode_ir_esp; decode_ir_udp; decode_ir_rtp; decode_ir_udp_lite;
   decode_ir_rtp_udp_lite;
   run_decoder decode_ir_dyn_ip; run_decoder decode_ir_dyn_esp; run_decoder decode_ir_dyn_udp;
   run_decoder decode_ir_dyn_rtp; run_decoder decode_ir_dyn_udp_lite;
   run_decoder decode_ir_dyn_rtp_udp_lite].

Lemma standard_safe p inp rx :
  size_ok (blen inp) -> bytes_ok inp -> context_ok rx ->
  decodes inp (decode_ir_standard inp (as_profile p) (profile_octet p)) rx.
Proof. intros. by apply safe_standard. Qed.

Lemma compatible_safe p inp rx :
  size_ok (blen inp) -> bytes_ok inp -> context_ok rx ->
  match decode_ir p inp rx with
  | Ok (c, n) => context_ok c /\ 0 <= n <= blen inp | Rej => True | Ub => False
  end.
Proof.
  intros Hs Hb Hc. rewrite decode_ir_is. unfold decode_ir_compatible.
  pose proof (run_decoder_safe _ _ rx (legacy_safe p inp rx Hs Hb Hc)).
  pose proof (run_decoder_safe
    (fun i => decode_ir_standard i (as_profile p) (profile_octet p)) _ rx (standard_safe p inp rx Hs Hb Hc)).
  destruct (run_decoder (fun i => _) inp rx) as [[? ?]| |] eqn:E1;
    destruct (run_decoder (legacy_decoder p) inp rx) as [[? ?]| |] eqn:E2; try done.
  by destruct (_ || _).
Qed.

(** C28: on any octets and any well-formed context, every IR and IR-DYN decoder
    reads only inside its input, copies only inside its arrays, and either
    refuses or answers a header length within the input and a well-formed
    context. *)
Theorem ir_decoders_safe d inp rx :
  d ∈ ir_decoders -> size_ok (blen inp) -> bytes_ok inp -> context_ok rx ->
  match d inp rx with
  | Ok (c, n) => context_ok c /\ 0 <= n <= blen inp | Rej => True | Ub => False
  end.
Proof.
  intros Hd Hs Hb Hc. unfold ir_decoders in Hd. rewrite !elem_of_cons, elem_of_nil in Hd.
  repeat destruct Hd as [-> | Hd]; [..|done].
  - by apply (compatible_safe StdIP).
  - by apply (compatible_safe StdESP).
  - by apply (compatible_safe StdUDP).
  - by apply (compatible_safe StdRTP).
  - by apply run_decoder_safe, safe_udp_lite_legacy.
  - by apply run_decoder_safe, safe_rtp_udp_lite_legacy.
  - by apply run_decoder_safe, safe_dyn_ip_profile.
  - by apply run_decoder_safe, safe_dyn_esp.
  - by apply run_decoder_safe, safe_dyn_udp.
  - by apply run_decoder_safe, safe_dyn_rtp.
  - by apply run_decoder_safe, safe_dyn_udp_lite.
  - by apply run_decoder_safe, safe_dyn_rtp_udp_lite.
Qed.

Lemma ir_decoders_safe_witness :
  match decode_ir_rtp [0xFC; 0x01; 0x00; 0x40; 0xFF] sample_receiver with
  | Ok (c, n) => context_ok c /\ 0 <= n <= 5 | Rej => True | Ub => False
  end.
Proof.
  apply (ir_decoders_safe decode_ir_rtp [0xFC; 0x01; 0x00; 0x40; 0xFF] sample_receiver);
    [|vm_compute; by split|repeat constructor; unfold byte_ok; lia|exact sample_receiver_ok].
  unfold ir_decoders. rewrite !elem_of_cons. auto.
Defined.
