(* ===== verification/PrivateFo.v ===== *)
(** * First-order packets of the profiles without RTP

    include/rohccxx/core/emit_{esp,ip,udp,udplite}_fo.hpp, their decoders
    decode_{esp,ip,udp,udplite}_fo.hpp, and private_udp_fo_crc.hpp, whose CRC-8
    covers the packet and the context both ends must share. *)

From S2P Require Import Prelude Crc Cid Encoding Context Cursor Chains EmitIr DecodeIr.
From S2P Require Import DecodeIrDyn Safety IrProperties.

(** ** The context under the CRC *)

(** [append_private_fo_ip_context]: the packet, then the static and slowly
    changing fields, into the 256 octets of [data]. *)
Definition options_covered (ctx : Context) : Z :=
  if ipv4_options_len ctx <=? blen (ipv4_options ctx) then ipv4_options_len ctx
  else blen (ipv4_options ctx).
Definition extension_covered (ctx : Context) : Z :=
  if ipv6_extension_len ctx <=? blen (ipv6_extensions ctx) then ipv6_extension_len ctx
  else blen (ipv6_extensions ctx).

Definition ip_context_len (ctx : Context) : Z :=
  if ip_version ctx =? 4 then 21 + options_covered ctx
  else if ip_version ctx =? 6 then 48 + extension_covered ctx
  else 8.

Definition data_size : Z := 256.

Definition append_private_fo_ip_context (header : bytes) (ctx : Context) (profile_bytes : Z)
    : M wst unit :=
  guard (negb ((data_size <? profile_bytes) ||
               (usub data_size profile_bytes <? ip_context_len ctx) ||
               (usub (usub data_size profile_bytes) (ip_context_len ctx) <? blen header))) ;;;
  puts header ;;;
  write_u16 (profile_id (profile ctx)) ;;;
  write_u32 (cid ctx) ;;;
  put (if large_cid ctx then 1 else 0) ;;;
  put (ip_version ctx) ;;;
  if ip_version ctx =? 4 then
    put (ipv4_tos ctx) ;;;
    put (ipv4_ttl ctx) ;;;
    put (ipv4_flags ctx) ;;;
    put (ipv4_protocol ctx) ;;;
    write_u32 (ipv4_saddr ctx) ;;;
    write_u32 (ipv4_daddr ctx) ;;;
    put (u8 (options_covered ctx)) ;;;
    o <- lift (slice (ipv4_options ctx) 0 (options_covered ctx)) ;;
    puts o
  else if ip_version ctx =? 6 then
    put (ipv6_traffic_class ctx) ;;;
    write_u32 (ipv6_flow_label ctx) ;;;
    put (ipv6_next_header ctx) ;;;
    put (ipv6_hop_limit ctx) ;;;
    puts (ipv6_saddr ctx) ;;;
    puts (ipv6_daddr ctx) ;;;
    put (u8 (extension_covered ctx)) ;;;
    o <- lift (slice (ipv6_extensions ctx) 0 (extension_covered ctx)) ;;
    puts o
  else ret tt.

(** The CRC over what was appended; 0 when it does not fit. *)
Definition private_fo_crc8 (append : M wst unit) (profile_part : M wst unit) : outcome Z :=
  match append {| w_out := []; w_cap := data_size |} with
  | (Rej, _) => Ok 0
  | (Ub, _) => Ub
  | (Ok _, s) =>
      match profile_part s with
      | (Ok _, s') => Ok (crc8 (w_out s'))
      | (Rej, _) | (Ub, _) => Ub
      end
  end.

Definition private_ip_fo_crc8 (header : bytes) (ctx : Context) : outcome Z :=
  private_fo_crc8 (append_private_fo_ip_context header ctx 0) (ret tt).

Definition private_udp_fo_crc8 (header : bytes) (ctx : Context) : outcome Z :=
  private_fo_crc8 (append_private_fo_ip_context header ctx 4)
    (write_u16 (udp_sport ctx) ;;; write_u16 (udp_dport ctx)).

Definition private_udp_lite_fo_crc8 (header : bytes) (ctx : Context) : outcome Z :=
  private_udp_fo_crc8 header ctx.

Definition private_esp_fo_crc8 (header : bytes) (ctx : Context) : outcome Z :=
  private_fo_crc8 (append_private_fo_ip_context header ctx 9)
    (write_u32 (esp_spi ctx) ;;; write_u32 (esp_sequence ctx) ;;;
     put (if legacy_esp_payload_includes_header ctx then 1 else 0)).

(** ** The emitters *)

(** The octets before the CRC, the CRC octet still zero, and those after; the
    CRC then computed over all of them and stored. *)
Definition emit_private_fo (type len_no_cid : Z) (body : M wst unit)
    (crc : bytes -> Context -> outcome Z) (out_len : Z) (ctx : Context) : outcome bytes :=
  check is_valid_for_space (cid ctx) (large_cid ctx) in
  let cid_len := if large_cid ctx then encoded_len (cid ctx) else 0 in
  let header_len := len_no_cid + cid_len in
  check negb (out_len <? header_len) in
  let run :=
    put type ;;;
    (if large_cid ctx then write_large (cid ctx) else ret tt) ;;;
    crc_pos <- gets (fun s => blen (w_out s)) ;;
    put 0 ;;;
    body ;;;
    header <- gets w_out ;;
    v <- lift (crc header ctx) ;;
    patch crc_pos v in
  match run {| w_out := []; w_cap := out_len |} with
  | (Ok _, s) => Ok (w_out s)
  | (Rej, _) => Rej
  | (Ub, _) => Ub
  end.

Definition write_id (ctx : Context) : M wst unit :=
  put (u8 (Z.shiftr (ipv4_id ctx) 8)) ;;; put (Z.land (ipv4_id ctx) 0xFF).
Definition write_check (ctx : Context) : M wst unit :=
  put (u8 (Z.shiftr (udp_check ctx) 8)) ;;; put (Z.land (udp_check ctx) 0xFF).
Definition write_coverage (ctx : Context) : M wst unit :=
  put (u8 (Z.shiftr (udp_length_or_coverage ctx) 8)) ;;;
  put (Z.land (udp_length_or_coverage ctx) 0xFF).

Definition emit_esp_fo (out_len : Z) (ctx : Context) : outcome bytes :=
  emit_private_fo 0x78 4 (write_id ctx) private_esp_fo_crc8 out_len ctx.
Definition emit_ip_fo (out_len : Z) (ctx : Context) : outcome bytes :=
  emit_private_fo 0x79 4 (write_id ctx) private_ip_fo_crc8 out_len ctx.
Definition emit_udp_fo (out_len : Z) (ctx : Context) : outcome bytes :=
  emit_private_fo 0x7A 6 (write_id ctx ;;; write_check ctx) private_udp_fo_crc8 out_len ctx.
Definition emit_udp_lite_fo (out_len : Z) (ctx : Context) : outcome bytes :=
  emit_private_fo 0x77 8 (write_id ctx ;;; write_coverage ctx ;;; write_check ctx)
    private_udp_lite_fo_crc8 out_len ctx.

(** ** The decoders *)

Definition crc_buf_size : Z := 16.

(** Up to the CRC: [crc_buf] is a copy of the header with its CRC octet
    zeroed, checked against the receiver's own context. *)
Definition decode_private_fo (inp : bytes) (type len_no_cid : Z)
    (crc : bytes -> Context -> outcome Z) (body : M dst unit) (p : Profile) : M dst Z :=
  ctx <- gets d_ctx ;;
  let cid_len := if large_cid ctx then encoded_len (cid ctx) else 0 in
  let header_len := len_no_cid + cid_len in
  guard (negb (blen inp <? header_len)) ;;;
  t <- next inp ;;
  guard (t =? type) ;;;
  read_large_cid_if_present inp ;;;
  guard (negb (crc_buf_size <? header_len)) ;;;
  crc_buf <- lift (slice inp 0 header_len) ;;
  pos <- gets d_pos ;;
  received_crc <- lift (rd crc_buf pos) ;;
  advance 1 ;;;
  v <- lift (crc (<[Z.to_nat pos := 0]> crc_buf) ctx) ;;
  guard (v =? received_crc) ;;;
  body ;;;
  upd (fun c => c <| profile := p |> <| rohc_state := DynamicEstablished |>) ;;;
  ret header_len.

Definition read_id (inp : bytes) : M dst unit :=
  v <- next16 inp ;; upd (fun c => c <| ipv4_id := v |>).
Definition read_check (inp : bytes) : M dst unit :=
  v <- next16 inp ;; upd (fun c => c <| udp_check := v |>).
Definition read_coverage (inp : bytes) : M dst unit :=
  v <- next16 inp ;; upd (fun c => c <| udp_length_or_coverage := v |>).

Definition decode_esp_fo (inp : bytes) : M dst Z :=
  decode_private_fo inp 0x78 4 private_esp_fo_crc8 (read_id inp) ESP.
Definition decode_ip_fo (inp : bytes) : M dst Z :=
  decode_private_fo inp 0x79 4 private_ip_fo_crc8 (read_id inp) IP.
Definition decode_udp_fo (inp : bytes) : M dst Z :=
  decode_private_fo inp 0x7A 6 private_udp_fo_crc8 (read_id inp ;;; read_check inp) UDP.
Definition decode_udp_lite_fo (inp : bytes) : M dst Z :=
  decode_private_fo inp 0x77 8 private_udp_lite_fo_crc8
    (read_id inp ;;; read_coverage inp ;;; read_check inp) UDP_Lite.

(** ** The four formats together *)

Inductive FoProfile := FoESP | FoIP | FoUDP | FoUDPLite.

Definition fo_type (p : FoProfile) : Z :=
  match p with FoESP => 0x78 | FoIP => 0x79 | FoUDP => 0x7A | FoUDPLite => 0x77 end.

Definition fo_crc8 (p : FoProfile) : bytes -> Context -> outcome Z :=
  match p with
  | FoESP => private_esp_fo_crc8 | FoIP => private_ip_fo_crc8
  | FoUDP => private_udp_fo_crc8 | FoUDPLite => private_udp_lite_fo_crc8
  end.

Definition emit_fo (p : FoProfile) : Z -> Context -> outcome bytes :=
  match p with
  | FoESP => emit_esp_fo | FoIP => emit_ip_fo | FoUDP => emit_udp_fo | FoUDPLite => emit_udp_lite_fo
  end.

Definition decode_fo (p : FoProfile) : bytes -> M dst Z :=
  match p with
  | FoESP => decode_esp_fo | FoIP => decode_ip_fo
  | FoUDP => decode_udp_fo | FoUDPLite => decode_udp_lite_fo
  end.

(** The context octets the CRC binds: identity of the flow, addressing, and
    the transport fields of the profile. *)
Definition ip_bound_octets (ctx : Context) : bytes :=
  be16 (profile_id (profile ctx)) ++ be32 (cid ctx) ++
  [if large_cid ctx then 1 else 0; ip_version ctx] ++
  (if ip_version ctx =? 4 then
     [ipv4_tos ctx; ipv4_ttl ctx; ipv4_flags ctx; ipv4_protocol ctx] ++
     be32 (ipv4_saddr ctx) ++ be32 (ipv4_daddr ctx) ++ [u8 (options_covered ctx)] ++
     take (Z.to_nat (options_covered ctx)) (ipv4_options ctx)
   else if ip_version ctx =? 6 then
     [ipv6_traffic_class ctx] ++ be32 (ipv6_flow_label ctx) ++
     [ipv6_next_header ctx; ipv6_hop_limit ctx] ++ ipv6_saddr ctx ++ ipv6_daddr ctx ++
     [u8 (extension_covered ctx)] ++ take (Z.to_nat (extension_covered ctx)) (ipv6_extensions ctx)
   else []).

Definition fo_part_octets (p : FoProfile) (ctx : Context) : bytes :=
  match p with
  | FoIP => []
  | FoESP => be32 (esp_spi ctx) ++ be32 (esp_sequence ctx) ++
             [if legacy_esp_payload_includes_header ctx then 1 else 0]
  | FoUDP | FoUDPLite => be16 (udp_sport ctx) ++ be16 (udp_dport ctx)
  end.

Definition fo_bound_octets (p : FoProfile) (ctx : Context) : bytes :=
  ip_bound_octets ctx ++ fo_part_octets p ctx.

(** The 16-bit fields the packet carries. *)
Definition fo_values (p : FoProfile) (ctx : Context) : list Z :=
  match p with
  | FoESP | FoIP => [ipv4_id ctx]
  | FoUDP => [ipv4_id ctx; udp_check ctx]
  | FoUDPLite => [ipv4_id ctx; udp_length_or_coverage ctx; udp_check ctx]
  end.

Definition fo_fields (vs : list Z) : bytes := concat (map be16 vs).

Definition fo_octets (p : FoProfile) (ctx : Context) (crc : Z) (vs : list Z) : bytes :=
  [fo_type p] ++ large_cid_octets ctx ++ [crc] ++ fo_fields vs.

(** The CRC of a packet, its CRC octet zero, under a context. *)
Definition fo_crc_of (p : FoProfile) (ctx : Context) (vs : list Z) : Z :=
  crc8 (fo_octets p ctx 0 vs ++ fo_bound_octets p ctx).

Definition fo_packet (p : FoProfile) (ctx : Context) : bytes :=
  fo_octets p ctx (fo_crc_of p ctx (fo_values p ctx)) (fo_values p ctx).

Lemma covered_bounds ctx :
  context_ok ctx ->
  0 <= options_covered ctx <= 40 /\ options_covered ctx <= blen (ipv4_options ctx) /\
  0 <= extension_covered ctx <= 128 /\ extension_covered ctx <= blen (ipv6_extensions ctx).
Proof.
  intros H. unfold context_ok, ipv4_ok, ipv6_ok in H. decompose [and] H. clear H.
  unfold options_covered, extension_covered, blen, byte_ok in *.
  destruct (_ <=? _) eqn:?; destruct (ipv6_extension_len ctx <=? _) eqn:?; bool_prop; lia.
Qed.

Lemma slice_take l n : 0 <= n <= blen l -> slice l 0 n = Ok (take (Z.to_nat n) l).
Proof. intros H. by apply (slice_app [] l n). Qed.

Lemma take_len (l : bytes) n : 0 <= n <= blen l -> blen (take (Z.to_nat n) l) = n.
Proof. unfold blen. intros. rewrite length_take. lia. Qed.

Lemma ip_bound_len ctx : context_ok ctx -> blen (ip_bound_octets ctx) = ip_context_len ctx.
Proof.
  intros H. pose proof (covered_bounds ctx H). destruct_and?.
  destruct (ok_ipv6_saddr ctx H), (ok_ipv6_daddr ctx H).
  unfold ip_bound_octets, ip_context_len. autorewrite with blen.
  destruct (ip_version ctx =? 4); [|destruct (ip_version ctx =? 6)]; autorewrite with blen;
    rewrite ?take_len by lia; lia.
Qed.

Lemma append_private_fo_ip_context_ok header ctx n :
  context_ok ctx -> blen header <= 16 -> 0 <= n <= 9 ->
  append_private_fo_ip_context header ctx n {| w_out := []; w_cap := data_size |} =
  (Ok tt, {| w_out := header ++ ip_bound_octets ctx; w_cap := data_size |}).
Proof.
  intros H Hh Hn. pose proof (covered_bounds ctx H). destruct_and?.
  pose proof (ip_bound_len ctx H) as Hl. pose proof (blen_nonneg header).
  assert (Hc : ip_context_len ctx <= 176).
  { unfold ip_context_len. destruct (_ =? 4); [|destruct (_ =? 6)]; lia. }
  pose proof (blen_nonneg (ip_bound_octets ctx)).
  unfold append_private_fo_ip_context. erewrite bind_ok.
  2:{ unfold guard, lift. rewrite !usub_small by (unfold data_size in *; lia).
      rewrite !(proj2 (Z.ltb_ge _ _)) by (unfold data_size; lia). reflexivity. }
  eapply (emits_run _ 200); [|unfold data_size; lia].
  unfold write_u16, write_u32. rewrite !slice_take by lia. unfold ip_bound_octets in *.
  repeat match goal with
  | |- context [bind (lift (Ok ?x)) (fun o => puts o)] =>
      change (bind (lift (Ok x)) (fun o => puts o)) with (puts x)
  end.
  destruct (ip_version ctx =? 4); [|destruct (ip_version ctx =? 6)].
  all: eapply emits_weaken; [|eapply emits_eq; [emit_puts|cbn [ocat app]; rewrite <- ?app_assoc, ?app_nil_r; reflexivity]].
  all: autorewrite with blen in *; rewrite ?take_len in * by lia; lia.
Qed.

Lemma private_fo_crc8_ok header ctx n part l :
  context_ok ctx -> blen header <= 16 -> 0 <= n <= 9 -> emits part n (Some l) ->
  private_fo_crc8 (append_private_fo_ip_context header ctx n) part =
  Ok (crc8 (header ++ ip_bound_octets ctx ++ l)).
Proof.
  intros H Hh Hn Hp. unfold private_fo_crc8. rewrite append_private_fo_ip_context_ok by done.
  pose proof (ip_bound_len ctx H) as Hl. pose proof (covered_bounds ctx H). destruct_and?.
  assert (Hc : ip_context_len ctx <= 176)
    by (unfold ip_context_len; destruct (_ =? 4); [|destruct (_ =? 6)]; lia).
  destruct (Hp {| w_out := header ++ ip_bound_octets ctx; w_cap := data_size |}) as [_ ->].
  { unfold data_size. blen_lia. }
  cbn [w_out]. by rewrite <- app_assoc.
Qed.

Lemma fo_crc8_eq p header ctx :
  context_ok ctx -> blen header <= 16 ->
  fo_crc8 p header ctx = Ok (crc8 (header ++ fo_bound_octets p ctx)).
Proof.
  intros H Hh. unfold fo_bound_octets.
  destruct p; cbn [fo_crc8 fo_part_octets];
    unfold private_udp_lite_fo_crc8, private_esp_fo_crc8, private_ip_fo_crc8, private_udp_fo_crc8,
      write_u16, write_u32;
    apply private_fo_crc8_ok; try done; try lia.
  2: apply emits_ret.
  all: eapply emits_weaken; [|eapply emits_eq; [emit_puts|reflexivity]]; blen_lia.
Qed.

(** ** Emission *)

Definition fo_len (p : FoProfile) : Z :=
  match p with FoESP | FoIP => 4 | FoUDP => 6 | FoUDPLite => 8 end.

Definition fo_cid_len (ctx : Context) : Z := if large_cid ctx then encoded_len (cid ctx) else 0.

Lemma fo_cid_len_bound ctx : 0 <= fo_cid_len ctx <= 2.
Proof. unfold fo_cid_len. pose proof (encoded_len_bound (cid ctx)). destruct (large_cid ctx); lia. Qed.

Lemma fo_cid_octets_len ctx : blen (large_cid_octets ctx) = fo_cid_len ctx.
Proof.
  unfold large_cid_octets, fo_cid_len. destruct (large_cid ctx); [by rewrite large_octets_len|done].
Qed.

Lemma fo_octets_len p ctx crc :
  blen (fo_octets p ctx crc (fo_values p ctx)) =
  fo_len p + fo_cid_len ctx.
Proof.
  unfold fo_octets, fo_fields, large_cid_octets, fo_cid_len.
  destruct p, (large_cid ctx); cbn [fo_values map concat fo_len]; autorewrite with blen;
    rewrite ?large_octets_len; lia.
Qed.

Definition fo_write (p : FoProfile) (ctx : Context) : M wst unit :=
  match p with
  | FoESP | FoIP => write_id ctx
  | FoUDP => write_id ctx ;;; write_check ctx
  | FoUDPLite => write_id ctx ;;; write_coverage ctx ;;; write_check ctx
  end.

Lemma emits_fo_write p ctx : emits (fo_write p ctx) (fo_len p - 2) (Some (fo_fields (fo_values p ctx))).
Proof.
  unfold fo_write, write_id, write_check, write_coverage, fo_fields.
  assert (Two : forall v, emits (put (u8 (Z.shiftr v 8)) ;;; put (Z.land v 0xFF)) 2 (Some (be16 v))).
  { intros v. eapply emits_weaken; [|eapply emits_eq; [emit_puts|reflexivity]]. lia. }
  destruct p; cbn [fo_values map concat fo_len].
  1,2: rewrite app_nil_r; apply Two.
  - rewrite app_nil_r. by eapply emits_eq; [apply (emits_seq _ _ 2 2); [apply Two|apply Two|lia]|].
  - rewrite app_nil_r.
    by eapply emits_eq; [apply (emits_seq _ _ 2 4); [apply Two|apply (emits_seq _ _ 2 2);
      [apply Two|apply Two|lia]|lia]|].
Qed.

Lemma emit_fo_shape p out_len ctx :
  emit_fo p out_len ctx =
  emit_private_fo (fo_type p) (fo_len p) (fo_write p ctx) (fo_crc8 p) out_len ctx.
Proof. by destruct p. Qed.

Lemma emits_fo_cid ctx :
  context_ok ctx -> cid_ok ctx = true ->
  emits (if large_cid ctx then write_large (cid ctx) else ret tt) (fo_cid_len ctx)
    (Some (large_cid_octets ctx)).
Proof.
  intros H Hc s Hr. pose proof (ok_cid ctx H) as [Hc0 _].
  unfold cid_ok, is_valid_for_space, fo_cid_len, large_cid_octets in *.
  destruct (large_cid ctx); [|by apply emits_ret].
  split; [by rewrite large_octets_len|]. bool_prop. by apply write_large_ok.
Qed.

Lemma emitted_fo p out_len ctx :
  context_ok ctx ->
  emit_fo p out_len ctx =
  if cid_ok ctx && (blen (fo_packet p ctx) <=? out_len) then Ok (fo_packet p ctx) else Rej.
Proof.
  intros H. rewrite emit_fo_shape. unfold emit_private_fo. fold (cid_ok ctx) (fo_cid_len ctx).
  unfold fo_packet. rewrite fo_octets_len.
  destruct (cid_ok ctx) eqn:Hc; [|done]. cbn [obind oguard andb].
  destruct (Z.leb_spec (fo_len p + fo_cid_len ctx) out_len) as [Hl|Hl].
  2: { by rewrite (proj2 (Z.ltb_lt _ _)) by lia. }
  rewrite (proj2 (Z.ltb_ge _ _)) by lia. cbn [obind oguard negb].
  pose proof (fo_cid_len_bound ctx). pose proof (fo_cid_octets_len ctx).
  assert (Hlen : 4 <= fo_len p <= 8) by (destruct p; cbn; lia).
  erewrite emits_then; [|apply emits_put|blen_lia]. cbn [w_out w_cap app].
  erewrite emits_then; [|by apply emits_fo_cid|blen_lia]. cbn [w_out w_cap app].
  erewrite bind_ok by done. cbn [w_out w_cap].
  erewrite emits_then; [|apply emits_put|blen_lia]. cbn [w_out w_cap app].
  erewrite emits_then; [|apply emits_fo_write|blen_lia]. cbn [w_out w_cap app].
  erewrite bind_ok by done. cbn [w_out w_cap].
  set (h := fo_type p :: large_cid_octets ctx).
  assert (E : fo_type p :: (large_cid_octets ctx ++ [0]) ++ fo_fields (fo_values p ctx) =
              fo_octets p ctx 0 (fo_values p ctx))
    by (unfold fo_octets; cbn [app]; by rewrite <- app_assoc).
  rewrite !E. clear E.
  erewrite bind_ok.
  2:{ unfold lift. rewrite fo_crc8_eq; [reflexivity|done|rewrite fo_octets_len; lia]. }
  replace (fo_octets p ctx 0 (fo_values p ctx)) with (h ++ 0 :: fo_fields (fo_values p ctx)) at 2
    by (unfold fo_octets, h; done).
  rewrite patch_here. unfold fo_crc_of, fo_octets, h. cbn [w_out app]. by rewrite <- ?app_assoc.
Qed.

(** ** Decoding *)

Definition fo_profile (p : FoProfile) : Profile :=
  match p with FoESP => ESP | FoIP => IP | FoUDP => UDP | FoUDPLite => UDP_Lite end.

Definition fo_read (p : FoProfile) (inp : bytes) : M dst unit :=
  match p with
  | FoESP | FoIP => read_id inp
  | FoUDP => read_id inp ;;; read_check inp
  | FoUDPLite => read_id inp ;;; read_coverage inp ;;; read_check inp
  end.

Lemma decode_fo_shape p inp :
  decode_fo p inp =
  decode_private_fo inp (fo_type p) (fo_len p) (fo_crc8 p) (fo_read p inp) (fo_profile p).
Proof. by destruct p. Qed.

(** The context with the values of a packet stored. *)
Definition fo_store (p : FoProfile) (vs : list Z) (c : Context) : Context :=
  match p, vs with
  | (FoESP | FoIP), [id] => c <| ipv4_id := id |>
  | FoUDP, [id; chk] => c <| ipv4_id := id |> <| udp_check := chk |>
  | FoUDPLite, [id; cov; chk] =>
      c <| ipv4_id := id |> <| udp_length_or_coverage := cov |> <| udp_check := chk |>
  | _, _ => c
  end.

Definition fo_image (p : FoProfile) (vs : list Z) (rx : Context) : Context :=
  fo_store p vs rx <| profile := fo_profile p |> <| rohc_state := DynamicEstablished |>.

(** Values of the number and width the format carries. *)
Definition fo_values_ok (p : FoProfile) (vs : list Z) : Prop :=
  2 * Z.of_nat (length vs) = fo_len p - 2 /\ Forall (fun v => 0 <= v < 2 ^ 16) vs.

Lemma fo_fields_len vs : blen (fo_fields vs) = 2 * Z.of_nat (length vs).
Proof.
  induction vs as [|v vs IH]; [done|]. unfold fo_fields in *. cbn [map concat length].
  rewrite blen_app, IH, blen_be16. lia.
Qed.

Lemma fo_octets_size p ctx crc vs :
  fo_values_ok p vs -> blen (fo_octets p ctx crc vs) = fo_len p + fo_cid_len ctx.
Proof.
  intros [Hl _]. unfold fo_octets. autorewrite with blen.
  rewrite fo_fields_len, fo_cid_octets_len. lia.
Qed.

Lemma fo_read_at p inp pos vs l c (Q : unit -> dst -> Prop) R :
  fo_values_ok p vs -> suffix_at inp pos (fo_fields vs ++ l) ->
  (suffix_at inp (pos + blen (fo_fields vs)) l ->
   Q tt (mkdst (pos + blen (fo_fields vs)) (fo_store p vs c))) ->
  wp (fo_read p inp) Q R (mkdst pos c).
Proof.
  intros [Hl Hv] H HQ. unfold fo_read, read_id, read_check, read_coverage, fo_fields in *.
  destruct p; cbn [fo_len] in Hl;
    repeat (destruct vs as [|? vs]; cbn [length] in Hl; try lia);
    rewrite ?Forall_cons_iff in Hv; destruct_and?; cbn [map concat fo_store] in *;
    rewrite <- ?app_assoc in H; cbn [app] in H; at_go; first [lia | at_done HQ].
Qed.

Lemma fo_large_cid_at inp pos l c (Q : unit -> dst -> Prop) R :
  context_ok c -> (large_cid c = true -> cid_ok c = true) -> size_ok (blen inp) ->
  suffix_at inp pos (large_cid_octets c ++ l) ->
  (suffix_at inp (pos + fo_cid_len c) l -> Q tt (mkdst (pos + fo_cid_len c) c)) ->
  wp (read_large_cid_if_present inp) Q R (mkdst pos c).
Proof.
  intros Hok Hc Hs H HQ. pose proof (ok_cid c Hok) as [Hc0 _].
  unfold read_large_cid_if_present, large_cid_octets, fo_cid_len, cid_ok, is_valid_for_space in *.
  apply wp_bind, wp_gets. cbn [d_ctx]. destruct (large_cid c); cbn [negb].
  2:{ apply wp_ret. rewrite Z.add_0_r in HQ. by apply HQ. }
  bool_prop. pose proof (suffix_at_len _ _ _ H) as [Hp Hlen].
  rewrite blen_app, large_octets_len in Hlen. pose proof (encoded_len_bound (cid c)).
  pose proof (blen_nonneg l).
  unfold more. apply wp_bind, wp_bind, wp_gets, wp_guard_true; [cbn [d_pos]; lia|].
  apply wp_bind, wp_gets. cbn [d_pos]. apply wp_bind. at_step. apply wp_bind, wp_lift. rewrite read_large_octets by lia.
  apply wp_bind, wp_guard_true; [apply Z.eqb_refl|].
  eapply wp_advance_at; [exact H|by rewrite large_octets_len|exact HQ].
Qed.

(** The decoder on a packet of its form: the CRC decides, under the
    receiver's own context. *)
Lemma decode_fo_at p rx vs crc rest :
  context_ok rx -> (large_cid rx = true -> cid_ok rx = true) -> fo_values_ok p vs ->
  size_ok (blen (fo_octets p rx crc vs ++ rest)) ->
  wp (decode_fo p (fo_octets p rx crc vs ++ rest))
    (fun n s => fo_crc_of p rx vs = crc /\ n = blen (fo_octets p rx crc vs) /\
                d_ctx s = fo_image p vs rx)
    (fun _ => fo_crc_of p rx vs <> crc) (mkdst 0 rx).
Proof.
  intros Hok Hc Hv Hs. rewrite decode_fo_shape. unfold decode_private_fo.
  pose proof (fo_octets_size p rx crc vs Hv) as Hlen. pose proof (fo_cid_len_bound rx) as Hcb.
  pose proof (fo_cid_octets_len rx) as Hcl.
  assert (Hl : 4 <= fo_len p <= 8) by (destruct p; cbn; lia).
  set (packet := fo_octets p rx crc vs) in *. set (inp := packet ++ rest) in *.
  assert (H : suffix_at inp 0 (fo_type p :: large_cid_octets rx ++ crc :: fo_fields vs ++ rest)).
  { replace inp with (fo_type p :: large_cid_octets rx ++ crc :: fo_fields vs ++ rest);
      [apply suffix_at_start|].
    unfold inp, packet, fo_octets. cbn [app]. by rewrite <- app_assoc. }
  apply wp_bind, wp_gets. cbn [d_ctx]. fold (fo_cid_len rx). cbv zeta.
  assert (Hin : blen inp = blen packet + blen rest) by (unfold inp; apply blen_app).
  pose proof (blen_nonneg rest) as Hr.
  apply wp_bind, wp_guard_true; [rewrite (proj2 (Z.ltb_ge _ _)) by lia; reflexivity|].
  apply wp_bind. at_step. apply wp_bind, wp_guard_true; [apply Z.eqb_refl|].
  apply wp_bind. eapply fo_large_cid_at; [done|done|done|exact H|]. clear H. intros H.
  apply wp_bind, wp_guard_true; [unfold crc_buf_size; rewrite (proj2 (Z.ltb_ge _ _)) by lia; reflexivity|].
  assert (Eslice : slice inp 0 (blen packet) = Ok packet)
    by (unfold inp; by apply (slice_exact [] packet rest)).
  assert (Ep : blen (fo_type p :: large_cid_octets rx) = 0 + 1 + fo_cid_len rx) by blen_lia.
  assert (Erd : rd packet (0 + 1 + fo_cid_len rx) = Ok crc)
    by (rewrite <- Ep; apply (rd_app_0 (fo_type p :: large_cid_octets rx))).
  assert (Eins : <[Z.to_nat (0 + 1 + fo_cid_len rx) := 0]> packet = fo_octets p rx 0 vs).
  { rewrite <- Ep. unfold packet, fo_octets, blen. rewrite Nat2Z.id.
    cbn [app]. rewrite app_comm_cons, insert_app_r_alt by lia. by rewrite Nat.sub_diag. }
  rewrite <- Hlen. apply wp_bind, wp_lift. rewrite Eslice.
  apply wp_bind, wp_gets. cbn [d_pos]. apply wp_bind, wp_lift. rewrite Erd.
  apply wp_bind. eapply wp_advance_at with (a := [crc]); [exact H|done|]. clear H. intros H.
  apply wp_bind, wp_lift. rewrite Eins, fo_crc8_eq by (done || rewrite fo_octets_size by done; lia).
  fold (fo_crc_of p rx vs).
  apply wp_bind, wp_guard; [intros Heq; bool_prop|intros Hne; by bool_prop].
  apply wp_bind. eapply fo_read_at; [done|exact H|]. intros _.
  apply wp_bind, wp_upd, wp_ret. by split_and!.
Qed.

(** ** Which octets a decoder accepts *)

Lemma fo_fields_of n f :
  bytes_ok f -> length f = (2 * n)%nat ->
  exists vs, f = fo_fields vs /\ length vs = n /\ Forall (fun v => 0 <= v < 2 ^ 16) vs.
Proof.
  revert f. induction n as [|n IH]; intros f Hf Hl; [by destruct f; [exists []|]|].
  destruct f as [|a [|b f]]; cbn [length] in Hl; try lia.
  apply bytes_ok_cons in Hf as [Ha Hf]. apply bytes_ok_cons in Hf as [Hb Hf].
  destruct (IH f Hf ltac:(lia)) as (vs & -> & <- & Hvs).
  unfold byte_ok in *. exists (a * 256 + b :: vs). split; [|split; [done|constructor; [lia|done]]].
  unfold fo_fields. cbn [map concat]. unfold be16. cbn [app].
  rewrite land_255, Z.shiftr_div_pow2 by lia. unfold u8. change (2 ^ 8) with 256.
  f_equal; [|f_equal]; Z.div_mod_to_equations; lia.
Qed.

(** Octets after the CID make up the rest of a packet when there are enough. *)
Lemma fo_shape p rx l :
  bytes_ok l -> fo_len p - 1 <= blen l ->
  exists crc vs rest, [fo_type p] ++ large_cid_octets rx ++ l = fo_octets p rx crc vs ++ rest /\
                      byte_ok crc /\ fo_values_ok p vs.
Proof.
  intros Hl Hlen. assert (Hn : exists n, fo_len p - 2 = 2 * Z.of_nat n /\ (0 < n)%nat).
  { destruct p; [exists 1%nat|exists 1%nat|exists 2%nat|exists 3%nat]; cbn; lia. }
  destruct Hn as (n & Hn & Hn0). destruct l as [|crc l]; [change (blen []) with 0 in Hlen; lia|].
  apply bytes_ok_cons in Hl as [Hcrc Hl]. rewrite blen_cons in Hlen. unfold blen in Hlen.
  destruct (fo_fields_of n (take (2 * n) l)) as (vs & Ef & Hvn & Hvs).
  { by apply bytes_ok_take. } { rewrite length_take. lia. }
  exists crc, vs, (drop (2 * n) l). split; [|split; [done|split; [lia|done]]].
  unfold fo_octets. rewrite <- !app_assoc. cbn [app]. by rewrite <- Ef, take_drop.
Qed.

(** Run the decoder up to the value of a large CID. *)
Ltac reach_large :=
  apply wp_bind, wp_gets; cbn [d_ctx]; apply wp_bind, wp_guard; [intros _|done];
  apply wp_bind; at_step; apply wp_bind, wp_guard; [intros _|done];
  apply wp_bind; unfold read_large_cid_if_present; apply wp_bind, wp_gets; cbn [d_ctx];
  match goal with E : large_cid _ = true |- _ => rewrite E end; cbn [negb];
  apply wp_bind, wp_more; [intros _|done];
  apply wp_bind, wp_gets; cbn [d_pos]; apply wp_bind; at_step; apply wp_bind, wp_lift.

(** Any input has the form of a packet, or is refused. *)
Lemma decode_fo_inv p inp rx :
  context_ok rx -> size_ok (blen inp) -> bytes_ok inp ->
  (exists crc vs rest, inp = fo_octets p rx crc vs ++ rest /\ byte_ok crc /\ fo_values_ok p vs /\
     (large_cid rx = true -> cid_ok rx = true)) \/
  wp (decode_fo p inp) (fun _ _ => False) (fun _ => True) (mkdst 0 rx).
Proof.
  intros Hok Hs Hb. rewrite decode_fo_shape. unfold decode_private_fo.
  assert (Hl : 4 <= fo_len p <= 8) by (destruct p; cbn; lia). pose proof (fo_cid_len_bound rx) as Hcb.
  pose proof (fo_cid_octets_len rx) as Hcl.
  destruct (Z.ltb_spec (blen inp) (fo_len p + fo_cid_len rx)) as [Hlt|Hge].
  { right. apply wp_bind, wp_gets. cbn [d_ctx]. fold (fo_cid_len rx).
    rewrite (proj2 (Z.ltb_lt _ _)) by done. by apply wp_bind, wp_guard. }
  destruct inp as [|t l]; [change (blen []) with 0 in Hge; lia|].
  rewrite blen_cons in Hge. apply bytes_ok_cons in Hb as [Ht Hb].
  assert (H : suffix_at (t :: l) 0 (t :: l)) by apply suffix_at_start.
  destruct (Z.eqb_spec t (fo_type p)) as [->|Hne].
  2:{ right. apply wp_bind, wp_gets. cbn [d_ctx]. fold (fo_cid_len rx). apply wp_bind, wp_guard; [|done].
      intros _. apply wp_bind. at_step. apply wp_bind, wp_guard; [|done]. intros E. by bool_prop. }
  unfold large_cid_octets, fo_cid_len in *. destruct (large_cid rx) eqn:El.
  2:{ left. destruct (fo_shape p rx l) as (crc & vs & rest & E & ?); [done|lia|].
      unfold large_cid_octets in E. rewrite El in E. exists crc, vs, rest. rewrite <- E. split_and!; [done|by destruct_and?..|done]. }
  pose proof (read_large_inv l Hb) as Hr. destruct (read_large l) as [[v n]| |] eqn:Er; [|right|done].
  - destruct Hr as (Hv & -> & post & ->). destruct (Z.eqb_spec v (cid rx)) as [->|Hne]; [left|right].
    + destruct (fo_shape p rx post) as (crc & vs & rest & E & ?).
      { by apply bytes_ok_app in Hb as [_ ?]. }
      { rewrite blen_app, large_octets_len in Hge. lia. }
      unfold large_cid_octets in E. rewrite El in E. exists crc, vs, rest. rewrite <- E.
      split_and!; [done|by destruct_and?..|]. intros _. unfold cid_ok, is_valid_for_space. rewrite El. apply Z.leb_le. lia.
    + reach_large. rewrite Er. apply wp_bind, wp_guard; [|done]. intros E. by bool_prop.
  - reach_large. by rewrite Er.
Qed.

(** ** What the packets guarantee *)

Lemma fo_bound_ok p ctx : context_ok ctx -> bytes_ok (fo_bound_octets p ctx).
Proof.
  intros H. destruct (ok_ipv6_saddr ctx H), (ok_ipv6_daddr ctx H).
  unfold context_ok, control_ok, ipv4_ok, ipv6_ok in H. decompose [and] H.
  unfold fo_bound_octets, ip_bound_octets, fo_part_octets.
  octets; try assumption; by apply bytes_ok_take.
Qed.

Lemma fo_octets_ok p ctx crc vs :
  context_ok ctx -> cid_ok ctx = true -> byte_ok crc -> bytes_ok (fo_octets p ctx crc vs).
Proof.
  intros H Hc Hcrc. pose proof (ok_cid ctx H) as [Hc0 _]. unfold fo_octets, fo_fields, large_cid_octets.
  octets; [destruct p; unfold byte_ok; cbn; lia| |done|].
  - unfold cid_ok, is_valid_for_space in Hc. destruct (large_cid ctx); [|done]. bool_prop.
    apply large_octets_ok. unfold large_cid_max in *. lia.
  - induction vs as [|v vs IH]; [constructor|]. cbn [map concat]. octets. done.
Qed.

Lemma fo_crc_ok p ctx vs : context_ok ctx -> cid_ok ctx = true -> byte_ok (fo_crc_of p ctx vs).
Proof.
  intros H Hc. apply crc8_bound, bytes_ok_app. split; [|by apply fo_bound_ok].
  apply fo_octets_ok; [done|done|unfold byte_ok; lia].
Qed.

Lemma fo_values_of p ctx : context_ok ctx -> fo_values_ok p (fo_values p ctx).
Proof.
  intros H. pose proof (ok_ipv4_id ctx H). pose proof (ok_udp_check ctx H).
  pose proof (ok_udp_length_or_coverage ctx H).
  destruct p; (split; [done|repeat constructor; lia]).
Qed.

Lemma same_channel_octets tx rx :
  same_channel tx rx ->
  large_cid_octets rx = large_cid_octets tx /\ fo_cid_len rx = fo_cid_len tx /\
  cid_ok rx = cid_ok tx.
Proof. intros [E E']. unfold large_cid_octets, fo_cid_len, cid_ok. by rewrite E, E'. Qed.

Lemma fo_octets_channel p tx rx crc vs :
  same_channel tx rx -> fo_octets p rx crc vs = fo_octets p tx crc vs.
Proof. intros H. unfold fo_octets. by destruct (same_channel_octets tx rx H) as (-> & _). Qed.

Lemma fo_crc_channel p tx rx vs :
  same_channel tx rx ->
  fo_crc_of p rx vs = crc8 (fo_octets p tx 0 vs ++ fo_bound_octets p rx).
Proof. intros H. unfold fo_crc_of. by rewrite (fo_octets_channel p tx rx). Qed.

(** What a run of the decoder on a packet of its form answers. *)
Lemma decode_fo_run p rx vs crc rest :
  context_ok rx -> cid_ok rx = true -> fo_values_ok p vs ->
  size_ok (blen (fo_octets p rx crc vs ++ rest)) ->
  run_decoder (decode_fo p) (fo_octets p rx crc vs ++ rest) rx =
  if fo_crc_of p rx vs =? crc then Ok (fo_image p vs rx, blen (fo_octets p rx crc vs)) else Rej.
Proof.
  intros Hok Hc Hv Hs. pose proof (decode_fo_at p rx vs crc rest Hok (fun _ => Hc) Hv Hs) as H.
  unfold wp, run_decoder in *. destruct (decode_fo p _ _) as [[n| |] s]; [|..|done].
  - destruct H as (-> & -> & ->). by rewrite Z.eqb_refl.
  - by rewrite (proj2 (Z.eqb_neq _ _)).
Qed.

Lemma emitted_fo_inv p out_len tx packet :
  context_ok tx -> emit_fo p out_len tx = Ok packet -> cid_ok tx = true /\ packet = fo_packet p tx.
Proof.
  intros H E. rewrite emitted_fo in E by done. destruct (_ && _) eqn:Hc in E; [|done].
  bool_prop. by injection E as <-.
Qed.

(** C30: a first-order packet of the ESP, IP, UDP or UDP-Lite profile, followed
    by any payload, is decoded on every receiver of the channel whose context
    agrees on the octets the CRC covers; the receiver takes the IP-ID, the
    UDP-Lite coverage and the UDP checksum of the packet, and nothing else of
    its context but the profile and the state changes. *)
Theorem private_fo_roundtrip p tx rx out_len packet payload :
  context_ok tx -> context_ok rx -> same_channel tx rx ->
  fo_bound_octets p rx = fo_bound_octets p tx ->
  emit_fo p out_len tx = Ok packet -> size_ok (blen (packet ++ payload)) ->
  run_decoder (decode_fo p) (packet ++ payload) rx =
  Ok (fo_image p (fo_values p tx) rx, blen packet).
Proof.
  intros Htx Hrx Hch Hb E Hs. apply emitted_fo_inv in E as [Hc ->]; [|done].
  unfold fo_packet in *. destruct (same_channel_octets tx rx Hch) as (_ & _ & Hc').
  rewrite <- (fo_octets_channel p tx rx) in Hs |- * by done.
  rewrite decode_fo_run; [|done|congruence|by apply fo_values_of|done].
  rewrite (fo_crc_channel p tx rx) by done. unfold fo_crc_of. by rewrite Hb, Z.eqb_refl.
Qed.

(** A UDP flow at both ends of a channel with large CIDs; the receiver has an
    older IP-ID and checksum. *)
Definition fo_sender : Context :=
  sample_sender <| profile := UDP |> <| large_cid := true |> <| cid := 300 |>.
Definition fo_receiver : Context := fo_sender <| ipv4_id := 6 |> <| udp_check := 0 |>.
Definition fo_stranger : Context := fo_receiver <| udp_dport := 5007 |>.

Lemma fo_samples_ok : context_ok fo_sender /\ context_ok fo_receiver /\ context_ok fo_stranger.
Proof.
  assert (H : context_ok fo_sender).
  { apply ok_set_cid; [apply ok_set_large_cid, ok_set_profile, sample_sender_ok|lia]. }
  assert (H' : context_ok fo_receiver).
  { apply ok_set_udp_check; [apply ok_set_ipv4_id; [done|lia]|lia]. }
  split_and!; [done|done|]. apply ok_set_udp_dport; [done|lia].
Qed.

Lemma private_fo_roundtrip_witness :
  exists packet, emit_fo FoUDP 64 fo_sender = Ok packet /\
  run_decoder (decode_fo FoUDP) (packet ++ [0xDE; 0xAD]) fo_receiver =
  Ok (fo_image FoUDP [7; 0x1234] fo_receiver, 8).
Proof.
  destruct (emit_fo FoUDP 64 fo_sender) as [packet| |] eqn:E; [|vm_compute in E; discriminate..].
  exists packet. split; [done|]. destruct fo_samples_ok as (Hs & Hr & _).
  pose proof (private_fo_roundtrip FoUDP fo_sender fo_receiver 64 packet [0xDE; 0xAD] Hs Hr
    (conj eq_refl eq_refl) eq_refl E) as H.
  vm_compute in E. injection E as <-. apply H. vm_compute. by split.
Defined.

(** The CRC ties a first-order packet to the context it was made for: a
    receiver of the channel whose context differs from the sender's in one of
    the octets the CRC covers - any octet of the addresses, ports, SPI, IPv4
    options or IPv6 extensions, type of service, hop limit - refuses it. *)
Theorem private_fo_binding p tx rx out_len packet payload :
  context_ok tx -> context_ok rx -> same_channel tx rx ->
  one_octet_apart (fo_bound_octets p tx) (fo_bound_octets p rx) ->
  emit_fo p out_len tx = Ok packet -> size_ok (blen (packet ++ payload)) ->
  run_decoder (decode_fo p) (packet ++ payload) rx = Rej.
Proof.
  intros Htx Hrx Hch Hd E Hs. apply emitted_fo_inv in E as [Hc ->]; [|done].
  unfold fo_packet in *. destruct (same_channel_octets tx rx Hch) as (_ & _ & Hc').
  rewrite <- (fo_octets_channel p tx rx) in Hs |- * by done.
  rewrite decode_fo_run; [|done|congruence|by apply fo_values_of|done].
  rewrite (fo_crc_channel p tx rx) by done. unfold fo_crc_of.
  rewrite (proj2 (Z.eqb_neq _ _)); [done|]. apply not_eq_sym, crc8_apart.
  1,2: apply bytes_ok_app; split; [apply fo_octets_ok; [done|done|unfold byte_ok; lia]|].
  - by apply fo_bound_ok.
  - by apply fo_bound_ok.
  - by apply one_octet_apart_app_l.
Qed.

Lemma private_fo_binding_witness :
  exists packet, emit_fo FoUDP 64 fo_sender = Ok packet /\
  run_decoder (decode_fo FoUDP) (packet ++ [0xDE; 0xAD]) fo_stranger = Rej.
Proof.
  destruct (emit_fo FoUDP 64 fo_sender) as [packet| |] eqn:E; [|vm_compute in E; discriminate..].
  exists packet. split; [done|]. destruct fo_samples_ok as (Hs & _ & Hr).
  assert (Hch : same_channel fo_sender fo_stranger) by (split; vm_compute; reflexivity).
  pose proof (private_fo_binding FoUDP fo_sender fo_stranger 64 packet [0xDE; 0xAD] Hs Hr Hch) as H.
  apply H; [|exact E|].
  - exists (take 24 (fo_bound_octets FoUDP fo_sender)), 0x8E, 0x8F, [].
    split_and!; [vm_compute; reflexivity..|discriminate].
  - vm_compute in E. injection E as <-. vm_compute. by split.
Defined.

(** The packet of one sender and the octets of another form, where they
    differ. *)
Lemma fo_octets_apart p ctx c vs c' vs' :
  fo_values_ok p vs -> fo_values_ok p vs' ->
  one_octet_apart (fo_octets p ctx c vs) (fo_octets p ctx c' vs') ->
  c <> c' /\ fo_octets p ctx 0 vs = fo_octets p ctx 0 vs' \/
  c = c' /\ one_octet_apart (fo_octets p ctx 0 vs) (fo_octets p ctx 0 vs').
Proof.
  intros [Hv _] [Hv' _] H. unfold fo_octets in *. rewrite !app_assoc in H.
  rewrite !(app_assoc [fo_type p]).
  set (h := [fo_type p] ++ large_cid_octets ctx) in *. rewrite <- !app_assoc in H.
  apply one_octet_apart_split in H as [[H _]|[_ H]]; [by apply one_octet_apart_neq in H| |done].
  apply one_octet_apart_split in H as [[H E]|[E H]]; [| |done].
  - left. split; [|by rewrite E]. intros ->. by apply one_octet_apart_neq in H.
  - right. injection E as ->. split; [done|]. by do 2 apply one_octet_apart_app_l.
Qed.

(** C31: a first-order packet in which any one octet was changed on the way -
    type, CID, CRC or field - is refused by the receiver it was meant for,
    whatever payload follows. *)
Theorem private_fo_corruption p tx rx out_len packet corrupted payload :
  context_ok tx -> context_ok rx -> same_channel tx rx ->
  fo_bound_octets p rx = fo_bound_octets p tx ->
  emit_fo p out_len tx = Ok packet ->
  one_octet_apart packet corrupted -> bytes_ok (corrupted ++ payload) ->
  size_ok (blen (corrupted ++ payload)) ->
  run_decoder (decode_fo p) (corrupted ++ payload) rx = Rej.
Proof.
  intros Htx Hrx Hch Hb E Hd Hbytes Hs. apply emitted_fo_inv in E as [Hc ->]; [|done].
  pose proof (one_octet_apart_length _ _ Hd) as Hlen.
  destruct (decode_fo_inv p (corrupted ++ payload) rx Hrx Hs Hbytes)
    as [(crc & vs & rest & E & Hcrc & Hvs & _)|H].
  2:{ unfold wp, run_decoder in *. by destruct (decode_fo p _ _) as [[n| |] s]. }
  pose proof (fo_values_of p tx Htx) as Hv. destruct (same_channel_octets tx rx Hch) as (_ & Hcl & Hc').
  rewrite E, decode_fo_run in * by (done || congruence).
  apply app_inj_1 in E as [-> ->].
  2:{ rewrite <- Hlen. unfold fo_packet. apply Nat2Z.inj. fold (blen (fo_octets p rx crc vs)).
      change (blen (fo_octets p tx (fo_crc_of p tx (fo_values p tx)) (fo_values p tx)) =
              blen (fo_octets p rx crc vs)).
      rewrite !fo_octets_size by done. lia. }
  rewrite (fo_octets_channel p tx rx) in Hd by done. unfold fo_packet in Hd.
  rewrite (fo_crc_channel p tx rx), Hb by done.
  rewrite (proj2 (Z.eqb_neq _ _)); [done|]. intros <-.
  apply fo_octets_apart in Hd as [[Hn E]|[E Hd]]; [|..|done|done].
  - apply Hn. unfold fo_crc_of. by rewrite E.
  - revert E. unfold fo_crc_of. apply crc8_apart.
    3: by apply one_octet_apart_app_r.
    all: apply bytes_ok_app; split; [apply fo_octets_ok; [done|done|unfold byte_ok; lia]|by apply fo_bound_ok].
Qed.

Lemma private_fo_corruption_witness :
  exists packet, emit_fo FoUDP 64 fo_sender = Ok packet /\
  run_decoder (decode_fo FoUDP) (<[5%nat := 0xFF]> packet ++ [0xDE; 0xAD]) fo_receiver = Rej.
Proof.
  destruct (emit_fo FoUDP 64 fo_sender) as [packet| |] eqn:E; [|vm_compute in E; discriminate..].
  exists packet. split; [done|]. destruct fo_samples_ok as (Hs & Hr & _).
  apply (private_fo_corruption FoUDP fo_sender fo_receiver 64 packet _ [0xDE; 0xAD] Hs Hr
    (conj eq_refl eq_refl) eq_refl E); vm_compute in E; injection E as <-.
  - exists (take 5 (fo_packet FoUDP fo_sender)), 0x07, 0xFF, (drop 6 (fo_packet FoUDP fo_sender)).
    split_and!; [vm_compute; reflexivity..|discriminate].
  - vm_compute. repeat constructor; vm_compute; discriminate.
  - vm_compute. by split.
Defined.

(** On any octets a first-order decoder stays inside its input, and it
    accepts exactly the octets that start with the type, the receiver's own
    CID, the CRC of the packet under the receiver's context, and the fields. *)
Theorem private_fo_decoder_exact p inp rx :
  context_ok rx -> cid_ok rx = true -> size_ok (blen inp) -> bytes_ok inp ->
  run_decoder (decode_fo p) inp rx <> Ub /\
  forall c n,
    run_decoder (decode_fo p) inp rx = Ok (c, n) <->
    exists vs rest, fo_values_ok p vs /\ inp = fo_octets p rx (fo_crc_of p rx vs) vs ++ rest /\
                    c = fo_image p vs rx /\ n = fo_len p + fo_cid_len rx.
Proof.
  intros Hrx Hc Hs Hb. split.
  - destruct (decode_fo_inv p inp rx Hrx Hs Hb) as [(crc & vs & rest & -> & _ & Hv & _)|H].
    + rewrite decode_fo_run by done. by destruct (_ =? _).
    + unfold wp, run_decoder in *. by destruct (decode_fo p _ _) as [[n| |] s].
  - intros c n. split.
    + intros E. destruct (decode_fo_inv p inp rx Hrx Hs Hb) as [(crc & vs & rest & -> & _ & Hv & _)|H].
      * rewrite decode_fo_run in E by done. destruct (Z.eqb_spec (fo_crc_of p rx vs) crc) as [<-|]; [|done].
        injection E as <- <-. exists vs, rest. rewrite fo_octets_size by done. done.
      * unfold wp, run_decoder in *. by destruct (decode_fo p _ _) as [[m| |] s].
    + intros (vs & rest & Hv & -> & -> & ->).
      rewrite decode_fo_run, Z.eqb_refl, fo_octets_size by done. done.
Qed.

Lemma private_fo_decoder_exact_witness :
  run_decoder (decode_fo FoIP) [0x79; 0x00; 0x12; 0x34] sample_receiver <> Ub.
Proof.
  apply (private_fo_decoder_exact FoIP [0x79; 0x00; 0x12; 0x34] sample_receiver sample_receiver_ok).
  - vm_compute; reflexivity.
  - vm_compute; by split.
  - repeat constructor; vm_compute; discriminate.
Defined.
