(* ===== verification/Lla.v ===== *)
(** * Link-layer assisted ROHC: include/rohccxx/core/lla.hpp

    The contract a lower layer signs (RFC 3242, 3243, 3408, 3409, 4362), its
    validation into a bit mask of what is missing, and the two context packets
    (CSP, CCP). *)

From S2P Require Import Prelude.

Definition profile_rfc3242 : Z := 0x0005.
Definition packet_type_lower_layer_reserved : Z := 0xF9.
Definition packet_type_csp : Z := 0xFA.
Definition packet_type_ccp : Z := 0xFB.

Record AssistingLayerContract := {
  identifies_packet_types : bool;
  preserves_order : bool;
  reports_loss : bool;
  reports_residual_errors : bool;
  delivers_feedback : bool;
  protects_context_packets : bool;
  supports_context_synchronization : bool;
  supports_context_check : bool;
  supports_reliable_mode : bool;
  delivers_ack : bool;
  delivers_static_nack : bool }.

Inductive ContractMissing :=
| MissingPacketTypeIdentification | MissingInOrderDelivery | MissingLossIndication
| MissingResidualErrorIndication | MissingFeedbackDelivery | MissingContextPacketProtection
| MissingContextSynchronization | MissingContextCheck | MissingReliableMode
| MissingAckDelivery | MissingStaticNackDelivery | MissingIpv4UdpRtpFlow
| MissingDisabledUdpChecksum | MissingRtpSequenceProgression | MissingCompressorSideOrdering
| MissingSynchronizedTiming.

Definition missing_index (m : ContractMissing) : Z :=
  match m with
  | MissingPacketTypeIdentification => 0 | MissingInOrderDelivery => 1
  | MissingLossIndication => 2 | MissingResidualErrorIndication => 3
  | MissingFeedbackDelivery => 4 | MissingContextPacketProtection => 5
  | MissingContextSynchronization => 6 | MissingContextCheck => 7
  | MissingReliableMode => 8 | MissingAckDelivery => 9
  | MissingStaticNackDelivery => 10 | MissingIpv4UdpRtpFlow => 11
  | MissingDisabledUdpChecksum => 12 | MissingRtpSequenceProgression => 13
  | MissingCompressorSideOrdering => 14 | MissingSynchronizedTiming => 15
  end.

Definition missing_bit (m : ContractMissing) : Z := Z.shiftl 1 (missing_index m).

Record ContractValidation := { valid : bool; missing : Z }.

Record ZeroByteFlow := {
  ipv4_udp_rtp : bool;
  udp_checksum_disabled : bool;
  rtp_sequence_increments_by_one : bool;
  compressor_observed_in_order : bool;
  synchronized_timing : bool }.

(** [if(!ok) result.missing |= bit]. *)
Definition require (ok : bool) (m : ContractMissing) (acc : Z) : Z :=
  if negb ok then Z.lor acc (missing_bit m) else acc.

Definition conclude (m : Z) : ContractValidation := {| valid := m =? 0; missing := m |}.

Definition validate_rfc3243_zero_byte_assumptions (c : AssistingLayerContract) : ContractValidation :=
  let m := require (identifies_packet_types c) MissingPacketTypeIdentification 0 in
  let m := require (preserves_order c) MissingInOrderDelivery m in
  let m := require (reports_loss c) MissingLossIndication m in
  let m := require (reports_residual_errors c) MissingResidualErrorIndication m in
  let m := require (delivers_feedback c) MissingFeedbackDelivery m in
  conclude m.

Definition validate_rfc3409_lower_layer_guidelines (c : AssistingLayerContract) : ContractValidation :=
  let m := missing (validate_rfc3243_zero_byte_assumptions c) in
  let m := require (protects_context_packets c) MissingContextPacketProtection m in
  let m := require (supports_context_synchronization c) MissingContextSynchronization m in
  let m := require (supports_context_check c) MissingContextCheck m in
  conclude m.

Definition validate_rfc3408_r_mode_zero_byte_support (c : AssistingLayerContract) : ContractValidation :=
  let m := missing (validate_rfc3243_zero_byte_assumptions c) in
  let m := require (supports_reliable_mode c) MissingReliableMode m in
  let m := require (delivers_ack c) MissingAckDelivery m in
  let m := require (delivers_static_nack c) MissingStaticNackDelivery m in
  conclude m.

Definition validate_rfc3243_zero_byte_flow (c : AssistingLayerContract) (flow : ZeroByteFlow)
    : ContractValidation :=
  let m := missing (validate_rfc3243_zero_byte_assumptions c) in
  let m := require (ipv4_udp_rtp flow) MissingIpv4UdpRtpFlow m in
  let m := require (udp_checksum_disabled flow) MissingDisabledUdpChecksum m in
  let m := require (rtp_sequence_increments_by_one flow) MissingRtpSequenceProgression m in
  let m := require (compressor_observed_in_order flow) MissingCompressorSideOrdering m in
  let m := require (synchronized_timing flow) MissingSynchronizedTiming m in
  conclude m.

Definition is_legacy_rfc3242_profile (p : Z) : bool := p =? profile_rfc3242.
Definition maps_to_rfc4362_profile (p : Z) : bool := is_legacy_rfc3242_profile p.
Definition validate_rfc3242_legacy_lla_applicability := validate_rfc3243_zero_byte_flow.

Definition can_emit_no_header_packet (c : AssistingLayerContract) : bool :=
  valid (validate_rfc3243_zero_byte_assumptions c).
Definition can_emit_no_header_packet_for_flow (c : AssistingLayerContract) (f : ZeroByteFlow) : bool :=
  valid (validate_rfc3243_zero_byte_flow c f).
Definition can_emit_reliable_mode_no_header_packet (c : AssistingLayerContract) : bool :=
  valid (validate_rfc3408_r_mode_zero_byte_support c).
Definition can_emit_context_synchronization_packet (c : AssistingLayerContract) : bool :=
  valid (validate_rfc3409_lower_layer_guidelines c) && supports_context_synchronization c.
Definition can_emit_context_check_packet (c : AssistingLayerContract) : bool :=
  valid (validate_rfc3409_lower_layer_guidelines c) && supports_context_check c.

(** ** Context packets *)

Record ContextSynchronizationPacket := { rtp_payload_len : Z; rohc_header : bytes }.
Record ContextCheckPacket := { has_crc : bool; ccp_crc7 : Z }.

Definition write_context_synchronization_packet (out_len payload_len : Z) (header : bytes)
    : outcome bytes :=
  check negb (out_len <? 3 + blen header) in
  Ok ([packet_type_csp] ++ be16 payload_len ++ header).

Definition read_context_synchronization_packet (inp : bytes)
    : outcome ContextSynchronizationPacket :=
  check negb (blen inp <? 3) in
  let! t := rd inp 0 in
  check t =? packet_type_csp in
  let! n := rd_u16 inp 1 in
  let! header := tail_from inp 3 in
  Ok {| rtp_payload_len := n; rohc_header := header |}.

Definition write_context_check_packet (out_len : Z) (packet : ContextCheckPacket) : outcome bytes :=
  check negb (out_len <? 2) in
  Ok [packet_type_ccp; Z.lor (if has_crc packet then 0x80 else 0x00) (Z.land (ccp_crc7 packet) 0x7F)].

Definition read_context_check_packet (inp : bytes) : outcome ContextCheckPacket :=
  check negb (blen inp <? 2) in
  let! t := rd inp 0 in
  check t =? packet_type_ccp in
  let! b := rd inp 1 in
  Ok {| has_crc := negb (Z.land b 0x80 =? 0); ccp_crc7 := Z.land b 0x7F |}.

Definition packet_type_requires_assisting_layer (t : Z) : bool :=
  (t =? packet_type_lower_layer_reserved) || (t =? packet_type_csp) || (t =? packet_type_ccp).

(** ** Validation against the requirements of each RFC *)

#[export] Instance ContractMissing_eq_dec : EqDecision ContractMissing.
Proof. solve_decision. Defined.

(** What each requirement asks of the lower layer or of the flow. *)
Definition provided (c : AssistingLayerContract) (f : ZeroByteFlow) (m : ContractMissing) : bool :=
  match m with
  | MissingPacketTypeIdentification => identifies_packet_types c
  | MissingInOrderDelivery => preserves_order c
  | MissingLossIndication => reports_loss c
  | MissingResidualErrorIndication => reports_residual_errors c
  | MissingFeedbackDelivery => delivers_feedback c
  | MissingContextPacketProtection => protects_context_packets c
  | MissingContextSynchronization => supports_context_synchronization c
  | MissingContextCheck => supports_context_check c
  | MissingReliableMode => supports_reliable_mode c
  | MissingAckDelivery => delivers_ack c
  | MissingStaticNackDelivery => delivers_static_nack c
  | MissingIpv4UdpRtpFlow => ipv4_udp_rtp f
  | MissingDisabledUdpChecksum => udp_checksum_disabled f
  | MissingRtpSequenceProgression => rtp_sequence_increments_by_one f
  | MissingCompressorSideOrdering => compressor_observed_in_order f
  | MissingSynchronizedTiming => synchronized_timing f
  end.

Definition zero_byte_requirements : list ContractMissing :=
  [MissingPacketTypeIdentification; MissingInOrderDelivery; MissingLossIndication;
   MissingResidualErrorIndication; MissingFeedbackDelivery].

(** A validation is valid when every requirement is provided, and its mask has
    exactly the bits of those that are not. *)
Definition reports (v : ContractValidation) (c : AssistingLayerContract) (f : ZeroByteFlow)
    (requirements : list ContractMissing) : Prop :=
  (valid v = true <-> Forall (fun m => provided c f m = true) requirements) /\
  forall m, Z.testbit (missing v) (missing_index m) = true <->
            m ∈ requirements /\ provided c f m = false.

(** The mask built from a list of requirements. *)
Definition missing_mask (c : AssistingLayerContract) (f : ZeroByteFlow) (l : list ContractMissing)
    (acc : Z) : Z := fold_left (fun a m => require (provided c f m) m a) l acc.

Lemma missing_index_inj m m' : missing_index m = missing_index m' -> m = m'.
Proof. by destruct m, m'. Qed.

Lemma require_testbit ok m acc m' :
  Z.testbit (require ok m acc) (missing_index m') = true <->
  Z.testbit acc (missing_index m') = true \/ ok = false /\ m' = m.
Proof.
  unfold require. destruct ok; cbn [negb]; [by split; [left|intros [?|[? _]]]|].
  rewrite Z.lor_spec, orb_true_iff. unfold missing_bit. rewrite Z.shiftl_spec by (by destruct m').
  split; (intros [H|H]; [by left|right]).
  - split; [done|]. apply missing_index_inj. change 1 with (2 ^ 0) in H.
    rewrite Z.pow2_bits_eqb in H by done. apply Z.eqb_eq in H. lia.
  - destruct H as [_ ->]. by rewrite Z.sub_diag.
Qed.

Lemma mask_testbit c f l acc m :
  Z.testbit (missing_mask c f l acc) (missing_index m) = true <->
  Z.testbit acc (missing_index m) = true \/ m ∈ l /\ provided c f m = false.
Proof.
  unfold missing_mask. revert acc. induction l as [|x l IH]; intros acc; cbn [fold_left].
  - rewrite elem_of_nil. tauto.
  - rewrite IH, require_testbit, elem_of_cons. split.
    + intros [[H|[H ->]]|[H H']]; auto.
    + intros [H|[[->|H] H']]; auto.
Qed.

Lemma mask_provided c f l acc :
  Forall (fun m => provided c f m = true) l -> missing_mask c f l acc = acc.
Proof.
  unfold missing_mask. revert acc. induction l as [|x l IH]; intros acc H; [done|].
  apply Forall_cons_iff in H as [Hx Hl]. cbn. rewrite IH by exact Hl. unfold require. by rewrite Hx.
Qed.

Lemma conclude_reports c f l v : v = conclude (missing_mask c f l 0) -> reports v c f l.
Proof.
  intros ->. assert (Hm : forall m, Z.testbit (missing_mask c f l 0) (missing_index m) = true <->
    m ∈ l /\ provided c f m = false).
  { intros m. rewrite mask_testbit, Z.bits_0. split; [by intros [?|?]|by right]. }
  split; [|exact Hm]. cbn. rewrite Z.eqb_eq. split; intros H.
  - apply List.Forall_forall. intros m Hin%list_elem_of_In. destruct (provided c f m) eqn:E; [done|].
    assert (T : m ∈ l /\ provided c f m = false) by done. apply Hm in T. rewrite H in T.
    by rewrite Z.bits_0 in T.
  - by apply mask_provided.
Qed.

(** Each validation accepts exactly the contracts and flows that provide all
    its RFC asks for, and the mask it reports has exactly the bits of the
    requirements that are not met: RFC 3243 zero-byte operation, the RFC 3409
    lower-layer guidelines, RFC 3408 reliable mode, and a flow of RFC 3242. *)
Theorem validations_exact c f :
  reports (validate_rfc3243_zero_byte_assumptions c) c f zero_byte_requirements /\
  reports (validate_rfc3409_lower_layer_guidelines c) c f
    (zero_byte_requirements ++
     [MissingContextPacketProtection; MissingContextSynchronization; MissingContextCheck]) /\
  reports (validate_rfc3408_r_mode_zero_byte_support c) c f
    (zero_byte_requirements ++ [MissingReliableMode; MissingAckDelivery; MissingStaticNackDelivery]) /\
  reports (validate_rfc3243_zero_byte_flow c f) c f
    (zero_byte_requirements ++
     [MissingIpv4UdpRtpFlow; MissingDisabledUdpChecksum; MissingRtpSequenceProgression;
      MissingCompressorSideOrdering; MissingSynchronizedTiming]).
Proof. split_and!; by apply conclude_reports. Qed.

(** The contract a call is made under is complete. *)
Lemma valid_forall v c f l : reports v c f l -> valid v = true -> Forall (fun m => provided c f m = true) l.
Proof. by intros [H _] Hv; apply H. Qed.

(** ** Context packets come back *)

Lemma csp_read_back room rtp_len header packet :
  0 <= rtp_len < 2 ^ 16 ->
  write_context_synchronization_packet room rtp_len header = Ok packet ->
  read_context_synchronization_packet packet =
    Ok {| rtp_payload_len := rtp_len; rohc_header := header |}.
Proof.
  intros Hn E. unfold write_context_synchronization_packet in E. destruct (negb _); [|done].
  injection E as <-. unfold read_context_synchronization_packet. pose proof (blen_nonneg header).
  rewrite (proj2 (Z.ltb_ge _ 3)) by blen_lia. cbn [negb oguard obind].
  pose proof (rd_u16_be16 [packet_type_csp] rtp_len header Hn) as E.
  pose proof (tail_from_app ([packet_type_csp] ++ be16 rtp_len) header) as E'.
  unfold be16 in *. cbn [app] in *. change (blen [_]) with 1 in E. change (blen [_; _; _]) with 3 in E'.
  rd_simp. change (packet_type_csp =? packet_type_csp) with true. cbn [oguard obind].
  rewrite E. cbn [obind]. by rewrite E'.
Qed.

(** The flag and the seven bits of a CRC share an octet. *)
Lemma ccp_octet crc : 0 <= crc < 128 ->
  let b := Z.lor 0x80 (Z.land crc 0x7F) in Z.land b 0x80 = 0x80 /\ Z.land b 0x7F = crc.
Proof.
  intros Hc. pose proof (byte_forall (fun crc => negb (crc <? 128) ||
    ((Z.land (Z.lor 0x80 (Z.land crc 0x7F)) 0x80 =? 0x80) &&
     (Z.land (Z.lor 0x80 (Z.land crc 0x7F)) 0x7F =? crc))) ltac:(vm_compute; reflexivity) crc
    ltac:(unfold byte_ok; lia)) as D.
  cbv beta in D. rewrite (proj2 (Z.ltb_lt crc 128)) in D by lia. cbn [negb orb] in D. by bool_prop.
Qed.

Lemma ccp_read_back room crc packet :
  0 <= crc < 128 -> write_context_check_packet room {| has_crc := true; ccp_crc7 := crc |} = Ok packet ->
  read_context_check_packet packet = Ok {| has_crc := true; ccp_crc7 := crc |}.
Proof.
  intros Hc E. unfold write_context_check_packet in E. destruct (negb _); [|done]. injection E as <-.
  cbn [has_crc ccp_crc7]. pose proof (ccp_octet crc Hc) as [E1 E2].
  generalize dependent (Z.lor 128 (Z.land crc 127)). intros b E1 E2.
  unfold read_context_check_packet. change (blen [packet_type_ccp; b]) with 2. cbn [Z.ltb Z.compare negb oguard obind].
  rd_simp. change (packet_type_ccp =? packet_type_ccp) with true. cbn [oguard obind]. by rewrite E1, E2.
Qed.
