(* ===== verification/Compressor.v ===== *)
(** * The compressor: src/core/compressor.h and compressor.cpp

    State passing: the object and the caller's [*rohc_len] are the state of
    [M]; [Rej] is the result -1, which keeps whatever was stored before.  The
    mutex serialises the calls, so a call is one atomic step. *)

From S2P Require Import Prelude Crc Cid Encoding Context EmitIr Lla.

Record Compressor := mkCompressor {
  cid_ : Z;
  packet_count_ : Z;
  context_table_ : ContextTable;
  lla_contract_ : AssistingLayerContract;
  lla_flow_ : ZeroByteFlow;
  lla_enabled_ : bool }.

(** The caller's view of a call: the object and the length in and out. *)
Record call := mkcall { self : Compressor; len : Z }.

Definition no_contract : AssistingLayerContract :=
  Build_AssistingLayerContract false false false false false false false false false false false.
Definition no_flow : ZeroByteFlow := Build_ZeroByteFlow false false false false false.

(** The constructor; [init_rtp_context] is called for its effect only. *)
Definition make_compressor (cid max_cid : Z) : outcome Compressor :=
  let max_cid := if max_cid =? 0 then cid else max_cid in
  let tbl := table_init max_cid in
  match init_rtp_context tbl cid None with
  | Ub => Ub
  | Rej => Ok (mkCompressor cid 0 tbl no_contract no_flow false)
  | Ok tbl => Ok (mkCompressor cid 0 tbl no_contract no_flow false)
  end.

Definition set_table (t : ContextTable) (c : Compressor) : Compressor :=
  mkCompressor (cid_ c) (packet_count_ c) t (lla_contract_ c) (lla_flow_ c) (lla_enabled_ c).

(** The destructor frees the table. *)
Definition destroy_compressor (c : Compressor) : Compressor :=
  set_table (table_destroy (context_table_ c)) c.

(** A store through the [Context*] a method obtained from its table. *)
Definition store_context (ctx : Context) : M call unit :=
  modify (fun s => mkcall (set_table (table_set (context_table_ (self s)) (cid_ (self s)) ctx) (self s))
                     (len s)).
Definition load_context : M call Context :=
  c <- gets self ;; lift (table_get (context_table_ c) (cid_ c)).
Definition set_len (n : Z) : M call unit := modify (fun s => mkcall (self s) n).

(** ** Reading an RTP packet into the context *)

(** [ipv4::is_fragmented]. *)
Definition is_fragmented (flags_fragment : Z) : bool := negb (Z.land flags_fragment 0x3FFF =? 0).

Definition byte_swapped (id : Z) : Z := u16 (Z.lor (Z.shiftl id 8) (Z.shiftr id 8)).

(** The IP-ID behaviour: 0 sequential, 1 sequential byte-swapped, 2 random,
    3 zero. *)
Definition classify_ip_id (had : bool) (id previous_id seq previous_seq : Z) : Z :=
  if had then
    let id_delta := u16 (id - previous_id) in
    let seq_delta := u16 (seq - previous_seq) in
    if (id =? 0) && (previous_id =? 0) then 3
    else if negb (id_delta =? 0) && (id_delta =? seq_delta) then 0
    else
      let swapped_delta := u16 (byte_swapped id - byte_swapped previous_id) in
      if negb (swapped_delta =? 0) && (swapped_delta =? seq_delta) then 1 else 2
  else if id =? 0 then 3 else 2.

(** A stride of 0 is one that is not known yet. *)
Definition infer_stride (r : RtpContext) (seq ts : Z) : RtpContext :=
  if negb (initialized r =? 0) && (ts_stride r =? 0) then
    match infer_timestamp_stride (last_seq r) (last_ts r) seq ts with
    | Some (stride, residue) => r <| ts_stride := stride |> <| ts_residue := residue |>
    | None => r
    end
  else r.

(** The first packet starts the windows. *)
Definition start_windows (r : RtpContext) : RtpContext :=
  if initialized r =? 0 then
    r <| seq_window := LsbWindow.init (last_seq r) |> <| ts_window := LsbWindow.init (last_ts r) |>
      <| initialized := 1 |>
  else r.

Definition capture_rtp_packet (ip_packet : bytes) (ctx : Context) : outcome Context :=
  check negb (blen ip_packet <? 40) in
  let! flags_fragment := rd_u16 ip_packet 6 in
  check negb (is_fragmented flags_fragment) in
  let! b0 := rd ip_packet 0 in
  let! protocol := rd ip_packet 9 in
  check negb (negb (Z.shiftr b0 4 =? 4) || negb (Z.land b0 0x0F =? 5) || negb (protocol =? 17)) in
  let had := negb (initialized (rtp ctx) =? 0) in
  let previous_id := ipv4_id ctx in
  let previous_seq := last_seq (rtp ctx) in
  let! tos := rd ip_packet 1 in
  let! ttl := rd ip_packet 8 in
  let! id := rd_u16 ip_packet 4 in
  let! saddr := rd_u32 ip_packet 12 in
  let! daddr := rd_u32 ip_packet 16 in
  let! sport := rd_u16 ip_packet 20 in
  let! dport := rd_u16 ip_packet 22 in
  let! chk := rd_u16 ip_packet 26 in
  let! seq := rd_u16 ip_packet 30 in
  let! ts := rd_u32 ip_packet 32 in
  let! vpxcc_ := rd ip_packet 28 in
  let! mpt_ := rd ip_packet 29 in
  let! ssrc_ := rd_u32 ip_packet 36 in
  let ctx := ctx <| ip_version := 4 |> <| ipv4_tos := tos |> <| ipv4_ttl := ttl |>
                 <| ipv4_id := id |>
                 <| ipv4_flags := u8 (Z.land (Z.shiftr flags_fragment 13) 0x07) |>
                 <| ipv4_saddr := saddr |> <| ipv4_daddr := daddr |> <| ipv4_protocol := protocol |>
                 <| udp_sport := sport |> <| udp_dport := dport |> <| udp_check := chk |>
                 <| udp_checksum_used := negb (chk =? 0) |> <| msn := seq |> in
  let behavior := classify_ip_id had id previous_id seq previous_seq in
  let ctx := ctx <| ipv4_id_behavior := behavior |>
                 <| ipv4_id_sequential := if had then behavior <=? 1 else false |> in
  let r := infer_stride (rtp ctx) seq ts in
  let r := r <| vpxcc := vpxcc_ |> <| mpt := mpt_ |> <| last_seq := seq |> <| last_ts := ts |>
             <| ssrc := ssrc_ |> in
  Ok (ctx <| rtp := start_windows r |>).

(** ** Compressing *)

(** [*ctx = context_before_compress; return -1]. *)
Definition restoring {A} (before : Context) (m : M call A) : M call A := fun s =>
  match m s with
  | (Rej, s') => (Rej, snd (store_context before s'))
  | r => r
  end.

(** The packet the state calls for, and the state after it. *)
Definition emit_next (ctx : Context) (capacity : Z) : outcome (bytes * Context) :=
  match rohc_state ctx with
  | NoContext =>
      let! packet := emit_ir_rtp capacity ctx in
      Ok (packet, ctx <| rohc_state := StaticEstablished |>)
  | StaticEstablished | DynamicEstablished =>
      let! packet := emit_ir_dyn_rtp capacity ctx in
      Ok (packet, ctx <| rohc_state := DynamicEstablished |>)
  end.

Definition fixed_header_len : Z := 40.

Definition count_packet : M call unit :=
  modify (fun s =>
    let c := self s in
    mkcall (mkCompressor (cid_ c) (u32 (packet_count_ c + 1)) (context_table_ c) (lla_contract_ c)
              (lla_flow_ c) (lla_enabled_ c)) (len s)).

Definition compress (ip_packet : bytes) : M call bytes :=
  output_capacity <- gets len ;;
  guard (negb (output_capacity =? 0)) ;;;
  before <- load_context ;;
  restoring before (
    let ctx := before <| profile := RTP |> <| mode := Optimistic |> in
    store_context ctx ;;;
    ctx <- lift (capture_rtp_packet ip_packet ctx) ;;
    store_context ctx ;;;
    e <- lift (emit_next ctx output_capacity) ;;
    store_context (snd e) ;;;
    set_len (blen (fst e)) ;;;
    let payload_len := usub (blen ip_packet) fixed_header_len in
    guard (negb ((output_capacity <? blen (fst e)) ||
                 (usub output_capacity (blen (fst e)) <? payload_len))) ;;;
    payload <- lift (tail_from ip_packet fixed_header_len) ;;
    set_len (blen (fst e) + payload_len) ;;;
    count_packet ;;;
    ret (fst e ++ payload)).

(** ** The link-layer assisted profile *)

Definition lla_runtime_contract_valid (c : AssistingLayerContract) (f : ZeroByteFlow) : bool :=
  valid (validate_rfc3409_lower_layer_guidelines c) && valid (validate_rfc3243_zero_byte_flow c f).

Definition lla_context_established (ctx : Context) : bool :=
  (profile_eqb (profile ctx) RTP || profile_eqb (profile ctx) LLA_RTP) &&
  negb (state_eqb (rohc_state ctx) NoContext).

Definition lla_context_ready (ctx : Context) : bool :=
  lla_context_established ctx && state_eqb (rohc_state ctx) DynamicEstablished.

Definition enable_rfc4362_lla (contract : AssistingLayerContract) (flow : ZeroByteFlow)
    (c : Compressor) : bool * Compressor :=
  if negb (lla_runtime_contract_valid contract flow) then (false, c)
  else (true, mkCompressor (cid_ c) (packet_count_ c) (context_table_ c) contract flow true).

Definition scratch_size : Z := 512.

(** [compress] into a local buffer: the caller's length stays as it is. *)
Definition compress_scratch (ip_packet : bytes) : M call bytes := fun s =>
  match compress ip_packet (mkcall (self s) scratch_size) with
  | (o, s') => (o, mkcall (self s') (len s))
  end.

Definition rfc4362_emit_nhp (ip_packet : bytes) : M call unit :=
  c <- gets self ;;
  guard (negb (negb (lla_enabled_ c) ||
               negb (can_emit_no_header_packet_for_flow (lla_contract_ c) (lla_flow_ c)))) ;;;
  ctx <- load_context ;;
  guard (lla_context_ready ctx) ;;;
  compress_scratch ip_packet ;;;
  set_len 0.

Definition rfc4362_emit_csp (ip_packet : bytes) : M call bytes :=
  c <- gets self ;;
  guard (negb (negb (lla_enabled_ c) ||
               negb (can_emit_context_synchronization_packet (lla_contract_ c)))) ;;;
  header <- compress_scratch ip_packet ;;
  let rtp_payload_len := if 40 <? blen ip_packet then blen ip_packet - 40 else 0 in
  guard (negb (0xFFFF <? rtp_payload_len)) ;;;
  csp_len <- gets len ;;
  packet <- lift (write_context_synchronization_packet csp_len (u16 rtp_payload_len) header) ;;
  set_len (blen packet) ;;;
  ret packet.

Definition rfc4362_emit_ccp : M call bytes :=
  c <- gets self ;;
  guard (negb (negb (lla_enabled_ c) ||
               negb (can_emit_context_check_packet (lla_contract_ c)))) ;;;
  ctx <- load_context ;;
  guard (lla_context_established ctx) ;;;
  crc <- lift (context_crc7 ctx) ;;
  ccp_len <- gets len ;;
  packet <- lift (write_context_check_packet ccp_len {| has_crc := true; ccp_crc7 := crc |}) ;;
  set_len (blen packet) ;;;
  ret packet.
