(* ===== verification/Decompressor.v ===== *)
(** * The decompressor: src/core/decompressor.h and decompressor.cpp

    State passing as in [Compressor]: the object and the caller's [*ip_len]
    are the state, [Rej] is the result -1. *)

From S2P Require Import Prelude Crc Cid Encoding Context Cursor DecodeIr DecodeIrDyn Lla Compressor.

Record Decompressor := mkDecompressor {
  d_cid : Z;
  d_table : ContextTable;
  d_contract : AssistingLayerContract;
  d_flow : ZeroByteFlow;
  d_enabled : bool }.

Record dcall := mkdcall { d_self : Decompressor; d_len : Z }.

(** The constructor leaves every context of the table at its initial value. *)
Definition make_decompressor (cid max_cid : Z) : Decompressor :=
  let max_cid := if max_cid =? 0 then cid else max_cid in
  mkDecompressor cid (table_init max_cid) no_contract no_flow false.

Definition d_set_table (t : ContextTable) (d : Decompressor) : Decompressor :=
  mkDecompressor (d_cid d) t (d_contract d) (d_flow d) (d_enabled d).

Definition destroy_decompressor (d : Decompressor) : Decompressor :=
  d_set_table (table_destroy (d_table d)) d.

Definition d_store (ctx : Context) : M dcall unit :=
  modify (fun s => mkdcall (d_set_table (table_set (d_table (d_self s)) (d_cid (d_self s)) ctx) (d_self s))
                     (d_len s)).
Definition d_load : M dcall Context :=
  d <- gets d_self ;; lift (table_get (d_table d) (d_cid d)).
Definition d_set_len (n : Z) : M dcall unit := modify (fun s => mkdcall (d_self s) n).

(** ** The IPv4 header checksum *)

(** The sum of the big-endian 16-bit words, the last one padded with a zero
    octet, in a [uint32_t]. *)
Fixpoint sum_words (hdr : bytes) (sum : Z) : Z :=
  match hdr with
  | [] => sum
  | [a] => u32 (sum + u16 (Z.shiftl a 8))
  | a :: b :: rest => sum_words rest (u32 (sum + Z.lor (u16 (Z.shiftl a 8)) b))
  end.

(** [while(sum >> 16) sum = (sum & 0xFFFF) + (sum >> 16)]. *)
Fixpoint fold_carries (fuel : nat) (sum : Z) : option Z :=
  match fuel with
  | O => None
  | S fuel =>
      if Z.shiftr sum 16 =? 0 then Some sum
      else fold_carries fuel (u32 (Z.land sum 0xFFFF + Z.shiftr sum 16))
  end.

(** Two rounds of folding always suffice for a [uint32_t], and a third test
    ends the loop. *)
Definition fold_fuel : nat := 3.

Definition ipv4_checksum (hdr : bytes) : option Z :=
  match fold_carries fold_fuel (sum_words hdr 0) with
  | Some sum => Some (u16 (2 ^ 32 - 1 - sum))
  | None => None
  end.

(** ** Rebuilding a packet *)

(** The IPv4 header, with the checksum field [csum]. *)
Definition ip_header (ctx : Context) (total csum : Z) : bytes :=
  [0x45; ipv4_tos ctx; u8 (Z.shiftr total 8); Z.land total 0xFF] ++
  [u8 (Z.shiftr (ipv4_id ctx) 8); Z.land (ipv4_id ctx) 0xFF;
   u8 (Z.shiftl (Z.land (ipv4_flags ctx) 0x07) 5); 0] ++
  [ipv4_ttl ctx; 17; u8 (Z.shiftr csum 8); Z.land csum 0xFF] ++
  be32 (ipv4_saddr ctx) ++ be32 (ipv4_daddr ctx).

Definition udp_rtp_header (ctx : Context) (payload_len : Z) : bytes :=
  be16 (udp_sport ctx) ++ be16 (udp_dport ctx) ++ be16 (u16 (20 + payload_len)) ++
  be16 (udp_check ctx) ++
  [vpxcc (rtp ctx); mpt (rtp ctx)] ++ be16 (last_seq (rtp ctx)) ++ be32 (last_ts (rtp ctx)) ++
  be32 (ssrc (rtp ctx)).

(** The packet, for a buffer of [capacity] octets; the loop of the checksum
    never runs out of fuel ([ipv4_checksum_total]). *)
Definition build_rtp_packet_from_context (capacity : Z) (ctx : Context) (payload : bytes)
    : outcome bytes :=
  check negb ((2 ^ 64 - 1 - 40 <? blen payload) || (0xFFFF <? 40 + blen payload)) in
  let total := 40 + blen payload in
  check negb (capacity <? total) in
  match ipv4_checksum (ip_header ctx total 0) with
  | Some csum => Ok (ip_header ctx total csum ++ udp_rtp_header ctx (blen payload) ++ payload)
  | None => Ub
  end.

(** ** Decompressing *)

(** [fail]: the length is cleared on every refusal. *)
Definition failing {A} (m : M dcall A) : M dcall A := fun s =>
  match m s with
  | (Rej, s') => (Rej, mkdcall (d_self s') 0)
  | r => r
  end.

(** IR packets by their type bits, anything else as an IR-DYN packet. *)
Definition decode_packet (rohc_packet : bytes) (decoded : Context) : outcome (Context * Z) :=
  let! b0 := rd rohc_packet 0 in
  if Z.land b0 0xFE =? 0xFC then decode_ir_rtp rohc_packet decoded
  else run_decoder decode_ir_dyn_rtp rohc_packet decoded.

Definition decompress (rohc_packet : bytes) : M dcall bytes :=
  output_capacity <- gets d_len ;;
  failing (
    guard (negb (blen rohc_packet =? 0)) ;;;
    ctx <- d_load ;;
    r <- lift (decode_packet rohc_packet (ctx <| profile := RTP |> <| mode := Optimistic |>)) ;;
    let '(decoded, header_len) := r in
    guard (negb (blen rohc_packet <? header_len)) ;;;
    d_set_len output_capacity ;;;
    guard (ip_version decoded =? 4) ;;;
    payload <- lift (tail_from rohc_packet header_len) ;;
    packet <- lift (build_rtp_packet_from_context output_capacity decoded payload) ;;
    d_set_len (blen packet) ;;;
    d_store decoded ;;;
    ret packet).

(** ** The link-layer assisted profile *)

Definition d_enable_rfc4362_lla (contract : AssistingLayerContract) (flow : ZeroByteFlow)
    (d : Decompressor) : bool * Decompressor :=
  if negb (lla_runtime_contract_valid contract flow) then (false, d)
  else (true, mkDecompressor (d_cid d) (d_table d) contract flow true).

(** The context one packet later: sequence number, IP-ID and timestamp. *)
Definition advance_context (ctx : Context) : Context :=
  let ctx := ctx <| rtp := rtp ctx <| last_seq := u16 (last_seq (rtp ctx) + 1) |> |> in
  let ctx := if (ip_version ctx =? 4) && ipv4_id_sequential ctx
             then ctx <| ipv4_id := u16 (ipv4_id ctx + 1) |> else ctx in
  if 0 <? ts_stride (rtp ctx)
  then ctx <| rtp := rtp ctx <| last_ts := u32 (last_ts (rtp ctx) + ts_stride (rtp ctx)) |> |>
  else ctx.

(** The context moves before the packet is built, and stays moved if the
    packet does not fit. *)
Definition rfc4362_receive_nhp (payload : bytes) : M dcall bytes :=
  d <- gets d_self ;;
  guard (negb (negb (d_enabled d) ||
               negb (can_emit_no_header_packet_for_flow (d_contract d) (d_flow d)))) ;;;
  ctx <- d_load ;;
  guard (lla_context_ready ctx) ;;;
  d_store (advance_context ctx) ;;;
  ip_len <- gets d_len ;;
  packet <- lift (build_rtp_packet_from_context ip_len (advance_context ctx) payload) ;;
  d_set_len (blen packet) ;;;
  ret packet.

Definition rfc4362_receive_csp (csp_packet : bytes) : M dcall bytes :=
  d <- gets d_self ;;
  guard (negb (negb (d_enabled d) ||
               negb (can_emit_context_synchronization_packet (d_contract d)))) ;;;
  csp <- lift (read_context_synchronization_packet csp_packet) ;;
  decompress (rohc_header csp).

Definition rfc4362_receive_ccp (ccp_packet : bytes) : M dcall unit :=
  d <- gets d_self ;;
  guard (negb (negb (d_enabled d) ||
               negb (can_emit_context_check_packet (d_contract d)))) ;;;
  ccp <- lift (read_context_check_packet ccp_packet) ;;
  guard (has_crc ccp) ;;;
  ctx <- d_load ;;
  guard (lla_context_established ctx) ;;;
  crc <- lift (context_crc7 ctx) ;;
  guard (ccp_crc7 ccp =? crc).

(** ** The checksum against the one's complement sum *)

Fixpoint word_sum (hdr : bytes) : Z :=
  match hdr with
  | [] => 0
  | [a] => a * 256
  | a :: b :: rest => a * 256 + b + word_sum rest
  end.

(** The one's complement sum of words that add up to [s]. *)
Definition ones_sum (s : Z) : Z := if s =? 0 then 0 else (s - 1) mod 65535 + 1.

Lemma octets_ind (P : bytes -> Prop) :
  P [] -> (forall a, P [a]) -> (forall a b l, P l -> P (a :: b :: l)) -> forall l, P l.
Proof.
  intros H0 H1 H2. assert (H : forall n l, (length l <= n)%nat -> P l).
  { induction n as [|n IH]; intros [|a [|b l]] Hl; cbn in Hl; auto; try lia. apply H2, IH. lia. }
  intros l. by apply (H (length l)).
Qed.

Lemma word_sum_nonneg l : bytes_ok l -> 0 <= word_sum l <= 65536 * Z.of_nat (length l).
Proof.
  induction l as [|a|a b l IH] using octets_ind; intros H; cbn [word_sum length]; [lia|..].
  - apply bytes_ok_cons in H as [Ha _]. unfold byte_ok in Ha. lia.
  - apply bytes_ok_cons in H as [Ha H]. apply bytes_ok_cons in H as [Hb H].
    specialize (IH H). unfold byte_ok in *. lia.
Qed.

Lemma word_octets a b : byte_ok a -> byte_ok b -> Z.lor (u16 (Z.shiftl a 8)) b = a * 256 + b.
Proof.
  intros Ha Hb. rewrite <- combine16 by done. unfold byte_ok, u16 in *.
  rewrite Z.mod_small; [done|]. rewrite Z.shiftl_mul_pow2 by lia. lia.
Qed.

Lemma sum_words_eq l s :
  bytes_ok l -> 0 <= s -> s + word_sum l < 2 ^ 32 -> sum_words l s = s + word_sum l.
Proof.
  revert s. induction l as [|a|a b l IH] using octets_ind; intros s H Hs Hb; cbn [sum_words word_sum] in *.
  - lia.
  - apply bytes_ok_cons in H as [Ha _]. unfold byte_ok in Ha.
    unfold u16, u32. rewrite Z.shiftl_mul_pow2 by lia. change (2 ^ 8) with 256.
    rewrite (Z.mod_small (a * 256)) by lia. rewrite Z.mod_small by lia. lia.
  - apply bytes_ok_cons in H as [Ha H]. apply bytes_ok_cons in H as [Hb' H].
    rewrite word_octets by done. pose proof (word_sum_nonneg l H). unfold byte_ok in *.
    assert (E : u32 (s + (a * 256 + b)) = s + (a * 256 + b)) by (apply Z.mod_small; lia).
    rewrite E, IH by (done || lia). lia.
Qed.

Lemma fold_step s :
  0 <= s < 2 ^ 32 -> u32 (Z.land s 0xFFFF + Z.shiftr s 16) = s mod 65536 + s / 65536.
Proof.
  intros Hs. change 0xFFFF with (Z.ones 16). rewrite Z.land_ones, Z.shiftr_div_pow2 by lia.
  change (2 ^ 16) with 65536. apply Z.mod_small. Z.div_mod_to_equations. lia.
Qed.

Lemma ones_sum_step s : 0 <= s -> ones_sum (s mod 65536 + s / 65536) = ones_sum s.
Proof.
  intros Hs. unfold ones_sum.
  destruct (Z.eqb_spec s 0) as [->|Hn]; [done|].
  rewrite (proj2 (Z.eqb_neq _ 0)) by (Z.div_mod_to_equations; lia).
  f_equal. replace (s mod 65536 + s / 65536 - 1) with (s - 1 + (- (s / 65536)) * 65535)
    by (pose proof (Z.div_mod s 65536); lia).
  apply Z.mod_add. lia.
Qed.

Lemma ones_sum_small s : 0 <= s < 65536 -> ones_sum s = s.
Proof.
  intros Hs. unfold ones_sum. destruct (Z.eqb_spec s 0) as [->|]; [done|].
  rewrite Z.mod_small by lia. lia.
Qed.

Lemma fold_carries_eq s : 0 <= s < 2 ^ 32 -> fold_carries fold_fuel s = Some (ones_sum s).
Proof.
  intros Hs. unfold fold_fuel.
  assert (Stop : forall n s, 0 <= s < 65536 -> fold_carries (S n) s = Some (ones_sum s)).
  { intros n t Ht. cbn [fold_carries]. rewrite Z.shiftr_div_pow2 by lia.
    change (2 ^ 16) with 65536. rewrite Z.div_small by lia. by rewrite ones_sum_small. }
  assert (Step : forall n s, 0 <= s < 2 ^ 32 ->
      fold_carries n (s mod 65536 + s / 65536) = Some (ones_sum s) -> 65536 <= s ->
      fold_carries (S n) s = Some (ones_sum s)).
  { intros n t Ht E Hge. cbn [fold_carries]. rewrite fold_step by done.
    rewrite (proj2 (Z.eqb_neq _ _)); [done|]. rewrite Z.shiftr_div_pow2 by lia.
    change (2 ^ 16) with 65536. Z.div_mod_to_equations. lia. }
  destruct (Z.lt_ge_cases s 65536); [apply Stop; lia|]. apply Step; [done| |done].
  rewrite <- ones_sum_step by lia. set (t := s mod 65536 + s / 65536).
  assert (Ht : 0 <= t < 131071) by (unfold t; Z.div_mod_to_equations; lia).
  destruct (Z.lt_ge_cases t 65536); [apply Stop; lia|]. apply Step; [lia| |done].
  rewrite <- ones_sum_step by lia. apply Stop. Z.div_mod_to_equations. lia.
Qed.

Lemma ones_sum_bound s : 0 <= s -> 0 <= ones_sum s < 65536.
Proof.
  intros Hs. unfold ones_sum. destruct (s =? 0); [lia|].
  pose proof (Z.mod_pos_bound (s - 1) 65535 ltac:(lia)). lia.
Qed.

Lemma ipv4_checksum_eq hdr :
  bytes_ok hdr -> word_sum hdr < 2 ^ 32 ->
  ipv4_checksum hdr = Some (65535 - ones_sum (word_sum hdr)).
Proof.
  intros H Hb. pose proof (word_sum_nonneg hdr H). unfold ipv4_checksum.
  rewrite sum_words_eq by (done || lia). rewrite Z.add_0_l, fold_carries_eq by lia. f_equal.
  pose proof (ones_sum_bound (word_sum hdr) ltac:(lia)).
  unfold u16. change (2 ^ 16) with 65536.
  replace (2 ^ 32 - 1 - ones_sum (word_sum hdr))
    with (65535 - ones_sum (word_sum hdr) + 65535 * 65536) by lia.
  rewrite Z.mod_add by lia. apply Z.mod_small. lia.
Qed.

(** Storing two octets in place of zeros at an even offset adds their word. *)
Lemma word_sum_stored before a b after :
  (length before mod 2 = 0)%nat ->
  word_sum (before ++ [a; b] ++ after) = word_sum (before ++ [0; 0] ++ after) + (a * 256 + b).
Proof.
  induction before as [|x|x y l IH] using octets_ind; intros H; cbn [app word_sum] in *; [lia|done|].
  rewrite IH; [lia|]. cbn [length] in H. revert H. clear.
  change (S (S (length l))) with (2 + length l)%nat. intros H.
  by rewrite Nat.Div0.add_mod, Nat.Div0.mod_same, Nat.add_0_l, Nat.Div0.mod_mod in H.
Qed.

(** The complement of a one's complement sum completes it to 0xFFFF. *)
Lemma ones_sum_complement s : 0 < s -> ones_sum (s + (65535 - ones_sum s)) = 65535.
Proof.
  intros Hs. unfold ones_sum. rewrite (proj2 (Z.eqb_neq s 0)) by lia.
  pose proof (Z.mod_pos_bound (s - 1) 65535 ltac:(lia)).
  rewrite (proj2 (Z.eqb_neq _ 0)) by lia.
  replace (s + (65535 - ((s - 1) mod 65535 + 1)) - 1)
    with (65534 + ((s - 1) / 65535) * 65535) by (pose proof (Z.div_mod (s - 1) 65535); lia).
  by rewrite Z.mod_add by lia.
Qed.

(** The checksum over a header with a zero checksum field, stored in that
    field, makes the sum of the header's words 0xFFFF. *)
Lemma ipv4_checksum_stored before after :
  bytes_ok before -> bytes_ok after -> (length before mod 2 = 0)%nat ->
  0 < word_sum (before ++ [0; 0] ++ after) ->
  blen (before ++ [0; 0] ++ after) < 2 ^ 16 ->
  exists csum, ipv4_checksum (before ++ [0; 0] ++ after) = Some csum /\ 0 <= csum < 2 ^ 16 /\
               ones_sum (word_sum (before ++ [u8 (Z.shiftr csum 8); Z.land csum 0xFF] ++ after)) = 65535.
Proof.
  intros Hb Ha Hl Hp Hn. set (h := before ++ [0; 0] ++ after) in *.
  assert (Hh : bytes_ok h) by (unfold h; apply bytes_ok_app; split; [done|]; repeat constructor; done).
  pose proof (word_sum_nonneg h Hh). unfold blen in Hn.
  eexists. split; [apply ipv4_checksum_eq; [done|lia]|].
  pose proof (ones_sum_bound (word_sum h) ltac:(lia)). split; [lia|].
  rewrite word_sum_stored by done. fold h. rewrite be16_value by lia.
  by apply ones_sum_complement.
Qed.

(** ** The packet rebuilt *)

Definition ip_before (ctx : Context) (total : Z) : bytes :=
  [0x45; ipv4_tos ctx; u8 (Z.shiftr total 8); Z.land total 0xFF;
   u8 (Z.shiftr (ipv4_id ctx) 8); Z.land (ipv4_id ctx) 0xFF;
   u8 (Z.shiftl (Z.land (ipv4_flags ctx) 0x07) 5); 0; ipv4_ttl ctx; 17].
Definition ip_after (ctx : Context) : bytes := be32 (ipv4_saddr ctx) ++ be32 (ipv4_daddr ctx).

Lemma ip_header_parts ctx total csum :
  ip_header ctx total csum = ip_before ctx total ++ [u8 (Z.shiftr csum 8); Z.land csum 0xFF] ++ ip_after ctx.
Proof. reflexivity. Qed.

Lemma ip_before_ok ctx total : context_ok ctx -> bytes_ok (ip_before ctx total).
Proof.
  intros H. assert (byte_ok (ipv4_tos ctx) /\ byte_ok (ipv4_ttl ctx)) as [? ?] by (split; apply H).
  unfold ip_before. repeat (apply bytes_ok_cons; split); auto with rohc; unfold byte_ok; lia.
Qed.

Lemma ip_after_ok ctx : bytes_ok (ip_after ctx).
Proof. apply bytes_ok_app; auto with rohc. Qed.

Lemma word_sum_before a b l l' : 0 < a -> bytes_ok (a :: b :: l) -> bytes_ok l' ->
  0 < word_sum ((a :: b :: l) ++ l').
Proof.
  intros Ha H H'. cbn [app word_sum]. apply bytes_ok_cons in H as [_ H]. apply bytes_ok_cons in H as [Hb H].
  pose proof (word_sum_nonneg (l ++ l') ltac:(by apply bytes_ok_app)). unfold byte_ok in Hb. lia.
Qed.

(** The IP header it writes adds up to 0xFFFF, for every context. *)
Lemma header_checksum ctx total :
  context_ok ctx ->
  exists csum, ipv4_checksum (ip_header ctx total 0) = Some csum /\ 0 <= csum < 2 ^ 16 /\
               ones_sum (word_sum (ip_header ctx total csum)) = 65535.
Proof.
  intros H. pose proof (ip_before_ok ctx total H) as Hb. pose proof (ip_after_ok ctx) as Ha.
  setoid_rewrite ip_header_parts. apply ipv4_checksum_stored; [done|done|done| |done].
  apply word_sum_before; [done|done|]. apply bytes_ok_app. split; [|done].
  repeat constructor; done.
Qed.

Lemma udp_rtp_header_ok ctx n : context_ok ctx -> bytes_ok (udp_rtp_header ctx n).
Proof.
  intros H. assert (byte_ok (vpxcc (rtp ctx)) /\ byte_ok (mpt (rtp ctx))) as [? ?] by (split; apply H).
  unfold udp_rtp_header. repeat (apply bytes_ok_app; split); auto with rohc.
  repeat (apply bytes_ok_cons; split); auto with rohc.
Qed.

Lemma blen_udp_rtp_header ctx n : blen (udp_rtp_header ctx n) = 20.
Proof. reflexivity. Qed.

(** What the packet rebuilt is, whatever the context and the payload. *)
Definition rebuilt (ctx : Context) (payload ip : bytes) : Prop :=
  let total := 40 + blen payload in
  exists csum, ip = ip_header ctx total csum ++ udp_rtp_header ctx (blen payload) ++ payload /\
               ones_sum (word_sum (ip_header ctx total csum)) = 65535 /\ total < 2 ^ 16.

Lemma build_eq capacity ctx payload :
  context_ok ctx -> blen payload < 2 ^ 63 ->
  if (40 + blen payload <=? 0xFFFF) && (40 + blen payload <=? capacity)
  then exists ip, build_rtp_packet_from_context capacity ctx payload = Ok ip /\ rebuilt ctx payload ip /\
                  blen ip = 40 + blen payload
  else build_rtp_packet_from_context capacity ctx payload = Rej.
Proof.
  intros H Hl. pose proof (blen_nonneg payload). unfold build_rtp_packet_from_context.
  rewrite (proj2 (Z.ltb_ge _ (blen payload))) by lia. cbn [orb].
  destruct (Z.leb_spec (40 + blen payload) 0xFFFF); cbn [andb].
  2: { by rewrite (proj2 (Z.ltb_lt _ _)) by lia. }
  rewrite (proj2 (Z.ltb_ge _ (40 + blen payload))) by lia. cbn [negb oguard obind].
  destruct (Z.leb_spec (40 + blen payload) capacity).
  2: { by rewrite (proj2 (Z.ltb_lt _ _)) by lia. }
  rewrite (proj2 (Z.ltb_ge _ _)) by lia. cbn [negb oguard obind].
  destruct (header_checksum ctx (40 + blen payload) H) as (csum & -> & Hc & Hs).
  eexists. split; [done|]. split; [exists csum; split_and!; [done|done|lia]|].
  rewrite !blen_app, blen_udp_rtp_header. unfold ip_header. autorewrite with blen. lia.
Qed.
