(* ===== verification/EndToEnd.v ===== *)
(** * Compressor and decompressor together

    RTP packets over IPv4 as they are on the wire, what the compressor reads
    from one, and what the decompressor rebuilds: the transfer of one packet
    over CID 0, of a whole stream, the state machine that drives both ends and
    their synchronisation under the link-layer assisted profile. *)

From S2P Require Import Prelude Crc Cid Encoding Context Cursor Chains EmitIr DecodeIr.
From S2P Require Import StandardIr Safety IrProperties Lla Compressor Decompressor.

(** ** RTP packets *)

(** What varies in a packet the program carries: an IPv4 header without
    options or fragmentation, UDP, and an RTP header of version 2 without
    padding, extension or CSRC list. *)
Record RtpPacket := mkPacket {
  p_tos : Z; p_id : Z; p_df : bool; p_ttl : Z; p_saddr : Z; p_daddr : Z;
  p_sport : Z; p_dport : Z; p_check : Z;
  p_mpt : Z; p_seq : Z; p_ts : Z; p_ssrc : Z; p_payload : bytes }.

Definition ip_part (p : RtpPacket) (csum : bytes) : bytes :=
  [0x45; p_tos p] ++ be16 (40 + blen (p_payload p)) ++ be16 (p_id p) ++
  [if p_df p then 0x40 else 0; 0; p_ttl p; 17] ++ csum ++ be32 (p_saddr p) ++ be32 (p_daddr p).

(** The checksum of RFC 791: the complement of the one's complement sum. *)
Definition ip_csum (p : RtpPacket) : Z := 65535 - ones_sum (word_sum (ip_part p [0; 0])).

Definition transport_part (p : RtpPacket) : bytes :=
  be16 (p_sport p) ++ be16 (p_dport p) ++ be16 (20 + blen (p_payload p)) ++ be16 (p_check p) ++
  [0x80; p_mpt p] ++ be16 (p_seq p) ++ be32 (p_ts p) ++ be32 (p_ssrc p).

Definition wire (p : RtpPacket) : bytes :=
  ip_part p (be16 (ip_csum p)) ++ transport_part p ++ p_payload p.

Definition packet_ok (p : RtpPacket) : Prop :=
  byte_ok (p_tos p) /\ 0 <= p_id p < 2 ^ 16 /\ byte_ok (p_ttl p) /\
  0 <= p_saddr p < 2 ^ 32 /\ 0 <= p_daddr p < 2 ^ 32 /\
  0 <= p_sport p < 2 ^ 16 /\ 0 <= p_dport p < 2 ^ 16 /\ 0 <= p_check p < 2 ^ 16 /\
  byte_ok (p_mpt p) /\ 0 <= p_seq p < 2 ^ 16 /\ 0 <= p_ts p < 2 ^ 32 /\ 0 <= p_ssrc p < 2 ^ 32 /\
  bytes_ok (p_payload p) /\ 40 + blen (p_payload p) < 2 ^ 16.

Lemma blen_wire p : blen (wire p) = 40 + blen (p_payload p).
Proof. unfold wire, ip_part, transport_part. autorewrite with blen. lia. Qed.

(** Words at fixed places of an explicit list. *)
Lemma rd_u16_cells l i v :
  rd l i = Ok (u8 (Z.shiftr v 8)) -> rd l (i + 1) = Ok (Z.land v 255) -> 0 <= v < 2 ^ 16 ->
  rd_u16 l i = Ok v.
Proof.
  intros E0 E1 Hv. unfold rd_u16. rewrite E0, E1. cbn [obind].
  by rewrite combine16, be16_value by auto with rohc.
Qed.

Lemma rd_u32_cells l i v :
  rd l i = Ok (u8 (Z.shiftr v 24)) -> rd l (i + 1) = Ok (u8 (Z.shiftr v 16)) ->
  rd l (i + 2) = Ok (u8 (Z.shiftr v 8)) -> rd l (i + 3) = Ok (Z.land v 255) -> 0 <= v < 2 ^ 32 ->
  rd_u32 l i = Ok v.
Proof.
  intros E0 E1 E2 E3 Hv. unfold rd_u32. rewrite E0, E1, E2, E3. cbn [obind].
  by rewrite combine32, be32_value by auto with rohc.
Qed.

(** ** What the compressor reads *)

(** The context after a packet: every header field in its place, the IP-ID
    behaviour and the timestamp stride inferred from the packet before. *)
Definition captured (p : RtpPacket) (ctx : Context) : Context :=
  let had := negb (initialized (rtp ctx) =? 0) in
  let behavior := classify_ip_id had (p_id p) (ipv4_id ctx) (p_seq p) (last_seq (rtp ctx)) in
  let r := infer_stride (rtp ctx) (p_seq p) (p_ts p) in
  ctx <| ip_version := 4 |> <| ipv4_tos := p_tos p |> <| ipv4_ttl := p_ttl p |>
      <| ipv4_id := p_id p |> <| ipv4_flags := if p_df p then 2 else 0 |>
      <| ipv4_saddr := p_saddr p |> <| ipv4_daddr := p_daddr p |> <| ipv4_protocol := 17 |>
      <| udp_sport := p_sport p |> <| udp_dport := p_dport p |> <| udp_check := p_check p |>
      <| udp_checksum_used := negb (p_check p =? 0) |> <| msn := p_seq p |>
      <| ipv4_id_behavior := behavior |>
      <| ipv4_id_sequential := if had then behavior <=? 1 else false |>
      <| rtp := start_windows (r <| vpxcc := 0x80 |> <| mpt := p_mpt p |> <| last_seq := p_seq p |>
                                 <| last_ts := p_ts p |> <| ssrc := p_ssrc p |>) |>.

Section Captured.
Context (p : RtpPacket) (Hp : packet_ok p).

Lemma wire_words :
  rd_u16 (wire p) 4 = Ok (p_id p) /\ rd_u32 (wire p) 12 = Ok (p_saddr p) /\
  rd_u32 (wire p) 16 = Ok (p_daddr p) /\ rd_u16 (wire p) 20 = Ok (p_sport p) /\
  rd_u16 (wire p) 22 = Ok (p_dport p) /\ rd_u16 (wire p) 26 = Ok (p_check p) /\
  rd_u16 (wire p) 30 = Ok (p_seq p) /\ rd_u32 (wire p) 32 = Ok (p_ts p) /\
  rd_u32 (wire p) 36 = Ok (p_ssrc p).
Proof.
  unfold packet_ok in Hp. decompose [and] Hp.
  split_and!; (apply rd_u16_cells || apply rd_u32_cells); first [reflexivity|lia].
Qed.

Lemma capture_wire ctx : capture_rtp_packet (wire p) ctx = Ok (captured p ctx).
Proof.
  destruct wire_words as (E4 & E12 & E16 & E20 & E22 & E26 & E30 & E32 & E36).
  unfold capture_rtp_packet. rewrite blen_wire. pose proof (blen_nonneg (p_payload p)).
  rewrite (proj2 (Z.ltb_ge _ 40)) by lia. cbn [negb oguard obind].
  assert (E6 : rd_u16 (wire p) 6 = Ok (if p_df p then 0x4000 else 0))
    by (transitivity (Ok (Z.lor (Z.shiftl (if p_df p then 0x40 else 0) 8) 0));
        [reflexivity|by destruct (p_df p)]).
  rewrite E6. cbn [obind].
  replace (is_fragmented _) with false by (by destruct (p_df p)). cbn [negb oguard obind].
  change (rd (wire p) 0) with (Ok 0x45). change (rd (wire p) 9) with (Ok 17).
  change (rd (wire p) 1) with (Ok (p_tos p)). change (rd (wire p) 8) with (Ok (p_ttl p)).
  change (rd (wire p) 28) with (Ok 0x80). change (rd (wire p) 29) with (Ok (p_mpt p)).
  rewrite E4, E12, E16, E20, E22, E26, E30, E32, E36. cbn [obind].
  change (negb (Z.shiftr 0x45 4 =? 4)) with false. change (negb (Z.land 0x45 0x0F =? 5)) with false.
  change (negb (17 =? 17)) with false. cbn [orb negb oguard obind].
  f_equal. unfold captured. cbv zeta.
  replace (u8 (Z.land (Z.shiftr (if p_df p then 0x4000 else 0) 13) 0x07))
    with (if p_df p then 2 else 0) by (by destruct (p_df p)).
  reflexivity.
Qed.
End Captured.

(** ** The compressor's context *)

(** What holds of it between calls, on CID 0 of a small-CID channel. *)
Definition sender_ready (ctx : Context) : Prop :=
  context_ok ctx /\ cid ctx = 0 /\ large_cid ctx = false /\ ipv4_options_len ctx = 0 /\
  csrc_list_len (rtp ctx) = 0 /\ extension_len (rtp ctx) = 0 /\ padding_len (rtp ctx) = 0.

(** What the decompressor's context must keep. *)
Definition receiver_ready (ctx : Context) : Prop :=
  context_ok ctx /\ cid ctx = 0 /\ large_cid ctx = false.

Definition next_state (s : RohcState) : RohcState :=
  match s with NoContext => StaticEstablished | _ => DynamicEstablished end.

(** The fields a packet is compressed from, and the context left behind. *)
Definition described (p : RtpPacket) (ctx : Context) : Context :=
  captured p (ctx <| profile := RTP |> <| mode := Optimistic |>).
Definition sent (p : RtpPacket) (ctx : Context) : Context :=
  described p ctx <| rohc_state := next_state (rohc_state ctx) |>.

Lemma classify_bound had id previous_id seq previous_seq :
  0 <= classify_ip_id had id previous_id seq previous_seq <= 3.
Proof. unfold classify_ip_id. cbv zeta. repeat case_match; lia. Qed.

(** The IP-ID is left out of a packet only when it is zero. *)
Lemma classify_zero had id previous_id seq previous_seq :
  classify_ip_id had id previous_id seq previous_seq = 3 -> id = 0.
Proof. unfold classify_ip_id. cbv zeta. repeat case_match; intros; bool_prop; lia. Qed.

#[local] Hint Extern 5 (byte_ok _) => unfold byte_ok in *; lia : ctxok.
#[local] Hint Extern 5 (_ <= _ < _) => lia : ctxok.

(** Inference and windows leave every other field of the RTP context alone. *)
Definition same_rtp_packet (a b : RtpContext) : Prop :=
  vpxcc a = vpxcc b /\ mpt a = mpt b /\ last_seq a = last_seq b /\ last_ts a = last_ts b /\
  ssrc a = ssrc b /\ csrc_list_len a = csrc_list_len b /\ extension_len a = extension_len b /\
  padding_len a = padding_len b.

Lemma infer_stride_same r seq ts : same_rtp_packet (infer_stride r seq ts) r.
Proof.
  unfold infer_stride. destruct (_ && _); [|done].
  by destruct (infer_timestamp_stride _ _ _ _) as [[? ?]|].
Qed.

Lemma start_windows_same r : same_rtp_packet (start_windows r) r.
Proof. unfold start_windows. by destruct (_ =? _). Qed.

Lemma infer_stride_ok r seq ts : rtp_ok r -> 0 <= ts < 2 ^ 32 -> rtp_ok (infer_stride r seq ts).
Proof. intros H Ht. apply stride_ok; [|done|done]. by apply H. Qed.

Lemma start_windows_ok r : rtp_ok r -> rtp_ok (start_windows r).
Proof.
  intros H. unfold start_windows, LsbWindow.init.
  assert (0 <= last_seq r < 2 ^ 16 /\ 0 <= last_ts r < 2 ^ 32) as [? ?] by (split; apply H).
  destruct (_ =? _); auto with ctxok.
Qed.

#[export] Hint Resolve infer_stride_ok start_windows_ok : ctxok.

Lemma captured_ok p ctx : packet_ok p -> context_ok ctx -> context_ok (captured p ctx).
Proof.
  intros Hp H. unfold packet_ok in Hp.
  destruct Hp as (? & ? & ? & ? & ? & ? & ? & ? & ? & ? & Ht & ? & ? & ?).
  unfold captured. cbv zeta.
  pose proof (classify_bound (negb (initialized (rtp ctx) =? 0)) (p_id p) (ipv4_id ctx) (p_seq p)
                (last_seq (rtp ctx))) as Hb.
  generalize dependent (classify_ip_id (negb (initialized (rtp ctx) =? 0)) (p_id p) (ipv4_id ctx)
                          (p_seq p) (last_seq (rtp ctx))). intros b Hb.
  assert (byte_ok (if p_df p then 2 else 0)) by (unfold byte_ok; destruct (p_df p); lia).
  pose proof (infer_stride_ok _ (p_seq p) (p_ts p) (ok_rtp _ H) Ht) as Hr.
  generalize dependent (infer_stride (rtp ctx) (p_seq p) (p_ts p)). intros r Hr.
  auto 40 with ctxok.
Qed.

(** Its RTP part, inference aside. *)
Lemma captured_rtp p ctx :
  let r := rtp (captured p ctx) in
  vpxcc r = 0x80 /\ mpt r = p_mpt p /\ last_seq r = p_seq p /\ last_ts r = p_ts p /\
  ssrc r = p_ssrc p /\ csrc_list_len r = csrc_list_len (rtp ctx) /\
  extension_len r = extension_len (rtp ctx) /\ padding_len r = padding_len (rtp ctx).
Proof.
  unfold captured. cbv zeta. cbn.
  destruct (infer_stride_same (rtp ctx) (p_seq p) (p_ts p)) as (_&_&_&_&_&E1&E2&E3).
  generalize dependent (infer_stride (rtp ctx) (p_seq p) (p_ts p)). intros r E1 E2 E3.
  match goal with |- context [start_windows ?r'] =>
    destruct (start_windows_same r') as (->&->&->&->&->&->&->&->) end.
  by cbn; rewrite E1, E2, E3.
Qed.

Lemma described_ok p ctx : packet_ok p -> sender_ready ctx -> context_ok (described p ctx).
Proof. intros Hp (H & _). apply captured_ok; auto with ctxok. Qed.

(** The lengths of the lists that a standard packet cannot carry. *)
Lemma described_lists p ctx :
  let c := described p ctx in
  ip_version c = 4 /\ cid c = cid ctx /\ large_cid c = large_cid ctx /\
  ipv4_options_len c = ipv4_options_len ctx /\
  csrc_list_len (rtp c) = csrc_list_len (rtp ctx) /\
  extension_len (rtp c) = extension_len (rtp ctx) /\ padding_len (rtp c) = padding_len (rtp ctx) /\
  vpxcc (rtp c) = 0x80 /\ rohc_state c = rohc_state ctx.
Proof.
  cbv zeta. unfold described.
  destruct (captured_rtp p (ctx <| profile := RTP |> <| mode := Optimistic |>))
    as (E&_&_&_&_&E1&E2&E3).
  rewrite E, E1, E2, E3. done.
Qed.

Lemma described_expressible p ctx :
  sender_ready ctx ->
  cid_ok (described p ctx) = true /\ expressible StdRTP (described p ctx) = true /\
  carries StdRTP (described p ctx).
Proof.
  intros (_ & Hc & Hl & Ho & Hcs & Hx & Hpad).
  pose proof (described_lists p ctx) as (Ev & Ec & El & Eo & Ecs & Ex & Epad & Evp & _).
  unfold cid_ok, expressible, standard_ip_ok, standard_rtp_ok, carries, terminal_protocol.
  rewrite Ev, Ec, El, Eo, Ecs, Ex, Epad, Evp, Hc, Hl, Ho, Hcs, Hx, Hpad. done.
Qed.

Lemma sent_ready p ctx : packet_ok p -> sender_ready ctx -> sender_ready (sent p ctx).
Proof.
  intros Hp H. pose proof (described_ok p ctx Hp H) as Hok.
  pose proof (described_lists p ctx) as (Ev & Ec & El & Eo & Ecs & Ex & Epad & Evp & _).
  destruct H as (_ & Hc & Hl & Ho & Hcs & Hx & Hpad). unfold sender_ready, sent.
  generalize dependent (described p ctx). intros c Hok Ev Ec El Eo Ecs Ex Epad Evp.
  split; [by apply ok_set_rohc_state|]. cbn. by rewrite Ec, El, Eo, Ecs, Ex, Epad.
Qed.

(** ** Compressing a packet *)

Definition c_context (c : Compressor) : outcome Context := table_get (context_table_ c) (cid_ c).
Definition d_context (d : Decompressor) : outcome Context := table_get (d_table d) (d_cid d).

(** The compressor after a packet that left [ctx] behind. *)
Definition counted (ctx : Context) (c : Compressor) : Compressor :=
  mkCompressor (cid_ c) (u32 (packet_count_ c + 1)) (table_set (context_table_ c) (cid_ c) ctx)
    (lla_contract_ c) (lla_flow_ c) (lla_enabled_ c).

Lemma c_context_counted c ctx ctx' : c_context c = Ok ctx -> c_context (counted ctx' c) = Ok ctx'.
Proof. apply table_get_set. Qed.

Lemma rtp_header_len ctx :
  context_ok ctx -> expressible StdRTP ctx = true -> ip_version ctx = 4 ->
  0 <= blen (header StdRTP ctx) <= 38.
Proof.
  intros H He Hv. unfold header. rewrite ir_packet_len. pose proof (ir_head_len ctx 0xFD 0x01 0).
  cbn [profile_octet chains]. unfold rtp_chains, ip_static_octets, ip_dynamic_octets, udp_static_octets,
    rtp_dynamic_octets. rewrite Hv. cbn [Z.eqb Pos.eqb].
  destruct (id_present ctx); autorewrite with blen; lia.
Qed.

(** Both states of the compressor that send a refresh send the same packet. *)
Lemma emit_next_eq ctx cap :
  emit_next ctx cap =
  let! packet := emit_ir_rtp cap ctx in Ok (packet, ctx <| rohc_state := next_state (rohc_state ctx) |>).
Proof. unfold emit_next. by destruct (rohc_state ctx). Qed.

(** [compress], step by step, when nothing refuses. *)
Lemma compress_runs c ctx pkt cap c1 hdr c2 payload :
  c_context c = Ok ctx -> 0 < cap < 2 ^ 63 ->
  capture_rtp_packet pkt (ctx <| profile := RTP |> <| mode := Optimistic |>) = Ok c1 ->
  emit_next c1 cap = Ok (hdr, c2) -> tail_from pkt 40 = Ok payload ->
  blen pkt = 40 + blen payload -> blen hdr + blen payload <= cap ->
  compress pkt (mkcall c cap) =
  (Ok (hdr ++ payload), mkcall (counted c2 c) (blen hdr + blen payload)).
Proof.
  intros Hc Hcap Ecap Eemit Etail Hlen Hroom.
  pose proof (blen_nonneg payload). pose proof (blen_nonneg hdr).
  assert (Hpl : usub (blen pkt) fixed_header_len = blen payload).
  { unfold fixed_header_len. rewrite usub_small by lia. lia. }
  unfold c_context in Hc.
  unfold compress, restoring, load_context, store_context, set_len, count_packet, guard, modify, gets,
    lift, ret, bind. cbn [self len context_table_ cid_ set_table].
  rewrite (proj2 (Z.eqb_neq cap 0)) by lia. cbn [negb oguard]. rewrite Hc.
  cbn [self len context_table_ cid_ set_table]. rewrite Ecap.
  cbn [self len context_table_ cid_ set_table]. rewrite Eemit.
  cbn [fst snd self len context_table_ cid_ set_table]. rewrite Hpl.
  rewrite usub_small by lia. rewrite (proj2 (Z.ltb_ge cap _)), (proj2 (Z.ltb_ge _ _)) by lia.
  cbn [orb negb oguard]. unfold fixed_header_len. rewrite Etail.
  cbn [self len context_table_ cid_ set_table]. rewrite !table_set_set. reflexivity.
Qed.

Lemma emit_described p ctx cap :
  packet_ok p -> sender_ready ctx -> blen (header StdRTP (described p ctx)) <= cap ->
  emit_next (described p ctx) cap = Ok (header StdRTP (described p ctx), sent p ctx).
Proof.
  intros Hp Hr Hlen. pose proof (described_ok p ctx Hp Hr) as Hok.
  pose proof (described_lists p ctx) as (_ & _ & _ & _ & _ & _ & _ & _ & Est).
  pose proof (described_expressible p ctx Hr) as (Hcid & Hexp & _).
  rewrite emit_next_eq. unfold sent. generalize dependent (described p ctx). intros tx Hlen Hok Est Hcid Hexp.
  assert (E : emit_ir_rtp cap tx = Ok (header StdRTP tx)).
  { pose proof (emitted StdRTP cap tx Hok) as E. cbn [emit_ir] in E. rewrite E. unfold deliver.
    by rewrite Hcid, Hexp, (proj2 (Z.leb_le _ _)) by lia. }
  rewrite E. cbn [obind]. by rewrite Est.
Qed.

Lemma tail_wire p : tail_from (wire p) 40 = Ok (p_payload p).
Proof.
  unfold wire. rewrite app_assoc.
  apply (tail_from_app (ip_part p (be16 (ip_csum p)) ++ transport_part p)).
Qed.

Lemma compress_wire c ctx p cap :
  c_context c = Ok ctx -> sender_ready ctx -> packet_ok p -> 38 + blen (p_payload p) <= cap ->
  size_ok cap ->
  compress (wire p) (mkcall c cap) =
  (Ok (header StdRTP (described p ctx) ++ p_payload p),
   mkcall (counted (sent p ctx) c) (blen (header StdRTP (described p ctx)) + blen (p_payload p))).
Proof.
  intros Hc Hr Hp Hcap Hsz. pose proof (blen_nonneg (p_payload p)).
  pose proof (described_lists p ctx) as (Ev & _).
  pose proof (described_expressible p ctx Hr) as (_ & Hexp & _).
  pose proof (rtp_header_len _ (described_ok p ctx Hp Hr) Hexp Ev) as Hlen.
  apply (compress_runs c ctx _ cap (described p ctx)); [done|unfold size_ok in Hsz; lia|..].
  - by apply capture_wire.
  - apply emit_described; [done..|lia].
  - apply tail_wire.
  - apply blen_wire.
  - lia.
Qed.

(** ** Rebuilding the packet *)

(** The guesses of the decoder, as updates of single fields. *)
Lemma stride_image_eq tx rx r :
  exists st res, stride_image tx rx r = r <| ts_stride := st |> <| ts_residue := res |>.
Proof.
  unfold stride_image. destruct (negb _); [|exists (ts_stride r), (ts_residue r); by destruct r].
  destruct (infer_timestamp_stride _ _ _ _) as [[st res]|]; [by exists st, res|].
  exists (ts_stride r), (ts_residue r). by destruct r.
Qed.

Lemma id_image_eq rx c : exists b, id_image rx c = c <| ipv4_id_sequential := b |>.
Proof.
  unfold id_image. destruct (_ && _); [by eexists|]. exists (ipv4_id_sequential c). by destruct c.
Qed.

(** What the receiver's context says of the packet. *)
Lemma rtp_image_fields tx rx :
  ip_version tx = 4 ->
  let c := rtp_image tx rx in
  ip_version c = 4 /\ ipv4_tos c = ipv4_tos tx /\ ipv4_ttl c = ipv4_ttl tx /\
  ipv4_id c = (if id_present tx then ipv4_id tx else 0) /\ ipv4_flags c = Z.shiftl (df tx) 1 /\
  ipv4_saddr c = ipv4_saddr tx /\ ipv4_daddr c = ipv4_daddr tx /\
  udp_sport c = udp_sport tx /\ udp_dport c = udp_dport tx /\ udp_check c = udp_check tx /\
  vpxcc (rtp c) = 0x80 /\ mpt (rtp c) = mpt (rtp tx) /\ last_seq (rtp c) = last_seq (rtp tx) /\
  last_ts (rtp c) = last_ts (rtp tx) /\ ssrc (rtp c) = ssrc (rtp tx) /\
  cid c = cid rx /\ large_cid c = large_cid rx /\ rohc_state c = DynamicEstablished /\
  profile c = RTP.
Proof.
  intros Ev. unfold rtp_image. cbv zeta.
  match goal with |- context [stride_image tx rx ?r] =>
    destruct (stride_image_eq tx rx r) as (st & res & ->) end.
  match goal with |- context [id_image rx ?c] => destruct (id_image_eq rx c) as (b & ->) end.
  unfold checksum_image, dynamic_image, ports_image, base_image, static_image.
  rewrite Ev. split_and!; reflexivity.
Qed.

(** The context holds the header of [p]; the payload is not part of it. *)
Definition describes (c : Context) (p : RtpPacket) : Prop :=
  ip_version c = 4 /\ ipv4_tos c = p_tos p /\ ipv4_ttl c = p_ttl p /\ ipv4_id c = p_id p /\
  ipv4_flags c = (if p_df p then 2 else 0) /\ ipv4_saddr c = p_saddr p /\ ipv4_daddr c = p_daddr p /\
  udp_sport c = p_sport p /\ udp_dport c = p_dport p /\ udp_check c = p_check p /\
  vpxcc (rtp c) = 0x80 /\ mpt (rtp c) = p_mpt p /\ last_seq (rtp c) = p_seq p /\
  last_ts (rtp c) = p_ts p /\ ssrc (rtp c) = p_ssrc p.

Lemma captured_describes p ctx : describes (captured p ctx) p.
Proof.
  destruct (captured_rtp p ctx) as (E1&E2&E3&E4&E5&_). unfold describes. rewrite E1, E2, E3, E4, E5.
  unfold captured. cbv zeta. done.
Qed.

Lemma described_describes p ctx : describes (described p ctx) p.
Proof. apply captured_describes. Qed.

Lemma state_describes c s p : describes c p -> describes (c <| rohc_state := s |>) p.
Proof. done. Qed.

Lemma sent_describes p ctx : describes (sent p ctx) p.
Proof. apply state_describes, described_describes. Qed.

(** An IP-ID the packet leaves out is zero. *)
Lemma described_id p ctx :
  (if id_present (described p ctx) then ipv4_id (described p ctx) else 0) = p_id p.
Proof.
  unfold id_present, id_behavior. change (ipv4_id (described p ctx)) with (p_id p).
  change (ipv4_id_behavior (described p ctx)) with
    (classify_ip_id (negb (initialized (rtp ctx) =? 0)) (p_id p) (ipv4_id ctx) (p_seq p)
       (last_seq (rtp ctx))).
  pose proof (classify_zero (negb (initialized (rtp ctx) =? 0)) (p_id p) (ipv4_id ctx) (p_seq p)
                (last_seq (rtp ctx))) as Hz.
  pose proof (classify_bound (negb (initialized (rtp ctx) =? 0)) (p_id p) (ipv4_id ctx) (p_seq p)
                (last_seq (rtp ctx))) as Hb.
  generalize dependent (classify_ip_id (negb (initialized (rtp ctx) =? 0)) (p_id p) (ipv4_id ctx)
                          (p_seq p) (last_seq (rtp ctx))). intros b Hz Hb.
  assert (b = 0 \/ b = 1 \/ b = 2 \/ b = 3) as [-> | [-> | [-> | ->]]] by lia; [done..|].
  by rewrite Hz.
Qed.

Lemma image_describes p ctx rx : describes (rtp_image (described p ctx) rx) p.
Proof.
  pose proof (rtp_image_fields (described p ctx) rx eq_refl)
    as (?&?&?&Eid&Efl&?&?&?&?&?&?&?&?&?&?&_).
  pose proof (described_describes p ctx) as (?&?&?&?&Hfl&?&?&?&?&?&?&?&?&?&?).
  rewrite described_id in Eid. unfold df in Efl. rewrite Hfl in Efl.
  unfold describes. split_and!; try congruence. rewrite Efl. by destruct (p_df p).
Qed.

Lemma ip_header_describes c p csum :
  describes c p -> ip_header c (40 + blen (p_payload p)) csum = ip_part p (be16 csum).
Proof.
  intros (?&Etos&Ettl&Eid&Efl&Esa&Eda&_). unfold ip_header, ip_part, be16.
  rewrite Etos, Ettl, Eid, Efl, Esa, Eda. cbn [app]. by destruct (p_df p).
Qed.

Lemma ip_part_ok p l : packet_ok p -> bytes_ok l -> bytes_ok (ip_part p l).
Proof.
  intros Hp Hl. unfold packet_ok in Hp. decompose [and] Hp. unfold ip_part.
  repeat (apply bytes_ok_app; split; [auto with rohc|]);
    repeat first [assumption | apply bytes_ok_cons; split | apply bytes_ok_nil
                 | apply bytes_ok_app; split | solve [auto with rohc]];
    destruct (p_df p); unfold byte_ok; lia.
Qed.

Lemma wire_octets_ok p : packet_ok p -> bytes_ok (wire p).
Proof.
  intros Hp. apply bytes_ok_app. split; [by apply ip_part_ok; auto with rohc|].
  unfold packet_ok in Hp. decompose [and] Hp. unfold transport_part.
  repeat (apply bytes_ok_app; split; [auto with rohc|]); auto with rohc.
  repeat (apply bytes_ok_app; split); auto with rohc.
  repeat (apply bytes_ok_cons; split); auto with rohc. unfold byte_ok. lia.
Qed.

Lemma ip_part_len p l : length l = 2%nat -> length (ip_part p l) = 20%nat.
Proof. intros H. unfold ip_part. rewrite !length_app, H. reflexivity. Qed.

Lemma ip_csum_eq p :
  packet_ok p -> ipv4_checksum (ip_part p [0; 0]) = Some (ip_csum p) /\ 0 <= ip_csum p < 2 ^ 16.
Proof.
  intros Hp. assert (H : bytes_ok (ip_part p [0; 0])).
  { apply ip_part_ok; [done|]. repeat constructor; done. }
  pose proof (word_sum_nonneg _ H) as Hs. rewrite ip_part_len in Hs by done.
  pose proof (ones_sum_bound (word_sum (ip_part p [0; 0])) ltac:(lia)).
  split; [|unfold ip_csum; lia]. by rewrite ipv4_checksum_eq by (done || lia).
Qed.

Lemma rebuild_wire p c cap :
  packet_ok p -> describes c p -> 40 + blen (p_payload p) <= cap ->
  build_rtp_packet_from_context cap c (p_payload p) = Ok (wire p).
Proof.
  intros Hp Hc Hcap. pose proof (blen_nonneg (p_payload p)).
  assert (Hl : 40 + blen (p_payload p) < 2 ^ 16) by apply Hp.
  unfold build_rtp_packet_from_context.
  rewrite !(proj2 (Z.ltb_ge _ _)) by lia. cbn [orb negb oguard obind].
  rewrite !(ip_header_describes c p) by done. change (be16 0) with [0; 0].
  destruct (ip_csum_eq p Hp) as [-> _]. rewrite (ip_header_describes c p) by done.
  destruct Hc as (_&_&_&_&_&_&_&Esp&Edp&Eck&Evp&Emp&Esq&Ets&Ess).
  unfold udp_rtp_header. rewrite Esp, Edp, Eck, Evp, Emp, Esq, Ets, Ess.
  unfold u16. rewrite Z.mod_small by lia. reflexivity.
Qed.

(** ** Decompressing it *)

(** The decompressor after a packet that left [ctx] behind. *)
Definition updated (ctx : Context) (d : Decompressor) : Decompressor :=
  d_set_table (table_set (d_table d) (d_cid d) ctx) d.

Lemma d_context_updated d ctx ctx' : d_context d = Ok ctx -> d_context (updated ctx' d) = Ok ctx'.
Proof. apply table_get_set. Qed.

(** The context the decoder starts from. *)
Definition receiving (ctx : Context) : Context := ctx <| profile := RTP |> <| mode := Optimistic |>.

Lemma receiving_ready ctx : receiver_ready ctx -> receiver_ready (receiving ctx).
Proof.
  intros (H & Hc & Hl). split; [|done]. unfold receiving. auto with ctxok.
Qed.

(** The legacy reading accepts the same octets. *)
Definition ambiguous (packet : bytes) (rx : Context) : bool :=
  is_ok (run_decoder decode_ir_rtp_legacy packet (receiving rx)).

(** [decompress], step by step, when nothing refuses. *)
Lemma decompress_runs d rx pkt cap c n payload ip :
  d_context d = Ok rx -> 0 < blen pkt -> decode_packet pkt (receiving rx) = Ok (c, n) ->
  n <= blen pkt -> ip_version c = 4 -> tail_from pkt n = Ok payload ->
  build_rtp_packet_from_context cap c payload = Ok ip ->
  decompress pkt (mkdcall d cap) = (Ok ip, mkdcall (updated c d) (blen ip)).
Proof.
  intros Hd Hp Edec Hn Hv Etail Ebuild. unfold d_context in Hd.
  unfold decompress, failing, d_load, d_store, d_set_len, guard, modify, gets, lift, ret, bind.
  cbn [d_self d_len d_table d_cid]. rewrite (proj2 (Z.eqb_neq (blen pkt) 0)) by lia.
  cbn [negb oguard]. rewrite Hd. fold (receiving rx). rewrite Edec.
  rewrite (proj2 (Z.ltb_ge _ _)) by lia. cbn [negb oguard]. rewrite Hv, Etail, Ebuild. reflexivity.
Qed.

(** A refused packet leaves the object as it was and the length 0. *)
Lemma decompress_rejects d rx pkt cap :
  d_context d = Ok rx -> decode_packet pkt (receiving rx) = Rej ->
  decompress pkt (mkdcall d cap) = (Rej, mkdcall d 0).
Proof.
  intros Hd Edec. unfold d_context in Hd.
  unfold decompress, failing, d_load, d_store, d_set_len, guard, modify, gets, lift, ret, bind.
  cbn [d_self d_len d_table d_cid]. destruct (blen pkt =? 0); [done|].
  cbn [negb oguard]. rewrite Hd. fold (receiving rx). by rewrite Edec.
Qed.

(** The first octet of a packet on CID 0 selects the IR decoder. *)
Lemma decode_packet_ir tx rx payload :
  cid tx = 0 -> large_cid tx = false ->
  decode_packet (header StdRTP tx ++ payload) rx = decode_ir_rtp (header StdRTP tx ++ payload) rx.
Proof.
  intros Hc Hl. unfold decode_packet.
  assert (E : rd (header StdRTP tx ++ payload) 0 = Ok 0xFD).
  { unfold header, ir_packet, ir_head, add_cid_octets. rewrite Hc, Hl. reflexivity. }
  by rewrite E.
Qed.

(** The RTP members of the families of [IrProperties]. *)
Lemma rtp_decoder_is : decode_ir StdRTP = decode_ir_rtp.
Proof. reflexivity. Qed.
Lemma rtp_legacy_is : legacy_decoder StdRTP = decode_ir_rtp_legacy.
Proof. reflexivity. Qed.
Lemma rtp_image_is : image StdRTP = rtp_image.
Proof. reflexivity. Qed.

(** A standard header on CID 0, whose fields are those of [p]. *)
Record announces (tx : Context) (p : RtpPacket) : Prop := {
  ann_ok : context_ok tx;
  ann_cid : cid_ok tx = true;
  ann_expressible : expressible StdRTP tx = true;
  ann_carries : carries StdRTP tx;
  ann_version : ip_version tx = 4;
  ann_zero : cid tx = 0;
  ann_small : large_cid tx = false;
  ann_image : forall rx, describes (rtp_image tx rx) p }.

Lemma described_announces p ctx : packet_ok p -> sender_ready ctx -> announces (described p ctx) p.
Proof.
  intros Hp Hr. pose proof (described_ok p ctx Hp Hr) as Hok.
  pose proof (described_expressible p ctx Hr) as (Hcid & Hexp & Hcar).
  pose proof (described_lists p ctx) as (Ev & Ec & El & _).
  destruct Hr as (_ & Hc0 & Hl0 & _). rewrite Hc0 in Ec. rewrite Hl0 in El.
  constructor; try assumption. intros rx. apply image_describes.
Qed.

Lemma header_nonempty tx : 0 < blen (header StdRTP tx).
Proof.
  unfold header. rewrite ir_packet_len. pose proof (ir_head_len tx 0xFD (profile_octet StdRTP) 0).
  pose proof (blen_nonneg (chains StdRTP tx)). lia.
Qed.

Section Receiving.
Context (d : Decompressor) (rx tx : Context) (p : RtpPacket) (cap : Z).
Hypothesis Hd : d_context d = Ok rx.
Hypothesis Hrx : receiver_ready rx.
Hypothesis Hp : packet_ok p.
Hypothesis Htx : announces tx p.

Lemma announced_size : bytes_ok (header StdRTP tx ++ p_payload p) /\
  size_ok (blen (header StdRTP tx ++ p_payload p)).
Proof.
  destruct Htx. assert (Hpay : bytes_ok (p_payload p) /\ 40 + blen (p_payload p) < 2 ^ 16) by (split; apply Hp).
  destruct Hpay. split; [apply bytes_ok_app; auto using header_ok|].
  pose proof (rtp_header_len tx ann_ok0 ann_expressible0 ann_version0).
  pose proof (blen_nonneg (p_payload p)). unfold size_ok. rewrite blen_app. lia.
Qed.

(** The decoder's answer to it. *)
Lemma decode_announced :
  let packet := header StdRTP tx ++ p_payload p in
  let c := rtp_image tx (receiving rx) in
  decode_packet packet (receiving rx) = Ok (c, blen (header StdRTP tx)) /\ receiver_ready c \/
  decode_packet packet (receiving rx) = Rej /\ ambiguous packet rx = true.
Proof.
  destruct announced_size as [Hb Hsz]. destruct Htx as [Hok Hcid Hexp Hcar Hv Hc0 Hl0 _].
  destruct (receiving_ready rx Hrx) as (Hrok & Hrc & Hrl). cbv zeta.
  rewrite decode_packet_ir, <- rtp_decoder_is by done. unfold ambiguous.
  rewrite <- rtp_legacy_is, <- rtp_image_is.
  assert (Hpay : bytes_ok (p_payload p)) by apply Hp.
  pose proof (rtp_image_fields tx (receiving rx) Hv)
    as (_&_&_&_&_&_&_&_&_&_&_&_&_&_&_&Ecid&Elarge&_). rewrite <- rtp_image_is in Ecid, Elarge.
  destruct (decoded_or_refused StdRTP tx (receiving rx) (p_payload p) Hok Hrok Hcid
    Hexp Hcar ltac:(split; congruence) Hpay Hsz) as [E|[E [r Er]]]; rewrite E.
  - left. pose proof (compatible_safe StdRTP _ (receiving rx) Hsz Hb Hrok) as Hsafe.
    rewrite E in Hsafe. destruct Hsafe as [Hcok Hn]. split; [done|].
    split; [exact Hcok|]. split; congruence.
  - right. by rewrite Er.
Qed.

Lemma decompress_announced :
  40 + blen (p_payload p) <= cap ->
  let packet := header StdRTP tx ++ p_payload p in
  let c := rtp_image tx (receiving rx) in
  decompress packet (mkdcall d cap) =
    (Ok (wire p), mkdcall (updated c d) (40 + blen (p_payload p))) /\ receiver_ready c \/
  decompress packet (mkdcall d cap) = (Rej, mkdcall d 0) /\ ambiguous packet rx = true.
Proof.
  intros Hcap packet c. pose proof (header_nonempty tx). pose proof (blen_nonneg (p_payload p)).
  pose proof (ann_image _ _ Htx (receiving rx)) as Hdesc.
  destruct decode_announced as [[E Hc]|[E Ha]]; fold packet in E.
  - left. split; [|exact Hc]. rewrite <- blen_wire.
    eapply decompress_runs; [exact Hd| |exact E| |apply Hdesc| |]; unfold packet.
    + rewrite blen_app. lia.
    + rewrite blen_app. lia.
    + apply tail_from_app.
    + by apply rebuild_wire.
  - right. split; [by eapply decompress_rejects|exact Ha].
Qed.
End Receiving.

(** ** When the legacy reading cannot interfere *)

(** Where the legacy format expects its list of IPv4 options, a standard
    packet with an IP-ID has the high octet of the UDP checksum. *)
Definition distinct (p : RtpPacket) : Prop :=
  p_id p <> 0 /\ let high := u8 (Z.shiftr (p_check p) 8) in
                 high <> empty_list_marker /\ Z.land high 0xC0 <> ipv4_options_list_marker.

Lemma wp_next16_octets inp pos a b l c (Q : Z -> dst -> Prop) R :
  suffix_at inp pos (a :: b :: l) ->
  (suffix_at inp (pos + 2) l -> forall v, Q v (mkdst (pos + 2) c)) ->
  wp (next16 inp) Q R (mkdst pos c).
Proof.
  intros H HQ. pose proof (suffix_at_len _ _ _ H) as [H0 Hl]. autorewrite with blen in Hl.
  pose proof (blen_nonneg l). apply wp_next16; [lia..|]. intros v _.
  apply HQ. by apply (suffix_at_app _ _ [a; b]).
Qed.

(** The octets of such a header, its CRC aside. *)
Lemma rtp_header_octets tx :
  ip_version tx = 4 -> cid tx = 0 -> large_cid tx = false -> id_present tx = true ->
  exists crc, header StdRTP tx =
    [0xFD; 0x01; crc; 0x40; ipv4_protocol tx] ++ be32 (ipv4_saddr tx) ++ be32 (ipv4_daddr tx) ++
    be16 (udp_sport tx) ++ be16 (udp_dport tx) ++ be32 (ssrc (rtp tx)) ++
    [ip_control tx false; ipv4_tos tx; ipv4_ttl tx; u8 (Z.shiftr (ipv4_id tx) 8); Z.land (ipv4_id tx) 255;
     u8 (Z.shiftr (udp_check tx) 8); Z.land (udp_check tx) 255] ++ rtp_dynamic_octets tx.
Proof.
  intros Hv Hc Hl Hid. unfold header, ir_packet. generalize (crc8 (ir_head tx 0xFD (profile_octet StdRTP) 0 ++ chains StdRTP tx)).
  intros crc. exists crc. unfold ir_head, add_cid_octets, large_cid_octets, chains, rtp_chains,
    ip_static_octets, ip_dynamic_octets, udp_static_octets. rewrite Hc, Hl, Hv, Hid.
  cbn [Z.eqb Z.ltb Z.compare negb andb Pos.eqb profile_octet app]. by rewrite <- ?app_assoc.
Qed.

(** The legacy decoder over these octets: guards are let pass, as a refusal
    is what is to be shown. *)
Section Legacy.
Context (inp : bytes).

Lemma wp_guard_any {S} b (Q : unit -> S -> Prop) s : Q tt s -> wp (guard b) Q (fun _ => True) s.
Proof. intros HQ. by apply wp_guard. Qed.

Lemma legacy_prefix_at crc l c Q :
  cid c = 0 -> large_cid c = false -> suffix_at inp 0 ([0xFD; 0x01; crc] ++ l) ->
  (suffix_at inp 3 l -> forall r, Q r (mkdst 3 c)) ->
  wp (read_legacy_prefix inp 4 0x01) Q (fun _ => True) (mkdst 0 c).
Proof.
  intros Hc Hl H HQ. unfold read_legacy_prefix, need, read_large_cid_if_present.
  at_step. apply wp_guard_any. at_go. rewrite Hc, Hl. at_go. apply wp_guard_any. at_go.
  cbn [d_ctx]. rewrite Hl. at_go. apply wp_guard_any. at_go. by apply HQ.
Qed.

Lemma legacy_static_at pr sa da pos l c Q :
  0 <= sa < 2 ^ 32 -> 0 <= da < 2 ^ 32 -> suffix_at inp pos ([0x40; pr] ++ be32 sa ++ be32 da ++ l) ->
  size_ok (blen inp) ->
  (suffix_at inp (pos + 10) l -> forall c', ip_version c' = 4 -> Q tt (mkdst (pos + 10) c')) ->
  wp (read_ip_static_chain inp) Q (fun _ => True) (mkdst pos c).
Proof.
  intros Hs Hd H Hsz HQ. unfold read_ip_static_chain. cbn [app] in H. at_go.
  eapply (wp_advance_at _ _ [0x40]); [exact H|reflexivity|]. clear H. intros H.
  at_go. replace (pos + 1 + 1 + 4 + 4) with (pos + 10) in H |- * by lia. by apply HQ.
Qed.

Lemma legacy_ports_at sport dport pos l c (Q : unit -> dst -> Prop) :
  0 <= sport < 2 ^ 16 -> 0 <= dport < 2 ^ 16 -> suffix_at inp pos (be16 sport ++ be16 dport ++ l) ->
  ip_version c = 4 ->
  (suffix_at inp (pos + 4) l -> forall c', ip_version c' = 4 -> Q tt (mkdst (pos + 4) c')) ->
  wp (read_udp_ports inp) Q (fun _ => True) (mkdst pos c).
Proof.
  intros Hs Hd H Hv HQ. unfold read_udp_ports. at_go.
  replace (pos + 2 + 2) with (pos + 4) in H |- * by lia. by apply HQ.
Qed.

(** The octet in the place of the options list is none. *)
Lemma legacy_dynamic_refuses tos ttl id0 id1 flags marker pos l c :
  ip_version c = 4 -> suffix_at inp pos (tos :: ttl :: id0 :: id1 :: flags :: marker :: l) ->
  size_ok (blen inp) -> marker <> empty_list_marker ->
  Z.land marker 0xC0 <> ipv4_options_list_marker ->
  wp (read_legacy_ip_dynamic_consistent inp) (fun _ _ => False) (fun _ => True) (mkdst pos c).
Proof.
  intros Hv H Hsz Hne Hnl. unfold read_legacy_ip_dynamic_consistent, read_ip_dynamic_chain,
    read_ipv4_options_list. at_step. at_step. at_step. at_step. at_step. at_step. at_step.
  cbn [d_ctx]. rewrite Hv. at_go.
  eapply (wp_next16_octets inp _ _ _ _ _ _ _ H). clear H. intros H v. at_go.
  apply wp_if; intros E; [by apply Z.eqb_eq in E|].
  apply wp_bind, wp_guard; intros E'; [by apply Z.eqb_eq in E'|exact I].
Qed.

Lemma legacy_refuses_octets crc pr sa da sport dport s tos ttl id0 id1 flags marker l c :
  cid c = 0 -> large_cid c = false -> size_ok (blen inp) ->
  0 <= sa < 2 ^ 32 -> 0 <= da < 2 ^ 32 -> 0 <= sport < 2 ^ 16 -> 0 <= dport < 2 ^ 16 ->
  0 <= s < 2 ^ 32 -> marker <> empty_list_marker -> Z.land marker 0xC0 <> ipv4_options_list_marker ->
  suffix_at inp 0 ([0xFD; 0x01; crc] ++ [0x40; pr] ++ be32 sa ++ be32 da ++ be16 sport ++ be16 dport ++
    be32 s ++ [tos; ttl; id0; id1; flags; marker] ++ l) ->
  wp (decode_ir_rtp_legacy inp) (fun _ _ => False) (fun _ => True) (mkdst 0 c).
Proof.
  intros Hc Hl Hsz Hsa Hda Hsp Hdp Hs Hne Hnl H. unfold decode_ir_rtp_legacy, need.
  apply wp_bind. eapply legacy_prefix_at; [done|done|exact H|]. clear H. intros H r.
  apply wp_bind. eapply legacy_static_at; [exact Hsa|exact Hda|exact H|done|]. clear H. intros H c1 Hv1.
  apply wp_bind, wp_bind, wp_gets, wp_guard_any.
  apply wp_bind. eapply legacy_ports_at; [exact Hsp|exact Hdp|exact H|done|]. clear H. intros H c2 Hv2.
  at_go. apply (wp_mono _ (fun _ _ => False) _ (fun _ => True)); [done..|].
  eapply legacy_dynamic_refuses; [|exact H|done..]. exact Hv2.
Qed.
End Legacy.

Lemma legacy_refuses tx rx tail :
  context_ok tx -> ip_version tx = 4 -> cid tx = 0 -> large_cid tx = false ->
  cid rx = 0 -> large_cid rx = false -> id_present tx = true ->
  let high := u8 (Z.shiftr (udp_check tx) 8) in
  high <> empty_list_marker -> Z.land high 0xC0 <> ipv4_options_list_marker ->
  size_ok (blen (header StdRTP tx ++ tail)) ->
  wp (decode_ir_rtp_legacy (header StdRTP tx ++ tail)) (fun _ _ => False) (fun _ => True) (mkdst 0 rx).
Proof.
  intros Hok Hv Hc Hl Hrc Hrl Hid high Hne Hnl Hsz.
  destruct (rtp_header_octets tx Hv Hc Hl Hid) as [crc E].
  eapply legacy_refuses_octets with (marker := high) (sa := ipv4_saddr tx) (da := ipv4_daddr tx)
    (sport := udp_sport tx) (dport := udp_dport tx) (s := ssrc (rtp tx)); auto with rohc.
  rewrite E, <- !app_assoc. apply suffix_at_start.
Qed.

Lemma refuses_not_ok d inp c :
  wp (d inp) (fun _ _ => False) (fun _ => True) (mkdst 0 c) -> is_ok (run_decoder d inp c) = false.
Proof. unfold wp, run_decoder. by destruct (d inp _) as [[?| |] ?]. Qed.

Lemma distinct_unambiguous p ctx rx :
  packet_ok p -> sender_ready ctx -> receiver_ready rx -> distinct p ->
  ambiguous (header StdRTP (described p ctx) ++ p_payload p) rx = false.
Proof.
  intros Hp Hr Hrx [Hid [Hne Hnl]]. pose proof (described_announces p ctx Hp Hr) as Ha.
  destruct (announced_size _ p Hp Ha) as [_ Hsz]. destruct Ha as [Hok _ _ _ Hv Hc Hl _].
  destruct (receiving_ready rx Hrx) as (_ & Hrc & Hrl).
  pose proof (described_describes p ctx) as (_&_&_&_&_&_&_&_&_&Eck&_).
  pose proof (described_id p ctx) as Epres.
  generalize dependent (described p ctx). intros tx Hsz Hok Hv Hc Hl Eck Epres.
  assert (Hpres : id_present tx = true) by (destruct (id_present tx); [done|congruence]).
  rewrite <- Eck in Hne, Hnl. apply refuses_not_ok. by apply legacy_refuses.
Qed.
