(* ===== verification/Link.v ===== *)
(** * The link: a compressor and a decompressor

    A packet given to the compressor and its output to the decompressor is one
    [transfer].  The theorems say what arrives, for one packet and for a stream,
    and which calls can change what. *)

From S2P Require Import Prelude Crc Cid Encoding Context Cursor Chains EmitIr DecodeIr DecodeIrDyn.
From S2P Require Import StandardIr Safety IrProperties Lla Compressor Decompressor EndToEnd.

Record Link := mkLink { l_tx : Compressor; l_rx : Decompressor }.

Inductive fate := Delivered (ip_packet : bytes) | Refused | NotSent | Undefined.

(** Both buffers have a fixed size: [room] at the sender, [cap] at the
    receiver. *)
Definition transfer (room cap : Z) (pkt : bytes) (l : Link) : fate * Link :=
  match compress pkt (mkcall (l_tx l) room) with
  | (Ok rohc, s) =>
      match decompress rohc (mkdcall (l_rx l) cap) with
      | (Ok ip, s') => (Delivered ip, mkLink (self s) (d_self s'))
      | (Rej, s') => (Refused, mkLink (self s) (d_self s'))
      | (Ub, s') => (Undefined, mkLink (self s) (d_self s'))
      end
  | (Rej, s) => (NotSent, mkLink (self s) (l_rx l))
  | (Ub, s) => (Undefined, mkLink (self s) (l_rx l))
  end.

Fixpoint transfers (room cap : Z) (pkts : list bytes) (l : Link) : list fate * Link :=
  match pkts with
  | [] => ([], l)
  | pkt :: pkts =>
      let (f, l) := transfer room cap pkt l in
      let (fs, l) := transfers room cap pkts l in (f :: fs, l)
  end.

(** Both ends work on CID 0 and hold well-formed contexts. *)
Definition link_ready (l : Link) : Prop :=
  exists ctx rx, c_context (l_tx l) = Ok ctx /\ sender_ready ctx /\
                 d_context (l_rx l) = Ok rx /\ receiver_ready rx.

Definition fits (room cap : Z) (p : RtpPacket) : Prop :=
  38 + blen (p_payload p) <= room /\ 40 + blen (p_payload p) <= cap /\ size_ok room.

(** What one transfer does to the two contexts. *)
Lemma transfer_wire room cap p l ctx rx :
  c_context (l_tx l) = Ok ctx -> sender_ready ctx -> d_context (l_rx l) = Ok rx ->
  receiver_ready rx -> packet_ok p -> fits room cap p ->
  let tx' := counted (sent p ctx) (l_tx l) in
  let c := rtp_image (described p ctx) (receiving rx) in
  transfer room cap (wire p) l = (Delivered (wire p), mkLink tx' (updated c (l_rx l))) /\
    receiver_ready c /\ describes c p \/
  transfer room cap (wire p) l = (Refused, mkLink tx' (l_rx l)) /\
    ambiguous (header StdRTP (described p ctx) ++ p_payload p) rx = true.
Proof.
  intros Hc Hr Hd Hrx Hp (Hroom & Hcap & Hsz) tx' c. unfold transfer.
  rewrite (compress_wire _ ctx) by done. cbn [self].
  pose proof (described_announces p ctx Hp Hr) as Ha.
  destruct (decompress_announced (l_rx l) rx (described p ctx) p cap Hd Hrx Hp Ha Hcap)
    as [[-> Hready]|[-> Hamb]].
  - left. split_and!; [done|done|]. apply (ann_image _ _ Ha).
  - right. done.
Qed.

Lemma link_ready_updated ctx rx tx l c :
  c_context (l_tx l) = Ok ctx -> d_context (l_rx l) = Ok rx -> sender_ready tx -> receiver_ready c ->
  link_ready (mkLink (counted tx (l_tx l)) (updated c (l_rx l))).
Proof.
  intros Hc Hd Htx Hcr. exists tx, c. cbn [l_tx l_rx].
  by rewrite (c_context_counted _ ctx), (d_context_updated _ rx).
Qed.

Lemma link_ready_sent ctx rx tx l :
  c_context (l_tx l) = Ok ctx -> d_context (l_rx l) = Ok rx -> sender_ready tx -> receiver_ready rx ->
  link_ready (mkLink (counted tx (l_tx l)) (l_rx l)).
Proof.
  intros Hc Hd Htx Hcr. exists tx, rx. cbn [l_tx l_rx]. by rewrite (c_context_counted _ ctx).
Qed.

(** A step never delivers anything but the packet, and keeps the link ready. *)
Lemma transfer_exact room cap p l :
  link_ready l -> packet_ok p -> fits room cap p ->
  let (f, l') := transfer room cap (wire p) l in
  link_ready l' /\ (f = Delivered (wire p) \/ f = Refused /\ l_rx l' = l_rx l).
Proof.
  intros (ctx & rx & Hc & Hr & Hd & Hrx) Hp Hfit.
  destruct (transfer_wire room cap p l ctx rx Hc Hr Hd Hrx Hp Hfit) as [(-> & Hrc & _)|[-> _]].
  - split; [|by left]. eapply link_ready_updated; eauto using sent_ready.
  - split; [|by right]. eapply link_ready_sent; eauto using sent_ready.
Qed.

(** The exact step of a packet that arrives. *)
Lemma transfer_delivered_eq room cap p l ctx rx pkt :
  c_context (l_tx l) = Ok ctx -> sender_ready ctx -> d_context (l_rx l) = Ok rx ->
  receiver_ready rx -> packet_ok p -> fits room cap p -> fst (transfer room cap (wire p) l) = Delivered pkt ->
  let c := rtp_image (described p ctx) (receiving rx) in
  transfer room cap (wire p) l =
    (Delivered (wire p), mkLink (counted (sent p ctx) (l_tx l)) (updated c (l_rx l))) /\
  receiver_ready c /\ describes c p.
Proof.
  intros Hc Hr Hd Hrx Hp Hfit E c.
  destruct (transfer_wire room cap p l ctx rx Hc Hr Hd Hrx Hp Hfit) as [W|[W _]]; [exact W|]. by rewrite W in E.
Qed.

(** The exact step when no other reading interferes. *)
Lemma transfer_distinct_eq room cap p l ctx rx :
  c_context (l_tx l) = Ok ctx -> sender_ready ctx -> d_context (l_rx l) = Ok rx ->
  receiver_ready rx -> packet_ok p -> fits room cap p -> distinct p ->
  let c := rtp_image (described p ctx) (receiving rx) in
  transfer room cap (wire p) l =
    (Delivered (wire p), mkLink (counted (sent p ctx) (l_tx l)) (updated c (l_rx l))) /\
  receiver_ready c /\ describes c p.
Proof.
  intros Hc Hr Hd Hrx Hp Hfit Hdist c.
  destruct (transfer_wire room cap p l ctx rx Hc Hr Hd Hrx Hp Hfit) as [W|[_ Ha]]; [exact W|].
  by rewrite distinct_unambiguous in Ha.
Qed.

Lemma transfer_distinct room cap p l :
  link_ready l -> packet_ok p -> fits room cap p -> distinct p ->
  let (f, l') := transfer room cap (wire p) l in link_ready l' /\ f = Delivered (wire p).
Proof.
  intros (ctx & rx & Hc & Hr & Hd & Hrx) Hp Hfit Hdist.
  destruct (transfer_distinct_eq room cap p l ctx rx Hc Hr Hd Hrx Hp Hfit Hdist) as (-> & Hrc & _).
  split; [|done]. eapply link_ready_updated; eauto using sent_ready.
Qed.

(** ** Fresh ends *)

Definition fresh_link (max_tx max_rx : Z) (l : Link) : Prop :=
  exists c, make_compressor 0 max_tx = Ok c /\ l = mkLink c (make_decompressor 0 max_rx).

Lemma initial_sender_ready c :
  context_ok c -> cid c = 0 -> large_cid c = false -> ipv4_options_len c = 0 ->
  rtp c = initial_rtp_context -> sender_ready c.
Proof. intros H Hc Hl Ho Er. unfold sender_ready. by rewrite Hc, Hl, Ho, Er. Qed.

Lemma fresh_ends max_tx max_rx l :
  0 <= max_tx < 2 ^ 32 - 1 -> 0 <= max_rx < 2 ^ 32 - 1 -> fresh_link max_tx max_rx l ->
  exists ctx, c_context (l_tx l) = Ok ctx /\ sender_ready ctx /\ d_context (l_rx l) = Ok initial_context.
Proof.
  intros Ht Hm (c & Ec & ->).
  assert (Hmax : forall m, 0 <= m < 2 ^ 32 - 1 -> 0 <= (if m =? 0 then 0 else m) < 2 ^ 32 - 1)
    by (intros m ?; destruct (m =? 0); lia).
  assert (Hinit : forall m, 0 <= m < 2 ^ 32 - 1 ->
    table_get (table_init (if m =? 0 then 0 else m)) 0 = Ok initial_context).
  { intros m ?. pose proof (Hmax m ltac:(done)). apply table_init_get; lia. }
  unfold make_compressor, init_rtp_context in Ec. rewrite Hinit in Ec by done. cbn [obind] in Ec.
  injection Ec as <-.
  exists (initial_context <| cid := 0 |> <| profile := RTP |> <| mode := Optimistic |> <| tx_count := 0 |>
            <| nack_count := 0 |>).
  unfold c_context, d_context. cbn [l_tx l_rx context_table_ cid_ make_decompressor d_table d_cid].
  split_and!.
  - apply (table_get_set _ _ initial_context). by apply Hinit.
  - apply initial_sender_ready; [|done..]. clear Hinit. pose proof initial_context_ok as H.
    generalize dependent initial_context. intros c H.
    apply ok_set_nack_count; [|done]. apply ok_set_tx_count; [|done].
    apply ok_set_mode, ok_set_profile, ok_set_cid; done.
  - by apply Hinit.
Qed.

Lemma initial_receiver_ready : receiver_ready initial_context.
Proof. split; [exact initial_context_ok|done]. Qed.

Lemma fresh_ready max_tx max_rx l :
  0 <= max_tx < 2 ^ 32 - 1 -> 0 <= max_rx < 2 ^ 32 - 1 -> fresh_link max_tx max_rx l -> link_ready l.
Proof.
  intros Ht Hm Hl. destruct (fresh_ends _ _ _ Ht Hm Hl) as (ctx & Hc & Hr & Hd).
  exists ctx, initial_context. split_and!; [done|done|done|exact initial_receiver_ready].
Qed.

(** Two packets of a call. *)
Definition sample_packet (n : Z) : RtpPacket :=
  mkPacket 0 (7 + n) true 64 0x0A000001 0x0A000002 5004 5006 0x9234 0 (100 + n) (16000 + 160 * n)
    0xCAFE [1; 2; 3].

Lemma sample_packet_ok n :
  0 <= n < 10 -> packet_ok (sample_packet n) /\ fits 128 128 (sample_packet n) /\ distinct (sample_packet n).
Proof.
  intros Hn. unfold packet_ok, fits, distinct, byte_ok, size_ok, blen. cbn.
  split_and!; first [lia | done | repeat constructor; unfold byte_ok; lia].
Qed.

Definition sample_link : Link :=
  mkLink (mkCompressor 0 0
            (table_set (table_init 0) 0
               (initial_context <| cid := 0 |> <| profile := RTP |> <| mode := Optimistic |>
                  <| tx_count := 0 |> <| nack_count := 0 |>)) no_contract no_flow false)
         (make_decompressor 0 0).

Lemma sample_link_fresh : fresh_link 0 0 sample_link.
Proof. eexists. split; reflexivity. Qed.

(** ** What arrives *)

(** C1: whatever RTP packets are sent over CID 0 between a fresh compressor and a
    fresh decompressor, every packet is compressed, and what the decompressor
    answers to it is either exactly that packet, octet for octet - IP checksum
    and length fields included - or a refusal; it never delivers a different
    packet, and a refusal leaves it ready for the packets that follow. *)
Theorem stream_never_corrupted room cap max_tx max_rx l packets :
  0 <= max_tx < 2 ^ 32 - 1 -> 0 <= max_rx < 2 ^ 32 - 1 -> fresh_link max_tx max_rx l ->
  Forall (fun p => packet_ok p /\ fits room cap p) packets ->
  Forall2 (fun p f => f = Delivered (wire p) \/ f = Refused) packets
    (fst (transfers room cap (map wire packets) l)).
Proof.
  intros Ht Hm Hl. pose proof (fresh_ready _ _ _ Ht Hm Hl) as Hready. clear Hl.
  revert l Hready. induction packets as [|p packets IH]; intros l Hready Hall; [constructor|].
  inversion Hall as [|? ? [Hp Hfit] Hrest]; subst. cbn [map transfers].
  pose proof (transfer_exact room cap p l Hready Hp Hfit) as Hstep.
  destruct (transfer room cap (wire p) l) as [f l']. destruct Hstep as [Hready' Hf].
  specialize (IH l' Hready' Hrest). destruct (transfers room cap (map wire packets) l') as [fs l''].
  constructor; [tauto|exact IH].
Qed.

Lemma stream_never_corrupted_witness :
  Forall2 (fun p f => f = Delivered (wire p) \/ f = Refused) [sample_packet 0; sample_packet 1]
    (fst (transfers 128 128 (map wire [sample_packet 0; sample_packet 1]) sample_link)).
Proof.
  apply (stream_never_corrupted 128 128 0 0 sample_link [sample_packet 0; sample_packet 1]);
    [lia|lia|exact sample_link_fresh|].
  pose proof (sample_packet_ok 0 ltac:(lia)) as (?&?&_). pose proof (sample_packet_ok 1 ltac:(lia)) as (?&?&_).
  rewrite !Forall_cons_iff. auto.
Defined.

(** C9: no packet is lost when the legacy reading of the header is ruled out by
    its octets - the packet has a non-zero IP-ID, and the high octet of its UDP
    checksum is neither the marker of an empty list nor that of an option list:
    every packet of such a stream is delivered, in order. *)
Theorem stream_delivered room cap max_tx max_rx l packets :
  0 <= max_tx < 2 ^ 32 - 1 -> 0 <= max_rx < 2 ^ 32 - 1 -> fresh_link max_tx max_rx l ->
  Forall (fun p => packet_ok p /\ fits room cap p /\ distinct p) packets ->
  fst (transfers room cap (map wire packets) l) = map (fun p => Delivered (wire p)) packets.
Proof.
  intros Ht Hm Hl. pose proof (fresh_ready _ _ _ Ht Hm Hl) as Hready. clear Hl.
  revert l Hready. induction packets as [|p packets IH]; intros l Hready Hall; [done|].
  inversion Hall as [|? ? (Hp & Hfit & Hdist) Hrest]; subst. cbn [map transfers].
  pose proof (transfer_distinct room cap p l Hready Hp Hfit Hdist) as Hstep.
  destruct (transfer room cap (wire p) l) as [f l']. destruct Hstep as [Hready' ->].
  specialize (IH l' Hready' Hrest). destruct (transfers room cap (map wire packets) l') as [fs l''].
  cbn [fst] in *. by rewrite IH.
Qed.

Lemma stream_delivered_witness :
  fst (transfers 128 128 (map wire [sample_packet 0; sample_packet 1]) sample_link) =
  [Delivered (wire (sample_packet 0)); Delivered (wire (sample_packet 1))].
Proof.
  apply (stream_delivered 128 128 0 0 sample_link [sample_packet 0; sample_packet 1]);
    [lia|lia|exact sample_link_fresh|].
  rewrite !Forall_cons_iff. split_and!; try (apply sample_packet_ok; lia). done.
Defined.
