(* ===== verification/Transactions.v ===== *)
(** * Calls on arbitrary input

    Every call of the compressor and the decompressor on any octets: no
    undefined behaviour, well-formed contexts, the buffers respected, and a
    refused packet leaves the object as it was. *)

From S2P Require Import Prelude Crc Cid Encoding Context Cursor Chains EmitIr DecodeIr DecodeIrDyn.
From S2P Require Import StandardIr Safety IrProperties Lla Compressor Decompressor EndToEnd.

#[local] Hint Extern 5 (byte_ok _) => unfold byte_ok in *; lia : ctxok.
#[local] Hint Extern 5 (_ <= _ < _) => lia : ctxok.

(** An operation that has no undefined behaviour and answers within [Q]. *)
Definition answers {A} (o : outcome A) (Q : A -> Prop) : Prop :=
  match o with Ok a => Q a | Rej => True | Ub => False end.

Lemma answers_bind {A B} (o : outcome A) (k : A -> outcome B) P (Q : B -> Prop) :
  answers o P -> (forall a, P a -> answers (k a) Q) -> answers (obind o k) Q.
Proof. destruct o; cbn; auto. Qed.

Lemma answers_check {A} b (k : unit -> outcome A) Q :
  (b = true -> answers (k tt) Q) -> answers (obind (oguard b) k) Q.
Proof. destruct b; cbn; auto. Qed.

Lemma answers_rd l i : bytes_ok l -> 0 <= i < blen l -> answers (rd l i) byte_ok.
Proof. intros H Hi. destruct (rd_in_range l i Hi) as (b & -> & Hb). by apply Hb. Qed.

Lemma answers_rd_u16 l i :
  bytes_ok l -> 0 <= i -> i + 2 <= blen l -> answers (rd_u16 l i) (fun v => 0 <= v < 2 ^ 16).
Proof. intros H H0 H1. destruct (rd_u16_in_range l i H0 H1) as (v & -> & Hv). by apply Hv. Qed.

Lemma answers_rd_u32 l i :
  bytes_ok l -> 0 <= i -> i + 4 <= blen l -> answers (rd_u32 l i) (fun v => 0 <= v < 2 ^ 32).
Proof. intros H H0 H1. destruct (rd_u32_in_range l i H0 H1) as (v & -> & Hv). by apply Hv. Qed.

Ltac answers_step :=
  cbv zeta;
  lazymatch goal with
  | |- answers (obind (oguard _) _) _ => apply answers_check; intros
  | |- answers (obind (rd _ _) _) _ => eapply answers_bind; [apply answers_rd; [assumption|lia]|intros]
  | |- answers (obind (rd_u16 _ _) _) _ =>
      eapply answers_bind; [apply answers_rd_u16; [assumption|lia|lia]|intros]
  | |- answers (obind (rd_u32 _ _) _) _ =>
      eapply answers_bind; [apply answers_rd_u32; [assumption|lia|lia]|intros]
  end.

(** The part of a context the compressor keeps from one packet to the next. *)
Definition same_link (a b : Context) : Prop :=
  cid a = cid b /\ large_cid a = large_cid b /\ rohc_state a = rohc_state b.

Lemma capture_answers pkt ctx :
  bytes_ok pkt -> context_ok ctx ->
  answers (capture_rtp_packet pkt ctx) (fun c => context_ok c /\ same_link c ctx /\ 40 <= blen pkt).
Proof.
  intros Hb H. unfold capture_rtp_packet. apply answers_check. intros Hlen. bool_prop.
  repeat answers_step.
  match goal with |- context [infer_stride (rtp ?c) _ _] => change (rtp c) with (rtp ctx) end.
  match goal with |- context [classify_ip_id ?a ?b ?c ?d ?e] =>
    pose proof (classify_bound a b c d e); generalize dependent (classify_ip_id a b c d e) end.
  intros behavior Hbeh.
  match goal with |- context [u8 ?x] => pose proof (byte_u8 x); generalize dependent (u8 x) end.
  intros flags Hflags.
  match goal with |- context [infer_stride (rtp ctx) ?s ?t] =>
    pose proof (infer_stride_ok (rtp ctx) s t (ok_rtp _ H) ltac:(assumption)) as Hr;
    generalize dependent (infer_stride (rtp ctx) s t) end.
  intros r Hr. cbn [answers]. split_and!; [|done|lia].
  auto 40 with ctxok.
Qed.

(** ** Compressing anything *)

Lemma emit_rtp_answers cap ctx :
  context_ok ctx -> answers (emit_ir_rtp cap ctx) (fun l => blen l <= cap /\ bytes_ok l /\ l = header StdRTP ctx).
Proof.
  intros H. pose proof (emitted StdRTP cap ctx H) as E. cbn [emit_ir] in E. rewrite E. unfold deliver.
  destruct (cid_ok ctx && _ && _) eqn:T; [|done]. bool_prop. split_and!; [done|by apply header_ok|done].
Qed.

Lemma emit_next_answers cap ctx :
  context_ok ctx ->
  answers (emit_next ctx cap) (fun e => blen (fst e) <= cap /\ bytes_ok (fst e) /\
    fst e = header StdRTP ctx /\ context_ok (snd e) /\ cid (snd e) = cid ctx /\ large_cid (snd e) = large_cid ctx /\
    rohc_state (snd e) = next_state (rohc_state ctx)).
Proof.
  intros H. rewrite emit_next_eq. eapply answers_bind; [by apply emit_rtp_answers|].
  intros l (Hl & Hb & ->). cbn. by split_and!.
Qed.

(** What a call of the compressor may do: [old] is its context before. *)
Definition compress_post (c : Compressor) (old : Context) (pkt : bytes) (cap : Z)
    (r : outcome bytes * call) : Prop :=
  match r with
  | (Ok out, s) =>
      bytes_ok out /\ blen out = len s /\ blen out <= cap /\ blen pkt - 40 <= blen out /\
      (exists tx rest, out = header StdRTP tx ++ rest /\ cid tx = cid old /\ large_cid tx = large_cid old) /\
      exists new, self s = counted new c /\ context_ok new /\ cid new = cid old /\
                  large_cid new = large_cid old /\ rohc_state new = next_state (rohc_state old)
  | (Rej, s) => self s = c
  | (Ub, _) => False
  end.

Ltac restored Hc :=
  unfold set_table; cbn; rewrite ?table_set_set, table_set_get by exact Hc;
  match goal with |- _ = ?c => by destruct c end.

Lemma compress_answers c old pkt cap :
  c_context c = Ok old -> context_ok old -> bytes_ok pkt -> blen pkt < 2 ^ 63 -> 0 <= cap < 2 ^ 63 ->
  compress_post c old pkt cap (compress pkt (mkcall c cap)).
Proof.
  intros Hc Hok Hb Hlen Hcap.
  unfold compress, restoring, load_context, store_context, set_len, count_packet, guard, modify, gets,
    lift, ret, bind. cbn [self len context_table_ cid_ set_table].
  destruct (Z.eqb_spec cap 0); [done|]. cbn [negb oguard].
  pose proof Hc as Hget. unfold c_context in Hget. rewrite Hget. clear Hget.
  assert (Hctx : context_ok (old <| profile := RTP |> <| mode := Optimistic |>)) by auto with ctxok.
  pose proof (capture_answers pkt _ Hb Hctx) as Hcap1.
  assert (Hlink : same_link (old <| profile := RTP |> <| mode := Optimistic |>) old) by done.
  generalize dependent (old <| profile := RTP |> <| mode := Optimistic |>). intros ctx Hctx Hcap1 Hlink.
  cbn [self len context_table_ cid_ set_table].
  destruct (capture_rtp_packet pkt ctx) as [ctx1| |]; [|restored Hc|done].
  destruct Hcap1 as (Hok1 & Hl1 & H40). cbn [self len context_table_ cid_ set_table].
  pose proof (emit_next_answers cap ctx1 Hok1) as He.
  destruct (emit_next ctx1 cap) as [[hdr new]| |]; [| |done].
  2: { restored Hc. }
  destruct He as (Hhl & Hhb & Hhd & Hnok & Hncid & Hnl & Hnst). cbn [fst snd] in *.
  cbn [self len context_table_ cid_ set_table].
  pose proof (blen_nonneg hdr). unfold fixed_header_len.
  rewrite (usub_small (blen pkt) 40), (usub_small cap) by lia.
  destruct (Z.ltb_spec cap (blen hdr)); [lia|].
  destruct (Z.ltb_spec (cap - blen hdr) (blen pkt - 40)); cbn [orb negb oguard].
  { restored Hc. }
  destruct (tail_from_in_range pkt 40 ltac:(lia)) as (payload & -> & Hpl & Hpb).
  cbn [compress_post self len fst snd context_table_ cid_ set_table].
  destruct Hlink as (E1&E2&E3), Hl1 as (F1&F2&F3).
  split_and!; [apply bytes_ok_app; auto|rewrite blen_app; lia|rewrite blen_app; lia|rewrite blen_app; lia| |].
  { exists ctx1, payload. split_and!; congruence. }
  exists new. split_and!; try congruence. unfold counted. cbn. by rewrite !table_set_set.
Qed.

(** ** Decompressing anything *)

Definition decompress_post (d : Decompressor) (rohc : bytes) (cap : Z) (r : outcome bytes * dcall) : Prop :=
  match r with
  | (Ok ip, s) =>
      blen ip = d_len s /\ 40 <= blen ip <= cap /\
      exists new payload, d_self s = updated new d /\ context_ok new /\ rebuilt new payload ip /\
                          payload `suffix_of` rohc
  | (Rej, s) => s = mkdcall d 0
  | (Ub, _) => False
  end.

Lemma decode_packet_answers pkt ctx :
  0 < blen pkt -> size_ok (blen pkt) -> bytes_ok pkt -> context_ok ctx ->
  answers (decode_packet pkt ctx) (fun r => context_ok (fst r) /\ 0 <= snd r <= blen pkt).
Proof.
  intros Hpos Hs Hb H. unfold decode_packet.
  eapply answers_bind; [apply answers_rd; [done|lia]|]. intros b _.
  destruct (_ =? _).
  - pose proof (compatible_safe StdRTP pkt ctx Hs Hb H) as W. rewrite rtp_decoder_is in W.
    by destruct (decode_ir_rtp pkt ctx) as [[? ?]| |].
  - pose proof (run_decoder_safe _ _ _ (safe_dyn_rtp pkt Hs Hb ctx H)) as W.
    by destruct (run_decoder decode_ir_dyn_rtp pkt ctx) as [[? ?]| |].
Qed.

Lemma tail_from_suffix l off t : tail_from l off = Ok t -> t `suffix_of` l.
Proof.
  unfold tail_from. destruct (_ || _); [done|]. intros [= <-]. exists (take (Z.to_nat off) l).
  by rewrite take_drop.
Qed.

Lemma decompress_answers d old rohc cap :
  d_context d = Ok old -> context_ok old -> bytes_ok rohc -> size_ok (blen rohc) ->
  decompress_post d rohc cap (decompress rohc (mkdcall d cap)).
Proof.
  intros Hd Hok Hb Hs. pose proof (blen_nonneg rohc).
  unfold decompress, failing, d_load, d_store, d_set_len, guard, modify, gets, lift, ret, bind.
  cbn [d_self d_len d_table d_cid].
  destruct (Z.eqb_spec (blen rohc) 0); [done|]. cbn [negb oguard].
  pose proof Hd as Hget. unfold d_context in Hget. rewrite Hget. clear Hget.
  assert (Hctx : context_ok (old <| profile := RTP |> <| mode := Optimistic |>)) by auto with ctxok.
  generalize dependent (old <| profile := RTP |> <| mode := Optimistic |>). intros ctx Hctx.
  pose proof (decode_packet_answers rohc ctx ltac:(lia) Hs Hb Hctx) as Hdec.
  destruct (decode_packet rohc ctx) as [[new hlen]| |]; [|done|done]. destruct Hdec as [Hnew Hn]. cbn [fst snd] in *.
  rewrite (proj2 (Z.ltb_ge _ _)) by lia. cbn [negb oguard].
  destruct (ip_version new =? 4); [|done]. cbn [oguard].
  destruct (tail_from_in_range rohc hlen Hn) as (payload & Etail & Hpl & _). rewrite Etail. unfold size_ok in Hs.
  assert (Hsuf : payload `suffix_of` rohc) by (by eapply tail_from_suffix).
  pose proof (build_eq cap new payload Hnew ltac:(lia)) as Hbuild. pose proof (blen_nonneg payload).
  destruct ((40 + blen payload <=? 65535) && (40 + blen payload <=? cap)) eqn:E; [|by rewrite Hbuild].
  destruct Hbuild as (ip & -> & Hreb & Hlen). bool_prop. cbn [decompress_post d_self d_len].
  split_and!; [done|lia|lia|]. exists new, payload. by split_and!.
Qed.

(** ** The compressor as a state machine *)

(** The calls an application can make; [len] and [cap] are what [*rohc_len]
    holds on entry. *)
Inductive tx_call :=
| TxCompress (pkt : bytes) (cap : Z)
| TxNhp (pkt : bytes) (len : Z)
| TxCsp (pkt : bytes) (len : Z)
| TxCcp (len : Z)
| TxEnable (contract : AssistingLayerContract) (flow : ZeroByteFlow).

Definition no_octets {A} (r : outcome A * call) : outcome bytes * Compressor :=
  (let! _ := fst r in Ok [], self (snd r)).
Definition octets (r : outcome bytes * call) : outcome bytes * Compressor := (fst r, self (snd r)).

Definition tx_apply (k : tx_call) (c : Compressor) : outcome bytes * Compressor :=
  match k with
  | TxCompress pkt cap => octets (compress pkt (mkcall c cap))
  | TxNhp pkt n => no_octets (rfc4362_emit_nhp pkt (mkcall c n))
  | TxCsp pkt n => octets (rfc4362_emit_csp pkt (mkcall c n))
  | TxCcp n => octets (rfc4362_emit_ccp (mkcall c n))
  | TxEnable contract flow =>
      match enable_rfc4362_lla contract flow c with
      | (true, c') => (Ok [], c') | (false, c') => (Rej, c')
      end
  end.

(** The arguments are octets and sizes of real buffers. *)
Definition tx_call_ok (k : tx_call) : Prop :=
  match k with
  | TxCompress pkt n | TxNhp pkt n | TxCsp pkt n =>
      bytes_ok pkt /\ blen pkt < 2 ^ 63 /\ 0 <= n < 2 ^ 63
  | TxCcp n => 0 <= n < 2 ^ 63
  | TxEnable _ _ => True
  end.

(** A compressor as its constructor and any calls leave it. *)
Definition tx_inv (c : Compressor) : Prop :=
  (exists ctx, c_context c = Ok ctx /\ context_ok ctx /\ cid ctx = cid_ c /\ large_cid ctx = false) /\
  (lla_enabled_ c = true -> lla_runtime_contract_valid (lla_contract_ c) (lla_flow_ c) = true).

Definition state_rank (s : RohcState) : Z :=
  match s with NoContext => 0 | StaticEstablished => 1 | DynamicEstablished => 2 end.

Definition tx_rank (c : Compressor) : Z :=
  match c_context c with Ok ctx => state_rank (rohc_state ctx) | _ => -1 end.

Lemma next_state_rank s : state_rank s <= state_rank (next_state s).
Proof. by destruct s. Qed.

(** A packet compressed, or nothing changed. *)
Definition tx_effect (c c' : Compressor) : Prop :=
  c' = c \/ exists old new, c_context c = Ok old /\ c' = counted new c /\ context_ok new /\
              cid new = cid old /\ large_cid new = large_cid old /\
              rohc_state new = next_state (rohc_state old).

Lemma compress_effect c ctx pkt cap :
  c_context c = Ok ctx -> context_ok ctx -> bytes_ok pkt -> blen pkt < 2 ^ 63 -> 0 <= cap < 2 ^ 63 ->
  fst (compress pkt (mkcall c cap)) <> Ub /\ tx_effect c (self (snd (compress pkt (mkcall c cap)))).
Proof.
  intros Hc Hok Hb Hl Hcap. pose proof (compress_answers c ctx pkt cap Hc Hok Hb Hl Hcap) as W.
  destruct (compress pkt (mkcall c cap)) as [[out| |] s]; [| |done]; cbn [fst snd compress_post] in *.
  - destruct W as (_&_&_&_&_&new&->&?&?&?&?). split; [done|]. right. by exists ctx, new.
  - split; [done|]. by left.
Qed.

Lemma compress_scratch_effect c ctx pkt n :
  c_context c = Ok ctx -> context_ok ctx -> bytes_ok pkt -> blen pkt < 2 ^ 63 ->
  fst (compress_scratch pkt (mkcall c n)) <> Ub /\
  tx_effect c (self (snd (compress_scratch pkt (mkcall c n)))) /\
  len (snd (compress_scratch pkt (mkcall c n))) = n.
Proof.
  intros Hc Hok Hb Hl. unfold compress_scratch. cbn [self len].
  pose proof (compress_effect c ctx pkt scratch_size Hc Hok Hb Hl ltac:(unfold scratch_size; lia)) as [W1 W2].
  destruct (compress pkt (mkcall c scratch_size)) as [o s]. cbn in *. done.
Qed.

Lemma tx_effect_inv c c' :
  tx_inv c -> tx_effect c c' -> tx_inv c' /\ tx_rank c <= tx_rank c' /\ cid_ c' = cid_ c.
Proof.
  intros [(ctx & Hc & Hok & Hcid & Hl) Hlla] [->|(old & new & Ho & -> & Hn & Ec & El & Es)]; [split; [|split; [lia|done]]|].
  - split; [by exists ctx|done].
  - rewrite Hc in Ho. injection Ho as <-. unfold tx_rank, tx_inv.
    rewrite (c_context_counted c ctx), Hc, Es by done. split; [split; [|done]|split; [apply next_state_rank|done]].
    exists new. split_and!; [done|done|cbn; congruence|congruence].
Qed.

Lemma nhp_effect c ctx pkt n :
  c_context c = Ok ctx -> context_ok ctx -> bytes_ok pkt -> blen pkt < 2 ^ 63 ->
  fst (rfc4362_emit_nhp pkt (mkcall c n)) <> Ub /\
  tx_effect c (self (snd (rfc4362_emit_nhp pkt (mkcall c n)))).
Proof.
  intros Hc Hok Hb Hl. pose proof (compress_scratch_effect c ctx pkt n Hc Hok Hb Hl) as (W1 & W2 & _).
  unfold rfc4362_emit_nhp, load_context, set_len, gets, guard, lift, bind, modify.
  cbn [self context_table_ cid_]. unfold c_context in Hc.
  destruct (negb _); cbn [oguard]; [|by split; [|left]].
  rewrite Hc. destruct (lla_context_ready ctx); cbn [oguard]; [|by split; [|left]].
  by destruct (compress_scratch pkt (mkcall c n)) as [[?| |] ?].
Qed.

Lemma csp_answers len rtp_len header : answers (write_context_synchronization_packet len rtp_len header) (fun _ => True).
Proof. unfold write_context_synchronization_packet. by destruct (negb _). Qed.

Lemma csp_effect c ctx pkt n :
  c_context c = Ok ctx -> context_ok ctx -> bytes_ok pkt -> blen pkt < 2 ^ 63 ->
  fst (rfc4362_emit_csp pkt (mkcall c n)) <> Ub /\
  tx_effect c (self (snd (rfc4362_emit_csp pkt (mkcall c n)))).
Proof.
  intros Hc Hok Hb Hl. pose proof (compress_scratch_effect c ctx pkt n Hc Hok Hb Hl) as (W1 & W2 & _).
  unfold rfc4362_emit_csp, set_len, gets, guard, lift, bind, modify, ret. cbn [self].
  destruct (negb _); cbn [oguard]; [|by split; [|left]].
  destruct (compress_scratch pkt (mkcall c n)) as [[hdr| |] s]; cbn [fst snd] in *; [|done|done].
  destruct (negb _); cbn [oguard]; [|done].
  match goal with |- context [write_context_synchronization_packet ?a ?b ?h] =>
    pose proof (csp_answers a b h); by destruct (write_context_synchronization_packet a b h) end.
Qed.

(** A context check reads the context and writes nothing. *)
Lemma ccp_effect c ctx n :
  c_context c = Ok ctx -> context_ok ctx ->
  fst (rfc4362_emit_ccp (mkcall c n)) <> Ub /\ self (snd (rfc4362_emit_ccp (mkcall c n))) = c.
Proof.
  intros Hc Hok. unfold rfc4362_emit_ccp, load_context, set_len, gets, guard, lift, bind, modify, ret.
  cbn [self context_table_ cid_]. unfold c_context in Hc.
  destruct (negb _); cbn [oguard]; [|done]. rewrite Hc.
  destruct (lla_context_established ctx); cbn [oguard]; [|done].
  rewrite context_crc7_eq by done. cbn [len].
  unfold write_context_check_packet. by destruct (negb (n <? 2)).
Qed.

Lemma enable_inv contract flow c :
  tx_inv c -> tx_inv (snd (enable_rfc4362_lla contract flow c)) /\
              tx_rank (snd (enable_rfc4362_lla contract flow c)) = tx_rank c /\
              cid_ (snd (enable_rfc4362_lla contract flow c)) = cid_ c.
Proof.
  intros [Hctx Hlla]. unfold enable_rfc4362_lla.
  destruct (lla_runtime_contract_valid contract flow) eqn:E; cbn [negb snd]; [|by repeat split].
  split_and!; [|done|done]. split; [exact Hctx|done].
Qed.

(** One call: no undefined behaviour, the invariant kept, the state never
    taken back. *)
Lemma tx_apply_inv k c :
  tx_inv c -> tx_call_ok k ->
  fst (tx_apply k c) <> Ub /\ tx_inv (snd (tx_apply k c)) /\ tx_rank c <= tx_rank (snd (tx_apply k c)) /\
  cid_ (snd (tx_apply k c)) = cid_ c.
Proof.
  intros Hinv Hk. pose proof Hinv as [(ctx & Hc & Hok & Hcid & Hlarge) Hlla].
  destruct k as [pkt n|pkt n|pkt n|n|contract flow]; cbn [tx_call_ok tx_apply octets no_octets fst snd] in *.
  - destruct Hk as (Hb & Hl & Hn).
    destruct (compress_effect c ctx pkt n Hc Hok Hb Hl Hn). auto using tx_effect_inv.
  - destruct Hk as (Hb & Hl & Hn). destruct (nhp_effect c ctx pkt n Hc Hok Hb Hl) as [Hu He].
    split; [|by apply tx_effect_inv]. by destruct (fst _).
  - destruct Hk as (Hb & Hl & Hn). destruct (csp_effect c ctx pkt n Hc Hok Hb Hl). auto using tx_effect_inv.
  - destruct (ccp_effect c ctx n Hc Hok) as [? ->]. split_and!; [done|done|lia|done].
  - pose proof (enable_inv contract flow c Hinv) as (Hi & Hr & Hcd).
    destruct (enable_rfc4362_lla contract flow c) as [[] c']; cbn [fst snd] in *;
      (split_and!; [done|done|lia|done]).
Qed.

(** The compressors of an application: constructed, then called. *)
Lemma make_compressor_inv n max c :
  0 <= n -> 0 <= max < 2 ^ 32 - 1 -> (max = 0 -> n < 2 ^ 32 - 1) -> n <= (if max =? 0 then n else max) ->
  make_compressor n max = Ok c -> tx_inv c /\ tx_rank c = 0 /\ packet_count_ c = 0.
Proof.
  intros Hn Hmax Hz Hle E. unfold make_compressor, init_rtp_context in E.
  set (m := if max =? 0 then n else max) in *.
  assert (Hm : m < 2 ^ 32 - 1) by (unfold m; destruct (Z.eqb_spec max 0); lia).
  pose proof (table_init_get m n ltac:(lia) Hm) as Hget. rewrite Hget in E. cbn [obind] in E.
  assert (Hok : context_ok (initial_context <| cid := n |> <| profile := RTP |> <| mode := Optimistic |>
            <| tx_count := 0 |> <| nack_count := 0 |>)).
  { clear E Hget. pose proof initial_context_ok as H. generalize dependent initial_context. intros ic H.
    apply ok_set_nack_count; [|done]. apply ok_set_tx_count; [|done].
    apply ok_set_mode, ok_set_profile, ok_set_cid; [done|lia]. }
  injection E as <-. unfold tx_inv, tx_rank, c_context. cbn [context_table_ cid_ lla_enabled_ packet_count_].
  rewrite (table_get_set _ _ _ _ Hget).
  split_and!; [|done|done|done]. eexists. split; [reflexivity|]. split; [exact Hok|done].
Qed.

(** A constructed compressor after any calls. *)
Inductive tx_reachable (n max : Z) : Compressor -> Prop :=
| tx_made c : make_compressor n max = Ok c -> tx_reachable n max c
| tx_called c k : tx_reachable n max c -> tx_call_ok k -> tx_reachable n max (snd (tx_apply k c)).

(** The identifiers a table can be made for. *)
Definition identifiers_ok (n max : Z) : Prop :=
  0 <= n < 2 ^ 32 - 1 /\ 0 <= max < 2 ^ 32 - 1 /\ (max <> 0 -> n <= max).

Lemma tx_reachable_inv n max c :
  identifiers_ok n max -> tx_reachable n max c -> tx_inv c /\ cid_ c = n.
Proof.
  intros (Hn & Hmax & Hle). induction 1 as [c Hc|c k _ [IH Ec] Hk].
  - split.
    + apply (make_compressor_inv n max); [lia|lia|lia| |done].
      destruct (Z.eqb_spec max 0); [lia|by apply Hle].
    + unfold make_compressor in Hc. by destruct (init_rtp_context _ _ _); inversion Hc.
  - destruct (tx_apply_inv k c IH Hk) as (_ & ? & _ & Ek). split; [done|congruence].
Qed.

(** ** The decompressor as a state machine *)

Inductive rx_call :=
| RxDecompress (rohc : bytes) (cap : Z)
| RxNhp (payload : bytes) (cap : Z)
| RxCsp (pkt : bytes) (cap : Z)
| RxCcp (pkt : bytes)
| RxEnable (contract : AssistingLayerContract) (flow : ZeroByteFlow).

Definition d_octets (r : outcome bytes * dcall) : outcome bytes * Decompressor := (fst r, d_self (snd r)).

Definition rx_apply (k : rx_call) (d : Decompressor) : outcome bytes * Decompressor :=
  match k with
  | RxDecompress rohc cap => d_octets (decompress rohc (mkdcall d cap))
  | RxNhp payload cap => d_octets (rfc4362_receive_nhp payload (mkdcall d cap))
  | RxCsp pkt cap => d_octets (rfc4362_receive_csp pkt (mkdcall d cap))
  | RxCcp pkt =>
      let r := rfc4362_receive_ccp pkt (mkdcall d 0) in
      (let! _ := fst r in Ok [], d_self (snd r))
  | RxEnable contract flow =>
      match d_enable_rfc4362_lla contract flow d with
      | (true, d') => (Ok [], d') | (false, d') => (Rej, d')
      end
  end.

Definition rx_call_ok (k : rx_call) : Prop :=
  match k with
  | RxDecompress l _ | RxNhp l _ | RxCsp l _ | RxCcp l => bytes_ok l /\ size_ok (blen l)
  | RxEnable _ _ => True
  end.

Definition rx_inv (d : Decompressor) : Prop :=
  (exists ctx, d_context d = Ok ctx /\ context_ok ctx) /\
  (d_enabled d = true -> lla_runtime_contract_valid (d_contract d) (d_flow d) = true).

Lemma u32_ok v : 0 <= u32 v < 2 ^ 32.
Proof. apply Z.mod_pos_bound. lia. Qed.

#[local] Hint Resolve u16_ok u32_ok : ctxok.

Lemma advance_ok ctx : context_ok ctx -> context_ok (advance_context ctx).
Proof. intros H. unfold advance_context. cbv zeta. repeat case_match; auto 20 with ctxok. Qed.

Lemma updated_inv d new ctx :
  rx_inv d -> d_context d = Ok ctx -> context_ok new -> rx_inv (updated new d).
Proof.
  intros [_ Hlla] Hd Hn. split; [|exact Hlla]. exists new. by rewrite (d_context_updated d ctx).
Qed.

Lemma decompress_inv d rohc cap :
  rx_inv d -> bytes_ok rohc -> size_ok (blen rohc) ->
  fst (decompress rohc (mkdcall d cap)) <> Ub /\
  rx_inv (d_self (snd (decompress rohc (mkdcall d cap)))).
Proof.
  intros Hinv Hb Hs. pose proof Hinv as [(ctx & Hd & Hok) _].
  pose proof (decompress_answers d ctx rohc cap Hd Hok Hb Hs) as W.
  destruct (decompress rohc (mkdcall d cap)) as [[ip| |] s]; [| |done]; cbn [fst snd decompress_post] in *.
  - destruct W as (_&_&new&payload&->&Hn&_). split; [done|]. by eapply updated_inv.
  - subst. by split.
Qed.

Lemma nhp_receive_inv d payload cap :
  rx_inv d -> size_ok (blen payload) ->
  fst (rfc4362_receive_nhp payload (mkdcall d cap)) <> Ub /\
  rx_inv (d_self (snd (rfc4362_receive_nhp payload (mkdcall d cap)))).
Proof.
  intros Hinv Hs. pose proof Hinv as [(ctx & Hd & Hok) _]. pose proof Hd as Hget. unfold d_context in Hget.
  unfold rfc4362_receive_nhp, d_load, d_store, d_set_len, gets, guard, lift, bind, modify, ret.
  cbn [d_self d_len]. destruct (negb _); cbn [oguard]; [|by split]. rewrite Hget.
  destruct (lla_context_ready ctx); cbn [oguard]; [|by split]. cbn [d_self d_len].
  pose proof (build_eq cap _ payload (advance_ok ctx Hok) ltac:(unfold size_ok in Hs; lia)) as Hbuild.
  assert (Hnew : rx_inv (updated (advance_context ctx) d)) by (eapply updated_inv; eauto using advance_ok).
  destruct (_ && _); [destruct Hbuild as (ip & -> & _)|rewrite Hbuild]; by split.
Qed.

Lemma receive_csp_safe d pkt cap :
  rx_inv d -> bytes_ok pkt -> size_ok (blen pkt) ->
  fst (rfc4362_receive_csp pkt (mkdcall d cap)) <> Ub /\
  rx_inv (d_self (snd (rfc4362_receive_csp pkt (mkdcall d cap)))).
Proof.
  intros Hinv Hb Hs. unfold rfc4362_receive_csp, gets, guard, lift, bind. cbn [d_self].
  destruct (negb _); cbn [oguard]; [|by split].
  assert (W : answers (read_context_synchronization_packet pkt) (fun p => bytes_ok (rohc_header p) /\
              size_ok (blen (rohc_header p)))).
  { unfold read_context_synchronization_packet. answers_step. bool_prop. answers_step. answers_step.
    answers_step. destruct (tail_from_in_range pkt 3 ltac:(lia)) as (h & -> & Hl & Hhb). cbn.
    unfold size_ok in *. split; [auto|lia]. }
  destruct (read_context_synchronization_packet pkt) as [p| |]; [|by split|done].
  destruct W. by apply decompress_inv.
Qed.

Lemma receive_ccp_safe d pkt :
  rx_inv d -> bytes_ok pkt ->
  fst (rfc4362_receive_ccp pkt (mkdcall d 0)) <> Ub /\
  d_self (snd (rfc4362_receive_ccp pkt (mkdcall d 0))) = d.
Proof.
  intros [(ctx & Hd & Hok) _] Hb. unfold d_context in Hd.
  unfold rfc4362_receive_ccp, d_load, gets, guard, lift, bind. cbn [d_self].
  destruct (negb _); cbn [oguard]; [|by split].
  assert (W : answers (read_context_check_packet pkt) (fun _ => True)).
  { unfold read_context_check_packet. answers_step. bool_prop. by repeat answers_step. }
  destruct (read_context_check_packet pkt) as [p| |]; [|by split|done].
  destruct (has_crc p); cbn [oguard]; [|by split]. cbn [d_self]. rewrite Hd.
  destruct (lla_context_established ctx); cbn [oguard]; [|by split].
  rewrite context_crc7_eq by done. by destruct (_ =? _).
Qed.

Lemma rx_apply_inv k d :
  rx_inv d -> rx_call_ok k -> fst (rx_apply k d) <> Ub /\ rx_inv (snd (rx_apply k d)).
Proof.
  intros Hinv Hk. destruct k as [rohc n|payload n|pkt n|pkt|contract flow];
    cbn [rx_call_ok rx_apply d_octets fst snd] in *; [destruct Hk as [Hb Hs]..|clear Hk].
  - by apply decompress_inv.
  - by apply nhp_receive_inv.
  - by apply receive_csp_safe.
  - destruct (receive_ccp_safe d pkt Hinv Hb) as [Hu ->]. split; [|done]. by destruct (fst _).
  - unfold d_enable_rfc4362_lla.
    destruct (lla_runtime_contract_valid contract flow) eqn:E; cbn; split; try done.
    by destruct Hinv.
Qed.

Inductive rx_reachable (n max : Z) : Decompressor -> Prop :=
| rx_made : rx_reachable n max (make_decompressor n max)
| rx_called d k : rx_reachable n max d -> rx_call_ok k -> rx_reachable n max (snd (rx_apply k d)).

Lemma rx_reachable_inv n max d : identifiers_ok n max -> rx_reachable n max d -> rx_inv d.
Proof.
  intros (Hn & Hmax & Hle). induction 1 as [|d k _ IH Hk].
  - split; [|done]. exists initial_context. split; [|exact initial_context_ok].
    unfold d_context, make_decompressor. cbn [d_table d_cid].
    destruct (Z.eqb_spec max 0); apply table_init_get; [lia|lia| |lia]. specialize (Hle ltac:(done)). lia.
  - by apply rx_apply_inv.
Qed.

(** ** What an application can rely on *)

(** C10: whatever calls were made on a compressor since its construction - any
    octets as packets, any buffer sizes, any contracts, refused or not - the next
    call has no undefined behaviour, the context stays well formed and on its
    identifier, LLA operation is only ever enabled under a contract that
    validates, and the state never moves back towards NoContext. *)
Theorem compressor_invariant n max c k :
  identifiers_ok n max -> tx_reachable n max c -> tx_call_ok k ->
  fst (tx_apply k c) <> Ub /\
  (exists ctx, c_context (snd (tx_apply k c)) = Ok ctx /\ context_ok ctx /\
               cid ctx = cid_ (snd (tx_apply k c)) /\ large_cid ctx = false) /\
  (lla_enabled_ (snd (tx_apply k c)) = true ->
   lla_runtime_contract_valid (lla_contract_ (snd (tx_apply k c))) (lla_flow_ (snd (tx_apply k c))) = true) /\
  tx_rank c <= tx_rank (snd (tx_apply k c)).
Proof.
  intros Hid Hr Hk. pose proof (tx_reachable_inv n max c Hid Hr) as [Hinv _].
  destruct (tx_apply_inv k c Hinv Hk) as (Hu & [Hctx Hlla] & Hrank & _). by split_and!.
Qed.

(** A call with a packet that is none. *)
Definition junk : tx_call := TxCompress [0x45; 1; 2; 3] 64.
Definition made_compressor : Compressor :=
  mkCompressor 3 0
    (table_set (table_init 5) 3
       (initial_context <| cid := 3 |> <| profile := RTP |> <| mode := Optimistic |> <| tx_count := 0 |>
          <| nack_count := 0 |>)) no_contract no_flow false.

Lemma made_compressor_reachable : tx_reachable 3 5 made_compressor.
Proof. apply tx_made. reflexivity. Qed.

Lemma junk_ok : tx_call_ok junk.
Proof. split_and!; [repeat constructor; unfold byte_ok; lia|done..]. Qed.

Lemma compressor_invariant_witness : fst (tx_apply junk made_compressor) <> Ub.
Proof.
  apply (compressor_invariant 3 5 made_compressor junk);
    [unfold identifiers_ok; lia|exact made_compressor_reachable|exact junk_ok].
Defined.

(** C29: a call of [compress] either answers octets that fit the buffer, counts
    one packet and moves the context one state on, or refuses and leaves the
    whole object - context, counter, contract - exactly as it was. *)
Theorem compress_transactional c old pkt cap :
  c_context c = Ok old -> context_ok old -> bytes_ok pkt -> blen pkt < 2 ^ 63 -> 0 <= cap < 2 ^ 63 ->
  match compress pkt (mkcall c cap) with
  | (Ok out, s) =>
      bytes_ok out /\ blen out = len s /\ blen out <= cap /\ blen pkt - 40 <= blen out /\
      packet_count_ (self s) = u32 (packet_count_ c + 1) /\
      exists new, c_context (self s) = Ok new /\ context_ok new /\ cid new = cid old /\
                  rohc_state new = next_state (rohc_state old)
  | (Rej, s) => self s = c
  | (Ub, _) => False
  end.
Proof.
  intros Hc Hok Hb Hl Hcap. pose proof (compress_answers c old pkt cap Hc Hok Hb Hl Hcap) as W.
  unfold compress_post in W. destruct (compress pkt (mkcall c cap)) as [[out| |] s]; [|done|done].
  destruct W as (?&?&?&?&_&new&->&?&?&?&?). split_and!; try done. exists new.
  by rewrite (c_context_counted c old).
Qed.

Lemma compress_transactional_witness :
  self (snd (compress [0x45; 1; 2; 3] (mkcall made_compressor 64))) = made_compressor.
Proof.
  pose proof (compress_transactional made_compressor
    (initial_context <| cid := 3 |> <| profile := RTP |> <| mode := Optimistic |> <| tx_count := 0 |>
          <| nack_count := 0 |>) [0x45; 1; 2; 3] 64 eq_refl) as W.
  assert (E : fst (compress [0x45; 1; 2; 3] (mkcall made_compressor 64)) = Rej) by (vm_compute; reflexivity).
  destruct (compress [0x45; 1; 2; 3] (mkcall made_compressor 64)) as [[out| |] s]; [discriminate E| |discriminate E].
  apply W; [|repeat constructor; unfold byte_ok; lia|vm_compute; reflexivity|lia].
  clear. pose proof initial_context_ok as H. generalize dependent initial_context. intros ic H.
  apply ok_set_nack_count; [|unfold byte_ok; lia]. apply ok_set_tx_count; [|lia].
  apply ok_set_mode, ok_set_profile, ok_set_cid; [exact H|lia].
Defined.

(** C32: whatever calls were made on a decompressor since its construction,
    the next one, on any octets, has no undefined behaviour and leaves a
    well-formed context and a validated contract. *)
Theorem decompressor_invariant n max d k :
  identifiers_ok n max -> rx_reachable n max d -> rx_call_ok k ->
  fst (rx_apply k d) <> Ub /\
  (exists ctx, d_context (snd (rx_apply k d)) = Ok ctx /\ context_ok ctx) /\
  (d_enabled (snd (rx_apply k d)) = true ->
   lla_runtime_contract_valid (d_contract (snd (rx_apply k d))) (d_flow (snd (rx_apply k d))) = true).
Proof.
  intros Hid Hr Hk. pose proof (rx_reachable_inv n max d Hid Hr) as Hinv.
  destruct (rx_apply_inv k d Hinv Hk) as (Hu & Hctx & Hlla). by split_and!.
Qed.

Lemma decompressor_invariant_witness :
  fst (rx_apply (RxDecompress [0xFC; 0x01; 0; 0x40] 64) (make_decompressor 0 0)) <> Ub.
Proof.
  apply (decompressor_invariant 0 0 (make_decompressor 0 0) (RxDecompress [0xFC; 0x01; 0; 0x40] 64));
    [unfold identifiers_ok; lia|exact (rx_made 0 0)|].
  split; [repeat constructor; unfold byte_ok; lia|vm_compute; by split].
Defined.

(** C11: on any octets [decompress] either delivers a packet within the buffer,
    whose IPv4 header checksum verifies and whose payload is the end of the
    octets received, and stores the new context; or refuses, stores nothing, and clears
    the length. *)
Theorem decompress_transactional d old rohc cap :
  d_context d = Ok old -> context_ok old -> bytes_ok rohc -> size_ok (blen rohc) ->
  match decompress rohc (mkdcall d cap) with
  | (Ok ip, s) =>
      blen ip = d_len s /\ 40 <= blen ip <= cap /\ blen ip < 2 ^ 16 /\
      ones_sum (word_sum (take 20 ip)) = 65535 /\
      drop 40 ip `suffix_of` rohc /\
      exists new, d_context (d_self s) = Ok new /\ context_ok new
  | (Rej, s) => d_self s = d /\ d_len s = 0
  | (Ub, _) => False
  end.
Proof.
  intros Hd Hok Hb Hs. pose proof (decompress_answers d old rohc cap Hd Hok Hb Hs) as W.
  unfold decompress_post in W. destruct (decompress rohc (mkdcall d cap)) as [[ip| |] s]; [|by subst|done].
  destruct W as (Hl & Hcap & new & payload & -> & Hn & (csum & Eip & Hsum & Htot) & Hpl).
  assert (Hlen : blen ip = 40 + blen payload).
  { rewrite Eip, !blen_app, blen_udp_rtp_header. unfold ip_header. autorewrite with blen. lia. }
  split_and!; [done|lia|lia|lia| |by rewrite Eip|].
  - rewrite Eip, take_app_le by (unfold ip_header; cbn; lia). rewrite take_ge; [done|].
    unfold ip_header. cbn. lia.
  - exists new. by rewrite (d_context_updated d old).
Qed.

Lemma decompress_transactional_witness :
  d_self (snd (decompress [0xFD; 1; 2; 3] (mkdcall (make_decompressor 0 0) 64))) = make_decompressor 0 0.
Proof.
  pose proof (decompress_transactional (make_decompressor 0 0) initial_context [0xFD; 1; 2; 3] 64 eq_refl
    initial_context_ok) as W.
  assert (E : fst (decompress [0xFD; 1; 2; 3] (mkdcall (make_decompressor 0 0) 64)) = Rej)
    by (vm_compute; reflexivity).
  destruct (decompress [0xFD; 1; 2; 3] (mkdcall (make_decompressor 0 0) 64)) as [[out| |] s];
    [discriminate E| |discriminate E].
  apply W; [repeat constructor; unfold byte_ok; lia|vm_compute; by split].
Defined.

(** ** Small context identifiers *)

(** A decoder that never accepts. *)
Lemma refuses_rejects d inp c :
  wp (d inp) (fun _ _ => False) (fun _ => True) (mkdst 0 c) -> run_decoder d inp c = Rej.
Proof. unfold wp, run_decoder. by destruct (d inp _) as [[?| |] ?]. Qed.

(** The decoder a packet with an Add-CID octet is given to. *)
Lemma add_cid_rejected tx rx rest :
  1 <= cid tx <= 15 -> large_cid tx = false -> cid rx = 0 -> large_cid rx = false ->
  decode_packet (header StdRTP tx ++ rest) rx = Rej.
Proof.
  intros Hc Hl Hr Hrl. set (pkt := header StdRTP tx ++ rest).
  assert (E : exists l, pkt = Z.lor 0xE0 (Z.land (cid tx) 0x0F) :: l).
  { unfold pkt, header, ir_packet, ir_head, add_cid_octets. rewrite Hl, (proj2 (Z.ltb_lt 0 _)) by lia.
    cbn [negb andb app]. by eexists. }
  destruct E as [l E].
  assert (Hb : forallb (fun v => (v =? 0) || (15 <? v) ||
      (negb (Z.land (Z.lor 0xE0 (Z.land v 0x0F)) 0xFE =? 0xFC) && negb (Z.lor 0xE0 (Z.land v 0x0F) =? 0xF8)))
      all_bytes = true) by (vm_compute; reflexivity).
  pose proof (byte_forall _ Hb (cid tx) ltac:(unfold byte_ok; lia)) as H. cbv beta in H.
  rewrite (proj2 (Z.eqb_neq (cid tx) 0)), (proj2 (Z.ltb_ge 15 (cid tx))) in H by lia. cbn [orb] in H.
  apply andb_true_iff in H as [H1 H2]. rewrite E. generalize dependent (Z.lor 0xE0 (Z.land (cid tx) 0x0F)).
  intros b _ H1 H2. unfold decode_packet. change (rd (b :: l) 0) with (@Ok Z b). cbn [obind].
  apply negb_true_iff in H1, H2. rewrite H1. apply refuses_rejects.
  unfold decode_ir_dyn_rtp, read_dyn_octets, has_small_cid.
  assert (Hs : suffix_at (b :: l) 0 (b :: l)) by apply suffix_at_start.
  at_step. at_step. apply wp_bind, wp_guard_any. at_step. at_step. at_step. at_step.
  cbn [d_ctx]. rewrite Hr, Hrl. at_go. by apply wp_guard; [rewrite H2|].
Qed.

(** C39: on a small non-zero identifier the two ends cannot talk: every packet
    that a compressor made for CID 1 to 15 emits, after any calls, is refused by
    a decompressor made for the same CID.  The packet starts with the Add-CID
    octet; [decompress] looks for the packet type in the first octet, and its
    contexts carry no identifier to expect another one. *)
Theorem small_cid_refused n max c pkt cap out s max' cap' :
  1 <= n <= 15 -> identifiers_ok n max -> identifiers_ok n max' -> tx_reachable n max c ->
  bytes_ok pkt -> blen pkt < 2 ^ 63 -> 0 <= cap < 2 ^ 63 ->
  compress pkt (mkcall c cap) = (Ok out, s) ->
  decompress out (mkdcall (make_decompressor n max') cap') = (Rej, mkdcall (make_decompressor n max') 0).
Proof.
  intros Hn Hid Hid' Hr Hb Hl Hcap E.
  destruct (tx_reachable_inv n max c Hid Hr) as [[(ctx & Hc & Hok & Hcc & Hlarge) _] Hcid].
  pose proof (compress_answers c ctx pkt cap Hc Hok Hb Hl Hcap) as W. rewrite E in W.
  destruct W as (_&_&_&_&(tx & rest & -> & Etx & Eltx)&_).
  apply (decompress_rejects _ initial_context).
  - destruct Hid' as (Hn' & Hmax & Hle). unfold d_context, make_decompressor. cbn [d_table d_cid].
    destruct (Z.eqb_spec max' 0); apply table_init_get; [lia|lia| |lia]. specialize (Hle ltac:(done)). lia.
  - apply add_cid_rejected; [congruence|congruence|done|done].
Qed.

Definition voice_packet : RtpPacket :=
  mkPacket 0 7 true 64 0x0A000001 0x0A000002 5004 5006 0x9234 0 100 16000 0xCAFE [1; 2; 3].

Lemma small_cid_refused_witness :
  exists out, fst (compress (wire voice_packet) (mkcall made_compressor 128)) = Ok out /\
    decompress out (mkdcall (make_decompressor 3 5) 128) = (Rej, mkdcall (make_decompressor 3 5) 0).
Proof.
  destruct (compress (wire voice_packet) (mkcall made_compressor 128)) as [o s] eqn:E.
  assert (Eo : exists out, o = Ok out).
  { exists (match o with Ok l => l | _ => [] end). vm_compute in E. by injection E as <- _. }
  destruct Eo as [out ->]. exists out. split; [done|].
  apply (small_cid_refused 3 5 made_compressor (wire voice_packet) 128 out s 5 128);
    [lia|unfold identifiers_ok; lia|unfold identifiers_ok; lia|exact made_compressor_reachable|
     |vm_compute; reflexivity|lia|exact E].
  apply wire_octets_ok. unfold packet_ok, byte_ok, blen. cbn.
  split_and!; first [lia | repeat constructor; unfold byte_ok; lia].
Defined.
