(* ===== verification/LlaSync.v ===== *)
(** * Operation under the link-layer assisted profile

    Once both ends hold the same packet, packets that follow the flow's pattern
    travel without any header octet: the receiver predicts them.  Context
    synchronisation packets carry a packet inside the ROHC header they ship, and
    context checks compare the two contexts. *)

From S2P Require Import Prelude Crc Cid Encoding Context Cursor Chains EmitIr DecodeIr.
From S2P Require Import StandardIr Safety IrProperties Lla Compressor Decompressor EndToEnd Link.
From S2P Require Import Transactions.

(** ** Packets without a header *)

(** What the receiver expects after [p]. *)
Definition successor (stride : Z) (sequential : bool) (p : RtpPacket) (payload : bytes) : RtpPacket :=
  mkPacket (p_tos p) (if sequential then u16 (p_id p + 1) else p_id p) (p_df p) (p_ttl p) (p_saddr p)
    (p_daddr p) (p_sport p) (p_dport p) (p_check p) (p_mpt p) (u16 (p_seq p + 1))
    (u32 (p_ts p + stride)) (p_ssrc p) payload.

(** Both ends run under the contract and hold the packet [p]; the receiver
    expects the timestamp to grow by [stride] and, if [sequential], the IP-ID
    by one. *)
Record synced (stride : Z) (sequential : bool) (p : RtpPacket) (l : Link) (ctx rx : Context) : Prop := {
  sy_tx : c_context (l_tx l) = Ok ctx;
  sy_rx : d_context (l_rx l) = Ok rx;
  sy_sender : sender_ready ctx;
  sy_receiver : context_ok rx;
  sy_p : packet_ok p;
  sy_describes : describes ctx p;
  sy_described : describes rx p;
  sy_tx_ready : lla_context_ready ctx = true;
  sy_rx_ready : lla_context_ready rx = true;
  sy_stride : ts_stride (rtp rx) = stride;
  sy_sequential : ipv4_id_sequential rx = sequential;
  sy_tx_lla : lla_enabled_ (l_tx l) &&
              can_emit_no_header_packet_for_flow (lla_contract_ (l_tx l)) (lla_flow_ (l_tx l)) = true;
  sy_rx_lla : d_enabled (l_rx l) &&
              can_emit_no_header_packet_for_flow (d_contract (l_rx l)) (d_flow (l_rx l)) = true }.

(** The lower layer tells the receiver of an empty packet and hands it the
    RTP payload. *)
Definition nhp_transfer (cap : Z) (pkt payload : bytes) (l : Link) : fate * Link :=
  match rfc4362_emit_nhp pkt (mkcall (l_tx l) cap) with
  | (Ok _, s) =>
      match rfc4362_receive_nhp payload (mkdcall (l_rx l) cap) with
      | (Ok ip, s') => (Delivered ip, mkLink (self s) (d_self s'))
      | (Rej, s') => (Refused, mkLink (self s) (d_self s'))
      | (Ub, s') => (Undefined, mkLink (self s) (d_self s'))
      end
  | (Rej, s) => (NotSent, mkLink (self s) (l_rx l))
  | (Ub, s) => (Undefined, mkLink (self s) (l_rx l))
  end.

(** The compressor's scratch buffer bounds the payload. *)
Definition nhp_fits (cap : Z) (payload : bytes) : Prop :=
  bytes_ok payload /\ 38 + blen payload <= scratch_size /\ 40 + blen payload <= cap.

Lemma u16_id v : 0 <= v < 2 ^ 16 -> u16 v = v.
Proof. intros. by apply Z.mod_small. Qed.

Lemma successor_ok stride sequential p payload :
  packet_ok p -> bytes_ok payload -> 40 + blen payload < 2 ^ 16 ->
  packet_ok (successor stride sequential p payload).
Proof.
  intros Hp Hb Hl. unfold packet_ok in Hp. destruct Hp as (?&?&?&?&?&?&?&?&?&?&?&?&?&?).
  unfold packet_ok, successor. cbn [p_tos p_id p_ttl p_saddr p_daddr p_sport p_dport p_check p_mpt
    p_seq p_ts p_ssrc p_payload].
  split_and!; try assumption; try lia; try apply Z.mod_pos_bound; try lia.
  all: destruct sequential; try lia; apply Z.mod_pos_bound; lia.
Qed.

Lemma advance_describes rx p payload :
  context_ok rx -> packet_ok p -> describes rx p ->
  describes (advance_context rx) (successor (ts_stride (rtp rx)) (ipv4_id_sequential rx) p payload).
Proof.
  intros Hok Hp (E1&E2&E3&E4&E5&E6&E7&E8&E9&E10&E11&E12&E13&E14&E15).
  assert (Hts : 0 <= p_ts p < 2 ^ 32) by apply Hp.
  assert (Hst : 0 <= ts_stride (rtp rx)) by apply Hok.
  unfold advance_context. cbv zeta.
  replace (ip_version _ =? 4) with true by (by cbn; rewrite E1). cbn [andb].
  change (ipv4_id_sequential (rx <| rtp := _ |>)) with (ipv4_id_sequential rx).
  destruct (ipv4_id_sequential rx).
  all: match goal with |- context [0 <? ts_stride (rtp ?c)] =>
         change (ts_stride (rtp c)) with (ts_stride (rtp rx)) end.
  all: destruct (Z.ltb_spec 0 (ts_stride (rtp rx))).
  all: unfold describes, successor; cbn -[u16 u32 Z.add];
    rewrite ?E1, ?E2, ?E3, ?E4, ?E5, ?E6, ?E7, ?E8, ?E9, ?E10, ?E11, ?E12, ?E13, ?E14, ?E15;
    split_and!; try reflexivity.
  all: replace (ts_stride (rtp rx)) with 0 by lia; rewrite Z.add_0_r; symmetry; by apply Z.mod_small.
Qed.

(** What the receiver's prediction leaves alone. *)
Lemma advance_same rx :
  let c := advance_context rx in
  ts_stride (rtp c) = ts_stride (rtp rx) /\ ipv4_id_sequential c = ipv4_id_sequential rx /\
  profile c = profile rx /\ rohc_state c = rohc_state rx.
Proof. unfold advance_context. cbv zeta. destruct (_ && _), (0 <? _); by cbn. Qed.

Lemma lla_ready_dynamic ctx :
  lla_context_ready ctx = true -> rohc_state ctx = DynamicEstablished.
Proof. unfold lla_context_ready, state_eqb. intros H. by bool_prop. Qed.

Lemma lla_ready_same a b :
  profile a = profile b -> rohc_state a = rohc_state b -> lla_context_ready a = lla_context_ready b.
Proof. unfold lla_context_ready, lla_context_established. by intros -> ->. Qed.

(** A compressor that is ready stays so: it now runs the RTP profile. *)
Lemma sent_lla_ready p ctx : lla_context_ready ctx = true -> lla_context_ready (sent p ctx) = true.
Proof.
  intros H%lla_ready_dynamic. unfold lla_context_ready, lla_context_established, sent.
  assert (E : profile (described p ctx) = RTP) by reflexivity.
  generalize dependent (described p ctx). intros c E. cbn. by rewrite E, H.
Qed.

Lemma emit_nhp_runs c ctx p n :
  c_context c = Ok ctx -> sender_ready ctx -> packet_ok p -> 38 + blen (p_payload p) <= scratch_size ->
  lla_context_ready ctx = true ->
  lla_enabled_ c && can_emit_no_header_packet_for_flow (lla_contract_ c) (lla_flow_ c) = true ->
  rfc4362_emit_nhp (wire p) (mkcall c n) = (Ok tt, mkcall (counted (sent p ctx) c) 0).
Proof.
  intros Hc Hr Hp Hl Hready Hlla. bool_prop.
  assert (E : compress_scratch (wire p) (mkcall c n) =
    (Ok (header StdRTP (described p ctx) ++ p_payload p), mkcall (counted (sent p ctx) c) n)).
  { unfold compress_scratch. cbn [self len]. by rewrite (compress_wire c ctx). }
  unfold c_context in Hc. unfold rfc4362_emit_nhp, load_context, set_len, gets, guard, lift, bind, modify.
  cbn [self]. rewrite H, H0. cbn [negb orb oguard self]. rewrite Hc, Hready. cbn [oguard].
  by rewrite E.
Qed.

Lemma receive_nhp_runs d rx p cap :
  d_context d = Ok rx -> lla_context_ready rx = true -> packet_ok p -> describes (advance_context rx) p ->
  40 + blen (p_payload p) <= cap ->
  d_enabled d && can_emit_no_header_packet_for_flow (d_contract d) (d_flow d) = true ->
  rfc4362_receive_nhp (p_payload p) (mkdcall d cap) =
  (Ok (wire p), mkdcall (updated (advance_context rx) d) (blen (wire p))).
Proof.
  intros Hd Hready Hp Hdesc Hcap Hlla. bool_prop. unfold d_context in Hd.
  unfold rfc4362_receive_nhp, d_load, d_store, d_set_len, gets, guard, lift, bind, modify, ret.
  cbn [d_self]. rewrite H, H0. cbn [negb orb oguard d_self]. rewrite Hd, Hready. cbn [oguard d_self d_len].
  by rewrite (rebuild_wire p).
Qed.

(** One packet without a header: delivered, and the ends stay in step. *)
Lemma nhp_step stride sequential p payload cap l ctx rx :
  synced stride sequential p l ctx rx -> nhp_fits cap payload ->
  let p' := successor stride sequential p payload in
  exists l' ctx' rx', nhp_transfer cap (wire p') payload l = (Delivered (wire p'), l') /\
                      synced stride sequential p' l' ctx' rx'.
Proof.
  intros [Hc Hd Hs Hrok Hp Hdc Hdr Htr Hrr Hst Hseq Htl Hrl] (Hb & Hscr & Hcap) p'.
  assert (Hp' : packet_ok p') by (apply successor_ok; [done|done|unfold scratch_size in Hscr; lia]).
  assert (Hadv : describes (advance_context rx) p') by (unfold p'; rewrite <- Hst, <- Hseq; by apply advance_describes).
  destruct (advance_same rx) as (E1 & E2 & E3 & E4).
  unfold nhp_transfer. rewrite (emit_nhp_runs _ ctx) by done.
  change payload with (p_payload p') at 1. rewrite (receive_nhp_runs _ rx p') by done.
  cbn [self d_self]. do 3 eexists. split; [reflexivity|].
  constructor; cbn [l_tx l_rx].
  - by apply (c_context_counted _ ctx).
  - by apply (d_context_updated _ rx).
  - by apply sent_ready.
  - by apply advance_ok.
  - done.
  - apply sent_describes.
  - done.
  - by apply sent_lla_ready.
  - by rewrite (lla_ready_same _ rx).
  - by rewrite E1.
  - by rewrite E2.
  - exact Htl.
  - exact Hrl.
Qed.

(** A run of packets, each the successor of the one before. *)
Fixpoint run_of (stride : Z) (sequential : bool) (p : RtpPacket) (payloads : list bytes) : list RtpPacket :=
  match payloads with
  | [] => []
  | b :: bs => let p := successor stride sequential p b in p :: run_of stride sequential p bs
  end.

Fixpoint nhp_transfers (cap : Z) (packets : list RtpPacket) (l : Link) : list fate * Link :=
  match packets with
  | [] => ([], l)
  | p :: ps =>
      let (f, l) := nhp_transfer cap (wire p) (p_payload p) l in
      let (fs, l) := nhp_transfers cap ps l in (f :: fs, l)
  end.

Lemma synced_run stride sequential p cap l ctx rx payloads :
  synced stride sequential p l ctx rx -> Forall (nhp_fits cap) payloads ->
  fst (nhp_transfers cap (run_of stride sequential p payloads) l) =
  map (fun q => Delivered (wire q)) (run_of stride sequential p payloads).
Proof.
  revert p l ctx rx. induction payloads as [|b bs IH]; intros p l ctx rx Hsync Hall; [done|].
  apply Forall_cons_iff in Hall as [Hb Hbs]. cbn [run_of nhp_transfers map].
  destruct (nhp_step stride sequential p b cap l ctx rx Hsync Hb) as (l' & ctx' & rx' & E & Hsync').
  cbn [p_payload successor]. change (p_payload (successor stride sequential p b)) with b. rewrite E.
  specialize (IH _ _ _ _ Hsync' Hbs).
  destruct (nhp_transfers cap _ l') as [fs l'']. cbn [fst] in *. by rewrite IH.
Qed.

(** ** How the ends get in step *)

(** What the decoder infers from a packet and the one before. *)
Lemma rtp_image_inferred tx rx :
  ip_version tx = 4 ->
  ts_stride (rtp (rtp_image tx rx)) =
    (if negb (initialized (rtp rx) =? 0) then
       match infer_timestamp_stride (last_seq (rtp rx)) (last_ts (rtp rx)) (last_seq (rtp tx)) (last_ts (rtp tx)) with
       | Some (stride, _) => stride | None => ts_stride (rtp rx) end
     else ts_stride (rtp rx)) /\
  (ip_version rx = 4 -> rohc_state rx <> NoContext ->
   ipv4_id_sequential (rtp_image tx rx) =
     (u16 ((if id_present tx then ipv4_id tx else 0) - ipv4_id rx) =?
      u16 (last_seq (rtp tx) - last_seq (rtp rx)))) /\
  initialized (rtp (rtp_image tx rx)) = 1.
Proof.
  intros Ev. unfold rtp_image. cbv zeta. split_and!.
  - match goal with |- context [id_image rx ?c] => destruct (id_image_eq rx c) as (b & ->) end.
    unfold stride_image. destruct (negb _); [|unfold checksum_image, dynamic_image, ports_image, base_image,
      static_image; by rewrite Ev].
    destruct (infer_timestamp_stride _ _ _ _) as [[st res]|]; [reflexivity|].
    unfold checksum_image, dynamic_image, ports_image, base_image, static_image. by rewrite Ev.
  - intros Hv Hs. unfold id_image.
    match goal with |- context [stride_image tx rx ?r] =>
      destruct (stride_image_eq tx rx r) as (st & res & ->) end.
    unfold state_eqb. rewrite bool_decide_eq_false_2 by done. rewrite Hv.
    unfold checksum_image, dynamic_image, ports_image, base_image, static_image.
    rewrite Ev. cbn [Z.eqb Pos.eqb andb negb]. reflexivity.
  - reflexivity.
Qed.

(** Both applications enable the profile under the same contract and flow. *)
Definition enable_both (contract : AssistingLayerContract) (flow : ZeroByteFlow) (l : Link) : bool * Link :=
  let (b1, c) := enable_rfc4362_lla contract flow (l_tx l) in
  let (b2, d) := d_enable_rfc4362_lla contract flow (l_rx l) in
  (b1 && b2, mkLink c d).

(** The stride and the IP-ID behaviour two packets show. *)
Definition shown_stride (p q : RtpPacket) : Z :=
  match infer_timestamp_stride (p_seq p) (p_ts p) (p_seq q) (p_ts q) with
  | Some (stride, _) => stride | None => 0 end.
Definition shown_sequential (p q : RtpPacket) : bool :=
  u16 (p_id q - p_id p) =? u16 (p_seq q - p_seq p).

(** What the receiver infers from a packet [q] after a packet [p]. *)
Lemma image_infers p q tx rx :
  ip_version tx = 4 -> last_seq (rtp tx) = p_seq q -> last_ts (rtp tx) = p_ts q ->
  (if id_present tx then ipv4_id tx else 0) = p_id q ->
  describes rx p -> rohc_state rx = DynamicEstablished -> initialized (rtp rx) = 1 ->
  ts_stride (rtp rx) = 0 ->
  ts_stride (rtp (rtp_image tx rx)) = shown_stride p q /\
  ipv4_id_sequential (rtp_image tx rx) = shown_sequential p q.
Proof.
  intros Hv Hq Ht Hid (V&_&_&D&_&_&_&_&_&_&_&_&Q&T&_) Hst Hin Hz.
  destruct (rtp_image_inferred tx rx Hv) as (-> & F & _). rewrite F by (done || by rewrite Hst).
  rewrite Hin, Hz, Hq, Ht, Hid, D, Q, T. split; [|done].
  cbn. unfold shown_stride. by destruct (infer_timestamp_stride _ _ _ _) as [[? ?]|].
Qed.

(** The receiver after its first packet. *)
Lemma first_image tx :
  ip_version tx = 4 ->
  let rx := rtp_image tx (receiving initial_context) in
  rohc_state rx = DynamicEstablished /\ initialized (rtp rx) = 1 /\ ts_stride (rtp rx) = 0.
Proof.
  intros Hv rx. destruct (rtp_image_inferred tx (receiving initial_context) Hv) as (S1 & _ & I1).
  destruct (rtp_image_fields tx (receiving initial_context) Hv)
    as (_&_&_&_&_&_&_&_&_&_&_&_&_&_&_&_&_&St&_).
  split_and!; [exact St|exact I1|]. unfold rx. rewrite S1. reflexivity.
Qed.

Lemma receiving_same rx p :
  (describes rx p -> describes (receiving rx) p) /\ rohc_state (receiving rx) = rohc_state rx /\
  rtp (receiving rx) = rtp rx.
Proof. by split_and!. Qed.

(** The start of a link. *)
Definition fresh_ready_link (l : Link) : Prop :=
  exists ctx, c_context (l_tx l) = Ok ctx /\ sender_ready ctx /\ d_context (l_rx l) = Ok initial_context.

Lemma sent_profile p ctx : profile (sent p ctx) = RTP /\ rohc_state (sent p ctx) = next_state (rohc_state ctx).
Proof. split; reflexivity. Qed.

Lemma first_packet room cap p l :
  fresh_ready_link l -> packet_ok p -> fits room cap p -> fst (transfer room cap (wire p) l) = Delivered (wire p) ->
  exists l1 ctx1 rx1, transfer room cap (wire p) l = (Delivered (wire p), l1) /\
    c_context (l_tx l1) = Ok ctx1 /\ sender_ready ctx1 /\ rohc_state ctx1 <> NoContext /\
    d_context (l_rx l1) = Ok rx1 /\ receiver_ready rx1 /\ describes rx1 p /\
    rohc_state rx1 = DynamicEstablished /\ initialized (rtp rx1) = 1 /\ ts_stride (rtp rx1) = 0.
Proof.
  intros (ctx & Hc & Hr & Hd) Hp Hfp Hdp.
  destruct (transfer_delivered_eq room cap p l ctx initial_context (wire p) Hc Hr Hd initial_receiver_ready Hp Hfp Hdp)
    as (E1 & Hrx1 & Hdesc1).
  destruct (first_image (described p ctx) eq_refl) as (St1 & In1 & Sd1).
  do 3 eexists. split; [exact E1|]. cbn [l_tx l_rx]. split_and!.
  - by apply (c_context_counted _ ctx).
  - by apply sent_ready.
  - destruct (sent_profile p ctx) as [_ ->]. by destruct (rohc_state ctx).
  - by apply (d_context_updated _ initial_context).
  - exact Hrx1.
  - exact Hdesc1.
  - exact St1.
  - exact In1.
  - exact Sd1.
Qed.

Lemma ready_of c : profile c = RTP -> rohc_state c = DynamicEstablished -> lla_context_ready c = true.
Proof. unfold lla_context_ready, lla_context_established. by intros -> ->. Qed.

Lemma second_packet room cap p q l ctx rx :
  c_context (l_tx l) = Ok ctx -> sender_ready ctx -> rohc_state ctx <> NoContext ->
  d_context (l_rx l) = Ok rx -> receiver_ready rx -> describes rx p ->
  rohc_state rx = DynamicEstablished -> initialized (rtp rx) = 1 -> ts_stride (rtp rx) = 0 ->
  packet_ok q -> fits room cap q -> fst (transfer room cap (wire q) l) = Delivered (wire q) ->
  exists l2 ctx2 rx2, transfer room cap (wire q) l = (Delivered (wire q), l2) /\
    c_context (l_tx l2) = Ok ctx2 /\ sender_ready ctx2 /\ describes ctx2 q /\ lla_context_ready ctx2 = true /\
    d_context (l_rx l2) = Ok rx2 /\ context_ok rx2 /\ describes rx2 q /\ lla_context_ready rx2 = true /\
    ts_stride (rtp rx2) = shown_stride p q /\ ipv4_id_sequential rx2 = shown_sequential p q.
Proof.
  intros Hc Hr Hst Hd Hrx Hdesc Srx Irx Zrx Hq Hfq Hdq.
  destruct (transfer_delivered_eq room cap q l ctx rx (wire q) Hc Hr Hd Hrx Hq Hfq Hdq) as (E2 & Hrx2 & Hdesc2).
  destruct (rtp_image_fields (described q ctx) (receiving rx) eq_refl)
    as (_&_&_&_&_&_&_&_&_&_&_&_&_&_&_&_&_&St2&P2).
  pose proof (described_describes q ctx) as (_&_&_&_&_&_&_&_&_&_&_&_&Q2&T2&_).
  destruct (image_infers p q (described q ctx) (receiving rx) eq_refl Q2 T2 (described_id q ctx) Hdesc Srx Irx Zrx)
    as [Hs Hf].
  do 3 eexists. split; [exact E2|]. cbn [l_tx l_rx]. split_and!.
  - by apply (c_context_counted _ ctx).
  - by apply sent_ready.
  - apply sent_describes.
  - destruct (sent_profile q ctx) as [Ep Es]. apply ready_of; [exact Ep|]. rewrite Es. by destruct (rohc_state ctx).
  - by apply (d_context_updated _ rx).
  - apply Hrx2.
  - exact Hdesc2.
  - by apply ready_of.
  - exact Hs.
  - exact Hf.
Qed.

Lemma two_packets_in_step room cap p q l contract flow :
  fresh_ready_link l -> packet_ok p -> packet_ok q -> fits room cap p -> fits room cap q ->
  fst (transfers room cap [wire p; wire q] l) = [Delivered (wire p); Delivered (wire q)] ->
  lla_runtime_contract_valid contract flow = true ->
  let l2 := snd (transfers room cap [wire p; wire q] l) in
  exists ctx rx, fst (enable_both contract flow l2) = true /\
    synced (shown_stride p q) (shown_sequential p q) q (snd (enable_both contract flow l2)) ctx rx.
Proof.
  intros Hl Hp Hq Hfp Hfq Hdel Hlla. cbn [transfers] in *.
  assert (Hdp : fst (transfer room cap (wire p) l) = Delivered (wire p)).
  { destruct (transfer room cap (wire p) l) as [f1 l1]. destruct (transfer room cap (wire q) l1). by injection Hdel. }
  destruct (first_packet room cap p l Hl Hp Hfp Hdp)
    as (l1 & ctx1 & rx1 & E1 & Hc1 & Hr1 & Hs1 & Hd1 & Hrx1 & Hdesc1 & St1 & In1 & Sd1).
  rewrite E1 in Hdel |- *. assert (Hdq : fst (transfer room cap (wire q) l1) = Delivered (wire q)).
  { destruct (transfer room cap (wire q) l1). by injection Hdel. }
  destruct (second_packet room cap p q l1 ctx1 rx1 Hc1 Hr1 Hs1 Hd1 Hrx1 Hdesc1 St1 In1 Sd1 Hq Hfq Hdq)
    as (l2 & ctx2 & rx2 & E2 & Hc2 & Hr2 & Hdesc2 & L2 & Hd2 & Hok2 & Hdr2 & Lr2 & Hs & Hf).
  rewrite E2. cbn [snd]. exists ctx2, rx2.
  unfold enable_both, enable_rfc4362_lla, d_enable_rfc4362_lla. rewrite Hlla. cbn [negb fst snd].
  split; [done|]. unfold lla_runtime_contract_valid in Hlla. bool_prop.
  constructor; cbn [l_tx l_rx lla_enabled_ lla_contract_ lla_flow_ d_enabled d_contract d_flow]; try assumption.
Qed.


Definition full_contract : AssistingLayerContract :=
  Build_AssistingLayerContract true true true true true true true true true true true.
Definition full_flow : ZeroByteFlow := Build_ZeroByteFlow true true true true true.

(** Packets of a flow without UDP checksum. *)
Definition unchecked_packet (n : Z) : RtpPacket :=
  mkPacket 0 (7 + n) true 64 0x0A000001 0x0A000002 5004 5006 0 0 (100 + n) (16000 + 160 * n) 0xCAFE [1; 2; 3].

Lemma unchecked_packet_ok n : 0 <= n < 10 -> packet_ok (unchecked_packet n) /\ fits 128 128 (unchecked_packet n).
Proof.
  intros Hn. unfold packet_ok, fits, byte_ok, size_ok, blen. cbn.
  split_and!; first [lia | done | repeat constructor; unfold byte_ok; lia].
Qed.


(** ** Context synchronisation packets *)

(** The sender emits a CSP for the packet, the receiver takes it apart. *)
Definition csp_transfer (room cap : Z) (pkt : bytes) (l : Link) : fate * Link :=
  match rfc4362_emit_csp pkt (mkcall (l_tx l) room) with
  | (Ok csp, s) =>
      match rfc4362_receive_csp csp (mkdcall (l_rx l) cap) with
      | (Ok ip, s') => (Delivered ip, mkLink (self s) (d_self s'))
      | (Rej, s') => (Refused, mkLink (self s) (d_self s'))
      | (Ub, s') => (Undefined, mkLink (self s) (d_self s'))
      end
  | (Rej, s) => (NotSent, mkLink (self s) (l_rx l))
  | (Ub, s) => (Undefined, mkLink (self s) (l_rx l))
  end.

Definition can_synchronize (l : Link) : Prop :=
  lla_enabled_ (l_tx l) && can_emit_context_synchronization_packet (lla_contract_ (l_tx l)) = true /\
  d_enabled (l_rx l) && can_emit_context_synchronization_packet (d_contract (l_rx l)) = true.

Lemma emit_csp_runs c ctx p room :
  c_context c = Ok ctx -> sender_ready ctx -> packet_ok p -> 38 + blen (p_payload p) <= scratch_size ->
  41 + blen (p_payload p) <= room ->
  lla_enabled_ c && can_emit_context_synchronization_packet (lla_contract_ c) = true ->
  exists csp s, rfc4362_emit_csp (wire p) (mkcall c room) = (Ok csp, s) /\
    self s = counted (sent p ctx) c /\
    write_context_synchronization_packet room (blen (p_payload p))
      (header StdRTP (described p ctx) ++ p_payload p) = Ok csp.
Proof.
  intros Hc Hr Hp Hl Hroom Hlla. bool_prop. pose proof (blen_nonneg (p_payload p)).
  unfold scratch_size in Hl.
  pose proof (rtp_header_len _ (described_ok p ctx Hp Hr)
    (proj1 (proj2 (described_expressible p ctx Hr))) eq_refl) as Hlen.
  assert (E : compress_scratch (wire p) (mkcall c room) =
    (Ok (header StdRTP (described p ctx) ++ p_payload p), mkcall (counted (sent p ctx) c) room)).
  { unfold compress_scratch. cbn [self len]. by rewrite (compress_wire c ctx). }
  unfold rfc4362_emit_csp, set_len, gets, guard, lift, bind, modify, ret. cbn [self].
  rewrite H, H0. cbn [negb orb oguard]. rewrite E. rewrite blen_wire.
  replace (if 40 <? 40 + blen (p_payload p) then 40 + blen (p_payload p) - 40 else 0)
    with (blen (p_payload p)) by (destruct (Z.ltb_spec 40 (40 + blen (p_payload p))); lia).
  rewrite (proj2 (Z.ltb_ge _ (blen (p_payload p)))) by lia. cbn [negb oguard self len].
  unfold u16. rewrite Z.mod_small by lia.
  unfold write_context_synchronization_packet. rewrite (proj2 (Z.ltb_ge room _)) by (rewrite blen_app; lia).
  cbn [negb oguard obind]. do 2 eexists. split; [reflexivity|]. by split.
Qed.

(** C33: a context synchronisation packet carries a whole packet: what the
    compressor puts in it, the decompressor at the other end delivers octet for
    octet or refuses - never anything else - and both ends stay usable. *)
Theorem synchronization_exact room cap p l :
  link_ready l -> can_synchronize l -> packet_ok p -> 38 + blen (p_payload p) <= scratch_size ->
  41 + blen (p_payload p) <= room -> 40 + blen (p_payload p) <= cap ->
  let (f, l') := csp_transfer room cap (wire p) l in
  link_ready l' /\ (f = Delivered (wire p) \/ f = Refused /\ l_rx l' = l_rx l) /\
  (distinct p -> f = Delivered (wire p)).
Proof.
  intros (ctx & rx & Hc & Hr & Hd & Hrx) [Htx Hrxl] Hp Hl Hroom Hcap.
  destruct (emit_csp_runs (l_tx l) ctx p room Hc Hr Hp Hl Hroom Htx) as (csp & s & E & Es & Ew).
  pose proof (described_announces p ctx Hp Hr) as Ha. pose proof (blen_nonneg (p_payload p)).
  unfold scratch_size in Hl. apply csp_read_back in Ew; [|lia].
  unfold csp_transfer. rewrite E, Es. bool_prop.
  unfold rfc4362_receive_csp, gets, guard, lift, bind. cbn [d_self].
  rewrite H0, H1. cbn [negb orb oguard]. rewrite Ew. cbn [rohc_header].
  destruct (decompress_announced (l_rx l) rx (described p ctx) p cap Hd Hrx Hp Ha Hcap)
    as [[-> Hready]|[-> Hamb]]; cbn [d_self].
  - split; [|by split; [left|]]. eapply link_ready_updated; eauto using sent_ready.
  - split; [|split; [by right|]]; [eapply link_ready_sent; eauto using sent_ready|].
    intros Hdist. by rewrite distinct_unambiguous in Hamb.
Qed.

Lemma enabled_ready contract flow l : link_ready l -> link_ready (snd (enable_both contract flow l)).
Proof.
  intros (ctx & rx & H). exists ctx, rx. unfold enable_both, enable_rfc4362_lla, d_enable_rfc4362_lla.
  by destruct (lla_runtime_contract_valid contract flow).
Qed.

Lemma synchronization_exact_witness :
  fst (csp_transfer 128 128 (wire (sample_packet 0)) (snd (enable_both full_contract full_flow sample_link))) =
  Delivered (wire (sample_packet 0)).
Proof.
  pose proof (sample_packet_ok 0 ltac:(lia)) as (Hp & _ & Hdist).
  pose proof (synchronization_exact 128 128 (sample_packet 0)
    (snd (enable_both full_contract full_flow sample_link))) as W.
  destruct (csp_transfer _ _ _ _) as [f l']. cbn [fst].
  apply W; try assumption; [|split; reflexivity|vm_compute; congruence..].
  apply enabled_ready, (fresh_ready 0 0); [lia|lia|exact sample_link_fresh].
Defined.

(** ** Context check packets *)

Definition can_check (c : Compressor) (d : Decompressor) : Prop :=
  lla_enabled_ c && can_emit_context_check_packet (lla_contract_ c) = true /\
  d_enabled d && can_emit_context_check_packet (d_contract d) = true.

Lemma emit_ccp_runs c ctx n :
  c_context c = Ok ctx -> context_ok ctx -> lla_context_established ctx = true -> 2 <= n ->
  lla_enabled_ c && can_emit_context_check_packet (lla_contract_ c) = true ->
  exists ccp, rfc4362_emit_ccp (mkcall c n) = (Ok ccp, mkcall c (blen ccp)) /\
    write_context_check_packet n {| has_crc := true; ccp_crc7 := crc7 (context_octets ctx) |} = Ok ccp.
Proof.
  intros Hc Hok He Hn Hlla. bool_prop. unfold c_context in Hc.
  unfold rfc4362_emit_ccp, load_context, set_len, gets, guard, lift, bind, modify, ret. cbn [self].
  rewrite H, H0. cbn [negb orb oguard self]. rewrite Hc, He. cbn [oguard].
  rewrite context_crc7_eq by done. cbn [self len].
  unfold write_context_check_packet. rewrite (proj2 (Z.ltb_ge n 2)) by lia. cbn [negb oguard obind].
  eexists. split; reflexivity.
Qed.

Lemma receive_ccp_runs d rx ccp crc cap :
  d_context d = Ok rx -> context_ok rx -> lla_context_established rx = true ->
  d_enabled d && can_emit_context_check_packet (d_contract d) = true ->
  read_context_check_packet ccp = Ok {| has_crc := true; ccp_crc7 := crc |} ->
  rfc4362_receive_ccp ccp (mkdcall d cap) =
  (if crc =? crc7 (context_octets rx) then Ok tt else Rej, mkdcall d cap).
Proof.
  intros Hd Hok He Hlla E. bool_prop. unfold d_context in Hd.
  unfold rfc4362_receive_ccp, d_load, gets, guard, lift, bind. cbn [d_self].
  rewrite H, H0. cbn [negb orb oguard]. rewrite E. cbn [has_crc oguard d_self]. rewrite Hd, He. cbn [oguard].
  rewrite context_crc7_eq by done. cbn [ccp_crc7]. by destruct (_ =? _).
Qed.

(** A context check answers whether the CRC-7 of the two contexts agree,
    and changes neither: contexts with the same covered fields pass; contexts
    that differ in a single covered octet fail, unless by the one pattern CRC-7
    cannot see. *)
Theorem context_check c d ctx rx n cap :
  c_context c = Ok ctx -> context_ok ctx -> lla_context_established ctx = true ->
  d_context d = Ok rx -> context_ok rx -> lla_context_established rx = true ->
  can_check c d -> 2 <= n ->
  exists ccp, rfc4362_emit_ccp (mkcall c n) = (Ok ccp, mkcall c (blen ccp)) /\
    snd (rfc4362_receive_ccp ccp (mkdcall d cap)) = mkdcall d cap /\
    (fst (rfc4362_receive_ccp ccp (mkdcall d cap)) = Ok tt <->
     crc7 (context_octets ctx) = crc7 (context_octets rx)) /\
    (forall pre x y post, context_octets ctx = pre ++ x :: post -> context_octets rx = pre ++ y :: post ->
       x <> y -> Z.lxor x y <> 0xF3 -> fst (rfc4362_receive_ccp ccp (mkdcall d cap)) = Rej).
Proof.
  intros Hc Hok He Hd Hrok Hre [Htx Hrx] Hn.
  destruct (emit_ccp_runs c ctx n Hc Hok He Hn Htx) as (ccp & E & Ew).
  pose proof (context_octets_ok ctx Hok) as Hb. pose proof (context_octets_ok rx Hrok) as Hb'.
  apply ccp_read_back in Ew; [|by apply crc7_bound].
  pose proof (receive_ccp_runs d rx ccp _ cap Hd Hrok Hre Hrx Ew) as Er.
  exists ccp. rewrite Er. cbn [fst snd]. split_and!; [exact E|done| |].
  - rewrite <- Z.eqb_eq. by destruct (_ =? _).
  - intros pre x y post E1 E2 Hn1 Hn2. rewrite (proj2 (Z.eqb_neq _ _)); [done|].
    rewrite E1, E2. rewrite E1 in Hb. rewrite E2 in Hb'.
    apply bytes_ok_app in Hb as [? Hb], Hb' as [_ Hb'].
    apply bytes_ok_cons in Hb as [? ?], Hb' as [? _]. by apply crc7_detects.
Qed.

(** Two ends that hold one RTP packet each. *)
Definition check_context (seq : Z) : Context :=
  sample_sender <| profile := RTP |> <| rohc_state := DynamicEstablished |>
    <| rtp := rtp sample_sender <| last_seq := seq |> |>.
Definition check_tx : Compressor :=
  mkCompressor 0 2 {| table := [check_context 100]; max_cid := 0 |} full_contract full_flow true.
Definition check_rx (seq : Z) : Decompressor :=
  mkDecompressor 0 {| table := [check_context seq]; max_cid := 0 |} full_contract full_flow true.

Lemma check_context_ok seq : 0 <= seq < 2 ^ 16 -> context_ok (check_context seq).
Proof.
  intros Hs. unfold check_context. pose proof sample_sender_ok as H.
  generalize dependent sample_sender. intros c H.
  apply ok_set_rtp; [apply ok_set_rohc_state, ok_set_profile; exact H|].
  apply ok_set_last_seq; [by apply ok_rtp|exact Hs].
Qed.

Lemma context_check_witness :
  exists ccp, rfc4362_emit_ccp (mkcall check_tx 16) = (Ok ccp, mkcall check_tx (blen ccp)) /\
    fst (rfc4362_receive_ccp ccp (mkdcall (check_rx 101) 0)) = Rej.
Proof.
  destruct (context_check check_tx (check_rx 101) (check_context 100) (check_context 101) 16 0 eq_refl
    (check_context_ok 100 ltac:(lia)) eq_refl eq_refl (check_context_ok 101 ltac:(lia)) eq_refl
    (conj eq_refl eq_refl) ltac:(lia)) as (ccp & E & _ & _ & W).
  exists ccp. split; [exact E|].
  apply (W (take 30 (context_octets (check_context 100))) 100 101 (drop 31 (context_octets (check_context 100))));
    [vm_compute; reflexivity|vm_compute; reflexivity|lia|vm_compute; discriminate].
Defined.
