(* ===== verification/Feedback.v ===== *)
(** * Feedback from the decompressor: include/rohccxx/core/feedback.hpp

    Two formats - the legacy one with options and FEEDBACK-2 (v1) with a CRC-8
    and an acknowledgment number -, the history of transmitted sequence numbers
    that an acknowledgment is looked up in, and what feedback does to the
    compressor's context. *)

From S2P Require Import Prelude Crc Context Cursor.

Inductive FeedbackType := NACK | STATIC_NACK | ACK.
Inductive FeedbackStatus := Accepted | Stale | Malformed | Uncorrelated | Unsupported.

#[export] Instance FeedbackType_eq_dec : EqDecision FeedbackType.
Proof. solve_decision. Defined.
#[export] Instance FeedbackStatus_eq_dec : EqDecision FeedbackStatus.
Proof. solve_decision. Defined.

(** [FeedbackOptionType] is an enumeration over [uint8_t]; the reader casts any
    octet to it. *)
Record FeedbackOption := mkOption { o_type : Z; o_len : Z; o_value : bytes }.

Record Feedback := mkFeedback {
  f_cid : Z;
  f_type : FeedbackType;
  has_mode : bool;
  f_mode : Mode;
  option_count : Z;
  options : list FeedbackOption;
  acknowledgment_number : Z;
  acknowledgment_bits : Z;
  acknowledgment_valid : bool;
  acknowledged_context_revision : Z;
  context_revision_valid : bool;
  acknowledged_context_distance : Z;
  context_distance_valid : bool;
  crc_present : bool;
  crc_valid : bool }.

Definition eta_feedback (f : Feedback) : Feedback :=
  mkFeedback
   (f_cid f) (f_type f) (has_mode f) (f_mode f) (option_count f) (options f)
   (acknowledgment_number f) (acknowledgment_bits f) (acknowledgment_valid f)
   (acknowledged_context_revision f) (context_revision_valid f)
   (acknowledged_context_distance f) (context_distance_valid f) (crc_present f) (crc_valid f).

#[export] Instance set_f_cid : Settable Feedback (@f_cid) := ltac:(make_setter eta_feedback f_cid).
#[export] Instance set_f_type : Settable Feedback (@f_type) := ltac:(make_setter eta_feedback f_type).
#[export] Instance set_has_mode : Settable Feedback (@has_mode) := ltac:(make_setter eta_feedback has_mode).
#[export] Instance set_f_mode : Settable Feedback (@f_mode) := ltac:(make_setter eta_feedback f_mode).
#[export] Instance set_option_count : Settable Feedback (@option_count) := ltac:(make_setter eta_feedback option_count).
#[export] Instance set_options : Settable Feedback (@options) := ltac:(make_setter eta_feedback options).
#[export] Instance set_acknowledgment_number : Settable Feedback (@acknowledgment_number) := ltac:(make_setter eta_feedback acknowledgment_number).
#[export] Instance set_acknowledgment_bits : Settable Feedback (@acknowledgment_bits) := ltac:(make_setter eta_feedback acknowledgment_bits).
#[export] Instance set_acknowledgment_valid : Settable Feedback (@acknowledgment_valid) := ltac:(make_setter eta_feedback acknowledgment_valid).
#[export] Instance set_crc_present : Settable Feedback (@crc_present) := ltac:(make_setter eta_feedback crc_present).
#[export] Instance set_crc_valid : Settable Feedback (@crc_valid) := ltac:(make_setter eta_feedback crc_valid).
#[export] Instance set_acknowledged_context_revision : Settable Feedback (@acknowledged_context_revision) := ltac:(make_setter eta_feedback acknowledged_context_revision).
#[export] Instance set_context_revision_valid : Settable Feedback (@context_revision_valid) := ltac:(make_setter eta_feedback context_revision_valid).
#[export] Instance set_acknowledged_context_distance : Settable Feedback (@acknowledged_context_distance) := ltac:(make_setter eta_feedback acknowledged_context_distance).
#[export] Instance set_context_distance_valid : Settable Feedback (@context_distance_valid) := ltac:(make_setter eta_feedback context_distance_valid).

Definition empty_option : FeedbackOption := mkOption 1 0 [0; 0; 0; 0].
Definition empty_feedback : Feedback :=
  mkFeedback 0 NACK false Optimistic 0 (repeat empty_option 4) 0 0 false 0 false 0 false
    false false.

(** ** The history of transmitted sequence numbers *)

(** [array[i]] for a fixed array of integers; undefined outside it. *)
Definition arr_get (l : list Z) (i : Z) : outcome Z := rd l i.
Definition arr_set (l : list Z) (i v : Z) : outcome (list Z) :=
  if (i <? 0) || (blen l <=? i) then Ub else Ok (<[Z.to_nat i := v]> l).

Definition record_transmitted_msn (ctx : Context) (msn : Z) : outcome Context :=
  let! msns := arr_set (transmitted_msn_history ctx) (transmitted_msn_head ctx) msn in
  let! revs := arr_set (transmitted_context_revision_history ctx) (transmitted_msn_head ctx)
                 (context_revision ctx) in
  let ctx := ctx <| transmitted_msn_history := msns |>
                 <| transmitted_context_revision_history := revs |> in
  let ctx := ctx <| transmitted_msn_head :=
    u8 ((transmitted_msn_head ctx + 1) mod blen (transmitted_msn_history ctx)) |> in
  Ok (if transmitted_msn_count ctx <? blen (transmitted_msn_history ctx)
      then ctx <| transmitted_msn_count := u8 (transmitted_msn_count ctx + 1) |> else ctx).

Definition ack_mask (bits : Z) : Z :=
  if bits =? 16 then 0xffff else u16 (Z.shiftl 1 bits - 1).

(** The loop over [offset], from the latest entry back; [n] entries are left. *)
Fixpoint msn_search (ctx : Context) (mask acknowledgment : Z) (offset : Z) (n : nat)
    : outcome (Z * Z) :=
  match n with
  | O => Rej
  | S n =>
      let index := u8 ((transmitted_msn_head ctx + blen (transmitted_msn_history ctx) - 1
                        - offset) mod blen (transmitted_msn_history ctx)) in
      let! m := arr_get (transmitted_msn_history ctx) index in
      if Z.land m mask =? Z.land acknowledgment mask then
        let! r := arr_get (transmitted_context_revision_history ctx) index in
        Ok (r, m)
      else msn_search ctx mask acknowledgment (offset + 1) n
  end.

(** The revision the packet was sent under, and its sequence number. *)
Definition transmitted_msn_revision (ctx : Context) (acknowledgment bits : Z)
    : outcome (Z * Z) :=
  check negb ((bits =? 0) || (16 <? bits) || (transmitted_msn_count ctx =? 0)) in
  msn_search ctx (ack_mask bits) acknowledgment 0 (Z.to_nat (transmitted_msn_count ctx)).

Definition transmitted_msn_matches (ctx : Context) (acknowledgment bits : Z) : outcome bool :=
  match transmitted_msn_revision ctx acknowledgment bits with
  | Ok _ => Ok true | Rej => Ok false | Ub => Ub
  end.

(** ** Octets *)

Definition is_known_feedback_type (value : Z) : bool := value <=? 2.
Definition is_known_mode (value : Z) : bool := value <=? mode_val Reliable.
Definition feedback_has_options (flags : Z) : bool := negb (Z.land flags 0x10 =? 0).
Definition feedback_has_mode (flags : Z) : bool := negb (Z.land flags 0x20 =? 0).
Definition is_feedback_packet_start (value : Z) : bool := Z.land value 0xF8 =? 0xF0.

Definition feedback_ack_type (type : FeedbackType) : Z :=
  match type with ACK => 0 | NACK => 1 | STATIC_NACK => 2 end.

Definition feedback_type_from_ack_type (ack_type : Z) : option FeedbackType :=
  if ack_type =? 0 then Some ACK
  else if ack_type =? 1 then Some NACK
  else if ack_type =? 2 then Some STATIC_NACK
  else None.

(** [static_cast<Mode>(mode)] of a known mode. *)
Definition mode_of (value : Z) : Mode :=
  if value =? 0 then ModeUncompressed else if value =? 1 then Optimistic else Reliable.

(** ** FEEDBACK-2 with a CRC *)

Definition write_feedback2_v1 (f : Feedback) : M wst unit :=
  guard (negb ((0x0f <? f_cid f) ||
               (acknowledgment_valid f && negb (acknowledgment_bits f =? 14)))) ;;;
  let add_cid := negb (f_cid f =? 0) in
  let not_valid := negb (acknowledgment_valid f) in
  let body_len := (if add_cid then 1 else 0) + 3 + (if not_valid then 1 else 0) in
  let required := 1 + body_len in
  r <- gets room ;;
  guard (negb ((7 <? body_len) || (r <? required))) ;;;
  put (u8 (Z.lor 0xf0 body_len)) ;;;
  (if add_cid then put (u8 (Z.lor 0xe0 (f_cid f))) else ret tt) ;;;
  let ack := if acknowledgment_valid f then acknowledgment_number f else 0 in
  put (u8 (Z.lor (Z.shiftl (feedback_ack_type (f_type f)) 6) (Z.land (Z.shiftr ack 8) 0x3f))) ;;;
  put (Z.land ack 0xff) ;;;
  crc_pos <- gets (fun s => blen (w_out s)) ;;
  put 0 ;;;
  (if not_valid then put 0x30 else ret tt) ;;;
  data <- gets (fun s => drop 1 (w_out s)) ;;
  patch crc_pos (crc8 data).

(** The options after the CRC, up to [end_]: a status when the reader gives up,
    else whether ACKNUMBER-NOT-VALID was there.  Each round takes an octet. *)
Fixpoint read_v1_options (fuel : nat) (inp : bytes) (pos end_ : Z) (not_valid : bool)
    : outcome (FeedbackStatus + bool) :=
  if pos <? end_ then
    match fuel with
    | O => Ub
    | S fuel =>
        let! option := rd inp pos in
        let pos := pos + 1 in
        let type := Z.shiftr option 4 in
        let option_len := Z.land option 0x0f in
        if usub end_ pos <? option_len then Ok (inl Malformed)
        else if type =? 3 then
          if negb (option_len =? 0) then Ok (inl Malformed)
          else read_v1_options fuel inp (pos + option_len) end_ true
        else Ok (inl Unsupported)
    end
  else Ok (inr not_valid).

(** [feedback.x = ...]. *)
Definition fupd (g : Feedback -> Feedback) : M Feedback unit := modify g.

(** From the acknowledgment octets on; what is stored to [*consumed], if
    anything, follows the status. *)
Definition read_v1_body (inp : bytes) (consumed : bool) (pos end_ : Z)
    : M Feedback (FeedbackStatus * option Z) :=
  if usub end_ pos <? 3 then ret (Malformed, None) else
  o0 <- lift (rd inp pos) ;;
  match feedback_type_from_ack_type (Z.shiftr o0 6) with
  | None => ret (Unsupported, None)
  | Some type =>
      fupd (fun f => f <| f_type := type |>) ;;;
      o1 <- lift (rd inp (pos + 1)) ;;
      fupd (fun f => f <| acknowledgment_number := Z.lor (Z.shiftl (Z.land o0 0x3f) 8) o1 |>
                       <| acknowledgment_bits := 14 |>) ;;;
      let crc_pos := pos + 2 in
      received_crc <- lift (rd inp crc_pos) ;;
      if 260 <? end_ - 1 then ret (Malformed, None) else
      data <- lift (slice inp 1 (end_ - 1)) ;;
      copy <- lift (arr_set data (crc_pos - 1) 0) ;;
      fupd (fun f => f <| crc_present := true |> <| crc_valid := crc8 copy =? received_crc |>) ;;;
      st <- lift (read_v1_options (Z.to_nat end_) inp (pos + 3) end_ false) ;;
      match st with
      | inl status => ret (status, None)
      | inr not_valid =>
          fupd (fun f => f <| acknowledgment_valid := negb not_valid |>) ;;;
          if negb consumed && negb (end_ =? blen inp) then ret (Malformed, None) else
          valid <- gets crc_valid ;;
          ret (if valid then Accepted else Malformed, if consumed then Some end_ else None)
      end
  end.

Definition read_feedback2_v1 (inp : bytes) (consumed : bool)
    : M Feedback (FeedbackStatus * option Z) :=
  fupd (fun _ => empty_feedback) ;;;
  if blen inp <? 4 then ret (Malformed, None) else
  i0 <- lift (rd inp 0) ;;
  if negb (is_feedback_packet_start i0) then ret (Malformed, None) else
  let body_len := Z.land i0 0x07 in
  if (body_len =? 0) || (blen inp <? 1 + body_len) then ret (Malformed, None) else
  let end_ := 1 + body_len in
  i1 <- lift (rd inp 1) ;;
  if Z.land i1 0xf0 =? 0xe0 then
    fupd (fun f => f <| f_cid := Z.land i1 0x0f |>) ;;;
    if Z.land i1 0x0f =? 0 then ret (Malformed, None)
    else read_v1_body inp consumed 2 end_
  else read_v1_body inp consumed 1 end_.

(** ** Feedback with options *)

Definition add_feedback_option (f : Feedback) (type : Z) (value : bytes) (len : Z)
    : outcome Feedback :=
  check negb ((4 <=? option_count f) || (4 <? len)) in
  let! v := slice value 0 len in
  let! v := overwrite [0; 0; 0; 0] v in
  Ok (f <| option_count := option_count f + 1 |>
        <| options := <[Z.to_nat (option_count f) := mkOption type len v]> (options f) |>).

(** [feedback.options[i]]. *)
Definition option_at (f : Feedback) (i : nat) : outcome FeedbackOption :=
  match options f !! i with Some o => Ok o | None => Ub end.

Fixpoint options_len_loop (f : Feedback) (i : nat) (n : nat) (len : Z) : outcome Z :=
  match n with
  | O => Ok len
  | S n => let! o := option_at f i in options_len_loop f (S i) n (len + (2 + o_len o))
  end.

Definition feedback_options_wire_len (f : Feedback) : outcome Z :=
  options_len_loop f 0 (Z.to_nat (option_count f)) 0.

Fixpoint write_options (f : Feedback) (i : nat) (n : nat) : M wst unit :=
  match n with
  | O => ret tt
  | S n =>
      o <- lift (option_at f i) ;;
      put (o_type o) ;;;
      put (o_len o) ;;;
      v <- lift (slice (o_value o) 0 (o_len o)) ;;
      puts v ;;;
      write_options f (S i) n
  end.

Definition feedback_code (f : Feedback) (has_options : bool) : Z :=
  u8 (Z.lor (Z.lor (Z.lor (Z.shiftl (Z.land (feedback_ack_type (f_type f)) 0x03) 6)
                          (if has_mode f then 0x20 else 0))
                   (if has_options then 0x10 else 0))
            (if has_mode f then Z.land (mode_val (f_mode f)) 0x03 else 0)).

Definition write_feedback_packet (f : Feedback) : M wst unit :=
  guard (negb (0x0F <? f_cid f)) ;;;
  options_len <- lift (feedback_options_wire_len f) ;;
  let has_options := 0 <? options_len in
  let has_add_cid := 0 <? f_cid f in
  let feedback_data_len := 2 + (if has_options then 1 + options_len else 0) in
  let body_len := (if has_add_cid then 1 else 0) + feedback_data_len in
  let extended_size := 7 <? body_len in
  let required_len := 1 + (if extended_size then 1 else 0) + body_len in
  r <- gets room ;;
  guard (negb ((0xFF <? options_len) || (0xFF <? body_len) || (r <? required_len))) ;;;
  put (u8 (Z.lor 0xF0 (if extended_size then 0 else body_len))) ;;;
  (if extended_size then put (u8 body_len) else ret tt) ;;;
  (if has_add_cid then put (u8 (Z.lor 0xE0 (Z.land (f_cid f) 0x0F))) else ret tt) ;;;
  put (feedback_code f has_options) ;;;
  put 0 ;;;
  if has_options then
    put (u8 options_len) ;;;
    write_options f 0 (Z.to_nat (option_count f))
  else ret tt.

(** The loop over the options; it ends at [body_end].  Each round takes two
    octets at least. *)
Fixpoint read_options (fuel : nat) (inp : bytes) (pos body_end : Z) : M Feedback Z :=
  if pos <? body_end then
    match fuel with
    | O => lift Ub
    | S fuel =>
        count <- gets option_count ;;
        guard (negb ((usub body_end pos <? 2) || (4 <=? count))) ;;;
        type <- lift (rd inp pos) ;;
        option_len <- lift (rd inp (pos + 1)) ;;
        let pos := pos + 2 in
        guard (negb ((4 <? option_len) || (usub body_end pos <? option_len))) ;;;
        value <- lift (tail_from inp pos) ;;
        f <- gets (fun f => f) ;;
        f' <- lift (add_feedback_option f type value option_len) ;;
        fupd (fun _ => f') ;;;
        read_options fuel inp (pos + option_len) body_end
    end
  else ret pos.

(** From the size octets on, a packet whose body is [pos, pos + body_len). *)
Definition read_feedback_data (inp : bytes) (pos body_end : Z) : M Feedback Z :=
  guard (negb (usub body_end pos <? 2)) ;;;
  code <- lift (rd inp pos) ;;
  let pos := pos + 2 in
  match feedback_type_from_ack_type (Z.land (Z.shiftr code 6) 0x03) with
  | None => lift Rej
  | Some type =>
      fupd (fun f => f <| f_type := type |>) ;;;
      let has_options := negb (Z.land code 0x10 =? 0) in
      (if negb (Z.land code 0x20 =? 0) then
         let mode := Z.land code 0x03 in
         guard (is_known_mode mode) ;;;
         fupd (fun f => f <| has_mode := true |> <| f_mode := mode_of mode |>)
       else ret tt) ;;;
      if has_options then
        guard (negb (body_end <=? pos)) ;;;
        options_len <- lift (rd inp pos) ;;
        let pos := pos + 1 in
        guard (usub body_end pos =? options_len) ;;;
        read_options (Z.to_nat body_end) inp pos body_end
      else
        guard (pos =? body_end) ;;;
        ret pos
  end.

(** The position after the packet, which is what [*consumed] receives. *)
Definition read_feedback_packet (inp : bytes) (consumed : bool) : M Feedback Z :=
  fupd (fun _ => empty_feedback) ;;;
  guard (negb (blen inp <? 2)) ;;;
  i0 <- lift (rd inp 0) ;;
  guard (is_feedback_packet_start i0) ;;;
  let code := Z.land i0 0x07 in
  size <- (if code =? 0 then
             guard (negb (blen inp <=? 1)) ;;;
             i1 <- lift (rd inp 1) ;;
             ret (2, i1)
           else ret (1, code)) ;;
  let pos := fst size in
  let body_len := snd size in
  guard (negb ((body_len =? 0) || (usub (blen inp) pos <? body_len))) ;;;
  let body_end := pos + body_len in
  b <- (if pos <? body_end then lift (rd inp pos) else ret 0) ;;
  pos <- (if Z.land b 0xF0 =? 0xE0 then
            fupd (fun f => f <| f_cid := Z.land b 0x0F |>) ;;;
            guard (negb (Z.land b 0x0F =? 0)) ;;;
            ret (pos + 1)
          else ret pos) ;;
  pos <- read_feedback_data inp pos body_end ;;
  guard (consumed || (pos =? blen inp)) ;;;
  ret pos.

Definition write_piggybacked_feedback (f : Feedback) (packet : bytes) : M wst unit :=
  cap <- gets w_cap ;;
  write_feedback_packet f ;;;
  feedback_len <- gets (fun s => blen (w_out s)) ;;
  guard (negb (cap <? feedback_len + blen packet)) ;;;
  puts packet.

Definition read_feedback_prefix (inp : bytes) : M Feedback Z := read_feedback_packet inp true.

(** ** What feedback does to the compressor's context *)

Definition apply_feedback_to_context (ctx : Context) (f : Feedback) : Context :=
  let ctx := if has_mode f then ctx <| mode := f_mode f |> else ctx in
  match f_type f with
  | ACK =>
      let ctx := ctx <| nack_count := 0 |> in
      let current_revision_ack :=
        acknowledgment_valid f && context_revision_valid f &&
        (acknowledged_context_revision f =? context_revision ctx) in
      let ctx :=
        if current_revision_ack then
          ctx <| profile_replacement_pending := false |>
              <| formal_pt0_since_confirmation :=
                   if context_distance_valid f then u8 (acknowledged_context_distance f) else 0 |>
        else ctx in
      let may_ack_current_state :=
        negb (profile_replacement_pending ctx) || current_revision_ack in
      let ctx :=
        if may_ack_current_state && (state_eqb (rohc_state ctx) StaticEstablished ||
                                     state_eqb (rohc_state ctx) DynamicEstablished)
        then ctx <| static_acked := true |> else ctx in
      if may_ack_current_state && state_eqb (rohc_state ctx) DynamicEstablished
      then ctx <| dynamic_acked := true |> else ctx
  | STATIC_NACK =>
      ctx <| nack_count := 0 |> <| static_acked := false |> <| dynamic_acked := false |>
          <| rohc_state := NoContext |> <| tx_count := 0 |>
  | NACK =>
      let ctx := ctx <| nack_count := u8 (nack_count ctx + 1) |> <| dynamic_acked := false |> in
      if 1 <? nack_count ctx then
        ctx <| static_acked := false |> <| rohc_state := NoContext |> <| tx_count := 0 |>
      else ctx <| rohc_state := StaticEstablished |> <| tx_count := 1 |>
  end.

(** ** Shared facts *)

Lemma lead_octet n : 0 <= n < 8 ->
  is_feedback_packet_start (u8 (Z.lor 0xf0 n)) = true /\ Z.land (u8 (Z.lor 0xf0 n)) 0x07 = n.
Proof.
  intros Hn. pose proof (byte_forall (fun n => negb (n <? 8) ||
    (is_feedback_packet_start (u8 (Z.lor 0xf0 n)) && (Z.land (u8 (Z.lor 0xf0 n)) 0x07 =? n)))
    ltac:(vm_compute; reflexivity) n ltac:(unfold byte_ok; lia)) as D. cbv beta in D.
  rewrite (proj2 (Z.ltb_lt n 8)) in D by lia. cbn [negb orb] in D. bool_prop. done.
Qed.

Lemma add_cid_octet c : 0 <= c <= 0x0f ->
  Z.land (u8 (Z.lor 0xe0 c)) 0xf0 = 0xe0 /\ Z.land (u8 (Z.lor 0xe0 c)) 0x0f = c /\
  u8 (Z.lor 0xe0 (Z.land c 0x0f)) = u8 (Z.lor 0xe0 c).
Proof.
  intros Hn. pose proof (byte_forall (fun c => negb (c <=? 0x0f) ||
    ((Z.land (u8 (Z.lor 0xe0 c)) 0xf0 =? 0xe0) && (Z.land (u8 (Z.lor 0xe0 c)) 0x0f =? c) &&
     (u8 (Z.lor 0xe0 (Z.land c 0x0f)) =? u8 (Z.lor 0xe0 c))))
    ltac:(vm_compute; reflexivity) c ltac:(unfold byte_ok; lia)) as D. cbv beta in D.
  rewrite (proj2 (Z.leb_le c 0x0f)) in D by lia. cbn [negb orb] in D. bool_prop. done.
Qed.
