(* ===== verification/FeedbackV1.v ===== *)
(** * Acknowledgments: FEEDBACK-2 packets and the history they refer to

    The ring of transmitted sequence numbers is the log of the last 64 packets;
    a FEEDBACK-2 packet round-trips, is found in that log, and is protected by
    its CRC. *)

From S2P Require Import Prelude Crc Context Cursor Feedback.

(** * The history is the last 64 packets sent *)

Definition history_size : Z := 64.

Definition history_ok (c : Context) : Prop :=
  length (transmitted_msn_history c) = 64%nat /\
  length (transmitted_context_revision_history c) = 64%nat /\
  0 <= transmitted_msn_head c < 64 /\ 0 <= transmitted_msn_count c <= 64.

(** The cell of the [k]-th latest packet, and the packets, latest first. *)
Definition cell (head : Z) (k : nat) : nat := Z.to_nat ((head + 63 - Z.of_nat k) mod 64).
Definition entry (c : Context) (k : nat) : Z * Z :=
  (nth (cell (transmitted_msn_head c) k) (transmitted_msn_history c) 0,
   nth (cell (transmitted_msn_head c) k) (transmitted_context_revision_history c) 0).
Definition history (c : Context) : list (Z * Z) :=
  map (entry c) (seq 0 (Z.to_nat (transmitted_msn_count c))).

Lemma cell_bound head k : (cell head k < 64)%nat.
Proof. unfold cell. pose proof (Z.mod_pos_bound (head + 63 - Z.of_nat k) 64). lia. Qed.

(** A packet acknowledged by [ack] under [mask]. *)
Definition acked_by (mask ack : Z) (e : Z * Z) : bool := Z.land (fst e) mask =? Z.land ack mask.

Definition swap_entry (e : Z * Z) : Z * Z := (snd e, fst e).

Definition found (o : option (Z * Z)) : outcome (Z * Z) :=
  match o with Some e => Ok (swap_entry e) | None => Rej end.

Lemma msn_search_find c mask ack off n :
  history_ok c -> 0 <= off -> off + Z.of_nat n <= 64 ->
  msn_search c mask ack off n =
  found (List.find (acked_by mask ack) (map (entry c) (seq (Z.to_nat off) n))).
Proof.
  intros (Hm & Hr & Hh & Hc). revert off. induction n as [|n IH]; intros off Ho Hn; [done|].
  cbn [msn_search seq map List.find].
  assert (Hb : blen (transmitted_msn_history c) = 64) by (unfold blen; lia).
  assert (Hb' : blen (transmitted_context_revision_history c) = 64) by (unfold blen; lia).
  assert (E : u8 ((transmitted_msn_head c + 64 - 1 - off) mod 64) =
              Z.of_nat (cell (transmitted_msn_head c) (Z.to_nat off))).
  { unfold cell. pose proof (Z.mod_pos_bound (transmitted_msn_head c + 64 - 1 - off) 64).
    rewrite u8_small by (unfold byte_ok; lia).
    replace (transmitted_msn_head c + 63 - Z.of_nat (Z.to_nat off))
      with (transmitted_msn_head c + 64 - 1 - off) by lia. lia. }
  rewrite Hb, E. unfold arr_get.
  pose proof (cell_bound (transmitted_msn_head c) (Z.to_nat off)) as Hcell.
  rewrite !rd_nth, Nat2Z.id by lia. cbn [obind].
  unfold acked_by at 1, entry at 1. cbn [fst].
  destruct (_ =? _) eqn:Em; [done|].
  rewrite IH by lia. replace (Z.to_nat (off + 1)) with (S (Z.to_nat off)) by lia. done.
Qed.

Lemma transmitted_msn_revision_find c ack bits :
  history_ok c -> 1 <= bits <= 16 ->
  transmitted_msn_revision c ack bits =
  found (List.find (acked_by (ack_mask bits) ack) (history c)).
Proof.
  intros H Hb. unfold transmitted_msn_revision. pose proof H as (_ & _ & _ & Hc).
  rewrite msn_search_find by (done || lia). fold (history c).
  rewrite (proj2 (Z.eqb_neq bits 0)), (proj2 (Z.ltb_ge 16 bits)) by lia.
  destruct (Z.eqb_spec (transmitted_msn_count c) 0) as [Hz|]; [|done].
  unfold history. by rewrite Hz.
Qed.

Lemma arr_set_ok l i v : 0 <= i < blen l -> arr_set l i v = Ok (<[Z.to_nat i := v]> l).
Proof.
  intros H. unfold arr_set. by rewrite (proj2 (Z.ltb_ge i 0)), (proj2 (Z.leb_gt _ i)) by lia.
Qed.

(** The context after [record_transmitted_msn]. *)
Definition recorded (c : Context) (m : Z) : Context :=
  c <| transmitted_msn_history :=
         <[Z.to_nat (transmitted_msn_head c) := m]> (transmitted_msn_history c) |>
    <| transmitted_context_revision_history :=
         <[Z.to_nat (transmitted_msn_head c) := context_revision c]>
           (transmitted_context_revision_history c) |>
    <| transmitted_msn_head := (transmitted_msn_head c + 1) mod 64 |>
    <| transmitted_msn_count := Z.min 64 (transmitted_msn_count c + 1) |>.

Lemma record_ok c m : history_ok c -> record_transmitted_msn c m = Ok (recorded c m).
Proof.
  intros (Hm & Hr & Hh & Hc). unfold record_transmitted_msn.
  rewrite !arr_set_ok by (unfold blen; lia). cbn [obind]. f_equal.
  unfold recorded. cbn.
  unfold blen. rewrite length_insert, Hm. change (Z.of_nat 64) with 64.
  pose proof (Z.mod_pos_bound (transmitted_msn_head c + 1) 64).
  rewrite (u8_small ((_ + 1) mod 64)) by (unfold byte_ok; lia).
  destruct (Z.ltb_spec (transmitted_msn_count c) 64).
  - rewrite u8_small by (unfold byte_ok; lia).
    by replace (Z.min 64 (transmitted_msn_count c + 1)) with (transmitted_msn_count c + 1) by lia.
  - replace (Z.min 64 (transmitted_msn_count c + 1)) with (transmitted_msn_count c) by lia.
    by destruct c.
Qed.

Lemma recorded_ok c m : history_ok c -> history_ok (recorded c m).
Proof.
  intros (Hm & Hr & Hh & Hc). unfold history_ok, recorded. cbn.
  rewrite !length_insert. pose proof (Z.mod_pos_bound (transmitted_msn_head c + 1) 64). lia.
Qed.

Lemma nth_insert_eq (l : list Z) i v : (i < length l)%nat -> nth i (<[i:=v]> l) 0 = v.
Proof. intros. apply nth_lookup_Some with (d := 0). by rewrite list_lookup_insert_eq. Qed.

Lemma nth_insert_ne (l : list Z) i j v : i <> j -> nth j (<[i:=v]> l) 0 = nth j l 0.
Proof. intros. by rewrite !nth_lookup, list_lookup_insert_ne. Qed.

Lemma entry_recorded_0 c m :
  history_ok c -> entry (recorded c m) 0 = (m, context_revision c).
Proof.
  intros (Hm & Hr & Hh & Hc). unfold entry, recorded. cbn.
  assert (E : cell ((transmitted_msn_head c + 1) mod 64) 0 = Z.to_nat (transmitted_msn_head c)).
  { unfold cell. f_equal. rewrite <- (Z.mod_small (transmitted_msn_head c) 64) at 2 by lia.
    rewrite Z.sub_0_r, Z.add_mod_idemp_l by lia.
    replace (transmitted_msn_head c + 1 + 63) with (transmitted_msn_head c + 1 * 64) by lia.
    by rewrite Z.mod_add by lia. }
  rewrite E, !nth_insert_eq by lia. done.
Qed.

Lemma entry_recorded_S c m k :
  history_ok c -> (k < 63)%nat -> entry (recorded c m) (S k) = entry c k.
Proof.
  intros (Hm & Hr & Hh & Hc) Hk. unfold entry, recorded. cbn.
  assert (E : cell ((transmitted_msn_head c + 1) mod 64) (S k) = cell (transmitted_msn_head c) k).
  { unfold cell. f_equal.
    replace ((transmitted_msn_head c + 1) mod 64 + 63 - Z.of_nat (S k))
      with ((transmitted_msn_head c + 1) mod 64 + (62 - Z.of_nat k)) by lia.
    rewrite Z.add_mod_idemp_l by lia. f_equal. lia. }
  rewrite E. assert (Hne : Z.to_nat (transmitted_msn_head c) <> cell (transmitted_msn_head c) k).
  { unfold cell. pose proof (Z.mod_pos_bound (transmitted_msn_head c + 63 - Z.of_nat k) 64).
    intros Heq%Z2Nat.inj; [|lia..]. Z.div_mod_to_equations. lia. }
  by rewrite !nth_insert_ne.
Qed.

(** Recording a packet puts it in front and forgets the 65th. *)
Lemma history_recorded c m :
  history_ok c -> history (recorded c m) = take 64 ((m, context_revision c) :: history c).
Proof.
  intros H. pose proof H as (_ & _ & _ & Hc). unfold history at 1.
  assert (Hn : exists n, Z.to_nat (transmitted_msn_count (recorded c m)) = S n /\
                         (n <= 63)%nat /\ n = Nat.min 63 (Z.to_nat (transmitted_msn_count c))).
  { exists (Nat.min 63 (Z.to_nat (transmitted_msn_count c))).
    change (transmitted_msn_count (recorded c m)) with (Z.min 64 (transmitted_msn_count c + 1)).
    lia. }
  destruct Hn as (n & -> & Hn & En). cbn [seq map]. rewrite entry_recorded_0 by done.
  change (take 64 (?x :: ?l)) with (x :: take 63 l). f_equal.
  unfold history. rewrite <- seq_shift, map_map.
  replace (take 63 (map (entry c) (seq 0 (Z.to_nat (transmitted_msn_count c)))))
    with (map (entry c) (take 63 (seq 0 (Z.to_nat (transmitted_msn_count c))))).
  2: { generalize (seq 0 (Z.to_nat (transmitted_msn_count c))). intros l. generalize 63%nat.
       induction l as [|x l IH]; intros [|k]; cbn; congruence. }
  rewrite take_seq, <- En. apply map_ext_in. intros k Hk%in_seq.
  apply entry_recorded_S; [done|lia].
Qed.

(** ** The log of what was sent, as the specification keeps it *)

(** A packet is sent with sequence number [fst e] while the context is at
    revision [snd e]. *)
Definition send (c : Context) (e : Z * Z) : outcome Context :=
  record_transmitted_msn (c <| context_revision := snd e |>) (fst e).

Fixpoint send_all (c : Context) (l : list (Z * Z)) : outcome Context :=
  match l with [] => Ok c | e :: l => let! c := send c e in send_all c l end.

Lemma take_app_take {A} n (l k : list A) : take n (l ++ take n k) = take n (l ++ k).
Proof.
  rewrite !take_app, take_take. f_equal. f_equal. lia.
Qed.

Lemma send_all_history c l :
  history_ok c -> exists c', send_all c l = Ok c' /\ history_ok c' /\
    history c' = take 64 (rev l ++ history c).
Proof.
  revert c. induction l as [|e l IH]; intros c H; cbn [send_all rev].
  - exists c. split_and!; [done..|]. cbn. symmetry. apply take_ge.
    unfold history. rewrite length_map, length_seq. destruct H as (_ & _ & _ & ?). lia.
  - assert (H' : history_ok (c <| context_revision := snd e |>)) by exact H.
    unfold send. rewrite record_ok by done. cbn [obind].
    destruct (IH (recorded (c <| context_revision := snd e |>) (fst e))) as (c' & E & Hok & Hh);
      [by apply recorded_ok|].
    exists c'. split_and!; [done..|]. rewrite Hh, history_recorded by done.
    rewrite take_app_take, <- app_assoc. cbn [app].
    change (history (c <| context_revision := snd e |>)) with (history c).
    change (context_revision (c <| context_revision := snd e |>)) with (snd e).
    by destruct e.
Qed.

Lemma initial_history : history_ok initial_context /\ history initial_context = [].
Proof. split; [|done]. by vm_compute. Qed.

(** * FEEDBACK-2 on the wire *)

Definition v1_front (f : Feedback) : bytes :=
  let ack := if acknowledgment_valid f then acknowledgment_number f else 0 in
  (if f_cid f =? 0 then [] else [u8 (Z.lor 0xe0 (f_cid f))]) ++
  [u8 (Z.lor (Z.shiftl (feedback_ack_type (f_type f)) 6) (Z.land (Z.shiftr ack 8) 0x3f));
   Z.land ack 0xff].
Definition v1_back (f : Feedback) : bytes := if acknowledgment_valid f then [] else [0x30].

(** The octets under the CRC, with [k] in its place, and the packet. *)
Definition v1_data (f : Feedback) (k : Z) : bytes := v1_front f ++ k :: v1_back f.
Definition v1_octets (f : Feedback) : bytes :=
  u8 (Z.lor 0xf0 (blen (v1_data f 0))) :: v1_data f (crc8 (v1_data f 0)).

Definition v1_expressible (f : Feedback) : bool :=
  (f_cid f <=? 0x0f) && (negb (acknowledgment_valid f) || (acknowledgment_bits f =? 14)).

(** The packet is exactly this when it fits, else nothing is written. *)
Lemma write_v1_exact f cap :
  write_feedback2_v1 f {| w_out := []; w_cap := cap |} =
  if v1_expressible f && (blen (v1_octets f) <=? cap)
  then (Ok tt, {| w_out := v1_octets f; w_cap := cap |})
  else (Rej, {| w_out := []; w_cap := cap |}).
Proof.
  assert (E : negb ((0x0f <? f_cid f) ||
               (acknowledgment_valid f && negb (acknowledgment_bits f =? 14))) = v1_expressible f).
  { unfold v1_expressible. rewrite negb_orb, negb_andb, negb_involutive, <- Z.leb_antisym. done. }
  unfold write_feedback2_v1. rewrite E. destruct (v1_expressible f); [|done].
  erewrite bind_ok by done. erewrite bind_ok by done. clear E. unfold room. cbn [w_out w_cap].
  rewrite blen_nil, Z.sub_0_r. unfold v1_octets, v1_data, v1_front, v1_back.
  set (y := Z.land _ 0xff). set (x := u8 (Z.lor (Z.shiftl _ 6) _)).
  destruct (f_cid f =? 0), (acknowledgment_valid f); cbn [negb app andb];
    match goal with |- context [cap <? ?n] =>
      match goal with |- context [if blen ?l <=? cap then _ else _] =>
        let h := fresh in
        assert (h : (blen l <=? cap) = negb (cap <? n)) by (rewrite <- Z.leb_antisym; reflexivity);
        rewrite h; clear h; destruct (Z.ltb_spec cap n); [by rewrite orb_true_r|] end end;
    erewrite bind_ok by done;
    unfold put;
    repeat (first [ erewrite bind_ok by (apply puts_ok; blen_lia) | erewrite bind_ok by reflexivity ];
            cbn [w_out w_cap app drop]);
    reflexivity.
Qed.

(** ** The octets of a header, bit by bit *)

Lemma ack_octet t h : 0 <= h < 64 ->
  let x := u8 (Z.lor (Z.shiftl (feedback_ack_type t) 6) h) in
  (Z.land x 0xf0 =? 0xe0) = false /\
  feedback_type_from_ack_type (Z.shiftr x 6) = Some t /\ Z.land x 0x3f = h.
Proof.
  intros Hh x. subst x. pose proof (byte_forall (fun h => negb (h <? 64) ||
    (forallb (fun t => let x := u8 (Z.lor (Z.shiftl (feedback_ack_type t) 6) h) in
       negb (Z.land x 0xf0 =? 0xe0) && (Z.land x 0x3f =? h) &&
       (Z.shiftr x 6 =? feedback_ack_type t))
     [ACK; NACK; STATIC_NACK])) ltac:(vm_compute; reflexivity) h ltac:(unfold byte_ok; lia)) as D.
  cbv beta in D. rewrite (proj2 (Z.ltb_lt h 64)) in D by lia. cbn [negb orb] in D.
  rewrite forallb_forall in D. specialize (D t ltac:(destruct t; cbn; auto)). cbv zeta in D.
  bool_prop. split_and!; [by apply Z.eqb_neq| |done].
  replace (Z.shiftr _ 6) with (feedback_ack_type t) by done. by destruct t.
Qed.

Lemma ack14 v : 0 <= v ->
  Z.lor (Z.shiftl (Z.land (Z.shiftr v 8) 0x3f) 8) (Z.land v 0xff) = v mod 2 ^ 14.
Proof.
  intros Hv. change 0x3f with (Z.ones 6). rewrite Z.land_ones, land_255 by lia.
  rewrite combine16 by (apply Z.mod_pos_bound; lia). rewrite Z.shiftr_div_pow2 by lia.
  change (2 ^ 8) with 256. change (2 ^ 6) with 64. change (2 ^ 14) with 16384.
  Z.div_mod_to_equations. lia.
Qed.

(** What the reader makes of a packet of the writer. *)
Definition v1_received (f : Feedback) : Feedback :=
  empty_feedback
    <| f_cid := f_cid f |> <| f_type := f_type f |>
    <| acknowledgment_number :=
         if acknowledgment_valid f then acknowledgment_number f mod 2 ^ 14 else 0 |>
    <| acknowledgment_bits := 14 |> <| acknowledgment_valid := acknowledgment_valid f |>
    <| crc_present := true |> <| crc_valid := true |>.

(** The reader on acknowledgment, CRC and options that lie in the input. *)
Lemma read_v1_body_at b0 pre x y k ops rest t nv consumed s :
  let inp := (b0 :: pre) ++ x :: y :: k :: ops ++ rest in
  let pos := blen (b0 :: pre) in
  let end_ := pos + 3 + blen ops in
  end_ <= 8 ->
  feedback_type_from_ack_type (Z.shiftr x 6) = Some t ->
  read_v1_options (Z.to_nat end_) inp (pos + 3) end_ false = Ok (inr nv) ->
  consumed = true \/ rest = [] ->
  read_v1_body inp consumed pos end_ s =
  (Ok (if crc8 (pre ++ x :: y :: 0 :: ops) =? k then Accepted else Malformed,
       if consumed then Some end_ else None),
   s <| f_type := t |>
     <| acknowledgment_number := Z.lor (Z.shiftl (Z.land x 0x3f) 8) y |>
     <| acknowledgment_bits := 14 |> <| crc_present := true |>
     <| crc_valid := crc8 (pre ++ x :: y :: 0 :: ops) =? k |>
     <| acknowledgment_valid := negb nv |>).
Proof.
  intros inp pos end_ He Ht Ho Hc. pose proof (blen_nonneg pre). pose proof (blen_nonneg ops).
  assert (Hpos : pos = 1 + blen pre) by (unfold pos; apply blen_cons).
  unfold read_v1_body. rewrite usub_small by lia.
  rewrite (proj2 (Z.ltb_ge _ 3)) by lia.
  assert (R : forall j, 0 <= j -> rd inp (pos + j) = rd (x :: y :: k :: ops ++ rest) j)
    by (intros; by apply rd_app).
  pose proof (R 0 ltac:(lia)) as R0. rewrite Z.add_0_r in R0. rewrite R0, !R by lia. clear R R0.
  erewrite bind_ok by reflexivity. rewrite Ht.
  do 4 (erewrite bind_ok by reflexivity). rewrite (proj2 (Z.ltb_ge 260 _)) by lia.
  assert (S : slice inp 1 (end_ - 1) = Ok (pre ++ x :: y :: k :: ops)).
  { unfold inp. replace ((b0 :: pre) ++ x :: y :: k :: ops ++ rest)
      with ([b0] ++ (pre ++ x :: y :: k :: ops) ++ rest) by (cbn; by rewrite <- app_assoc).
    apply (slice_exact [b0]). rewrite blen_app, !blen_cons. lia. }
  rewrite S. erewrite bind_ok by reflexivity.
  assert (A : arr_set (pre ++ x :: y :: k :: ops) (pos + 2 - 1) 0 =
              Ok (pre ++ x :: y :: 0 :: ops)).
  { rewrite arr_set_ok by (rewrite blen_app, !blen_cons; lia). f_equal.
    replace (Z.to_nat (pos + 2 - 1)) with (length pre + 2)%nat by (unfold blen in Hpos; lia).
    by rewrite insert_app_r. }
  rewrite A. do 2 (erewrite bind_ok by reflexivity). rewrite Ho.
  erewrite bind_ok by reflexivity. cbv iota. erewrite bind_ok by reflexivity.
  assert (C : negb consumed && negb (end_ =? blen inp) = false).
  { destruct Hc as [-> | ->]; [done|].
    replace (end_ =? blen inp) with true; [by rewrite andb_false_r|].
    symmetry. apply Z.eqb_eq. unfold inp. rewrite blen_app, !blen_cons, blen_app, blen_nil.
    lia. }
  rewrite C. erewrite bind_ok by reflexivity. reflexivity.
Qed.

Lemma read_v1_octets f rest consumed s :
  v1_expressible f = true -> 0 <= f_cid f -> 0 <= acknowledgment_number f ->
  consumed = true \/ rest = [] ->
  read_feedback2_v1 (v1_octets f ++ rest) consumed s =
  (Ok (Accepted, if consumed then Some (blen (v1_octets f)) else None), v1_received f).
Proof.
  intros Hx Hc Ha Hr. unfold v1_expressible in Hx. bool_prop.
  set (ack := if acknowledgment_valid f then acknowledgment_number f else 0).
  assert (Hack : 0 <= ack) by (unfold ack; destruct (acknowledgment_valid f); lia).
  assert (Hnum : (if acknowledgment_valid f then acknowledgment_number f mod 2 ^ 14 else 0) =
                 ack mod 2 ^ 14) by (unfold ack; by destruct (acknowledgment_valid f)).
  pose proof (land_range (Z.shiftr ack 8) 0x3f ltac:(lia)) as Hh.
  destruct (ack_octet (f_type f) (Z.land (Z.shiftr ack 8) 0x3f) ltac:(lia)) as (X1 & X2 & X3).
  destruct (add_cid_octet (f_cid f) ltac:(lia)) as (C1 & C2 & _).
  assert (Hlen : 0 <= blen (v1_data f 0) < 8).
  { unfold v1_data, v1_front, v1_back.
    destruct (f_cid f =? 0), (acknowledgment_valid f); vm_compute; split; congruence. }
  destruct (lead_octet _ Hlen) as (L1 & L2).
  unfold v1_received. rewrite Hnum, <- ack14 by done.
  unfold v1_octets. revert Hlen L1 L2. generalize (u8 (Z.lor 0xf0 (blen (v1_data f 0)))).
  unfold read_feedback2_v1, v1_data, v1_front. fold ack.
  revert X1 X2 X3 C1 C2.
  generalize (u8 (Z.lor (Z.shiftl (feedback_ack_type (f_type f)) 6) (Z.land (Z.shiftr ack 8) 0x3f))).
  generalize (u8 (Z.lor 0xe0 (f_cid f))). generalize (Z.land ack 0xff).
  intros y cidb x X1 X2 X3 C1 C2 b0 Hlen L1 L2.
  set (cp := if f_cid f =? 0 then [] else [cidb]) in *.
  set (k := crc8 _).
  assert (Hn : blen ((cp ++ [x; y]) ++ 0 :: v1_back f) = blen cp + 3 + blen (v1_back f)) by blen_lia.
  assert (E : (b0 :: (cp ++ [x; y]) ++ k :: v1_back f) ++ rest =
              (b0 :: cp) ++ x :: y :: k :: v1_back f ++ rest)
    by (cbn [app]; by rewrite <- !app_assoc).
  assert (Hl : blen (b0 :: (cp ++ [x; y]) ++ k :: v1_back f) = 1 + blen cp + 3 + blen (v1_back f))
    by blen_lia.
  rewrite E, Hl. rewrite Hn in *. pose proof (blen_nonneg cp). pose proof (blen_nonneg (v1_back f)).
  pose proof (blen_nonneg rest).
  assert (Hi : blen ((b0 :: cp) ++ x :: y :: k :: v1_back f ++ rest) =
               1 + blen cp + 3 + blen (v1_back f) + blen rest) by blen_lia.
  unfold fupd. erewrite bind_ok by reflexivity. rewrite Hi.
  rewrite (proj2 (Z.ltb_ge _ 4)) by lia. erewrite bind_ok by reflexivity. rewrite L1.
  cbn [negb]. cbv zeta. rewrite L2.
  rewrite (proj2 (Z.eqb_neq _ 0)), (proj2 (Z.ltb_ge _ (1 + _))) by lia. cbn [orb].
  assert (B : forall s, 
    read_v1_body ((b0 :: cp) ++ x :: y :: k :: v1_back f ++ rest) consumed (blen (b0 :: cp))
      (blen (b0 :: cp) + 3 + blen (v1_back f)) s =
    (Ok (Accepted, if consumed then Some (blen (b0 :: cp) + 3 + blen (v1_back f)) else None),
     s <| f_type := f_type f |>
       <| acknowledgment_number := Z.lor (Z.shiftl (Z.land (Z.shiftr ack 8) 0x3f) 8) y |>
       <| acknowledgment_bits := 14 |> <| crc_present := true |> <| crc_valid := true |>
       <| acknowledgment_valid := acknowledgment_valid f |>)).
  { intros s'. rewrite <- X3, <- (negb_involutive (acknowledgment_valid f)).
    erewrite read_v1_body_at; [|rewrite blen_cons; lia|exact X2| |exact Hr].
    - replace (cp ++ x :: y :: 0 :: v1_back f) with ((cp ++ [x; y]) ++ 0 :: v1_back f)
        by (by rewrite <- app_assoc). unfold k. rewrite Z.eqb_refl. reflexivity.
    - unfold v1_back, cp. destruct (f_cid f =? 0), (acknowledgment_valid f); reflexivity. }
  revert B. unfold cp. destruct (Z.eqb_spec (f_cid f) 0) as [Hz|Hz]; cbn [app]; intros B.
  - change (blen [b0]) with 1 in B. erewrite bind_ok by reflexivity. rewrite X1, blen_nil.
    replace (1 + (0 + 3 + blen (v1_back f))) with (1 + 3 + blen (v1_back f)) by lia.
    replace (1 + 0 + 3 + blen (v1_back f)) with (1 + 3 + blen (v1_back f)) by lia.
    rewrite B, Hz. reflexivity.
  - change (blen [b0; cidb]) with 2 in B. change (blen [cidb]) with 1.
    erewrite bind_ok by reflexivity. rewrite C1, C2, Z.eqb_refl.
    erewrite bind_ok by reflexivity. rewrite (proj2 (Z.eqb_neq _ 0)) by done.
    replace (1 + (1 + 3 + blen (v1_back f))) with (2 + 3 + blen (v1_back f)) by lia.
    replace (1 + 1 + 3 + blen (v1_back f)) with (2 + 3 + blen (v1_back f)) by lia.
    rewrite B. reflexivity.
Qed.

(** ** Any octets *)

Definition has_add_cid (inp : bytes) : bool := Z.land (nth 1 inp 0) 0xf0 =? 0xe0.

(** The CRC the reader computes is the one it received. *)
Definition v1_crc_matches (inp : bytes) : Prop :=
  let crc_pos := if has_add_cid inp then 4%nat else 3%nat in
  let end_ := 1 + Z.land (nth 0 inp 0) 0x07 in
  Z.of_nat crc_pos < end_ <= blen inp /\
  crc8 (<[(crc_pos - 1)%nat := 0]> (take (Z.to_nat (end_ - 1)) (drop 1 inp))) =
  nth crc_pos inp 0.

Definition v1_answer_ok (inp : bytes) (consumed : bool) (r : FeedbackStatus * option Z)
    (f : Feedback) : Prop :=
  (forall n, snd r = Some n -> n <= blen inp) /\
  0 <= f_cid f <= 0x0f /\ 0 <= acknowledgment_number f < 2 ^ 14 /\
  (fst r = Accepted ->
    v1_crc_matches inp /\ snd r = (if consumed then Some (1 + Z.land (nth 0 inp 0) 0x07) else None) /\
    (consumed = false -> blen inp = 1 + Z.land (nth 0 inp 0) 0x07)).

Lemma read_v1_options_total fuel inp pos end_ nv :
  bytes_ok inp -> 0 <= pos <= end_ -> end_ <= blen inp -> end_ < 2 ^ 64 ->
  end_ - pos <= Z.of_nat fuel ->
  exists st, read_v1_options fuel inp pos end_ nv = Ok st /\ st <> inl Accepted.
Proof.
  intros Hi. revert pos nv. induction fuel as [|fuel IH]; intros pos nv Hp He H64 Hf;
    cbn [read_v1_options]; destruct (Z.ltb_spec pos end_); try lia.
  - by eexists.
  - destruct (rd_in_range inp pos ltac:(lia)) as (b & -> & _). cbn [obind].
    pose proof (land_range b 0x0f ltac:(lia)).
    rewrite usub_small by lia. destruct (Z.ltb_spec (end_ - (pos + 1)) (Z.land b 0x0f)); [by eexists|].
    destruct (Z.shiftr b 4 =? 3); [|by eexists].
    destruct (Z.land b 0x0f =? 0); cbn [negb]; [|by eexists]. apply IH; lia.
  - by eexists.
Qed.

Lemma read_v1_body_answers inp consumed pos end_ s :
  bytes_ok inp -> end_ = 1 + Z.land (nth 0 inp 0) 0x07 -> end_ <= blen inp ->
  pos = (if has_add_cid inp then 2 else 1) -> pos <= end_ ->
  0 <= f_cid s <= 0x0f -> acknowledgment_number s = 0 ->
  wp (read_v1_body inp consumed pos end_) (v1_answer_ok inp consumed) (fun _ => False) s.
Proof.
  intros Hi He Hl Hpos Hpe Hcid Ha.
  pose proof (land_range (nth 0 inp 0) 0x07 ltac:(lia)) as Hr.
  assert (Hp12 : 1 <= pos <= 2) by (rewrite Hpos; destruct (has_add_cid inp); lia).
  assert (Hgive : forall st f, st <> Accepted -> 0 <= f_cid f <= 0x0f ->
    0 <= acknowledgment_number f < 2 ^ 14 -> v1_answer_ok inp consumed (st, None) f).
  { intros st f Hst Hf Hf'. unfold v1_answer_ok. cbn. split_and!; (done || lia). }
  unfold read_v1_body, fupd. rewrite usub_small by lia.
  apply wp_if; intros Hthree; [apply wp_ret, Hgive; [done|lia|rewrite Ha; lia]|]. bool_prop.
  destruct (rd_in_range inp pos ltac:(lia)) as (x & Ex & Bx).
  destruct (rd_in_range inp (pos + 1) ltac:(lia)) as (y & Ey & By).
  specialize (Bx Hi). specialize (By Hi).
  apply wp_bind, wp_lift. rewrite Ex.
  destruct (feedback_type_from_ack_type _) as [t|];
    [|apply wp_ret, Hgive; [done|lia|rewrite Ha; lia]].
  apply wp_bind, wp_modify, wp_bind, wp_lift. rewrite Ey. apply wp_bind, wp_modify.
  apply wp_bind, wp_lift. rewrite (rd_nth inp (pos + 2)) by lia.
  assert (Hnum : 0 <= Z.lor (Z.shiftl (Z.land x 0x3f) 8) y < 2 ^ 14).
  { rewrite combine16 by done. pose proof (land_range x 0x3f ltac:(lia)). unfold byte_ok in By. lia. }
  apply wp_if; intros Hbig; bool_prop; [lia|].
  apply wp_bind, wp_lift. rewrite slice_eq by lia.
  apply wp_bind, wp_lift. rewrite arr_set_ok.
  2: { unfold blen in *. rewrite length_take, length_drop. lia. }
  apply wp_bind, wp_modify.
  destruct (read_v1_options_total (Z.to_nat end_) inp (pos + 3) end_ false) as (st & Est & Hst);
    [done|lia..|]. apply wp_bind, wp_lift. rewrite Est.
  destruct st as [st|nv]; [apply wp_ret, Hgive; [congruence|exact Hcid|exact Hnum]|].
  apply wp_bind, wp_modify. apply wp_if; intros Hc.
  - apply wp_ret, Hgive; [done|exact Hcid|exact Hnum].
  - apply wp_bind, wp_gets, wp_ret. unfold v1_answer_ok. cbn.
    split_and!; [|lia..|].
    + intros n. destruct consumed; [|done]. intros [= <-]. lia.
    + change (Z.to_nat 1) with 1%nat.
      destruct (Z.eqb_spec (crc8 (<[Z.to_nat (pos + 2 - 1):=0]>
        (take (Z.to_nat (end_ - 1)) (drop 1 inp)))) (nth (Z.to_nat (pos + 2)) inp 0))
        as [Ecrc|]; [|done]. intros _. subst end_. split_and!.
      * unfold v1_crc_matches. rewrite Hpos in *.
        destruct (has_add_cid inp); (split; [lia|exact Ecrc]).
      * done.
      * intros ->. cbn in Hc. apply negb_false_iff, Z.eqb_eq in Hc. lia.
Qed.

(** Whatever the octets, the reader stays inside them and gives an answer; what
    it accepts carries a matching CRC. *)
Lemma read_v1_answers inp consumed s :
  bytes_ok inp -> wp (read_feedback2_v1 inp consumed) (v1_answer_ok inp consumed) (fun _ => False) s.
Proof.
  intros Hi. pose proof (land_range (nth 0 inp 0) 0x07 ltac:(lia)) as Hr.
  pose proof (land_range (nth 1 inp 0) 0x0f ltac:(lia)) as Hr1.
  unfold read_feedback2_v1, fupd. apply wp_bind, wp_modify.
  assert (Hmal : forall f, 0 <= f_cid f <= 0x0f -> acknowledgment_number f = 0 ->
    v1_answer_ok inp consumed (Malformed, None) f).
  { intros f Hf Hf'. unfold v1_answer_ok. cbn. rewrite Hf'. split_and!; (done || lia). }
  apply wp_if; intros H4; [by apply wp_ret, Hmal|]. bool_prop.
  apply wp_bind, wp_lift. rewrite rd_nth by lia. change (nth (Z.to_nat 0) inp 0) with (nth 0 inp 0).
  apply wp_if; intros Hs; [by apply wp_ret, Hmal|].
  apply wp_if; intros Hb; [by apply wp_ret, Hmal|]. bool_prop.
  apply wp_bind, wp_lift. rewrite rd_nth by lia. change (nth (Z.to_nat 1) inp 0) with (nth 1 inp 0).
  apply wp_if; intros Hc.
  - apply wp_bind, wp_modify. apply wp_if; intros Hz; [by apply wp_ret, Hmal|].
    apply read_v1_body_answers; try done; [|lia]. unfold has_add_cid. by rewrite Hc.
  - apply read_v1_body_answers; try done; [|lia]. unfold has_add_cid. by rewrite Hc.
Qed.

Lemma split_at_nth (l : bytes) i : (i < length l)%nat ->
  exists a k b, l = a ++ k :: b /\ length a = i /\ nth i l 0 = k /\ <[i := 0]> l = a ++ 0 :: b.
Proof.
  intros H. destruct (nth_split l 0 H) as (a & b & E & Ha). exists a, (nth i l 0), b.
  split_and!; [done..|]. rewrite E at 1. rewrite <- Ha, <- (Nat.add_0_r (length a)).
  by rewrite insert_app_r.
Qed.

(** No two octet strings that differ in one octet both carry their CRC. *)
Lemma crc8_field_unique l l' i :
  bytes_ok l -> bytes_ok l' -> one_octet_apart l l' -> (i < length l)%nat ->
  crc8 (<[i := 0]> l) = nth i l 0 -> crc8 (<[i := 0]> l') = nth i l' 0 -> False.
Proof.
  intros Hl Hl' Ha Hi. pose proof (one_octet_apart_length _ _ Ha) as Hlen.
  destruct (split_at_nth l i Hi) as (a & k & b & -> & La & -> & ->).
  destruct (split_at_nth l' i ltac:(lia)) as (a' & k' & b' & -> & La' & -> & ->).
  apply bytes_ok_app in Hl as [Oa Hl], Hl' as [Oa' Hl'].
  apply bytes_ok_cons in Hl as [_ Ob], Hl' as [_ Ob'].
  assert (O0 : byte_ok 0) by (unfold byte_ok; lia).
  assert (Z1 : bytes_ok (a ++ 0 :: b)) by (apply bytes_ok_app; split; [|apply bytes_ok_cons]; done).
  assert (Z2 : bytes_ok (a' ++ 0 :: b')) by (apply bytes_ok_app; split; [|apply bytes_ok_cons]; done).
  intros E E'.
  apply one_octet_apart_split in Ha as [[Ha Hb]|[-> Hb]]; [| |congruence].
  - injection Hb as -> ->. apply (crc8_apart _ _ Z1 Z2); [by apply one_octet_apart_app_r|congruence].
  - change (k :: b) with ([k] ++ b) in Hb. change (k' :: b') with ([k'] ++ b') in Hb.
    apply one_octet_apart_split in Hb as [[Hk ->]|[[= ->] Hb]]; [| |done].
    + apply one_octet_apart_neq in Hk. congruence.
    + apply (crc8_apart _ _ Z1 Z2); [|congruence].
      apply one_octet_apart_app_l. by apply (one_octet_apart_app_l [0]).
Qed.

(** A FEEDBACK-2 packet that was accepted is no longer accepted when any one
    octet of its feedback data has changed, as long as the change does not turn
    an Add-CID octet into another or another into one (which moves the fields);
    and on any octets at all the reader stays inside its input, reports a
    length within it, and fills in a CID of at most 15 and a 14-bit
    acknowledgment number. *)
Theorem feedback_v1_corruption b0 data data' s s'
  (Hok : bytes_ok (b0 :: data)) (Hok' : bytes_ok (b0 :: data'))
  (Hacc : fst (read_feedback2_v1 (b0 :: data) false s) = Ok (Accepted, None))
  (Hone : one_octet_apart data data')
  (Hcid : has_add_cid (b0 :: data) = has_add_cid (b0 :: data')) :
  (exists r f, read_feedback2_v1 (b0 :: data') false s' = (Ok r, f) /\ fst r <> Accepted) /\
  forall inp consumed s, bytes_ok inp ->
    exists st n f, read_feedback2_v1 inp consumed s = (Ok (st, n), f) /\
      (forall m, n = Some m -> m <= blen inp) /\
      0 <= f_cid f <= 0x0f /\ 0 <= acknowledgment_number f < 2 ^ 14.
Proof.
  split.
  - pose proof (read_v1_answers (b0 :: data) false s Hok) as W.
    pose proof (read_v1_answers (b0 :: data') false s' Hok') as W'. unfold wp in W, W'.
    destruct (read_feedback2_v1 (b0 :: data) false s) as [[r| |] f]; [|done..].
    destruct (read_feedback2_v1 (b0 :: data') false s') as [[r' | |] f']; [|done..].
    exists r', f'. split; [done|]. intros Hr'.
    destruct W as (_ & _ & _ & W); destruct W' as (_ & _ & _ & W').
    injection Hacc as ->. specialize (W eq_refl). specialize (W' Hr').
    destruct W as ([Wn W] & _ & We), W' as ([_ W'] & _ & We').
    specialize (We eq_refl). specialize (We' eq_refl). cbn [nth] in *.
    rewrite <- Hcid in W'. rewrite blen_cons in *. change (drop 1 (b0 :: data)) with data in W.
    change (drop 1 (b0 :: data')) with data' in W'.
    rewrite take_ge in W by (unfold blen in *; lia).
    rewrite take_ge in W' by (unfold blen in *; lia).
    apply bytes_ok_cons in Hok as [_ Hok], Hok' as [_ Hok'].
    revert Wn W W'. destruct (has_add_cid (b0 :: data)); cbn [Nat.sub]; intros Wn W W'.
    + apply (crc8_field_unique data data' 3 Hok Hok' Hone); [unfold blen in *; lia|done..].
    + apply (crc8_field_unique data data' 2 Hok Hok' Hone); [unfold blen in *; lia|done..].
  - clear. intros inp consumed s Hi. pose proof (read_v1_answers inp consumed s Hi) as W.
    unfold wp in W. destruct (read_feedback2_v1 inp consumed s) as [[[st n]| |] f]; [|done..].
    exists st, n, f. destruct W as (Wn & Wc & Wa & _). exact (conj eq_refl (conj Wn (conj Wc Wa))).
Qed.

Lemma feedback_v1_corruption_witness :
  let f := empty_feedback <| f_cid := 3 |> <| f_type := ACK |> <| acknowledgment_number := 700 |>
             <| acknowledgment_bits := 14 |> <| acknowledgment_valid := true |> in
  exists data r f', v1_octets f = 0xf4 :: data /\
    read_feedback2_v1 (0xf4 :: <[2%nat := 189]> data) false empty_feedback = (Ok r, f') /\
    fst r <> Accepted.
Proof.
  intros f. exists (v1_data f (crc8 (v1_data f 0))).
  destruct (feedback_v1_corruption 0xf4 (v1_data f (crc8 (v1_data f 0)))
    (<[2%nat := 189]> (v1_data f (crc8 (v1_data f 0)))) empty_feedback empty_feedback)
    as [(r & f' & E & Hr) _].
  - vm_compute. repeat constructor; discriminate.
  - vm_compute. repeat constructor; discriminate.
  - vm_compute. reflexivity.
  - exists (take 2 (v1_data f (crc8 (v1_data f 0)))), 188, 189, (drop 3 (v1_data f (crc8 (v1_data f 0)))).
    vm_compute. split_and!; [reflexivity..|discriminate].
  - vm_compute. reflexivity.
  - exists r, f'. split_and!; [vm_compute; reflexivity|exact E|exact Hr].
Defined.

(** ** An acknowledgment finds the packet it is for *)

Lemma ack_mask_ones bits : 1 <= bits <= 16 -> ack_mask bits = Z.ones bits.
Proof.
  intros H. unfold ack_mask. destruct (Z.eqb_spec bits 16) as [->|]; [done|].
  unfold u16. rewrite Z.shiftl_mul_pow2, Z.mul_1_l, Z.ones_equiv by lia.
  assert (2 ^ bits <= 2 ^ 15) by (apply Z.pow_le_mono_r; lia).
  assert (0 < 2 ^ bits) by (apply Z.pow_pos_nonneg; lia).
  rewrite Z.mod_small by lia. lia.
Qed.

(** The latest of the last 64 packets whose number agrees in [bits] bits. *)
Definition latest_agreeing (log : list (Z * Z)) (ack bits : Z) : option (Z * Z) :=
  List.find (fun e => fst e mod 2 ^ bits =? ack mod 2 ^ bits) (take 64 (rev log)).

Lemma find_ext {A} (f g : A -> bool) l : (forall x, f x = g x) -> List.find f l = List.find g l.
Proof. intros H. induction l as [|x l IH]; cbn; [done|]. by rewrite H, IH. Qed.

Lemma lookup_after_sends log c ack bits :
  send_all initial_context log = Ok c -> 1 <= bits <= 16 ->
  transmitted_msn_revision c ack bits = found (latest_agreeing log ack bits).
Proof.
  intros E Hb. destruct initial_history as [H0 Hh].
  destruct (send_all_history _ log H0) as (c' & E' & Hok & Hlog).
  assert (c' = c) as -> by congruence.
  rewrite transmitted_msn_revision_find, Hlog, Hh, app_nil_r by done.
  unfold latest_agreeing. f_equal. apply find_ext. intros e.
  unfold acked_by. by rewrite ack_mask_ones, !Z.land_ones by lia.
Qed.

(** C13: The ring of transmitted sequence numbers implements the log of packets
    sent: after any sends, looking up an acknowledgment of 1 to 16 bits answers
    the revision and number of the latest of the last 64 packets whose number
    agrees in those bits, and refuses when there is none.  An acknowledgment
    written as a FEEDBACK-2 packet for a CID of at most 15, whatever follows it
    on the wire, is read back as accepted, for that CID and of that type, and
    the lookup of what was read answers what the lookup of the number that was
    written does. *)
Theorem acknowledgment_exchange log :
  exists c, send_all initial_context log = Ok c /\
  (forall ack bits, 1 <= bits <= 16 ->
     transmitted_msn_revision c ack bits = found (latest_agreeing log ack bits)) /\
  (forall f cap rest, v1_expressible f = true -> 0 <= f_cid f -> 0 <= acknowledgment_number f ->
     acknowledgment_valid f = true -> 5 <= cap ->
     exists enc f' n,
       write_feedback2_v1 f {| w_out := []; w_cap := cap |} =
         (Ok tt, {| w_out := enc; w_cap := cap |}) /\
       read_feedback2_v1 (enc ++ rest) true empty_feedback = (Ok (Accepted, Some n), f') /\
       drop (Z.to_nat n) (enc ++ rest) = rest /\
       f_cid f' = f_cid f /\ f_type f' = f_type f /\ acknowledgment_valid f' = true /\
       transmitted_msn_revision c (acknowledgment_number f') (acknowledgment_bits f') =
         found (latest_agreeing log (acknowledgment_number f) 14)).
Proof.
  destruct initial_history as [H0 _].
  destruct (send_all_history _ log H0) as (c & E & Hok & Hlog). exists c.
  split_and!; [done|intros; by apply lookup_after_sends|].
  intros f cap rest Hx Hc Ha Hv Hcap. exists (v1_octets f), (v1_received f), (blen (v1_octets f)).
  rewrite write_v1_exact, read_v1_octets, Hx by auto.
  assert (Hl : blen (v1_octets f) <= cap).
  { unfold v1_octets, v1_data, v1_front, v1_back. rewrite Hv.
    destruct (f_cid f =? 0); blen_lia. }
  rewrite (proj2 (Z.leb_le _ cap)) by done. split_and!; try done.
  - unfold blen. by rewrite Nat2Z.id, drop_app_length.
  - cbn. rewrite Hv. erewrite lookup_after_sends by (done || lia). unfold latest_agreeing.
    f_equal. apply find_ext. intros e. change (Z.pow_pos 2 14) with (2 ^ 14).
    by rewrite Z.mod_mod by lia.
Qed.
