(* ===== verification/FeedbackPackets.v ===== *)
(** * Feedback packets with options, and what feedback does to a context *)

From S2P Require Import Prelude Crc Context Cursor Feedback.

(** * What feedback does *)

(** An acknowledgment that is correlated with the context's current revision. *)
Definition current_ack (ctx : Context) (f : Feedback) : bool :=
  bool_decide (f_type f = ACK) && acknowledgment_valid f && context_revision_valid f &&
  (acknowledged_context_revision f =? context_revision ctx).

Lemma apply_feedback_keeps ctx f :
  let ctx' := apply_feedback_to_context ctx f in
  context_revision ctx' = context_revision ctx /\
  transmitted_msn_history ctx' = transmitted_msn_history ctx /\ cid ctx' = cid ctx /\
  profile ctx' = profile ctx /\ msn ctx' = msn ctx.
Proof.
  cbv zeta. unfold apply_feedback_to_context.
  repeat (case_match; cbn); done.
Qed.

Lemma apply_feedback_ok ctx f : context_ok ctx -> context_ok (apply_feedback_to_context ctx f).
Proof.
  intros H. assert (B0 : byte_ok 0) by (unfold byte_ok; lia).
  assert (B1 : 0 <= 0 < 2 ^ 32) by lia. assert (B2 : 0 <= 1 < 2 ^ 32) by lia.
  unfold apply_feedback_to_context.
  repeat (case_match; cbv zeta); eauto 9 with ctxok rohc.
Qed.

(** ** The gate of a replaced profile *)

Lemma apply_feedback_gated ctx f :
  profile_replacement_pending ctx = true -> current_ack ctx f = false ->
  let ctx' := apply_feedback_to_context ctx f in
  profile_replacement_pending ctx' = true /\
  (static_acked ctx' = true -> static_acked ctx = true) /\
  (dynamic_acked ctx' = true -> dynamic_acked ctx = true).
Proof.
  intros Hp Hc. unfold current_ack in Hc. unfold apply_feedback_to_context.
  set (ctx0 := if has_mode f then ctx <| mode := f_mode f |> else ctx).
  assert (H0 : profile_replacement_pending ctx0 = true /\
    static_acked ctx0 = static_acked ctx /\ dynamic_acked ctx0 = dynamic_acked ctx /\
    context_revision ctx0 = context_revision ctx) by (unfold ctx0; by destruct (has_mode f)).
  clearbody ctx0. destruct H0 as (H1 & H2 & H3 & H4).
  rewrite <- H2, <- H3. rewrite <- H4 in Hc. clear H2 H3 H4 Hp ctx.
  destruct (f_type f) eqn:Et; cbv zeta.
  - case_match; cbn; by split_and!.
  - cbn. split_and!; done.
  - rewrite bool_decide_true in Hc by done. cbn [andb] in Hc.
    change (context_revision (ctx0 <| nack_count := 0 |>)) with (context_revision ctx0).
    rewrite Hc. change (profile_replacement_pending (ctx0 <| nack_count := 0 |>))
      with (profile_replacement_pending ctx0). rewrite H1. cbn. auto.
Qed.

(** C26: While a replaced profile waits for confirmation, no sequence of feedback
    without an acknowledgment of the context's current revision opens the gate
    or makes the compressor believe that its state was acknowledged; an
    acknowledgment of the current revision opens it. *)
Theorem replacement_gate ctx fs
  (Hp : profile_replacement_pending ctx = true)
  (Hfs : Forall (fun f => current_ack ctx f = false) fs) :
  let ctx' := fold_left apply_feedback_to_context fs ctx in
  (profile_replacement_pending ctx' = true /\
   (static_acked ctx' = true -> static_acked ctx = true) /\
   (dynamic_acked ctx' = true -> dynamic_acked ctx = true)) /\
  forall f, current_ack ctx f = true ->
    let ctx'' := apply_feedback_to_context ctx' f in
    profile_replacement_pending ctx'' = false /\ nack_count ctx'' = 0 /\
    (rohc_state ctx' <> NoContext -> static_acked ctx'' = true) /\
    (rohc_state ctx' = DynamicEstablished -> dynamic_acked ctx'' = true) /\
    rohc_state ctx'' = rohc_state ctx'.
Proof.
  assert (Hfold : forall fs ctx0, profile_replacement_pending ctx0 = true ->
    Forall (fun f => current_ack ctx0 f = false) fs ->
    let ctx' := fold_left apply_feedback_to_context fs ctx0 in
    context_revision ctx' = context_revision ctx0 /\
    profile_replacement_pending ctx' = true /\
    (static_acked ctx' = true -> static_acked ctx0 = true) /\
    (dynamic_acked ctx' = true -> dynamic_acked ctx0 = true)).
  { clear. induction fs as [|f fs IH]; intros ctx0 Hp Hfs; cbn [fold_left]; [by auto|].
    apply Forall_cons_iff in Hfs as [Hf Hfs].
    pose proof (apply_feedback_keeps ctx0 f) as (K & _).
    pose proof (apply_feedback_gated ctx0 f Hp Hf) as (G1 & G2 & G3).
    revert K G1 G2 G3. generalize (apply_feedback_to_context ctx0 f). intros ctx1 K G1 G2 G3.
    destruct (IH ctx1 G1) as (I1 & I2 & I3 & I4).
    { eapply List.Forall_impl; [|exact Hfs]. intros g. unfold current_ack. by rewrite K. }
    cbv zeta. split_and!; [congruence|done|auto..]. }
  destruct (Hfold fs ctx Hp Hfs) as (K & G). split; [exact G|].
  revert K. generalize (fold_left apply_feedback_to_context fs ctx). intros c K f Hf.
  unfold current_ack in Hf. bool_prop. unfold apply_feedback_to_context.
  set (c0 := if has_mode f then c <| mode := f_mode f |> else c).
  assert (H0' : context_revision c0 = context_revision c /\ rohc_state c0 = rohc_state c)
    by (unfold c0; by destruct (has_mode f)).
  clearbody c0. destruct H0' as (R1 & R2). rewrite <- R2. rewrite <- K, <- R1 in H0.
  rewrite H. cbv zeta.
  change (context_revision (c0 <| nack_count := 0 |>)) with (context_revision c0).
  rewrite H0, H1, H2, Z.eqb_refl. cbn [andb orb]. rewrite orb_true_r. cbn [andb].
  generalize (if context_distance_valid f then u8 (acknowledged_context_distance f) else 0).
  intros v. clear H0 R1 R2 K. destruct c0 as [p0 m0 st]. destruct st; split_and!; done.
Qed.

Lemma replacement_gate_witness :
  let ctx := initial_context <| profile_replacement_pending := true |> in
  profile_replacement_pending (fold_left apply_feedback_to_context
    [empty_feedback <| f_type := ACK |>; empty_feedback <| f_type := STATIC_NACK |>] ctx) = true.
Proof.
  intros ctx.
  assert (H : Forall (fun f => current_ack ctx f = false)
    [empty_feedback <| f_type := ACK |>; empty_feedback <| f_type := STATIC_NACK |>])
    by (repeat (apply List.Forall_cons; [reflexivity|]); apply List.Forall_nil).
  exact (proj1 (proj1 (replacement_gate ctx _ eq_refl H))).
Defined.

(** ** Repeated negative acknowledgments *)

Lemma nack_effect ctx f : f_type f = NACK ->
  let ctx' := apply_feedback_to_context ctx f in
  let n := u8 (nack_count ctx + 1) in
  nack_count ctx' = n /\ dynamic_acked ctx' = false /\
  rohc_state ctx' = (if 1 <? n then NoContext else StaticEstablished) /\
  tx_count ctx' = (if 1 <? n then 0 else 1) /\
  static_acked ctx' = (if 1 <? n then false else static_acked ctx).
Proof.
  intros Ht. unfold apply_feedback_to_context. rewrite Ht. cbv zeta.
  destruct (has_mode f); cbn; case_match; cbn; split_and!; done.
Qed.

(** C35: Without an acknowledgment in between, the first NACK takes the context
    to StaticEstablished and the second to NoContext, where it stays, with
    nothing acknowledged, up to the 255th; the counter is a [uint8_t], so the
    256th and 257th NACK take the context forward again, to
    StaticEstablished. *)
Theorem nack_escalation ctx f n (Ht : f_type f = NACK) (Hn : nack_count ctx = 0) :
  let ctx' := Nat.iter (S n) (fun c => apply_feedback_to_context c f) ctx in
  nack_count ctx' = Z.of_nat (S n) mod 256 /\
  dynamic_acked ctx' = false /\
  (rohc_state ctx' = StaticEstablished /\ tx_count ctx' = 1 /\ Z.of_nat (S n) mod 256 <= 1 \/
   rohc_state ctx' = NoContext /\ tx_count ctx' = 0 /\ static_acked ctx' = false /\
   2 <= Z.of_nat (S n) mod 256).
Proof.
  cbv zeta.
  assert (Hc : nack_count (Nat.iter (S n) (fun c => apply_feedback_to_context c f) ctx) =
               Z.of_nat (S n) mod 256).
  { clear -Ht Hn. induction n as [|n IH].
    - destruct (nack_effect ctx f Ht) as (E & _). cbn. rewrite E. by rewrite Hn.
    - rewrite Nat.iter_succ. revert IH. generalize (Nat.iter (S n)
        (fun c => apply_feedback_to_context c f) ctx). intros c IH.
      destruct (nack_effect c f Ht) as (E & _). rewrite E, IH. unfold u8.
      change (2 ^ 8) with 256. rewrite Z.add_mod_idemp_l by lia. f_equal. lia. }
  rewrite Nat.iter_succ in Hc |- *.
  split; [exact Hc|]. revert Hc.
  generalize (Nat.iter n (fun c => apply_feedback_to_context c f) ctx). intros c Hc.
  destruct (nack_effect c f Ht) as (E1 & E2 & E3 & E4 & E5). rewrite Hc in E1.
  rewrite <- E1 in E3, E4, E5. split; [exact E2|]. rewrite E3, E4, E5.
  destruct (Z.ltb_spec 1 (Z.of_nat (S n) mod 256)); [right|left]; split_and!; done || lia.
Qed.

Lemma nack_escalation_witness :
  let nack := empty_feedback <| f_type := NACK |> in
  let c := Nat.iter 256 (fun c => apply_feedback_to_context c nack) initial_context in
  nack_count c = 0.
Proof. exact (proj1 (nack_escalation initial_context empty_feedback 255 eq_refl eq_refl)). Defined.

(** * Feedback with options on the wire *)

Definition option_ok (o : FeedbackOption) : Prop :=
  byte_ok (o_type o) /\ 0 <= o_len o <= 4 /\ length (o_value o) = 4%nat.
Definition feedback_ok (f : Feedback) : Prop :=
  0 <= f_cid f /\ 0 <= option_count f <= 4 /\ length (options f) = 4%nat /\
  Forall option_ok (options f).

Definition option_data (o : FeedbackOption) : bytes := take (Z.to_nat (o_len o)) (o_value o).
Definition option_octets (o : FeedbackOption) : bytes := o_type o :: o_len o :: option_data o.
Definition sent_options (f : Feedback) : list FeedbackOption :=
  take (Z.to_nat (option_count f)) (options f).
Definition options_octets (l : list FeedbackOption) : bytes := concat (map option_octets l).

(** Type and value of each option. *)
Definition options_view (f : Feedback) : list (Z * bytes) :=
  map (fun o => (o_type o, option_data o)) (sent_options f).

Lemma option_data_len o : option_ok o -> blen (option_data o) = o_len o.
Proof. intros (_ & Hl & Hv). unfold option_data, blen. rewrite length_take. lia. Qed.

Lemma option_octets_len o : option_ok o -> blen (option_octets o) = 2 + o_len o.
Proof. intros H. unfold option_octets. rewrite !blen_cons, option_data_len by done. lia. Qed.

Lemma options_octets_cons o l : options_octets (o :: l) = option_octets o ++ options_octets l.
Proof. done. Qed.

Lemma options_octets_bound l :
  Forall option_ok l -> 2 * Z.of_nat (length l) <= blen (options_octets l) <= 6 * Z.of_nat (length l).
Proof.
  induction 1 as [|o l Ho Hl IH]; [done|]. rewrite options_octets_cons, blen_app, option_octets_len by done.
  cbn [length]. destruct Ho as (_ & ? & _). lia.
Qed.

Lemma option_at_drop f i o l : drop i (options f) = o :: l ->
  option_at f i = Ok o /\ drop (S i) (options f) = l.
Proof.
  intros H. unfold option_at. pose proof (lookup_drop (options f) i 0) as E.
  rewrite H, Nat.add_0_r in E. rewrite <- E. split; [done|].
  replace (S i) with (i + 1)%nat by lia. by rewrite <- drop_drop, H.
Qed.

Lemma options_len_loop_eq f i n len l :
  Forall option_ok (options f) -> take n (drop i (options f)) = l -> length l = n ->
  options_len_loop f i n len = Ok (len + blen (options_octets l)).
Proof.
  intros Hok. revert i len l. induction n as [|n IH]; intros i len l Hl Hn.
  - destruct l; [|done]. cbn. by rewrite Z.add_0_r.
  - destruct (drop i (options f)) as [|o r] eqn:E; [by subst l|].
    destruct (option_at_drop f i o r E) as [Ho Hr].
    cbn [take] in Hl. subst l. cbn [length] in Hn. cbn [options_len_loop]. rewrite Ho. cbn [obind].
    assert (Hoo : option_ok o).
    { apply (List.Forall_forall option_ok (options f)); [done|].
      rewrite <- (take_drop i (options f)), E. apply in_or_app. right. by left. }
    rewrite (IH (S i) _ (take n r)) by (congruence || (by injection Hn)).
    rewrite options_octets_cons, blen_app, option_octets_len by done. f_equal. lia.
Qed.

Lemma feedback_options_wire_len_eq f : feedback_ok f ->
  feedback_options_wire_len f = Ok (blen (options_octets (sent_options f))).
Proof.
  intros (_ & Hc & Hl & Hok). unfold feedback_options_wire_len.
  rewrite (options_len_loop_eq f 0 _ 0 (sent_options f)); [by rewrite Z.add_0_l|done|done|].
  unfold sent_options. rewrite length_take. lia.
Qed.

Lemma emits_write_options f i n l :
  Forall option_ok (options f) -> take n (drop i (options f)) = l -> length l = n ->
  emits (write_options f i n) (blen (options_octets l)) (Some (options_octets l)).
Proof.
  intros Hok. revert i l. induction n as [|n IH]; intros i l Hl Hn.
  - destruct l; [|done]. apply emits_ret.
  - destruct (drop i (options f)) as [|o r] eqn:E; [by subst l|].
    destruct (option_at_drop f i o r E) as [Ho Hr].
    cbn [take] in Hl. subst l. cbn [length] in Hn.
    assert (Hoo : option_ok o).
    { apply (List.Forall_forall option_ok (options f)); [done|].
      rewrite <- (take_drop i (options f)), E. apply in_or_app. right. by left. }
    specialize (IH (S i) (take n r) ltac:(congruence) ltac:(by injection Hn)).
    assert (Hs : slice (o_value o) 0 (o_len o) = Ok (option_data o)).
    { destruct Hoo as (_ & ? & ?). rewrite slice_eq by (unfold blen; lia). done. }
    rewrite options_octets_cons, blen_app. cbn [write_options]. rewrite Ho.
    change (emits (put (o_type o) ;;; put (o_len o) ;;;
      (v <- lift (slice (o_value o) 0 (o_len o)) ;; puts v ;;; write_options f (S i) n))
      (blen (option_octets o) + blen (options_octets (take n r)))
      (Some (option_octets o ++ options_octets (take n r)))).
    rewrite Hs.
    change (emits (put (o_type o) ;;; put (o_len o) ;;; puts (option_data o) ;;;
      write_options f (S i) n)
      (blen (option_octets o) + blen (options_octets (take n r)))
      (Some (option_octets o ++ options_octets (take n r)))).
    eapply emits_weaken; [|eapply emits_eq].
    2: { eapply emits_seq; [apply emits_put| |].
         - eapply emits_seq; [apply emits_put| |].
           + eapply emits_seq; [apply emits_puts|exact IH|apply blen_nonneg].
           + apply Z.add_nonneg_nonneg; apply blen_nonneg.
         - apply Z.add_nonneg_nonneg; [lia|]. apply Z.add_nonneg_nonneg; apply blen_nonneg. }
    + unfold option_octets. rewrite !blen_cons. lia.
    + done.
Qed.

Definition packet_data (f : Feedback) : bytes :=
  let o := options_octets (sent_options f) in
  [feedback_code f (0 <? blen o); 0] ++ (if 0 <? blen o then u8 (blen o) :: o else []).
Definition packet_body (f : Feedback) : bytes :=
  (if 0 <? f_cid f then [u8 (Z.lor 0xE0 (Z.land (f_cid f) 0x0F))] else []) ++ packet_data f.
Definition packet_octets (f : Feedback) : bytes :=
  let b := packet_body f in
  u8 (Z.lor 0xF0 (if 7 <? blen b then 0 else blen b)) ::
  (if 7 <? blen b then [u8 (blen b)] else []) ++ b.

Lemma sent_options_ok f : feedback_ok f ->
  Forall option_ok (sent_options f) /\ Z.of_nat (length (sent_options f)) = option_count f.
Proof.
  intros (_ & Hc & Hl & Hok). split; [by apply Forall_take|].
  unfold sent_options. rewrite length_take. lia.
Qed.

Lemma packet_sizes f : feedback_ok f ->
  let n := blen (options_octets (sent_options f)) in
  0 <= n <= 24 /\ blen (packet_data f) = 2 + (if 0 <? n then 1 + n else 0) /\
  blen (packet_body f) = (if 0 <? f_cid f then 1 else 0) + blen (packet_data f) /\
  blen (packet_octets f) =
    1 + (if 7 <? blen (packet_body f) then 1 else 0) + blen (packet_body f).
Proof.
  intros H n. destruct (sent_options_ok f H) as [Hs Hl]. destruct H as (_ & Hc & _).
  pose proof (options_octets_bound _ Hs). split; [lia|].
  split; [|split].
  - unfold packet_data. fold n. destruct (0 <? n); [|done]. unfold n. blen_lia.
  - unfold packet_body. destruct (0 <? f_cid f); blen_lia.
  - unfold packet_octets. destruct (7 <? blen (packet_body f)); blen_lia.
Qed.

Lemma emits_frame a (e c h : bool) x y z k o w :
  emits w (blen o) (Some o) ->
  let l := a :: (if e then [x] else []) ++ (if c then [y] else []) ++
           [k; 0] ++ (if h then z :: o else []) in
  emits (put a ;;; (if e then put x else ret tt) ;;; (if c then put y else ret tt) ;;;
         put k ;;; put 0 ;;; if h then put z ;;; w else ret tt) (blen l) (Some l).
Proof.
  intros W l.
  assert (Wh : emits (if h then put z ;;; w else ret tt) (blen (if h then z :: o else []))
    (Some (if h then z :: o else []))).
  { destruct h; [|apply emits_ret]. rewrite blen_cons.
    eapply emits_eq; [apply emits_seq; [apply emits_put|exact W|apply blen_nonneg]|done]. }
  unfold l. clear l. revert Wh. generalize (if h then z :: o else []). intros t Wh.
  pose proof (blen_nonneg t). destruct e, c; cbn [app];
    (eapply emits_weaken; [|eapply emits_eq;
       [repeat (eapply emits_seq; [first [apply emits_put|apply emits_ret]| |]); [exact Wh|..]|done]]);
    rewrite ?blen_cons; lia.
Qed.

(** The packet is exactly this when the CID is small and it fits, else nothing
    is written. *)
Lemma write_feedback_exact f cap : feedback_ok f ->
  write_feedback_packet f {| w_out := []; w_cap := cap |} =
  if (f_cid f <=? 0x0F) && (blen (packet_octets f) <=? cap)
  then (Ok tt, {| w_out := packet_octets f; w_cap := cap |})
  else (Rej, {| w_out := []; w_cap := cap |}).
Proof.
  intros H. pose proof (packet_sizes f H) as S. cbv zeta in S.
  assert (W : emits (write_options f 0 (Z.to_nat (option_count f)))
    (blen (options_octets (sent_options f))) (Some (options_octets (sent_options f)))).
  { pose proof (sent_options_ok f H) as [_ Hl]. destruct H as (_ & Hc & _ & Hok).
    apply emits_write_options; [done..|lia]. }
  unfold write_feedback_packet. rewrite feedback_options_wire_len_eq by done.
  rewrite Z.ltb_antisym, negb_involutive. destruct (f_cid f <=? 0x0F); [|done].
  do 2 erewrite bind_ok by reflexivity. erewrite bind_ok by reflexivity. cbn [andb].
  unfold room. cbn [w_out w_cap]. rewrite blen_nil, Z.sub_0_r.
  destruct S as (Sn & Sd & Sb & Sp). rewrite <- Sd, <- Sb, <- Sp.
  assert (Hb : 0 <= blen (packet_body f) <= 28).
  { rewrite Sb, Sd. destruct (0 <? f_cid f), (0 <? _); lia. }
  rewrite (proj2 (Z.ltb_ge 0xFF _)) by lia. rewrite (proj2 (Z.ltb_ge 0xFF _)) by lia.
  cbn [orb]. rewrite <- Z.leb_antisym. destruct (Z.leb_spec (blen (packet_octets f)) cap) as [Hf|];
    [|done].
  erewrite bind_ok by reflexivity.
  apply (emits_run _ (blen (packet_octets f))); [|done]. by apply emits_frame.
Qed.

(** ** Reading it back *)

(** [add_feedback_option] when there is a free slot. *)
Definition with_option (g : Feedback) (o : FeedbackOption) : Feedback :=
  g <| option_count := option_count g + 1 |>
    <| options := <[Z.to_nat (option_count g) :=
         mkOption (o_type o) (o_len o) (option_data o ++ drop (Z.to_nat (o_len o)) [0; 0; 0; 0])]>
         (options g) |>.

Lemma add_feedback_option_ok g o value :
  option_ok o -> 0 <= option_count g < 4 ->
  take (Z.to_nat (o_len o)) value = option_data o -> o_len o <= blen value ->
  add_feedback_option g (o_type o) value (o_len o) = Ok (with_option g o).
Proof.
  intros Ho Hc Hv Hl. pose proof (option_data_len o Ho) as Hd. destruct Ho as (_ & Hlen & _).
  unfold add_feedback_option.
  rewrite (proj2 (Z.leb_gt 4 _)), (proj2 (Z.ltb_ge 4 _)) by lia. cbn [orb negb oguard obind].
  rewrite slice_eq by lia. change (drop (Z.to_nat 0) value) with value.
  rewrite Hv. cbn [obind].
  rewrite overwrite_fits by (cbn; unfold blen in Hd; lia). cbn [obind].
  replace (length (option_data o)) with (Z.to_nat (o_len o)) by (unfold blen in Hd; lia). done.
Qed.

Lemma read_options_at l rest fuel pre g :
  let inp := pre ++ options_octets l ++ rest in
  let body_end := blen pre + blen (options_octets l) in
  Forall option_ok l -> 0 <= option_count g -> option_count g + Z.of_nat (length l) <= 4 ->
  size_ok (blen inp) -> (length l <= fuel)%nat ->
  read_options fuel inp (blen pre) body_end g = (Ok body_end, fold_left with_option l g).
Proof.
  revert fuel pre g. induction l as [|o l IH]; intros fuel pre g inp body_end Hok H0 Hc Hs Hf.
  - unfold body_end, options_octets. cbn [map concat]. rewrite blen_nil, Z.add_0_r.
    destruct fuel; cbn [read_options]; by rewrite Z.ltb_irrefl.
  - apply Forall_cons_iff in Hok as [Ho Hok]. destruct fuel as [|fuel]; [cbn in Hf; lia|].
    pose proof (option_octets_len o Ho) as Lo. pose proof (option_data_len o Ho) as Ld.
    pose proof Ho as (_ & Hlen & _). pose proof (blen_nonneg pre). pose proof (blen_nonneg rest).
    pose proof (blen_nonneg (options_octets l)).
    assert (Hi : inp = pre ++ o_type o :: o_len o :: option_data o ++ options_octets l ++ rest).
    { unfold inp. rewrite options_octets_cons, <- app_assoc. done. }
    assert (Hbi : blen inp = blen pre + (2 + o_len o) + blen (options_octets l) + blen rest).
    { rewrite Hi, blen_app, !blen_cons, !blen_app. lia. }
    assert (Hbe : body_end = blen pre + (2 + o_len o) + blen (options_octets l)).
    { unfold body_end. rewrite options_octets_cons, blen_app. lia. }
    cbn [length] in Hc, Hf. unfold size_ok in Hs. cbn [read_options].
    rewrite (proj2 (Z.ltb_lt (blen pre) body_end)) by lia.
    erewrite bind_ok by reflexivity. rewrite usub_small by lia.
    rewrite (proj2 (Z.ltb_ge _ 2)), (proj2 (Z.leb_gt 4 _)) by lia. cbn [orb negb].
    erewrite bind_ok by reflexivity.
    rewrite Hi. rewrite rd_app_0, rd_app by lia.
    rewrite (rd_cons_S _ _ 0) by lia.
    do 2 (erewrite bind_ok by reflexivity).
    rewrite (proj2 (Z.ltb_ge 4 _)) by lia.
    rewrite (proj2 (Z.ltb_ge _ (o_len o))) by (rewrite ?usub_small; lia). cbn [orb negb].
    erewrite bind_ok by reflexivity.
    set (pre' := pre ++ [o_type o; o_len o]).
    assert (Hp' : blen pre' = blen pre + 2) by (unfold pre'; blen_lia).
    replace (pre ++ o_type o :: o_len o :: option_data o ++ options_octets l ++ rest)
      with (pre' ++ option_data o ++ options_octets l ++ rest) by (unfold pre'; by rewrite <- app_assoc).
    rewrite <- Hp', tail_from_app. do 2 (erewrite bind_ok by reflexivity).
    rewrite add_feedback_option_ok; [|done|lia| |].
    2: { replace (Z.to_nat (o_len o)) with (length (option_data o)) by (unfold blen in Ld; lia).
         apply take_app_length. }
    2: { rewrite blen_app, Ld. pose proof (blen_nonneg (options_octets l ++ rest)). lia. }
    do 2 (erewrite bind_ok by reflexivity). cbn [fold_left].
    set (pre'' := pre' ++ option_data o).
    assert (Hp'' : blen pre'' = blen pre' + o_len o) by (unfold pre''; rewrite blen_app; lia).
    replace (pre' ++ option_data o ++ options_octets l ++ rest)
      with (pre'' ++ options_octets l ++ rest) by (unfold pre''; by rewrite <- app_assoc).
    rewrite <- Hp''. replace body_end with (blen pre'' + blen (options_octets l)) by lia.
    apply IH; try done; cbn; try lia.
    unfold size_ok. rewrite !blen_app. lia.
Qed.

Lemma feedback_code_bits f h :
  let c := feedback_code f h in
  (Z.land c 0xF0 =? 0xE0) = false /\
  feedback_type_from_ack_type (Z.land (Z.shiftr c 6) 0x03) = Some (f_type f) /\
  negb (Z.land c 0x10 =? 0) = h /\ negb (Z.land c 0x20 =? 0) = has_mode f /\
  (has_mode f = true -> Z.land c 0x03 = mode_val (f_mode f)).
Proof.
  cbv zeta. unfold feedback_code.
  destruct (f_type f), (has_mode f), (f_mode f), h; vm_compute; split_and!; done.
Qed.

Lemma mode_of_val m : is_known_mode (mode_val m) = true /\ mode_of (mode_val m) = m.
Proof. by destruct m. Qed.

(** What the reader makes of a packet of the writer. *)
Definition received_base (f : Feedback) : Feedback :=
  let g := empty_feedback <| f_cid := f_cid f |> <| f_type := f_type f |> in
  if has_mode f then g <| has_mode := true |> <| f_mode := f_mode f |> else g.
Definition packet_received (f : Feedback) : Feedback :=
  fold_left with_option (sent_options f) (received_base f).

Lemma read_feedback_data_at f pre rest g :
  let inp := pre ++ packet_data f ++ rest in
  let body_end := blen pre + blen (packet_data f) in
  feedback_ok f -> size_ok (blen inp) -> option_count g = 0 ->
  read_feedback_data inp (blen pre) body_end g =
  (Ok body_end, fold_left with_option (sent_options f)
     (let g := g <| f_type := f_type f |> in
      if has_mode f then g <| has_mode := true |> <| f_mode := f_mode f |> else g)).
Proof.
  intros inp body_end Hf Hs Hg. pose proof (packet_sizes f Hf) as (Sn & Sd & _ & _).
  destruct (sent_options_ok f Hf) as [Ho Hl]. destruct Hf as (_ & Hc & _ & _).
  pose proof (options_octets_bound _ Ho) as Hob.
  pose proof (blen_nonneg pre). pose proof (blen_nonneg rest).
  set (o := options_octets (sent_options f)) in *.
  assert (Hi : inp = pre ++ feedback_code f (0 <? blen o) :: 0 ::
    (if 0 <? blen o then u8 (blen o) :: o else []) ++ rest) by (unfold inp, packet_data; done).
  assert (Hbi : blen inp = blen pre + blen (packet_data f) + blen rest)
    by (unfold inp; rewrite !blen_app; lia).
  assert (Hbe : body_end = blen pre + blen (packet_data f)) by done. clearbody body_end.
  unfold size_ok in Hs. unfold read_feedback_data, fupd.
  assert (Hb2 : 2 <= blen (packet_data f)) by (rewrite Sd; destruct (0 <? blen o); lia).
  rewrite usub_small by lia. rewrite (proj2 (Z.ltb_ge _ 2)) by lia.
  erewrite bind_ok by reflexivity. rewrite Hi, rd_app_0.
  destruct (feedback_code_bits f (0 <? blen o)) as (_ & C2 & C3 & C4 & C5).
  revert C2 C3 C4 C5. generalize (feedback_code f (0 <? blen o)). intros code C2 C3 C4 C5.
  erewrite bind_ok by reflexivity. rewrite C2, C3, C4.
  erewrite bind_ok by reflexivity.
  destruct (mode_of_val (f_mode f)) as [M1 M2].
  set (g' := let g := g <| f_type := f_type f |> in
      if has_mode f then g <| has_mode := true |> <| f_mode := f_mode f |> else g).
  assert (Hg' : option_count g' = 0) by (unfold g'; by destruct (has_mode f)).
  assert (E : (if has_mode f then
      guard (is_known_mode (Z.land code 0x03)) ;;;
      modify (fun f0 => f0 <| has_mode := true |> <| f_mode := mode_of (Z.land code 0x03) |>)
     else ret tt) (g <| f_type := f_type f |>) = (Ok tt, g')).
  { unfold g'. destruct (has_mode f); [|done]. rewrite (C5 eq_refl), M1, M2. done. }
  erewrite bind_ok by exact E. clear E. clearbody g'. clear C2 C3 C4 C5 Hg.
  destruct (Z.ltb_spec 0 (blen o)) as [Hpos|Hnone].
  - set (pre' := pre ++ [code; 0]).
    assert (Hp' : blen pre' = blen pre + 2) by (unfold pre'; blen_lia).
    change ((u8 (blen o) :: o) ++ rest) with (u8 (blen o) :: o ++ rest).
    replace (pre ++ code :: 0 :: u8 (blen o) :: o ++ rest) with (pre' ++ u8 (blen o) :: o ++ rest)
      by (unfold pre'; by rewrite <- app_assoc).
    rewrite <- Hp'. rewrite (proj2 (Z.leb_gt body_end _)) by lia.
    erewrite bind_ok by reflexivity. rewrite rd_app_0. erewrite bind_ok by reflexivity.
    rewrite u8_small by (unfold byte_ok; lia). rewrite usub_small by lia.
    rewrite (proj2 (Z.eqb_eq (body_end - _) (blen o))) by lia. erewrite bind_ok by reflexivity.
    set (pre'' := pre' ++ [blen o]).
    assert (Hp'' : blen pre'' = blen pre' + 1) by (unfold pre''; blen_lia).
    replace (pre' ++ blen o :: o ++ rest) with (pre'' ++ o ++ rest)
      by (unfold pre''; by rewrite <- app_assoc).
    rewrite <- Hp''. replace body_end with (blen pre'' + blen o) by lia.
    unfold o. apply read_options_at; try done; try lia.
    + unfold size_ok. fold o. rewrite !blen_app. lia.
    + pose proof (blen_nonneg pre''). fold o. lia.
  - assert (Hnil : sent_options f = []).
    { destruct (sent_options f) as [|x l]; [done|]. cbn [length] in Hob. lia. }
    rewrite Hnil. cbn [fold_left].
    rewrite (proj2 (Z.eqb_eq (blen pre + 2) body_end)) by lia.
    replace body_end with (blen pre + 2) by lia. done.
Qed.

Lemma read_packet_octets f rest consumed s :
  feedback_ok f -> f_cid f <= 0x0F -> size_ok (blen (packet_octets f ++ rest)) ->
  consumed = true \/ rest = [] ->
  read_feedback_packet (packet_octets f ++ rest) consumed s =
  (Ok (blen (packet_octets f)), packet_received f).
Proof.
  intros Hf Hcid Hs Hr. pose proof (packet_sizes f Hf) as (Sn & Sd & Sb & Sp). cbv zeta in *.
  pose proof Hf as (Hc0 & _).
  destruct (add_cid_octet (f_cid f) ltac:(lia)) as (C1 & C2 & C3).
  assert (Hb : 2 <= blen (packet_body f) <= 28).
  { rewrite Sb, Sd. destruct (0 <? f_cid f), (0 <? _); lia. }
  assert (Hd2 : 2 <= blen (packet_data f)) by (rewrite Sd; destruct (0 <? _); lia).
  destruct (feedback_code_bits f (0 <? blen (options_octets (sent_options f)))) as (D1 & _).
  pose proof (blen_nonneg rest).
  set (cp := if 0 <? f_cid f then [u8 (Z.lor 0xE0 (Z.land (f_cid f) 0x0F))] else []).
  assert (Hbody : packet_body f = cp ++ packet_data f) by done.
  assert (Hcp : blen (packet_body f) = blen cp + blen (packet_data f)) by (by rewrite Hbody, blen_app).
  pose proof (blen_nonneg cp).
  set (n := blen (packet_body f)) in *.
  set (pre := u8 (Z.lor 0xF0 (if 7 <? n then 0 else n)) :: (if 7 <? n then [u8 n] else [])).
  assert (Hi : packet_octets f ++ rest = pre ++ packet_body f ++ rest).
  { unfold packet_octets. fold n. unfold pre. cbn [app]. by rewrite <- app_assoc. }
  assert (Hpre : blen pre = if 7 <? n then 2 else 1) by (unfold pre; by destruct (7 <? n)).
  assert (Hlen : blen (packet_octets f ++ rest) = blen pre + n + blen rest).
  { rewrite Hi, !blen_app. fold n. lia. }
  assert (Hout : blen (packet_octets f) = blen pre + n).
  { rewrite blen_app in Hlen. lia. }
  rewrite Hout. unfold read_feedback_packet, fupd. erewrite bind_ok by reflexivity.
  rewrite Hlen. rewrite Hlen in Hs. unfold size_ok in Hs.
  assert (Hpre12 : 1 <= blen pre <= 2) by (rewrite Hpre; destruct (7 <? n); lia).
  rewrite (proj2 (Z.ltb_ge _ 2)) by lia. erewrite bind_ok by reflexivity.
  (* the size octets *)
  assert (L : 0 <= (if 7 <? n then 0 else n) < 8) by (destruct (Z.ltb_spec 7 n); lia).
  destruct (lead_octet _ L) as (L1 & L2).
  assert (R0 : rd (packet_octets f ++ rest) 0 = Ok (u8 (Z.lor 0xF0 (if 7 <? n then 0 else n))))
    by (rewrite Hi; reflexivity).
  rewrite R0. erewrite bind_ok by reflexivity. rewrite L1. erewrite bind_ok by reflexivity.
  cbv zeta. rewrite L2.
  match goal with |- bind ?m _ ?s = _ =>
    assert (Hsize : m s = (Ok (blen pre, n), s)) end.
  { rewrite Hpre. destruct (Z.ltb_spec 7 n) as [H7|H7].
    - rewrite Z.eqb_refl. rewrite (proj2 (Z.leb_gt _ 1)) by lia. erewrite bind_ok by reflexivity.
      rewrite Hi. unfold pre. cbn [app]. rd_simp.
      erewrite bind_ok by reflexivity. rewrite u8_small by (unfold byte_ok; lia). done.
    - by rewrite (proj2 (Z.eqb_neq n 0)) by lia. }
  erewrite bind_ok by exact Hsize. clear Hsize. cbn [fst snd].
  rewrite (proj2 (Z.eqb_neq n 0)) by lia. rewrite usub_small by lia.
  rewrite (proj2 (Z.ltb_ge _ n)) by lia. cbn [orb negb]. erewrite bind_ok by reflexivity.
  rewrite (proj2 (Z.ltb_lt (blen pre) (blen pre + n))) by lia. rewrite Hi, Hbody.
  (* the Add-CID octet *)
  set (g := empty_feedback <| f_cid := f_cid f |>).
  match goal with |- bind ?m ?k ?s = _ =>
    assert (Hcidp : bind m k s = bind (read_feedback_data ((pre ++ cp) ++ packet_data f ++ rest)
      (blen (pre ++ cp)) (blen (pre ++ cp) + blen (packet_data f)))
      (fun pos => guard (consumed || (pos =? blen pre + n + blen rest)) ;;; ret pos) g) end.
  { replace (blen pre + n) with (blen (pre ++ cp) + blen (packet_data f))
      by (rewrite blen_app; lia).
    replace (blen pre + n + blen rest) with (blen (pre ++ cp) + blen (packet_data f) + blen rest)
      by (rewrite blen_app; lia).
    rewrite <- (app_assoc pre cp), <- (app_assoc cp). clear Hsize || idtac.
    unfold cp, g. destruct (Z.ltb_spec 0 (f_cid f)) as [Hp|Hz].
    - cbn [app]. rewrite rd_app_0. erewrite bind_ok by reflexivity. rewrite C3, C1, C2, Z.eqb_refl.
      rewrite (proj2 (Z.eqb_neq (f_cid f) 0)) by lia.
      rewrite (blen_app pre), blen_cons, blen_nil. change (1 + 0) with 1. reflexivity.
    - cbn [app]. unfold packet_data at 1. cbn [app]. rewrite rd_app_0. erewrite bind_ok by reflexivity.
      rewrite D1. replace (f_cid f) with 0 by lia. rewrite app_nil_r. reflexivity. }
  rewrite Hcidp. clear Hcidp.
  erewrite bind_ok.
  2: { apply read_feedback_data_at; [done| |done].
       unfold size_ok. rewrite !blen_app in *. lia. }
  replace (blen (pre ++ cp) + blen (packet_data f)) with (blen pre + n) by (rewrite blen_app; lia).
  assert (G : consumed || (blen pre + n =? blen pre + n + blen rest) = true).
  { destruct Hr as [-> | ->]; [done|]. rewrite blen_nil, Z.add_0_r, Z.eqb_refl. apply orb_true_r. }
  rewrite G. erewrite bind_ok by reflexivity. reflexivity.
Qed.

(** ** The options that arrive are those sent *)

Lemma with_option_view g o :
  option_ok o -> 0 <= option_count g < 4 -> length (options g) = 4%nat ->
  options_view (with_option g o) = options_view g ++ [(o_type o, option_data o)].
Proof.
  intros Ho Hc Hl. pose proof (option_data_len o Ho) as Hd. destruct Ho as (_ & ? & _).
  assert (Hdata : option_data (mkOption (o_type o) (o_len o)
    (option_data o ++ drop (Z.to_nat (o_len o)) [0; 0; 0; 0])) = option_data o).
  { revert Hd. unfold option_data at 2. cbn [o_len o_value]. unfold blen. intros Hd.
    rewrite take_app_le by lia. apply take_ge. lia. }
  unfold options_view, sent_options, with_option.
  cbn. replace (Z.to_nat (option_count g + 1)) with (S (Z.to_nat (option_count g))) by lia.
  erewrite take_S_r by (apply list_lookup_insert_eq; lia).
  rewrite take_insert_ge by lia. rewrite map_app. cbn [map]. by rewrite Hdata.
Qed.

Definition same_but_options (g g' : Feedback) : Prop :=
  f_cid g' = f_cid g /\ f_type g' = f_type g /\ has_mode g' = has_mode g /\
  f_mode g' = f_mode g /\ acknowledgment_valid g' = acknowledgment_valid g /\
  context_revision_valid g' = context_revision_valid g /\ crc_present g' = crc_present g.

Lemma with_options_view l g :
  Forall option_ok l -> 0 <= option_count g -> option_count g + Z.of_nat (length l) <= 4 ->
  length (options g) = 4%nat ->
  let g' := fold_left with_option l g in
  options_view g' = options_view g ++ map (fun o => (o_type o, option_data o)) l /\
  same_but_options g g'.
Proof.
  revert g. induction l as [|o l IH]; intros g Hok H0 Hc Hl; cbn [fold_left map].
  - rewrite app_nil_r. split; [done|]. by repeat split.
  - apply Forall_cons_iff in Hok as [Ho Hok]. cbn [length] in Hc.
    destruct (IH (with_option g o)) as [V S]; [done|..].
    + cbn. lia.
    + change (option_count (with_option g o)) with (option_count g + 1). lia.
    + cbn. rewrite length_insert. done.
    + cbv zeta. rewrite V, with_option_view, <- app_assoc by (done || lia). split; [done|exact S].
Qed.

(** ** Any octets *)

(** What holds of the feedback being read: its arrays are never overrun and it
    acknowledges no packet. *)
Definition partial_ok (g : Feedback) : Prop :=
  0 <= f_cid g <= 0x0F /\ 0 <= option_count g <= 4 /\ length (options g) = 4%nat /\
  acknowledgment_valid g = false.

Lemma wp_read_options fuel inp pos body_end g :
  bytes_ok inp -> size_ok (blen inp) -> 0 <= pos <= body_end -> body_end <= blen inp ->
  body_end - pos <= Z.of_nat fuel -> partial_ok g ->
  wp (read_options fuel inp pos body_end) (fun p g' => p = body_end /\ partial_ok g') partial_ok g.
Proof.
  intros Hi Hs. revert pos g. induction fuel as [|fuel IH]; intros pos g Hp He Hf Hg;
    cbn [read_options]; destruct (Z.ltb_spec pos body_end); try lia;
    try (apply wp_ret; split; [lia|done]).
  unfold size_ok in Hs. pose proof Hg as (Hc & Hn & Hl & Ha).
  apply wp_bind, wp_gets, wp_bind. rewrite usub_small by lia.
  apply wp_guard; intros G; [|done]. bool_prop.
  apply wp_bind, wp_rd; [lia|]. intros type Ht.
  apply wp_bind, wp_rd; [lia|]. intros len Hlen. specialize (Hlen Hi). unfold byte_ok in Hlen.
  apply wp_bind. rewrite usub_small by lia. apply wp_guard; intros G2; [|done]. bool_prop.
  apply wp_bind, wp_tail_from; [lia|]. intros t Htl _.
  apply wp_bind, wp_gets, wp_bind, wp_lift.
  unfold add_feedback_option. rewrite (proj2 (Z.leb_gt 4 (option_count g))) by lia.
  rewrite (proj2 (Z.ltb_ge 4 len)) by lia. cbn [orb negb oguard obind].
  destruct (slice_in_range t 0 len ltac:(lia) ltac:(lia) ltac:(lia)) as (v & Ev & Hv & _).
  rewrite Ev. cbn [obind]. rewrite overwrite_fits by (unfold blen in Hv; cbn; lia). cbn [obind].
  apply wp_bind, wp_modify. apply IH; [lia..|].
  unfold partial_ok. cbn. rewrite length_insert. split_and!; (done || lia).
Qed.

Lemma wp_read_feedback_packet inp consumed s :
  bytes_ok inp -> size_ok (blen inp) ->
  wp (read_feedback_packet inp consumed)
     (fun n g => 2 <= n <= blen inp /\ (consumed = false -> n = blen inp) /\ partial_ok g)
     partial_ok s.
Proof.
  intros Hi Hs. unfold read_feedback_packet, fupd. unfold size_ok in Hs.
  assert (H0 : partial_ok empty_feedback) by (vm_compute; split_and!; congruence).
  apply wp_bind, wp_modify, wp_bind, wp_guard; intros G; [|done]. bool_prop.
  apply wp_bind, wp_rd; [lia|]. intros i0 _. apply wp_bind, wp_guard; intros G0; [|done].
  apply wp_bind.
  apply (wp_mono _ (fun size g => 1 <= fst size <= 2 /\ fst size <= blen inp /\
    0 <= snd size < 256 /\ partial_ok g) _ partial_ok _); [|done|].
  2: { apply wp_if; intros Ec.
       - apply wp_bind, wp_guard; intros G1; [|done]. bool_prop.
         apply wp_bind, wp_rd; [lia|]. intros i1 Hi1. apply wp_ret. cbn.
         specialize (Hi1 Hi). unfold byte_ok in Hi1. split_and!; (done || lia).
       - apply wp_ret. cbn. pose proof (land_range i0 0x07 ltac:(lia)). split_and!; (done || lia). }
  intros [pos body_len] g (Hp & Hpl & Hbl & Hg). cbn [fst snd] in *.
  apply wp_bind. rewrite usub_small by lia. apply wp_guard; intros G1; [|done]. bool_prop.
  rewrite (proj2 (Z.ltb_lt pos (pos + body_len))) by lia.
  apply wp_bind, wp_rd; [lia|]. intros b Hb. apply wp_bind.
  apply (wp_mono _ (fun p g => pos <= p <= pos + 1 /\ partial_ok g) _ partial_ok _); [|done|].
  2: { pose proof (land_range b 0x0F ltac:(lia)).
       apply wp_if; intros Ec.
       - apply wp_bind, wp_modify, wp_bind.
         assert (Hg' : partial_ok (g <| f_cid := Z.land b 0x0F |>)).
         { destruct Hg as (? & ? & ? & ?). unfold partial_ok. cbn. split_and!; (done || lia). }
         apply wp_guard; intros G2; [|done]. apply wp_ret. split; [lia|done].
       - apply wp_ret. split; [lia|done]. }
  intros p g1 (Hp1 & Hg1). apply wp_bind.
  apply (wp_mono _ (fun q g => q = pos + body_len /\ partial_ok g) _ partial_ok _); [|done|].
  { intros q g2 (-> & Hg2). apply wp_bind, wp_guard; intros G2; [|done]. apply wp_ret.
    split_and!; [lia|lia| |done]. intros ->. cbn in G2. bool_prop. done. }
  unfold read_feedback_data, fupd. rewrite usub_small by lia.
  apply wp_bind, wp_guard; intros G2; [|done]. bool_prop.
  apply wp_bind, wp_rd; [lia|]. intros code _.
  destruct (feedback_type_from_ack_type _) as [t|]; [|by apply wp_lift].
  apply wp_bind, wp_modify, wp_bind.
  assert (Hg2 : partial_ok (g1 <| f_type := t |>)) by exact Hg1.
  revert Hg2. generalize (g1 <| f_type := t |>). clear g1 Hg1. intros g1 Hg1.
  apply (wp_mono _ (fun _ => partial_ok) _ partial_ok _); [|done|].
  2: { apply wp_if; intros; [|by apply wp_ret]. apply wp_bind, wp_guard; intros; [|done].
       apply wp_modify. exact Hg1. }
  intros _ g2 Hg2. apply wp_if; intros _.
  - apply wp_bind, wp_guard; intros G3; [|done]. bool_prop.
    apply wp_bind, wp_rd; [lia|]. intros ol _. apply wp_bind, wp_guard; intros _; [|done].
    apply wp_read_options; done || lia.
  - apply wp_bind, wp_guard; intros G3; [|done]. bool_prop. apply wp_ret. split; [lia|done].
Qed.

(** C34: A feedback packet with options is written when its CID is at most 15 and
    it fits, and refused otherwise; what is written, with anything after it, is
    read back as the same CID, type, mode request and options, and the length
    of the packet; written before a packet (piggybacked) it is split off again.
    On any octets the reader stays inside them and never answers feedback that
    acknowledges a packet. *)
Theorem feedback_packet_roundtrip f (Hf : feedback_ok f) :
  (forall cap, write_feedback_packet f {| w_out := []; w_cap := cap |} =
     if (f_cid f <=? 0x0F) && (blen (packet_octets f) <=? cap)
     then (Ok tt, {| w_out := packet_octets f; w_cap := cap |})
     else (Rej, {| w_out := []; w_cap := cap |})) /\
  (forall cap packet s, f_cid f <= 0x0F -> blen (packet_octets f) + blen packet <= cap ->
     cap < 2 ^ 63 ->
     exists wire g n,
       write_piggybacked_feedback f packet {| w_out := []; w_cap := cap |} =
         (Ok tt, {| w_out := wire; w_cap := cap |}) /\
       read_feedback_prefix wire s = (Ok n, g) /\ drop (Z.to_nat n) wire = packet /\
       f_cid g = f_cid f /\ f_type g = f_type f /\ has_mode g = has_mode f /\
       (has_mode f = true -> f_mode g = f_mode f) /\ options_view g = options_view f) /\
  (forall inp consumed s, bytes_ok inp -> size_ok (blen inp) ->
     exists o g, read_feedback_packet inp consumed s = (o, g) /\ o <> Ub /\
       (forall n, o = Ok n -> 0 <= n <= blen inp) /\
       forall ctx, current_ack ctx g = false).
Proof.
  split_and!.
  - intros cap. by apply write_feedback_exact.
  - intros cap packet s Hc Hcap H63. pose proof (blen_nonneg packet).
    exists (packet_octets f ++ packet), (packet_received f), (blen (packet_octets f)).
    assert (Hsz : size_ok (blen (packet_octets f ++ packet))).
    { unfold size_ok. rewrite blen_app. pose proof (blen_nonneg (packet_octets f)). lia. }
    split; [|split; [|split]].
    + unfold write_piggybacked_feedback. erewrite bind_ok by reflexivity. cbn [w_cap].
      erewrite bind_ok.
      2: { rewrite write_feedback_exact by done. rewrite (proj2 (Z.leb_le _ 0x0F)) by done.
           rewrite (proj2 (Z.leb_le _ cap)) by lia. reflexivity. }
      erewrite bind_ok by reflexivity. cbn [w_out].
      rewrite (proj2 (Z.ltb_ge cap _)) by lia. erewrite bind_ok by reflexivity.
      by rewrite puts_ok by blen_lia.
    + unfold read_feedback_prefix. apply read_packet_octets; auto.
    + unfold blen. by rewrite Nat2Z.id, drop_app_length.
    + pose proof (sent_options_ok f Hf) as [Ho Hl]. destruct Hf as (_ & Hcn & _).
      unfold packet_received.
      assert (Hb : option_count (received_base f) = 0 /\ length (options (received_base f)) = 4%nat /\
        options_view (received_base f) = []) by (unfold received_base; by destruct (has_mode f)).
      destruct Hb as (B1 & B2 & B3).
      destruct (with_options_view (sent_options f) (received_base f) Ho ltac:(lia) ltac:(lia) B2)
        as (V & S1 & S2 & S3 & S4 & _).
      rewrite S1, S2, S3, S4, V, B3. unfold received_base.
      destruct (has_mode f); split_and!; done.
  - intros inp consumed s Hi Hs. pose proof (wp_read_feedback_packet inp consumed s Hi Hs) as W.
    unfold wp in W. destruct (read_feedback_packet inp consumed s) as [o g]. exists o, g.
    destruct o as [n| |]; [destruct W as (Hn & _ & W)| |done];
      (split_and!; [done|done|intros ? [=]; lia|]); intros ctx; destruct W as (_ & _ & _ & W);
      unfold current_ack; rewrite W, andb_false_r; done.
Qed.

Lemma feedback_packet_roundtrip_witness :
  let f := empty_feedback <| f_cid := 3 |> <| f_type := ACK |> in
  exists wire g n,
    write_piggybacked_feedback f [0xFD; 0x01] {| w_out := []; w_cap := 32 |} =
      (Ok tt, {| w_out := wire; w_cap := 32 |}) /\
    read_feedback_prefix wire empty_feedback = (Ok n, g) /\ drop (Z.to_nat n) wire = [0xFD; 0x01].
Proof.
  intros f. destruct (feedback_packet_roundtrip f) as (_ & H & _).
  - unfold feedback_ok, option_ok, byte_ok. vm_compute. split_and!; try congruence.
    repeat constructor; vm_compute; congruence.
  - destruct (H 32 [0xFD; 0x01] empty_feedback) as (wire & g & n & H1 & H2 & H3 & _);
      [vm_compute; congruence|vm_compute; congruence|vm_compute; reflexivity|].
    exists wire, g, n. split; [exact H1|]. split; [exact H2|exact H3].
Defined.
