(* ===== verification/Packets.v ===== *)
(** * Telling packets apart: include/rohccxx/core/packet_type.hpp, segment.hpp,
    classify.hpp and the parsers of protocols/

    [parse_rohc_packet] finds the CID and the type of a received packet before
    a decoder is chosen; [classify_packet] finds the profile of an IP packet
    before it is compressed. *)

From S2P Require Import Prelude Crc Cid Encoding Context Cursor Chains EmitIr DecodeIr.
From S2P Require Import StandardIr Safety IrProperties Lla Compressor PrivateFo Feedback FeedbackPackets.

(** ** Segments *)

Record SegmentHeader := mkSegment { final : bool; sequence : Z }.

Definition read_segment_header (inp : bytes) : outcome SegmentHeader :=
  check negb (blen inp <? 2) in
  let! b0 := rd inp 0 in
  check Z.land b0 0xFE =? 0xFE in
  let! b1 := rd inp 1 in
  Ok (mkSegment (negb (Z.land b0 0x01 =? 0)) b1).

Definition write_segment_header (segment : SegmentHeader) : M wst unit :=
  r <- gets room ;;
  guard (negb (r <? 2)) ;;;
  put (u8 (Z.lor 0xFE (if final segment then 0x01 else 0x00))) ;;;
  put (Z.land (sequence segment) 0xFF).

Definition write_segment_packet (segment : SegmentHeader) (payload : bytes) : M wst unit :=
  r <- gets room ;;
  guard (negb (r <? 2 + blen payload)) ;;;
  write_segment_header segment ;;;
  puts payload.

(** ** Packet types *)

Inductive RohcPacketType :=
| Unknown | PktUncompressed | PktIR | PktIR_DYN | FormalCO | FO_RTP | FO_UDP | FO_IP | FO_ESP
| FO_UDP_Lite | LLA_ContextSync | LLA_ContextCheck | PktFeedback | Segment.

#[export] Instance RohcPacketType_eq_dec : EqDecision RohcPacketType.
Proof. solve_decision. Defined.
Definition type_eqb (a b : RohcPacketType) : bool := bool_decide (a = b).

(** The pointers of the source are the buffers they point to, with their
    lengths. *)
Record ParsedRohcPacket := mkParsed {
  pr_wire : bytes; pr_packet : bytes; pr_cid : Z; pr_has_add_cid : bool;
  pr_has_large_cid : bool; pr_cid_len : Z; pr_type : RohcPacketType; pr_profile_id : Z }.

Definition is_uncompressed_ip_payload (ip : bytes) : outcome bool :=
  if blen ip =? 0 then Ok false else
  let! b0 := rd ip 0 in
  let version := Z.shiftr b0 4 in
  if version =? 4 then
    if blen ip <? 20 then Ok false else
    let ihl := Z.land b0 0x0F * 4 in
    let! total_len := rd_u16 ip 2 in
    Ok ((20 <=? ihl) && (ihl <=? blen ip) && (total_len =? blen ip))
  else if version =? 6 then
    if blen ip <? 40 then Ok false else
    let! payload_len := rd_u16 ip 4 in
    Ok (payload_len + 40 =? blen ip)
  else Ok false.

Definition detect_packet_type (b : Z) : RohcPacketType :=
  if Z.land b 0xFE =? 0xFE then Segment
  else if b =? packet_type_csp then LLA_ContextSync
  else if b =? packet_type_ccp then LLA_ContextCheck
  else if Z.land b 0xF8 =? 0xF0 then PktFeedback
  else if Z.land b 0xFE =? 0xFC then PktIR
  else if b =? 0xF8 then PktIR_DYN
  else if b =? 0x7A then FO_UDP
  else if b =? 0x79 then FO_IP
  else if b =? 0x78 then FO_ESP
  else if b =? 0x77 then FO_UDP_Lite
  else if (Z.land b 0xE0 =? 0x80) || (Z.land b 0xE0 =? 0xA0) then FormalCO
  else if Z.land b 0x80 =? 0x00 then FO_RTP
  else Unknown.

(** From the packet after an Add-CID octet on. *)
Definition parse_from_packet (inp packet : bytes) (cid : Z) (add_cid large_cid_space : bool)
    : outcome ParsedRohcPacket :=
  check negb (blen packet =? 0) in
  let! p0 := rd packet 0 in
  let! uncompressed := is_uncompressed_ip_payload packet in
  let type := if uncompressed then PktUncompressed else detect_packet_type p0 in
  let reads_cid := large_cid_space && negb (type_eqb type PktUncompressed) in
  let! large :=
    if reads_cid then
      check negb (blen packet <? 2) in
      let! t := tail_from packet 1 in
      read_large t
    else Ok (cid, 0) in
  if type_eqb type PktIR || type_eqb type PktIR_DYN then
    let profile_pos := if large_cid_space then 1 + snd large else 1 in
    check negb (blen packet <=? profile_pos) in
    let! profile_id := rd packet profile_pos in
    check negb (type_eqb type Unknown) in
    Ok (mkParsed inp packet (fst large) add_cid reads_cid (snd large) type profile_id)
  else
    let cid := if type_eqb type FO_RTP && negb large_cid_space && negb add_cid
               then Z.land (Z.shiftr p0 2) 0x0F else fst large in
    check negb (type_eqb type Unknown) in
    Ok (mkParsed inp packet cid add_cid reads_cid (snd large) type 0).

Definition parse_rohc_packet (inp : bytes) (large_cid_space : bool) : outcome ParsedRohcPacket :=
  check negb (blen inp =? 0) in
  let! b0 := rd inp 0 in
  if negb large_cid_space && (Z.land b0 0xF0 =? 0xE0) then
    check negb (blen inp <? 2) in
    let! packet := tail_from inp 1 in
    parse_from_packet inp packet (Z.land b0 0x0F) true large_cid_space
  else parse_from_packet inp inp 0 false large_cid_space.

Definition decoder_packet (parsed : ParsedRohcPacket) : bytes :=
  if pr_has_add_cid parsed && (type_eqb (pr_type parsed) PktIR || type_eqb (pr_type parsed) PktIR_DYN)
  then pr_wire parsed else pr_packet parsed.

(** ** Protocol headers *)

(** [ipv4::parse]: the header length. *)
Definition ipv4_parse (data : bytes) : outcome Z :=
  check negb (blen data <? 20) in
  let! vihl := rd data 0 in
  check Z.shiftr vihl 4 =? 4 in
  let header_len := Z.land vihl 0x0F * 4 in
  check negb ((header_len <? 20) || (blen data <? header_len)) in
  Ok header_len.

Definition is_extension_header (next_header : Z) : bool :=
  (next_header =? 0) || (next_header =? 43) || (next_header =? 44) || (next_header =? 60).

Definition extension_header_len (data : bytes) (len next_header : Z) : outcome Z :=
  if next_header =? 44 then check 8 <=? len in Ok 8
  else
    check negb (len <? 2) in
    let! d1 := rd data 1 in
    let header_len := (d1 + 1) * 8 in
    check (8 <=? header_len) && (header_len <=? len) in
    Ok header_len.

(** The walk over extension headers; each takes eight octets at least. *)
Fixpoint ipv6_walk (fuel : nat) (data : bytes) (total_len next pos extension_len : Z)
    : outcome (Z * Z * Z) :=
  if is_extension_header next then
    match fuel with
    | O => Ub
    | S fuel =>
        let! rest := tail_from data pos in
        let! ext_len := extension_header_len rest (usub total_len pos) next in
        let! next := rd data pos in
        ipv6_walk fuel data total_len next (pos + ext_len) (extension_len + ext_len)
    end
  else Ok (pos, next, extension_len).

(** [ipv6::parse]: header length, terminal next header, extension length. *)
Definition ipv6_parse (data : bytes) : outcome (Z * Z * Z) :=
  check negb (blen data <? 40) in
  let! first_word := rd_u32 data 0 in
  check Z.shiftr first_word 28 =? 6 in
  let! payload_length := rd_u16 data 4 in
  let total_len := 40 + payload_length in
  check negb (blen data <? total_len) in
  let! next := rd data 6 in
  ipv6_walk (Z.to_nat total_len) data total_len next 40 0.

(** [utils::bounds_check] of [want] octets at offset [off]. *)
Definition bounds_check (len off want : Z) : bool := (0 <=? off) && (off + want <=? len).

Definition udp_header_size : Z := 8.
Definition rtp_header_size : Z := 12.

Definition udp_parse (data : bytes) (off : Z) : bool := bounds_check (blen data) off udp_header_size.

Definition rtp_parse (data : bytes) (off : Z) : outcome bool :=
  if negb (bounds_check (blen data) off rtp_header_size) then Ok false else
  let! vpxcc := rd data off in
  Ok (Z.shiftr vpxcc 6 =? 2).

(** ** The profile of an IP packet *)

(** From the transport protocol on. *)
Definition classify_transport (pkt : bytes) (transport protocol : Z) : outcome Profile :=
  if protocol =? 17 then
    if negb (udp_parse pkt transport) then Ok Uncompressed else
    let! is_rtp := rtp_parse pkt (transport + udp_header_size) in
    Ok (if is_rtp then RTP else UDP)
  else if protocol =? 50 then Ok ESP
  else if protocol =? 136 then
    if negb (udp_parse pkt transport) then Ok Uncompressed else
    let! is_rtp := rtp_parse pkt (transport + udp_header_size) in
    Ok (if is_rtp then RTP_UDP_Lite else UDP_Lite)
  else Ok IP.

Definition classify_packet (pkt : bytes) : outcome Profile :=
  match ipv4_parse pkt with
  | Ok ip_hlen =>
      let! flags_fragment := rd_u16 pkt 6 in
      if is_fragmented flags_fragment then Ok Uncompressed else
      let! protocol := rd pkt 9 in
      classify_transport pkt ip_hlen protocol
  | Ub => Ub
  | Rej =>
      match ipv6_parse pkt with
      | Ok (header_len, protocol, _) => classify_transport pkt header_len protocol
      | Rej => Ok Uncompressed
      | Ub => Ub
      end
  end.

(** * The parsers stay inside the packet *)

Lemma uncompressed_safe ip : exists b, is_uncompressed_ip_payload ip = Ok b.
Proof.
  unfold is_uncompressed_ip_payload. destruct (Z.eqb_spec (blen ip) 0); [by eexists|].
  pose proof (blen_nonneg ip). destruct (rd_in_range ip 0 ltac:(lia)) as (b0 & -> & _). cbn [obind].
  destruct (_ =? 4).
  - destruct (Z.ltb_spec (blen ip) 20); [by eexists|].
    destruct (rd_u16_in_range ip 2 ltac:(lia) ltac:(lia)) as (v & -> & _). by eexists.
  - destruct (_ =? 6); [|by eexists]. destruct (Z.ltb_spec (blen ip) 40); [by eexists|].
    destruct (rd_u16_in_range ip 4 ltac:(lia) ltac:(lia)) as (v & -> & _). by eexists.
Qed.

(** An outcome that is a value with a property, or a refusal. *)
Definition yields {A} (o : outcome A) (P : A -> Prop) : Prop :=
  match o with Ok a => P a | Rej => True | Ub => False end.

Lemma yields_bind {A B} (o : outcome A) (k : A -> outcome B) P Q :
  yields o P -> (forall a, P a -> yields (k a) Q) -> yields (obind o k) Q.
Proof. destruct o; cbn; auto. Qed.

Lemma yields_guard {B} b (k : unit -> outcome B) Q :
  (b = true -> yields (k tt) Q) -> yields (obind (oguard b) k) Q.
Proof. destruct b; cbn; auto. Qed.

Lemma yields_mono {A} (o : outcome A) (P Q : A -> Prop) :
  yields o P -> (forall a, P a -> Q a) -> yields o Q.
Proof. destruct o; cbn; auto. Qed.

Lemma yields_rd l i : bytes_ok l -> 0 <= i < blen l -> yields (rd l i) byte_ok.
Proof. intros Hl Hi. destruct (rd_in_range l i Hi) as (b & -> & H). by apply H. Qed.

Lemma yields_rd_u16 l i :
  bytes_ok l -> 0 <= i -> i + 2 <= blen l -> yields (rd_u16 l i) (fun v => 0 <= v < 2 ^ 16).
Proof. intros Hl H0 H1. destruct (rd_u16_in_range l i H0 H1) as (v & -> & H). by apply H. Qed.

Lemma yields_read_large t : bytes_ok t ->
  yields (read_large t) (fun r => 0 <= fst r <= large_cid_max /\ 1 <= snd r <= 2 /\ snd r <= blen t).
Proof.
  intros Ht. pose proof (read_large_inv t Ht) as H. pose proof (read_large_bounds t) as B.
  destruct (read_large t) as [[v n]| |]; cbn; [|done..].
  destruct (B v n Ht eq_refl) as (? & _ & ? & ?). done.
Qed.

(** What is known of a parsed packet: the buffers are the input without the
    Add-CID octet, and the CID fits its encoding. *)
Definition parsed_ok (inp : bytes) (large_cid_space : bool) (r : ParsedRohcPacket) : Prop :=
  pr_wire r = inp /\ pr_packet r = (if pr_has_add_cid r then drop 1 inp else inp) /\
  pr_packet r <> [] /\ pr_type r <> Unknown /\
  0 <= pr_cid r <= (if large_cid_space then large_cid_max else small_cid_max) /\ 0 <= pr_cid_len r.

Lemma parse_from_packet_ok inp packet cid (add large : bool) :
  bytes_ok packet -> packet = (if add then drop 1 inp else inp) ->
  0 <= cid <= small_cid_max -> (add = true -> large = false) ->
  yields (parse_from_packet inp packet cid add large) (parsed_ok inp large).
Proof.
  intros Hp He Hc Ha. unfold parse_from_packet. pose proof (blen_nonneg packet).
  apply yields_guard; intros G. bool_prop.
  assert (Hne : packet <> []) by (by intros ->).
  assert (Hcl : 0 <= cid <= (if large then large_cid_max else small_cid_max))
    by (unfold large_cid_max, small_cid_max in *; destruct large; lia).
  eapply yields_bind; [apply yields_rd; [done|lia]|]. intros p0 Hp0. cbv beta in Hp0.
  destruct (uncompressed_safe packet) as (u & ->). cbn [obind]. cbv zeta.
  set (type := if u then PktUncompressed else detect_packet_type p0).
  apply (yields_bind _ _ (fun r : Z * Z =>
    0 <= fst r <= (if large then large_cid_max else small_cid_max) /\
    0 <= snd r /\ 0 <= snd r <= blen packet)).
  { destruct (large && negb (type_eqb type PktUncompressed)) eqn:El; [|cbn; split_and!; lia].
    apply andb_true_iff in El as [-> _]. apply yields_guard; intros G2. bool_prop.
    destruct (tail_from_in_range packet 1 ltac:(lia)) as (t & -> & Ht & Htok). cbn [obind].
    eapply yields_mono; [by apply yields_read_large, Htok|]. cbv beta.
    intros r (? & ? & ?). split_and!; lia. }
  intros [v n] (Hv & Hn & _). cbn [fst snd] in *.
  destruct (type_eqb type PktIR || type_eqb type PktIR_DYN).
  - apply yields_guard; intros G2. bool_prop.
    eapply yields_bind; [apply yields_rd; [done|destruct large; lia]|]. intros pid _.
    apply yields_guard; intros G3. unfold type_eqb in G3. bool_prop.
    unfold parsed_ok. cbn. split_and!; try done; lia.
  - apply yields_guard; intros G3. unfold type_eqb in G3. bool_prop.
    unfold parsed_ok. cbn. split_and!; try done.
    all: destruct (type_eqb type FO_RTP && negb large && negb add) eqn:Ef; [|lia].
    all: apply andb_true_iff in Ef as [Ef _]; apply andb_true_iff in Ef as [_ Ef];
      apply negb_true_iff in Ef; subst large; pose proof (land_range (Z.shiftr p0 2) 0x0F ltac:(lia));
      unfold small_cid_max; lia.
Qed.

Lemma parse_rohc_packet_ok inp large :
  bytes_ok inp -> yields (parse_rohc_packet inp large) (parsed_ok inp large).
Proof.
  intros Hi. unfold parse_rohc_packet. pose proof (blen_nonneg inp).
  apply yields_guard; intros G. bool_prop.
  eapply yields_bind; [apply yields_rd; [done|lia]|]. intros b0 _.
  destruct (negb large && _) eqn:E.
  - apply andb_true_iff in E as [E _]. apply negb_true_iff in E. subst large.
    apply yields_guard; intros G2. bool_prop.
    assert (T : tail_from inp 1 = Ok (drop 1 inp)).
    { unfold tail_from. by rewrite (proj2 (Z.ltb_ge (blen inp) 1)) by lia. }
    rewrite T. cbn [obind]. apply parse_from_packet_ok; [by apply bytes_ok_drop|done| |done].
    apply land_range. unfold small_cid_max. lia.
  - by apply parse_from_packet_ok.
Qed.

Lemma extension_header_len_ok data len next :
  bytes_ok data -> 0 <= len <= blen data ->
  yields (extension_header_len data len next) (fun n => 8 <= n <= len).
Proof.
  intros Hd Hl. unfold extension_header_len. destruct (next =? 44).
  - apply yields_guard; intros G. bool_prop. cbn. lia.
  - apply yields_guard; intros G. bool_prop.
    eapply yields_bind; [apply yields_rd; [done|lia]|]. intros d1 _.
    apply yields_guard; intros G2. bool_prop. cbn. lia.
Qed.

Lemma ipv6_walk_ok fuel data total next pos ext :
  bytes_ok data -> total <= blen data -> total < 2 ^ 64 -> 40 <= pos <= total ->
  total - pos < Z.of_nat fuel ->
  yields (ipv6_walk fuel data total next pos ext) (fun r => 40 <= fst (fst r) <= total).
Proof.
  intros Hd Ht H64. revert next pos ext. induction fuel as [|fuel IH]; intros next pos ext Hp Hf;
    [lia|]. cbn [ipv6_walk]. destruct (is_extension_header next); [|done].
  destruct (tail_from_in_range data pos ltac:(lia)) as (rest & -> & Hr & Hrok). cbn [obind].
  eapply yields_bind; [apply extension_header_len_ok; [by apply Hrok|]|].
  { rewrite usub_small by lia. lia. }
  rewrite usub_small by lia. cbv beta. intros n Hn.
  eapply yields_bind; [apply yields_rd; [done|lia]|]. intros next' _. apply IH; lia.
Qed.

Lemma ipv6_parse_ok data : bytes_ok data ->
  yields (ipv6_parse data) (fun r => 40 <= fst (fst r) <= blen data).
Proof.
  intros Hd. unfold ipv6_parse. apply yields_guard; intros G. bool_prop.
  destruct (rd_u32_in_range data 0 ltac:(lia) ltac:(lia)) as (w & -> & _). cbn [obind].
  apply yields_guard; intros G2.
  eapply yields_bind; [apply yields_rd_u16; [done|lia|lia]|]. cbv beta. intros n Hn.
  apply yields_guard; intros G3. bool_prop.
  eapply yields_bind; [apply yields_rd; [done|lia]|]. intros next _.
  eapply yields_mono; [apply ipv6_walk_ok; try done; lia|]. cbv beta. intros r Hr. lia.
Qed.

Lemma rtp_parse_ok data off : bytes_ok data -> exists b, rtp_parse data off = Ok b.
Proof.
  intros Hd. unfold rtp_parse, bounds_check, rtp_header_size.
  destruct (_ && _) eqn:E; cbn [negb]; [|by eexists]. bool_prop.
  destruct (rd_in_range data off ltac:(lia)) as (b & -> & _). by eexists.
Qed.

Lemma classify_transport_ok pkt off protocol :
  bytes_ok pkt -> exists p, classify_transport pkt off protocol = Ok p.
Proof.
  intros Hp. destruct (rtp_parse_ok pkt (off + udp_header_size) Hp) as [b Hb].
  unfold classify_transport. rewrite Hb.
  destruct (protocol =? 17); [|destruct (protocol =? 50); [|destruct (protocol =? 136)]];
    try destruct (udp_parse pkt off); by eexists.
Qed.

(** Every packet has a profile. *)
Lemma classify_packet_ok pkt : bytes_ok pkt -> exists p, classify_packet pkt = Ok p.
Proof.
  intros Hp. unfold classify_packet.
  assert (H4 : yields (ipv4_parse pkt) (fun n => 20 <= n <= blen pkt)).
  { unfold ipv4_parse. apply yields_guard; intros G. bool_prop.
    eapply yields_bind; [apply yields_rd; [done|lia]|]. intros v _.
    apply yields_guard; intros G2. apply yields_guard; intros G3. bool_prop. cbn. lia. }
  destruct (ipv4_parse pkt) as [n| |]; cbn in H4; [| |done].
  - destruct (rd_u16_in_range pkt 6 ltac:(lia) ltac:(lia)) as (ff & -> & _). cbn [obind].
    destruct (is_fragmented ff); [by eexists|].
    destruct (rd_in_range pkt 9 ltac:(lia)) as (pr & -> & _). by apply classify_transport_ok.
  - pose proof (ipv6_parse_ok pkt Hp) as H6.
    destruct (ipv6_parse pkt) as [[[n next] e]| |]; [|by eexists|done].
    by apply classify_transport_ok.
Qed.

(** On any octets the packet parser and the classifier read only inside
    their input; parsing answers the input without its Add-CID octet, a known
    type and a CID its encoding can hold, or refuses; classification always
    answers, and for any packet the compressor can read it answers RTP when the
    RTP version is 2 and UDP otherwise. *)
Theorem packet_parsers_safe inp (Hi : bytes_ok inp) :
  (forall large, yields (parse_rohc_packet inp large) (parsed_ok inp large)) /\
  (exists p, classify_packet inp = Ok p) /\
  (forall ctx ctx', capture_rtp_packet inp ctx = Ok ctx' ->
     exists v, rd inp 28 = Ok v /\
       classify_packet inp = Ok (if Z.shiftr v 6 =? 2 then RTP else UDP)).
Proof.
  split; [intros; by apply parse_rohc_packet_ok|]. split; [by apply classify_packet_ok|].
  intros ctx ctx' E. unfold capture_rtp_packet in E.
  destruct (Z.ltb_spec (blen inp) 40) as [|Hl]; [done|]. cbn [negb oguard obind] in E.
  unfold classify_packet, ipv4_parse. rewrite (proj2 (Z.ltb_ge (blen inp) 20)) by lia.
  cbn [negb oguard obind].
  destruct (rd_u16_in_range inp 6 ltac:(lia) ltac:(lia)) as (ff & Eff & _). rewrite Eff in E |- *.
  cbn [obind] in E. destruct (is_fragmented ff) eqn:Efr; [done|]. cbn [negb oguard obind] in E.
  destruct (rd_in_range inp 0 ltac:(lia)) as (b0 & E0 & _). rewrite E0 in E |- *. cbn [obind] in E |- *.
  destruct (rd_in_range inp 9 ltac:(lia)) as (pr & E9 & _). rewrite E9 in E |- *. cbn [obind] in E |- *.
  destruct (Z.eqb_spec (Z.shiftr b0 4) 4); [|done]. cbn [negb orb oguard obind] in E |- *.
  destruct (Z.eqb_spec (Z.land b0 0x0F) 5) as [E5|]; [|done]. rewrite E5. cbn [negb orb] in E.
  destruct (Z.eqb_spec pr 17) as [Epr|]; [|done]. clear E. rewrite Epr.
  change (5 * 4) with 20. change (20 <? 20) with false. rewrite (proj2 (Z.ltb_ge (blen inp) 20)) by lia.
  cbn [orb negb oguard obind]. rewrite Efr.
  destruct (rd_in_range inp 28 ltac:(lia)) as (v & E28 & _). exists v. split; [done|].
  unfold classify_transport, udp_parse, rtp_parse, bounds_check, udp_header_size, rtp_header_size.
  change (17 =? 17) with true. change (20 + 8) with 28. change (28 + 12) with 40.
  rewrite (proj2 (Z.leb_le 28 (blen inp))), (proj2 (Z.leb_le 40 (blen inp))) by lia.
  change ((0 <=? 20) && true) with true. change ((0 <=? 28) && true) with true. cbn [negb].
  by rewrite E28.
Qed.

Lemma packet_parsers_safe_witness :
  exists p, classify_packet [0x60; 0; 0; 0; 0; 8; 43; 64] = Ok p.
Proof. apply (packet_parsers_safe [0x60; 0; 0; 0; 0; 8; 43; 64]). repeat constructor; vm_compute; congruence. Defined.

(** * What an emitter wrote is recognised *)

(** An octet that starts neither an IP packet nor an Add-CID prefix, of a type
    that says where everything is. *)
Definition plain_tag (t : Z) : bool :=
  negb (Z.shiftr t 4 =? 4) && negb (Z.shiftr t 4 =? 6) && negb (Z.land t 0xF0 =? 0xE0) &&
  negb (type_eqb (detect_packet_type t) Unknown) && negb (type_eqb (detect_packet_type t) FO_RTP).

Definition is_ir (t : RohcPacketType) : bool := type_eqb t PktIR || type_eqb t PktIR_DYN.

Lemma plain_tag_spec t : plain_tag t = true ->
  Z.shiftr t 4 <> 4 /\ Z.shiftr t 4 <> 6 /\ (Z.land t 0xF0 =? 0xE0) = false /\
  type_eqb (detect_packet_type t) Unknown = false /\
  type_eqb (detect_packet_type t) FO_RTP = false /\
  type_eqb (detect_packet_type t) PktUncompressed = false.
Proof.
  unfold plain_tag. rewrite !andb_true_iff, !negb_true_iff.
  intros [[[[?%Z.eqb_neq ?%Z.eqb_neq] ?] ?] ?]. split_and!; try done.
  apply bool_decide_eq_false. unfold detect_packet_type. by repeat case_match.
Qed.

Lemma tagged_not_uncompressed t l :
  plain_tag t = true -> is_uncompressed_ip_payload (t :: l) = Ok false.
Proof.
  intros (? & ? & _)%plain_tag_spec. unfold is_uncompressed_ip_payload.
  pose proof (blen_nonneg l). rewrite blen_cons, (proj2 (Z.eqb_neq _ 0)) by lia. rd_simp.
  by rewrite (proj2 (Z.eqb_neq _ 4)), (proj2 (Z.eqb_neq _ 6)) by done.
Qed.

Lemma parse_tagged inp t c pid rest cid add (large : bool) :
  plain_tag t = true -> 0 <= c <= large_cid_max ->
  let packet := t :: (if large then large_octets c else []) ++ pid :: rest in
  parse_from_packet inp packet cid add large =
  Ok (mkParsed inp packet (if large then c else cid) add large (if large then encoded_len c else 0)
        (detect_packet_type t) (if is_ir (detect_packet_type t) then pid else 0)).
Proof.
  intros Ht Hc packet. unfold packet. unfold parse_from_packet.
  rewrite tagged_not_uncompressed by done. pose proof (blen_nonneg rest).
  pose proof (blen_nonneg (if large then large_octets c else [])).
  rewrite blen_cons, blen_app, blen_cons.
  rewrite (proj2 (Z.eqb_neq _ 0)) by lia. cbn [negb oguard obind]. rd_simp. cbv zeta.
  destruct (plain_tag_spec t Ht) as (_ & _ & _ & Hk & Hf & Hu).
  set (type := detect_packet_type t) in *. rewrite Hu. cbn [negb].
  rewrite Hf, Hk. unfold is_ir.
  pose proof (encoded_len_bound c) as Hel.
  destruct large; cbn [andb negb].
  - rewrite (proj2 (Z.ltb_ge _ 2)) by (rewrite large_octets_len; lia). cbn [negb oguard obind].
    change (t :: large_octets c ++ pid :: rest) with ([t] ++ large_octets c ++ pid :: rest).
    rewrite (tail_from_app [t]). cbn [obind]. rewrite read_large_octets by done. cbn [obind fst snd].
    destruct (type_eqb type PktIR || type_eqb type PktIR_DYN); [|done].
    rewrite large_octets_len, (proj2 (Z.leb_gt _ _)) by lia. cbn [negb oguard obind].
    replace (rd ([t] ++ large_octets c ++ pid :: rest) (1 + encoded_len c)) with (Ok pid); [done|].
    rewrite app_assoc, <- large_octets_len. symmetry. change 1 with (blen [t]).
    rewrite <- blen_app. apply rd_app_0.
  - cbn [obind fst snd app]. destruct (type_eqb type PktIR || type_eqb type PktIR_DYN); [|done].
    rewrite blen_nil, (proj2 (Z.leb_gt _ 1)) by lia. cbn [negb oguard obind]. rd_simp. done.
Qed.

Lemma parse_packet_tagged t c pid rest (large : bool) :
  plain_tag t = true -> 0 <= c <= large_cid_max ->
  let packet := t :: (if large then large_octets c else []) ++ pid :: rest in
  parse_rohc_packet packet large =
  Ok (mkParsed packet packet (if large then c else 0) false large
        (if large then encoded_len c else 0)
        (detect_packet_type t) (if is_ir (detect_packet_type t) then pid else 0)).
Proof.
  intros Ht Hc packet. unfold parse_rohc_packet.
  assert (Hl : 0 < blen packet) by (unfold packet; rewrite blen_cons;
    pose proof (blen_nonneg ((if large then large_octets c else []) ++ pid :: rest)); lia).
  rewrite (proj2 (Z.eqb_neq _ 0)) by lia. cbn [negb oguard obind].
  assert (R : rd packet 0 = Ok t) by done. rewrite R. cbn [obind].
  destruct (plain_tag_spec t Ht) as (_ & _ & E & _).
  rewrite E, andb_false_r. unfold packet. by rewrite parse_tagged.
Qed.

(** An Add-CID octet before such a packet. *)
Lemma parse_packet_add_cid t c pid rest :
  plain_tag t = true -> 0 <= c <= 0x0F ->
  let packet := t :: pid :: rest in
  let inp := Z.lor 0xE0 (Z.land c 0x0F) :: packet in
  parse_rohc_packet inp false =
  Ok (mkParsed inp packet c true false 0 (detect_packet_type t)
        (if is_ir (detect_packet_type t) then pid else 0)).
Proof.
  intros Ht Hc packet inp. unfold parse_rohc_packet. pose proof (blen_nonneg rest).
  assert (Hl : blen inp = 3 + blen rest) by (unfold inp, packet; rewrite !blen_cons; lia).
  rewrite Hl, (proj2 (Z.eqb_neq _ 0)) by lia. cbn [negb oguard obind].
  assert (R : rd inp 0 = Ok (Z.lor 0xE0 (Z.land c 0x0F))) by done. rewrite R. cbn [obind].
  pose proof (byte_forall (fun c => negb (c <=? 0x0F) ||
    ((Z.land (Z.lor 0xE0 (Z.land c 0x0F)) 0xF0 =? 0xE0) &&
     (Z.land (Z.lor 0xE0 (Z.land c 0x0F)) 0x0F =? c))) ltac:(vm_compute; reflexivity) c
    ltac:(unfold byte_ok; lia)) as D. cbv beta in D.
  rewrite (proj2 (Z.leb_le c 0x0F)) in D by lia. cbn [negb orb] in D. bool_prop.
  rewrite H0, H1. cbn [Z.eqb Pos.eqb andb negb].
  rewrite (proj2 (Z.ltb_ge _ 2)) by lia. cbn [negb oguard obind].
  assert (T : tail_from inp 1 = Ok packet) by (apply (tail_from_app [_] packet)).
  rewrite T. cbn [obind].
  apply (parse_tagged inp t 0 pid rest c true false Ht). unfold large_cid_max. lia.
Qed.

Definition fo_packet_type (p : FoProfile) : RohcPacketType :=
  match p with FoESP => FO_ESP | FoIP => FO_IP | FoUDP => FO_UDP | FoUDPLite => FO_UDP_Lite end.

Lemma cid_ok_range ctx : context_ok ctx -> cid_ok ctx = true ->
  0 <= cid ctx <= large_cid_max /\ (large_cid ctx = false -> cid ctx <= 0x0F).
Proof.
  intros H Hc. pose proof (ok_cid ctx H). unfold cid_ok, is_valid_for_space, is_small in Hc.
  unfold small_cid_max, large_cid_max in *. destruct (large_cid ctx); bool_prop; split; [lia|done|lia..].
Qed.

Lemma ir_dispatch p tx out_len packet payload :
  context_ok tx -> emit_ir p out_len tx = Ok packet ->
  exists r, parse_rohc_packet (packet ++ payload) (large_cid tx) = Ok r /\
    pr_type r = PktIR /\ pr_cid r = cid tx /\ pr_profile_id r = profile_octet p /\
    decoder_packet r = packet ++ payload.
Proof.
  intros Htx E. rewrite emitted in E by done. unfold deliver in E.
  destruct (_ && _) eqn:Hc in E; [|done]. injection E as <-. bool_prop.
  destruct (cid_ok_range tx Htx H) as [Hr Hs].
  unfold header, ir_packet, ir_head. set (crc := crc8 _). set (tail := chains p tx ++ payload).
  assert (Ht : plain_tag 0xFD = true) by reflexivity.
  unfold add_cid_octets, large_cid_octets. rewrite <- !app_assoc. cbn [app]. fold tail.
  destruct (large_cid tx) eqn:El; cbn [negb andb app].
  - eexists. split.
    + apply (parse_packet_tagged 0xFD (cid tx) (profile_octet p) (crc :: tail) true Ht Hr).
    + by destruct p.
  - destruct (Z.ltb_spec 0 (cid tx)) as [Hp|Hz]; cbn [app].
    + eexists. split.
      * apply (parse_packet_add_cid 0xFD (cid tx) (profile_octet p) (crc :: tail) Ht). lia.
      * by destruct p.
    + eexists. split.
      * apply (parse_packet_tagged 0xFD 0 (profile_octet p) (crc :: tail) false Ht).
        unfold large_cid_max. lia.
      * replace (cid tx) with 0 by lia. by destruct p.
Qed.

Lemma fo_dispatch p tx out_len packet payload :
  context_ok tx -> emit_fo p out_len tx = Ok packet ->
  (exists r, parse_rohc_packet (packet ++ payload) (large_cid tx) = Ok r /\
     pr_type r = fo_packet_type p /\ pr_cid r = (if large_cid tx then cid tx else 0) /\
     decoder_packet r = packet ++ payload) /\
  (large_cid tx = false ->
   exists r, parse_rohc_packet (Z.lor 0xE0 (Z.land (cid tx) 0x0F) :: packet ++ payload) false = Ok r /\
     pr_type r = fo_packet_type p /\ pr_cid r = cid tx /\ decoder_packet r = packet ++ payload).
Proof.
  intros Htx E. rewrite emitted_fo in E by done.
  destruct (_ && _) eqn:Hc in E; [|done]. injection E as <-. bool_prop.
  destruct (cid_ok_range tx Htx H) as [Hr Hs].
  unfold fo_packet, fo_octets. set (crc := fo_crc_of _ _ _).
  set (tail := fo_fields (fo_values p tx) ++ payload).
  assert (Ht : plain_tag (fo_type p) = true) by (by destruct p).
  unfold large_cid_octets. rewrite <- !app_assoc. cbn [app]. fold tail. split.
  - eexists. split.
    + apply (parse_packet_tagged (fo_type p) (cid tx) crc tail (large_cid tx) Ht Hr).
    + destruct p, (large_cid tx); done.
  - intros El. rewrite El. cbn [app]. eexists. split.
    + apply (parse_packet_add_cid (fo_type p) (cid tx) crc tail Ht). specialize (Hs El). lia.
    + by destruct p.
Qed.

Lemma write_segment_exact seg payload cap : 2 + blen payload <= cap ->
  write_segment_packet seg payload {| w_out := []; w_cap := cap |} =
  (Ok tt, {| w_out := u8 (Z.lor 0xFE (if final seg then 0x01 else 0x00)) :: Z.land (sequence seg) 0xFF :: payload;
             w_cap := cap |}).
Proof.
  intros H. pose proof (blen_nonneg payload).
  assert (H2 : write_segment_header seg {| w_out := []; w_cap := cap |} =
    (Ok tt, {| w_out := [u8 (Z.lor 0xFE (if final seg then 0x01 else 0x00)); Z.land (sequence seg) 0xFF];
               w_cap := cap |})).
  { unfold write_segment_header. erewrite bind_ok by reflexivity. unfold room. cbn [w_out w_cap].
    rewrite blen_nil, Z.sub_0_r, (proj2 (Z.ltb_ge cap 2)) by lia. erewrite bind_ok by reflexivity.
    unfold put. erewrite bind_ok by (apply puts_ok; blen_lia). by rewrite puts_ok by blen_lia. }
  unfold write_segment_packet. erewrite bind_ok by reflexivity. unfold room. cbn [w_out w_cap].
  rewrite blen_nil, Z.sub_0_r, (proj2 (Z.ltb_ge cap (2 + _))) by lia.
  erewrite bind_ok by reflexivity. erewrite bind_ok by exact H2. by rewrite puts_ok by blen_lia.
Qed.

Lemma segment_dispatch seg payload cap :
  0 <= sequence seg -> 2 + blen payload <= cap -> size_ok cap ->
  exists wire, write_segment_packet seg payload {| w_out := []; w_cap := cap |} =
      (Ok tt, {| w_out := wire; w_cap := cap |}) /\
    read_segment_header wire = Ok (mkSegment (final seg) (sequence seg mod 256)) /\
    drop 2 wire = payload /\ (exists r, parse_rohc_packet wire false = Ok r /\ pr_type r = Segment).
Proof.
  intros Hs Hcap H63. pose proof (blen_nonneg payload).
  exists (u8 (Z.lor 0xFE (if final seg then 0x01 else 0x00)) :: Z.land (sequence seg) 0xFF :: payload).
  split_and!.
  - apply write_segment_exact. lia.
  - unfold read_segment_header. rewrite !blen_cons, (proj2 (Z.ltb_ge _ 2)) by lia.
    cbn [negb oguard obind]. rd_simp. rewrite land_255. by destruct (final seg).
  - done.
  - eexists. split.
    + apply (parse_packet_tagged _ 0 _ payload false); [by destruct (final seg)|].
      unfold large_cid_max. lia.
    + by destruct (final seg).
Qed.

Lemma feedback_dispatch f : feedback_ok f ->
  exists r, parse_rohc_packet (packet_octets f) false = Ok r /\ pr_type r = PktFeedback.
Proof.
  intros Hf. pose proof (packet_sizes f Hf) as (_ & Sd & Sb & _). cbv zeta in *.
  assert (L : 0 <= (if 7 <? blen (packet_body f) then 0 else blen (packet_body f)) < 8).
  { pose proof (blen_nonneg (packet_body f)). destruct (Z.ltb_spec 7 (blen (packet_body f))); lia. }
  assert (H : exists x r, packet_octets f =
    u8 (Z.lor 0xF0 (if 7 <? blen (packet_body f) then 0 else blen (packet_body f))) :: x :: r).
  { unfold packet_octets. destruct (7 <? blen (packet_body f)); cbn [app]; [by do 2 eexists|].
    unfold packet_body, packet_data. destruct (0 <? f_cid f); by do 2 eexists. }
  destruct H as (x & r & ->). revert L.
  generalize (if 7 <? blen (packet_body f) then 0 else blen (packet_body f)). intros n L.
  pose proof (byte_forall (fun n => negb (n <? 8) || (plain_tag (u8 (Z.lor 0xF0 n)) &&
    type_eqb (detect_packet_type (u8 (Z.lor 0xF0 n))) PktFeedback)) ltac:(vm_compute; reflexivity)
    n ltac:(unfold byte_ok; clear -L; lia)) as D. cbv beta in D.
  rewrite (proj2 (Z.ltb_lt n 8)) in D by lia. cbn [negb orb] in D.
  apply andb_true_iff in D as [D1 D2]. eexists. split.
  - apply (parse_packet_tagged _ 0 x r false D1). unfold large_cid_max. lia.
  - by apply bool_decide_eq_true in D2.
Qed.

(** On every channel the packet parser recognises what the emitters wrote,
    whatever payload follows.  An IR packet is found with its CID - embedded,
    in an Add-CID octet or large -, its profile, and the buffer its decoder
    expects; a first-order packet is found as its own type, for the large CID
    it carries or the one in an Add-CID octet before it; a segment keeps its
    final flag, the low octet of its sequence number and its payload; a
    feedback packet is found as feedback. *)
Theorem packet_dispatch :
  (forall p tx out_len packet payload, context_ok tx -> emit_ir p out_len tx = Ok packet ->
   exists r, parse_rohc_packet (packet ++ payload) (large_cid tx) = Ok r /\
     pr_type r = PktIR /\ pr_cid r = cid tx /\ pr_profile_id r = profile_octet p /\
     decoder_packet r = packet ++ payload) /\
  (forall p tx out_len packet payload, context_ok tx -> emit_fo p out_len tx = Ok packet ->
   (exists r, parse_rohc_packet (packet ++ payload) (large_cid tx) = Ok r /\
      pr_type r = fo_packet_type p /\ pr_cid r = (if large_cid tx then cid tx else 0) /\
      decoder_packet r = packet ++ payload) /\
   (large_cid tx = false ->
    exists r, parse_rohc_packet (Z.lor 0xE0 (Z.land (cid tx) 0x0F) :: packet ++ payload) false = Ok r /\
      pr_type r = fo_packet_type p /\ pr_cid r = cid tx /\ decoder_packet r = packet ++ payload)) /\
  (forall seg payload cap, 0 <= sequence seg -> 2 + blen payload <= cap -> size_ok cap ->
   exists wire, write_segment_packet seg payload {| w_out := []; w_cap := cap |} =
       (Ok tt, {| w_out := wire; w_cap := cap |}) /\
     read_segment_header wire = Ok (mkSegment (final seg) (sequence seg mod 256)) /\
     drop 2 wire = payload /\ (exists r, parse_rohc_packet wire false = Ok r /\ pr_type r = Segment)) /\
  (forall f cap wire, feedback_ok f ->
   write_feedback_packet f {| w_out := []; w_cap := cap |} =
     (Ok tt, {| w_out := wire; w_cap := cap |}) ->
   exists r, parse_rohc_packet wire false = Ok r /\ pr_type r = PktFeedback).
Proof.
  split; [exact ir_dispatch|]. split; [exact fo_dispatch|]. split; [exact segment_dispatch|].
  intros f cap wire Hf E. rewrite write_feedback_exact in E by done.
  destruct (_ && _) in E; [|done]. injection E as <-. by apply feedback_dispatch.
Qed.
