(* ===== verification/Tunnel.v ===== *)
(** * The tunnel around a codec: examples/linux_tun_tunnel/tunnel_protocol.cpp

    Frames that carry compressed packets and feedback over UDP, the table that
    gives each flow a CID, and the two calls that join them to a codec, which
    is a record of functions. *)

From S2P Require Import Prelude Crc Cid Encoding Context Cursor Chains EmitIr DecodeIr.
From S2P Require Import StandardIr Safety IrProperties Compressor Decompressor EndToEnd Link.

(** ** Results: a value, one of the source's errors, undefined behaviour *)

Inductive failure :=
| InvalidArgument | Oversized | Malformed | UnknownVersion | UnknownType | CodecFailure.

Inductive result (A : Type) := Done (a : A) | Failed (e : failure) | Wild.
Arguments Done {A} a.
Arguments Failed {A} e.
Arguments Wild {A}.

Definition rbind {A B} (m : result A) (k : A -> result B) : result B :=
  match m with Done a => k a | Failed e => Failed e | Wild => Wild end.
(** [if(!ok) return e]. *)
Definition ensure (ok : bool) (e : failure) : result unit := if ok then Done tt else Failed e.
(** A memory access. *)
Definition load {A} (o : outcome A) : result A := match o with Ok a => Done a | _ => Wild end.

Notation "'do!' x := m 'in' k" := (rbind m (fun x => k))
  (at level 10, x pattern, m at level 100, k at level 200) : rohc_scope.

(** ** Frames *)

Definition magic : bytes := [0x52; 0x48; 0x43; 0x54].
Definition envelope_size : Z := 8.
Definition transport_version : Z := 1.
Definition feedback_payload_size : Z := 5.

(** [MessageType] is an enumeration over [uint8_t], cast from any octet. *)
Definition Compressed : Z := 1.
Definition Feedback : Z := 2.
Definition known_type (type : Z) : bool := (type =? Compressed) || (type =? Feedback).

Definition encode_frame (type : Z) (payload : bytes) (output_capacity : Z) : result bytes :=
  do! _ := ensure (known_type type) InvalidArgument in
  do! _ := ensure (negb ((65535 <? blen payload) ||
                         (output_capacity <? envelope_size + blen payload))) Oversized in
  Done (magic ++ [transport_version; type; u8 (Z.shiftr (blen payload) 8); u8 (blen payload)]
        ++ payload).

(** [memcmp(l, r, n) == 0] on the first octets of a buffer that has them. *)
Definition starts_with (l r : bytes) : bool := bool_decide (take (length r) l = r).

(** The type and the payload. *)
Definition decode_frame (datagram : bytes) : result (Z * bytes) :=
  do! _ := ensure (negb ((blen datagram <? envelope_size) || negb (starts_with datagram magic)))
             Malformed in
  do! version := load (rd datagram 4) in
  do! _ := ensure (version =? transport_version) UnknownVersion in
  do! type := load (rd datagram 5) in
  do! _ := ensure (known_type type) UnknownType in
  do! payload_len := load (rd_u16 datagram 6) in
  do! _ := ensure (payload_len =? blen datagram - envelope_size) Malformed in
  do! _ := ensure (negb ((type =? Compressed) && (payload_len =? 0) ||
                         (type =? Feedback) && negb (payload_len =? feedback_payload_size)))
             Malformed in
  do! payload := load (slice datagram envelope_size payload_len) in
  Done (type, payload).

Definition encode_feedback (cid feedback_type output_capacity : Z) : result bytes :=
  do! _ := ensure (negb ((output_capacity <? feedback_payload_size) || (15 <? cid) ||
                         (2 <? feedback_type))) InvalidArgument in
  Done [u8 (Z.shiftr cid 24); u8 (Z.shiftr cid 16); u8 (Z.shiftr cid 8); u8 cid; feedback_type].

(** CID and feedback type. *)
Definition decode_feedback (payload : bytes) : result (Z * Z) :=
  do! _ := ensure (blen payload =? feedback_payload_size) Malformed in
  do! cid := load (rd_u32 payload 0) in
  do! feedback_type := load (rd payload 4) in
  do! _ := ensure ((cid <=? 15) && (feedback_type <=? 2)) Malformed in
  Done (cid, feedback_type).

Definition validate_ipv4_packet (packet : bytes) (maximum_packet_size : Z) : result unit :=
  do! _ := ensure (20 <=? maximum_packet_size) InvalidArgument in
  do! _ := ensure (negb (blen packet <? 20)) Malformed in
  do! _ := ensure (blen packet <=? maximum_packet_size) Oversized in
  do! b0 := load (rd packet 0) in
  do! _ := ensure (Z.shiftr b0 4 =? 4) UnknownVersion in
  let header_len := Z.land b0 0x0f * 4 in
  do! total_len := load (rd_u16 packet 2) in
  ensure (negb ((header_len <? 20) || (blen packet <? header_len) ||
                negb (total_len =? blen packet))) Malformed.

(** ** Flow keys

    [key.bytes] has 20 octets, of which equality looks at the first [length]:
    a key is what was appended. *)

Definition FlowKey := bytes.
Definition key_capacity : Z := 20.

Definition append16 (value : Z) : M wst unit := puts [u8 (Z.shiftr value 8); u8 value].
Definition append32 (packet : bytes) (off : Z) : M wst unit :=
  v <- lift (slice packet off 4) ;; puts v.

(** Whether the UDP payload is an RTP packet: version 2, with room for the CSRC
    list, the extension and the padding it announces. *)
Definition valid_rtp (payload : bytes) : outcome bool :=
  let payload_len := blen payload in
  let! p0 := rd payload 0 in
  let base := 12 + Z.land p0 0x0f * 4 in
  if negb (base <=? payload_len) then Ok false else
  let! header :=
    if negb (Z.land p0 0x10 =? 0) then
      if negb (base + 4 <=? payload_len) then Ok None else
      let! words := rd_u16 payload (base + 2) in
      let header := base + (4 + words * 4) in
      Ok (if header <=? payload_len then Some header else None)
    else Ok (Some base) in
  match header with
  | None => Ok false
  | Some header =>
      if negb (Z.land p0 0x20 =? 0) then
        if negb (header <? payload_len) then Ok false else
        let! last := rd payload (payload_len - 1) in
        Ok (negb (last =? 0) && (last <=? payload_len - header))
      else Ok true
  end.

(** The key after validation: addresses, protocol, and what the transport
    protocol tells flows apart by. *)
Definition flow_key (packet : bytes) (ihl : Z) : M wst unit :=
  append32 packet 12 ;;;
  append32 packet 16 ;;;
  protocol <- lift (rd packet 9) ;;
  put protocol ;;;
  fragments <- lift (rd_u16 packet 6) ;;
  if negb (Z.land fragments 0x3fff =? 0) then
    put 1 ;;;
    id <- lift (rd_u16 packet 4) ;;
    append16 id
  else if protocol =? 17 then
    guard (negb (blen packet <? ihl + 8)) ;;;
    udp_len <- lift (rd_u16 packet (ihl + 4)) ;;
    guard (negb ((udp_len <? 8) || negb (udp_len =? blen packet - ihl))) ;;;
    put 2 ;;;
    sport <- lift (rd_u16 packet ihl) ;;
    append16 sport ;;;
    dport <- lift (rd_u16 packet (ihl + 2)) ;;
    append16 dport ;;;
    payload <- lift (tail_from packet (ihl + 8)) ;;
    if negb (12 <=? udp_len - 8) then ret tt else
    p0 <- lift (rd payload 0) ;;
    if negb (Z.shiftr p0 6 =? 2) then ret tt else
    valid <- lift (valid_rtp payload) ;;
    if valid then
      patch 9 3 ;;;
      append32 payload 8
    else ret tt
  else if protocol =? 50 then
    guard (negb (blen packet <? ihl + 8)) ;;;
    put 4 ;;;
    append32 packet ihl
  else put 0.

(** The refusals of [flow_key] are [Malformed]. *)
Definition identify_flow (packet : bytes) : result FlowKey :=
  do! _ := validate_ipv4_packet packet (blen packet) in
  do! b0 := load (rd packet 0) in
  match flow_key packet (Z.land b0 0x0f * 4) {| w_out := []; w_cap := key_capacity |} with
  | (Ok _, s) => Done (w_out s)
  | (Rej, _) => Failed Malformed
  | (Ub, _) => Wild
  end.

(** ** The table of flows *)

Record Entry := mkEntry { key : FlowKey; last_used : Z; used : bool }.

Record FlowTable := mkTable {
  entries_ : list Entry; clock_ : Z; assignments_ : Z; evictions_ : Z; mapping_failures_ : Z }.

Definition no_entry : Entry := mkEntry [] 0 false.
Definition new_table : FlowTable := mkTable (repeat no_entry 16) 0 0 0 0.

Record FlowAssignment := mkAssignment { a_cid : Z; newly_assigned : bool; evicted : bool }.

(** The first index, from [i] on, of an entry with a property. *)
Fixpoint find_entry (p : Entry -> bool) (l : list Entry) (i : nat) : option nat :=
  match l with
  | [] => None
  | e :: l => if p e then Some i else find_entry p l (S i)
  end.

Definition holds_key (k : FlowKey) (e : Entry) : bool := used e && bool_decide (key e = k).

(** The loop that looks for the least recently used entry, [selected] being
    the best so far. *)
Fixpoint least_used (l : list Entry) (i : nat) (selected : nat) (selected_used : Z) : nat :=
  match l with
  | [] => selected
  | e :: l =>
      if last_used e <? selected_used then least_used l (S i) i (last_used e)
      else least_used l (S i) selected selected_used
  end.

Definition oldest (l : list Entry) : nat :=
  match l with [] => 0%nat | e :: l => least_used l 1 0 (last_used e) end.

(** What [select] does once the flow is known. *)
Definition assign (k : FlowKey) (t : FlowTable) : FlowAssignment * FlowTable :=
  let clock := u64 (clock_ t + 1) in
  match find_entry (holds_key k) (entries_ t) 0 with
  | Some cid =>
      let entries := alter (fun e => mkEntry (key e) clock (used e)) cid (entries_ t) in
      (mkAssignment (Z.of_nat cid) false false,
       mkTable entries clock (assignments_ t) (evictions_ t) (mapping_failures_ t))
  | None =>
      let place := find_entry (fun e => negb (used e)) (entries_ t) 0 in
      let selected := match place with Some i => i | None => oldest (entries_ t) end in
      let evicted := match place with Some _ => false | None => true end in
      (mkAssignment (Z.of_nat selected) true evicted,
       mkTable (<[selected := mkEntry k clock true]> (entries_ t)) clock (u64 (assignments_ t + 1))
         (if evicted then u64 (evictions_ t + 1) else evictions_ t) (mapping_failures_ t))
  end.

Definition select (packet : bytes) (t : FlowTable) : result FlowAssignment * FlowTable :=
  match identify_flow packet with
  | Done k => let (a, t) := assign k t in (Done a, t)
  | Failed e =>
      (Failed e, mkTable (entries_ t) (clock_ t) (assignments_ t) (evictions_ t)
                   (u64 (mapping_failures_ t + 1)))
  | Wild => (Wild, t)
  end.

Definition active_contexts (t : FlowTable) : Z :=
  Z.of_nat (length (List.filter used (entries_ t))).

(** ** The codec and the two calls over it *)

(** The function pointers of [struct Codec], which may be null, over a context
    [S]; a compression or decompression gets the capacity of its output. *)
Record Codec (S : Type) := mkCodec {
  compress_fn : option (bytes -> Z -> S -> outcome bytes * S);
  decompress_fn : option (bytes -> Z -> S -> outcome bytes * S);
  feedback_fn : option (Z -> Z -> S -> S) }.
Arguments compress_fn {S}.
Arguments decompress_fn {S}.
Arguments feedback_fn {S}.

Section Calls.
Context {S : Type} (codec : Codec S).

(** The compressed packet and the datagram. *)
Definition prepare_compressed_datagram (packet : bytes)
    (maximum_packet_size compressed_capacity datagram_capacity : Z) (s : S)
    : result (bytes * bytes) * S :=
  match validate_ipv4_packet packet maximum_packet_size with
  | Failed e => (Failed e, s)
  | Wild => (Wild, s)
  | Done _ =>
      match compress_fn codec with
      | None => (Failed InvalidArgument, s)
      | Some compress =>
          match compress packet compressed_capacity s with
          | (Ub, s) => (Wild, s)
          | (Rej, s) => (Failed CodecFailure, s)
          | (Ok compressed, s) =>
              if (blen compressed =? 0) || (compressed_capacity <? blen compressed)
              then (Failed CodecFailure, s)
              else (do! datagram := encode_frame Compressed compressed datagram_capacity in
                    Done (compressed, datagram), s)
          end
      end
  end.

(** The type of the message, and the packet of a compressed one. *)
Definition consume_datagram (datagram : bytes) (maximum_packet_size packet_capacity : Z) (s : S)
    : result (Z * bytes) * S :=
  match decode_frame datagram with
  | Failed e => (Failed e, s)
  | Wild => (Wild, s)
  | Done (type, payload) =>
      if type =? Feedback then
        match decode_feedback payload with
        | Failed e => (Failed e, s)
        | Wild => (Wild, s)
        | Done (cid, feedback_type) =>
            match feedback_fn codec with
            | None => (Failed InvalidArgument, s)
            | Some feedback => (Done (type, []), feedback cid feedback_type s)
            end
        end
      else
        match decompress_fn codec with
        | None => (Failed InvalidArgument, s)
        | Some decompress =>
            match decompress payload packet_capacity s with
            | (Ub, s) => (Wild, s)
            | (Rej, s) => (Failed CodecFailure, s)
            | (Ok packet, s) =>
                if packet_capacity <? blen packet then (Failed CodecFailure, s)
                else (do! _ := validate_ipv4_packet packet maximum_packet_size in
                      Done (type, packet), s)
            end
        end
  end.
End Calls.

(** * The table of flows *)

Lemma find_entry_some p l i j :
  find_entry p l i = Some j -> exists n e, j = (i + n)%nat /\ l !! n = Some e /\ p e = true.
Proof.
  revert i. induction l as [|e l IH]; intros i; cbn [find_entry]; [done|].
  destruct (p e) eqn:E.
  - intros [= <-]. exists 0%nat, e. split_and!; [lia|done|done].
  - intros (n & e' & -> & Hl & Hp)%IH. exists (S n), e'. split_and!; [lia|done|done].
Qed.

Lemma find_entry_none p l i : find_entry p l i = None -> forall n e, l !! n = Some e -> p e = false.
Proof.
  revert i. induction l as [|e l IH]; intros i; cbn [find_entry]; [done|].
  destruct (p e) eqn:E; [done|]. intros H [|n] e'; cbn; [congruence|by apply (IH (S i))].
Qed.

Lemma least_used_spec l i sel u :
  (least_used l i sel u = sel /\ (forall n e, l !! n = Some e -> u <= last_used e)) \/
  exists n e, least_used l i sel u = (i + n)%nat /\ l !! n = Some e /\ last_used e < u /\
    forall m e', l !! m = Some e' -> last_used e <= last_used e'.
Proof.
  revert i sel u. induction l as [|e l IH]; intros i sel u; cbn [least_used]; [by left|].
  destruct (Z.ltb_spec (last_used e) u) as [Hlt|Hge].
  - right. destruct (IH (S i) i (last_used e)) as [(-> & H)|(n & e' & -> & Hn & Hlt' & H)].
    + exists 0%nat, e. split_and!; [lia|done|done|]. intros [|m] e'; cbn; [intros [= <-]; lia|apply H].
    + exists (S n), e'. split_and!; [lia|done|lia|]. intros [|m] e''; cbn; [intros [= <-]; lia|apply H].
  - destruct (IH (S i) sel u) as [(-> & H)|(n & e' & -> & Hn & Hlt' & H)].
    + left. split; [done|]. intros [|m] e'; cbn; [intros [= <-]; lia|apply H].
    + right. exists (S n), e'. split_and!; [lia|done|lia|].
      intros [|m] e''; cbn; [intros [= <-]; lia|apply H].
Qed.

Lemma oldest_spec l : l <> [] ->
  exists e, l !! oldest l = Some e /\ forall m e', l !! m = Some e' -> last_used e <= last_used e'.
Proof.
  destruct l as [|e l]; [done|]. intros _. unfold oldest.
  destruct (least_used_spec l 1 0 (last_used e)) as [(-> & H)|(n & e' & -> & Hn & Hlt & H)].
  - exists e. split; [done|]. intros [|m] e'; cbn; [intros [= <-]; lia|apply H].
  - exists e'. split; [done|]. intros [|m] e''; cbn; [intros [= <-]; lia|apply H].
Qed.

(** At most one entry per flow, and no two entries used at the same time. *)
Definition table_ok (t : FlowTable) : Prop :=
  length (entries_ t) = 16%nat /\ 0 <= clock_ t /\
  (forall i e, entries_ t !! i = Some e -> used e = true -> last_used e <= clock_ t) /\
  (forall i j e e', entries_ t !! i = Some e -> entries_ t !! j = Some e' ->
     used e = true -> used e' = true -> key e = key e' \/ last_used e = last_used e' -> i = j).

Definition live (t : FlowTable) (c : nat) (k : FlowKey) : Prop :=
  exists e, entries_ t !! c = Some e /\ used e = true /\ key e = k.

(** The effect of a packet of flow [k]: one entry, [c], becomes that flow's and
    the latest; it was the flow's already, or free, or the oldest of all. *)
Definition assigned (k : FlowKey) (t : FlowTable) (a : FlowAssignment) (t' : FlowTable) (c : nat) : Prop :=
  (c < 16)%nat /\ a_cid a = Z.of_nat c /\ clock_ t' = clock_ t + 1 /\
  entries_ t' = <[c := mkEntry k (clock_ t + 1) true]> (entries_ t) /\
  (newly_assigned a = false /\ live t c k \/
   newly_assigned a = true /\ (forall i, ~ live t i k) /\
   ((exists e, entries_ t !! c = Some e /\ used e = false) \/
    (forall i e, entries_ t !! i = Some e -> used e = true) /\
    exists ec, entries_ t !! c = Some ec /\
      forall i e, entries_ t !! i = Some e -> last_used ec <= last_used e)).

Lemma assign_spec k t :
  table_ok t -> clock_ t + 1 < 2 ^ 64 ->
  exists c, assigned k t (fst (assign k t)) (snd (assign k t)) c.
Proof.
  intros (Hl & Hc0 & _ & _) Hc. unfold assign, assigned.
  assert (Hu : u64 (clock_ t + 1) = clock_ t + 1) by (unfold u64; apply Z.mod_small; lia).
  rewrite Hu. destruct (find_entry (holds_key k) (entries_ t) 0) as [c|] eqn:E.
  - apply find_entry_some in E as (n & e & -> & He & Hk). cbn [Nat.add fst snd entries_ a_cid clock_].
    apply andb_true_iff in Hk as [Hused Hk%bool_decide_eq_true].
    exists n. split_and!; [by apply lookup_lt_Some in He; lia|done|done| |left; split; [done|by exists e]].
    apply list_eq. intros i. destruct (decide (i = n)) as [->|Hn].
    + rewrite list_lookup_alter_eq, He. cbn.
      rewrite list_lookup_insert_eq by (by apply lookup_lt_Some in He). by rewrite Hk, Hused.
    + by rewrite list_lookup_alter_ne, list_lookup_insert_ne by done.
  - assert (Hnone : forall i, ~ live t i k).
    { intros i (e & He & Hus & Hk). pose proof (find_entry_none _ _ _ E i e He) as H.
      unfold holds_key in H. rewrite Hus, Hk, bool_decide_true in H by done. done. }
    cbn [fst snd entries_ a_cid clock_ newly_assigned].
    destruct (find_entry (fun e => negb (used e)) (entries_ t) 0) as [c|] eqn:E2.
    + apply find_entry_some in E2 as (n & e & -> & He & Hk). cbn [Nat.add].
      exists n. split_and!; [by apply lookup_lt_Some in He; lia|done..|]. right. split_and!; [done|done|].
      left. exists e. split; [done|by apply negb_true_iff].
    + destruct (oldest_spec (entries_ t)) as (ec & Hec & Hmin); [by intros H; rewrite H in Hl|].
      exists (oldest (entries_ t)). split_and!; [by apply lookup_lt_Some in Hec; lia|done..|].
      right. split_and!; [done|done|]. right. split; [|by exists ec].
      intros i e He. pose proof (find_entry_none _ _ _ E2 i e He) as H. cbn in H.
      by apply negb_false_iff.
Qed.

Lemma assigned_ok k t a t' c : table_ok t -> assigned k t a t' c -> table_ok t' /\ live t' c k.
Proof.
  intros (Hl & Hc0 & Hclk & Huniq) (Hc & _ & Hck & He & Hcase).
  assert (Hat : entries_ t' !! c = Some (mkEntry k (clock_ t + 1) true))
    by (rewrite He; apply list_lookup_insert_eq; lia).
  assert (Hother : forall i e, i <> c -> entries_ t' !! i = Some e -> entries_ t !! i = Some e)
    by (intros i e Hi; by rewrite He, list_lookup_insert_ne).
  (* no other entry is of the flow *)
  assert (Hkey : forall i e, i <> c -> entries_ t !! i = Some e -> used e = true -> key e <> k).
  { intros i e Hi Hie Hus Hk. destruct Hcase as [[_ (ec & Hec & Hecu & Heck)]|[_ [Hn _]]].
    - apply Hi. apply (Huniq i c e ec Hie Hec Hus Hecu). left. congruence.
    - apply (Hn i). by exists e. }
  split; [|by exists (mkEntry k (clock_ t + 1) true)].
  split_and!; [rewrite He, length_insert; lia|lia| |].
  - intros i e Hi Hus. rewrite Hck. destruct (decide (i = c)) as [->|Hn].
    + rewrite Hat in Hi. injection Hi as <-. cbn. lia.
    + specialize (Hclk i e (Hother i e Hn Hi) Hus). lia.
  - intros i j e e' Hi Hj Hus Hus' Hor.
    destruct (decide (i = c)) as [->|Hni], (decide (j = c)) as [->|Hnj]; [done|..].
    + rewrite Hat in Hi. injection Hi as <-. cbn in Hor. exfalso. destruct Hor as [Hk|Hu].
      * by apply (Hkey j e' Hnj (Hother j e' Hnj Hj) Hus').
      * specialize (Hclk j e' (Hother j e' Hnj Hj) Hus'). lia.
    + rewrite Hat in Hj. injection Hj as <-. cbn in Hor. exfalso. destruct Hor as [Hk|Hu].
      * by apply (Hkey i e Hni (Hother i e Hni Hi) Hus).
      * specialize (Hclk i e (Hother i e Hni Hi) Hus). lia.
    + by apply (Huniq i j e e' (Hother i e Hni Hi) (Hother j e' Hnj Hj)).
Qed.

Lemma new_table_ok : table_ok new_table.
Proof.
  unfold table_ok, new_table. cbn [entries_ clock_]. split_and!; [done|lia|..].
  - intros i e He. apply lookup_lt_Some in He as Hl. rewrite lookup_repeat in He by exact Hl.
    by injection He as <-.
  - intros i j e e' He _ Hus. apply lookup_lt_Some in He as Hl.
    rewrite lookup_repeat in He by exact Hl. by injection He as <-.
Qed.

(** ** A flow keeps its CID *)

(** Entry [c] is of flow [k], and every entry used since then is of one of
    the flows [others]. *)
Definition remembers (k : FlowKey) (others : list FlowKey) (c : nat) (t : FlowTable) : Prop :=
  table_ok t /\
  exists ec, entries_ t !! c = Some ec /\ used ec = true /\ key ec = k /\
    forall i e, i <> c -> entries_ t !! i = Some e -> used e = true ->
      last_used ec < last_used e -> In (key e) others.

(** The keys of all entries but one are 15 different ones. *)
Lemma other_keys (l : list Entry) c :
  length l = 16%nat -> (c < 16)%nat ->
  (forall i e, l !! i = Some e -> used e = true) ->
  (forall i j e e', l !! i = Some e -> l !! j = Some e' -> key e = key e' -> i = j) ->
  exists ks, List.NoDup ks /\ length ks = 15%nat /\
    forall x, In x ks -> exists i e, i <> c /\ l !! i = Some e /\ key e = x.
Proof.
  intros Hl Hc Hus Hinj. set (r := delete c l).
  exists (map key r). split_and!.
  - apply NoDup_ListNoDup. apply NoDup_fmap_2_strong with (f := key).
    + intros e e' [i Hi]%list_elem_of_lookup [j Hj]%list_elem_of_lookup E.
      assert (forall i e, r !! i = Some e -> exists i', l !! i' = Some e) as Hsub.
      { clear -c. intros i e H. unfold r in H. destruct (decide (i < c)%nat).
        - rewrite list_lookup_delete_lt in H by done. by exists i.
        - rewrite list_lookup_delete_ge in H by lia. by exists (S i). }
      destruct (Hsub i e Hi) as (i' & Hi'), (Hsub j e' Hj) as (j' & Hj').
      assert (i' = j') by (by apply (Hinj i' j' e e')). congruence.
    + assert (ND : NoDup l).
      { apply NoDup_alt. intros i j e Hi Hj. by apply (Hinj i j e e). }
      unfold r. eapply sublist_NoDup; [exact ND|]. apply sublist_delete.
  - rewrite length_map. unfold r. rewrite length_delete by (apply lookup_lt_is_Some; lia). lia.
  - intros x (e & <- & He)%in_map_iff. apply list_elem_of_In, list_elem_of_lookup in He as (i & Hi).
    unfold r in Hi. destruct (decide (i < c)%nat).
    + rewrite list_lookup_delete_lt in Hi by done. exists i, e. split_and!; [lia|done|done].
    + rewrite list_lookup_delete_ge in Hi by lia. exists (S i), e. split_and!; [lia|done|done].
Qed.

Lemma remembers_found k others c t t' a :
  (c < 16)%nat -> remembers k others c t -> clock_ t + 1 < 2 ^ 64 -> assign k t = (a, t') ->
  a_cid a = Z.of_nat c /\ newly_assigned a = false /\ remembers k others c t'.
Proof.
  intros Hc (Hok & ec & Hec & Hus & Hk & _) Hclk E.
  destruct (assign_spec k t Hok Hclk) as (c' & Hspec). rewrite E in Hspec. cbn [fst snd] in Hspec.
  pose proof (assigned_ok _ _ _ _ _ Hok Hspec) as [Hok' _].
  pose proof Hspec as (Hc' & Hcid & Hck & He & [[Hnew (e & Hee & Heu & Hek)]|[_ [Hn _]]]).
  2: { exfalso. apply (Hn c). by exists ec. }
  assert (c' = c) as ->.
  { destruct Hok as (_ & _ & _ & Huniq). apply (Huniq c' c e ec); try done. left. congruence. }
  split_and!; [done|done|]. split; [done|].
  exists (mkEntry k (clock_ t + 1) true). rewrite He. destruct Hok as (Hl & _ & Hclke & _).
  split_and!; [apply list_lookup_insert_eq; lia|done|done|].
  intros i e' Hi Hie Hiu Hlt. exfalso. rewrite list_lookup_insert_ne in Hie by done.
  specialize (Hclke i e' Hie Hiu). cbn in Hlt. lia.
Qed.

(** A packet of another of the flows leaves entry [c] alone, and gets another CID. *)
Lemma remembers_other k others c t t' a x :
  (c < 16)%nat -> remembers k others c t -> clock_ t + 1 < 2 ^ 64 -> assign x t = (a, t') ->
  x <> k -> In x others -> (length others <= 15)%nat ->
  remembers k others c t' /\ a_cid a <> Z.of_nat c.
Proof.
  intros Hc (Hok & ec & Hec & Hus & Hk & Hafter) Hclk E Hx Hin Hlen.
  destruct (assign_spec x t Hok Hclk) as (c' & Hspec). rewrite E in Hspec. cbn [fst snd] in Hspec.
  pose proof (assigned_ok _ _ _ _ _ Hok Hspec) as [Hok' _].
  destruct Hspec as (Hc' & Hcid & Hck & He & Hcase). pose proof Hok as (Hl & _ & _ & Huniq).
  assert (Hne : c' <> c).
  { intros ->. destruct Hcase as [[_ (e & Hee & _ & Hek)]|(_ & Hn & [(e & Hee & Heu)|(Hall & e & Hee & Hmin)])].
    - congruence.
    - congruence.
    - assert (e = ec) as -> by congruence.
      destruct (other_keys (entries_ t) c Hl Hc Hall) as (ks & Hnd & Hks & Hin_ks).
      { intros i j ei ej Hi Hj Hkey. apply (Huniq i j ei ej Hi Hj); eauto. }
      assert (Hsub : incl (x :: ks) others).
      { intros y [<-|Hy]; [done|]. destruct (Hin_ks y Hy) as (i & ei & Hi & Hei & <-).
        apply (Hafter i ei Hi Hei); [eauto|].
        specialize (Hmin i ei Hei).
        assert (last_used ec <> last_used ei).
        { intros Heq. apply Hi, (Huniq i c ei ec Hei Hec); eauto. }
        lia. }
      assert (Hnd' : List.NoDup (x :: ks)).
      { constructor; [|done]. intros Hy. destruct (Hin_ks x Hy) as (i & ei & _ & Hei & Hkei).
        apply (Hn i). exists ei. eauto. }
      pose proof (NoDup_incl_length Hnd' Hsub) as Hcount. cbn [length] in Hcount. lia. }
  split; [|rewrite Hcid; lia]. split; [done|]. exists ec. rewrite He, list_lookup_insert_ne by done. split_and!; [done..|].
  intros i e Hi Hie Hiu Hlt. destruct (decide (i = c')) as [->|Hic].
  - rewrite list_lookup_insert_eq in Hie by lia. by injection Hie as <-.
  - rewrite list_lookup_insert_ne in Hie by done. by apply (Hafter i e).
Qed.

(** ** The table over a stream of packets *)

Fixpoint selects (packets : list bytes) (t : FlowTable) : FlowTable :=
  match packets with [] => t | p :: packets => selects packets (snd (select p t)) end.

Lemma select_clock p t : clock_ t + 1 < 2 ^ 64 -> 0 <= clock_ t ->
  clock_ t <= clock_ (snd (select p t)) <= clock_ t + 1.
Proof.
  intros H H0. unfold select. destruct (identify_flow p) as [k|e|]; cbn; [|lia|lia].
  unfold assign. assert (E : u64 (clock_ t + 1) = clock_ t + 1) by (unfold u64; apply Z.mod_small; lia).
  destruct (find_entry _ _ _); cbn; rewrite E; lia.
Qed.

Lemma select_ok p t : table_ok t -> clock_ t + 1 < 2 ^ 64 -> table_ok (snd (select p t)).
Proof.
  intros Hok Hc. unfold select. destruct (identify_flow p) as [k|e|]; [|exact Hok..].
  destruct (assign_spec k t Hok Hc) as (c & Hs). destruct (assign k t) as [a t'] eqn:E.
  cbn [fst snd] in Hs |- *. by apply (assigned_ok _ _ _ _ _ Hok Hs).
Qed.

Lemma selects_ok ps t :
  table_ok t -> clock_ t + Z.of_nat (length ps) < 2 ^ 64 ->
  table_ok (selects ps t) /\ clock_ (selects ps t) <= clock_ t + Z.of_nat (length ps).
Proof.
  revert t. induction ps as [|p ps IH]; intros t Hok Hc; cbn [selects length] in *; [split; [done|lia]|].
  pose proof Hok as (_ & H0 & _). pose proof (select_clock p t ltac:(lia) H0).
  pose proof (select_ok p t Hok ltac:(lia)) as Hok'.
  destruct (IH _ Hok' ltac:(lia)) as [H1 H2]. split; [done|lia].
Qed.

Lemma selects_remembers k others c ps t :
  (c < 16)%nat -> (length others <= 15)%nat ->
  Forall (fun p => forall x, identify_flow p = Done x -> x = k \/ In x others) ps ->
  clock_ t + Z.of_nat (length ps) < 2 ^ 64 -> remembers k others c t ->
  remembers k others c (selects ps t).
Proof.
  intros Hc Hlen. revert t. induction ps as [|p ps IH]; intros t Hps Hclk Hr; cbn [selects length] in *;
    [done|]. apply Forall_cons_iff in Hps as [Hp Hps]. pose proof Hr as [(_ & H0 & _) _].
  apply IH; [done| |].
  - pose proof (select_clock p t ltac:(lia) H0). lia.
  - unfold select. destruct (identify_flow p) as [x|e|] eqn:Ei; [|exact Hr..].
    destruct (assign x t) as [a t'] eqn:E. cbn [snd]. specialize (Hp x eq_refl).
    destruct (decide (x = k)) as [->|Hx].
    + by apply (remembers_found k others c t t' a Hc Hr ltac:(lia) E).
    + destruct Hp as [|Hp]; [done|].
      by apply (remembers_other k others c t t' a x Hc Hr ltac:(lia) E).
Qed.

(** Which CID a packet of the stream gets: [c] if it is of flow [k], another if not. *)
Lemma select_remembers k others c p t b :
  (c < 16)%nat -> (length others <= 15)%nat ->
  (forall x, identify_flow p = Done x -> x = k \/ In x others) ->
  clock_ t + 1 < 2 ^ 64 -> remembers k others c t -> fst (select p t) = Done b ->
  a_cid b = Z.of_nat c <-> identify_flow p = Done k.
Proof.
  intros Hc Hlen Hp Hclk Hr E. unfold select in E. destruct (identify_flow p) as [x|e|]; [|done..].
  destruct (assign x t) as [b' t'] eqn:Ea. injection E as ->. specialize (Hp x eq_refl).
  destruct (decide (x = k)) as [->|Hx].
  - by destruct (remembers_found k others c t t' b Hc Hr Hclk Ea) as (-> & _).
  - destruct Hp as [|Hp]; [done|].
    destruct (remembers_other k others c t t' b x Hc Hr Hclk Ea Hx Hp Hlen) as [_ Hne]. split; [done|congruence].
Qed.

(** All CIDs are in use, and [c] is the one unused for longest. *)
Definition exhausted (t : FlowTable) (c : nat) : Prop :=
  (forall i e, entries_ t !! i = Some e -> used e = true) /\
  exists ec, entries_ t !! c = Some ec /\ forall i e, entries_ t !! i = Some e -> last_used ec <= last_used e.

(** What a packet of flow [k] does to the other flows: they keep their CIDs, but
    for the one it takes when none is free. *)
Lemma assigned_others k t a t' c i x :
  assigned k t a t' c -> live t i x -> x <> k ->
  live t' i x \/ i = c /\ newly_assigned a = true /\ exhausted t c.
Proof.
  intros (Hc & _ & _ & He & Hcase) (e & Hi & Hu & Hk) Hx. destruct (decide (i = c)) as [->|Hne]; [right|left].
  - split; [done|]. destruct Hcase as [[_ (e' & He' & _ & Hk')]|(Hn & _ & [(e' & He' & Hu')|Hall])]; [congruence..|done].
  - exists e. by rewrite He, list_lookup_insert_ne.
Qed.

(** C15: no two flows share a CID, and a flow keeps the one it gets.  After any
    packets, each flow with a CID has one only, and the packet [first] of flow
    [k] gets one between 0 and 15.  No other flow loses its CID to it, unless all
    16 are in use, when it is the one unused for longest.  As long as the
    packets that follow are of that flow and of at most 15 others, in any order
    and however many, a packet gets this CID if and only if it is of flow [k],
    and the next packet of [k] gets it as one already assigned. *)
Theorem flow_keeps_cid before first packets again k others
  (Hcount : Z.of_nat (length before) + Z.of_nat (length packets) + 2 < 2 ^ 64)
  (Hfirst : identify_flow first = Done k) (Hagain : identify_flow again = Done k)
  (Hothers : (length others <= 15)%nat)
  (Hpackets : Forall (fun p => forall x, identify_flow p = Done x -> x = k \/ In x others) packets) :
  let t := selects before new_table in
  let t1 := snd (select first t) in
  (forall c c' x, live t c x -> live t c' x -> c = c') /\
  exists c a a', fst (select first t) = Done a /\ (c < 16)%nat /\ a_cid a = Z.of_nat c /\ live t1 c k /\
    (forall i x, live t i x -> x <> k -> live t1 i x \/ i = c /\ newly_assigned a = true /\ exhausted t c) /\
    (forall pre p post b, packets = pre ++ p :: post -> fst (select p (selects pre t1)) = Done b ->
       a_cid b = a_cid a <-> identify_flow p = Done k) /\
    fst (select again (selects packets t1)) = Done a' /\ a_cid a' = a_cid a /\ newly_assigned a' = false.
Proof.
  cbv zeta. destruct (selects_ok before new_table new_table_ok) as [Hok Hclk]; [cbn; lia|].
  change (clock_ new_table) with 0 in Hclk. revert Hok Hclk.
  generalize (selects before new_table). intros t Hok Hclk. pose proof Hok as (_ & H0 & _ & Huniq).
  split.
  { intros c c' x (e & He & Hu & Hk) (e' & He' & Hu' & Hk').
    apply (Huniq c c' e e'); try done. left. congruence. }
  destruct (assign_spec k t Hok ltac:(lia)) as (c & Hs).
  assert (E1 : select first t = (Done (fst (assign k t)), snd (assign k t)))
    by (unfold select; rewrite Hfirst; by destruct (assign k t)).
  rewrite E1. cbn [fst snd]. destruct (assign k t) as [a t1]. cbn [fst snd] in *.
  destruct (assigned_ok _ _ _ _ _ Hok Hs) as [Hok1 Hlive]. pose proof Hs as (Hc & Hcid & Hck & He & _).
  assert (Hr : remembers k others c t1).
  { split; [done|]. exists (mkEntry k (clock_ t + 1) true). destruct Hok as (Hl & _ & Hle & _).
    rewrite He. split_and!; [apply list_lookup_insert_eq; lia|done|done|].
    intros i e Hi Hie Hiu Hlt. exfalso. rewrite list_lookup_insert_ne in Hie by done.
    specialize (Hle i e Hie Hiu). cbn in Hlt. lia. }
  pose proof (selects_remembers k others c packets t1 Hc Hothers Hpackets ltac:(lia) Hr) as Hr2.
  destruct (selects_ok packets t1 Hok1 ltac:(lia)) as [_ Hclk2].
  destruct (assign k (selects packets t1)) as [a' t2] eqn:E2.
  destruct (remembers_found k others c _ t2 a' Hc Hr2 ltac:(lia) E2) as (Hcid' & Hnew & _).
  exists c, a, a'. split_and!; try done.
  - intros i x. by apply assigned_others.
  - intros pre p post b -> Hb. rewrite Hcid. rewrite length_app in *. cbn [length] in *.
    apply Forall_app in Hpackets as [Hpre [Hp _]%Forall_cons_iff].
    destruct (selects_ok pre t1 Hok1 ltac:(lia)) as [_ Hclkp].
    apply (select_remembers k others c p (selects pre t1)); try done; [lia|].
    apply selects_remembers; try done. lia.
  - unfold select. by rewrite Hagain, E2.
  - congruence.
Qed.

(** A packet of another call between two of one. *)
Definition sample_flow : FlowKey := [10; 0; 0; 1; 10; 0; 0; 2; 17; 3; 19; 140; 19; 142; 0; 0; 202; 254].
Definition other_flow : FlowKey := [10; 0; 0; 1; 10; 0; 0; 2; 17; 3; 19; 140; 19; 142; 0; 0; 171; 205].
Definition other_packet : bytes :=
  wire (mkPacket 0 7 true 64 0x0A000001 0x0A000002 5004 5006 0x9234 0 100 16000 0xABCD [1; 2; 3]).

Lemma flow_keeps_cid_witness :
  let t1 := snd (select (wire (sample_packet 0)) new_table) in
  exists a b a', fst (select (wire (sample_packet 0)) new_table) = Done a /\
    fst (select other_packet t1) = Done b /\ a_cid b <> a_cid a /\
    fst (select (wire (sample_packet 1)) (snd (select other_packet t1))) = Done a' /\
    a_cid a' = a_cid a /\ newly_assigned a' = false.
Proof.
  destruct (flow_keeps_cid [] (wire (sample_packet 0)) [other_packet] (wire (sample_packet 1)) sample_flow [other_flow])
    as (_ & c & a & a' & E & _ & _ & _ & _ & Hb & E' & Hc & Hn).
  - vm_compute. reflexivity.
  - vm_compute. reflexivity.
  - vm_compute. reflexivity.
  - vm_compute. repeat constructor.
  - apply Forall_cons_iff. split; [|apply List.Forall_nil].
    intros x Hx. right. left. vm_compute in Hx. injection Hx as <-. reflexivity.
  - destruct (fst (select other_packet (snd (select (wire (sample_packet 0)) new_table)))) as [b|e|] eqn:Eb;
      [|exfalso; by vm_compute in Eb..].
    exists a, b, a'. split; [exact E|]. split; [exact Eb|]. split; [|by split].
    intros H. apply (Hb [] other_packet [] b eq_refl Eb) in H. by vm_compute in H.
Defined.

(** * Frames *)

Lemma encode_decode_frame type payload cap datagram :
  encode_frame type payload cap = Done datagram -> bytes_ok payload ->
  (type = Compressed -> payload <> []) -> (type = Feedback -> blen payload = 5) ->
  blen datagram <= cap /\ decode_frame datagram = Done (type, payload).
Proof.
  unfold encode_frame. intros E Hp Hc Hf. pose proof (blen_nonneg payload).
  destruct (known_type type) eqn:Hk; [|done]. cbn [ensure rbind] in E.
  destruct (Z.ltb_spec 65535 (blen payload)); [done|].
  destruct (Z.ltb_spec cap (envelope_size + blen payload)); [done|].
  cbn [orb negb ensure rbind] in E.
  set (d := magic ++ [transport_version; type; u8 (Z.shiftr (blen payload) 8);
    u8 (blen payload)] ++ payload) in E.
  assert (Ed : datagram = d) by congruence. rewrite Ed. clear E Ed.
  assert (Hd : blen d = envelope_size + blen payload) by (unfold d; rewrite !blen_app; unfold magic; rewrite !blen_cons, blen_nil; unfold envelope_size; lia).
  split; [lia|]. unfold decode_frame. rewrite Hd. rewrite (proj2 (Z.ltb_ge _ envelope_size)) by lia.
  assert (Hm : starts_with d magic = true) by (unfold starts_with; by apply bool_decide_eq_true).
  rewrite Hm. cbn [orb negb ensure rbind].
  change (rd d 4) with (@Ok Z transport_version). change (rd d 5) with (Ok type).
  cbn [load rbind]. rewrite Z.eqb_refl, Hk. cbn [ensure rbind].
  assert (Hlen : rd_u16 d 6 = Ok (blen payload)).
  { apply rd_u16_cells; [done|change (rd d (6 + 1)) with (Ok (u8 (blen payload)))|lia].
    by rewrite land_255. }
  rewrite Hlen. cbn [load rbind].
  rewrite (proj2 (Z.eqb_eq (blen payload) _)) by lia. cbn [ensure rbind].
  assert (Hshape : (type =? Compressed) && (blen payload =? 0) ||
                   (type =? Feedback) && negb (blen payload =? feedback_payload_size) = false).
  { unfold known_type in Hk. apply orb_false_iff. split.
    - destruct (Z.eqb_spec type Compressed) as [Ht|]; [|done]. specialize (Hc Ht). cbn [andb].
      apply Z.eqb_neq. destruct payload; [done|]. rewrite blen_cons.
      pose proof (blen_nonneg payload). lia.
    - destruct (Z.eqb_spec type Feedback) as [Ht|]; [|done]. by rewrite (Hf Ht). }
  rewrite Hshape. cbn [negb ensure rbind].
  assert (Hs : slice d envelope_size (blen payload) = Ok payload).
  { pose proof (slice_app (magic ++ [transport_version; type; u8 (Z.shiftr (blen payload) 8);
      u8 (blen payload)]) payload (blen payload) ltac:(lia)) as S.
    rewrite take_ge in S by (unfold blen; lia). rewrite <- app_assoc in S. exact S. }
  by rewrite Hs.
Qed.

Lemma encode_decode_feedback cid type cap out :
  0 <= cid -> 0 <= type -> encode_feedback cid type cap = Done out ->
  blen out = 5 /\ bytes_ok out /\ decode_feedback out = Done (cid, type).
Proof.
  intros Hc Ht. unfold encode_feedback.
  destruct (Z.ltb_spec cap feedback_payload_size); [done|].
  destruct (Z.ltb_spec 15 cid); [done|]. destruct (Z.ltb_spec 2 type); [done|].
  cbn [orb negb ensure rbind]. intros [= <-]. split; [done|]. split.
  - repeat (apply bytes_ok_cons; split; [auto with rohc|]); [|apply bytes_ok_nil].
    unfold byte_ok. lia.
  - unfold decode_feedback. change (blen _ =? feedback_payload_size) with true. cbn [ensure rbind].
    assert (E : rd_u32 [u8 (Z.shiftr cid 24); u8 (Z.shiftr cid 16); u8 (Z.shiftr cid 8); u8 cid; type] 0
                = Ok cid).
    { apply rd_u32_cells; [done..| |lia]. rewrite land_255. done. }
    rewrite E. cbn [load rbind].
    change (rd _ 4) with (Ok type). cbn [load rbind].
    by rewrite (proj2 (Z.leb_le cid 15)), (proj2 (Z.leb_le type 2)) by lia.
Qed.

(** What [validate_ipv4_packet] lets through. *)
Definition ipv4_framed (packet : bytes) (maximum : Z) : Prop :=
  20 <= blen packet <= maximum /\ rd_u16 packet 2 = Ok (blen packet).

Lemma validate_framed packet maximum :
  validate_ipv4_packet packet maximum <> Wild /\
  (validate_ipv4_packet packet maximum = Done tt -> ipv4_framed packet maximum).
Proof.
  unfold validate_ipv4_packet, ipv4_framed. destruct (Z.leb_spec 20 maximum); [|done].
  cbn [ensure rbind]. destruct (Z.ltb_spec (blen packet) 20); [done|]. cbn [negb ensure rbind].
  destruct (Z.leb_spec (blen packet) maximum); [|done]. cbn [ensure rbind].
  destruct (rd_in_range packet 0 ltac:(lia)) as (b & -> & _). cbn [load rbind].
  destruct (Z.shiftr b 4 =? 4); [|done]. cbn [ensure rbind].
  destruct (rd_u16_in_range packet 2 ltac:(lia) ltac:(lia)) as (v & -> & _). cbn [load rbind].
  destruct (Z.eqb_spec v (blen packet)) as [->|]; [|by rewrite orb_true_r].
  cbn [negb]. rewrite orb_false_r. destruct ((_ <? 20) || _); [done|]. split; [done|]. intros _. split; [lia|done].
Qed.

Lemma decode_frame_safe datagram : decode_frame datagram <> Wild.
Proof.
  unfold decode_frame. destruct (Z.ltb_spec (blen datagram) envelope_size) as [|Hl]; [done|].
  unfold envelope_size in *. destruct (starts_with datagram magic); [|done]. cbn [orb negb ensure rbind].
  destruct (rd_in_range datagram 4 ltac:(lia)) as (v & -> & _). cbn [load rbind].
  destruct (v =? transport_version); [|done]. cbn [ensure rbind].
  destruct (rd_in_range datagram 5 ltac:(lia)) as (t & -> & _). cbn [load rbind].
  destruct (known_type t); [|done]. cbn [ensure rbind].
  destruct (rd_u16_in_range datagram 6 ltac:(lia) ltac:(lia)) as (n & -> & _). cbn [load rbind].
  destruct (Z.eqb_spec n (blen datagram - 8)) as [->|]; [|done]. cbn [ensure rbind].
  destruct (_ || _); [done|]. cbn [negb ensure rbind].
  destruct (slice_in_range datagram 8 (blen datagram - 8) ltac:(lia) ltac:(lia) ltac:(lia))
    as (p & -> & _). done.
Qed.

Lemma decode_feedback_safe payload : decode_feedback payload <> Wild /\
  (forall cid type, decode_feedback payload = Done (cid, type) -> cid <= 15 /\ type <= 2).
Proof.
  unfold decode_feedback. destruct (Z.eqb_spec (blen payload) feedback_payload_size) as [E|]; [|done].
  unfold feedback_payload_size in E. cbn [ensure rbind].
  destruct (rd_u32_in_range payload 0 ltac:(lia) ltac:(lia)) as (c & -> & _). cbn [load rbind].
  destruct (rd_in_range payload 4 ltac:(lia)) as (t & -> & _). cbn [load rbind].
  destruct (Z.leb_spec c 15), (Z.leb_spec t 2); cbn [andb ensure rbind]; [|done..].
  split; [done|]. by intros ? ? [= <- <-].
Qed.

(** * The interface of a codec, and the tunnel over it *)

(** What a pair of codecs promises: while their states are [in_step], a packet
    of the kind they [carries] is compressed to something that fits, and what
    the other end makes of it is that packet or a refusal, and never undefined;
    both stay in step. *)
Class SafeCodec {S1 S2 : Type} (tx : Codec S1) (rx : Codec S2)
    (in_step : S1 -> S2 -> Prop) (carries : bytes -> Z -> Z -> Prop) : Prop := {
  safe_transfer : forall packet room cap s1 s2,
    in_step s1 s2 -> carries packet room cap ->
    exists compress decompress rohc s1',
      compress_fn tx = Some compress /\ decompress_fn rx = Some decompress /\
      compress packet room s1 = (Ok rohc, s1') /\ 0 < blen rohc <= room /\ bytes_ok rohc /\
      let (o, s2') := decompress rohc cap s2 in
      in_step s1' s2' /\ (o = Ok packet /\ blen packet <= cap \/ o = Rej) }.

(** C12: Over any pair of codecs that keeps the promise of the interface, a packet
    put into a datagram at one end is taken out of it at the other end octet
    for octet, or the receiver reports a codec failure, and the codecs stay in
    step; and for any datagram at all the receiver has no undefined behaviour
    of its own, leaves the codec alone when the frame is malformed, passes on
    feedback only for CIDs up to 15, and delivers only packets that an IPv4
    header of their length starts; feedback for such a CID is delivered. *)
Theorem tunnel_delivers {S1 S2} (tx : Codec S1) (rx : Codec S2) in_step carries
  (H : SafeCodec tx rx in_step carries) packet maximum room datagram_capacity cap s1 s2
  (Hstep : in_step s1 s2) (Hcarries : carries packet room cap)
  (Hvalid : validate_ipv4_packet packet maximum = Done tt)
  (Hroom : room <= 65535) (Hcap : room + envelope_size <= datagram_capacity) :
  (exists rohc datagram s1' s2' r,
     prepare_compressed_datagram tx packet maximum room datagram_capacity s1 =
       (Done (rohc, datagram), s1') /\ blen datagram <= datagram_capacity /\
     consume_datagram rx datagram maximum cap s2 = (r, s2') /\ in_step s1' s2' /\
     (r = Done (Compressed, packet) \/ r = Failed CodecFailure)) /\
  (forall datagram s, (forall d p c s, decompress_fn rx = Some d -> fst (d p c s) <> Ub) ->
     fst (consume_datagram rx datagram maximum cap s) <> Wild /\
     (forall e, decode_frame datagram = Failed e ->
        consume_datagram rx datagram maximum cap s = (Failed e, s)) /\
     (forall out, fst (consume_datagram rx datagram maximum cap s) = Done (Compressed, out) ->
        ipv4_framed out maximum /\ blen out <= cap) /\
     (forall out, fst (consume_datagram rx datagram maximum cap s) = Done (Feedback, out) ->
        exists f cid type, feedback_fn rx = Some f /\ cid <= 15 /\ type <= 2 /\
          snd (consume_datagram rx datagram maximum cap s) = f cid type s)) /\
  (forall f cid type s, feedback_fn rx = Some f -> 0 <= cid <= 15 -> 0 <= type <= 2 ->
     exists payload datagram, encode_feedback cid type 5 = Done payload /\
       encode_frame Feedback payload 13 = Done datagram /\
       consume_datagram rx datagram maximum cap s = (Done (Feedback, []), f cid type s)).
Proof.
  split; [|split].
  - destruct (safe_transfer packet room cap s1 s2 Hstep Hcarries)
      as (compress & decompress & rohc & s1' & Ec & Ed & Erun & Hlen & Hok & Hrx).
    destruct (decompress rohc cap s2) as [o s2'] eqn:Edec. destruct Hrx as [Hstep' Ho].
    assert (Hframe : exists datagram, encode_frame Compressed rohc datagram_capacity = Done datagram).
    { unfold encode_frame. change (known_type Compressed) with true. cbn [ensure rbind].
      rewrite (proj2 (Z.ltb_ge 65535 _)), (proj2 (Z.ltb_ge datagram_capacity _)) by lia. by eexists. }
    destruct Hframe as (datagram & Hframe).
    destruct (encode_decode_frame Compressed rohc datagram_capacity datagram Hframe Hok) as [Hfit Hdec];
      [intros _ ->; rewrite blen_nil in Hlen; lia|done|].
    exists rohc, datagram, s1', s2'.
    unfold prepare_compressed_datagram, consume_datagram. rewrite Hvalid, Ec, Erun, Hdec, Ed.
    rewrite (proj2 (Z.eqb_neq _ 0)), (proj2 (Z.ltb_ge room _)) by lia. cbn [orb].
    rewrite Hframe. cbn [rbind]. change (Compressed =? Feedback) with false. rewrite Edec.
    destruct Ho as [[-> Hl]| ->].
    + rewrite (proj2 (Z.ltb_ge cap _)) by lia. rewrite Hvalid. cbn [rbind]. eexists. split_and!; eauto.
    + eexists. split_and!; eauto.
  - intros datagram s Hub. unfold consume_datagram. pose proof (decode_frame_safe datagram) as Hsafe.
    destruct (decode_frame datagram) as [[type payload]|e|]; [|split_and!; [done|by intros ? [= ->]|done..]|done].
    destruct (Z.eqb_spec type Feedback) as [->|Ht].
    + pose proof (decode_feedback_safe payload) as [Hf Hb].
      destruct (decode_feedback payload) as [[c t]|e|]; [|split_and!; done|done].
      destruct (Hb c t eq_refl). destruct (feedback_fn rx) as [f|]; [|split_and!; done].
      split_and!; try done. intros out _. by exists f, c, t.
    + destruct (decompress_fn rx) as [d|]; [|split_and!; done].
      specialize (Hub d payload cap s eq_refl). destruct (d payload cap s) as [[out| |] s'];
        [|split_and!; done|done].
      destruct (Z.ltb_spec cap (blen out)); [split_and!; done|].
      pose proof (validate_framed out maximum) as [Hv Hfr].
      destruct (validate_ipv4_packet out maximum) as [[]|e|]; cbn [rbind fst snd]; [|split_and!; done|done].
      split_and!; [done|done| |].
      * intros out' [= _ <-]. split; [by apply Hfr|done].
      * intros out' [= E _]. done.
  - intros f cid type s Hf Hc Ht.
    assert (E : exists payload, encode_feedback cid type 5 = Done payload).
    { unfold encode_feedback. rewrite (proj2 (Z.ltb_ge 15 cid)), (proj2 (Z.ltb_ge 2 type)) by lia.
      by eexists. }
    destruct E as (payload & E).
    destruct (encode_decode_feedback cid type 5 payload ltac:(lia) ltac:(lia) E) as (Hl & Hok & Hd).
    assert (Ef : exists datagram, encode_frame Feedback payload 13 = Done datagram).
    { unfold encode_frame. change (known_type Feedback) with true. rewrite Hl. by eexists. }
    destruct Ef as (datagram & Ef).
    destruct (encode_decode_frame Feedback payload 13 datagram Ef Hok) as [_ Hdec]; [done|done|].
    exists payload, datagram. split_and!; [done|done|].
    unfold consume_datagram. rewrite Hdec, Z.eqb_refl, Hd, Hf. done.
Qed.

(** ** The C++ classes as a codec *)

Definition compressor_codec : Codec Compressor :=
  mkCodec _ (Some (fun packet room c => let (o, s) := compress packet (mkcall c room) in (o, self s)))
    None None.
Definition decompressor_codec : Codec Decompressor :=
  mkCodec _ None
    (Some (fun rohc cap d => let (o, s) := decompress rohc (mkdcall d cap) in (o, d_self s))) None.

(** They carry RTP packets between a compressor and a decompressor on CID 0. *)
Definition carries_rtp (packet : bytes) (room cap : Z) : Prop :=
  exists p, packet = wire p /\ packet_ok p /\ fits room cap p.

#[export] Instance classes_safe :
  SafeCodec compressor_codec decompressor_codec (fun c d => link_ready (mkLink c d)) carries_rtp.
Proof.
  split. intros packet room cap c d Hready (p & -> & Hp & Hfit).
  pose proof Hready as (ctx & rx & Hc & Hr & _). cbn [l_tx l_rx] in Hc.
  pose proof (transfer_exact room cap p (mkLink c d) Hready Hp Hfit) as W.
  pose proof Hfit as (Hroom & Hcap & Hsz). pose proof (blen_nonneg (p_payload p)).
  unfold transfer in W. cbn [l_tx l_rx] in W. rewrite (compress_wire c ctx) in W by done.
  set (rohc := header StdRTP (described p ctx) ++ p_payload p) in *.
  set (c' := counted (sent p ctx) c) in *.
  assert (Hlen : 0 < blen rohc <= room /\ bytes_ok rohc).
  { pose proof (described_expressible p ctx Hr) as (Hcid & Hexp & _).
    pose proof (described_ok p ctx Hp Hr) as Hok. pose proof (described_lists p ctx) as (Ev & _).
    pose proof (rtp_header_len _ Hok Hexp Ev). unfold rohc. rewrite blen_app. split.
    - split; [|lia]. unfold header, ir_packet. rewrite blen_app.
      pose proof (ir_head_len (described p ctx) 0xFD (profile_octet StdRTP)
        (crc8 (ir_head (described p ctx) 0xFD (profile_octet StdRTP) 0 ++ chains StdRTP (described p ctx)))).
      pose proof (blen_nonneg (chains StdRTP (described p ctx))). lia.
    - apply bytes_ok_app. split; [by apply header_ok|]. unfold packet_ok in Hp. by decompose [and] Hp. }
  exists (fun packet room c => let (o, s) := compress packet (mkcall c room) in (o, self s)).
  exists (fun rohc cap d => let (o, s) := decompress rohc (mkdcall d cap) in (o, d_self s)).
  exists rohc, c'. split; [done|]. split; [done|].
  split; [by rewrite (compress_wire c ctx)|]. split; [tauto|]. split; [tauto|].
  cbn [self] in W. destruct (decompress rohc (mkdcall d cap)) as [[ip| |] s'].
  - destruct W as [Hready' [[= ->]|[E _]]]; [|done]. split; [done|]. left. split; [done|].
    rewrite blen_wire. lia.
  - destruct W as [Hready' [E|_]]; [done|]. split; [done|]. by right.
  - destruct W as [_ [E|[E _]]]; done.
Qed.

(** A call's first packet through the tunnel. *)
Lemma tunnel_delivers_witness :
  exists rohc datagram s1' s2' r,
    prepare_compressed_datagram compressor_codec (wire (sample_packet 0)) 1500 128 256
      (l_tx sample_link) = (Done (rohc, datagram), s1') /\
    consume_datagram decompressor_codec datagram 1500 128 (l_rx sample_link) = (r, s2') /\
    (r = Done (Compressed, wire (sample_packet 0)) \/ r = Failed CodecFailure).
Proof.
  destruct (tunnel_delivers compressor_codec decompressor_codec
    (fun c d => link_ready (mkLink c d)) carries_rtp classes_safe (wire (sample_packet 0)) 1500 128 256 128
    (l_tx sample_link) (l_rx sample_link)) as [(rohc & datagram & s1' & s2' & r & E1 & _ & E2 & _ & Hr) _].
  - apply (fresh_ready 0 0); [lia|lia|exact sample_link_fresh].
  - exists (sample_packet 0). split; [done|].
    pose proof (sample_packet_ok 0 ltac:(lia)) as (? & ? & _). done.
  - vm_compute. reflexivity.
  - lia.
  - unfold envelope_size. lia.
  - exists rohc, datagram, s1', s2', r. split; [exact E1|]. split; [exact E2|exact Hr].
Defined.
