(* ===== verification/Ppp.v ===== *)
(** * Negotiation over PPP: include/rohccxx/core/ppp.hpp

    The IP-compression option of RFC 3241: parsing, writing, and the merge of
    two peers' options into one channel. *)

From S2P Require Import Prelude Cursor.
From Stdlib Require Import Sorting.Sorted.

Definition ip_compression_option_type : Z := 2.
Definition ip_compression_protocol_rohc : Z := 0x0003.
Definition protocol_rohc_small_cid : Z := 0x0003.
Definition protocol_rohc_large_cid : Z := 0x0005.
Definition suboption_profiles : Z := 1.
Definition max_cid_limit : Z := 16383.
Definition max_profiles : Z := 16.

Record RohcOption := mkRohcOption {
  max_cid : Z; mrru : Z; max_header : Z; profiles : list Z; profile_count : Z }.

(** [RohcOption{}], with the suggested values. *)
Definition default_option : RohcOption := mkRohcOption 15 0 168 (repeat 0 16) 0.

Definition is_rohc_protocol_field (protocol : Z) : bool :=
  (protocol =? protocol_rohc_small_cid) || (protocol =? protocol_rohc_large_cid).
Definition uses_large_cid_protocol (protocol : Z) : bool := protocol =? protocol_rohc_large_cid.

(** [option.profiles[i]]. *)
Definition profile_at (o : RohcOption) (i : Z) : outcome Z := rd (profiles o) i.

Definition append_profile (o : RohcOption) (profile : Z) : outcome RohcOption :=
  check negb (max_profiles <=? profile_count o) in
  let! blocked :=
    if 0 <? profile_count o then
      let! last := profile_at o (profile_count o - 1) in Ok (profile <=? last)
    else Ok false in
  check negb blocked in
  if blen (profiles o) <=? profile_count o then Ub else
  Ok (mkRohcOption (max_cid o) (mrru o) (max_header o)
        (<[Z.to_nat (profile_count o) := profile]> (profiles o)) (profile_count o + 1)).

Definition valid (o : RohcOption) : bool :=
  (max_cid o <=? max_cid_limit) && (0 <? profile_count o) && (profile_count o <=? max_profiles).

Definition read_u16 (data : bytes) (pos : Z) : outcome Z :=
  check pos + 2 <=? blen data in rd_u16 data pos.

Definition write_u16 (value : Z) : M wst unit :=
  r <- gets room ;;
  guard (2 <=? r) ;;;
  put (u8 (Z.shiftr value 8)) ;;;
  put (Z.land value 0xFF).

(** [if(!append_profile(option, profile)) return false]. *)
Definition append (profile : Z) : M RohcOption unit :=
  o <- gets (fun o => o) ;;
  o' <- lift (append_profile o profile) ;;
  modify (fun _ => o').

(** The [n] profiles of a suboption. *)
Fixpoint read_profiles (data : bytes) (pos : Z) (n : nat) : M RohcOption unit :=
  match n with
  | O => ret tt
  | S n =>
      profile <- lift (read_u16 data pos) ;;
      append profile ;;;
      read_profiles data (pos + 2) n
  end.

(** The suboptions; each takes two octets at least. *)
Fixpoint read_suboptions (fuel : nat) (data : bytes) (pos : Z) : M RohcOption unit :=
  if pos <? blen data then
    match fuel with
    | O => lift Ub
    | S fuel =>
        guard (pos + 2 <=? blen data) ;;;
        type <- lift (rd data pos) ;;
        sub_len <- lift (rd data (pos + 1)) ;;
        guard (negb ((sub_len <? 2) || (blen data <? pos + sub_len))) ;;;
        (if type =? suboption_profiles then
           guard (negb ((sub_len <? 4) || negb ((sub_len - 2) mod 2 =? 0))) ;;;
           read_profiles data (pos + 2) (Z.to_nat ((sub_len - 2) / 2))
         else ret tt) ;;;
        read_suboptions fuel data (pos + sub_len)
    end
  else ret tt.

Definition set_ids (cid mrru_ header : Z) (o : RohcOption) : RohcOption :=
  mkRohcOption cid mrru_ header (profiles o) (profile_count o).

(** The option is the caller's: a refusal leaves what was stored so far. *)
Definition parse_rohc_option (data : bytes) : M RohcOption unit :=
  modify (fun _ => default_option) ;;;
  guard (negb (blen data <? 10)) ;;;
  d0 <- lift (rd data 0) ;;
  d1 <- lift (rd data 1) ;;
  guard ((d0 =? ip_compression_option_type) && (d1 =? blen data)) ;;;
  protocol <- lift (read_u16 data 2) ;;
  guard (protocol =? ip_compression_protocol_rohc) ;;;
  cid <- lift (read_u16 data 4) ;;
  modify (fun o => set_ids cid (mrru o) (max_header o) o) ;;;
  guard (cid <=? max_cid_limit) ;;;
  m <- lift (read_u16 data 6) ;;
  modify (fun o => set_ids (max_cid o) m (max_header o) o) ;;;
  h <- lift (read_u16 data 8) ;;
  modify (fun o => set_ids (max_cid o) (mrru o) h o) ;;;
  read_suboptions (length data) data 10 ;;;
  o <- gets (fun o => o) ;;
  guard (valid o).

Fixpoint write_profiles (o : RohcOption) (i : Z) (n : nat) : M wst unit :=
  match n with
  | O => ret tt
  | S n =>
      profile <- lift (profile_at o i) ;;
      write_u16 profile ;;;
      write_profiles o (i + 1) n
  end.

Definition write_rohc_option (o : RohcOption) : M wst unit :=
  guard (valid o) ;;;
  let needed := 10 + 2 + profile_count o * 2 in
  r <- gets room ;;
  guard (negb ((255 <? needed) || (r <? needed))) ;;;
  put ip_compression_option_type ;;;
  put (u8 needed) ;;;
  write_u16 ip_compression_protocol_rohc ;;;
  write_u16 (max_cid o) ;;;
  write_u16 (mrru o) ;;;
  write_u16 (max_header o) ;;;
  put suboption_profiles ;;;
  put (u8 (2 + profile_count o * 2)) ;;;
  write_profiles o 0 (Z.to_nat (profile_count o)).

(** The loop over both profile lists; each round takes a profile of one of them. *)
Fixpoint merge_loop (fuel : nat) (a b : RohcOption) (ai bi : Z) : M RohcOption unit :=
  if (ai <? profile_count a) || (bi <? profile_count b) then
    match fuel with
    | O => lift Ub
    | S fuel =>
        take_a <- lift (
          if profile_count b <=? bi then Ok true
          else if ai <? profile_count a then
            let! x := profile_at a ai in let! y := profile_at b bi in Ok (x <? y)
          else Ok false) ;;
        if take_a then
          x <- lift (profile_at a ai) ;;
          append x ;;;
          merge_loop fuel a b (ai + 1) bi
        else
          take_b <- lift (
            if profile_count a <=? ai then Ok true
            else let! y := profile_at b bi in let! x := profile_at a ai in Ok (y <? x)) ;;
          if take_b then
            y <- lift (profile_at b bi) ;;
            append y ;;;
            merge_loop fuel a b ai (bi + 1)
          else
            x <- lift (profile_at a ai) ;;
            append x ;;;
            merge_loop fuel a b (ai + 1) (bi + 1)
    end
  else ret tt.

Definition larger (x y : Z) : Z := if y <? x then x else y.

Definition merge_channel_options (a b : RohcOption) : M RohcOption unit :=
  guard (negb (negb (valid a) || negb (valid b))) ;;;
  modify (fun _ => set_ids (larger (max_cid a) (max_cid b)) (larger (mrru a) (mrru b))
                     (larger (max_header a) (max_header b)) default_option) ;;;
  merge_loop (Z.to_nat (profile_count a + profile_count b)) a b 0 0 ;;;
  o <- gets (fun o => o) ;;
  guard (valid o).

(** * The profile list *)

Definition listed (o : RohcOption) : list Z := take (Z.to_nat (profile_count o)) (profiles o).

Definition word_ok (v : Z) : Prop := 0 <= v < 2 ^ 16.

(** Every field in its type, and the profiles strictly increasing. *)
Definition option_ok (o : RohcOption) : Prop :=
  length (profiles o) = 16%nat /\ Forall word_ok (profiles o) /\ 0 <= profile_count o <= 16 /\
  word_ok (max_cid o) /\ word_ok (mrru o) /\ word_ok (max_header o) /\
  StronglySorted Z.lt (listed o).

Definition same_ids (o o' : RohcOption) : Prop :=
  max_cid o' = max_cid o /\ mrru o' = mrru o /\ max_header o' = max_header o.

Lemma listed_length o : option_ok o -> Z.of_nat (length (listed o)) = profile_count o.
Proof. intros (Hl & _ & Hc & _). unfold listed. rewrite length_take. lia. Qed.

Lemma default_option_ok : option_ok default_option.
Proof.
  assert (Forall word_ok (repeat 0 16)) by (repeat constructor; unfold word_ok; lia).
  unfold option_ok, word_ok. cbn [default_option profiles profile_count max_cid mrru max_header].
  split_and!; try lia; try done. constructor.
Qed.

Lemma sorted_snoc (l : list Z) x :
  StronglySorted Z.lt (l ++ [x]) <-> StronglySorted Z.lt l /\ Forall (fun y => y < x) l.
Proof.
  induction l as [|y l IH]; cbn.
  - split; [intros _; split; constructor|intros _; repeat constructor].
  - split.
    + intros H. inversion H as [|? ? Hs Hf]; subst. apply IH in Hs as [Hs Hx].
      apply Forall_app in Hf as [Hf Hy]. apply Forall_cons_iff in Hy as [Hy _].
      split; [by constructor|by apply Forall_cons_iff].
    + intros [H Hx]. inversion H as [|? ? Hs Hf]; subst. apply Forall_cons_iff in Hx as [Hy Hx].
      constructor; [by apply IH|]. apply Forall_app. split; [done|by repeat constructor].
Qed.

(** The last of a sorted list bounds it. *)
Lemma sorted_last (l : list Z) z x :
  StronglySorted Z.lt (l ++ [z]) -> z < x -> Forall (fun y => y < x) (l ++ [z]).
Proof.
  intros [_ Hf]%sorted_snoc Hz. apply Forall_app. split; [|by repeat constructor].
  eapply List.Forall_impl; [|exact Hf]. cbv beta. lia.
Qed.

Definition pushed (o : RohcOption) (x : Z) : RohcOption :=
  mkRohcOption (max_cid o) (mrru o) (max_header o)
    (<[Z.to_nat (profile_count o) := x]> (profiles o)) (profile_count o + 1).

Lemma listed_pushed o x : option_ok o -> profile_count o < 16 -> listed (pushed o x) = listed o ++ [x].
Proof.
  intros (Hl & _ & Hc & _) Hlt. unfold listed, pushed. cbn [profile_count profiles].
  replace (Z.to_nat (profile_count o + 1)) with (S (Z.to_nat (profile_count o))) by lia.
  rewrite (take_S_r _ _ x) by (apply list_lookup_insert_eq; lia). by rewrite take_insert_ge by lia.
Qed.

(** A profile is appended exactly when there is room and it is larger than all
    before it. *)
Lemma append_profile_spec o x : option_ok o -> word_ok x ->
  (profile_count o < 16 /\ StronglySorted Z.lt (listed o ++ [x]) /\
     append_profile o x = Ok (pushed o x) /\ option_ok (pushed o x)) \/
  (~ (profile_count o < 16 /\ StronglySorted Z.lt (listed o ++ [x])) /\ append_profile o x = Rej).
Proof.
  intros Hok Hx. pose proof (listed_length o Hok) as Hlen.
  pose proof Hok as (Hl & Hw & Hc & H1 & H2 & H3 & Hs). unfold append_profile, max_profiles.
  destruct (Z.leb_spec 16 (profile_count o)) as [|Hlt]; [right; split; [lia|done]|].
  cbn [negb oguard obind].
  assert (Hb : blen (profiles o) = 16) by (unfold blen; lia).
  assert (Hstep : StronglySorted Z.lt (listed o ++ [x]) -> option_ok (pushed o x)).
  { intros Hsx. unfold option_ok. rewrite listed_pushed by done. unfold pushed. cbn.
    rewrite length_insert. split_and!; try done; try lia. by apply Forall_insert. }
  rewrite Hb, (proj2 (Z.leb_gt 16 _)) by lia.
  destruct (Z.ltb_spec 0 (profile_count o)) as [Hp|Hz].
  - unfold profile_at. rewrite rd_nth by lia. cbn [obind].
    set (n := Z.to_nat (profile_count o - 1)).
    assert (Hsplit : listed o = take n (profiles o) ++ [nth n (profiles o) 0]).
    { unfold listed. replace (Z.to_nat (profile_count o)) with (S n) by lia.
      apply take_S_r. destruct (nth_lookup_or_length (profiles o) n 0) as [E|E]; [exact E|lia]. }
    set (z := nth n (profiles o) 0) in *.
    destruct (Z.leb_spec x z) as [Hle|Hgt]; cbn [negb oguard obind].
    + right. split; [|done]. intros [_ [_ Hf]%sorted_snoc]. rewrite Hsplit in Hf.
      apply Forall_app in Hf as [_ Hf]. apply Forall_cons_iff in Hf as [Hf _]. lia.
    + assert (Hsx : StronglySorted Z.lt (listed o ++ [x])).
      { apply sorted_snoc. split; [done|]. rewrite Hsplit in Hs |- *. apply sorted_last; [done|lia]. }
      left. split_and!; [done|done|done|by apply Hstep].
  - cbn [negb oguard obind]. assert (Hnil : listed o = []).
    { destruct (listed o); [done|]. cbn [length] in Hlen. lia. }
    assert (Hsx : StronglySorted Z.lt (listed o ++ [x])) by (rewrite Hnil; repeat constructor).
    left. split_and!; [done|done|done|by apply Hstep].
Qed.

(** Appending a list of profiles, one after the other. *)
Fixpoint appends (l : list Z) : M RohcOption unit :=
  match l with [] => ret tt | x :: l => append x ;;; appends l end.

Definition fits_list (o : RohcOption) (l : list Z) : Prop :=
  StronglySorted Z.lt (listed o ++ l) /\ profile_count o + Z.of_nat (length l) <= 16.

Lemma sorted_app_l (l k : list Z) : StronglySorted Z.lt (l ++ k) -> StronglySorted Z.lt l.
Proof.
  revert l. induction k as [|x k IH] using rev_ind; intros l; [by rewrite app_nil_r|].
  rewrite app_assoc. intros [H _]%sorted_snoc. by apply IH.
Qed.

Lemma append_ok o x o' : append_profile o x = Ok o' -> append x o = (Ok tt, o').
Proof. intros E. unfold append. erewrite bind_ok by reflexivity. by rewrite E. Qed.

Lemma append_rej o x : append_profile o x = Rej -> append x o = (Rej, o).
Proof. intros E. unfold append. erewrite bind_ok by reflexivity. by rewrite E. Qed.

Lemma appends_spec l o : option_ok o -> Forall word_ok l ->
  (fits_list o l /\ exists o', appends l o = (Ok tt, o') /\ option_ok o' /\ same_ids o o' /\
     listed o' = listed o ++ l) \/
  (~ fits_list o l /\ exists o', appends l o = (Rej, o') /\ option_ok o').
Proof.
  revert o. induction l as [|x l IH]; intros o Hok Hw.
  - left. pose proof Hok as (_ & _ & Hc & _ & _ & _ & Hs). unfold fits_list. rewrite app_nil_r.
    cbn [length]. split; [split; [done|lia]|]. exists o.
    split; [done|]. split; [done|]. split; [by repeat split|done].
  - apply Forall_cons_iff in Hw as [Hx Hw]. cbn [appends].
    assert (Hfits : fits_list o (x :: l) <->
      (profile_count o < 16 /\ StronglySorted Z.lt (listed o ++ [x])) /\
      StronglySorted Z.lt ((listed o ++ [x]) ++ l) /\ profile_count o + 1 + Z.of_nat (length l) <= 16).
    { unfold fits_list. cbn [length]. rewrite <- app_assoc. cbn [app]. split.
      - intros [Hs Hlen]. split_and!; [lia| |done|lia].
        change (x :: l) with ([x] ++ l) in Hs. rewrite app_assoc in Hs. by apply sorted_app_l in Hs.
      - intros (_ & Hs & Hlen). split; [done|lia]. }
    destruct (append_profile_spec o x Hok Hx) as [(Hlt & Hs & E & Hok')|[Hn E]].
    + erewrite bind_ok by (by apply append_ok).
      destruct (IH (pushed o x) Hok' Hw) as [([Hs' Hl'] & o' & Eo & Hoo & Hids & Hlo)|(Hnf & o' & Eo & Hoo)].
      * left. rewrite listed_pushed in Hs', Hlo by done. cbn [pushed profile_count] in Hl'.
        split; [by apply Hfits|]. exists o'. split_and!; [done|done|exact Hids|].
        rewrite Hlo, <- app_assoc. done.
      * right. split; [|by exists o']. intros (_ & Hs' & Hl')%Hfits. apply Hnf.
        unfold fits_list. rewrite listed_pushed by done. by split.
    + right. split; [by intros [? _]%Hfits|]. exists o. split; [|done].
      unfold bind. by rewrite append_rej.
Qed.

(** * Merging *)

(** The union of two strictly increasing lists. *)
Fixpoint union_of (a : list Z) : list Z -> list Z :=
  match a with
  | [] => fun b => b
  | x :: a' =>
      fix union_with b :=
        match b with
        | [] => x :: a'
        | y :: b' =>
            if x <? y then x :: union_of a' b
            else if y <? x then y :: union_with b'
            else x :: union_of a' b'
        end
  end.

Lemma union_of_in a b z : In z (union_of a b) <-> In z a \/ In z b.
Proof.
  revert b. induction a as [|x a IHa]; [cbn; tauto|]. induction b as [|y b IHb]; [cbn; tauto|].
  change (union_of (x :: a) (y :: b)) with
    (if x <? y then x :: union_of a (y :: b)
     else if y <? x then y :: union_of (x :: a) b else x :: union_of a b).
  destruct (Z.ltb_spec x y); [|destruct (Z.ltb_spec y x)].
  - cbn [In] in *. rewrite IHa. cbn [In]. tauto.
  - cbn [In] in IHb |- *. rewrite IHb. tauto.
  - assert (x = y) as -> by lia. cbn [In]. rewrite IHa. tauto.
Qed.

Lemma sorted_cons_iff x (l : list Z) :
  StronglySorted Z.lt (x :: l) <-> StronglySorted Z.lt l /\ (forall z, In z l -> x < z).
Proof.
  split.
  - intros H. inversion H as [|? ? Hs Hf]; subst. split; [done|]. by apply List.Forall_forall.
  - intros [Hs Hf]. constructor; [done|]. by apply List.Forall_forall.
Qed.

Lemma union_of_sorted a b :
  StronglySorted Z.lt a -> StronglySorted Z.lt b -> StronglySorted Z.lt (union_of a b).
Proof.
  intros Ha. revert b. induction a as [|x a IHa]; [done|]. apply sorted_cons_iff in Ha as [Ha Hx].
  specialize (IHa Ha). induction b as [|y b IHb]; intros Hb; [cbn; by apply sorted_cons_iff|].
  change (union_of (x :: a) (y :: b)) with
    (if x <? y then x :: union_of a (y :: b)
     else if y <? x then y :: union_of (x :: a) b else x :: union_of a b).
  pose proof Hb as [Hb' Hy]%sorted_cons_iff.
  destruct (Z.ltb_spec x y); [|destruct (Z.ltb_spec y x)]; apply sorted_cons_iff.
  - split; [by apply IHa|]. intros z [Hz|[<-|Hz]]%union_of_in; [by apply Hx|done|].
    specialize (Hy z Hz). lia.
  - split; [by apply IHb|]. intros z [[<-|Hz]|Hz]%union_of_in; [done| |by apply Hy].
    specialize (Hx z Hz). lia.
  - split; [by apply IHa|]. intros z [Hz|Hz]%union_of_in; [by apply Hx|].
    specialize (Hy z Hz). lia.
Qed.

Lemma listed_at o i : option_ok o -> 0 <= i < profile_count o ->
  exists x, profile_at o i = Ok x /\ drop (Z.to_nat i) (listed o) = x :: drop (Z.to_nat (i + 1)) (listed o).
Proof.
  intros Hok Hi. pose proof (listed_length o Hok) as Hlen. pose proof Hok as (Hl & _ & Hc & _).
  unfold profile_at. rewrite rd_nth by (unfold blen; lia). eexists. split; [done|].
  replace (Z.to_nat (i + 1)) with (S (Z.to_nat i)) by lia. apply drop_S.
  unfold listed. rewrite lookup_take_lt by lia.
  destruct (nth_lookup_or_length (profiles o) (Z.to_nat i) 0) as [E|E]; [exact E|lia].
Qed.

Lemma listed_end o i : option_ok o -> profile_count o <= i -> drop (Z.to_nat i) (listed o) = [].
Proof.
  intros Hok Hi. pose proof (listed_length o Hok) as Hlen. pose proof Hok as (_ & _ & Hc & _).
  apply drop_ge. lia.
Qed.

(** The loop appends the union of what is left of both lists. *)
Lemma merge_loop_union fuel a b ai bi m :
  option_ok a -> option_ok b -> 0 <= ai <= profile_count a -> 0 <= bi <= profile_count b ->
  profile_count a - ai + (profile_count b - bi) <= Z.of_nat fuel ->
  merge_loop fuel a b ai bi m =
  appends (union_of (drop (Z.to_nat ai) (listed a)) (drop (Z.to_nat bi) (listed b))) m.
Proof.
  intros Ha Hb. revert ai bi m. induction fuel as [|fuel IH]; intros ai bi m Hai Hbi Hf; cbn [merge_loop].
  { rewrite (proj2 (Z.ltb_ge ai _)), (proj2 (Z.ltb_ge bi _)) by lia. cbn [orb].
    by rewrite !listed_end by (done || lia). }
  destruct (Z.ltb_spec ai (profile_count a)) as [Hlta|Hgea].
  - destruct (listed_at a ai Ha ltac:(lia)) as (x & Ex & Dx).
    rewrite Dx. cbn [orb]. destruct (Z.leb_spec (profile_count b) bi) as [Hgeb|Hltb].
    + rewrite (listed_end b bi) by (done || lia). erewrite bind_ok by reflexivity.
      rewrite Ex. erewrite bind_ok by reflexivity.
      change (union_of (x :: drop (Z.to_nat (ai + 1)) (listed a)) [])
        with ([x] ++ drop (Z.to_nat (ai + 1)) (listed a)).
      cbn [app appends]. unfold bind at 1 2. destruct (append x m) as [[[]| |] m']; [|done|done].
      rewrite IH by lia. rewrite (listed_end b bi) by (done || lia).
      by destruct (drop (Z.to_nat (ai + 1)) (listed a)).
    + destruct (listed_at b bi Hb ltac:(lia)) as (y & Ey & Dy). rewrite Dy, Ex, Ey. cbn [obind].
      change (union_of (x :: drop (Z.to_nat (ai + 1)) (listed a)) (y :: drop (Z.to_nat (bi + 1)) (listed b)))
        with (if x <? y then x :: union_of (drop (Z.to_nat (ai + 1)) (listed a)) (y :: drop (Z.to_nat (bi + 1)) (listed b))
              else if y <? x then y :: union_of (x :: drop (Z.to_nat (ai + 1)) (listed a)) (drop (Z.to_nat (bi + 1)) (listed b))
              else x :: union_of (drop (Z.to_nat (ai + 1)) (listed a)) (drop (Z.to_nat (bi + 1)) (listed b))).
      erewrite bind_ok by reflexivity. destruct (x <? y).
      * erewrite bind_ok by reflexivity. cbn [appends]. unfold bind at 1 2.
        destruct (append x m) as [[[]| |] m']; [|done|done]. rewrite IH by lia. by rewrite Dy.
      * rewrite (proj2 (Z.leb_gt _ ai)) by lia. erewrite bind_ok by reflexivity.
        destruct (y <? x); erewrite bind_ok by reflexivity; cbn [appends]; unfold bind at 1 2.
        -- destruct (append y m) as [[[]| |] m']; [|done|done]. rewrite IH by lia. by rewrite Dx.
        -- destruct (append x m) as [[[]| |] m']; [|done|done]. by rewrite IH by lia.
  - rewrite (listed_end a ai) by (done || lia). cbn [orb union_of].
    destruct (Z.ltb_spec bi (profile_count b)) as [Hltb|Hgeb].
    + destruct (listed_at b bi Hb ltac:(lia)) as (y & Ey & Dy). rewrite Dy.
      rewrite (proj2 (Z.leb_gt _ bi)) by lia. erewrite bind_ok by reflexivity.
      rewrite (proj2 (Z.leb_le _ ai)) by lia. erewrite bind_ok by reflexivity.
      rewrite Ey. erewrite bind_ok by reflexivity. cbn [appends]. unfold bind at 1 2.
      destruct (append y m) as [[[]| |] m']; [|done|done]. rewrite IH by lia.
      by rewrite (listed_end a ai) by (done || lia).
    + by rewrite (listed_end b bi) by (done || lia).
Qed.

Lemma sorted_unique (l k : list Z) :
  StronglySorted Z.lt l -> StronglySorted Z.lt k -> (forall x, In x l <-> In x k) -> l = k.
Proof.
  revert k. induction l as [|x l IH]; intros [|y k] Hl Hk H; [done| | |].
  - destruct (proj2 (H y) (or_introl eq_refl)).
  - destruct (proj1 (H x) (or_introl eq_refl)).
  - apply sorted_cons_iff in Hl as [Hl Hx]. apply sorted_cons_iff in Hk as [Hk Hy].
    assert (x = y) as ->.
    { destruct (proj1 (H x) (or_introl eq_refl)) as [->|Hxk]; [done|].
      destruct (proj2 (H y) (or_introl eq_refl)) as [->|Hyl]; [done|].
      specialize (Hx y Hyl). specialize (Hy x Hxk). lia. }
    f_equal. apply IH; [done|done|]. intros z. split; intros Hz.
    + destruct (proj1 (H z) (or_intror Hz)) as [->|]; [|done]. specialize (Hx z Hz). lia.
    + destruct (proj2 (H z) (or_intror Hz)) as [->|]; [|done]. specialize (Hy z Hz). lia.
Qed.

Lemma listed_words o : option_ok o -> Forall word_ok (listed o).
Proof. intros (_ & Hw & _). by apply Forall_take. Qed.

Lemma larger_max x y : larger x y = Z.max x y.
Proof. unfold larger. destruct (Z.ltb_spec y x); lia. Qed.

Lemma merge_result a b s : option_ok a -> option_ok b -> valid a = true -> valid b = true ->
  let u := union_of (listed a) (listed b) in
  if (length u <=? 16)%nat then
    exists m, merge_channel_options a b s = (Ok tt, m) /\ option_ok m /\ valid m = true /\
      listed m = u /\ max_cid m = Z.max (max_cid a) (max_cid b) /\
      mrru m = Z.max (mrru a) (mrru b) /\ max_header m = Z.max (max_header a) (max_header b)
  else fst (merge_channel_options a b s) = Rej.
Proof.
  intros Ha Hb Hva Hvb u. unfold merge_channel_options. rewrite Hva, Hvb.
  do 2 (erewrite bind_ok by reflexivity). rewrite !larger_max.
  set (m0 := set_ids _ _ _ default_option).
  pose proof Ha as (_ & _ & Hca & ? & ? & ? & Hsa). pose proof Hb as (_ & _ & Hcb & ? & ? & ? & Hsb).
  assert (Hm0 : option_ok m0).
  { destruct default_option_ok as (? & ? & ? & _ & _ & _ & ?). unfold m0, option_ok, set_ids.
    cbn [profiles profile_count max_cid mrru max_header]. unfold word_ok in *. split_and!; done || lia. }
  assert (Hwu : Forall word_ok u).
  { apply List.Forall_forall. intros x [Hx|Hx]%union_of_in;
      [apply (proj1 (List.Forall_forall _ _) (listed_words a Ha) x Hx)
      |apply (proj1 (List.Forall_forall _ _) (listed_words b Hb) x Hx)]. }
  assert (E : merge_loop (Z.to_nat (profile_count a + profile_count b)) a b 0 0 m0 = appends u m0).
  { rewrite merge_loop_union by (done || lia). done. }
  assert (Hsu : StronglySorted Z.lt u) by (by apply union_of_sorted).
  assert (Hfit : fits_list m0 u <-> (length u <= 16)%nat).
  { unfold fits_list. change (listed m0) with (@nil Z). change (profile_count m0) with 0. cbn [app].
    split; [lia|]. intros. split; [done|lia]. }
  destruct (appends_spec u m0 Hm0 Hwu) as [(Hf & m & Em & Hom & Hids & Hlm)|(Hnf & m & Em & Hom)].
  - rewrite (proj2 (Nat.leb_le _ 16)) by (by apply Hfit).
    change (listed m0 ++ u) with u in Hlm. exists m.
    assert (Hv : valid m = true).
    { destruct Hids as (H5 & _). pose proof Hom as (_ & _ & Hcm & _).
      pose proof (listed_length m Hom) as Hl. rewrite Hlm in Hl.
      assert (Hpos : (0 < length u)%nat).
      { pose proof (listed_length a Ha) as Hla. unfold valid in Hva. bool_prop.
        assert (Hin : forall z, In z (listed a) -> In z u) by (intros; apply union_of_in; by left).
        destruct (listed a) as [|x l]; [cbn in Hla; lia|].
        specialize (Hin x (or_introl eq_refl)). destruct u; [destruct Hin|cbn; lia]. }
      unfold valid, max_cid_limit, max_profiles in *. bool_prop.
      rewrite H5. change (max_cid m0) with (Z.max (max_cid a) (max_cid b)).
      rewrite !andb_true_iff, !Z.leb_le, Z.ltb_lt. lia. }
    split; [|by destruct Hids as (? & ? & ?)].
    unfold bind at 1. rewrite E, Em. erewrite bind_ok by reflexivity. by rewrite Hv.
  - rewrite (proj2 (Nat.leb_gt _ 16)).
    2: { destruct (Nat.ltb_spec 16 (length u)); [done|]. exfalso. apply Hnf, Hfit. lia. }
    unfold bind at 1. by rewrite E, Em.
Qed.

(** C36: Merging two peers' options takes the larger of each limit and exactly
    the union of their profiles, in increasing order; it succeeds when the
    union has at most 16 profiles and refuses otherwise; and the order of the
    peers does not matter. *)
Theorem merge_is_union a b s (Ha : option_ok a) (Hb : option_ok b)
  (Hva : valid a = true) (Hvb : valid b = true) :
  exists u, StronglySorted Z.lt u /\ (forall x, In x u <-> In x (listed a) \/ In x (listed b)) /\
  (if (length u <=? 16)%nat then
     exists m m', merge_channel_options a b s = (Ok tt, m) /\ option_ok m /\ valid m = true /\
       listed m = u /\ max_cid m = Z.max (max_cid a) (max_cid b) /\
       mrru m = Z.max (mrru a) (mrru b) /\ max_header m = Z.max (max_header a) (max_header b) /\
       merge_channel_options b a s = (Ok tt, m') /\ listed m' = u /\ same_ids m m'
   else fst (merge_channel_options a b s) = Rej /\ fst (merge_channel_options b a s) = Rej).
Proof.
  exists (union_of (listed a) (listed b)).
  pose proof Ha as (_ & _ & _ & _ & _ & _ & Hsa). pose proof Hb as (_ & _ & _ & _ & _ & _ & Hsb).
  split; [by apply union_of_sorted|]. split; [intros; apply union_of_in|].
  pose proof (merge_result a b s Ha Hb Hva Hvb) as M. pose proof (merge_result b a s Hb Ha Hvb Hva) as M'.
  cbv zeta in *.
  assert (E : union_of (listed b) (listed a) = union_of (listed a) (listed b)).
  { apply sorted_unique; [by apply union_of_sorted..|]. intros x. rewrite !union_of_in. tauto. }
  rewrite E in M'. destruct (length _ <=? 16)%nat; [|done].
  destruct M as (m & Em & Hm & Hv & Hl & H1 & H2 & H3), M' as (m' & Em' & _ & _ & Hl' & H1' & H2' & H3').
  exists m, m'. split_and!; try done. unfold same_ids. rewrite H1, H2, H3, H1', H2', H3'. split_and!; lia.
Qed.

Definition sample_option (ps : list Z) : RohcOption :=
  mkRohcOption 15 0 168 (ps ++ repeat 0 (16 - length ps)) (Z.of_nat (length ps)).

Lemma sample_option_ok : option_ok (sample_option [1; 2]) /\ option_ok (sample_option [2; 7]).
Proof.
  unfold option_ok, word_ok, sample_option, listed. cbn [profiles profile_count max_cid mrru max_header].
  split; split_and!; try (cbn; lia); try done; repeat constructor; unfold word_ok; lia.
Qed.

Lemma merge_is_union_witness :
  exists m, merge_channel_options (sample_option [1; 2]) (sample_option [2; 7]) default_option = (Ok tt, m) /\
    In 1 (listed m).
Proof.
  destruct sample_option_ok as [H1 H2].
  destruct (merge_is_union (sample_option [1; 2]) (sample_option [2; 7]) default_option H1 H2
    eq_refl eq_refl) as (u & _ & Hin & M).
  destruct (length u <=? 16)%nat.
  - destruct M as (m & m' & E & _ & _ & Hl & _). exists m. split; [exact E|]. rewrite Hl.
    apply Hin. left. vm_compute. left. reflexivity.
  - destruct M as [M _]. vm_compute in M. discriminate.
Defined.

(** * Writing and parsing *)

Definition profile_octets (l : list Z) : bytes := concat (map be16 l).

Definition option_octets (o : RohcOption) : bytes :=
  [2; 12 + 2 * profile_count o] ++ be16 3 ++ be16 (max_cid o) ++ be16 (mrru o) ++
  be16 (max_header o) ++ [1; 2 + 2 * profile_count o] ++ profile_octets (listed o).

Lemma blen_profile_octets l : blen (profile_octets l) = 2 * Z.of_nat (length l).
Proof.
  induction l as [|x l IH]; [done|]. unfold profile_octets in *. cbn [map concat length].
  rewrite blen_app, IH, blen_be16. lia.
Qed.

Lemma blen_option_octets o : option_ok o -> blen (option_octets o) = 12 + 2 * profile_count o.
Proof.
  intros Hok. unfold option_octets. rewrite !blen_app, !blen_be16, blen_profile_octets, listed_length by done.
  blen_lia.
Qed.

Lemma emits_write_u16 v : emits (write_u16 v) 2 (Some (be16 v)).
Proof.
  unfold write_u16. apply (emits_room (fun r => 2 <=? r) true _ 2 (Some (be16 v))).
  - intros. by apply Z.leb_le.
  - apply (emits_seq _ _ 1 1 (Some [u8 (Z.shiftr v 8)]) (Some [Z.land v 255])); [apply emits_put..|lia].
Qed.

Lemma emits_write_profiles o n i : option_ok o -> 0 <= i -> i + Z.of_nat n = profile_count o ->
  emits (write_profiles o i n) (2 * Z.of_nat n) (Some (profile_octets (drop (Z.to_nat i) (listed o)))).
Proof.
  intros Hok. revert i. induction n as [|n IH]; intros i Hi Hn; cbn [write_profiles].
  - rewrite listed_end by (done || lia). apply emits_ret.
  - destruct (listed_at o i Hok ltac:(lia)) as (x & Ex & ->).
    pose proof (emits_seq _ _ 2 (2 * Z.of_nat n) _ _ (emits_write_u16 x)
      (IH (i + 1) ltac:(lia) ltac:(lia)) ltac:(lia)) as H.
    intros s Hr. specialize (H s ltac:(lia)) as [Hb H].
    split; [etransitivity; [exact Hb|lia]|].
    rewrite Ex. erewrite bind_ok by reflexivity. exact H.
Qed.

Lemma write_option_run o cap : option_ok o -> valid o = true ->
  if 12 + 2 * profile_count o <=? cap then
    write_rohc_option o {| w_out := []; w_cap := cap |} =
      (Ok tt, {| w_out := option_octets o; w_cap := cap |})
  else fst (write_rohc_option o {| w_out := []; w_cap := cap |}) = Rej.
Proof.
  intros Hok Hv. pose proof Hok as (_ & _ & Hc & _).
  unfold write_rohc_option. rewrite Hv. do 2 (erewrite bind_ok by reflexivity).
  change (room {| w_out := []; w_cap := cap |}) with (cap - 0). rewrite Z.sub_0_r.
  rewrite (proj2 (Z.ltb_ge 255 _)) by lia. cbn [orb].
  destruct (Z.leb_spec (12 + 2 * profile_count o) cap) as [Hf|Hf].
  2: { rewrite (proj2 (Z.ltb_lt cap _)) by lia. done. }
  rewrite (proj2 (Z.ltb_ge cap _)) by lia. erewrite bind_ok by reflexivity.
  assert (E : emits (put ip_compression_option_type ;;; put (u8 (10 + 2 + profile_count o * 2)) ;;;
      write_u16 ip_compression_protocol_rohc ;;; write_u16 (max_cid o) ;;; write_u16 (mrru o) ;;;
      write_u16 (max_header o) ;;; put suboption_profiles ;;; put (u8 (2 + profile_count o * 2)) ;;;
      write_profiles o 0 (Z.to_nat (profile_count o)))
    (1 + (1 + (2 + (2 + (2 + (2 + (1 + (1 + 2 * Z.of_nat (Z.to_nat (profile_count o))))))))))
    (Some (option_octets o))).
  { eapply emits_eq.
    - do 2 (apply emits_seq; [apply emits_put| |lia]).
      do 4 (apply emits_seq; [apply emits_write_u16| |lia]).
      do 2 (apply emits_seq; [apply emits_put| |lia]). apply emits_write_profiles; (done || lia).
    - rewrite !u8_small by (unfold byte_ok; lia). unfold ocat, option_octets. cbn [app].
      replace (10 + 2 + profile_count o * 2) with (12 + 2 * profile_count o) by lia.
      by replace (2 + profile_count o * 2) with (2 + 2 * profile_count o) by lia. }
  apply (emits_run _ _ _ cap E). lia.
Qed.

Lemma read_profiles_at data l pos o post : Forall word_ok l ->
  suffix_at data pos (profile_octets l ++ post) ->
  read_profiles data pos (length l) o = appends l o.
Proof.
  intros Hw. revert pos o. induction l as [|x l IH]; intros pos o Hs; [done|].
  apply Forall_cons_iff in Hw as [Hx Hw]. specialize (IH Hw).
  cbn [length read_profiles appends]. unfold profile_octets in Hs. cbn [map concat] in Hs.
  rewrite <- app_assoc in Hs. pose proof (suffix_at_len _ _ _ Hs) as [Hp Hl].
  pose proof (suffix_at_app _ _ _ _ Hs) as Hs'.
  assert (E : rd_u16 data pos = Ok x) by (destruct Hs as (pre & -> & <-); by apply rd_u16_be16).
  unfold read_u16. rewrite (proj2 (Z.leb_le (pos + 2) _)) by (rewrite <- Hl; blen_lia).
  cbn [oguard obind]. rewrite E.
  erewrite bind_ok by reflexivity. unfold bind.
  destruct (append x o) as [[[]| |] o']; [|done|done].
  apply IH. exact Hs'.
Qed.

Lemma read_suboptions_one data l pos fuel o : Forall word_ok l ->
  (0 < length l)%nat -> 2 + 2 * Z.of_nat (length l) < 256 -> (2 <= fuel)%nat ->
  suffix_at data pos ([1; 2 + 2 * Z.of_nat (length l)] ++ profile_octets l) ->
  read_suboptions fuel data pos o = appends l o.
Proof.
  intros Hw Hpos Hlt Hf Hs. pose proof (suffix_at_len _ _ _ Hs) as [Hp Hl].
  rewrite blen_app, blen_profile_octets in Hl. change (blen [1; _]) with 2 in Hl.
  pose proof (suffix_at_app _ _ _ _ Hs) as Hs'. change (blen [1; _]) with 2 in Hs'.
  rewrite <- (app_nil_r (profile_octets l)) in Hs'.
  assert (R : rd data pos = Ok 1 /\ rd data (pos + 1) = Ok (2 + 2 * Z.of_nat (length l))).
  { destruct Hs as (pre & -> & <-). cbn [app]. by rewrite rd_app_0, rd_app. }
  destruct R as [R1 R2], fuel as [|[|fuel]]; [lia|lia|]. cbn [read_suboptions].
  rewrite (proj2 (Z.ltb_lt pos _)), (proj2 (Z.leb_le (pos + 2) _)) by lia.
  rewrite R1, R2. do 3 (erewrite bind_ok by reflexivity).
  rewrite (proj2 (Z.ltb_ge _ 2)), (proj2 (Z.ltb_ge (blen data) _)) by lia.
  erewrite bind_ok by reflexivity. change (1 =? suboption_profiles) with true. cbv iota.
  replace (2 + 2 * Z.of_nat (length l) - 2) with (Z.of_nat (length l) * 2) by lia.
  rewrite (proj2 (Z.ltb_ge _ 4)), Z.mod_mul, Z.div_mul, Nat2Z.id by lia.
  rewrite bind_assoc. erewrite bind_ok by reflexivity. unfold bind.
  rewrite (read_profiles_at data l _ o [] Hw Hs').
  destruct (appends l o) as [[[]| |] o']; [|done|done].
  by rewrite (proj2 (Z.ltb_ge _ (blen data))) by lia.
Qed.

Lemma parse_option_octets o s : option_ok o -> valid o = true ->
  exists o', parse_rohc_option (option_octets o) s = (Ok tt, o') /\ same_ids o o' /\ listed o' = listed o.
Proof.
  intros Hok Hv. pose proof (listed_length o Hok) as Hlen. pose proof (blen_option_octets o Hok) as Hb.
  pose proof Hok as (_ & _ & Hc & H1 & H2 & H3 & Hsort). unfold word_ok in H1, H2, H3.
  unfold valid, max_cid_limit, max_profiles in Hv. bool_prop.
  unfold parse_rohc_option. erewrite bind_ok by reflexivity.
  rewrite Hb, (proj2 (Z.ltb_ge _ 10)) by lia. erewrite bind_ok by reflexivity.
  unfold read_u16. rewrite !Hb.
  rewrite (proj2 (Z.leb_le (2 + 2) _)), (proj2 (Z.leb_le (4 + 2) _)), (proj2 (Z.leb_le (6 + 2) _)),
    (proj2 (Z.leb_le (8 + 2) _)) by lia. cbn [oguard obind].
  set (data := option_octets o) in *.
  assert (R2 : rd_u16 data 2 = Ok 3) by (by apply (rd_u16_be16 (take 2 data) 3)).
  assert (R4 : rd_u16 data 4 = Ok (max_cid o)) by (by apply (rd_u16_be16 (take 4 data))).
  assert (R6 : rd_u16 data 6 = Ok (mrru o)) by (by apply (rd_u16_be16 (take 6 data))).
  assert (R8 : rd_u16 data 8 = Ok (max_header o)) by (by apply (rd_u16_be16 (take 8 data))).
  change (rd data 0) with (Ok 2). erewrite bind_ok by reflexivity.
  change (rd data 1) with (Ok (12 + 2 * profile_count o)). erewrite bind_ok by reflexivity.
  rewrite (Z.eqb_refl (12 + _)). erewrite bind_ok by reflexivity.
  rewrite R2, R4, R6, R8. do 2 (erewrite bind_ok by reflexivity). do 2 (erewrite bind_ok by reflexivity).
  rewrite (proj2 (Z.leb_le _ max_cid_limit)) by done. do 5 (erewrite bind_ok by reflexivity).
  set (m := set_ids (max_cid o) (mrru o) (max_header o) default_option).
  change (exists o', (read_suboptions (length data) data 10 ;;; o1 <- gets (fun o1 => o1) ;;
    guard (valid o1)) m = (Ok tt, o') /\ same_ids o o' /\ listed o' = listed o).
  assert (Hm : option_ok m).
  { destruct default_option_ok as (Hd1 & Hd2 & Hd3 & _ & _ & _ & Hd7). unfold m, option_ok.
    cbn [set_ids profiles profile_count max_cid mrru max_header]. unfold word_ok in *. split_and!; done || lia. }
  assert (E : read_suboptions (length data) data 10 m = appends (listed o) m).
  { apply read_suboptions_one; [by apply listed_words|lia|lia|unfold blen in Hb; lia|].
    exists (take 10 data). split; [|done]. by rewrite Hlen. }
  destruct (appends_spec (listed o) m Hm (listed_words o Hok)) as [(_ & o' & Eo & Hoo & Hids & Hlo)|(Hn & _)].
  2: { exfalso. apply Hn. unfold fits_list. change (listed m) with (@nil Z). cbn [app].
       split; [done|]. change (profile_count m) with 0. lia. }
  exists o'. change (listed m ++ listed o) with (listed o) in Hlo.
  destruct Hids as (I1 & I2 & I3). split; [|by repeat split].
  unfold bind at 1. rewrite E, Eo. erewrite bind_ok by reflexivity.
  pose proof (listed_length o' Hoo) as Hlen'. rewrite Hlo in Hlen'.
  unfold valid. rewrite I1. change (max_cid m) with (max_cid o).
  rewrite (proj2 (Z.leb_le _ max_cid_limit)), (proj2 (Z.ltb_lt 0 _)),
    (proj2 (Z.leb_le _ max_profiles)) by (unfold max_cid_limit, max_profiles; lia).
  done.
Qed.

Lemma wp_read_u16 data pos o (Q : Z -> RohcOption -> Prop) (R : RohcOption -> Prop) :
  bytes_ok data -> 0 <= pos -> R o -> (forall v, word_ok v -> Q v o) ->
  wp (lift (read_u16 data pos)) Q R o.
Proof.
  intros Hd Hp HR HQ. unfold read_u16.
  destruct (Z.leb_spec (pos + 2) (blen data)); cbn [oguard obind]; [|done].
  apply wp_rd_u16; [done..|]. intros v Hv. by apply HQ, Hv.
Qed.

Lemma wp_read_profiles data n pos o R : bytes_ok data -> option_ok o -> 0 <= pos ->
  (forall o', option_ok o' -> R o') ->
  wp (read_profiles data pos n) (fun _ => option_ok) R o.
Proof.
  intros Hd Hok Hp HR. revert pos o Hp Hok. induction n as [|n IH]; intros pos o Hp Hok; [done|].
  cbn [read_profiles]. apply wp_bind. apply wp_read_u16; [done..|by apply HR|]. intros v Hv.
  apply wp_bind. unfold wp at 1. destruct (append_profile_spec o v Hok Hv) as [(_ & _ & E & Hok')|[_ E]].
  - rewrite (append_ok _ _ _ E). apply IH; [lia|done].
  - rewrite (append_rej _ _ E). by apply HR.
Qed.

Lemma wp_read_suboptions data fuel pos o R : bytes_ok data -> option_ok o -> 0 <= pos ->
  blen data - pos <= Z.of_nat fuel -> (forall o', option_ok o' -> R o') ->
  wp (read_suboptions fuel data pos) (fun _ => option_ok) R o.
Proof.
  intros Hd Hok Hp Hf HR. revert pos o Hp Hok Hf.
  induction fuel as [|fuel IH]; intros pos o Hp Hok Hf; cbn [read_suboptions].
  { by rewrite (proj2 (Z.ltb_ge pos _)) by lia. }
  destruct (Z.ltb_spec pos (blen data)); [|done].
  repeat wp_step; bool_prop; try lia; try (by apply HR).
  - apply wp_mono with (Q := fun _ => option_ok) (R := R); [|done|].
    + intros _ o' Ho'. apply IH; [lia|done|lia].
    + apply wp_read_profiles; (done || lia).
  - apply IH; [lia|done|lia].
Qed.

Lemma set_ids_ok c m h o : option_ok o -> word_ok c -> word_ok m -> word_ok h ->
  option_ok (set_ids c m h o).
Proof. intros (? & ? & ? & _ & _ & _ & ?) ? ? ?. by do 6 (split; [done|]). Qed.

Lemma wp_parse_rohc_option data s : bytes_ok data ->
  wp (parse_rohc_option data) (fun _ o => option_ok o /\ valid o = true) option_ok s.
Proof.
  intros Hd. pose proof default_option_ok as Hdef.
  assert (Hstep : forall pos o (k : Z -> M RohcOption unit) Q, 0 <= pos -> option_ok o ->
    (forall v, word_ok v -> wp (k v) Q option_ok o) ->
    wp (v <- lift (read_u16 data pos) ;; k v) Q option_ok o).
  { intros pos o k Q Hp Ho Hk. apply wp_bind. by apply wp_read_u16. }
  unfold parse_rohc_option. apply wp_bind, wp_modify. clear s.
  do 2 wp_step; bool_prop; [|done]. do 4 (wp_step; try lia). wp_step. wp_step; [|done].
  apply Hstep; [lia|done|]. intros protocol _. do 2 wp_step; [|done].
  apply Hstep; [lia|done|]. intros cid Hcid. do 2 wp_step.
  assert (Ho1 : option_ok (set_ids cid 0 168 default_option)) by (by apply set_ids_ok).
  do 2 wp_step; [|done].
  apply Hstep; [lia|done|]. intros m Hm. do 2 wp_step.
  assert (Ho2 : option_ok (set_ids cid m 168 default_option)) by (by apply set_ids_ok).
  apply Hstep; [lia|done|]. intros h Hh. do 2 wp_step.
  assert (Ho3 : option_ok (set_ids cid m h default_option)) by (by apply set_ids_ok).
  apply wp_bind.
  apply wp_mono with (Q := fun _ => option_ok) (R := option_ok); [|done|].
  - intros _ o Ho. do 2 wp_step. wp_step; done.
  - apply wp_read_suboptions; [done|done|lia|unfold blen; lia|done].
Qed.

(** A valid option is written in exactly 12 octets and two per profile, or
    refused when they do not fit, and the parser gets every field back from
    them; and on any octets at all the parser never reads outside them, and
    accepts only valid options with their profiles in strictly increasing
    order. *)
Theorem ppp_option_roundtrip o cap data s (Hok : option_ok o) (Hv : valid o = true)
  (Hd : bytes_ok data) :
  (if 12 + 2 * profile_count o <=? cap then
     exists out o', write_rohc_option o {| w_out := []; w_cap := cap |} =
       (Ok tt, {| w_out := out; w_cap := cap |}) /\
     blen out = 12 + 2 * profile_count o /\
     parse_rohc_option out s = (Ok tt, o') /\ same_ids o o' /\ listed o' = listed o
   else fst (write_rohc_option o {| w_out := []; w_cap := cap |}) = Rej) /\
  wp (parse_rohc_option data) (fun _ o => option_ok o /\ valid o = true) option_ok s.
Proof.
  split; [|by apply wp_parse_rohc_option].
  pose proof (write_option_run o cap Hok Hv) as W. destruct (_ <=? cap); [|done].
  destruct (parse_option_octets o s Hok Hv) as (o' & P & H1 & H2).
  exists (option_octets o), o'. split_and!; [exact W|by apply blen_option_octets|exact P|done|done].
Qed.

Lemma ppp_option_roundtrip_witness :
  exists o', parse_rohc_option [2; 16; 0; 3; 0; 15; 0; 0; 0; 168; 1; 6; 0; 1; 0; 2] default_option =
    (Ok tt, o') /\ listed o' = [1; 2].
Proof.
  destruct sample_option_ok as [H1 _].
  destruct (proj1 (ppp_option_roundtrip (sample_option [1; 2]) 16 [] default_option H1 eq_refl
    (bytes_ok_nil))) as (out & o' & W & _ & P & _ & L).
  exists o'. vm_compute in W. injection W as <-. split; [exact P|exact L].
Defined.
