(* ===== verification/RtpFo.v ===== *)
(** * The RTP first-order packet: include/rohccxx/core/emit_rtp_fo.hpp, decode_fo.hpp

    The emitter writes bit fields through [BitWriter], the decoder reads them
    through [BitReader]; the theorem takes a sequence number and a timestamp
    through both, from any pair of contexts that agree on the prediction. *)

From S2P Require Import Prelude Crc Cid Bits Encoding Context Cursor.

Definition K_SEQ : Z := 6.
Definition K_TS : Z := 8.

(** [cid::write_large(cid_pos, end, ctx.cid)] with [cid_pos = out + 1], and the
    bit position behind it. *)
Definition write_large_cid (value end_ : Z) : M BitWriter unit := fun w =>
  match write_large value {| w_out := take 1 (bw_buf w); w_cap := end_ |} with
  | (Ok _, s) =>
      if blen (bw_buf w) <? blen (w_out s) then (Ub, w)
      else (Ok tt, {| bw_buf := w_out s ++ drop (length (w_out s)) (bw_buf w);
                      bw_bitpos := (1 + encoded_len value) * 8 |})
  | (Rej, _) => (Rej, w)
  | (Ub, _) => (Ub, w)
  end.

Definition seek (bitpos : Z) : M BitWriter unit :=
  modify (fun w => {| bw_buf := bw_buf w; bw_bitpos := bitpos |}).

(** The header and fields, then the CRC of the octets they fill; the length. *)
Definition write_rtp_fo (ctx : Context) (end_ : Z) : M BitWriter Z :=
  write_bits 0 1 ;;;
  write_bits 0 1 ;;;
  write_bits (if large_cid ctx then 0 else Z.land (cid ctx) 0xF) 4 ;;;
  (if large_cid ctx then seek 8 ;;; write_large_cid (cid ctx) end_ else ret tt) ;;;
  write_bits K_SEQ 6 ;;;
  write_bits (encode_field_lsb RtpSequence (last_seq (rtp ctx)) K_SEQ) K_SEQ ;;;
  let scaled_ts := scale_timestamp (last_ts (rtp ctx)) (ts_stride (rtp ctx)) in
  write_bits (encode_field_lsb RtpTimestamp (scaled scaled_ts) K_TS) K_TS ;;;
  payload_bits <- gets bw_bitpos ;;
  let payload_bytes := Z.shiftr (payload_bits + 7) 3 in
  buf <- gets bw_buf ;;
  payload <- lift (slice buf 0 payload_bytes) ;;
  seek (payload_bytes * 8) ;;;
  write_bits (crc7 payload) 7 ;;;
  bitpos <- gets bw_bitpos ;;
  ret (Z.shiftr (bitpos + 7) 3).

(** [out] is the caller's buffer, [capacity] the length it announces; a
    capacity of 0 announces nothing, and the buffer is then not cleared. *)
Definition emit_rtp_fo (ctx : Context) (out : bytes) (capacity : Z) : outcome (bytes * Z) :=
  check is_valid_for_space (cid ctx) (large_cid ctx) in
  let cid_len := if large_cid ctx then encoded_len (cid ctx) else 0 in
  let required_len := 5 + cid_len in
  check negb (negb (capacity =? 0) && (capacity <? required_len)) in
  let! out :=
    if negb (capacity =? 0) then overwrite out (repeat 0 (Z.to_nat capacity)) else Ok out in
  match write_rtp_fo ctx (if capacity =? 0 then required_len else capacity)
          {| bw_buf := out; bw_bitpos := 0 |} with
  | (Ok n, w) => Ok (bw_buf w, n)
  | (Rej, _) => Rej
  | (Ub, _) => Ub
  end.

(** [if(!br.valid) return false]. *)
Definition check_valid : M BitReader unit := v <- gets br_valid ;; guard v.

(** What follows the CID: the width of the sequence field, it, the timestamp
    field, the CRC; then the octets consumed. *)
Definition read_fo_fields (inp : bytes) : M BitReader (Z * Z * Z * Z) :=
  k <- read_bits 6 ;;
  v <- gets br_valid ;;
  guard (negb (negb v || (16 <? k))) ;;;
  seq_lsb <- read_bits k ;;
  ts_lsb <- read_bits 8 ;;
  check_valid ;;;
  payload_bits <- gets br_bitpos ;;
  let payload_bytes := Z.shiftr (payload_bits + 7) 3 in
  guard (negb (blen inp <? payload_bytes)) ;;;
  modify (set_bitpos (payload_bytes * 8)) ;;;
  _ <- read_bits 7 ;;
  check_valid ;;;
  total_bits <- gets br_bitpos ;;
  let total_bytes := Z.shiftr (total_bits + 7) 3 in
  guard (negb (blen inp <? total_bytes)) ;;;
  crc_ok <- lift (validate_crc7_bits inp total_bits) ;;
  guard crc_ok ;;;
  ret (k, seq_lsb, ts_lsb, total_bytes).

Definition read_fo (inp : bytes) (ctx : Context) : M BitReader (Z * Z * Z * Z) :=
  fo <- read_bits 1 ;;
  v <- gets br_valid ;;
  guard (negb (negb (fo =? 0) || negb v)) ;;;
  _ <- read_bits 1 ;;
  embedded_cid <- read_bits 4 ;;
  check_valid ;;;
  (if large_cid ctx then
     guard (embedded_cid =? 0) ;;;
     t <- lift (tail_from inp 1) ;;
     r <- lift (read_large t) ;;
     guard (fst r =? cid ctx) ;;;
     guard (negb (blen inp - 1 <? snd r)) ;;;
     modify (set_bitpos ((1 + snd r) * 8))
   else guard (embedded_cid =? cid ctx)) ;;;
  read_fo_fields inp.

Definition fo_timestamp (ctx : Context) (seq ts_lsb : Z) : outcome Z :=
  let r := rtp ctx in
  if timer_based_ts r then
    let! decoded := decode_timer_scaled_lsb ts_lsb 8 (last_ts r) (ts_stride r)
                      (timer_elapsed_ticks r) (ts_residue r) in
    match decoded with None => Rej | Some ts => Ok ts end
  else
    let seq_delta := u16 (seq - last_seq r) in
    let predicted_timestamp := u32 (last_ts r + ts_stride r * seq_delta) in
    decode_scaled_lsb_with_timestamp_prediction ts_lsb 8 predicted_timestamp (last_ts r)
      (ts_stride r) (ts_residue r).

(** What an accepted packet does to the context. *)
Definition fo_accept (seq ts : Z) (ctx : Context) : Context :=
  let ctx := ctx <| rtp := (rtp ctx) <| seq_window := LsbWindow.update (seq_window (rtp ctx)) seq |>
                                     <| ts_window := LsbWindow.update (ts_window (rtp ctx)) ts |> |> in
  let ctx :=
    if (ip_version ctx =? 4) && ipv4_id_sequential ctx then
      ctx <| ipv4_id := u16 (ipv4_id ctx + u16 (seq - last_seq (rtp ctx))) |>
    else ctx in
  ctx <| rtp := (rtp ctx) <| last_seq := seq |> <| last_ts := ts |> |>.

(** The sequence number, the timestamp and the octets consumed. *)
Definition decode_fo_rtp (inp : bytes) : M Context (Z * Z * Z) :=
  guard (negb (blen inp =? 0)) ;;;
  ctx <- gets (fun c => c) ;;
  f <- lift (fst (read_fo inp ctx (mk_bit_reader inp (blen inp)))) ;;
  let '(k, seq_lsb, ts_lsb, total_bytes) := f in
  let seq := u16 (decode_field_lsb RtpSequence seq_lsb (last_seq (rtp ctx)) k) in
  ts <- lift (fo_timestamp ctx seq ts_lsb) ;;
  modify (fo_accept seq ts) ;;;
  ret (seq, ts, total_bytes).

(** * The fields behind the CID *)

Definition fo_tail (s t : Z) : list (Z * Z) := [(6, 6); (s, 6); (t, 8)].

Lemma fo_tail_ok s t : 0 <= s < 64 -> 0 <= t < 256 -> fields_ok (fo_tail s t).
Proof. intros. unfold fields_ok, fo_tail. repeat constructor; cbn; lia. Qed.

(** The octets up to the CRC, for fields that start at bit [p]. *)
Definition fo_payload (p : Z) : Z := (p + 27) / 8.

(** A buffer that holds the fields at bit [p] and then the CRC of its octets. *)
Definition fo_framed (buf : bytes) (p s t : Z) : Prop :=
  holds buf p (fo_tail s t) /\
  bits_at buf (8 * fo_payload p) 7 = bits_of (crc7 (take (Z.to_nat (fo_payload p)) buf)) 7.

Lemma fo_payload_bounds p : 0 <= p -> p + 20 <= 8 * fo_payload p <= p + 27.
Proof. intros. unfold fo_payload. Z.div_mod_to_equations. lia. Qed.

Lemma write_tail s t buf p : 0 <= s < 64 -> 0 <= t < 256 -> bytes_ok buf -> 0 <= p ->
  fo_payload p + 1 <= blen buf -> (forall i, p <= i -> bit_at buf i = false) ->
  exists buf' w, (write_bits K_SEQ 6 ;;; write_bits s K_SEQ ;;; write_bits t K_TS ;;;
      payload_bits <- gets bw_bitpos ;;
      let payload_bytes := Z.shiftr (payload_bits + 7) 3 in
      b <- gets bw_buf ;;
      payload <- lift (slice b 0 payload_bytes) ;;
      seek (payload_bytes * 8) ;;;
      write_bits (crc7 payload) 7 ;;;
      bitpos <- gets bw_bitpos ;;
      ret (Z.shiftr (bitpos + 7) 3)) {| bw_buf := buf; bw_bitpos := p |} = (Ok (fo_payload p + 1), w) /\
    bw_buf w = buf' /\ bytes_ok buf' /\ length buf' = length buf /\ fo_framed buf' p s t /\
    (forall i, 0 <= i < p -> bit_at buf' i = bit_at buf i).
Proof.
  intros Hs Ht Hb Hp Hl Hz. pose proof (fo_payload_bounds p Hp) as Hq.
  destruct (write_fields_at (fo_tail s t) buf p (fo_tail_ok s t Hs Ht) Hb Hp)
    as (b1 & E1 & Hb1 & L1 & Hh1 & Hlow1 & Hz1); [cbn; lia|done|].
  change (total_bits (fo_tail s t)) with 20 in *.
  set (q := fo_payload p) in *. set (c := crc7 (take (Z.to_nat q) b1)).
  pose proof (crc7_bound (take (Z.to_nat q) b1) ltac:(by apply bytes_ok_take)) as Hc.
  destruct (write_fields_at [(c, 7)] b1 (8 * q)) as (b2 & E2 & Hb2 & L2 & Hh2 & Hlow2 & _).
  { by apply Forall_singleton. } { done. } { lia. } { cbn. unfold blen in *. lia. }
  { intros i Hi. apply Hz1. lia. }
  exists b2. eexists. split.
  { etransitivity; [apply (write_fields_then (fo_tail s t))|]. erewrite bind_ok by exact E1.
    do 2 (erewrite bind_ok by reflexivity). cbn [bw_bitpos bw_buf]. cbv zeta.
    rewrite shiftr_3. replace ((p + 20 + 7) / 8) with q by (unfold q, fo_payload; f_equal; lia).
    rewrite slice_eq by (unfold blen in *; lia). erewrite bind_ok by reflexivity.
    change (drop (Z.to_nat 0) b1) with b1. unfold seek. erewrite bind_ok by reflexivity. cbn [bw_buf].
    replace (q * 8) with (8 * q) by lia.
    fold c. etransitivity; [apply (write_fields_then [(c, 7)])|]. erewrite bind_ok by exact E2.
    erewrite bind_ok by reflexivity. cbn [bw_bitpos total_bits fold_right snd]. unfold ret.
    rewrite shiftr_3. replace (8 * q + (7 + 0) + 7) with (6 + (q + 1) * 8) by lia.
    rewrite Z.div_add by lia. done. }
  cbn [bw_buf]. split_and!; [done|done|congruence| |].
  - assert (Hsame : take (Z.to_nat q) b2 = take (Z.to_nat q) b1).
    { apply same_bits_take; [done|done|done|]. intros i Hi. apply Hlow2. lia. }
    split.
    + eapply holds_bits; [by apply fo_tail_ok|done| |exact Hh1].
      intros i Hi. symmetry. apply Hlow2. change (total_bits (fo_tail s t)) with 20 in Hi. lia.
    + fold q. rewrite Hsame. by destruct Hh2.
  - intros i Hi. rewrite Hlow2 by lia. by apply Hlow1.
Qed.

Lemma read_tail s t inp p : 0 <= s < 64 -> 0 <= t < 256 -> bytes_ok inp -> 0 <= p ->
  blen inp = fo_payload p + 1 -> fo_framed inp p s t ->
  exists r, read_fo_fields inp
    {| br_buf := inp; br_bit_len := blen inp * 8; br_bitpos := p; br_valid := true |} =
    (Ok (6, s, t, blen inp), r).
Proof.
  intros Hs Ht Hb Hp Hl [Hh Hcrc]. pose proof (fo_payload_bounds p Hp) as Hq.
  set (q := fo_payload p) in *.
  pose proof (crc7_bound (take (Z.to_nat q) inp) ltac:(by apply bytes_ok_take)) as Hc.
  cbn [holds fo_tail] in Hh. destruct Hh as (H6 & Hs6 & Ht8 & _).
  unfold read_fo_fields, check_valid.
  erewrite bind_ok by (apply (read_bits_at _ _ _ 6); (done || lia)).
  do 2 (erewrite bind_ok by reflexivity).
  erewrite bind_ok by (apply (read_bits_at _ _ _ s); (done || lia)).
  erewrite bind_ok by (apply (read_bits_at _ _ _ t); (done || lia)).
  rewrite bind_assoc. do 3 (erewrite bind_ok by reflexivity). cbn [br_bitpos]. cbv zeta.
  rewrite shiftr_3. replace ((p + 6 + 6 + 8 + 7) / 8) with q by (unfold q, fo_payload; f_equal; lia).
  rewrite (proj2 (Z.ltb_ge _ q)) by lia. do 2 (erewrite bind_ok by reflexivity).
  unfold set_bitpos. cbn [br_buf br_bit_len br_valid]. replace (q * 8) with (8 * q) by lia.
  erewrite bind_ok by (apply (read_bits_at _ _ _ (crc7 (take (Z.to_nat q) inp))); (done || lia)).
  rewrite bind_assoc. do 3 (erewrite bind_ok by reflexivity). cbn [br_bitpos].
  rewrite shiftr_3. replace ((8 * q + 7 + 7) / 8) with (blen inp).
  2: { rewrite Hl. replace (8 * q + 7 + 7) with (6 + (q + 1) * 8) by lia. by rewrite Z.div_add. }
  rewrite Z.ltb_irrefl. erewrite bind_ok by reflexivity.
  unfold validate_crc7_bits. rewrite (proj2 (Z.ltb_ge _ 7)) by lia.
  replace (8 * q + 7 - 7) with (8 * q) by lia. rewrite shiftr_3.
  replace ((8 * q + 7) / 8) with q by (Z.div_mod_to_equations; lia).
  rewrite slice_eq by lia. cbn [obind]. change (drop (Z.to_nat 0) inp) with inp.
  rewrite read_loop_spec by (change (Z.of_nat 7) with 7; lia). rewrite Hcrc, bits_val_of. cbn [obind].
  change (2 ^ Z.of_nat 7) with 128. rewrite land_7F_small, Z.mod_small, Z.eqb_refl by lia.
  by eexists.
Qed.

(** * The header *)

Definition fo_header (c : Z) : list (Z * Z) := [(0, 1); (0, 1); (c, 4)].

Lemma fo_header_ok c : 0 <= c < 16 -> fields_ok (fo_header c).
Proof. intros. unfold fields_ok, fo_header. repeat constructor; cbn; lia. Qed.

(** The bit at which the fields start. *)
Definition fo_start (ctx : Context) : Z := if large_cid ctx then (1 + encoded_len (cid ctx)) * 8 else 6.

Definition fo_length (ctx : Context) : Z := 5 + if large_cid ctx then encoded_len (cid ctx) else 0.

Lemma fo_length_eq ctx : fo_payload (fo_start ctx) + 1 = fo_length ctx.
Proof.
  unfold fo_payload, fo_start, fo_length. destruct (large_cid ctx); [|done].
  Z.div_mod_to_equations. lia.
Qed.

Lemma large_cid_written b1 v end_ :
  0 <= v <= large_cid_max -> bytes_ok b1 -> 1 + encoded_len v <= end_ -> 1 + encoded_len v <= blen b1 ->
  exists b2, write_large_cid v end_ {| bw_buf := b1; bw_bitpos := 8 |} =
      (Ok tt, {| bw_buf := b2; bw_bitpos := (1 + encoded_len v) * 8 |}) /\
    bytes_ok b2 /\ length b2 = length b1 /\
    take (Z.to_nat (1 + encoded_len v)) b2 = take 1 b1 ++ large_octets v /\
    drop (Z.to_nat (1 + encoded_len v)) b2 = drop (Z.to_nat (1 + encoded_len v)) b1.
Proof.
  intros Hv Hb He Hl. pose proof (encoded_len_bound v) as Hn. pose proof (large_octets_len v) as Ho.
  unfold write_large_cid. cbn [bw_buf].
  assert (H1 : length (take 1 b1) = 1%nat) by (rewrite length_take; unfold blen in *; lia).
  rewrite write_large_ok; [|done|unfold room, blen in *; cbn [w_out w_cap]; lia].
  cbn [w_out]. unfold blen in *.
  assert (H2 : length (take 1 b1 ++ large_octets v) = Z.to_nat (1 + encoded_len v)).
  { rewrite length_app. lia. }
  rewrite H2, (proj2 (Z.ltb_ge _ _)) by lia. eexists. split; [done|]. split_and!.
  - apply Forall_app. split; [apply Forall_app; split|].
    + by apply bytes_ok_take.
    + by apply large_octets_ok.
    + by apply bytes_ok_drop.
  - rewrite length_app, H2, length_drop. lia.
  - by rewrite take_app_length' by done.
  - by rewrite drop_app_length' by done.
Qed.

Definition cid_valid (ctx : Context) : Prop :=
  0 <= cid ctx /\ is_valid_for_space (cid ctx) (large_cid ctx) = true.

Definition header_cid (ctx : Context) : Z := if large_cid ctx then 0 else cid ctx.

Lemma header_cid_bound ctx : cid_valid ctx -> 0 <= header_cid ctx < 16.
Proof.
  unfold cid_valid, is_valid_for_space, is_small, small_cid_max, header_cid.
  destruct (large_cid ctx); intros [? H]; bool_prop; lia.
Qed.

(** What the header and the CID leave in a zeroed buffer. *)
Definition fronted (ctx : Context) (buf : bytes) : Prop :=
  holds buf 0 (fo_header (header_cid ctx)) /\
  (large_cid ctx = true -> exists b0,
     take (Z.to_nat (1 + encoded_len (cid ctx))) buf = b0 :: large_octets (cid ctx)).

Lemma write_front ctx n : cid_valid ctx -> fo_length ctx <= Z.of_nat n ->
  exists buf, (forall m : M BitWriter Z,
    (write_bits 0 1 ;;; write_bits 0 1 ;;;
     write_bits (if large_cid ctx then 0 else Z.land (cid ctx) 0xF) 4 ;;;
     (if large_cid ctx then seek 8 ;;; write_large_cid (cid ctx) (Z.of_nat n) else ret tt) ;;; m)
    {| bw_buf := repeat 0 n; bw_bitpos := 0 |} = m {| bw_buf := buf; bw_bitpos := fo_start ctx |}) /\
  bytes_ok buf /\ length buf = n /\ fronted ctx buf /\
  (forall i, fo_start ctx <= i -> bit_at buf i = false).
Proof.
  intros Hcid Hn. pose proof (header_cid_bound ctx Hcid) as Hc. unfold fo_length in Hn.
  pose proof (encoded_len_bound (cid ctx)) as Hel.
  assert (Hlen : blen (repeat 0 n) = Z.of_nat n) by (unfold blen; by rewrite repeat_length).
  assert (Hz : bytes_ok (repeat 0 n)).
  { apply List.Forall_forall. intros x ->%repeat_spec. unfold byte_ok. lia. }
  destruct (write_fields_at (fo_header (header_cid ctx)) (repeat 0 n) 0 (fo_header_ok _ Hc) Hz)
    as (b1 & E1 & Hb1 & L1 & Hh1 & _ & Hz1); [lia|cbn; destruct (large_cid ctx); lia|intros; apply holds_repeat0|].
  change (total_bits (fo_header (header_cid ctx))) with 6 in *. rewrite repeat_length in L1.
  assert (Hrun : forall m : M BitWriter Z,
    (write_bits 0 1 ;;; write_bits 0 1 ;;;
     write_bits (if large_cid ctx then 0 else Z.land (cid ctx) 0xF) 4 ;;; m)
    {| bw_buf := repeat 0 n; bw_bitpos := 0 |} = m {| bw_buf := b1; bw_bitpos := 6 |}).
  { intros m. replace (if large_cid ctx then 0 else Z.land (cid ctx) 0xF) with (header_cid ctx).
    - etransitivity; [apply (write_fields_then (fo_header (header_cid ctx)))|]. by erewrite bind_ok by exact E1.
    - unfold header_cid in *. destruct (large_cid ctx); [done|].
      change 0xF with (Z.ones 4). rewrite Z.land_ones, Z.mod_small; lia. }
  unfold fronted, fo_start, header_cid in *. destruct Hcid as [Hc0 Hv].
  destruct (large_cid ctx).
  2: { exists b1. split; [intros m; by rewrite Hrun|]. by split_and!. }
  assert (Hcv : 0 <= cid ctx <= large_cid_max) by (unfold is_valid_for_space in Hv; bool_prop; lia).
  destruct (large_cid_written b1 (cid ctx) (Z.of_nat n) Hcv Hb1) as (b2 & E2 & Hb2 & L2 & T2 & D2);
    [lia|unfold blen; lia|].
  set (k := Z.to_nat (1 + encoded_len (cid ctx))) in *.
  assert (H01 : exists b0, take 1 b1 = [b0]) by (destruct b1; [cbn in L1; lia|by eexists]).
  destruct H01 as [b0 H01]. rewrite H01 in T2. exists b2. split_and!.
  - intros m. rewrite Hrun, bind_assoc. unfold seek. erewrite bind_ok by reflexivity.
    by erewrite bind_ok by exact E2.
  - done.
  - congruence.
  - eapply holds_bits; [by apply fo_header_ok|lia| |exact Hh1].
    intros i Hi. change (total_bits (fo_header 0)) with 6 in Hi.
    rewrite <- (bit_at_take b1 1 i), <- (bit_at_take b2 1 i) by lia.
    assert (E : take 1 b2 = take 1 b1); [|by rewrite E].
    replace (take 1 b2) with (take 1 (take k b2)) by (rewrite take_take; f_equal; lia).
    by rewrite T2, H01.
  - intros _. exists b0. exact T2.
  - intros i Hi. rewrite <- (take_drop k b2), D2, (bit_at_suffix _ (take k b1)).
    + rewrite take_drop. apply Hz1. lia.
    + rewrite !length_take. lia.
    + unfold blen. rewrite length_take. lia.
Qed.

(** The emitter's octets: a packet that its context's CID fronts. *)
Lemma emit_rtp_fo_run ctx out : cid_valid ctx ->
  let s := encode_field_lsb RtpSequence (last_seq (rtp ctx)) K_SEQ in
  let t := encode_field_lsb RtpTimestamp (scaled (scale_timestamp (last_ts (rtp ctx)) (ts_stride (rtp ctx)))) K_TS in
  0 <= s < 64 -> 0 <= t < 256 -> fo_length ctx <= blen out ->
  exists buf, emit_rtp_fo ctx out (blen out) = Ok (buf, fo_length ctx) /\ length buf = length out /\
    bytes_ok buf /\ fronted ctx buf /\ fo_framed buf (fo_start ctx) s t.
Proof.
  intros Hcid s t Hs Ht Hl. pose proof (encoded_len_bound (cid ctx)) as Hel.
  destruct (write_front ctx (length out) Hcid Hl) as (b1 & Hrun & Hb1 & L1 & [Hh1 Hf1] & Hz1).
  assert (Hp : 6 <= fo_start ctx) by (unfold fo_start; destruct (large_cid ctx); lia).
  pose proof (fo_length_eq ctx) as Hlen.
  destruct (write_tail s t b1 (fo_start ctx) Hs Ht Hb1) as (b2 & w & E2 & <- & Hb2 & L2 & Hpk & Hlow);
    [lia|unfold blen in *; lia|done|].
  exists (bw_buf w). unfold emit_rtp_fo. rewrite (proj2 Hcid). cbn [oguard obind].
  fold (fo_length ctx). pose proof (fo_payload_bounds (fo_start ctx) ltac:(lia)) as Hq.
  rewrite (proj2 (Z.eqb_neq (blen out) 0)), (proj2 (Z.ltb_ge (blen out) _)) by lia. cbn [negb andb oguard obind].
  unfold blen at 1. rewrite Nat2Z.id, overwrite_exact by (by rewrite repeat_length). cbn [obind].
  unfold write_rtp_fo. unfold blen at 1. rewrite Hrun.
  split.
  { match goal with |- match ?x with _ => _ end = _ => replace x with (Ok (fo_payload (fo_start ctx) + 1), w) by (symmetry; exact E2) end.
    by rewrite Hlen. }
  split_and!; [congruence|done| |done]. split.
  - eapply holds_bits; [by apply fo_header_ok, header_cid_bound|lia| |exact Hh1].
    intros i Hi. symmetry. apply Hlow. change (total_bits (fo_header (header_cid ctx))) with 6 in Hi. lia.
  - intros Hlc. destruct (Hf1 Hlc) as [b0 E]. exists b0. rewrite <- E.
    apply same_bits_take; [done..|]. intros i Hi. apply Hlow. unfold fo_start. rewrite Hlc. lia.
Qed.

(** * The round trip *)

(** The octets sent are the packet alone. *)
Lemma packet_taken ctx s t buf : 0 <= s < 64 -> 0 <= t < 256 -> cid_valid ctx ->
  bytes_ok buf -> fo_length ctx <= blen buf -> fronted ctx buf -> fo_framed buf (fo_start ctx) s t ->
  let inp := take (Z.to_nat (fo_length ctx)) buf in
  bytes_ok inp /\ blen inp = fo_length ctx /\ fronted ctx inp /\ fo_framed inp (fo_start ctx) s t.
Proof.
  intros Hs Ht Hcid Hb Hl [Hh Hf] [Hp Hc] inp. pose proof (fo_length_eq ctx) as Hlen.
  pose proof (encoded_len_bound (cid ctx)) as Hel.
  assert (Hst : 6 <= fo_start ctx) by (unfold fo_start; destruct (large_cid ctx); lia).
  pose proof (fo_payload_bounds (fo_start ctx) ltac:(lia)) as Hq.
  assert (Hbit : forall i, 0 <= i < 8 * fo_length ctx -> bit_at buf i = bit_at inp i).
  { intros i Hi. symmetry. apply bit_at_take; unfold blen in *; lia. }
  split_and!; [by apply bytes_ok_take|unfold inp, blen in *; rewrite length_take; lia|split|split].
  - eapply holds_bits; [by apply fo_header_ok, header_cid_bound|lia| |exact Hh].
    intros i Hi. apply Hbit. change (total_bits (fo_header (header_cid ctx))) with 6 in Hi. lia.
  - intros Hlc. destruct (Hf Hlc) as [b0 E]. exists b0. rewrite <- E. unfold inp.
    rewrite take_take. f_equal. unfold fo_length. rewrite Hlc. lia.
  - eapply holds_bits; [by apply fo_tail_ok|lia| |exact Hp].
    intros i Hi. apply Hbit. change (total_bits (fo_tail s t)) with 20 in Hi. lia.
  - unfold inp at 2. rewrite take_take, Nat.min_l by lia. rewrite <- Hc.
    apply bits_at_ext. intros i Hi. symmetry. apply Hbit. change (Z.of_nat 7) with 7 in Hi. lia.
Qed.

Lemma read_fo_packet ctx s t inp : 0 <= s < 64 -> 0 <= t < 256 -> cid_valid ctx ->
  bytes_ok inp -> blen inp = fo_length ctx -> fronted ctx inp -> fo_framed inp (fo_start ctx) s t ->
  fst (read_fo inp ctx (mk_bit_reader inp (blen inp))) = Ok (6, s, t, blen inp).
Proof.
  intros Hs Ht Hcid Hb Hl [Hh Hf] Hpk. pose proof (header_cid_bound ctx Hcid) as Hc.
  pose proof (encoded_len_bound (cid ctx)) as Hel. pose proof (fo_length_eq ctx) as Hlen.
  assert (Hst : 6 <= fo_start ctx) by (unfold fo_start; destruct (large_cid ctx); lia).
  destruct (read_tail s t inp (fo_start ctx) Hs Ht Hb) as [r E]; [lia..|done|].
  assert (Hlo : 5 <= fo_length ctx <= 7) by (unfold fo_length; destruct (large_cid ctx); lia).
  cbn [holds fo_header] in Hh. destruct Hh as (H1 & H2 & H3 & _).
  rewrite mk_bit_reader_eq by lia. unfold read_fo, check_valid.
  erewrite bind_ok by (apply (read_bits_at _ _ _ 0); (done || lia)).
  do 2 (erewrite bind_ok by reflexivity).
  erewrite bind_ok by (apply (read_bits_at _ _ _ 0); (done || lia)).
  erewrite bind_ok by (apply (read_bits_at _ _ _ (header_cid ctx)); (done || lia)).
  rewrite bind_assoc. do 2 (erewrite bind_ok by reflexivity).
  unfold header_cid, fo_start in *. destruct (large_cid ctx) eqn:Hlc.
  - destruct (Hf eq_refl) as [b0 T]. destruct Hcid as [H0 Hv]. unfold is_valid_for_space in Hv.
    rewrite Hlc in Hv. bool_prop.
    assert (Htail : tail_from inp 1 = Ok (large_octets (cid ctx) ++ drop (Z.to_nat (1 + encoded_len (cid ctx))) inp)).
    { rewrite <- (take_drop (Z.to_nat (1 + encoded_len (cid ctx))) inp) at 1. rewrite T.
      apply (tail_from_app [b0]). }
    rewrite bind_assoc. erewrite bind_ok by reflexivity.
    rewrite bind_assoc. rewrite Htail. erewrite bind_ok by reflexivity.
    rewrite bind_assoc. rewrite read_large_octets by done. erewrite bind_ok by reflexivity.
    cbn [fst snd]. rewrite Z.eqb_refl. rewrite bind_assoc. erewrite bind_ok by reflexivity.
    rewrite (proj2 (Z.ltb_ge (blen inp - 1) _)) by (unfold fo_length in Hl; rewrite Hlc in Hl; lia).
    rewrite bind_assoc. erewrite bind_ok by reflexivity. erewrite bind_ok by reflexivity.
    unfold set_bitpos. cbn [br_buf br_bit_len br_valid]. by rewrite E.
  - rewrite Z.eqb_refl. erewrite bind_ok by reflexivity.
    change (0 + 1 + 1 + 4) with 6. by rewrite E.
Qed.

(** The timestamp the receiver expects with [seq]. *)
Definition expected_ts (r : RtpContext) (seq : Z) : option Z :=
  if timer_based_ts r then
    advance_timer_scaled_timestamp (last_ts r) (ts_stride r) (timer_elapsed_ticks r)
  else Some (u32 (last_ts r + ts_stride r * u16 (seq - last_seq r))).

Definition scaled_of (r : RtpContext) (ts : Z) : Z := scaled (scale_timestamp ts (ts_stride r)).

(** The receiver can tell [ts]: it expects it, or it expects something with
    other low bits, and the scaled value is less than 128 from its own with the
    residue it knows. *)
Definition ts_in_reach (r : RtpContext) (seq ts : Z) : Prop :=
  (ts_stride r <> 0 /\ expected_ts r seq = Some ts) \/
  (timer_based_ts r = false /\
   (ts_stride r <> 0 -> ts mod ts_stride r = ts_residue r /\
      forall p, expected_ts r seq = Some p -> scaled_of r p mod 256 <> scaled_of r ts mod 256) /\
   0 < (scaled_of r ts - scaled_of r (last_ts r) + 128) mod 2 ^ 32 < 256).

Definition seq_in_reach (r : RtpContext) (seq : Z) : Prop :=
  0 <= seq < 2 ^ 16 /\ (seq - (last_seq r - 32)) mod 2 ^ 16 < 64.

Lemma scaled_bound ts stride : 0 <= ts < 2 ^ 32 -> 0 <= stride ->
  0 <= scaled (scale_timestamp ts stride) < 2 ^ 32.
Proof.
  intros Ht Hs. unfold scale_timestamp. cbn [scaled]. destruct (Z.eqb_spec stride 0); [done|].
  split; [apply Z.div_pos; lia|]. apply Z.div_lt_upper_bound; [lia|]. nia.
Qed.

Lemma ts_lsb_eq v : encode_field_lsb RtpTimestamp v 8 = v mod 256.
Proof. unfold encode_field_lsb. change (effective_width RtpTimestamp 8) with 8. by rewrite lsb_is_mod. Qed.

Lemma seq_lsb_eq v : encode_field_lsb RtpSequence v 6 = v mod 64.
Proof. unfold encode_field_lsb. change (effective_width RtpSequence 6) with 6. by rewrite lsb_is_mod. Qed.

Lemma fo_timestamp_known ctx seq ts : 0 <= ts < 2 ^ 32 -> 0 <= ts_stride (rtp ctx) ->
  0 <= last_ts (rtp ctx) < 2 ^ 32 -> ts_in_reach (rtp ctx) seq ts ->
  fo_timestamp ctx seq (encode_field_lsb RtpTimestamp (scaled_of (rtp ctx) ts) 8) = Ok ts.
Proof.
  intros Ht Hst Hl. unfold ts_in_reach, fo_timestamp, expected_ts, scaled_of. set (r := rtp ctx) in *.
  intros [[Hn He]|(Htm & Hres & Hw)].
  - assert (P : decode_scaled_lsb_with_timestamp_prediction
      (encode_field_lsb RtpTimestamp (scaled (scale_timestamp ts (ts_stride r))) 8) 8 ts
      (if timer_based_ts r then ts else last_ts r) (ts_stride r) (ts_residue r) = Ok ts).
    { unfold decode_scaled_lsb_with_timestamp_prediction.
      by rewrite (proj2 (Z.eqb_neq (ts_stride r) 0)), Z.eqb_refl by done. }
    destruct (timer_based_ts r).
    + unfold decode_timer_scaled_lsb. rewrite He, P. done.
    + by injection He as ->.
  - rewrite Htm in *. set (p := u32 _) in *. unfold decode_scaled_lsb_with_timestamp_prediction.
    rewrite !ts_lsb_eq. set (sts := scaled (scale_timestamp ts (ts_stride r))) in *.
    assert (Hno : negb (ts_stride r =? 0) && (scaled (scale_timestamp p (ts_stride r)) mod 256 =? sts mod 256) = false).
    { destruct (Z.eqb_spec (ts_stride r) 0) as [|Hn]; [done|]. cbn [negb andb]. apply Z.eqb_neq.
      by apply (Hres Hn). }
    rewrite Hno. unfold decode_scaled_lsb, LsbWindow.init.
    pose proof (scaled_bound ts (ts_stride r) Ht Hst) as Hb1.
    pose proof (scaled_bound (last_ts r) (ts_stride r) Hl Hst) as Hb2.
    assert (D : LsbWindow.decode 32 (scaled (scale_timestamp (last_ts r) (ts_stride r))) (sts mod 256) 8 = Ok sts).
    { apply (lsb_window_exact 32 8); [by right|lia|done|done|exact Hw]. }
    unfold scale_timestamp in D at 1. cbn [scaled] in D.
    pose proof (scale_unscale ts (ts_stride r) Ht Hst) as U. fold sts in U.
    destruct (Z.eqb_spec (ts_stride r) 0) as [Hz|Hn].
    + rewrite D. f_equal. unfold sts, scale_timestamp. cbn [scaled]. by rewrite Hz.
    + rewrite D. cbn [obind]. f_equal. rewrite <- (proj1 (Hres Hn)).
      unfold scale_timestamp in U. cbn [residue] in U.
      by rewrite (proj2 (Z.eqb_neq _ 0) Hn) in U.
Qed.

(** * Any octets *)

Definition reading (inp : bytes) (r : BitReader) : Prop :=
  br_buf r = inp /\ br_bit_len r = 8 * blen inp /\ 0 <= br_bitpos r /\
  (br_valid r = true -> br_bitpos r <= 8 * blen inp).

Lemma wp_read_bits inp k r (Q : Z -> BitReader -> Prop) R : reading inp r -> 0 <= k ->
  (forall v r', reading inp r' -> 0 <= v < 2 ^ k -> Q v r') -> wp (read_bits k) Q R r.
Proof.
  intros (Hb & Hl & Hp & Hv) Hk HQ. pose proof (read_bits_safe k r) as S.
  eapply wp_mono; [| |apply S; [unfold reader_ok; rewrite Hb, Hl; split_and!; auto; lia|done]].
  - intros v r' ((H0 & H1 & H2) & Eb & El & Hvb & _). apply HQ; [|done].
    unfold reading. rewrite Eb, El, Hb, Hl. split_and!; auto. intros V. rewrite <- Hl, <- El. auto.
  - done.
Qed.

Lemma fo_fields_safe inp r : bytes_ok inp -> reading inp r ->
  wp (read_fo_fields inp)
    (fun f _ => let '(k, s, t, n) := f in 0 <= k <= 16 /\ 0 <= t < 256 /\ 0 < n <= blen inp)
    (fun _ => True) r.
Proof.
  intros Hd Hr. unfold read_fo_fields, check_valid. pose proof (blen_nonneg inp) as Hn.
  apply wp_bind. eapply wp_read_bits; [exact Hr|lia|]. clear r Hr. intros k r Hr Hk.
  do 2 wp_step. do 2 wp_step; [|done]. bool_prop.
  rename H0 into Hk16. apply wp_bind. eapply wp_read_bits; [exact Hr|lia|]. clear r H Hr. intros s r Hr _.
  apply wp_bind. eapply wp_read_bits; [exact Hr|lia|]. clear r Hr. intros t r Hr Ht.
  do 3 wp_step. wp_step; [|done]. do 2 wp_step. cbv zeta. do 2 wp_step; [|done]. bool_prop.
  do 2 wp_step. rewrite shiftr_3 in *. destruct Hr as (H1 & H2 & H3 & H4). specialize (H4 H).
  assert (Hr : reading inp (set_bitpos ((br_bitpos r + 7) / 8 * 8) r)).
  { unfold reading, set_bitpos. cbn [br_buf br_bit_len br_bitpos br_valid].
    split_and!; [done|done|Z.div_mod_to_equations; lia|Z.div_mod_to_equations; lia]. }
  apply wp_bind. eapply wp_read_bits; [exact Hr|lia|]. clear r H H0 H1 H2 H3 H4 Hr. intros c r Hr _.
  do 3 wp_step. wp_step; [|done]. do 2 wp_step. do 2 wp_step; [|done]. bool_prop.
  destruct Hr as (H1 & H2 & H3 & H4). specialize (H4 H). apply wp_bind, wp_lift.
  destruct (validate_crc7_bits_safe inp (br_bitpos r)) as [b Eb]; [lia|]. rewrite Eb.
  wp_step. wp_step; [|done]. wp_step. rewrite shiftr_3 in *.
  assert (7 <= br_bitpos r).
  { destruct (Z.ltb_spec (br_bitpos r) 7) as [Hlt|]; [|done]. unfold validate_crc7_bits in Eb.
    rewrite (proj2 (Z.ltb_lt _ 7) Hlt) in Eb. congruence. }
  split_and!; try lia. Z.div_mod_to_equations. lia.
Qed.

Lemma read_fo_safe inp ctx r : bytes_ok inp -> 0 < blen inp -> reading inp r ->
  wp (read_fo inp ctx)
    (fun f _ => let '(k, s, t, n) := f in 0 <= k <= 16 /\ 0 <= t < 256 /\ 0 < n <= blen inp)
    (fun _ => True) r.
Proof.
  intros Hd Hn Hr. unfold read_fo, check_valid.
  apply wp_bind. eapply wp_read_bits; [exact Hr|lia|]. clear r Hr. intros fo r Hr _.
  do 2 wp_step. do 2 wp_step; [|done]. clear H.
  apply wp_bind. eapply wp_read_bits; [exact Hr|lia|]. clear r Hr. intros x r Hr _.
  apply wp_bind. eapply wp_read_bits; [exact Hr|lia|]. clear r Hr. intros c r Hr _.
  do 3 wp_step. wp_step; [|done]. apply wp_bind.
  apply wp_mono with (Q := fun _ r => reading inp r) (R := fun _ => True); [|done|].
  { intros _ r' Hr'. by apply fo_fields_safe. }
  wp_step; [|wp_step; done]. do 2 wp_step; [|done].
  do 2 wp_step; [lia|]. match goal with H : bytes_ok inp -> bytes_ok _ |- _ => specialize (H Hd) end.
  apply wp_bind, wp_lift. destruct (read_large t) as [[w n]| |] eqn:E; [|done|].
  2: { pose proof (read_large_inv t ltac:(done)) as Hi. by rewrite E in Hi. }
  cbn [fst snd]. destruct (read_large_bounds t w n ltac:(done) E) as (_ & _ & Hw & _).
  do 2 wp_step; [|done]. do 2 wp_step; [|done]. bool_prop. wp_step.
  destruct Hr as (R1 & R2 & R3 & R4). unfold reading, set_bitpos. cbn [br_buf br_bit_len br_bitpos br_valid].
  split_and!; [done|done|lia|lia].
Qed.

Lemma lsb_decode_total ref lsb : exists v, LsbWindow.decode 32 ref lsb 8 = Ok v /\ 0 <= v < 2 ^ 32.
Proof.
  unfold LsbWindow.decode. change (32 <=? 8) with false. cbv zeta. eexists. split; [done|].
  unfold LsbWindow.wrap. repeat (case_match; try (apply Z.mod_pos_bound; lia)).
Qed.

Lemma fo_timestamp_total ctx seq t :
  match fo_timestamp ctx seq t with Ok ts => 0 <= ts < 2 ^ 32 | Rej => True | Ub => False end.
Proof.
  assert (P : forall p f stride res, 0 <= p < 2 ^ 32 ->
    exists ts, decode_scaled_lsb_with_timestamp_prediction t 8 p f stride res = Ok ts /\ 0 <= ts < 2 ^ 32).
  { intros p f stride res Hp. unfold decode_scaled_lsb_with_timestamp_prediction.
    destruct (negb _ && _); [by exists p|]. unfold decode_scaled_lsb, LsbWindow.init.
    destruct (Z.eqb_spec stride 0) as [|Hn]; [apply lsb_decode_total|].
    destruct (lsb_decode_total (f / stride) t) as (v & -> & _). cbn [obind]. eexists. split; [done|].
    unfold unscale_timestamp. rewrite (proj2 (Z.eqb_neq _ 0) Hn). apply Z.mod_pos_bound. lia. }
  unfold fo_timestamp. destruct (timer_based_ts _).
  - unfold decode_timer_scaled_lsb, advance_timer_scaled_timestamp.
    destruct (ts_stride (rtp ctx) =? 0); [done|].
    edestruct P as (ts & -> & Hts); [|exact Hts]. apply Z.mod_pos_bound. lia.
  - edestruct P as (ts & -> & Hts); [|exact Hts]. apply Z.mod_pos_bound. lia.
Qed.

Lemma decode_fo_safe inp ctx : bytes_ok inp -> blen inp < 2 ^ 60 ->
  wp (decode_fo_rtp inp)
    (fun r c => let '(seq, ts, n) := r in c = fo_accept seq ts ctx /\
       0 <= seq < 2 ^ 16 /\ 0 <= ts < 2 ^ 32 /\ 0 < n <= blen inp)
    (fun c => c = ctx) ctx.
Proof.
  intros Hd Hl. unfold decode_fo_rtp. do 2 wp_step; [|done]. bool_prop. pose proof (blen_nonneg inp).
  do 2 wp_step. apply wp_bind, wp_lift. rewrite mk_bit_reader_eq by done.
  set (r := {| br_buf := inp |}).
  assert (Hr : reading inp r) by (unfold reading, r; cbn; split_and!; intros; (done || lia)).
  pose proof (read_fo_safe inp ctx r Hd ltac:(lia) Hr) as S. unfold wp in S at 1.
  destruct (read_fo inp ctx r) as [[[[[k s] t] n]| |] r']; cbn [fst]; [|done|done].
  apply wp_bind, wp_lift.
  set (seq := u16 (decode_field_lsb RtpSequence s (last_seq (rtp ctx)) k)).
  pose proof (fo_timestamp_total ctx seq t) as T. destruct (fo_timestamp ctx seq t) as [ts| |]; [|done|done].
  do 3 wp_step. split_and!; try done; try (apply Z.mod_pos_bound; lia); lia.
Qed.

(** C14: The first-order RTP packet carries a sequence number and a timestamp
    across: from any buffer that has room, whatever it contained and whatever
    the CID space, the emitter writes exactly five octets and the large CID,
    and the decoder of a context with the same CID and stride that has them in
    reach - 32 behind to 31 ahead for the sequence number; the expected
    timestamp, or an unexpected one within 128 strides - accepts the packet,
    returns both numbers, consumes every octet and moves its references there.
    A buffer without room is refused.  On any octets at all the decoder reads
    only what it was given, and a packet it refuses leaves the context as it
    was. *)
Theorem rtp_fo_roundtrip tx rx out inp (Htx : context_ok tx) (Hrx : context_ok rx)
  (Hcid : is_valid_for_space (cid tx) (large_cid tx) = true)
  (Hc : cid rx = cid tx) (Hl : large_cid rx = large_cid tx)
  (Hst : ts_stride (rtp rx) = ts_stride (rtp tx))
  (Hseq : seq_in_reach (rtp rx) (last_seq (rtp tx)))
  (Hts : ts_in_reach (rtp rx) (last_seq (rtp tx)) (last_ts (rtp tx)))
  (Hin : bytes_ok inp) (Hsize : blen inp < 2 ^ 60) (Hout : 0 < blen out) :
  (if fo_length tx <=? blen out then
     exists buf n, emit_rtp_fo tx out (blen out) = Ok (buf, n) /\ length buf = length out /\
       n = fo_length tx /\
       decode_fo_rtp (take (Z.to_nat n) buf) rx =
         (Ok (last_seq (rtp tx), last_ts (rtp tx), n), fo_accept (last_seq (rtp tx)) (last_ts (rtp tx)) rx)
   else emit_rtp_fo tx out (blen out) = Rej) /\
  wp (decode_fo_rtp inp) (fun r c => let '(seq, ts, n) := r in c = fo_accept seq ts rx /\
      0 <= seq < 2 ^ 16 /\ 0 <= ts < 2 ^ 32 /\ 0 < n <= blen inp) (fun c => c = rx) rx.
Proof.
  split; [|by apply decode_fo_safe].
  assert (Hcv : cid_valid tx) by (split; [by apply ok_cid|done]).
  destruct (Z.leb_spec (fo_length tx) (blen out)) as [Hfit|Hno].
  2: { unfold emit_rtp_fo. rewrite Hcid. cbn [oguard obind]. fold (fo_length tx).
       by rewrite (proj2 (Z.eqb_neq _ 0)), (proj2 (Z.ltb_lt _ (fo_length tx))) by lia. }
  set (s := encode_field_lsb RtpSequence (last_seq (rtp tx)) K_SEQ).
  set (t := encode_field_lsb RtpTimestamp (scaled (scale_timestamp (last_ts (rtp tx)) (ts_stride (rtp tx)))) K_TS).
  assert (Hs : 0 <= s < 64) by (unfold s, K_SEQ; rewrite seq_lsb_eq; apply Z.mod_pos_bound; lia).
  assert (Ht : 0 <= t < 256) by (unfold t, K_TS; rewrite ts_lsb_eq; apply Z.mod_pos_bound; lia).
  destruct (emit_rtp_fo_run tx out Hcv Hs Ht Hfit) as (buf & E & L & Hb & Hf & Hp).
  exists buf, (fo_length tx). split; [exact E|]. split; [done|]. split; [done|].
  destruct (packet_taken tx s t buf Hs Ht Hcv Hb) as (Hb' & L' & Hf' & Hp'); [unfold blen in *; lia|done|done|].
  set (pkt := take (Z.to_nat (fo_length tx)) buf) in *.
  assert (Hpos : 5 <= fo_length tx).
  { pose proof (encoded_len_bound (cid tx)). unfold fo_length. destruct (large_cid tx); lia. }
  assert (Ep : fst (read_fo pkt rx (mk_bit_reader pkt (blen pkt))) = Ok (6, s, t, blen pkt)).
  { apply read_fo_packet; unfold cid_valid, fo_length, fo_start, fronted, header_cid in *;
      rewrite ?Hc, ?Hl; done. }
  unfold decode_fo_rtp. rewrite (proj2 (Z.eqb_neq (blen pkt) 0)) by lia.
  do 2 (erewrite bind_ok by reflexivity). rewrite Ep. erewrite bind_ok by reflexivity. cbv iota beta.
  destruct Hseq as [Hsr Hsw].
  assert (Es : u16 (decode_field_lsb RtpSequence s (last_seq (rtp rx)) 6) = last_seq (rtp tx)).
  { unfold s, K_SEQ. rewrite decode_field_lsb_window; [by apply Z.mod_small| |by apply ok_last_seq|done|done].
    cbn; lia. }
  rewrite Es. unfold t, K_TS. rewrite <- Hst. fold (scaled_of (rtp rx) (last_ts (rtp tx))).
  rewrite fo_timestamp_known; [|by apply ok_last_ts| |by apply ok_last_ts|done].
  - do 2 (erewrite bind_ok by reflexivity). by rewrite L'.
  - unfold context_ok, rtp_ok in Hrx. by decompose [and] Hrx.
Qed.

Definition rtp_sender : Context :=
  initial_context <| cid := 9 |> <| large_cid := true |>
    <| rtp := rtp initial_context <| last_seq := 3 |> <| last_ts := 160 |> <| ts_stride := 160 |> |>.

Definition rtp_receiver : Context :=
  initial_context <| cid := 9 |> <| large_cid := true |>
    <| rtp := rtp initial_context <| last_seq := 2 |> <| ts_stride := 160 |> |>.

#[local] Hint Extern 5 (_ <= _ < _) => lia : ctxok.

Lemma rtp_samples_ok : context_ok rtp_sender /\ context_ok rtp_receiver.
Proof. pose proof initial_context_ok. split; unfold rtp_sender, rtp_receiver; auto 50 with ctxok. Qed.

Lemma rtp_fo_roundtrip_witness :
  exists buf, emit_rtp_fo rtp_sender (repeat 0xFF 9) 9 = Ok (buf, 6) /\
    decode_fo_rtp (take 6 buf) rtp_receiver = (Ok (3, 160, 6), fo_accept 3 160 rtp_receiver).
Proof.
  destruct rtp_samples_ok as [Hs Hr].
  assert (H : seq_in_reach (rtp rtp_receiver) (last_seq (rtp rtp_sender))) by (vm_compute; repeat split; discriminate).
  assert (Ht : ts_in_reach (rtp rtp_receiver) (last_seq (rtp rtp_sender)) (last_ts (rtp rtp_sender))).
  { left. split; [discriminate|reflexivity]. }
  destruct (proj1 (rtp_fo_roundtrip rtp_sender rtp_receiver (repeat 0xFF 9) [] Hs Hr eq_refl eq_refl eq_refl
    eq_refl H Ht bytes_ok_nil eq_refl eq_refl)) as (buf & n & E & _ & N & D).
  exists buf. vm_compute in N. subst n. split; [exact E|exact D].
Defined.

(** With a capacity of 0 the fields are written over what the buffer holds. *)
Example emit_without_capacity :
  emit_rtp_fo rtp_sender (repeat 0 6) 0 = emit_rtp_fo rtp_sender (repeat 0 6) 6 /\
  emit_rtp_fo rtp_sender (repeat 0xFF 6) 0 = Ok ([0xFF; 9; 0xFF; 0xFF; 0xFF; 0xFF], 6).
Proof. split; vm_compute; reflexivity. Qed.
