(* ===== verification/Sha256.v ===== *)
(** * SHA-256 and HMAC: the integrity functions of include/rohccxx/core/rohcoipsec.hpp

    [sha256] runs over the message in place and pads the rest in a buffer of
    two blocks; the theorems compare it with the padding of the whole message,
    and the keyed digest with the nested hash of RFC 2104. *)

From S2P Require Import Prelude Crc Context Cursor.

Definition sha256_digest_len : Z := 32.

Definition rotr (value bits : Z) : Z := Z.lor (Z.shiftr value bits) (u32 (Z.shiftl value (32 - bits))).

(** [load_be32(p)] at offset [i]. *)
Definition load_be32 (p : bytes) (i : Z) : outcome Z := rd_u32 p i.
Definition store_be32 (value : Z) : bytes :=
  [u8 (Z.shiftr value 24); u8 (Z.shiftr value 16); u8 (Z.shiftr value 8); u8 value].

Definition k : list Z := [
  0x428A2F98; 0x71374491; 0xB5C0FBCF; 0xE9B5DBA5;
  0x3956C25B; 0x59F111F1; 0x923F82A4; 0xAB1C5ED5;
  0xD807AA98; 0x12835B01; 0x243185BE; 0x550C7DC3;
  0x72BE5D74; 0x80DEB1FE; 0x9BDC06A7; 0xC19BF174;
  0xE49B69C1; 0xEFBE4786; 0x0FC19DC6; 0x240CA1CC;
  0x2DE92C6F; 0x4A7484AA; 0x5CB0A9DC; 0x76F988DA;
  0x983E5152; 0xA831C66D; 0xB00327C8; 0xBF597FC7;
  0xC6E00BF3; 0xD5A79147; 0x06CA6351; 0x14292967;
  0x27B70A85; 0x2E1B2138; 0x4D2C6DFC; 0x53380D13;
  0x650A7354; 0x766A0ABB; 0x81C2C92E; 0x92722C85;
  0xA2BFE8A1; 0xA81A664B; 0xC24B8B70; 0xC76C51A3;
  0xD192E819; 0xD6990624; 0xF40E3585; 0x106AA070;
  0x19A4C116; 0x1E376C08; 0x2748774C; 0x34B0BCB5;
  0x391C0CB3; 0x4ED8AA4A; 0x5B9CCA4F; 0x682E6FF3;
  0x748F82EE; 0x78A5636F; 0x84C87814; 0x8CC70208;
  0x90BEFFFA; 0xA4506CEB; 0xBEF9A3F7; 0xC67178F2].

(** [w[i] = ...] for the first sixteen words; [w] holds what is stored so far. *)
Fixpoint load_words (block : bytes) (i : Z) (n : nat) : outcome (list Z) :=
  match n with
  | O => Ok []
  | S n =>
      let! x := load_be32 block (i * 4) in
      let! w := load_words block (i + 1) n in
      Ok (x :: w)
  end.

(** The loop that extends the schedule, [n] words to go. *)
Fixpoint extend_schedule (w : list Z) (i : Z) (n : nat) : outcome (list Z) :=
  match n with
  | O => Ok w
  | S n =>
      let! w15 := rd w (i - 15) in
      let! w2 := rd w (i - 2) in
      let! w16 := rd w (i - 16) in
      let! w7 := rd w (i - 7) in
      let s0 := Z.lxor (Z.lxor (rotr w15 7) (rotr w15 18)) (Z.shiftr w15 3) in
      let s1 := Z.lxor (Z.lxor (rotr w2 17) (rotr w2 19)) (Z.shiftr w2 10) in
      extend_schedule (w ++ [u32 (w16 + s0 + w7 + s1)]) (i + 1) n
  end.

(** The eight words of the state, and of the working variables. *)
Record Words := mkWords { wa : Z; wb : Z; wc : Z; wd : Z; we : Z; wf : Z; wg : Z; wh : Z }.

(** One round; [~e] is [2^32 - 1 - e]. *)
Definition sha_round (s : Words) (ki wi : Z) : Words :=
  let s1 := Z.lxor (Z.lxor (rotr (we s) 6) (rotr (we s) 11)) (rotr (we s) 25) in
  let ch := Z.lxor (Z.land (we s) (wf s)) (Z.land (u32 (Z.lnot (we s))) (wg s)) in
  let temp1 := u32 (wh s + s1 + ch + ki + wi) in
  let s0 := Z.lxor (Z.lxor (rotr (wa s) 2) (rotr (wa s) 13)) (rotr (wa s) 22) in
  let maj := Z.lxor (Z.lxor (Z.land (wa s) (wb s)) (Z.land (wa s) (wc s))) (Z.land (wb s) (wc s)) in
  let temp2 := u32 (s0 + maj) in
  mkWords (u32 (temp1 + temp2)) (wa s) (wb s) (wc s) (u32 (wd s + temp1)) (we s) (wf s) (wg s).

Fixpoint sha_rounds (w : list Z) (s : Words) (i : Z) (n : nat) : outcome Words :=
  match n with
  | O => Ok s
  | S n =>
      let! ki := rd k i in
      let! wi := rd w i in
      sha_rounds w (sha_round s ki wi) (i + 1) n
  end.

Definition add_words (x y : Words) : Words :=
  mkWords (u32 (wa x + wa y)) (u32 (wb x + wb y)) (u32 (wc x + wc y)) (u32 (wd x + wd y))
    (u32 (we x + we y)) (u32 (wf x + wf y)) (u32 (wg x + wg y)) (u32 (wh x + wh y)).

Definition sha256_transform (state : Words) (block : bytes) : outcome Words :=
  let! w0 := load_words block 0 16 in
  let! w := extend_schedule w0 16 48 in
  let! s := sha_rounds w state 0 64 in
  Ok (add_words state s).

Definition initial_state : Words :=
  mkWords 0x6A09E667 0xBB67AE85 0x3C6EF372 0xA54FF53A 0x510E527F 0x9B05688C 0x1F83D9AB 0x5BE0CD19.

(** The loop over whole blocks: the state, and the position of the rest. *)
Fixpoint sha_blocks (fuel : nat) (data : bytes) (state : Words) (pos : Z) : outcome (Words * Z) :=
  if pos + 64 <=? blen data then
    match fuel with
    | O => Ub
    | S fuel =>
        let! block := tail_from data pos in
        let! state := sha256_transform state block in
        sha_blocks fuel data state (pos + 64)
    end
  else Ok (state, pos).

(** [block[total_pad_len - 1 - i] = bit_len >> (8 * i)] for eight octets. *)
Fixpoint store_len (block : bytes) (total_pad_len bit_len : Z) (i : nat) (n : nat) : outcome bytes :=
  match n with
  | O => Ok block
  | S n =>
      let p := total_pad_len - 1 - Z.of_nat i in
      if (p <? 0) || (blen block <=? p) then Ub else
      store_len (<[Z.to_nat p := u8 (Z.shiftr bit_len (8 * Z.of_nat i))]> block)
        total_pad_len bit_len (S i) n
  end.

Definition digest_octets (s : Words) : bytes :=
  store_be32 (wa s) ++ store_be32 (wb s) ++ store_be32 (wc s) ++ store_be32 (wd s) ++
  store_be32 (we s) ++ store_be32 (wf s) ++ store_be32 (wg s) ++ store_be32 (wh s).

Definition sha256 (data : bytes) : outcome bytes :=
  let! r := sha_blocks (length data) data initial_state 0 in
  let '(state, pos) := r in
  let rem := blen data - pos in
  let! rest := slice data pos rem in
  let! block := overwrite (repeat 0 128) rest in
  if (rem <? 0) || (128 <=? rem) then Ub else
  let block := <[Z.to_nat rem := 0x80]> block in
  let bit_len := u64 (blen data * 8) in
  let total_pad_len := if rem <? 56 then 64 else 128 in
  let! block := store_len block total_pad_len bit_len 0 8 in
  let! state := sha256_transform state block in
  let! state :=
    if total_pad_len =? 128 then
      let! second := tail_from block 64 in sha256_transform state second
    else Ok state in
  Ok (digest_octets state).

(** The loop over [a] and [b], accumulating differences. *)
Fixpoint diff_loop (a b : bytes) (diff : Z) (i : Z) (n : nat) : outcome Z :=
  match n with
  | O => Ok diff
  | S n =>
      let! x := rd a i in
      let! y := rd b i in
      diff_loop a b (u8 (Z.lor diff (Z.lxor x y))) (i + 1) n
  end.

Definition constant_time_equal (a b : bytes) (len : Z) : outcome bool :=
  let! diff := diff_loop a b 0 0 (Z.to_nat len) in
  Ok (diff =? 0).

(** ** The integrity check value *)

(** [IntegrityAlgorithm]. *)
Definition None_ : Z := 0.
Definition HmacSha256 : Z := 12.

Definition digest_len (algorithm : Z) : Z :=
  if algorithm =? None_ then 0 else if algorithm =? HmacSha256 then sha256_digest_len else 0.

Definition xor_block (key_block : bytes) (c : Z) : bytes := map (fun b => u8 (Z.lxor b c)) key_block.

(** The octets stored to [out]; their number is the new [*out_len]. *)
Definition compute_icv (algorithm : Z) (key data : bytes) (out_len : Z) : outcome bytes :=
  if algorithm =? None_ then Ok []
  else
    check negb (negb (algorithm =? HmacSha256) || (sha256_digest_len <? out_len)) in
    let! key_block :=
      if 64 <? blen key then
        let! digest := sha256 key in overwrite (repeat 0 64) digest
      else overwrite (repeat 0 64) key in
    check negb (4096 <? blen data) in
    let! inner_digest := sha256 (xor_block key_block 0x36 ++ data) in
    let! digest := sha256 (xor_block key_block 0x5C ++ inner_digest) in
    slice digest 0 out_len.

(** What is written to an output of [out_len] octets. *)
Definition append_icv (algorithm : Z) (key authenticated_packet rohc_packet : bytes)
    (out_len icv_len : Z) : outcome bytes :=
  let full_len := digest_len algorithm in
  check negb (negb (algorithm =? None_) && ((icv_len =? 0) || (full_len <? icv_len))) in
  let icv_len := if algorithm =? None_ then 0 else icv_len in
  check negb (out_len <? blen rohc_packet + icv_len) in
  let! digest := compute_icv algorithm key authenticated_packet icv_len in
  let! icv := slice digest 0 icv_len in
  Ok (rohc_packet ++ icv).

(** The ROHC packet in front of the check value. *)
Definition strip_and_verify_icv (algorithm : Z) (key authenticated_packet rohcoipsec_packet : bytes)
    (icv_len : Z) : outcome bytes :=
  let full_len := digest_len algorithm in
  check negb (negb (algorithm =? None_) && ((icv_len =? 0) || (full_len <? icv_len))) in
  let icv_len := if algorithm =? None_ then 0 else icv_len in
  check negb (blen rohcoipsec_packet <? icv_len) in
  let packet_len := blen rohcoipsec_packet - icv_len in
  let! _ :=
    if 0 <? icv_len then
      let! digest := compute_icv algorithm key authenticated_packet icv_len in
      let! tail := tail_from rohcoipsec_packet packet_len in
      let! equal := constant_time_equal digest tail icv_len in
      oguard equal
    else Ok tt in
  slice rohcoipsec_packet 0 packet_len.

Definition append_none_icv (rohc_packet : bytes) (out_len : Z) : outcome bytes :=
  append_icv None_ [] rohc_packet rohc_packet out_len 0.

Definition strip_none_icv (rohcoipsec_packet : bytes) : outcome bytes :=
  strip_and_verify_icv None_ [] rohcoipsec_packet rohcoipsec_packet 0.

Example sha256_abc :
  sha256 [0x61; 0x62; 0x63] =
  Ok [0xba; 0x78; 0x16; 0xbf; 0x8f; 0x01; 0xcf; 0xea; 0x41; 0x41; 0x40; 0xde; 0x5d; 0xae; 0x22; 0x23;
      0xb0; 0x03; 0x61; 0xa3; 0x96; 0x17; 0x7a; 0x9c; 0xb4; 0x10; 0xff; 0x61; 0xf2; 0x00; 0x15; 0xad].
Proof. vm_compute. reflexivity. Qed.

(** * The compression function is total and looks at one block *)

Lemma rd_u32_take block n i : 0 <= i -> i + 4 <= Z.of_nat n -> rd_u32 (take n block) i = rd_u32 block i.
Proof.
  intros Hi Hn. unfold rd_u32, rd. rewrite (proj2 (Z.ltb_ge i 0)), (proj2 (Z.ltb_ge (i + 1) 0)),
    (proj2 (Z.ltb_ge (i + 2) 0)), (proj2 (Z.ltb_ge (i + 3) 0)) by lia.
  by rewrite !lookup_take_lt by lia.
Qed.

Lemma load_words_ok block i n : 0 <= i -> i * 4 + 4 * Z.of_nat n <= blen block ->
  exists w, load_words block i n = Ok w /\ length w = n.
Proof.
  revert i. induction n as [|n IH]; intros i Hi Hn; cbn [load_words]; [by exists []|].
  unfold load_be32. destruct (rd_u32_in_range block (i * 4)) as (x & -> & _); [lia..|].
  destruct (IH (i + 1)) as (w & -> & L); [lia..|]. exists (x :: w). cbn [obind length]. split; [done|lia].
Qed.

Lemma load_words_take block m i n : 0 <= i -> i * 4 + 4 * Z.of_nat n <= Z.of_nat m ->
  load_words (take m block) i n = load_words block i n.
Proof.
  revert i. induction n as [|n IH]; intros i Hi Hm; cbn [load_words]; [done|].
  unfold load_be32. rewrite rd_u32_take, IH by lia. done.
Qed.

Lemma extend_ok w i n : blen w = i -> 16 <= i ->
  exists w', extend_schedule w i n = Ok w' /\ blen w' = i + Z.of_nat n.
Proof.
  revert w i. induction n as [|n IH]; intros w i Hw Hi; cbn [extend_schedule]; [exists w; split; [done|lia]|].
  rewrite !rd_nth by lia. cbn [obind]. match goal with |- context [w ++ ?l] =>
    destruct (IH (w ++ l) (i + 1)) as (w' & -> & L); [by rewrite blen_app, Hw|lia|] end.
  exists w'. split; [done|lia].
Qed.

Lemma rounds_ok w s i n : 0 <= i -> i + Z.of_nat n <= 64 -> blen w = 64 ->
  exists s', sha_rounds w s i n = Ok s'.
Proof.
  revert s i. induction n as [|n IH]; intros s i Hi Hn Hw; cbn [sha_rounds]; [by exists s|].
  rewrite (rd_nth k), (rd_nth w) by (rewrite ?Hw; change (blen k) with 64; lia). cbn [obind].
  apply IH; [lia..|done].
Qed.

Lemma transform_ok s block : 64 <= blen block -> exists s', sha256_transform s block = Ok s'.
Proof.
  intros Hb. unfold sha256_transform.
  destruct (load_words_ok block 0 16) as (w0 & -> & L0); [lia..|]. cbn [obind].
  destruct (extend_ok w0 16 48) as (w & -> & L); [unfold blen; lia|lia|]. cbn [obind].
  destruct (rounds_ok w s 0 64) as (s' & ->); [lia..|]. by eexists.
Qed.

Lemma transform_take s block n : (64 <= n)%nat -> sha256_transform s (take n block) = sha256_transform s block.
Proof. intros Hn. unfold sha256_transform. by rewrite load_words_take by lia. Qed.

(** * The padded message, block by block *)

Definition be64 (v : Z) : bytes :=
  [u8 (Z.shiftr v 56); u8 (Z.shiftr v 48); u8 (Z.shiftr v 40); u8 (Z.shiftr v 32);
   u8 (Z.shiftr v 24); u8 (Z.shiftr v 16); u8 (Z.shiftr v 8); u8 (Z.shiftr v 0)].

(** The padding of FIPS 180-4: a one bit, zeros, and the length in bits. *)
Definition padded (m : bytes) : bytes :=
  m ++ 0x80 :: repeat 0 (Z.to_nat ((55 - blen m) mod 64)) ++ be64 (u64 (blen m * 8)).

Fixpoint hash_blocks (n : nat) (s : Words) (m : bytes) : outcome Words :=
  match n with
  | O => Ok s
  | S n => let! s := sha256_transform s (take 64 m) in hash_blocks n s (drop 64 m)
  end.

Definition sha256_reference (m : bytes) : outcome bytes :=
  let! s := hash_blocks (length (padded m) / 64) initial_state (padded m) in
  Ok (digest_octets s).

Lemma hash_blocks_app n j s m1 m2 : length m1 = (64 * n)%nat ->
  hash_blocks (n + j) s (m1 ++ m2) = (let! s := hash_blocks n s m1 in hash_blocks j s m2).
Proof.
  revert s m1. induction n as [|n IH]; intros s m1 Hl; cbn [Nat.add hash_blocks].
  - by destruct m1.
  - rewrite take_app_le, drop_app_le by lia.
    destruct (sha256_transform s (take 64 m1)) as [s'| |]; [|done|done]. cbn [obind].
    apply IH. rewrite length_drop. lia.
Qed.

Lemma sha_blocks_spec fuel data s pos : 0 <= pos <= blen data -> blen data - pos <= 64 * Z.of_nat fuel + 63 ->
  exists n s', sha_blocks fuel data s pos = Ok (s', pos + 64 * Z.of_nat n) /\
    hash_blocks n s (take (64 * n) (drop (Z.to_nat pos) data)) = Ok s' /\
    0 <= blen data - (pos + 64 * Z.of_nat n) < 64.
Proof.
  revert s pos. induction fuel as [|fuel IH]; intros s pos Hp Hf; cbn [sha_blocks].
  { rewrite (proj2 (Z.leb_gt (pos + 64) _)) by lia. exists 0%nat, s.
    rewrite Z.mul_0_r, Z.add_0_r. split_and!; [done|done|lia|lia]. }
  destruct (Z.leb_spec (pos + 64) (blen data)) as [Hle|Hgt].
  2: { exists 0%nat, s. rewrite Z.mul_0_r, Z.add_0_r. split_and!; [done|done|lia|lia]. }
  unfold tail_from. rewrite (proj2 (Z.ltb_ge pos 0)), (proj2 (Z.ltb_ge (blen data) pos)) by lia. cbn [orb obind].
  set (rest := drop (Z.to_nat pos) data).
  assert (Hr : blen rest = blen data - pos) by (unfold rest, blen; rewrite length_drop; unfold blen in *; lia).
  destruct (transform_ok s rest) as (s1 & E1); [lia|]. rewrite E1. cbn [obind].
  destruct (IH s1 (pos + 64)) as (n & s' & E & H & Hb); [lia..|].
  exists (S n), s'. split_and!; [|..|lia|lia].
  - rewrite E. do 2 f_equal. lia.
  - cbn [hash_blocks]. rewrite take_take, Nat.min_l by lia. rewrite transform_take, E1 by lia. cbn [obind].
    replace (drop 64 (take (64 * S n) rest)) with (take (64 * n) (drop (Z.to_nat (pos + 64)) data)); [done|].
    rewrite skipn_firstn_comm. unfold rest. rewrite drop_drop. f_equal; [lia|]. f_equal. lia.
Qed.

Lemma store_len_spec pre bit_len post :
  store_len (pre ++ repeat 0 8 ++ post) (blen pre + 8) bit_len 0 8 = Ok (pre ++ be64 bit_len ++ post).
Proof.
  unfold blen.
  assert (H : forall l i v, (i < 8)%nat ->
    <[Z.to_nat (Z.of_nat (length pre) + 8 - 1 - Z.of_nat i) := v]> (pre ++ l) =
    pre ++ <[(7 - i)%nat := v]> l).
  { intros l i v Hi. replace (Z.to_nat _) with (length pre + (7 - i))%nat by lia. apply insert_app_r. }
  assert (E : forall l i n v, (8 <= length l)%nat -> (i < 8)%nat ->
    store_len (pre ++ l) (Z.of_nat (length pre) + 8) v i (S n) =
    store_len (pre ++ <[(7 - i)%nat := u8 (Z.shiftr v (8 * Z.of_nat i))]> l)
      (Z.of_nat (length pre) + 8) v (S i) n).
  { intros l i n v Hl Hi. cbn [store_len]. rewrite (proj2 (Z.ltb_ge _ 0)) by lia.
    unfold blen. rewrite length_app, (proj2 (Z.leb_gt _ _)) by lia. cbn [orb]. by rewrite H. }
  do 8 (rewrite E; [|rewrite ?length_insert; cbn [repeat app length]; lia|lia]).
  cbn [store_len]. reflexivity.
Qed.

(** The last block, or two, of the code's buffer: the rest of the message, the
    padding and what lies behind it. *)
Lemma last_blocks rest L z post :
  store_len (<[length rest := 0x80]> (rest ++ repeat 0 (z + 9 + post))) (blen rest + 1 + Z.of_nat z + 8) L 0 8 =
  Ok ((rest ++ 0x80 :: repeat 0 z ++ be64 L) ++ repeat 0 post).
Proof.
  rewrite <- (Nat.add_0_r (length rest)) at 1. rewrite insert_app_r.
  replace (z + 9 + post)%nat with (S (z + (8 + post))) by lia. cbn [repeat insert list_insert].
  rewrite !repeat_app.
  replace (rest ++ 0x80 :: repeat 0 z ++ repeat 0 8 ++ repeat 0 post)
    with ((rest ++ 0x80 :: repeat 0 z) ++ repeat 0 8 ++ repeat 0 post)
    by (rewrite <- app_assoc; reflexivity).
  replace (blen rest + 1 + Z.of_nat z + 8) with (blen (rest ++ 0x80 :: repeat 0 z) + 8)
    by (unfold blen; rewrite length_app; cbn [length]; rewrite repeat_length; lia).
  rewrite store_len_spec, <- !app_assoc. cbn [app]. by rewrite <- !app_assoc.
Qed.

Lemma transform_prefix s a b : 64 <= blen a -> sha256_transform s (a ++ b) = sha256_transform s a.
Proof.
  intros H. rewrite <- (transform_take s (a ++ b) 64), take_app_le by (unfold blen in H; lia).
  apply transform_take. lia.
Qed.

Lemma padded_split m n z : (64 * n <= length m)%nat ->
  Z.of_nat z = (55 - blen m) mod 64 ->
  padded m = take (64 * n) m ++ drop (64 * n) m ++ 0x80 :: repeat 0 z ++ be64 (u64 (blen m * 8)).
Proof.
  intros Hn Hz. unfold padded. rewrite <- Hz, Nat2Z.id.
  rewrite <- (take_drop (64 * n) m) at 1. by rewrite <- app_assoc.
Qed.

Lemma reference_split data n j z s s' :
  let rest := drop (64 * n) data in
  let blk := rest ++ 0x80 :: repeat 0 z ++ be64 (u64 (blen data * 8)) in
  (64 * n <= length data)%nat -> (length rest + 9 + z)%nat = (64 * j)%nat -> (0 < j)%nat -> (z < 64)%nat ->
  hash_blocks n initial_state (take (64 * n) data) = Ok s -> hash_blocks j s blk = Ok s' ->
  sha256_reference data = Ok (digest_octets s').
Proof.
  intros rest blk Hn Hj Hj0 Hz H1 H2. unfold sha256_reference.
  assert (Hlb : length blk = (64 * j)%nat).
  { unfold blk. rewrite length_app. cbn [length]. rewrite length_app, repeat_length. cbn [be64 length]. lia. }
  assert (Hlr : length rest = (length data - 64 * n)%nat) by (unfold rest; by rewrite length_drop).
  rewrite (padded_split data n z); [|done|].
  2: { unfold blen. Z.div_mod_to_equations. lia. }
  fold rest blk. rewrite length_app, length_take, Hlb.
  replace (_ / 64)%nat with (n + j)%nat.
  2: { rewrite Nat.min_l by lia. replace (64 * n + 64 * j)%nat with ((n + j) * 64)%nat by lia. by rewrite Nat.div_mul. }
  rewrite hash_blocks_app by (rewrite length_take; lia). rewrite H1. cbn [obind]. by rewrite H2.
Qed.

Lemma digest_ok s : blen (digest_octets s) = 32 /\ bytes_ok (digest_octets s).
Proof. split; [done|]. unfold digest_octets, store_be32. cbn [app]. repeat constructor; apply byte_u8. Qed.

(** What the code does after its loop, with [rest] left over. *)
Lemma finish_spec rest L s :
  (length rest < 64)%nat ->
  let z := if blen rest <? 56 then (55 - length rest)%nat else (119 - length rest)%nat in
  let j := if blen rest <? 56 then 1%nat else 2%nat in
  let total_pad_len := if blen rest <? 56 then 64 else 128 in
  exists s', hash_blocks j s (rest ++ 0x80 :: repeat 0 z ++ be64 L) = Ok s' /\
    (let! block := store_len (<[length rest := 0x80]> (rest ++ repeat 0 (128 - length rest))) total_pad_len L 0 8 in
     let! state := sha256_transform s block in
     if total_pad_len =? 128 then
       let! second := tail_from block 64 in sha256_transform state second
     else Ok state) = Ok s' /\ (length rest + 9 + z)%nat = (64 * j)%nat.
Proof.
  intros Hr z j total. pose proof (last_blocks rest L z (128 - length rest - 9 - z)) as LB.
  assert (Hz : (z + 9 + (128 - length rest - 9 - z))%nat = (128 - length rest)%nat /\
    blen rest + 1 + Z.of_nat z + 8 = total /\ (length rest + 9 + z)%nat = (64 * j)%nat).
  { unfold z, j, total, blen. destruct (Z.ltb_spec (Z.of_nat (length rest)) 56); lia. }
  destruct Hz as (Hz1 & Hz2 & Hz3). rewrite Hz1, Hz2 in LB. rewrite LB. cbn [obind].
  set (blk := rest ++ 0x80 :: repeat 0 z ++ be64 L) in *.
  assert (Hb : length blk = (64 * j)%nat).
  { unfold blk. rewrite length_app. cbn [length]. rewrite length_app, repeat_length. cbn [be64 length]. lia. }
  rewrite transform_prefix by (unfold blen, j in *; destruct (_ <? 56); lia).
  destruct (transform_ok s blk) as [s1 E1]; [unfold blen, j in *; destruct (_ <? 56); lia|]. rewrite E1. cbn [obind].
  unfold j, total in *. destruct (blen rest <? 56); cbn [hash_blocks Z.eqb].
  - exists s1. rewrite transform_take, E1 by lia. done.
  - destruct (transform_ok s1 (drop 64 blk)) as [s2 E2]; [unfold blen; rewrite length_drop; lia|].
    exists s2. rewrite transform_take, E1 by lia. cbn [obind]. rewrite transform_take, E2 by lia.
    split_and!; [done| |done]. unfold tail_from. rewrite blen_app. pose proof (blen_nonneg (repeat 0 (128 - length rest - 9 - z))).
    rewrite (proj2 (Z.ltb_ge _ 64)) by (unfold blen in *; lia). cbn [Z.ltb Z.compare orb obind].
    change (Z.to_nat 64) with 64%nat. rewrite drop_app_le by lia.
    rewrite transform_prefix; [exact E2|unfold blen; rewrite length_drop; lia].
Qed.

(** The code's hash is that of the padded message, whatever its length. *)
Lemma sha256_eq data : sha256 data = sha256_reference data /\
  exists d, sha256 data = Ok d /\ blen d = 32 /\ bytes_ok d.
Proof.
  unfold sha256. pose proof (blen_nonneg data) as H0.
  destruct (sha_blocks_spec (length data) data initial_state 0) as (n & s & E & Hh & Hr);
    [lia|unfold blen; lia|]. rewrite E. cbn [obind]. rewrite Z.add_0_l in *.
  change (drop (Z.to_nat 0) data) with data in Hh.
  assert (Hn : (64 * n <= length data)%nat) by (unfold blen in *; lia).
  rewrite slice_eq by (unfold blen in *; lia).
  replace (Z.to_nat (64 * Z.of_nat n)) with (64 * n)%nat by lia.
  set (rest := drop (64 * n) data).
  assert (Hrest : blen data - 64 * Z.of_nat n = blen rest) by (unfold rest, blen in *; rewrite length_drop; lia).
  rewrite Hrest in *. replace (Z.to_nat (blen rest)) with (length rest) by (unfold blen; lia).
  rewrite take_ge by lia. cbn [obind].
  assert (Hlr : (length rest < 64)%nat) by (unfold blen in *; lia).
  rewrite overwrite_fits by (rewrite repeat_length; lia). cbn [obind].
  rewrite (proj2 (Z.ltb_ge _ 0)), (proj2 (Z.leb_gt 128 _)) by lia. cbn [orb].
  replace (drop (length rest) (repeat 0 128)) with (repeat 0 (128 - length rest)).
  2: { replace 128%nat with (length rest + (128 - length rest))%nat at 2 by lia.
       rewrite repeat_app, drop_app_length'; [done|by rewrite repeat_length]. }
  destruct (finish_spec rest (u64 (blen data * 8)) s Hlr) as (s' & H1 & H2 & H3).
  destruct (store_len _ _ _ 0 8) as [block| |]; [|discriminate H2..]. cbn [obind] in H2 |- *.
  destruct (sha256_transform s block) as [s1| |]; [|discriminate H2..]. cbn [obind] in H2 |- *.
  rewrite H2. cbn [obind]. destruct (digest_ok s') as [D1 D2]. split; [|by eexists]. symmetry.
  eapply reference_split; [exact Hn|exact H3| | |exact Hh|exact H1].
  - destruct (_ <? 56); lia.
  - destruct (_ <? 56) eqn:C; bool_prop; unfold blen in *; lia.
Qed.

(** * Comparison in constant time *)

Lemma diff_loop_spec a b diff i n :
  bytes_ok a -> bytes_ok b -> byte_ok diff -> 0 <= i -> i + Z.of_nat n <= blen a -> i + Z.of_nat n <= blen b ->
  exists d, diff_loop a b diff i n = Ok d /\
    (d = 0 <-> diff = 0 /\ take n (drop (Z.to_nat i) a) = take n (drop (Z.to_nat i) b)).
Proof.
  intros Ha Hb. revert diff i. induction n as [|n IH]; intros diff i Hd Hi La Lb; cbn [diff_loop].
  - exists diff. split; [done|]. rewrite !take_0. tauto.
  - rewrite !rd_nth by lia. cbn [obind].
    set (x := nth (Z.to_nat i) a 0). set (y := nth (Z.to_nat i) b 0).
    assert (Hx : a !! Z.to_nat i = Some x).
    { unfold x. destruct (nth_lookup_or_length a (Z.to_nat i) 0) as [E|]; [exact E|unfold blen in *; lia]. }
    assert (Hy : b !! Z.to_nat i = Some y).
    { unfold y. destruct (nth_lookup_or_length b (Z.to_nat i) 0) as [E|]; [exact E|unfold blen in *; lia]. }
    assert (Bx : byte_ok x) by (by eapply (Forall_lookup_1 _ a)).
    assert (By : byte_ok y) by (by eapply (Forall_lookup_1 _ b)).
    assert (Bd : byte_ok (Z.lor diff (Z.lxor x y))) by (apply lor_byte; [done|by apply lxor_byte]).
    rewrite u8_small by done. destruct (IH _ (i + 1) Bd) as (d & E & Hdd); [lia..|].
    exists d. split; [exact E|]. rewrite Hdd, Z.lor_eq_0_iff, Z.lxor_eq_0_iff.
    replace (Z.to_nat (i + 1)) with (S (Z.to_nat i)) by lia.
    rewrite (drop_S _ _ _ Hx), (drop_S _ _ _ Hy). cbn [take]. split.
    + intros [[-> ->] H]. by rewrite H.
    + intros [-> [= -> H]]. done.
Qed.

Lemma constant_time_equal_spec a b len : bytes_ok a -> bytes_ok b -> 0 <= len <= blen a -> len <= blen b ->
  constant_time_equal a b len = Ok (bool_decide (take (Z.to_nat len) a = take (Z.to_nat len) b)).
Proof.
  intros Ha Hb Hl Hl'. unfold constant_time_equal.
  destruct (diff_loop_spec a b 0 0 (Z.to_nat len) Ha Hb) as (d & -> & Hd); [done|lia..|].
  cbn [obind]. f_equal. change (drop (Z.to_nat 0) a) with a in Hd. change (drop (Z.to_nat 0) b) with b in Hd.
  destruct (Z.eqb_spec d 0) as [H|H]; symmetry; [apply bool_decide_eq_true_2|apply bool_decide_eq_false_2]; tauto.
Qed.

(** * The keyed digest *)

(** The hash as a function; the reference never refuses. *)
Definition digest_of (m : bytes) : bytes :=
  match sha256_reference m with Ok d => d | _ => [] end.

Lemma sha256_digest m : sha256 m = Ok (digest_of m) /\ blen (digest_of m) = 32 /\ bytes_ok (digest_of m).
Proof.
  destruct (sha256_eq m) as (E & d & Ed & Hl & Hb). unfold digest_of. rewrite <- E, Ed. done.
Qed.

(** HMAC of RFC 2104: the key, hashed when it is longer than a block, filled up
    with zeros, masks an inner and an outer hash. *)
Definition key_block (key : bytes) : bytes :=
  let key := if 64 <? blen key then digest_of key else key in
  key ++ repeat 0 (64 - length key).
Definition masked (c : Z) (l : bytes) : bytes := map (fun b => Z.lxor b c) l.
Definition hmac_sha256 (key m : bytes) : bytes :=
  digest_of (masked 0x5C (key_block key) ++ digest_of (masked 0x36 (key_block key) ++ m)).

Lemma key_block_ok key : bytes_ok key -> length (key_block key) = 64%nat /\ bytes_ok (key_block key).
Proof.
  intros Hk. destruct (sha256_digest key) as (_ & Hl & Hb). unfold key_block, blen in *.
  assert (Hz : forall n, bytes_ok (repeat 0 n)).
  { intros n. apply List.Forall_forall. intros x ->%repeat_spec. unfold byte_ok. lia. }
  destruct (Z.ltb_spec 64 (Z.of_nat (length key))); rewrite length_app, repeat_length;
    (split; [lia|apply Forall_app; split; [done|apply Hz]]).
Qed.

Lemma xor_block_masked c l : byte_ok c -> bytes_ok l -> xor_block l c = masked c l.
Proof.
  intros Hc Hl. unfold xor_block, masked. apply map_ext_in. intros b Hb.
  apply u8_small, lxor_byte; [by eapply bytes_ok_In|done].
Qed.

Lemma compute_icv_hmac key data n : bytes_ok key -> 0 <= n <= 32 -> blen data <= 4096 ->
  compute_icv HmacSha256 key data n = Ok (take (Z.to_nat n) (hmac_sha256 key data)).
Proof.
  intros Hk Hn Hd. destruct (key_block_ok key Hk) as [Hkl Hkb]. unfold compute_icv.
  change (HmacSha256 =? None_) with false. change (HmacSha256 =? HmacSha256) with true. cbv iota.
  unfold sha256_digest_len. rewrite (proj2 (Z.ltb_ge 32 n)) by lia. cbn [negb orb oguard obind].
  assert (E : (if 64 <? blen key then let! digest := sha256 key in overwrite (repeat 0 64) digest
               else overwrite (repeat 0 64) key) = Ok (key_block key)).
  { assert (Ho : forall x, blen x <= 64 -> overwrite (repeat 0 64) x = Ok (x ++ repeat 0 (64 - length x))).
    { intros x Hx. unfold blen in Hx. rewrite overwrite_fits by (rewrite repeat_length; lia).
      replace 64%nat with (length x + (64 - length x))%nat at 1 by lia.
      rewrite repeat_app, drop_app_length'; [done|by rewrite repeat_length]. }
    unfold key_block. destruct (Z.ltb_spec 64 (blen key)); [|by apply Ho].
    destruct (sha256_digest key) as (-> & Hl & _). cbn [obind]. apply Ho. lia. }
  rewrite E. cbn [obind]. rewrite (proj2 (Z.ltb_ge 4096 _)) by lia. cbn [negb oguard obind].
  rewrite !xor_block_masked by (done || (unfold byte_ok; lia)).
  destruct (sha256_digest (masked 0x36 (key_block key) ++ data)) as (-> & _). cbn [obind].
  destruct (sha256_digest (masked 0x5C (key_block key) ++ digest_of (masked 0x36 (key_block key) ++ data))) as (-> & Hl & _).
  cbn [obind]. fold (hmac_sha256 key data) in Hl |- *. by rewrite slice_eq by lia.
Qed.

(** * What the claims state *)

(** C22: For every message the in-place hash - whole blocks where they lie, the
    rest padded in a buffer of two blocks - answers the hash of the message
    padded as FIPS 180-4 says, block by block, and never touches memory outside
    the message and its buffers; its digest has 32 octets. *)
Theorem sha256_is_padded_hash data :
  sha256 data = sha256_reference data /\
  exists digest, sha256 data = Ok digest /\ blen digest = 32 /\ bytes_ok digest.
Proof. apply sha256_eq. Qed.

Definition icv_len_ok (icv_len : Z) : Prop := 0 < icv_len <= 32.

Lemma append_icv_hmac key auth rohc cap n : bytes_ok key -> blen auth <= 4096 -> icv_len_ok n ->
  append_icv HmacSha256 key auth rohc cap n =
  if blen rohc + n <=? cap then Ok (rohc ++ take (Z.to_nat n) (hmac_sha256 key auth)) else Rej.
Proof.
  intros Hk Ha [Hn0 Hn]. unfold append_icv. change (HmacSha256 =? None_) with false.
  change (digest_len HmacSha256) with 32. cbn [negb andb]. cbv zeta iota.
  rewrite (proj2 (Z.eqb_neq n 0)), (proj2 (Z.ltb_ge 32 n)) by lia. cbn [orb negb oguard obind].
  destruct (Z.leb_spec (blen rohc + n) cap) as [Hc|Hc].
  - rewrite (proj2 (Z.ltb_ge cap _)) by lia. cbn [negb oguard obind].
    rewrite compute_icv_hmac by (done || lia). cbn [obind].
    destruct (sha256_digest (masked 0x5C (key_block key) ++ digest_of (masked 0x36 (key_block key) ++ auth))) as (_ & Hl & _).
    fold (hmac_sha256 key auth) in Hl. rewrite slice_eq by (unfold blen in *; rewrite ?length_take; lia).
    cbn [obind]. change (Z.to_nat 0) with 0%nat. by rewrite drop_0, take_take, Nat.min_id.
  - by rewrite (proj2 (Z.ltb_lt cap _)) by lia.
Qed.

Lemma strip_icv_hmac key auth packet n : bytes_ok key -> bytes_ok packet -> blen auth <= 4096 -> icv_len_ok n ->
  strip_and_verify_icv HmacSha256 key auth packet n =
  if n <=? blen packet then
    if bool_decide (drop (Z.to_nat (blen packet - n)) packet = take (Z.to_nat n) (hmac_sha256 key auth))
    then Ok (take (Z.to_nat (blen packet - n)) packet) else Rej
  else Rej.
Proof.
  intros Hk Hp Ha [Hn0 Hn]. unfold strip_and_verify_icv. change (HmacSha256 =? None_) with false.
  change (digest_len HmacSha256) with 32. cbn [negb andb]. cbv zeta iota.
  rewrite (proj2 (Z.eqb_neq n 0)), (proj2 (Z.ltb_ge 32 n)) by lia. cbn [orb negb oguard obind].
  destruct (Z.leb_spec n (blen packet)) as [Hc|Hc]; [|by rewrite (proj2 (Z.ltb_lt _ n)) by lia].
  rewrite (proj2 (Z.ltb_ge _ n)), (proj2 (Z.ltb_lt 0 n)) by lia. cbn [negb oguard obind].
  rewrite compute_icv_hmac by (done || lia). cbn [obind].
  destruct (sha256_digest (masked 0x5C (key_block key) ++ digest_of (masked 0x36 (key_block key) ++ auth))) as (_ & Hl & Hdb).
  fold (hmac_sha256 key auth) in Hl, Hdb.
  unfold tail_from. rewrite (proj2 (Z.ltb_ge _ 0)), (proj2 (Z.ltb_ge (blen packet) _)) by lia. cbn [orb obind].
  assert (Ht : length (drop (Z.to_nat (blen packet - n)) packet) = Z.to_nat n).
  { rewrite length_drop. unfold blen in *. lia. }
  rewrite constant_time_equal_spec.
  - cbn [obind]. rewrite take_take, Nat.min_id, (take_ge (drop _ _)) by lia.
    destruct (bool_decide_reflect (drop (Z.to_nat (blen packet - n)) packet = take (Z.to_nat n) (hmac_sha256 key auth))) as [E|E].
    + rewrite bool_decide_true by done. cbn [oguard obind]. rewrite slice_eq by lia.
      change (Z.to_nat 0) with 0%nat. by rewrite drop_0.
    + by rewrite bool_decide_false by congruence.
  - by apply bytes_ok_take.
  - by apply bytes_ok_drop.
  - unfold blen in Hl |- *. rewrite length_take. lia.
  - enough (E : blen (drop (Z.to_nat (blen packet - n)) packet) = n) by (rewrite E; lia).
    unfold blen at 1. rewrite Ht. lia.
Qed.

(** C21: An integrity check value protects a packet: appending one puts the first
    octets of the RFC 2104 HMAC-SHA-256 of the authenticated packet behind the
    ROHC packet, or refuses when they do not fit, and stripping answers what is
    in front of the value exactly when the value is that HMAC under the
    receiver's key - so it gives back what was protected with the same key and
    packet, and refuses every other value. *)
Theorem icv_exact key auth rohc packet cap icv_len
  (Hkey : bytes_ok key) (Hrohc : bytes_ok rohc) (Hp : bytes_ok packet)
  (Ha : blen auth <= 4096) (Hn : icv_len_ok icv_len) :
  let icv := take (Z.to_nat icv_len) (hmac_sha256 key auth) in
  blen icv = icv_len /\
  append_icv HmacSha256 key auth rohc cap icv_len =
    (if blen rohc + icv_len <=? cap then Ok (rohc ++ icv) else Rej) /\
  strip_and_verify_icv HmacSha256 key auth (rohc ++ icv) icv_len = Ok rohc /\
  (forall front back, packet = front ++ back -> blen back = icv_len ->
     strip_and_verify_icv HmacSha256 key auth packet icv_len =
     if bool_decide (back = icv) then Ok front else Rej) /\
  (blen packet < icv_len -> strip_and_verify_icv HmacSha256 key auth packet icv_len = Rej).
Proof.
  intros icv. pose proof Hn as [Hn0 Hn1].
  destruct (sha256_digest (masked 0x5C (key_block key) ++ digest_of (masked 0x36 (key_block key) ++ auth))) as (_ & Hl & Hdb).
  fold (hmac_sha256 key auth) in Hl, Hdb.
  assert (Hicv : blen icv = icv_len) by (unfold icv, blen in *; rewrite length_take; lia).
  assert (Hicvb : bytes_ok icv) by (by apply bytes_ok_take).
  assert (Hany : forall p front back, bytes_ok p -> p = front ++ back -> blen back = icv_len ->
     strip_and_verify_icv HmacSha256 key auth p icv_len = if bool_decide (back = icv) then Ok front else Rej).
  { intros p front back Hpb -> Hb. rewrite strip_icv_hmac by done. rewrite blen_app, Hb.
    pose proof (blen_nonneg front). rewrite (proj2 (Z.leb_le icv_len _)) by lia.
    replace (blen front + icv_len - icv_len) with (blen front) by lia.
    replace (Z.to_nat (blen front)) with (length front) by (unfold blen; lia).
    by rewrite drop_app_length, take_app_length. }
  split_and!.
  - done.
  - by apply append_icv_hmac.
  - rewrite (Hany _ rohc icv); [by rewrite bool_decide_true by done|by apply Forall_app|done|done].
  - intros front back. by apply Hany.
  - intros Hlt. rewrite strip_icv_hmac by done. by rewrite (proj2 (Z.leb_gt icv_len _)).
Qed.

Lemma icv_exact_witness :
  strip_and_verify_icv HmacSha256 [1; 2; 3] [0x45] ([0xFD; 4] ++ take 2 (hmac_sha256 [1; 2; 3] [0x45])) 2 = Ok [0xFD; 4].
Proof.
  assert (H : forall l, forallb (fun b => (0 <=? b) && (b <? 256)) l = true -> bytes_ok l).
  { intros l Hl. apply List.Forall_forall. intros b Hb. apply (proj1 (forallb_forall _ _) Hl) in Hb.
    apply andb_true_iff in Hb as [H1%Z.leb_le H2%Z.ltb_lt]. split; assumption. }
  destruct (icv_exact [1; 2; 3] [0x45] [0xFD; 4] [] 4 2 (H [1; 2; 3] eq_refl) (H [0xFD; 4] eq_refl) (H [] eq_refl)
    ltac:(vm_compute; discriminate) ltac:(split; vm_compute; [reflexivity|discriminate])) as (_ & _ & E & _).
  exact E.
Defined.
