(* ===== verification/IpsecChannel.v ===== *)
(** * ROHC over IPsec: the channel of include/rohccxx/core/rohcoipsec.hpp

    The parameters two IKEv2 peers agree on: their validity, the attributes of
    the ROHC_SUPPORTED notification, and the negotiation.  A loop over the
    first [count] entries of a fixed array is a recursion on the entries left;
    what it reads outside the array is undefined. *)

From S2P Require Import Prelude Context Cursor Sha256.

Definition protocol_number : Z := 142.
Definition max_cid_limit : Z := 16383.
Definition tv_attribute_flag : Z := 0x8000.
Definition attribute_type_mask : Z := 0x7FFF.
Definition max_profiles : Z := 16.
Definition max_integrity_algorithms : Z := 8.

Inductive AttributeType := MaxCid | ProfileAttribute | IntegrityAttribute | IcvLength | Mrru.

Definition attribute_code (t : AttributeType) : Z :=
  match t with
  | MaxCid => 1 | ProfileAttribute => 2 | IntegrityAttribute => 3 | IcvLength => 4 | Mrru => 5
  end.

(** [switch(static_cast<Profile>(profile))]. *)
Definition is_supported_rohcv2_profile (profile : Z) : bool :=
  if profile =? profile_id Uncompressed then true
  else if profile =? profile_id RTP then true
  else if profile =? profile_id UDP then true
  else if profile =? profile_id ESP then true
  else if profile =? profile_id IP then true
  else if profile =? profile_id RTP_UDP_Lite then true
  else if profile =? profile_id UDP_Lite then true
  else if profile =? profile_id LLA_RTP then false
  else false.

Definition is_supported_integrity_algorithm (algorithm : Z) : bool :=
  (algorithm =? None_) || (algorithm =? HmacSha256).

Definition icv_length_is_valid_for_algorithm (algorithm icv_len : Z) : bool :=
  if algorithm =? None_ then icv_len =? 0
  else (algorithm =? HmacSha256) && (0 <? icv_len) && (icv_len <=? sha256_digest_len).

Record ChannelParameters := mkChannelParameters {
  max_cid : Z;
  profiles : list Z; profile_count : Z;
  integrity_algorithms : list Z; integrity_algorithm_count : Z;
  icv_len : Z; has_icv_len : bool;
  mrru : Z; has_mrru : bool }.

(** [ChannelParameters{}]. *)
Definition no_channel : ChannelParameters :=
  mkChannelParameters 0 (repeat 0 16) 0 (repeat 0 8) 0 0 false 0 false.

(** Whether one of [n] entries of [a] from [i] on is [x]: the loops of
    [supports_profile] and [supports_integrity], and the inner loops of [valid]. *)
Fixpoint among (a : list Z) (i : Z) (n : nat) (x : Z) : outcome bool :=
  match n with
  | O => Ok false
  | S n => let! y := rd a i in if y =? x then Ok true else among a (i + 1) n x
  end.

(** The loops of [valid]: the profiles, then the integrity algorithms; the
    latter also answers whether a keyed one is among them. *)
Fixpoint check_profiles (a : list Z) (i : Z) (n : nat) : outcome bool :=
  match n with
  | O => Ok true
  | S n =>
      let! x := rd a i in
      if negb (is_supported_rohcv2_profile x) then Ok false else
      let! again := among a (i + 1) n x in
      if again then Ok false else check_profiles a (i + 1) n
  end.
Fixpoint check_integrity (a : list Z) (i : Z) (n : nat) (has_keyed_integrity : bool) : outcome (option bool) :=
  match n with
  | O => Ok (Some has_keyed_integrity)
  | S n =>
      let! x := rd a i in
      if negb (is_supported_integrity_algorithm x) then Ok None else
      let keyed := if negb (x =? None_) then true else has_keyed_integrity in
      let! again := among a (i + 1) n x in
      if again then Ok None else check_integrity a (i + 1) n keyed
  end.

Definition valid (p : ChannelParameters) : outcome bool :=
  if (max_cid_limit <? max_cid p) || (profile_count p =? 0) || (max_profiles <? profile_count p) ||
     (integrity_algorithm_count p =? 0) || (max_integrity_algorithms <? integrity_algorithm_count p)
  then Ok false else
  let! good := check_profiles (profiles p) 0 (Z.to_nat (profile_count p)) in
  if negb good then Ok false else
  let! checked := check_integrity (integrity_algorithms p) 0 (Z.to_nat (integrity_algorithm_count p)) false in
  match checked with
  | None => Ok false
  | Some has_keyed_integrity =>
      if negb (has_icv_len p) then Ok true
      else if negb has_keyed_integrity then Ok (icv_len p =? 0)
      else Ok ((0 <? icv_len p) && (icv_len p <=? sha256_digest_len))
  end.

Definition large_cids (p : ChannelParameters) : bool := 15 <? max_cid p.
Definition is_rohc_next_header (next_header : Z) : bool := next_header =? protocol_number.

Definition supports_profile (p : ChannelParameters) (profile : Z) : outcome bool :=
  among (profiles p) 0 (Z.to_nat (profile_count p)) profile.
Definition supports_integrity (p : ChannelParameters) (algorithm : Z) : outcome bool :=
  among (integrity_algorithms p) 0 (Z.to_nat (integrity_algorithm_count p)) algorithm.

Definition with_profile (p : ChannelParameters) (x : Z) : ChannelParameters :=
  mkChannelParameters (max_cid p) (<[Z.to_nat (profile_count p) := x]> (profiles p)) (profile_count p + 1)
    (integrity_algorithms p) (integrity_algorithm_count p) (icv_len p) (has_icv_len p) (mrru p) (has_mrru p).
Definition with_integrity (p : ChannelParameters) (x : Z) : ChannelParameters :=
  mkChannelParameters (max_cid p) (profiles p) (profile_count p)
    (<[Z.to_nat (integrity_algorithm_count p) := x]> (integrity_algorithms p)) (integrity_algorithm_count p + 1)
    (icv_len p) (has_icv_len p) (mrru p) (has_mrru p).

Definition append_profile (p : ChannelParameters) (profile : Z) : outcome ChannelParameters :=
  check negb (max_profiles <=? profile_count p) in
  check is_supported_rohcv2_profile profile in
  let! again := supports_profile p profile in
  check negb again in
  if blen (profiles p) <=? profile_count p then Ub else Ok (with_profile p profile).

Definition append_integrity (p : ChannelParameters) (algorithm : Z) : outcome ChannelParameters :=
  check negb (max_integrity_algorithms <=? integrity_algorithm_count p) in
  check is_supported_integrity_algorithm algorithm in
  let! again := supports_integrity p algorithm in
  check negb again in
  if blen (integrity_algorithms p) <=? integrity_algorithm_count p then Ub
  else Ok (with_integrity p algorithm).

Definition write_u16 (value : Z) : M wst unit :=
  r <- gets room ;;
  guard (2 <=? r) ;;;
  put (u8 (Z.shiftr value 8)) ;;;
  put (Z.land value 0xFF).

Definition read_u16 (data : bytes) (pos : Z) : outcome Z :=
  check pos + 2 <=? blen data in rd_u16 data pos.

Definition write_tv_attribute (type : AttributeType) (value : Z) : M wst unit :=
  let typed := Z.lor tv_attribute_flag (attribute_code type) in
  write_u16 typed ;;; write_u16 value.

(** The loops that write one attribute for each of [n] entries from [i] on. *)
Fixpoint write_each (type : AttributeType) (a : list Z) (i : Z) (n : nat) : M wst unit :=
  match n with
  | O => ret tt
  | S n =>
      x <- lift (rd a i) ;;
      write_tv_attribute type x ;;;
      write_each type a (i + 1) n
  end.

Definition write_supported_notify_payload (p : ChannelParameters) : M wst unit :=
  v <- lift (valid p) ;;
  guard v ;;;
  write_tv_attribute MaxCid (max_cid p) ;;;
  write_each ProfileAttribute (profiles p) 0 (Z.to_nat (profile_count p)) ;;;
  write_each IntegrityAttribute (integrity_algorithms p) 0 (Z.to_nat (integrity_algorithm_count p)) ;;;
  (if has_icv_len p then write_tv_attribute IcvLength (icv_len p) else ret tt) ;;;
  (if has_mrru p then write_tv_attribute Mrru (mrru p) else ret tt).

Definition set_max_cid (v : Z) (p : ChannelParameters) : ChannelParameters :=
  mkChannelParameters v (profiles p) (profile_count p) (integrity_algorithms p)
    (integrity_algorithm_count p) (icv_len p) (has_icv_len p) (mrru p) (has_mrru p).
Definition set_icv (v : Z) (has : bool) (p : ChannelParameters) : ChannelParameters :=
  mkChannelParameters (max_cid p) (profiles p) (profile_count p) (integrity_algorithms p)
    (integrity_algorithm_count p) v has (mrru p) (has_mrru p).
Definition set_mrru (v : Z) (has : bool) (p : ChannelParameters) : ChannelParameters :=
  mkChannelParameters (max_cid p) (profiles p) (profile_count p) (integrity_algorithms p)
    (integrity_algorithm_count p) (icv_len p) (has_icv_len p) v has.

(** [if(!append_profile(params, value)) return false], and for an algorithm. *)
Definition append (f : ChannelParameters -> Z -> outcome ChannelParameters) (x : Z) : M ChannelParameters unit :=
  p <- gets (fun p => p) ;;
  p' <- lift (f p x) ;;
  modify (fun _ => p').

(** The [switch] of the parser; answers the new [saw_max_cid]. *)
Definition read_attribute (type value : Z) (saw_max_cid : bool) : M ChannelParameters bool :=
  p <- gets (fun p => p) ;;
  if type =? attribute_code MaxCid then
    guard (negb (saw_max_cid || (max_cid_limit <? value))) ;;;
    modify (set_max_cid value) ;;; ret true
  else if type =? attribute_code ProfileAttribute then
    append append_profile value ;;; ret saw_max_cid
  else if type =? attribute_code IntegrityAttribute then
    append append_integrity value ;;; ret saw_max_cid
  else if type =? attribute_code IcvLength then
    guard (negb (has_icv_len p)) ;;;
    modify (set_icv value true) ;;; ret saw_max_cid
  else if type =? attribute_code Mrru then
    guard (negb (has_mrru p)) ;;;
    modify (set_mrru value true) ;;; ret saw_max_cid
  else ret saw_max_cid.

(** The attributes; each takes four octets at least.  Answers the position
    reached and [saw_max_cid]. *)
Fixpoint read_attributes (fuel : nat) (data : bytes) (pos : Z) (saw_max_cid : bool) :
    M ChannelParameters (Z * bool) :=
  if pos + 4 <=? blen data then
    match fuel with
    | O => lift Ub
    | S fuel =>
        type_field <- lift (read_u16 data pos) ;;
        value <- lift (read_u16 data (pos + 2)) ;;
        let pos := pos + 4 in
        let tv_format := negb (Z.land type_field tv_attribute_flag =? 0) in
        let type := Z.land type_field attribute_type_mask in
        if negb tv_format then
          guard (negb (blen data <? pos + value)) ;;;
          read_attributes fuel data (pos + value) saw_max_cid
        else
          saw <- read_attribute type value saw_max_cid ;;
          read_attributes fuel data pos saw
    end
  else ret (pos, saw_max_cid).

(** The parameters are the caller's: a refusal leaves what was stored so far. *)
Definition parse_supported_notify_payload (data : bytes) : M ChannelParameters unit :=
  modify (fun _ => no_channel) ;;;
  r <- read_attributes (length data) data 0 false ;;
  p <- gets (fun p => p) ;;
  guard ((r.1 =? blen data) && r.2) ;;;
  v <- lift (valid p) ;;
  guard v.

(** The loop over the local profiles. *)
Fixpoint negotiate_profiles (local peer : ChannelParameters) (i : Z) (n : nat) : M ChannelParameters unit :=
  match n with
  | O => ret tt
  | S n =>
      x <- lift (rd (profiles local) i) ;;
      common <- lift (supports_profile peer x) ;;
      (if common then append append_profile x else ret tt) ;;;
      negotiate_profiles local peer (i + 1) n
  end.

(** The loop over the local algorithms, which stops at the first common one. *)
Fixpoint negotiate_integrity (local peer : ChannelParameters) (i : Z) (n : nat) : M ChannelParameters unit :=
  match n with
  | O => ret tt
  | S n =>
      x <- lift (rd (integrity_algorithms local) i) ;;
      common <- lift (supports_integrity peer x) ;;
      if common then append append_integrity x
      else negotiate_integrity local peer (i + 1) n
  end.

(** The state is [negotiated], an object apart from both offers. *)
Definition negotiate (local peer : ChannelParameters) : M ChannelParameters unit :=
  ok <- lift (let! a := valid local in if negb a then Ok false else valid peer) ;;
  guard ok ;;;
  modify (fun _ => mkChannelParameters (max_cid peer) (repeat 0 16) 0 (repeat 0 8) 0
    (if has_icv_len peer then icv_len peer else 0) (has_icv_len peer) (mrru peer) (has_mrru peer)) ;;;
  negotiate_profiles local peer 0 (Z.to_nat (profile_count local)) ;;;
  negotiate_integrity local peer 0 (Z.to_nat (integrity_algorithm_count local)) ;;;
  p <- gets (fun p => p) ;;
  v <- lift (valid p) ;;
  guard v ;;;
  none <- lift (supports_integrity p None_) ;;
  if none then modify (set_icv 0 (has_icv_len p)) else ret tt.

(** * What a channel is *)

Definition word_ok (v : Z) : Prop := 0 <= v < 2 ^ 16.

Definition offered (p : ChannelParameters) : list Z := take (Z.to_nat (profile_count p)) (profiles p).
Definition algorithms (p : ChannelParameters) : list Z :=
  take (Z.to_nat (integrity_algorithm_count p)) (integrity_algorithms p).

(** Every field in its type, and the counts within the arrays. *)
Definition channel_ok (p : ChannelParameters) : Prop :=
  length (profiles p) = 16%nat /\ Forall word_ok (profiles p) /\ 0 <= profile_count p <= 16 /\
  length (integrity_algorithms p) = 8%nat /\ Forall word_ok (integrity_algorithms p) /\
  0 <= integrity_algorithm_count p <= 8 /\
  word_ok (max_cid p) /\ word_ok (icv_len p) /\ word_ok (mrru p).

(** The channel the parameters describe. *)
Record Channel := mkChannel {
  c_max_cid : Z; c_profiles : list Z; c_algorithms : list Z; c_icv : option Z; c_mrru : option Z }.

Definition channel_of (p : ChannelParameters) : Channel :=
  mkChannel (max_cid p) (offered p) (algorithms p)
    (if has_icv_len p then Some (icv_len p) else None) (if has_mrru p then Some (mrru p) else None).

Definition keyed (algorithms : list Z) : bool := existsb (fun a => negb (a =? 0)) algorithms.

(** An ICV length goes with the algorithms: one of a keyed digest when a keyed
    algorithm is offered, and none otherwise. *)
Definition icv_fits (icv : option Z) (algorithms : list Z) : Prop :=
  match icv with
  | None => True
  | Some n => if keyed algorithms then 0 < n <= 32 else n = 0
  end.
#[export] Instance icv_fits_dec icv l : Decision (icv_fits icv l).
Proof. unfold icv_fits. destruct icv; [|apply _]. destruct (keyed l); apply _. Defined.

Definition well_formed (c : Channel) : Prop :=
  c_max_cid c <= 16383 /\
  c_profiles c <> [] /\ Forall (fun x => is_supported_rohcv2_profile x = true) (c_profiles c) /\ NoDup (c_profiles c) /\
  c_algorithms c <> [] /\ Forall (fun x => is_supported_integrity_algorithm x = true) (c_algorithms c) /\
  NoDup (c_algorithms c) /\ icv_fits (c_icv c) (c_algorithms c).

(** * The arrays *)

Lemma rd_drop a i : 0 <= i < blen a ->
  exists x, rd a i = Ok x /\ drop (Z.to_nat i) a = x :: drop (Z.to_nat (i + 1)) a.
Proof.
  intros Hi. exists (nth (Z.to_nat i) a 0). split; [by apply rd_nth|].
  replace (Z.to_nat (i + 1)) with (S (Z.to_nat i)) by lia. apply drop_S.
  unfold blen in Hi. destruct (nth_lookup_or_length a (Z.to_nat i) 0) as [E|E]; [exact E|lia].
Qed.

Lemma take_rd_drop a i n : 0 <= i -> i + Z.of_nat (S n) <= blen a ->
  exists x, rd a i = Ok x /\ take (S n) (drop (Z.to_nat i) a) = x :: take n (drop (Z.to_nat (i + 1)) a).
Proof. intros Hi Hl. destruct (rd_drop a i) as (x & E & D); [lia|]. exists x. by rewrite D. Qed.

Lemma take_push (a : list Z) c x : 0 <= c < Z.of_nat (length a) ->
  take (Z.to_nat (c + 1)) (<[Z.to_nat c := x]> a) = take (Z.to_nat c) a ++ [x].
Proof.
  intros Hc. replace (Z.to_nat (c + 1)) with (S (Z.to_nat c)) by lia.
  rewrite (take_S_r _ _ x) by (apply list_lookup_insert_eq; lia). by rewrite take_insert_ge by lia.
Qed.

Lemma among_spec a i n x : 0 <= i -> i + Z.of_nat n <= blen a ->
  among a i n x = Ok (bool_decide (x ∈ take n (drop (Z.to_nat i) a))).
Proof.
  revert i. induction n as [|n IH]; intros i Hi Hl; cbn [among].
  - rewrite bool_decide_eq_false_2; [done|]. rewrite take_0. apply not_elem_of_nil.
  - destruct (take_rd_drop a i n Hi Hl) as (y & -> & ->). cbn [obind].
    destruct (Z.eqb_spec y x) as [->|Hne].
    + by rewrite bool_decide_eq_true_2 by apply list_elem_of_here.
    + rewrite IH by lia. f_equal. apply bool_decide_ext. rewrite elem_of_cons. intuition congruence.
Qed.

(** Entries that are supported and occur once, as the loops test them. *)
Lemma distinct_cons (f : Z -> bool) x l :
  bool_decide (Forall (fun x => f x = true) (x :: l) /\ NoDup (x :: l)) =
  f x && negb (bool_decide (x ∈ l)) && bool_decide (Forall (fun x => f x = true) l /\ NoDup l).
Proof.
  apply eq_true_iff_eq. rewrite !andb_true_iff, negb_true_iff, bool_decide_eq_false, !bool_decide_eq_true.
  rewrite Forall_cons_iff, list.NoDup_cons. tauto.
Qed.

Lemma check_profiles_spec a i n : 0 <= i -> i + Z.of_nat n <= blen a ->
  let l := take n (drop (Z.to_nat i) a) in
  check_profiles a i n =
    Ok (bool_decide (Forall (fun x => is_supported_rohcv2_profile x = true) l /\ NoDup l)).
Proof.
  revert i. induction n as [|n IH]; intros i Hi Hl; cbv zeta; cbn [check_profiles].
  - rewrite bool_decide_eq_true_2; [done|]. rewrite take_0. split; constructor.
  - destruct (take_rd_drop a i n Hi Hl) as (y & -> & ->). cbn [obind].
    rewrite distinct_cons, among_spec by lia. destruct (is_supported_rohcv2_profile y); [|done].
    cbn [negb obind andb]. destruct (bool_decide (y ∈ _)); [done|]. by rewrite IH by lia.
Qed.

Lemma check_integrity_spec a i n has : 0 <= i -> i + Z.of_nat n <= blen a ->
  let l := take n (drop (Z.to_nat i) a) in
  check_integrity a i n has =
    Ok (if bool_decide (Forall (fun x => is_supported_integrity_algorithm x = true) l /\ NoDup l)
        then Some (has || keyed l) else None).
Proof.
  revert i has. induction n as [|n IH]; intros i has Hi Hl; cbv zeta; cbn [check_integrity].
  - rewrite bool_decide_eq_true_2; [by rewrite take_0, orb_false_r|]. rewrite take_0. split; constructor.
  - destruct (take_rd_drop a i n Hi Hl) as (y & -> & ->). cbn [obind].
    rewrite distinct_cons, among_spec by lia. destruct (is_supported_integrity_algorithm y); [|done].
    cbn [negb obind andb]. destruct (bool_decide (y ∈ _)); [done|]. rewrite IH by lia.
    cbn [negb andb]. destruct (bool_decide _); [|done]. do 2 f_equal. unfold keyed. cbn [existsb].
    change (y =? None_) with (y =? 0). by destruct (y =? 0), has.
Qed.

Lemma offered_length p : channel_ok p -> Z.of_nat (length (offered p)) = profile_count p.
Proof. intros (Hl & _ & Hc & _). unfold offered. rewrite length_take. lia. Qed.
Lemma algorithms_length p : channel_ok p -> Z.of_nat (length (algorithms p)) = integrity_algorithm_count p.
Proof. intros (_ & _ & _ & Hl & _ & Hc & _). unfold algorithms. rewrite length_take. lia. Qed.

Lemma eq_nil_length {A} (l : list A) n : Z.of_nat (length l) = n -> l <> [] <-> n <> 0.
Proof. intros <-. destruct l; cbn; split; (congruence || lia). Qed.

(** [valid] decides that the described channel is well formed. *)
Lemma valid_spec p : channel_ok p -> valid p = Ok (bool_decide (well_formed (channel_of p))).
Proof.
  intros Hok. pose proof (offered_length p Hok) as Lp. pose proof (algorithms_length p Hok) as La.
  pose proof Hok as (Hl & _ & Hc & Hla & _ & Hca & Hm & Hi & _). unfold word_ok in Hm, Hi.
  apply eq_nil_length in Lp as Np. apply eq_nil_length in La as Na.
  unfold valid, max_cid_limit, max_profiles, max_integrity_algorithms.
  rewrite (proj2 (Z.ltb_ge 16 _)), (proj2 (Z.ltb_ge 8 _)), orb_false_r by lia.
  rewrite check_profiles_spec, check_integrity_spec by (unfold blen; lia). cbn [obind].
  change (drop (Z.to_nat 0) ?a) with a. fold (offered p) (algorithms p).
  assert (Hno : forall b : bool, (b = true -> well_formed (channel_of p)) -> (well_formed (channel_of p) -> b = true) ->
    @Ok bool b = Ok (bool_decide (well_formed (channel_of p)))).
  { intros b H1 H2. f_equal. apply eq_true_iff_eq. rewrite bool_decide_eq_true. by split. }
  destruct (Z.ltb_spec 16383 (max_cid p)) as [|Hcid].
  { apply Hno; [done|]. intros [? _]. cbn [channel_of c_max_cid] in *. lia. }
  destruct (Z.eqb_spec (profile_count p) 0) as [|Hpc]; cbn [orb].
  { apply Hno; [done|]. intros (_ & ?%Np & _). lia. }
  destruct (Z.eqb_spec (integrity_algorithm_count p) 0) as [|Hac]; cbn [orb].
  { apply Hno; [done|]. intros (_ & _ & _ & _ & ?%Na & _). lia. }
  destruct (bool_decide_reflect (Forall (fun x => is_supported_rohcv2_profile x = true) (offered p) /\ NoDup (offered p)))
    as [[Hs1 Hd1]|Hn]; cbn [negb].
  2: { apply Hno; [done|]. intros (_ & _ & ? & ? & _). tauto. }
  destruct (bool_decide_reflect (Forall (fun x => is_supported_integrity_algorithm x = true) (algorithms p) /\ NoDup (algorithms p)))
    as [[Hs2 Hd2]|Hn].
  2: { apply Hno; [done|]. intros (_ & _ & _ & _ & _ & ? & ? & _). tauto. }
  cbn [orb].
  assert (Hicv : forall b : bool, (b = true <-> icv_fits (c_icv (channel_of p)) (algorithms p)) ->
    @Ok bool b = Ok (bool_decide (well_formed (channel_of p)))).
  { intros b Hb. apply Hno.
    - intros Ht%Hb. by repeat (split; [done || by apply Np || by apply Na|]).
    - intros (_ & _ & _ & _ & _ & _ & _ & H). by apply Hb. }
  unfold icv_fits, channel_of in *. cbn [c_icv] in Hicv.
  destruct (has_icv_len p); cbn [negb]; [|by apply Hicv].
  unfold sha256_digest_len. destruct (keyed (algorithms p)); cbn [negb]; apply Hicv.
  - rewrite andb_true_iff, Z.ltb_lt, Z.leb_le. done.
  - apply Z.eqb_eq.
Qed.

(** * Appending *)

Lemma supports_profile_spec p x : channel_ok p -> supports_profile p x = Ok (bool_decide (x ∈ offered p)).
Proof. intros (Hl & _ & Hc & _). unfold supports_profile. by rewrite among_spec by (unfold blen; lia). Qed.
Lemma supports_integrity_spec p x : channel_ok p ->
  supports_integrity p x = Ok (bool_decide (x ∈ algorithms p)).
Proof.
  intros (_ & _ & _ & Hl & _ & Hc & _). unfold supports_integrity.
  by rewrite among_spec by (unfold blen; lia).
Qed.

Definition more_profiles (l : list Z) (c : Channel) : Channel :=
  mkChannel (c_max_cid c) (c_profiles c ++ l) (c_algorithms c) (c_icv c) (c_mrru c).
Definition more_algorithms (l : list Z) (c : Channel) : Channel :=
  mkChannel (c_max_cid c) (c_profiles c) (c_algorithms c ++ l) (c_icv c) (c_mrru c).

(** What both kinds of entry have in common: an entry is appended exactly when
    there is room, it is supported and it is not there yet. *)
Class Appender (f : ChannelParameters -> Z -> outcome ChannelParameters)
    (entries : ChannelParameters -> list Z) (more : list Z -> Channel -> Channel)
    (cap : Z) (supported : Z -> bool) : Prop := {
  append_one p x : channel_ok p -> word_ok x ->
    if bool_decide (Z.of_nat (length (entries p)) < cap /\ supported x = true /\ x ∉ entries p)
    then exists p', f p x = Ok p' /\ channel_ok p' /\ entries p' = entries p ++ [x] /\
                    channel_of p' = more [x] (channel_of p)
    else f p x = Rej;
  more_nil c : more [] c = c;
  more_app l1 l2 c : more l2 (more l1 c) = more (l1 ++ l2) c }.

#[export] Instance profile_appender : Appender append_profile offered more_profiles 16 is_supported_rohcv2_profile.
Proof.
  split.
  - intros p x Hok Hx. pose proof (offered_length p Hok) as Lp. pose proof Hok as (Hl & Hw & Hc & H4).
    unfold append_profile, max_profiles. rewrite Lp.
    destruct (Z.leb_spec 16 (profile_count p)) as [Hge|Hlt]; cbn [negb oguard obind].
    { rewrite bool_decide_eq_false_2 by lia. done. }
    destruct (is_supported_rohcv2_profile x); cbn [oguard obind].
    2: { rewrite bool_decide_eq_false_2 by (intros (_ & ? & _); done). done. }
    rewrite supports_profile_spec by done. cbn [obind].
    destruct (bool_decide_reflect (x ∈ offered p)) as [Hin|Hin]; cbn [negb oguard obind].
    { rewrite bool_decide_eq_false_2 by tauto. done. }
    rewrite bool_decide_eq_true_2 by done. rewrite (proj2 (Z.leb_gt (blen _) _)) by (unfold blen; lia).
    assert (E : offered (with_profile p x) = offered p ++ [x]) by (unfold offered; cbn [with_profile profiles profile_count]; apply take_push; lia).
    exists (with_profile p x). split_and!; [done| |done|].
    + unfold channel_ok. cbn [with_profile profiles profile_count integrity_algorithms integrity_algorithm_count max_cid icv_len mrru].
      rewrite length_insert. split; [done|]. split; [by apply Forall_insert|]. split; [lia|done].
    + unfold channel_of. by rewrite E.
  - by intros [? ? ? ? ?]; unfold more_profiles; cbn; rewrite app_nil_r.
  - intros l1 l2 c. unfold more_profiles. cbn. by rewrite app_assoc.
Qed.

#[export] Instance integrity_appender :
  Appender append_integrity algorithms more_algorithms 8 is_supported_integrity_algorithm.
Proof.
  split.
  - intros p x Hok Hx. pose proof (algorithms_length p Hok) as La. pose proof Hok as (H1 & H2 & H3 & Hl & Hw & Hc & H4).
    unfold append_integrity, max_integrity_algorithms. rewrite La.
    destruct (Z.leb_spec 8 (integrity_algorithm_count p)) as [Hge|Hlt]; cbn [negb oguard obind].
    { rewrite bool_decide_eq_false_2 by lia. done. }
    destruct (is_supported_integrity_algorithm x); cbn [oguard obind].
    2: { rewrite bool_decide_eq_false_2 by (intros (_ & ? & _); done). done. }
    rewrite supports_integrity_spec by done. cbn [obind].
    destruct (bool_decide_reflect (x ∈ algorithms p)) as [Hin|Hin]; cbn [negb oguard obind].
    { rewrite bool_decide_eq_false_2 by tauto. done. }
    rewrite bool_decide_eq_true_2 by done. rewrite (proj2 (Z.leb_gt (blen _) _)) by (unfold blen; lia).
    assert (E : algorithms (with_integrity p x) = algorithms p ++ [x]) by (unfold algorithms; cbn [with_integrity integrity_algorithms integrity_algorithm_count]; apply take_push; lia).
    exists (with_integrity p x). split_and!; [done| |done|].
    + unfold channel_ok. cbn [with_integrity profiles profile_count integrity_algorithms integrity_algorithm_count max_cid icv_len mrru].
      rewrite length_insert. split; [done|]. split; [done|]. split; [done|]. split; [done|].
      split; [by apply Forall_insert|]. split; [lia|done].
    + unfold channel_of. by rewrite E.
  - by intros [? ? ? ? ?]; unfold more_algorithms; cbn; rewrite app_nil_r.
  - intros l1 l2 c. unfold more_algorithms. cbn. by rewrite app_assoc.
Qed.

Section Appending.
Context {f entries more cap supported} `{!Appender f entries more cap supported}.

Lemma append_run p x : channel_ok p -> word_ok x ->
  if bool_decide (Z.of_nat (length (entries p)) < cap /\ supported x = true /\ x ∉ entries p)
  then exists p', append f x p = (Ok tt, p') /\ channel_ok p' /\ entries p' = entries p ++ [x] /\
                  channel_of p' = more [x] (channel_of p)
  else append f x p = (Rej, p).
Proof.
  intros Hok Hx. pose proof (append_one p x Hok Hx) as H. destruct (bool_decide _).
  - destruct H as (p' & E & H). exists p'. split; [|done]. unfold append.
    erewrite bind_ok by reflexivity. by rewrite E.
  - unfold append. erewrite bind_ok by reflexivity. by rewrite H.
Qed.

(** Appending a list of entries, one after the other. *)
Fixpoint appends (l : list Z) : M ChannelParameters unit :=
  match l with [] => ret tt | x :: l => append f x ;;; appends l end.

Lemma appends_run l p : channel_ok p -> Forall word_ok l -> Forall (fun x => supported x = true) l ->
  NoDup (entries p ++ l) -> Z.of_nat (length (entries p ++ l)) <= cap ->
  exists p', appends l p = (Ok tt, p') /\ channel_ok p' /\ channel_of p' = more l (channel_of p).
Proof.
  revert p. induction l as [|x l IH]; intros p Hok Hw Hs Hd Hl.
  - exists p. by rewrite (more_nil (Appender := _)).
  - apply Forall_cons_iff in Hw as [Hx Hw], Hs as [Hsx Hs]. cbn [appends].
    pose proof (append_run p x Hok Hx) as H. rewrite length_app in Hl. cbn [length] in Hl.
    rewrite bool_decide_eq_true_2 in H.
    2: { split_and!; [lia|done|]. apply list.NoDup_app in Hd as (_ & Hd & _). intros Hin.
         by apply (Hd x Hin), list_elem_of_here. }
    destruct H as (p1 & E1 & Hok1 & Ee & Ec).
    rewrite (cons_middle x), app_assoc, <- Ee in Hd.
    destruct (IH p1 Hok1 Hw Hs Hd) as (p2 & E2 & Hok2 & Ec2).
    { rewrite Ee, !length_app. cbn [length]. lia. }
    exists p2. erewrite bind_ok by exact E1. split_and!; [done|done|].
    by rewrite Ec2, Ec, (more_app (Appender := _)).
Qed.

Lemma wp_append x p (Q : unit -> ChannelParameters -> Prop) (R : ChannelParameters -> Prop) :
  channel_ok p -> word_ok x -> R p -> (forall p', channel_ok p' -> Q tt p') -> wp (append f x) Q R p.
Proof.
  intros Hok Hx HR HQ. pose proof (append_run p x Hok Hx) as H. unfold wp.
  destruct (bool_decide _); [destruct H as (p' & -> & Hok' & _); by apply HQ|by rewrite H].
Qed.
End Appending.
Arguments appends f l : clear implicits.

(** * The notification *)

(** [m] appends [l] when it fits, and refuses otherwise. *)
Definition writes (m : M wst unit) (l : bytes) : Prop := forall s, 0 <= room s ->
  if blen l <=? room s then m s = (Ok tt, {| w_out := w_out s ++ l; w_cap := w_cap s |})
  else fst (m s) = Rej.

Lemma writes_ret : writes (ret tt) [].
Proof.
  intros [o cap] Hr. change (blen []) with 0. rewrite (proj2 (Z.leb_le 0 _)) by done.
  unfold ret. cbn [w_out w_cap]. by rewrite app_nil_r.
Qed.

Lemma writes_seq m1 m2 l1 l2 : writes m1 l1 -> writes m2 l2 -> writes (m1 ;;; m2) (l1 ++ l2).
Proof.
  intros H1 H2 s Hr. specialize (H1 s Hr). rewrite blen_app. pose proof (blen_nonneg l1). pose proof (blen_nonneg l2).
  destruct (Z.leb_spec (blen l1) (room s)) as [Hf|Hf].
  - erewrite bind_ok by exact H1. set (s1 := {| w_out := w_out s ++ l1; w_cap := w_cap s |}).
    assert (E : room s1 = room s - blen l1) by (unfold s1; blen_lia).
    specialize (H2 s1 ltac:(lia)). rewrite E in H2.
    destruct (Z.leb_spec (blen l2) (room s - blen l1)).
    + rewrite (proj2 (Z.leb_le (blen l1 + blen l2) _)) by lia. rewrite H2. cbn [s1 w_out w_cap].
      by rewrite app_assoc.
    + by rewrite (proj2 (Z.leb_gt (blen l1 + blen l2) _)) by lia.
  - rewrite (proj2 (Z.leb_gt (blen l1 + blen l2) _)) by lia. unfold bind.
    destruct (m1 s) as [[[]| |] s']; cbn in H1 |- *; congruence.
Qed.

Lemma writes_u16 v : writes (write_u16 v) (be16 v).
Proof.
  intros s Hr. rewrite blen_be16. unfold write_u16. erewrite bind_ok by reflexivity.
  destruct (Z.leb_spec 2 (room s)); [|done]. erewrite bind_ok by reflexivity.
  pose proof (emits_seq _ _ 1 1 _ _ (emits_put (u8 (Z.shiftr v 8))) (emits_put (Z.land v 255)) ltac:(lia)) as E.
  by destruct (E s ltac:(lia)) as [_ ->].
Qed.

Definition attribute (a : AttributeType * Z) : bytes := be16 (0x8000 + attribute_code a.1) ++ be16 a.2.
Definition octets_of (l : list (AttributeType * Z)) : bytes := concat (map attribute l).

Lemma octets_of_app l k : octets_of (l ++ k) = octets_of l ++ octets_of k.
Proof. unfold octets_of. by rewrite map_app, concat_app. Qed.

Lemma octets_of_cons a l : octets_of (a :: l) = attribute a ++ octets_of l.
Proof. done. Qed.

Lemma blen_octets_of l : blen (octets_of l) = 4 * Z.of_nat (length l).
Proof.
  induction l as [|a l IH]; [done|]. unfold octets_of in *. cbn [map concat length].
  rewrite blen_app, IH. unfold attribute. rewrite blen_app, !blen_be16. lia.
Qed.

Lemma writes_tv t v : writes (write_tv_attribute t v) (attribute (t, v)).
Proof.
  unfold write_tv_attribute, attribute. cbn [fst snd].
  replace (Z.lor tv_attribute_flag (attribute_code t)) with (0x8000 + attribute_code t) by (by destruct t).
  apply writes_seq; apply writes_u16.
Qed.

Lemma writes_each t a n i : 0 <= i -> i + Z.of_nat n <= blen a ->
  writes (write_each t a i n) (octets_of (map (pair t) (take n (drop (Z.to_nat i) a)))).
Proof.
  revert i. induction n as [|n IH]; intros i Hi Hl; [apply writes_ret|].
  cbn [write_each]. destruct (take_rd_drop a i n Hi Hl) as (x & E & ->). rewrite E.
  intros s Hr. erewrite bind_ok by reflexivity.
  apply (writes_seq _ _ (attribute (t, x))); [apply writes_tv|apply IH; lia|done].
Qed.

Definition optional (t : AttributeType) (v : option Z) : list (AttributeType * Z) :=
  match v with Some v => [(t, v)] | None => [] end.
Definition attributes (c : Channel) : list (AttributeType * Z) :=
  (MaxCid, c_max_cid c) :: map (pair ProfileAttribute) (c_profiles c) ++
  map (pair IntegrityAttribute) (c_algorithms c) ++ optional IcvLength (c_icv c) ++ optional Mrru (c_mrru c).

Lemma writes_optional t (b : bool) v :
  writes (if b then write_tv_attribute t v else ret tt) (octets_of (optional t (if b then Some v else None))).
Proof.
  destruct b; [|apply writes_ret]. unfold octets_of, optional. cbn [map concat]. rewrite app_nil_r.
  apply writes_tv.
Qed.

Lemma write_notify_run p cap : channel_ok p -> 0 <= cap -> well_formed (channel_of p) ->
  let octets := octets_of (attributes (channel_of p)) in
  if blen octets <=? cap then
    write_supported_notify_payload p {| w_out := []; w_cap := cap |} =
      (Ok tt, {| w_out := octets; w_cap := cap |})
  else fst (write_supported_notify_payload p {| w_out := []; w_cap := cap |}) = Rej.
Proof.
  intros Hok Hcap Hwf. pose proof Hok as (Hl & _ & Hc & Hla & _ & Hca & _).
  unfold write_supported_notify_payload. rewrite valid_spec, bool_decide_eq_true_2 by done.
  do 2 (erewrite bind_ok by reflexivity). cbv zeta. unfold attributes.
  rewrite octets_of_cons, !octets_of_app.
  match goal with |- context [blen ?o <=? cap] => match goal with |- context [?m {| w_out := []; w_cap := cap |} = _] =>
    assert (W : writes m o) end end.
  { apply writes_seq; [apply writes_tv|]. apply writes_seq; [apply writes_each; unfold blen; lia|].
    apply writes_seq; [apply writes_each; unfold blen; lia|]. apply writes_seq; apply writes_optional. }
  specialize (W {| w_out := []; w_cap := cap |}). unfold room in W. cbn [w_out w_cap] in W.
  change (blen []) with 0 in W. rewrite Z.sub_0_r in W. by apply W.
Qed.

(** The attributes one after the other, as the parser's loop takes them. *)
Fixpoint run_attributes (l : list (AttributeType * Z)) (saw : bool) : M ChannelParameters bool :=
  match l with
  | [] => ret saw
  | (t, v) :: l => saw <- read_attribute (attribute_code t) v saw ;; run_attributes l saw
  end.

Lemma read_u16_at data pos v l : 0 <= v < 2 ^ 16 -> suffix_at data pos (be16 v ++ l) -> read_u16 data pos = Ok v.
Proof.
  intros Hv Hs. pose proof (suffix_at_len _ _ _ Hs) as [Hp Hl]. unfold read_u16.
  rewrite (proj2 (Z.leb_le (pos + 2) _)) by (rewrite blen_app, blen_be16 in Hl; pose proof (blen_nonneg l); lia). cbn [oguard obind].
  destruct Hs as (pre & -> & <-). by apply rd_u16_be16.
Qed.

Lemma read_attributes_at data l fuel pos saw p :
  Forall (fun a => word_ok a.2) l -> (length l <= fuel)%nat -> suffix_at data pos (octets_of l) ->
  read_attributes fuel data pos saw p = (saw <- run_attributes l saw ;; ret (blen data, saw)) p.
Proof.
  intros Hw. revert fuel pos saw p. induction l as [|[t v] l IH]; intros fuel pos saw p Hf Hs.
  - pose proof (suffix_at_len _ _ _ Hs) as [Hp Hl]. change (blen (octets_of [])) with 0 in Hl.
    erewrite bind_ok by reflexivity. replace pos with (blen data) by lia.
    by destruct fuel; cbn [read_attributes]; rewrite (proj2 (Z.leb_gt _ (blen data))) by lia.
  - apply Forall_cons_iff in Hw as [Hv Hw]. cbn [snd] in Hv. cbn [length] in Hf.
    pose proof (suffix_at_len _ _ _ Hs) as [Hp Hl]. rewrite blen_octets_of in Hl. cbn [length] in Hl.
    rewrite octets_of_cons in Hs. unfold attribute in Hs. cbn [fst snd] in Hs. rewrite <- app_assoc in Hs.
    destruct fuel as [|fuel]; [lia|]. cbn [read_attributes run_attributes].
    rewrite (proj2 (Z.leb_le (pos + 4) _)) by lia.
    rewrite (read_u16_at data pos (0x8000 + attribute_code t) _ ltac:(destruct t; cbn; lia) Hs).
    pose proof (suffix_at_app _ _ _ _ Hs) as Hs2. rewrite blen_be16 in Hs2.
    rewrite (read_u16_at data (pos + 2) v _ Hv Hs2).
    pose proof (suffix_at_app _ _ _ _ Hs2) as Hs4. rewrite blen_be16 in Hs4.
    do 2 (erewrite bind_ok by reflexivity).
    assert (Ef : (Z.land (0x8000 + attribute_code t) tv_attribute_flag =? 0) = false) by (by destruct t).
    assert (Et : Z.land (0x8000 + attribute_code t) attribute_type_mask = attribute_code t) by (by destruct t).
    rewrite Ef, Et. cbn [negb]. rewrite bind_assoc. unfold bind at 1 2.
    destruct (read_attribute _ v saw p) as [[saw'| |] p']; [|done|done].
    apply IH; [done|lia|]. by replace (pos + 4) with (pos + 2 + 2) by lia.
Qed.

Lemma run_appends f t l rest p :
  (forall v saw q, read_attribute (attribute_code t) v saw q = (append f v ;;; ret saw) q) ->
  run_attributes (map (pair t) l ++ rest) true p = (appends f l ;;; run_attributes rest true) p.
Proof.
  intros Ht. revert p. induction l as [|x l IH]; intros p; [done|].
  cbn [map app run_attributes appends]. rewrite bind_assoc. unfold bind at 1. rewrite Ht.
  unfold bind at 1 2. destruct (append f x p) as [[[]| |] p']; [|done|done]. apply IH.
Qed.

Lemma no_channel_ok : channel_ok no_channel.
Proof.
  assert (H : forall n, Forall word_ok (repeat 0 n)).
  { intros n. apply List.Forall_forall. intros x ->%repeat_spec. unfold word_ok. lia. }
  unfold channel_ok, word_ok. cbn [no_channel profiles profile_count integrity_algorithms
    integrity_algorithm_count max_cid icv_len mrru]. split_and!; done || lia || apply H.
Qed.

(** Every value of a channel is a 16-bit word. *)
Definition words (c : Channel) : Prop :=
  word_ok (c_max_cid c) /\ Forall word_ok (c_profiles c) /\ Forall word_ok (c_algorithms c) /\
  match c_icv c with Some v => word_ok v | None => True end /\
  match c_mrru c with Some v => word_ok v | None => True end.

Lemma channel_words p : channel_ok p -> words (channel_of p).
Proof.
  intros (_ & H1 & _ & _ & H2 & _ & H3 & H4 & H5). unfold words, channel_of.
  cbn [c_max_cid c_profiles c_algorithms c_icv c_mrru]. unfold offered, algorithms.
  split; [done|]. split; [by apply Forall_take|]. split; [by apply Forall_take|].
  by destruct (has_icv_len p), (has_mrru p).
Qed.

Lemma attributes_words c : words c -> Forall (fun a => word_ok a.2) (attributes c).
Proof.
  intros (H1 & H2 & H3 & H4 & H5). unfold attributes. apply Forall_cons_iff. split; [done|].
  rewrite !Forall_app. split_and!; [apply Forall_map; exact H2|apply Forall_map; exact H3|..].
  - destruct (c_icv c) as [v|]; [exact (Forall_cons_2 _ (IcvLength, v) [] H4 (Forall_nil_2 _))|constructor].
  - destruct (c_mrru c) as [v|]; [exact (Forall_cons_2 _ (Mrru, v) [] H5 (Forall_nil_2 _))|constructor].
Qed.

Lemma run_optionals c p : channel_ok p -> words c -> has_icv_len p = false -> has_mrru p = false ->
  exists p', run_attributes (optional IcvLength (c_icv c) ++ optional Mrru (c_mrru c)) true p = (Ok true, p') /\
    channel_ok p' /\
    channel_of p' = mkChannel (max_cid p) (offered p) (algorithms p) (c_icv c) (c_mrru c).
Proof.
  intros Hok (_ & _ & _ & Hi & Hm) E1 E2.
  exists (match c_mrru c with Some v => set_mrru v true | None => fun q => q end
    (match c_icv c with Some v => set_icv v true | None => fun q => q end p)).
  destruct Hok as (H1 & H2 & H3 & H4 & H5 & H6 & H7 & H8 & H9).
  destruct p as [q1 q2 q3 q4 q5 q6 q7 q8 q9]. cbn in *. subst.
  destruct (c_icv c), (c_mrru c);
    (split; [reflexivity|split; [unfold channel_ok; cbn; tauto|reflexivity]]).
Qed.

Lemma parse_octets c s : well_formed c -> words c -> (length (c_profiles c) <= 16)%nat ->
  (length (c_algorithms c) <= 8)%nat ->
  exists p', parse_supported_notify_payload (octets_of (attributes c)) s = (Ok tt, p') /\
    channel_ok p' /\ channel_of p' = c.
Proof.
  intros Hwf Hw Hl1 Hl2. pose proof Hwf as (Hcid & _ & Hs1 & Hd1 & _ & Hs2 & Hd2 & _).
  pose proof Hw as (Hwc & Hw1 & Hw2 & _).
  unfold parse_supported_notify_payload. erewrite bind_ok by reflexivity.
  set (data := octets_of (attributes c)).
  assert (Hlen : (length (attributes c) <= length data)%nat).
  { pose proof (blen_octets_of (attributes c)) as H. fold data in H. unfold blen in H. lia. }
  unfold bind at 1.
  rewrite (read_attributes_at data (attributes c) _ 0 false no_channel (attributes_words c Hw) Hlen (suffix_at_start _)).
  unfold attributes at 1. cbn [run_attributes].
  set (p0 := set_max_cid (c_max_cid c) no_channel).
  assert (Hp0 : channel_ok p0).
  { destruct no_channel_ok as (H1 & H2 & H3 & H4 & H5 & H6 & _ & H8). by do 6 (split; [done|]). }
  assert (E0 : read_attribute (attribute_code MaxCid) (c_max_cid c) false no_channel = (Ok true, p0)).
  { unfold read_attribute. erewrite bind_ok by reflexivity. rewrite Z.eqb_refl. unfold max_cid_limit. by rewrite (proj2 (Z.ltb_ge 16383 _)) by lia. }
  rewrite bind_assoc. erewrite bind_ok by exact E0.
  unfold bind at 1. rewrite (run_appends append_profile) by done.
  destruct (appends_run (c_profiles c) p0 Hp0 Hw1 Hs1) as (p1 & E1 & Hp1 & C1);
    [done|change (offered p0) with (@nil Z); cbn [app]; lia|].
  erewrite bind_ok by exact E1. rewrite (run_appends append_integrity) by done.
  pose proof C1 as C1'. injection C1' as I1 I2 I3 I4 I5.
  destruct (appends_run (c_algorithms c) p1 Hp1 Hw2 Hs2) as (p2 & E2 & Hp2 & C2); [by rewrite I3|
    rewrite I3; change (algorithms p0) with (@nil Z); cbn [app]; lia|].
  erewrite bind_ok by exact E2. rewrite C1 in C2. injection C2 as J1 J2 J3 J4 J5.
  destruct (run_optionals c p2 Hp2 Hw) as (p3 & E3 & Hp3 & C3);
    [by destruct (has_icv_len p2)|by destruct (has_mrru p2)|].
  rewrite E3. cbn [ret fst snd].
  assert (C4 : channel_of p3 = c) by (rewrite C3, J1, J2, J3; by destruct c).
  exists p3. split; [|done]. erewrite bind_ok by reflexivity. cbn [fst snd]. rewrite Z.eqb_refl.
  erewrite bind_ok by reflexivity. rewrite valid_spec, C4, bool_decide_eq_true_2 by done. done.
Qed.

Lemma wp_read_attribute t v saw p : word_ok v -> channel_ok p ->
  wp (read_attribute t v saw) (fun _ => channel_ok) channel_ok p.
Proof.
  intros Hv Hok. pose proof Hok as (H1 & H2 & H3 & H4 & H5 & H6 & H7 & H8 & H9).
  unfold read_attribute. repeat wp_step; try done.
  - by apply wp_append.
  - by apply wp_append.
Qed.

Lemma wp_channel_u16 data pos p (Q : Z -> ChannelParameters -> Prop) (R : ChannelParameters -> Prop) :
  bytes_ok data -> 0 <= pos -> R p -> (forall v, word_ok v -> Q v p) -> wp (lift (read_u16 data pos)) Q R p.
Proof.
  intros Hd Hp HR HQ. unfold read_u16.
  destruct (Z.leb_spec (pos + 2) (blen data)); cbn [oguard obind]; [|done].
  apply wp_rd_u16; [done..|]. intros v Hv. by apply HQ, Hv.
Qed.

Lemma wp_read_attributes data fuel pos saw p : bytes_ok data -> channel_ok p -> 0 <= pos ->
  blen data - pos <= Z.of_nat fuel ->
  wp (read_attributes fuel data pos saw) (fun _ => channel_ok) channel_ok p.
Proof.
  intros Hd. revert pos saw p. induction fuel as [|fuel IH]; intros pos saw p Hok Hp Hf; cbn [read_attributes].
  { by rewrite (proj2 (Z.leb_gt _ (blen data))) by lia. }
  destruct (Z.leb_spec (pos + 4) (blen data)); [|done].
  apply wp_bind, wp_channel_u16; [done..|]. intros type_field _.
  apply wp_bind, wp_channel_u16; [done|lia|done|]. intros v Hv. unfold word_ok in Hv.
  destruct (negb (negb _)).
  - repeat wp_step; bool_prop; [apply IH; (done || lia)|done].
  - apply wp_bind. eapply wp_mono; [|done|by apply wp_read_attribute].
    intros saw' p' Hok'. apply IH; (done || lia).
Qed.

(** On any octets the parser stays inside them, ends, and accepts only well
    formed channels. *)
Lemma wp_parse_notify data s : bytes_ok data ->
  wp (parse_supported_notify_payload data) (fun _ p => channel_ok p /\ well_formed (channel_of p)) channel_ok s.
Proof.
  intros Hd. unfold parse_supported_notify_payload. apply wp_bind, wp_modify, wp_bind.
  apply wp_mono with (Q := fun _ => channel_ok) (R := channel_ok); [|done|].
  - intros r p Hok. apply wp_bind, wp_gets. do 2 wp_step; [|done].
    rewrite valid_spec by done. apply wp_bind, wp_lift. wp_step; [by bool_prop|done].
  - apply wp_read_attributes; [done|apply no_channel_ok|lia|unfold blen; lia].
Qed.

(** * The negotiation *)

(** The channel two offers agree on: the local profiles the peer offers too, in
    the local order, the first local algorithm the peer offers, and the limits
    of the peer. *)
Definition agreed (local peer : Channel) : option Channel :=
  match find (fun a => bool_decide (a ∈ c_algorithms peer)) (c_algorithms local) with
  | None => None
  | Some a =>
      Some (mkChannel (c_max_cid peer) (filter (fun x => x ∈ c_profiles peer) (c_profiles local)) [a]
              (c_icv peer) (c_mrru peer))
  end.

Lemma negotiate_profiles_run local peer i n m : channel_ok local -> channel_ok peer ->
  0 <= i -> i + Z.of_nat n <= 16 ->
  negotiate_profiles local peer i n m =
  appends append_profile (filter (fun x => x ∈ offered peer) (take n (drop (Z.to_nat i) (profiles local)))) m.
Proof.
  intros Hl Hp. pose proof Hl as (Hll & _). revert i m. induction n as [|n IH]; intros i m Hi Hn; [done|].
  cbn [negotiate_profiles]. destruct (take_rd_drop (profiles local) i n Hi ltac:(unfold blen; lia)) as (x & -> & ->).
  erewrite bind_ok by reflexivity. rewrite supports_profile_spec by done. erewrite bind_ok by reflexivity.
  rewrite filter_cons. destruct (decide (x ∈ offered peer)) as [Hin|Hin].
  - rewrite bool_decide_eq_true_2 by done. cbn [appends]. unfold bind at 1 2.
    destruct (append append_profile x m) as [[[]| |] m']; [|done|done]. apply IH; lia.
  - rewrite bool_decide_eq_false_2 by done. erewrite bind_ok by reflexivity. apply IH; lia.
Qed.

Lemma negotiate_integrity_run local peer i n m : channel_ok local -> channel_ok peer ->
  0 <= i -> i + Z.of_nat n <= 8 ->
  negotiate_integrity local peer i n m =
  match find (fun a => bool_decide (a ∈ algorithms peer)) (take n (drop (Z.to_nat i) (integrity_algorithms local))) with
  | Some a => append append_integrity a m
  | None => (Ok tt, m)
  end.
Proof.
  intros Hl Hp. pose proof Hl as (_ & _ & _ & Hll & _). revert i m. induction n as [|n IH]; intros i m Hi Hn; [done|].
  cbn [negotiate_integrity].
  destruct (take_rd_drop (integrity_algorithms local) i n Hi ltac:(unfold blen; lia)) as (x & -> & ->).
  erewrite bind_ok by reflexivity. rewrite supports_integrity_spec by done. erewrite bind_ok by reflexivity.
  cbn [find]. destruct (bool_decide (x ∈ algorithms peer)); [done|]. apply IH; lia.
Qed.

Lemma first_common (l k : list Z) a :
  find (fun a => bool_decide (a ∈ k)) l = Some a -> a ∈ l /\ a ∈ k.
Proof.
  intros [Hl Hk]%find_some. split; [by apply list_elem_of_In|]. by apply bool_decide_eq_true in Hk.
Qed.

Lemma filter_well_formed (P : Z -> Prop) (l k : list Z) : Forall P l -> NoDup l ->
  Forall P (filter (fun x => x ∈ k) l) /\ NoDup (filter (fun x => x ∈ k) l) /\
  (length (filter (fun x => x ∈ k) l) <= length l)%nat.
Proof.
  intros HP Hd. split_and!; [|by apply list.NoDup_filter|by apply list.length_filter].
  apply List.Forall_forall. intros x Hx%list_elem_of_In%list_elem_of_filter.
  destruct Hx as [_ Hx%list_elem_of_In]. by eapply List.Forall_forall in HP.
Qed.

(** The first refusal: when a channel is not well formed. *)
Lemma negotiate_refuses local peer s : channel_ok local -> channel_ok peer ->
  ~ (well_formed (channel_of local) /\ well_formed (channel_of peer)) ->
  negotiate local peer s = (Rej, s).
Proof.
  intros Hl Hp Hn. unfold negotiate. rewrite !valid_spec by done. cbn [obind].
  destruct (bool_decide_reflect (well_formed (channel_of local))) as [W1|W1]; cbn [negb]; [|done].
  by rewrite bool_decide_eq_false_2 by tauto.
Qed.

(** What is common is well formed but for its emptiness and its ICV. *)
Lemma agreed_well_formed l p c : well_formed l -> well_formed p -> agreed l p = Some c ->
  exists a, c_algorithms c = [a] /\ a ∈ c_algorithms l /\ a ∈ c_algorithms p /\
  (well_formed c <-> c_profiles c <> [] /\ icv_fits (c_icv c) (c_algorithms c)).
Proof.
  intros (_ & _ & H1 & H2 & _ & H3 & H4 & _) (Hc & _) E. unfold agreed in E.
  destruct (find _ _) as [a|] eqn:F; [|done]. injection E as <-. apply first_common in F as [Fl Fp].
  destruct (filter_well_formed _ _ (c_profiles p) H1 H2) as (G1 & G2 & _).
  exists a. split_and!; [done..|]. unfold well_formed. cbn [c_max_cid c_profiles c_algorithms c_icv]. split.
  - tauto.
  - intros [Hn Hi]. split_and!; [done..| |by apply NoDup_singleton|done].
    apply Forall_cons_iff. split; [|done]. apply list_elem_of_In in Fl. by eapply List.Forall_forall in H3.
Qed.

(** The final step of [negotiate] writes the ICV length that is there. *)
Lemma clear_icv n : channel_ok n -> well_formed (channel_of n) -> (length (algorithms n) <= 1)%nat ->
  exists n', (none <- lift (supports_integrity n None_) ;;
     if none then modify (set_icv 0 (has_icv_len n)) else ret tt) n = (Ok tt, n') /\
   channel_ok n' /\ channel_of n' = channel_of n.
Proof.
  intros Hok (_ & _ & _ & _ & _ & _ & _ & Hi) Hl. rewrite supports_integrity_spec by done.
  erewrite bind_ok by reflexivity. destruct (bool_decide_reflect (None_ ∈ algorithms n)) as [Hin|_]; [|by exists n].
  exists (set_icv 0 (has_icv_len n) n). split; [done|]. split.
  - destruct Hok as (H1 & H2 & H3 & H4 & H5 & H6 & H7 & _ & H9). do 7 (split; [done|]). split; [unfold word_ok; cbn; lia|done].
  - unfold channel_of in *. cbn [c_icv c_algorithms] in Hi. unfold set_icv. cbn.
    change (offered _) with (offered n) at 1. change (algorithms (mkChannelParameters _ _ _ _ _ _ _ _ _)) with (algorithms n).
    destruct (has_icv_len n); [|done]. f_equal. f_equal.
    unfold icv_fits, keyed in Hi. destruct (algorithms n) as [|a [|]]; [by apply not_elem_of_nil in Hin| |cbn in Hl; lia].
    apply list_elem_of_singleton in Hin as <-. cbn in Hi. done.
Qed.

Lemma negotiate_run local peer s : channel_ok local -> channel_ok peer ->
  well_formed (channel_of local) -> well_formed (channel_of peer) ->
  match agreed (channel_of local) (channel_of peer) with
  | Some c =>
      if bool_decide (c_profiles c <> [] /\ icv_fits (c_icv c) (c_algorithms c)) then
        exists n, negotiate local peer s = (Ok tt, n) /\ channel_ok n /\ channel_of n = c
      else fst (negotiate local peer s) = Rej
  | None => fst (negotiate local peer s) = Rej
  end.
Proof.
  intros Hl Hp Wl Wp. unfold negotiate. rewrite !valid_spec by done. cbn [obind].
  rewrite (bool_decide_eq_true_2 (well_formed (channel_of local)) Wl), (bool_decide_eq_true_2 (well_formed (channel_of peer)) Wp).
  cbn [negb]. do 3 (erewrite bind_ok by reflexivity).
  pose proof Hl as (Ll & _ & Cl & La & _ & Ca & _). pose proof Hp as (_ & _ & _ & _ & _ & _ & P1 & P2 & P3).
  set (m0 := mkChannelParameters _ _ _ _ _ _ _ _ _).
  assert (Hm0 : channel_ok m0).
  { destruct no_channel_ok as (H1 & H2 & H3 & H4 & H5 & H6 & H7 & H8 & H9). do 7 (split; [done|]).
    split; [|done]. cbn. by destruct (has_icv_len peer). }
  pose proof Wl as (_ & _ & S1 & D1 & _ & S2 & D2 & _). destruct (channel_words local Hl) as (_ & W1 & W2 & _).
  cbn [channel_of c_profiles c_algorithms] in S1, D1, S2, D2, W1, W2.
  destruct (filter_well_formed _ _ (offered peer) S1 D1) as (F1 & F2 & F3).
  destruct (filter_well_formed _ _ (offered peer) W1 D1) as (F4 & _).
  pose proof (offered_length local Hl) as Lo.
  destruct (appends_run _ m0 Hm0 F4 F1) as (m1 & R1 & Hm1 & E1);
    [exact F2|change (offered m0) with (@nil Z); cbn [app]; lia|].
  match goal with |- context [negotiate_integrity _ _ _ _ ;;; ?r] => set (rest := r) end.
  assert (Erun : (negotiate_profiles local peer 0 (Z.to_nat (profile_count local)) ;;;
      negotiate_integrity local peer 0 (Z.to_nat (integrity_algorithm_count local)) ;;; rest) m0 =
    (match find (fun a => bool_decide (a ∈ algorithms peer)) (algorithms local) with
     | Some a => append append_integrity a | None => ret tt end ;;; rest) m1).
  { unfold bind at 1. rewrite negotiate_profiles_run by (done || lia).
    change (drop (Z.to_nat 0) ?a) with a. fold (offered local). rewrite R1.
    unfold bind. rewrite negotiate_integrity_run by (done || lia).
    change (drop (Z.to_nat 0) ?a) with a. fold (algorithms local). by destruct (find _ _). }
  rewrite Erun. unfold agreed. cbn [channel_of c_algorithms c_profiles c_max_cid c_icv c_mrru].
  assert (Ea : algorithms m1 = []) by (by injection E1).
  destruct (find _ (algorithms local)) as [a|] eqn:F.
  - pose proof F as [Fl Fp]%first_common.
    assert (Wa : word_ok a) by (apply list_elem_of_In in Fl; by eapply List.Forall_forall in W2).
    assert (Sa : is_supported_integrity_algorithm a = true) by (apply list_elem_of_In in Fl; by eapply List.Forall_forall in S2).
    pose proof (append_run (f := append_integrity) m1 a Hm1 Wa) as A.
    rewrite bool_decide_eq_true_2 in A by (rewrite Ea; split_and!; [cbn; lia|done|apply not_elem_of_nil]).
    destruct A as (m2 & R2 & Hm2 & Ea2 & E2). rewrite E1 in E2. erewrite bind_ok by exact R2.
    unfold rest. erewrite bind_ok by reflexivity. rewrite valid_spec by done. erewrite bind_ok by reflexivity.
    assert (Ec : channel_of m2 = mkChannel (max_cid peer) (filter (fun x => x ∈ offered peer) (offered local)) [a]
      (if has_icv_len peer then Some (icv_len peer) else None) (if has_mrru peer then Some (mrru peer) else None)).
    { rewrite E2. unfold more_algorithms, more_profiles, channel_of. cbn.
      by destruct (has_icv_len peer). }
    destruct (agreed_well_formed (channel_of local) (channel_of peer) (channel_of m2) Wl Wp) as (_ & _ & _ & _ & Hiff).
    { unfold agreed. cbn [channel_of c_algorithms c_profiles c_max_cid c_icv c_mrru]. rewrite F. by f_equal. }
    rewrite <- Ec. case_bool_decide as Hc.
    + rewrite bool_decide_eq_true_2 by (by apply Hiff). erewrite bind_ok by reflexivity.
      apply clear_icv; [done|by apply Hiff|]. rewrite Ea2, Ea. done.
    + rewrite bool_decide_eq_false_2 by (by rewrite Hiff). done.
  - erewrite bind_ok by reflexivity. unfold rest. erewrite bind_ok by reflexivity.
    rewrite valid_spec by done. erewrite bind_ok by reflexivity.
    rewrite bool_decide_eq_false_2; [done|]. intros (_ & _ & _ & _ & Hn & _). by apply Hn.
Qed.

(** * What the claims state *)

Lemma written_length p : channel_ok p ->
  blen (octets_of (attributes (channel_of p))) =
  4 * (1 + profile_count p + integrity_algorithm_count p + (if has_icv_len p then 1 else 0) + (if has_mrru p then 1 else 0)).
Proof.
  intros Hok. rewrite blen_octets_of. unfold attributes. cbn [length].
  rewrite !length_app, !length_map. cbn [channel_of c_profiles c_algorithms c_icv c_mrru].
  pose proof (offered_length p Hok). pose proof (algorithms_length p Hok).
  destruct (has_icv_len p), (has_mrru p); cbn [optional length]; lia.
Qed.

(** C25: A well formed channel is written as four octets for each of its
    attributes, or refused when they do not fit, and the parser gets the same
    channel back; a malformed one is refused.  On any octets at all the parser
    ends, stays inside them, and accepts only well formed channels. *)
Theorem ipsec_notify_roundtrip p cap data s (Hok : channel_ok p) (Hcap : 0 <= cap) (Hd : bytes_ok data) :
  let n := 4 * (1 + profile_count p + integrity_algorithm_count p +
                (if has_icv_len p then 1 else 0) + (if has_mrru p then 1 else 0)) in
  (if bool_decide (well_formed (channel_of p) /\ n <= cap) then
     exists out p', write_supported_notify_payload p {| w_out := []; w_cap := cap |} =
       (Ok tt, {| w_out := out; w_cap := cap |}) /\
     blen out = n /\
     parse_supported_notify_payload out s = (Ok tt, p') /\ channel_ok p' /\ channel_of p' = channel_of p
   else fst (write_supported_notify_payload p {| w_out := []; w_cap := cap |}) = Rej) /\
  wp (parse_supported_notify_payload data) (fun _ p => channel_ok p /\ well_formed (channel_of p)) channel_ok s.
Proof.
  intros n. split; [|by apply wp_parse_notify]. pose proof (written_length p Hok) as L. fold n in L.
  destruct (decide (well_formed (channel_of p))) as [Hwf|Hn].
  - pose proof (write_notify_run p cap Hok Hcap Hwf) as W. cbv zeta in W. rewrite L in W.
    destruct (Z.leb_spec n cap).
    + rewrite bool_decide_eq_true_2 by done.
      pose proof Hok as (_ & _ & Hc & _ & _ & Hca & _).
      pose proof (offered_length p Hok). pose proof (algorithms_length p Hok).
      destruct (parse_octets (channel_of p) s Hwf (channel_words p Hok)) as (p' & P & G1 & G2);
        [cbn [channel_of c_profiles]; lia|cbn [channel_of c_algorithms]; lia|].
      by exists (octets_of (attributes (channel_of p))), p'.
    + rewrite bool_decide_eq_false_2 by lia. exact W.
  - rewrite bool_decide_eq_false_2 by tauto. unfold write_supported_notify_payload.
    rewrite valid_spec, bool_decide_eq_false_2 by done. done.
Qed.

(** C24: The negotiation succeeds exactly when both offers are well formed, they
    share a profile and an integrity algorithm, and the peer's ICV length goes
    with the first algorithm of the local side the peer offers; it then answers
    the common profiles in the local order, that algorithm alone and the
    peer's limits, which is a well formed channel again.  It never reads
    outside the offers. *)
Theorem ipsec_negotiation_exact local peer s (Hl : channel_ok local) (Hp : channel_ok peer) :
  match agreed (channel_of local) (channel_of peer) with
  | Some c =>
      if bool_decide (well_formed (channel_of local) /\ well_formed (channel_of peer) /\
                      c_profiles c <> [] /\ icv_fits (c_icv c) (c_algorithms c)) then
        exists n, negotiate local peer s = (Ok tt, n) /\ channel_ok n /\ channel_of n = c /\ well_formed c
      else fst (negotiate local peer s) = Rej
  | None => fst (negotiate local peer s) = Rej
  end.
Proof.
  destruct (decide (well_formed (channel_of local) /\ well_formed (channel_of peer))) as [[Wl Wp]|Hn].
  - pose proof (negotiate_run local peer s Hl Hp Wl Wp) as R.
    destruct (agreed _ _) as [c|] eqn:E; [|done].
    destruct (agreed_well_formed _ _ c Wl Wp E) as (_ & _ & _ & _ & Hiff).
    case_bool_decide as Hc.
    + rewrite bool_decide_eq_true_2 by done. destruct R as (n & R & Hn & <-).
      exists n. split_and!; [done..|by apply Hiff].
    + rewrite bool_decide_eq_false_2 by tauto. done.
  - rewrite negotiate_refuses by done. destruct (agreed _ _); [|done].
    by rewrite bool_decide_eq_false_2 by tauto.
Qed.

(** * Sample channels *)

Definition sample_channel (cid icv : Z) (ps as_ : list Z) : ChannelParameters :=
  mkChannelParameters cid (ps ++ repeat 0 (16 - length ps)) (Z.of_nat (length ps))
    (as_ ++ repeat 0 (8 - length as_)) (Z.of_nat (length as_)) icv true 0 false.

Lemma sample_channel_ok cid icv ps as_ : (length ps <= 16)%nat -> (length as_ <= 8)%nat ->
  word_ok cid -> word_ok icv -> Forall word_ok ps -> Forall word_ok as_ -> channel_ok (sample_channel cid icv ps as_).
Proof.
  intros H1 H2 H3 H4 H5 H6. assert (Hz : forall n, Forall word_ok (repeat 0 n)).
  { intros n. apply List.Forall_forall. intros x ->%repeat_spec. unfold word_ok. lia. }
  unfold channel_ok, sample_channel. cbn [profiles profile_count integrity_algorithms integrity_algorithm_count max_cid icv_len mrru].
  rewrite !length_app, !repeat_length. split; [lia|]. split; [by apply Forall_app|]. split; [lia|].
  split; [lia|]. split; [by apply Forall_app|]. split; [lia|]. split; [done|]. split; [done|]. unfold word_ok; lia.
Qed.

Ltac sample_channel_tac :=
  apply sample_channel_ok; [cbn; lia|cbn; lia|unfold word_ok; lia|unfold word_ok; lia|
    repeat constructor; unfold word_ok; lia|repeat constructor; unfold word_ok; lia].

Lemma ipsec_notify_roundtrip_witness :
  exists p', parse_supported_notify_payload
    [0x80; 1; 0; 15; 0x80; 2; 1; 1; 0x80; 3; 0; 12; 0x80; 4; 0; 16] no_channel = (Ok tt, p') /\
    channel_of p' = mkChannel 15 [0x101] [12] (Some 16) None.
Proof.
  assert (H : channel_ok (sample_channel 15 16 [0x101] [12])) by sample_channel_tac.
  destruct (proj1 (ipsec_notify_roundtrip (sample_channel 15 16 [0x101] [12]) 16 [] no_channel H
    ltac:(lia) bytes_ok_nil)) as (out & p' & W & _ & P & _ & E).
  exists p'. vm_compute in W. injection W as <-. split; [exact P|exact E].
Defined.

Lemma ipsec_negotiation_exact_witness :
  (exists n, negotiate (sample_channel 15 16 [0x101; 0x102; 0x104] [12; 0]) (sample_channel 20 12 [0x104; 0x101] [0; 12])
     no_channel = (Ok tt, n) /\ channel_of n = mkChannel 20 [0x101; 0x104] [12] (Some 12) None) /\
  fst (negotiate (sample_channel 15 0 [0x101] [0]) (sample_channel 20 12 [0x101] [0; 12]) no_channel) = Rej.
Proof.
  assert (H1 : channel_ok (sample_channel 15 16 [0x101; 0x102; 0x104] [12; 0])) by sample_channel_tac.
  assert (H2 : channel_ok (sample_channel 20 12 [0x104; 0x101] [0; 12])) by sample_channel_tac.
  assert (H3 : channel_ok (sample_channel 15 0 [0x101] [0])) by sample_channel_tac.
  assert (H4 : channel_ok (sample_channel 20 12 [0x101] [0; 12])) by sample_channel_tac.
  split.
  - destruct (ipsec_negotiation_exact _ _ no_channel H1 H2) as (n & R & _ & E & _).
    exists n. split; [exact R|exact E].
  - exact (ipsec_negotiation_exact _ _ no_channel H3 H4).
Defined.
