(* ===== verification/FormalCo.v ===== *)
(** * Formal compressed packets: include/rohccxx/core/formal_co.hpp

    The PT-0, PT-1 and PT-2 formats of RFC 5225 and its co_common and co_repair
    formats: emitters, decoders and the widths of their fields.  An emitter
    writes through [out[pos++]] into the caller's buffer; a decoder fills the
    caller's packet, which a refusal leaves as it is at that point. *)

From S2P Require Import Prelude Crc Cid Bits Context Cursor.

Inductive FormalCoVariant :=
| Pt0Crc3 | Pt0Crc7 | Pt1Rnd | Pt1SeqId | Pt1SeqTs | Pt2Rnd | Pt2SeqId | Pt2SeqBoth | Pt2SeqTs
| CoCommon | CoRepair.

#[export] Instance FormalCoVariant_eq_dec : EqDecision FormalCoVariant.
Proof. solve_decision. Defined.

(** A pointer that may be null, and a length. *)
Record FormalCoBytes := mkFormalCoBytes { fb_data : option bytes; fb_len : Z }.
Definition FormalCoCrcInput : Type := FormalCoBytes.

Record FormalCoFields := mkFormalCoFields {
  f_msn : Z; f_ip_id : Z; f_ts_scaled : Z; f_marker : bool }.

Record FormalCoCommonFields := mkFormalCoCommonFields {
  f_common_marker : bool; f_flags1 : bool; f_flags2 : bool; f_tsc : bool; f_tss : bool;
  f_ip_id_indicator : bool; f_flags : bool; f_ttl_hopl : bool; f_tos_tc : bool;
  f_reorder_ratio : Z; f_variable : FormalCoBytes }.

Definition FormalCoRepairFields : Type := FormalCoBytes.

Record FormalCoPacket := mkFormalCoPacket {
  fp_profile : Profile;
  fp_variant : FormalCoVariant;
  fp_cid : Z; fp_large_cid : bool; fp_cid_len : Z;
  fp_msn : Z; fp_ip_id : Z; fp_ts_scaled : Z; fp_marker : bool;
  fp_header_crc : Z; fp_control_crc3 : Z;
  fp_flags1_indicator : bool; fp_flags2_indicator : bool; fp_tsc_indicator : bool;
  fp_tss_indicator : bool; fp_ip_id_indicator : bool; fp_flags_indicator : bool;
  fp_ttl_hopl_indicator : bool; fp_tos_tc_indicator : bool;
  fp_reorder_ratio : Z; fp_variable_offset : Z; fp_variable_len : Z }.

(** [FormalCoPacket{}]. *)
Definition no_packet : FormalCoPacket :=
  mkFormalCoPacket Uncompressed Pt0Crc3 0 false 0 0 0 0 false 0 0
    false false false false false false false false 0 0 0.

Definition eta_packet (p : FormalCoPacket) : FormalCoPacket :=
  mkFormalCoPacket (fp_profile p) (fp_variant p) (fp_cid p) (fp_large_cid p) (fp_cid_len p)
    (fp_msn p) (fp_ip_id p) (fp_ts_scaled p) (fp_marker p) (fp_header_crc p) (fp_control_crc3 p)
    (fp_flags1_indicator p) (fp_flags2_indicator p) (fp_tsc_indicator p) (fp_tss_indicator p)
    (fp_ip_id_indicator p) (fp_flags_indicator p) (fp_ttl_hopl_indicator p) (fp_tos_tc_indicator p)
    (fp_reorder_ratio p) (fp_variable_offset p) (fp_variable_len p).

#[export] Instance set_fp_profile : Settable FormalCoPacket (@fp_profile) := ltac:(make_setter eta_packet fp_profile).
#[export] Instance set_fp_variant : Settable FormalCoPacket (@fp_variant) := ltac:(make_setter eta_packet fp_variant).
#[export] Instance set_fp_cid : Settable FormalCoPacket (@fp_cid) := ltac:(make_setter eta_packet fp_cid).
#[export] Instance set_fp_large_cid : Settable FormalCoPacket (@fp_large_cid) := ltac:(make_setter eta_packet fp_large_cid).
#[export] Instance set_fp_cid_len : Settable FormalCoPacket (@fp_cid_len) := ltac:(make_setter eta_packet fp_cid_len).
#[export] Instance set_fp_msn : Settable FormalCoPacket (@fp_msn) := ltac:(make_setter eta_packet fp_msn).
#[export] Instance set_fp_ip_id : Settable FormalCoPacket (@fp_ip_id) := ltac:(make_setter eta_packet fp_ip_id).
#[export] Instance set_fp_ts_scaled : Settable FormalCoPacket (@fp_ts_scaled) := ltac:(make_setter eta_packet fp_ts_scaled).
#[export] Instance set_fp_marker : Settable FormalCoPacket (@fp_marker) := ltac:(make_setter eta_packet fp_marker).
#[export] Instance set_fp_header_crc : Settable FormalCoPacket (@fp_header_crc) := ltac:(make_setter eta_packet fp_header_crc).
#[export] Instance set_fp_control_crc3 : Settable FormalCoPacket (@fp_control_crc3) := ltac:(make_setter eta_packet fp_control_crc3).
#[export] Instance set_fp_flags1_indicator : Settable FormalCoPacket (@fp_flags1_indicator) := ltac:(make_setter eta_packet fp_flags1_indicator).
#[export] Instance set_fp_flags2_indicator : Settable FormalCoPacket (@fp_flags2_indicator) := ltac:(make_setter eta_packet fp_flags2_indicator).
#[export] Instance set_fp_tsc_indicator : Settable FormalCoPacket (@fp_tsc_indicator) := ltac:(make_setter eta_packet fp_tsc_indicator).
#[export] Instance set_fp_tss_indicator : Settable FormalCoPacket (@fp_tss_indicator) := ltac:(make_setter eta_packet fp_tss_indicator).
#[export] Instance set_fp_ip_id_indicator : Settable FormalCoPacket (@fp_ip_id_indicator) := ltac:(make_setter eta_packet fp_ip_id_indicator).
#[export] Instance set_fp_flags_indicator : Settable FormalCoPacket (@fp_flags_indicator) := ltac:(make_setter eta_packet fp_flags_indicator).
#[export] Instance set_fp_ttl_hopl_indicator : Settable FormalCoPacket (@fp_ttl_hopl_indicator) := ltac:(make_setter eta_packet fp_ttl_hopl_indicator).
#[export] Instance set_fp_tos_tc_indicator : Settable FormalCoPacket (@fp_tos_tc_indicator) := ltac:(make_setter eta_packet fp_tos_tc_indicator).
#[export] Instance set_fp_reorder_ratio : Settable FormalCoPacket (@fp_reorder_ratio) := ltac:(make_setter eta_packet fp_reorder_ratio).
#[export] Instance set_fp_variable_offset : Settable FormalCoPacket (@fp_variable_offset) := ltac:(make_setter eta_packet fp_variable_offset).
#[export] Instance set_fp_variable_len : Settable FormalCoPacket (@fp_variable_len) := ltac:(make_setter eta_packet fp_variable_len).

Definition is_rtp_formal_co_profile (p : Profile) : bool := profile_eqb p RTP || profile_eqb p RTP_UDP_Lite.

Definition is_supported_formal_co_profile (p : Profile) : bool :=
  match p with
  | RTP | UDP | ESP | IP | RTP_UDP_Lite | UDP_Lite => true
  | Uncompressed | LLA_RTP => false
  end.

Definition live_pt0_context_supported (ctx : Context) (large_cid_space : bool) (cid_value : Z)
    (has_add_cid : bool) : bool :=
  if negb (state_eqb (rohc_state ctx) DynamicEstablished) || negb (ip_version ctx =? 4) ||
     large_cid_space || large_cid ctx
  then false
  else if profile_eqb (profile ctx) RTP then
    (cid_value <=? 0x0F) && eqb has_add_cid (negb (cid_value =? 0)) &&
    ((ipv4_id_behavior ctx =? 0) || (ipv4_id_behavior ctx =? 2) || (ipv4_id_behavior ctx =? 3))
  else if profile_eqb (profile ctx) UDP then
    (ipv4_id_behavior ctx =? 0) && (cid_value <=? 0x0F) && eqb has_add_cid (negb (cid_value =? 0))
  else if profile_eqb (profile ctx) ESP then
    (ipv4_id_behavior ctx =? 0) && (cid_value <=? 0x0F) && eqb has_add_cid (negb (cid_value =? 0))
  else if profile_eqb (profile ctx) IP then
    (ipv4_id_behavior ctx =? 0) && (cid_value <=? 0x0F) && eqb has_add_cid (negb (cid_value =? 0))
  else false.

Definition formal_co_variant_valid_for_profile (p : Profile) (v : FormalCoVariant) : bool :=
  if negb (is_supported_formal_co_profile p) then false else
  match v with
  | Pt0Crc3 | Pt0Crc7 | Pt1SeqId | Pt2SeqId => true
  | Pt1Rnd | Pt1SeqTs | Pt2Rnd | Pt2SeqBoth | Pt2SeqTs => is_rtp_formal_co_profile p
  | CoCommon | CoRepair => true
  end.

Definition formal_co_variant_uses_crc3 (v : FormalCoVariant) : bool :=
  match v with
  | Pt0Crc3 | Pt1Rnd | Pt1SeqId | Pt1SeqTs => true
  | Pt0Crc7 | Pt2Rnd | Pt2SeqId | Pt2SeqBoth | Pt2SeqTs | CoCommon | CoRepair => false
  end.

Definition formal_co_msn_lsb_bits (p : Profile) (v : FormalCoVariant) : Z :=
  if negb (formal_co_variant_valid_for_profile p v) then 0 else
  match v with
  | Pt0Crc3 | Pt1Rnd | Pt1SeqTs => 4
  | Pt0Crc7 | Pt1SeqId => if is_rtp_formal_co_profile p then 5 else 6
  | Pt2Rnd | Pt2SeqBoth | Pt2SeqTs => 7
  | Pt2SeqId => if is_rtp_formal_co_profile p then 7 else 8
  | CoCommon | CoRepair => 0
  end.

Definition formal_co_ip_id_lsb_bits (p : Profile) (v : FormalCoVariant) : Z :=
  if negb (formal_co_variant_valid_for_profile p v) then 0 else
  match v with
  | Pt1SeqId => 4
  | Pt2SeqId => if is_rtp_formal_co_profile p then 5 else 6
  | Pt2SeqBoth => 5
  | Pt0Crc3 | Pt0Crc7 | Pt1Rnd | Pt1SeqTs | Pt2Rnd | Pt2SeqTs | CoCommon | CoRepair => 0
  end.

Definition formal_co_ts_scaled_lsb_bits (p : Profile) (v : FormalCoVariant) : Z :=
  if negb (formal_co_variant_valid_for_profile p v) then 0 else
  match v with
  | Pt1Rnd | Pt1SeqTs | Pt2SeqTs => 5
  | Pt2Rnd => 6
  | Pt2SeqBoth => 7
  | Pt0Crc3 | Pt0Crc7 | Pt1SeqId | Pt2SeqId | CoCommon | CoRepair => 0
  end.

Definition formal_co_variant_has_marker (v : FormalCoVariant) : bool :=
  match v with
  | Pt1Rnd | Pt1SeqTs | Pt2Rnd | Pt2SeqBoth | Pt2SeqTs => true
  | Pt0Crc3 | Pt0Crc7 | Pt1SeqId | Pt2SeqId | CoCommon | CoRepair => false
  end.

Definition formal_co_base_len (p : Profile) (v : FormalCoVariant) : Z :=
  if negb (formal_co_variant_valid_for_profile p v) then 0 else
  match v with
  | Pt0Crc3 => 1
  | Pt0Crc7 | Pt1Rnd | Pt1SeqId | Pt1SeqTs => 2
  | Pt2Rnd | Pt2SeqId | Pt2SeqTs => 3
  | Pt2SeqBoth => 4
  | CoCommon | CoRepair => 0
  end.

Definition formal_co_pt0_base_len (v : FormalCoVariant) : Z :=
  if decide (v = Pt0Crc3) then 1 else 2.

Definition formal_co_crc_input_valid (crc_input : FormalCoCrcInput) : bool :=
  (fb_len crc_input =? 0) || bool_decide (is_Some (fb_data crc_input)).
Definition formal_co_bytes_valid (b : FormalCoBytes) : bool :=
  (fb_len b =? 0) || bool_decide (is_Some (fb_data b)).

(** The octets behind a pointer and a length; nothing is read of no octets. *)
Definition octets (b : FormalCoBytes) : outcome bytes :=
  if fb_len b =? 0 then Ok [] else
  match fb_data b with None => Ub | Some d => slice d 0 (fb_len b) end.

Definition formal_co_header_crc (v : FormalCoVariant) (crc_input : FormalCoCrcInput) : outcome Z :=
  let! d := octets crc_input in
  Ok (if formal_co_variant_uses_crc3 v then crc3 d else u8 (Z.land (crc7 d) 0x7F)).

Definition formal_co_control_crc (control_crc_input : FormalCoCrcInput) : outcome Z :=
  let! d := octets control_crc_input in Ok (u8 (Z.land (crc3 d) 0x07)).

(** [base] are four octets, of which the first [base_len] are cleared. *)
Definition write_formal_co_base (base_len : Z) (p : Profile) (v : FormalCoVariant)
    (fields : FormalCoFields) (crc : Z) : M BitWriter unit :=
  guard (negb ((base_len =? 0) || (4 <? base_len) || negb (formal_co_variant_valid_for_profile p v))) ;;;
  buf <- gets bw_buf ;;
  cleared <- lift (overwrite buf (repeat 0 (Z.to_nat base_len))) ;;
  modify (fun _ => {| bw_buf := cleared; bw_bitpos := 0 |}) ;;;
  let rtp := is_rtp_formal_co_profile p in
  (match v with
   | Pt0Crc3 =>
       write_bits 0 1 ;;;
       write_bits (Z.land (f_msn fields) 0x0F) 4 ;;;
       write_bits (Z.land crc 0x07) 3
   | Pt0Crc7 =>
       if rtp then
         write_bits 0x08 4 ;;;
         write_bits (Z.land (f_msn fields) 0x1F) 5 ;;;
         write_bits (Z.land crc 0x7F) 7
       else
         write_bits 0x04 3 ;;;
         write_bits (Z.land (f_msn fields) 0x3F) 6 ;;;
         write_bits (Z.land crc 0x7F) 7
   | Pt1Rnd | Pt1SeqTs =>
       guard rtp ;;;
       write_bits 0x05 3 ;;;
       write_bits (if f_marker fields then 1 else 0) 1 ;;;
       write_bits (Z.land (f_msn fields) 0x0F) 4 ;;;
       write_bits (Z.land (f_ts_scaled fields) 0x1F) 5 ;;;
       write_bits (Z.land crc 0x07) 3
   | Pt1SeqId =>
       if rtp then
         write_bits 0x09 4 ;;;
         write_bits (Z.land (f_ip_id fields) 0x0F) 4 ;;;
         write_bits (Z.land (f_msn fields) 0x1F) 5 ;;;
         write_bits (Z.land crc 0x07) 3
       else
         write_bits 0x05 3 ;;;
         write_bits (Z.land crc 0x07) 3 ;;;
         write_bits (Z.land (f_msn fields) 0x3F) 6 ;;;
         write_bits (Z.land (f_ip_id fields) 0x0F) 4
   | Pt2Rnd =>
       guard rtp ;;;
       write_bits 0x06 3 ;;;
       write_bits (Z.land (f_msn fields) 0x7F) 7 ;;;
       write_bits (Z.land (f_ts_scaled fields) 0x3F) 6 ;;;
       write_bits (if f_marker fields then 1 else 0) 1 ;;;
       write_bits (Z.land crc 0x7F) 7
   | Pt2SeqId =>
       if rtp then
         write_bits 0x18 5 ;;;
         write_bits (Z.land (f_msn fields) 0x7F) 7 ;;;
         write_bits (Z.land (f_ip_id fields) 0x1F) 5 ;;;
         write_bits (Z.land crc 0x7F) 7
       else
         write_bits 0x06 3 ;;;
         write_bits (Z.land (f_ip_id fields) 0x3F) 6 ;;;
         write_bits (Z.land crc 0x7F) 7 ;;;
         write_bits (Z.land (f_msn fields) 0xFF) 8
   | Pt2SeqBoth =>
       guard rtp ;;;
       write_bits 0x19 5 ;;;
       write_bits (Z.land (f_msn fields) 0x7F) 7 ;;;
       write_bits (Z.land (f_ip_id fields) 0x1F) 5 ;;;
       write_bits (Z.land crc 0x7F) 7 ;;;
       write_bits (Z.land (f_ts_scaled fields) 0x7F) 7 ;;;
       write_bits (if f_marker fields then 1 else 0) 1
   | Pt2SeqTs =>
       guard rtp ;;;
       write_bits 0x0D 4 ;;;
       write_bits (Z.land (f_msn fields) 0x7F) 7 ;;;
       write_bits (Z.land (f_ts_scaled fields) 0x1F) 5 ;;;
       write_bits (if f_marker fields then 1 else 0) 1 ;;;
       write_bits (Z.land crc 0x7F) 7
   | CoCommon | CoRepair => guard false
   end) ;;;
  n <- gets bytes_written ;;
  guard (n =? base_len).

(** The reader over [base], and the packet it fills. *)
Definition rst : Type := BitReader * FormalCoPacket.

Definition read (bits : Z) : M rst Z := fun s =>
  match read_bits bits (fst s) with (o, r) => (o, (r, snd s)) end.
Definition store (f : FormalCoPacket -> FormalCoPacket) : M rst unit :=
  modify (fun s => (fst s, f (snd s))).

(** [if(reader.read_bits(n) != tag) return false], and the fields read. *)
Definition read_tag (bits tag : Z) : M rst unit := t <- read bits ;; guard (t =? tag).
Definition read_msn (bits : Z) : M rst unit := x <- read bits ;; store (fun p => p <| fp_msn := u16 x |>).
Definition read_ip_id (bits : Z) : M rst unit := x <- read bits ;; store (fun p => p <| fp_ip_id := u16 x |>).
Definition read_ts_scaled (bits : Z) : M rst unit :=
  x <- read bits ;; store (fun p => p <| fp_ts_scaled := u16 x |>).
Definition read_marker : M rst unit :=
  x <- read 1 ;; store (fun p => p <| fp_marker := negb (x =? 0) |>).
Definition read_crc (bits : Z) : M rst unit :=
  x <- read bits ;; store (fun p => p <| fp_header_crc := u8 x |>).

(** The state starts as [BitReader(base)] and the caller's packet. *)
Definition read_formal_co_base (base_len : Z) (p : Profile) (v : FormalCoVariant) : M rst unit :=
  guard (negb ((base_len =? 0) || negb (formal_co_variant_valid_for_profile p v))) ;;;
  let rtp := is_rtp_formal_co_profile p in
  store (fun q => q <| fp_variant := v |> <| fp_msn := 0 |> <| fp_ip_id := 0 |>
                    <| fp_ts_scaled := 0 |> <| fp_marker := false |>) ;;;
  (match v with
   | Pt0Crc3 => read_tag 1 0 ;;; read_msn 4 ;;; read_crc 3
   | Pt0Crc7 =>
       (if rtp then read_tag 4 0x08 ;;; read_msn 5 else read_tag 3 0x04 ;;; read_msn 6) ;;;
       read_crc 7
   | Pt1Rnd | Pt1SeqTs =>
       guard rtp ;;; read_tag 3 0x05 ;;;
       read_marker ;;; read_msn 4 ;;; read_ts_scaled 5 ;;; read_crc 3
   | Pt1SeqId =>
       if rtp then read_tag 4 0x09 ;;; read_ip_id 4 ;;; read_msn 5 ;;; read_crc 3
       else read_tag 3 0x05 ;;; read_crc 3 ;;; read_msn 6 ;;; read_ip_id 4
   | Pt2Rnd =>
       guard rtp ;;; read_tag 3 0x06 ;;;
       read_msn 7 ;;; read_ts_scaled 6 ;;; read_marker ;;; read_crc 7
   | Pt2SeqId =>
       if rtp then read_tag 5 0x18 ;;; read_msn 7 ;;; read_ip_id 5 ;;; read_crc 7
       else read_tag 3 0x06 ;;; read_ip_id 6 ;;; read_crc 7 ;;; read_msn 8
   | Pt2SeqBoth =>
       guard rtp ;;; read_tag 5 0x19 ;;;
       read_msn 7 ;;; read_ip_id 5 ;;; read_crc 7 ;;; read_ts_scaled 7 ;;; read_marker
   | Pt2SeqTs =>
       guard rtp ;;; read_tag 4 0x0D ;;;
       read_msn 7 ;;; read_ts_scaled 5 ;;; read_marker ;;; read_crc 7
   | CoCommon | CoRepair => guard false
   end) ;;;
  bitpos <- gets (fun s => br_bitpos (fst s)) ;;
  guard (Z.shiftr (bitpos + 7) 3 =? base_len).

(** The octets in front of the first one, and the large CID behind it. *)
Definition put_add_cid (cid_value : Z) (large_cid_space : bool) : M wst unit :=
  if negb large_cid_space && (0 <? cid_value) then put (u8 (Z.lor 0xE0 (Z.land cid_value 0x0F)))
  else ret tt.
Definition put_large_cid (cid_value : Z) (large_cid_space : bool) : M wst unit :=
  if large_cid_space then write_large cid_value else ret tt.

(** [required_len], of a packet of [n] octets besides its CID. *)
Definition required_len (cid_value : Z) (large_cid_space : bool) (n : Z) : Z :=
  (if negb large_cid_space && (0 <? cid_value) then 1 else 0) + 1 +
  (if large_cid_space then encoded_len cid_value else 0) + n.

Definition emit_formal_co (p : Profile) (v : FormalCoVariant) (cid_value : Z) (large_cid_space : bool)
    (fields : FormalCoFields) (crc_input : FormalCoCrcInput) : M wst unit :=
  guard (negb (negb (formal_co_variant_valid_for_profile p v) ||
               negb (is_valid_for_space cid_value large_cid_space) ||
               negb (formal_co_crc_input_valid crc_input))) ;;;
  let base_len := formal_co_base_len p v in
  guard (negb ((base_len =? 0) || (4 <? base_len))) ;;;
  crc <- lift (formal_co_header_crc v crc_input) ;;
  base <- lift (let! _ := fst (write_formal_co_base base_len p v fields crc
                                 {| bw_buf := repeat 0 4; bw_bitpos := 0 |}) in
                Ok (bw_buf (snd (write_formal_co_base base_len p v fields crc
                                 {| bw_buf := repeat 0 4; bw_bitpos := 0 |})))) ;;
  capacity <- gets room ;;
  guard (negb (capacity <? required_len cid_value large_cid_space (base_len - 1))) ;;;
  put_add_cid cid_value large_cid_space ;;;
  base0 <- lift (rd base 0) ;;
  put base0 ;;;
  put_large_cid cid_value large_cid_space ;;;
  if 1 <? base_len then
    rest <- lift (slice base 1 (base_len - 1)) ;;
    puts rest
  else ret tt.

(** What the decoders read in front of and behind the first octet. *)
Definition read_add_cid (inp : bytes) (large_cid_space : bool) : outcome (Z * Z) :=
  if large_cid_space then Ok (0, 0) else
  let! in0 := rd inp 0 in
  if Z.land in0 0xF0 =? 0xE0 then
    let decoded_cid := Z.land in0 0x0F in
    check negb ((decoded_cid =? 0) || (blen inp <? 2)) in
    Ok (1, decoded_cid)
  else Ok (0, 0).

(** The CID and its length behind position [pos]. *)
Definition read_large_cid (inp : bytes) (pos : Z) (large_cid_space : bool) (decoded_cid : Z) :
    outcome (Z * Z) :=
  if large_cid_space then
    let! t := tail_from inp pos in
    read_large t
  else Ok (decoded_cid, 0).

(** [*consumed], where the caller asks for it; else the octets must all be
    consumed. *)
Definition finish (inp : bytes) (pos : Z) (consumed : bool) : M FormalCoPacket Z :=
  guard (consumed || (pos =? blen inp)) ;;; ret pos.

(** The decoder from the first octet on, which is at [pos]. *)
Definition decode_formal_co_at (inp : bytes) (p : Profile) (v : FormalCoVariant) (large_cid_space : bool)
    (crc_input : FormalCoCrcInput) (consumed : bool) (pos add_cid : Z) : M FormalCoPacket Z :=
  let base_len := formal_co_base_len p v in
  guard (negb (blen inp <=? pos)) ;;;
  base0 <- lift (rd inp pos) ;;
  let pos := pos + 1 in
  l <- lift (read_large_cid inp pos large_cid_space add_cid) ;;
  let '(decoded_cid, decoded_cid_len) := l in
  let pos := pos + decoded_cid_len in
  guard (negb (usub (blen inp) pos <? base_len - 1)) ;;;
  rest <- lift (if 1 <? base_len then slice inp pos (base_len - 1) else Ok []) ;;
  let pos := pos + (base_len - 1) in
  base <- lift (overwrite (repeat 0 4) (base0 :: rest)) ;;
  modify (fun q => q <| fp_profile := p |> <| fp_cid := decoded_cid |>
                     <| fp_large_cid := large_cid_space |> <| fp_cid_len := decoded_cid_len |>) ;;;
  (fun q => match read_formal_co_base base_len p v (mk_bit_reader base default_byte_len, q) with
            | (o, s) => (o, snd s) end) ;;;
  q <- gets (fun q => q) ;;
  crc <- lift (formal_co_header_crc (fp_variant q) crc_input) ;;
  guard (fp_header_crc q =? crc) ;;;
  finish inp pos consumed.

Definition decode_formal_co (inp : bytes) (p : Profile) (v : FormalCoVariant) (large_cid_space : bool)
    (crc_input : FormalCoCrcInput) (consumed : bool) : M FormalCoPacket Z :=
  modify (fun _ => no_packet) ;;;
  guard (negb ((blen inp =? 0) || negb (formal_co_variant_valid_for_profile p v) ||
               negb (formal_co_crc_input_valid crc_input))) ;;;
  let base_len := formal_co_base_len p v in
  guard (negb ((base_len =? 0) || (4 <? base_len))) ;;;
  a <- lift (read_add_cid inp large_cid_space) ;;
  decode_formal_co_at inp p v large_cid_space crc_input consumed (fst a) (snd a).

Definition bit (b : bool) (v : Z) : Z := if b then v else 0.

(** The two octets behind the CID of a co_common packet. *)
Definition common_octets (p : Profile) (fields : FormalCoCommonFields) (header_crc control_crc : Z) : Z * Z :=
  if is_rtp_formal_co_profile p then
    (u8 (Z.lor (bit (f_common_marker fields) 0x80) (Z.land header_crc 0x7F)),
     u8 (Z.lor (Z.lor (Z.lor (Z.lor (Z.lor (bit (f_flags1 fields) 0x80)
           (bit (f_flags2 fields) 0x40)) (bit (f_tsc fields) 0x20)) (bit (f_tss fields) 0x10))
           (bit (f_ip_id_indicator fields) 0x08)) (Z.land control_crc 0x07)))
  else
    (u8 (Z.lor (bit (f_ip_id_indicator fields) 0x80) (Z.land header_crc 0x7F)),
     u8 (Z.lor (Z.lor (Z.lor (Z.lor (bit (f_flags fields) 0x80) (bit (f_ttl_hopl fields) 0x40))
           (bit (f_tos_tc fields) 0x20)) (Z.shiftl (Z.land (f_reorder_ratio fields) 0x03) 3))
           (Z.land control_crc 0x07))).

Definition put_bytes (b : FormalCoBytes) : M wst unit :=
  if 0 <? fb_len b then d <- lift (octets b) ;; puts d else ret tt.

Definition emit_formal_co_common (p : Profile) (cid_value : Z) (large_cid_space : bool)
    (fields : FormalCoCommonFields) (header_crc_input control_crc_input : FormalCoCrcInput) : M wst unit :=
  guard (negb (negb (formal_co_variant_valid_for_profile p CoCommon) ||
               negb (is_valid_for_space cid_value large_cid_space) ||
               negb (formal_co_crc_input_valid header_crc_input) ||
               negb (formal_co_crc_input_valid control_crc_input) ||
               negb (formal_co_bytes_valid (f_variable fields)) || (3 <? f_reorder_ratio fields))) ;;;
  capacity <- gets room ;;
  guard (negb (capacity <? required_len cid_value large_cid_space (2 + fb_len (f_variable fields)))) ;;;
  put_add_cid cid_value large_cid_space ;;;
  put 0xFA ;;;
  put_large_cid cid_value large_cid_space ;;;
  header_crc <- lift (formal_co_header_crc CoCommon header_crc_input) ;;
  control_crc <- lift (formal_co_control_crc control_crc_input) ;;
  let '(crc_octet, control_octet) := common_octets p fields header_crc control_crc in
  put crc_octet ;;;
  put control_octet ;;;
  put_bytes (f_variable fields).

(** The first octet [type], the CID and the two octets behind it, which
    co_common and co_repair share; the position behind them comes last. *)
Definition read_extended (inp : bytes) (type : Z) (large_cid_space : bool) : outcome (Z * Z * Z * Z * Z) :=
  let! a := read_add_cid inp large_cid_space in
  let '(pos, add_cid) := a in
  check negb (blen inp <=? pos) in
  let! in0 := rd inp pos in
  check in0 =? type in
  let pos := pos + 1 in
  let! l := read_large_cid inp pos large_cid_space add_cid in
  let '(decoded_cid, decoded_cid_len) := l in
  let pos := pos + decoded_cid_len in
  check negb (usub (blen inp) pos <? 2) in
  let! crc_octet := rd inp pos in
  let! control_octet := rd inp (pos + 1) in
  Ok (decoded_cid, decoded_cid_len, crc_octet, control_octet, pos + 2).

Definition decode_formal_co_common (inp : bytes) (p : Profile) (large_cid_space : bool)
    (header_crc_input control_crc_input : FormalCoCrcInput) : M FormalCoPacket Z :=
  modify (fun _ => no_packet) ;;;
  guard (negb ((blen inp =? 0) || negb (formal_co_variant_valid_for_profile p CoCommon) ||
               negb (formal_co_crc_input_valid header_crc_input) ||
               negb (formal_co_crc_input_valid control_crc_input))) ;;;
  e <- lift (read_extended inp 0xFA large_cid_space) ;;
  let '(decoded_cid, decoded_cid_len, crc_octet, control_octet, pos) := e in
  let flag o m := negb (Z.land o m =? 0) in
  modify (fun q => q <| fp_profile := p |> <| fp_variant := CoCommon |> <| fp_cid := decoded_cid |>
     <| fp_large_cid := large_cid_space |> <| fp_cid_len := decoded_cid_len |>
     <| fp_header_crc := u8 (Z.land crc_octet 0x7F) |>
     <| fp_control_crc3 := u8 (Z.land control_octet 0x07) |>) ;;;
  modify (fun q =>
    if is_rtp_formal_co_profile p then
      q <| fp_marker := flag crc_octet 0x80 |> <| fp_flags1_indicator := flag control_octet 0x80 |>
        <| fp_flags2_indicator := flag control_octet 0x40 |> <| fp_tsc_indicator := flag control_octet 0x20 |>
        <| fp_tss_indicator := flag control_octet 0x10 |> <| fp_ip_id_indicator := flag control_octet 0x08 |>
    else
      q <| fp_ip_id_indicator := flag crc_octet 0x80 |> <| fp_flags_indicator := flag control_octet 0x80 |>
        <| fp_ttl_hopl_indicator := flag control_octet 0x40 |> <| fp_tos_tc_indicator := flag control_octet 0x20 |>
        <| fp_reorder_ratio := u8 (Z.land (Z.shiftr control_octet 3) 0x03) |>) ;;;
  q <- gets (fun q => q) ;;
  header_crc <- lift (formal_co_header_crc CoCommon header_crc_input) ;;
  guard (fp_header_crc q =? header_crc) ;;;
  control_crc <- lift (formal_co_control_crc control_crc_input) ;;
  guard (fp_control_crc3 q =? control_crc) ;;;
  modify (fun q => q <| fp_variable_offset := pos |> <| fp_variable_len := usub (blen inp) pos |>) ;;;
  ret (blen inp).

Definition emit_formal_co_repair (p : Profile) (cid_value : Z) (large_cid_space : bool)
    (fields : FormalCoRepairFields) (header_crc_input control_crc_input : FormalCoCrcInput) : M wst unit :=
  guard (negb (negb (formal_co_variant_valid_for_profile p CoRepair) ||
               negb (is_valid_for_space cid_value large_cid_space) ||
               negb (formal_co_crc_input_valid header_crc_input) ||
               negb (formal_co_crc_input_valid control_crc_input) ||
               negb (formal_co_bytes_valid fields))) ;;;
  capacity <- gets room ;;
  guard (negb (capacity <? required_len cid_value large_cid_space (2 + fb_len fields))) ;;;
  put_add_cid cid_value large_cid_space ;;;
  put 0xFB ;;;
  put_large_cid cid_value large_cid_space ;;;
  header_crc <- lift (formal_co_header_crc CoRepair header_crc_input) ;;
  put header_crc ;;;
  control_crc <- lift (formal_co_control_crc control_crc_input) ;;
  put control_crc ;;;
  put_bytes fields.

Definition decode_formal_co_repair (inp : bytes) (p : Profile) (large_cid_space : bool)
    (header_crc_input control_crc_input : FormalCoCrcInput) : M FormalCoPacket Z :=
  modify (fun _ => no_packet) ;;;
  guard (negb ((blen inp =? 0) || negb (formal_co_variant_valid_for_profile p CoRepair) ||
               negb (formal_co_crc_input_valid header_crc_input) ||
               negb (formal_co_crc_input_valid control_crc_input))) ;;;
  e <- lift (read_extended inp 0xFB large_cid_space) ;;
  let '(decoded_cid, decoded_cid_len, crc_octet, control_octet, pos) := e in
  guard (negb (negb (Z.land crc_octet 0x80 =? 0) || negb (Z.land control_octet 0xF8 =? 0))) ;;;
  modify (fun q => q <| fp_profile := p |> <| fp_variant := CoRepair |> <| fp_cid := decoded_cid |>
     <| fp_large_cid := large_cid_space |> <| fp_cid_len := decoded_cid_len |>
     <| fp_header_crc := u8 (Z.land crc_octet 0x7F) |>
     <| fp_control_crc3 := u8 (Z.land control_octet 0x07) |>) ;;;
  q <- gets (fun q => q) ;;
  header_crc <- lift (formal_co_header_crc CoRepair header_crc_input) ;;
  guard (fp_header_crc q =? header_crc) ;;;
  control_crc <- lift (formal_co_control_crc control_crc_input) ;;
  guard (fp_control_crc3 q =? control_crc) ;;;
  modify (fun q => q <| fp_variable_offset := pos |> <| fp_variable_len := usub (blen inp) pos |>) ;;;
  ret (blen inp).

Definition emit_formal_co_pt0 (p : Profile) (v : FormalCoVariant) (cid_value : Z) (large_cid_space : bool)
    (msn : Z) (crc_input : FormalCoCrcInput) : M wst unit :=
  guard (negb (negb (is_supported_formal_co_profile p) || negb (is_valid_for_space cid_value large_cid_space) ||
               negb (formal_co_crc_input_valid crc_input))) ;;;
  capacity <- gets room ;;
  guard (negb (capacity <? required_len cid_value large_cid_space (formal_co_pt0_base_len v - 1))) ;;;
  put_add_cid cid_value large_cid_space ;;;
  crc <- lift (formal_co_header_crc v crc_input) ;;
  if decide (v = Pt0Crc3) then
    put (u8 (Z.lor (Z.shiftl (Z.land msn 0x0F) 3) (Z.land crc 0x07))) ;;;
    put_large_cid cid_value large_cid_space
  else if is_rtp_formal_co_profile p then
    let msn_lsb := u8 (Z.land msn 0x1F) in
    put (u8 (Z.lor 0x80 (Z.land (Z.shiftr msn_lsb 1) 0x0F))) ;;;
    put_large_cid cid_value large_cid_space ;;;
    put (u8 (Z.lor (Z.shiftl (Z.land msn_lsb 0x01) 7) (Z.land crc 0x7F)))
  else
    let msn_lsb := u8 (Z.land msn 0x3F) in
    put (u8 (Z.lor 0x80 (Z.land (Z.shiftr msn_lsb 1) 0x1F))) ;;;
    put_large_cid cid_value large_cid_space ;;;
    put (u8 (Z.lor (Z.shiftl (Z.land msn_lsb 0x01) 7) (Z.land crc 0x7F))).

(** The PT-0 decoder from the first octet on. *)
Definition decode_formal_co_pt0_at (inp : bytes) (p : Profile) (large_cid_space : bool)
    (crc_input : FormalCoCrcInput) (consumed : bool) (has_add_cid : bool) (pos add_cid : Z) : M FormalCoPacket Z :=
  first <- lift (rd inp pos) ;;
  let pos := pos + 1 in
  l <- lift (read_large_cid inp pos large_cid_space add_cid) ;;
  let '(decoded_cid, decoded_cid_len) := l in
  let pos := pos + decoded_cid_len in
  modify (fun q => q <| fp_profile := p |> <| fp_cid := decoded_cid |>
                     <| fp_large_cid := large_cid_space |> <| fp_cid_len := decoded_cid_len |>) ;;;
  if Z.land first 0x80 =? 0 then
    modify (fun q => q <| fp_variant := Pt0Crc3 |> <| fp_msn := u16 (Z.land (Z.shiftr first 3) 0x0F) |>
                       <| fp_header_crc := u8 (Z.land first 0x07) |>) ;;;
    q <- gets (fun q => q) ;;
    crc <- lift (formal_co_header_crc (fp_variant q) crc_input) ;;
    guard (fp_header_crc q =? crc) ;;;
    finish inp pos consumed
  else
    modify (fun q => q <| fp_variant := Pt0Crc7 |>) ;;;
    guard (negb (blen inp <=? pos)) ;;;
    tail <- lift (rd inp pos) ;;
    let pos := pos + 1 in
    (if is_rtp_formal_co_profile p then
       guard (Z.land first 0xF0 =? 0x80) ;;;
       modify (fun q => q <| fp_msn := u16 (Z.lor (Z.shiftl (Z.land first 0x0F) 1) (Z.land (Z.shiftr tail 7) 0x01)) |>)
     else
       guard (Z.land first 0xE0 =? 0x80) ;;;
       modify (fun q => q <| fp_msn := u16 (Z.lor (Z.shiftl (Z.land first 0x1F) 1) (Z.land (Z.shiftr tail 7) 0x01)) |>)) ;;;
    modify (fun q => q <| fp_header_crc := u8 (Z.land tail 0x7F) |>) ;;;
    q <- gets (fun q => q) ;;
    crc <- lift (formal_co_header_crc (fp_variant q) crc_input) ;;
    guard (fp_header_crc q =? crc) ;;;
    guard (negb (has_add_cid && (fp_cid q =? 0))) ;;;
    finish inp pos consumed.

Definition decode_formal_co_pt0 (inp : bytes) (p : Profile) (large_cid_space : bool)
    (crc_input : FormalCoCrcInput) (consumed : bool) : M FormalCoPacket Z :=
  modify (fun _ => no_packet) ;;;
  guard (negb ((blen inp =? 0) || negb (is_supported_formal_co_profile p) ||
               negb (formal_co_crc_input_valid crc_input))) ;;;
  a <- lift (if large_cid_space then Ok (false, 0) else
             let! in0 := rd inp 0 in
             if Z.land in0 0xF0 =? 0xE0 then
               check negb (blen inp <? 2) in Ok (true, Z.land in0 0x0F)
             else Ok (false, 0)) ;;
  decode_formal_co_pt0_at inp p large_cid_space crc_input consumed (fst a) (if fst a : bool then 1 else 0) (snd a).

(** * The formats *)

Definition low (n x : Z) : Z := x mod 2 ^ n.

Definition crc_bits (v : FormalCoVariant) : Z := if formal_co_variant_uses_crc3 v then 3 else 7.

(** The bit fields of a format, as values and widths: its tag, and then the
    low bits of the fields in the order of the format. *)
Definition layout (p : Profile) (v : FormalCoVariant) (fields : FormalCoFields) (crc : Z) : list (Z * Z) :=
  let field n x := (low n x, n) in
  let msn := field (formal_co_msn_lsb_bits p v) (f_msn fields) in
  let ip_id := field (formal_co_ip_id_lsb_bits p v) (f_ip_id fields) in
  let ts := field (formal_co_ts_scaled_lsb_bits p v) (f_ts_scaled fields) in
  let marker := (if f_marker fields then 1 else 0, 1) in
  let crc := field (crc_bits v) crc in
  let rtp := is_rtp_formal_co_profile p in
  match v with
  | Pt0Crc3 => [(0, 1); msn; crc]
  | Pt0Crc7 => if rtp then [(8, 4); msn; crc] else [(4, 3); msn; crc]
  | Pt1Rnd | Pt1SeqTs => [(5, 3); marker; msn; ts; crc]
  | Pt1SeqId => if rtp then [(9, 4); ip_id; msn; crc] else [(5, 3); crc; msn; ip_id]
  | Pt2Rnd => [(6, 3); msn; ts; marker; crc]
  | Pt2SeqId => if rtp then [(24, 5); msn; ip_id; crc] else [(6, 3); ip_id; crc; msn]
  | Pt2SeqBoth => [(25, 5); msn; ip_id; crc; ts; marker]
  | Pt2SeqTs => [(13, 4); msn; ts; marker; crc]
  | CoCommon | CoRepair => []
  end.

(** A compressed format, as against co_common and co_repair. *)
Definition is_format (p : Profile) (v : FormalCoVariant) : Prop :=
  formal_co_variant_valid_for_profile p v = true /\ v <> CoCommon /\ v <> CoRepair.

Lemma low_bound n x : 0 <= n -> 0 <= low n x < 2 ^ n.
Proof. intros. apply Z.mod_pos_bound. lia. Qed.

Lemma low_mask n x : 0 <= n -> Z.land x (Z.ones n) = low n x.
Proof. intros. by apply Z.land_ones. Qed.

Lemma low_3 x : Z.land x 0x07 = low 3 x. Proof. by apply (low_mask 3). Qed.
Lemma low_4 x : Z.land x 0x0F = low 4 x. Proof. by apply (low_mask 4). Qed.
Lemma low_5 x : Z.land x 0x1F = low 5 x. Proof. by apply (low_mask 5). Qed.
Lemma low_6 x : Z.land x 0x3F = low 6 x. Proof. by apply (low_mask 6). Qed.
Lemma low_7 x : Z.land x 0x7F = low 7 x. Proof. by apply (low_mask 7). Qed.
Lemma low_8 x : Z.land x 0xFF = low 8 x. Proof. by apply (low_mask 8). Qed.

(** Case analysis over the formats of a profile. *)
Ltac formats p v H :=
  destruct H as (H & ? & ?); destruct p; try discriminate H; destruct v; try discriminate H; try congruence; clear H.

Lemma layout_ok p v fields crc : is_format p v -> fields_ok (layout p v fields crc).
Proof.
  intros H. assert (Hf : forall n x, 0 <= n <= 32 -> 0 <= n <= 32 /\ 0 <= low n x < 2 ^ n).
  { intros n x Hn. split; [done|]. apply low_bound. lia. }
  assert (Hm : 0 <= 1 <= 32 /\ 0 <= (if f_marker fields then 1 else 0) < 2 ^ 1) by (destruct (f_marker fields); lia).
  unfold fields_ok. formats p v H; repeat (apply Forall_cons_2); try apply Forall_nil_2;
    first [exact Hm | apply Hf; vm_compute; split; discriminate | vm_compute; repeat split; discriminate].
Qed.

Lemma layout_bits p v fields crc : is_format p v ->
  total_bits (layout p v fields crc) = 8 * formal_co_base_len p v /\ 1 <= formal_co_base_len p v <= 4.
Proof. intros H. formats p v H; (split; [reflexivity|vm_compute; split; discriminate]). Qed.

(** * Writing and reading a format *)

Lemma write_field_then {B} v k (m : M BitWriter unit) fs (K : unit -> M BitWriter B) w :
  (forall w, (x <- m ;; K x) w = (x <- write_fields fs ;; K x) w) ->
  (x <- (write_bits v k ;;; m) ;; K x) w = (x <- write_fields ((v, k) :: fs) ;; K x) w.
Proof.
  intros H. cbn [write_fields]. rewrite !bind_assoc. unfold bind at 1 3.
  destruct (write_bits v k w) as [[[]| |] w']; [|done|done]. apply H.
Qed.

Lemma write_field_last {B} v k (K : unit -> M BitWriter B) w :
  (x <- write_bits v k ;; K x) w = (x <- write_fields [(v, k)] ;; K x) w.
Proof.
  cbn [write_fields]. rewrite bind_assoc. unfold bind at 1 2.
  by destruct (write_bits v k w) as [[[]| |] w'].
Qed.

Lemma guard_then {B} (m : M BitWriter unit) (K : unit -> M BitWriter B) w :
  (x <- (guard true ;;; m) ;; K x) w = (x <- m ;; K x) w.
Proof. done. Qed.

Ltac eval_rtp :=
  repeat match goal with |- context [is_rtp_formal_co_profile ?p] =>
    let b := eval vm_compute in (is_rtp_formal_co_profile p) in
    change (is_rtp_formal_co_profile p) with b end; cbv iota.

Lemma write_base p v fields crc : is_format p v ->
  exists base, write_formal_co_base (formal_co_base_len p v) p v fields crc
      {| bw_buf := repeat 0 4; bw_bitpos := 0 |} =
      (Ok tt, {| bw_buf := base; bw_bitpos := 8 * formal_co_base_len p v |}) /\
    length base = 4%nat /\ bytes_ok base /\ holds base 0 (layout p v fields crc).
Proof.
  intros H. pose proof (layout_ok p v fields crc H) as Hok. destruct (layout_bits p v fields crc H) as [Hb Hl].
  assert (Hz : bytes_ok (repeat 0 4)) by (repeat constructor; unfold byte_ok; lia).
  destruct (write_fields_at (layout p v fields crc) (repeat 0 4) 0 Hok Hz ltac:(lia)) as (base & E & H1 & H2 & H3 & _ & _).
  { rewrite Hb. change (blen (repeat 0 4)) with 4. lia. }
  { intros i _. apply holds_repeat0. }
  exists base. split; [|done]. rewrite Hb in E. clear Hok Hb Hl H1 H2 H3.
  unfold write_formal_co_base. formats p v H; do 4 (erewrite bind_ok by reflexivity); eval_rtp;
    (etransitivity;
     [first [rewrite guard_then|idtac]; repeat (apply write_field_then; intros); apply write_field_last|];
     rewrite ?low_3, ?low_4, ?low_5, ?low_6, ?low_7, ?low_8; erewrite bind_ok by exact E; reflexivity).
Qed.

(** The reader of [base] at bit [pos]. *)
Definition reader_at (base : bytes) (pos : Z) : BitReader :=
  {| br_buf := base; br_bit_len := default_byte_len * 8; br_bitpos := pos; br_valid := true |}.

Lemma reader_start base : mk_bit_reader base default_byte_len = reader_at base 0.
Proof. done. Qed.

Section Reading.
Context (base : bytes) (q : FormalCoPacket) (Hlen : length base = 4%nat).

Lemma read_at pos k x : 0 <= k <= 8 -> 0 <= x < 2 ^ k -> 0 <= pos -> pos + k <= 32 ->
  bits_at base pos (Z.to_nat k) = bits_of x (Z.to_nat k) ->
  read k (reader_at base pos, q) = (Ok x, (reader_at base (pos + k), q)).
Proof.
  intros Hk Hx Hp Hl H. unfold read. cbn [fst snd]. unfold reader_at.
  rewrite (read_bits_at base _ pos x k); [done|lia|done|done| |unfold blen; lia|done].
  change (default_byte_len * 8) with 18446744073709551608. lia.
Qed.

Lemma small_field k x : 0 <= k <= 8 -> 0 <= x < 2 ^ k -> u8 x = x /\ u16 x = x.
Proof.
  intros Hk Hx. assert (2 ^ k <= 2 ^ 8) by (apply Z.pow_le_mono_r; lia).
  split; apply Z.mod_small; lia.
Qed.

Context (pos k x : Z) (Hk : 0 <= k <= 8) (Hx : 0 <= x < 2 ^ k) (Hp : 0 <= pos) (Hl : pos + k <= 32)
  (Hb : bits_at base pos (Z.to_nat k) = bits_of x (Z.to_nat k)).

Lemma read_tag_at tag : tag = x ->
  read_tag k tag (reader_at base pos, q) = (Ok tt, (reader_at base (pos + k), q)).
Proof. intros ->. unfold read_tag. erewrite bind_ok by (by apply read_at). by rewrite Z.eqb_refl. Qed.

Ltac read_field_tac u :=
  unfold u; erewrite bind_ok by (by apply read_at); unfold store; cbv [modify]; cbn [fst snd];
  destruct (small_field k x Hk Hx) as [E8 E16]; rewrite ?E8, ?E16; done.

Lemma read_msn_at :
  read_msn k (reader_at base pos, q) = (Ok tt, (reader_at base (pos + k), q <| fp_msn := x |>)).
Proof. read_field_tac read_msn. Qed.
Lemma read_ip_id_at :
  read_ip_id k (reader_at base pos, q) = (Ok tt, (reader_at base (pos + k), q <| fp_ip_id := x |>)).
Proof. read_field_tac read_ip_id. Qed.
Lemma read_ts_scaled_at :
  read_ts_scaled k (reader_at base pos, q) = (Ok tt, (reader_at base (pos + k), q <| fp_ts_scaled := x |>)).
Proof. read_field_tac read_ts_scaled. Qed.
Lemma read_crc_at :
  read_crc k (reader_at base pos, q) = (Ok tt, (reader_at base (pos + k), q <| fp_header_crc := x |>)).
Proof. read_field_tac read_crc. Qed.
End Reading.

Lemma read_marker_at base q pos (m : bool) : length base = 4%nat -> 0 <= pos -> pos + 1 <= 32 ->
  bits_at base pos (Z.to_nat 1) = bits_of (if m then 1 else 0) (Z.to_nat 1) ->
  read_marker (reader_at base pos, q) = (Ok tt, (reader_at base (pos + 1), q <| fp_marker := m |>)).
Proof.
  intros Hlen Hp Hl Hb. unfold read_marker.
  erewrite bind_ok by (apply (read_at base q Hlen pos 1 (if m then 1 else 0)); [lia|by destruct m|done|done|done]).
  by destruct m.
Qed.

(** The packet [q] with what a format holds. *)
Definition filled (p : Profile) (v : FormalCoVariant) (fields : FormalCoFields) (crc : Z) (q : FormalCoPacket) :
    FormalCoPacket :=
  q <| fp_variant := v |>
    <| fp_msn := low (formal_co_msn_lsb_bits p v) (f_msn fields) |>
    <| fp_ip_id := low (formal_co_ip_id_lsb_bits p v) (f_ip_id fields) |>
    <| fp_ts_scaled := low (formal_co_ts_scaled_lsb_bits p v) (f_ts_scaled fields) |>
    <| fp_marker := formal_co_variant_has_marker v && f_marker fields |>
    <| fp_header_crc := low (crc_bits v) crc |>.

Lemma low_0 x : low 0 x = 0.
Proof. apply Z.mod_1_r. Qed.

(** The side conditions of a field at a known place. *)
Ltac field_side :=
  first [reflexivity | assumption | apply low_bound; vm_compute; discriminate
        | vm_compute; split; congruence | vm_compute; congruence].

(** Reads the next field of the layout, [Hh], at the place it is. *)
Ltac read_step base Hlen Hh :=
  lazymatch type of Hh with _ /\ _ => idtac end;
  let B := fresh in
  destruct Hh as [B Hh]; rewrite ?bind_assoc;
  lazymatch goal with
  | |- bind (read_tag _ _) _ _ = _ => erewrite bind_ok by (refine (read_tag_at base _ Hlen _ _ _ _ _ _ _ B _ _); field_side)
  | |- bind (read_msn _) _ _ = _ => erewrite bind_ok by (refine (read_msn_at base _ Hlen _ _ _ _ _ _ _ B); field_side)
  | |- bind (read_ip_id _) _ _ = _ => erewrite bind_ok by (refine (read_ip_id_at base _ Hlen _ _ _ _ _ _ _ B); field_side)
  | |- bind (read_ts_scaled _) _ _ = _ => erewrite bind_ok by (refine (read_ts_scaled_at base _ Hlen _ _ _ _ _ _ _ B); field_side)
  | |- bind (read_crc _) _ _ = _ => erewrite bind_ok by (refine (read_crc_at base _ Hlen _ _ _ _ _ _ _ B); field_side)
  | |- bind read_marker _ _ = _ => erewrite bind_ok by (refine (read_marker_at base _ _ _ Hlen _ _ B); field_side)
  end; clear B.

(** The fields of a known format, one after the other. *)
Ltac open_layout Hh :=
  unfold layout in Hh;
  match type of Hh with holds _ _ ?l => let l' := eval cbv beta iota zeta in l in
    match l' with
    | (if ?b then _ else _) => let b' := eval vm_compute in b in change b with b' in Hh; cbv iota zeta beta in Hh
    | _ => idtac
    end
  end; cbn [holds] in Hh.

(** The widths of a known format. *)
Ltac eval_widths :=
  repeat match goal with
  | |- context [formal_co_ip_id_lsb_bits ?p ?v] =>
      let n := eval vm_compute in (formal_co_ip_id_lsb_bits p v) in change (formal_co_ip_id_lsb_bits p v) with n
  | |- context [formal_co_ts_scaled_lsb_bits ?p ?v] =>
      let n := eval vm_compute in (formal_co_ts_scaled_lsb_bits p v) in change (formal_co_ts_scaled_lsb_bits p v) with n
  end.

Lemma read_base p v fields crc base q : is_format p v -> length base = 4%nat ->
  holds base 0 (layout p v fields crc) ->
  exists r, read_formal_co_base (formal_co_base_len p v) p v (reader_at base 0, q) =
    (Ok tt, (r, filled p v fields crc q)).
Proof.
  intros H Hlen Hh. exists (reader_at base (8 * formal_co_base_len p v)).
  unfold read_formal_co_base. formats p v H; do 2 (erewrite bind_ok by reflexivity); eval_rtp;
    open_layout Hh; cbn [fst snd]; rewrite ?bind_assoc;
    try (lazymatch goal with |- bind (guard true) _ _ = _ => erewrite bind_ok by reflexivity end);
    repeat read_step base Hlen Hh; unfold filled; eval_widths; rewrite ?low_0; reflexivity.
Qed.

(** * The CID around the first octet *)

Definition add_cid_octets (cid_value : Z) (large : bool) : bytes :=
  if negb large && (0 <? cid_value) then [0xE0 + cid_value] else [].
Definition large_cid_part (cid_value : Z) (large : bool) : bytes :=
  if large then large_octets cid_value else [].

(** A packet with its first octet, and what follows the CID. *)
Definition frame (cid_value : Z) (large : bool) (b0 : Z) (rest : bytes) : bytes :=
  add_cid_octets cid_value large ++ [b0] ++ large_cid_part cid_value large ++ rest.

Definition cid_len_of (cid_value : Z) (large : bool) : Z := if large then encoded_len cid_value else 0.

Section Cids.
Context (cid_value : Z) (large : bool) (Hcid : 0 <= cid_value) (Hv : is_valid_for_space cid_value large = true).

Lemma cid_bounds : (large = true -> cid_value <= large_cid_max) /\ (large = false -> cid_value <= 15).
Proof.
  unfold is_valid_for_space, is_small, small_cid_max in Hv. destruct large; bool_prop; split; (done || lia).
Qed.

Lemma frame_len b0 rest : blen (frame cid_value large b0 rest) = required_len cid_value large (blen rest).
Proof.
  unfold frame, required_len, add_cid_octets, large_cid_part. rewrite !blen_app.
  destruct large; cbn [negb andb].
  - rewrite large_octets_len. change (blen [b0]) with 1. change (blen []) with 0. lia.
  - change (blen [b0]) with 1. destruct (0 <? cid_value); [change (blen [_]) with 1|]; change (blen []) with 0; lia.
Qed.

Lemma emits_co_add_cid : emits (put_add_cid cid_value large) (blen (add_cid_octets cid_value large))
  (Some (add_cid_octets cid_value large)).
Proof.
  pose proof cid_bounds as [_ H]. unfold put_add_cid, add_cid_octets.
  destruct large; cbn [negb andb]; [apply emits_ret|].
  destruct (Z.ltb_spec 0 cid_value); [|apply emits_ret].
  specialize (H eq_refl). rewrite low_4. unfold low. rewrite Z.mod_small by lia.
  pose proof (lor_disjoint_add 14 cid_value 4 ltac:(lia) ltac:(lia)) as E.
  change (Z.shiftl 14 4) with 0xE0 in E. rewrite E, u8_small by (unfold byte_ok; lia).
  apply emits_put.
Qed.

Lemma emits_large_part : emits (put_large_cid cid_value large) (blen (large_cid_part cid_value large))
  (Some (large_cid_part cid_value large)).
Proof.
  pose proof cid_bounds as [H _]. unfold put_large_cid, large_cid_part. destruct large; [|apply emits_ret].
  specialize (H eq_refl). rewrite large_octets_len. intros s Hr. split; [by rewrite large_octets_len|].
  by apply write_large_ok.
Qed.

(** A packet is emitted around its first octet [b0] and its tail. *)
Lemma emits_co_frame b0 tail rest n : emits tail n (Some rest) -> n = blen rest ->
  emits (put_add_cid cid_value large ;;; put b0 ;;; put_large_cid cid_value large ;;; tail)
    (required_len cid_value large n) (Some (frame cid_value large b0 rest)).
Proof.
  intros Ht ->. rewrite <- (frame_len b0). unfold frame. rewrite !blen_app. change (blen [b0]) with 1.
  pose proof (blen_nonneg rest). pose proof (blen_nonneg (large_cid_part cid_value large)).
  apply (emits_seq _ _ _ _ (Some _) (Some _)); [apply emits_co_add_cid| |lia].
  apply (emits_seq _ _ _ _ (Some [_]) (Some _)); [apply emits_put| |lia].
  by apply (emits_seq _ _ _ _ (Some _) (Some _)); [apply emits_large_part| |].
Qed.

(** The decoders find their way around the CID. *)
Lemma read_frame b0 rest (inp := frame cid_value large b0 rest) (pos := blen (add_cid_octets cid_value large)) :
  (Z.land b0 0xF0 <> 0xE0 -> read_add_cid inp large = Ok (pos, if large then 0 else cid_value)) /\
  pos < blen inp /\ rd inp pos = Ok b0 /\
  read_large_cid inp (pos + 1) large (if large then 0 else cid_value) = Ok (cid_value, cid_len_of cid_value large) /\
  suffix_at inp (pos + 1 + cid_len_of cid_value large) rest.
Proof.
  pose proof cid_bounds as [Hl Hs]. pose proof (blen_nonneg rest) as Hr.
  assert (Hd : suffix_at inp (pos + 1) (large_cid_part cid_value large ++ rest)).
  { exists (add_cid_octets cid_value large ++ [b0]). unfold inp, frame. rewrite <- app_assoc. split; [done|].
    rewrite blen_app. done. }
  assert (Hcl : blen (large_cid_part cid_value large) = cid_len_of cid_value large).
  { unfold large_cid_part, cid_len_of. destruct large; [apply large_octets_len|done]. }
  split_and!.
  - intros Hb. unfold read_add_cid, inp, pos, frame, add_cid_octets. destruct large; [done|]. specialize (Hs eq_refl).
    cbn [negb andb]. destruct (Z.ltb_spec 0 cid_value).
    + change (rd ([0xE0 + cid_value] ++ _) 0) with (Ok (0xE0 + cid_value)). cbn [obind].
      assert (E : Z.land (0xE0 + cid_value) 0xF0 = 0xE0 /\ Z.land (0xE0 + cid_value) 0x0F = cid_value).
      { pose proof (byte_forall (fun x => negb (x <=? 15) || ((Z.land (0xE0 + x) 0xF0 =? 0xE0) && (Z.land (0xE0 + x) 0x0F =? x)))
          ltac:(vm_compute; reflexivity) cid_value ltac:(unfold byte_ok; lia)) as D. cbv beta in D.
        rewrite (proj2 (Z.leb_le _ 15)) in D by lia. cbn [negb orb] in D. by bool_prop. }
      destruct E as [-> ->]. rewrite Z.eqb_refl, (proj2 (Z.eqb_neq cid_value 0)) by lia.
      rewrite (proj2 (Z.ltb_ge _ 2)) by (cbn [app large_cid_part]; blen_lia). done.
    + change (rd ([] ++ [b0] ++ _) 0) with (Ok b0). cbn [obind]. rewrite (proj2 (Z.eqb_neq _ 0xE0)) by done.
      by replace cid_value with 0 by lia.
  - apply suffix_at_len in Hd as [_ Hd]. rewrite blen_app in Hd. pose proof (blen_nonneg (large_cid_part cid_value large)). lia.
  - unfold inp, frame. apply rd_app_0.
  - unfold read_large_cid, cid_len_of. destruct Hd as (pre & E & Hp).
    destruct large; [|done]. specialize (Hl eq_refl). unfold large_cid_part in E. rewrite E, <- Hp, tail_from_app.
    cbn [obind]. by apply read_large_octets.
  - rewrite <- Hcl. by apply suffix_at_app.
Qed.
End Cids.

(** * Round trips *)

(** A format never starts like an Add-CID octet. *)
Lemma first_octet p v fields crc b0 base : is_format p v -> byte_ok b0 ->
  holds (b0 :: base) 0 (layout p v fields crc) -> Z.land b0 0xF0 <> 0xE0.
Proof.
  intros H Hb Hh E.
  pose proof (byte_forall (fun x => negb (Z.land x 0xF0 =? 0xE0) || (Z.testbit x 7 && Z.testbit x 6 && Z.testbit x 5))
    ltac:(vm_compute; reflexivity) b0 Hb) as D. cbv beta in D. rewrite E in D. cbn [negb orb] in D.
  change (0xE0 =? 0xE0) with true in D. cbn [negb orb] in D. bool_prop.
  assert (B0 : bit_at (b0 :: base) 0 = true) by done. assert (B1 : bit_at (b0 :: base) (0 + 1) = true) by done.
  assert (B2 : bit_at (b0 :: base) (0 + 1 + 1) = true) by done.
  formats p v H; open_layout Hh; destruct Hh as [Ht _]; cbn in Ht; injection Ht; congruence.
Qed.

(** The CRC input reads as the octets [o]. *)
Definition reads (i : FormalCoCrcInput) (o : bytes) : Prop :=
  formal_co_bytes_valid i = true /\ octets i = Ok o /\ bytes_ok o.

Lemma header_crc_reads v i o : reads i o ->
  formal_co_crc_input_valid i = true /\
  formal_co_header_crc v i = Ok (if formal_co_variant_uses_crc3 v then crc3 o else crc7 o) /\
  0 <= (if formal_co_variant_uses_crc3 v then crc3 o else crc7 o) < 2 ^ crc_bits v.
Proof.
  intros (Hv & E & Ho). pose proof (crc3_bound o Ho). pose proof (crc7_bound o Ho).
  unfold formal_co_header_crc, crc_bits. rewrite E. cbn [obind]. split; [done|].
  destruct (formal_co_variant_uses_crc3 v); [done|]. split; [|done]. f_equal.
  rewrite low_7. unfold low. rewrite Z.mod_small, u8_small by (unfold byte_ok; lia). done.
Qed.

Lemma control_crc_reads i o : reads i o -> formal_co_control_crc i = Ok (crc3 o) /\ 0 <= crc3 o < 8.
Proof.
  intros (Hv & E & Ho). pose proof (crc3_bound o Ho) as H. unfold formal_co_control_crc. rewrite E. cbn [obind].
  split; [|done]. f_equal. rewrite low_3. unfold low. rewrite Z.mod_small, u8_small by (unfold byte_ok; lia). done.
Qed.

(** The four octets of [base] that start with those of a packet. *)
Definition base_octets (b0 : Z) (rest : bytes) : bytes := b0 :: rest ++ repeat 0 (4 - length (b0 :: rest)).

(** What a format puts in a packet. *)
Definition decoded (p : Profile) (v : FormalCoVariant) (cid_value : Z) (large : bool) (fields : FormalCoFields)
    (crc : Z) : FormalCoPacket :=
  filled p v fields crc
    (no_packet <| fp_profile := p |> <| fp_cid := cid_value |> <| fp_large_cid := large |>
               <| fp_cid_len := cid_len_of cid_value large |>).

Lemma emit_run p v cid_value large fields i o cap : is_format p v -> 0 <= cid_value ->
  is_valid_for_space cid_value large = true -> reads i o ->
  let n := required_len cid_value large (formal_co_base_len p v - 1) in
  exists base0 rest,
    length (base0 :: rest) = Z.to_nat (formal_co_base_len p v) /\ bytes_ok (base0 :: rest) /\
    holds (base_octets base0 rest) 0
      (layout p v fields (if formal_co_variant_uses_crc3 v then crc3 o else crc7 o)) /\
    if n <=? cap then
      emit_formal_co p v cid_value large fields i {| w_out := []; w_cap := cap |} =
        (Ok tt, {| w_out := frame cid_value large base0 rest; w_cap := cap |})
    else fst (emit_formal_co p v cid_value large fields i {| w_out := []; w_cap := cap |}) = Rej.
Proof.
  intros H Hc Hs Hr n. set (crc := if formal_co_variant_uses_crc3 v then crc3 o else crc7 o).
  destruct (header_crc_reads v i o Hr) as (Hv & Ec & Hcrc). fold crc in Ec, Hcrc.
  destruct (write_base p v fields crc H) as (base & Eb & Hlb & Hb & Hh).
  destruct (layout_bits p v fields crc H) as [Ht Hl]. pose proof (layout_ok p v fields crc H) as Hok.
  set (bl := formal_co_base_len p v) in *.
  destruct base as [|base0 base]; [done|]. cbn [length] in Hlb.
  exists base0, (take (Z.to_nat (bl - 1)) base).
  assert (Lr : length (base0 :: take (Z.to_nat (bl - 1)) base) = Z.to_nat bl).
  { cbn [length]. rewrite length_take. lia. }
  assert (Et : base0 :: take (Z.to_nat (bl - 1)) base = take (Z.to_nat bl) (base0 :: base)).
  { replace (Z.to_nat bl) with (S (Z.to_nat (bl - 1))) by lia. done. }
  split; [exact Lr|]. split; [rewrite Et; by apply bytes_ok_take|]. split.
  - eapply holds_bits; [exact Hok|lia| |exact Hh]. intros j Hj. rewrite Ht in Hj.
    unfold base_octets. change (base0 :: ?l ++ ?k) with ((base0 :: l) ++ k). rewrite Et, bit_at_prefix, bit_at_take; [done|lia| |].
    + cbn [length]. lia.
    + rewrite <- Et. unfold blen. rewrite Lr. lia.
  - destruct H as (Hval & _ & _). unfold emit_formal_co. rewrite Hval, Hs, Hv. fold bl.
    erewrite bind_ok by reflexivity. rewrite (proj2 (Z.eqb_neq bl 0)), (proj2 (Z.ltb_ge 4 bl)) by lia.
    erewrite bind_ok by reflexivity. rewrite Ec. erewrite bind_ok by reflexivity.
    rewrite Eb. cbn [fst snd obind bw_buf]. do 2 (erewrite bind_ok by reflexivity).
    change (room {| w_out := []; w_cap := cap |}) with (cap - 0). rewrite Z.sub_0_r. fold n.
    destruct (Z.leb_spec n cap) as [Hf|Hf]; [|by rewrite (proj2 (Z.ltb_lt cap n)) by lia].
    rewrite (proj2 (Z.ltb_ge cap n)) by lia. erewrite bind_ok by reflexivity.
    apply (emits_run _ n); [|done]. unfold n.
    change (rd (base0 :: base) 0) with (Ok base0).
    apply (emits_co_frame cid_value large Hc Hs base0); [|unfold blen in *; cbn [length] in Lr; lia].
    destruct (Z.ltb_spec 1 bl) as [H1|H1].
    + rewrite slice_eq by (unfold blen; cbn [length]; lia). change (drop (Z.to_nat 1) (base0 :: base)) with base.
      eapply emits_eq; [|done]. eapply emits_weaken; [|apply emits_puts]. unfold blen. rewrite length_take. lia.
    + replace (Z.to_nat (bl - 1)) with 0%nat by lia. eapply emits_weaken; [|apply emits_ret]. lia.
Qed.

Lemma frame_app cid_value large b0 rest post : frame cid_value large b0 rest ++ post = frame cid_value large b0 (rest ++ post).
Proof. unfold frame. by rewrite <- !app_assoc. Qed.

Lemma suffix_at_slice inp p l post : suffix_at inp p (l ++ post) -> slice inp p (blen l) = Ok l.
Proof. intros (pre & -> & <-). by apply slice_exact. Qed.

(** The decoder at the first octet of a packet: it reads the base, and then
    checks the CRC and what the caller asks for. *)
Definition check_packet (i : FormalCoCrcInput) (inp : bytes) (n : Z) (consumed : bool) : M FormalCoPacket Z :=
  q <- gets (fun q => q) ;;
  crc <- lift (formal_co_header_crc (fp_variant q) i) ;;
  guard (fp_header_crc q =? crc) ;;;
  finish inp n consumed.

Lemma decode_at_frame p v cid_value large i b0 rest post consumed q (inp := frame cid_value large b0 (rest ++ post)) :
  is_format p v -> 0 <= cid_value -> is_valid_for_space cid_value large = true ->
  length (b0 :: rest) = Z.to_nat (formal_co_base_len p v) -> size_ok (blen inp) ->
  decode_formal_co_at inp p v large i consumed (blen (add_cid_octets cid_value large)) (if large then 0 else cid_value) q =
  ((fun q => match read_formal_co_base (formal_co_base_len p v) p v (reader_at (base_octets b0 rest) 0, q) with
             | (o, s) => (o, snd s) end) ;;;
   check_packet i inp (required_len cid_value large (formal_co_base_len p v - 1)) consumed)
  (q <| fp_profile := p |> <| fp_cid := cid_value |> <| fp_large_cid := large |>
     <| fp_cid_len := cid_len_of cid_value large |>).
Proof.
  intros H Hc Hs Hl Hz. destruct (layout_bits p v (mkFormalCoFields 0 0 0 false) 0 H) as [_ Hbl].
  set (bl := formal_co_base_len p v) in *. cbn [length] in Hl. assert (Hbr : blen rest = bl - 1) by (unfold blen; lia).
  destruct (read_frame cid_value large Hc Hs b0 (rest ++ post)) as (_ & R2 & R3 & R4 & R5).
  pose proof (frame_len cid_value large Hs b0 (rest ++ post)) as Lf. fold inp in R2, R3, R4, R5, Lf.
  set (pos := blen (add_cid_octets cid_value large)) in *. set (cl := cid_len_of cid_value large) in *.
  pose proof (suffix_at_len _ _ _ R5) as [Hp Hend]. rewrite blen_app, Hbr in Hend, Lf. pose proof (blen_nonneg post).
  unfold size_ok in Hz. unfold decode_formal_co_at. fold bl. cbv beta iota zeta.
  rewrite (proj2 (Z.leb_gt (blen inp) pos)) by lia. erewrite bind_ok by reflexivity.
  rewrite R3. erewrite bind_ok by reflexivity. rewrite R4. erewrite bind_ok by reflexivity. cbv beta iota.
  rewrite usub_small by lia. rewrite (proj2 (Z.ltb_ge (blen inp - _) (bl - 1))) by lia. erewrite bind_ok by reflexivity.
  assert (Esl : (if 1 <? bl then slice inp (pos + 1 + cl) (bl - 1) else Ok []) = Ok rest).
  { destruct (Z.ltb_spec 1 bl).
    - rewrite <- Hbr. by eapply suffix_at_slice.
    - destruct rest; [done|]. cbn [length] in Hl. lia. }
  rewrite Esl. erewrite bind_ok by reflexivity.
  assert (Eov : overwrite (repeat 0 4) (b0 :: rest) = Ok (base_octets b0 rest)).
  { rewrite overwrite_fits by (cbn [length]; rewrite repeat_length; lia). unfold base_octets. f_equal. cbn [app]. do 2 f_equal.
    clear -Hl Hbl. destruct rest as [|? [|? [|? [|]]]]; (done || (cbn [length] in Hl; lia)). }
  rewrite Eov. do 2 (erewrite bind_ok by reflexivity).
  replace (pos + 1 + cl + (bl - 1)) with (required_len cid_value large (bl - 1)); [done|].
  unfold required_len in *. lia.
Qed.

Lemma decode_run p v cid_value large fields i o base0 rest post consumed s : is_format p v -> 0 <= cid_value ->
  is_valid_for_space cid_value large = true -> reads i o ->
  length (base0 :: rest) = Z.to_nat (formal_co_base_len p v) -> bytes_ok (base0 :: rest) ->
  holds (base_octets base0 rest) 0
    (layout p v fields (if formal_co_variant_uses_crc3 v then crc3 o else crc7 o)) ->
  size_ok (blen (frame cid_value large base0 (rest ++ post))) -> (post <> [] -> consumed = true) ->
  decode_formal_co (frame cid_value large base0 (rest ++ post)) p v large i consumed s =
    (Ok (required_len cid_value large (formal_co_base_len p v - 1)),
     decoded p v cid_value large fields (if formal_co_variant_uses_crc3 v then crc3 o else crc7 o)).
Proof.
  intros H Hc Hs Hr Hl Hb Hh Hz Hcons. set (crc := if formal_co_variant_uses_crc3 v then crc3 o else crc7 o) in *.
  destruct (header_crc_reads v i o Hr) as (Hv & Ec & Hcrc). fold crc in Ec, Hcrc.
  destruct (layout_bits p v fields crc H) as [_ Hbl]. pose proof H as (Hval & _ & _).
  assert (Hb0 : Z.land base0 0xF0 <> 0xE0) by (apply bytes_ok_cons in Hb as [Hb _]; by eapply first_octet).
  destruct (read_frame cid_value large Hc Hs base0 (rest ++ post)) as (R1 & R2 & _). specialize (R1 Hb0).
  pose proof (blen_nonneg (add_cid_octets cid_value large)).
  unfold decode_formal_co. erewrite bind_ok by reflexivity.
  rewrite Hval, Hv, (proj2 (Z.eqb_neq (blen (frame _ _ _ _)) 0)) by lia. erewrite bind_ok by reflexivity.
  rewrite (proj2 (Z.eqb_neq (formal_co_base_len p v) 0)), (proj2 (Z.ltb_ge 4 (formal_co_base_len p v))) by lia.
  erewrite bind_ok by reflexivity. rewrite R1. erewrite bind_ok by reflexivity. cbn [fst snd].
  rewrite decode_at_frame by done.
  destruct (read_base p v fields crc (base_octets base0 rest)
    (no_packet <| fp_profile := p |> <| fp_cid := cid_value |> <| fp_large_cid := large |>
               <| fp_cid_len := cid_len_of cid_value large |>) H) as (r & Erd);
    [unfold base_octets; cbn [length] in *; rewrite length_app, repeat_length; lia|exact Hh|].
  unfold bind at 1. rewrite Erd. fold (decoded p v cid_value large fields crc). cbn [snd].
  unfold check_packet. erewrite bind_ok by reflexivity.
  change (fp_variant (decoded _ _ _ _ _ _)) with v. rewrite Ec. erewrite bind_ok by reflexivity.
  change (fp_header_crc (decoded _ _ _ _ _ _)) with (low (crc_bits v) crc). unfold low.
  rewrite Z.mod_small, Z.eqb_refl by done. erewrite bind_ok by reflexivity. unfold finish.
  destruct post as [|x post]; [|by rewrite Hcons].
  assert (En : (required_len cid_value large (formal_co_base_len p v - 1) =? blen (frame cid_value large base0 (rest ++ []))) = true).
  { apply Z.eqb_eq. rewrite (frame_len _ _ Hs), app_nil_r. f_equal. cbn [length] in Hl. unfold blen. lia. }
  by rewrite En, orb_true_r.
Qed.

(** * co_common and co_repair *)

Lemma reads_len i o : reads i o -> fb_len i = blen o.
Proof.
  intros (_ & E & _). unfold octets in E. destruct (Z.eqb_spec (fb_len i) 0) as [->|Hn]; [by injection E as <-|].
  destruct (fb_data i) as [d|]; [|done]. unfold slice in E.
  destruct (Z.ltb_spec 0 0); [lia|]. destruct (Z.ltb_spec (fb_len i) 0); [done|].
  cbn [orb] in E. destruct (Z.ltb_spec (blen d) (0 + fb_len i)); [done|]. injection E as <-.
  unfold blen in *. rewrite length_take, length_drop. lia.
Qed.

Lemma emits_put_bytes i o : reads i o -> emits (put_bytes i) (blen o) (Some o).
Proof.
  intros H. pose proof (reads_len i o H) as E. destruct H as (_ & Eo & _). unfold put_bytes. rewrite E.
  destruct (Z.ltb_spec 0 (blen o)) as [|Hz].
  - rewrite Eo. apply emits_puts.
  - assert (o = []) as -> by (destruct o; [done|unfold blen in Hz; cbn in Hz; lia]). apply emits_ret.
Qed.

Lemma read_extended_run cid_value large type c1 c2 rest (inp := frame cid_value large type (c1 :: c2 :: rest)) :
  0 <= cid_value -> is_valid_for_space cid_value large = true -> Z.land type 0xF0 <> 0xE0 -> size_ok (blen inp) ->
  read_extended inp type large =
    Ok (cid_value, cid_len_of cid_value large, c1, c2, blen inp - blen rest) /\
  suffix_at inp (blen inp - blen rest) rest.
Proof.
  intros Hc Hs Ht Hz. destruct (read_frame cid_value large Hc Hs type (c1 :: c2 :: rest)) as (R1 & R2 & R3 & R4 & R5).
  specialize (R1 Ht). fold inp in R1, R2, R3, R4, R5. set (pos := blen (add_cid_octets cid_value large)) in *.
  set (cl := cid_len_of cid_value large) in *. pose proof (suffix_at_len _ _ _ R5) as [Hp Hend].
  rewrite !blen_cons in Hend. pose proof (blen_nonneg rest). unfold size_ok in Hz.
  unfold read_extended. rewrite R1. cbn [obind]. rewrite (proj2 (Z.leb_gt (blen inp) pos)) by lia. cbn [negb oguard obind].
  rewrite R3. cbn [obind]. rewrite Z.eqb_refl. cbn [oguard obind]. rewrite R4. cbn [obind].
  rewrite usub_small by lia. rewrite (proj2 (Z.ltb_ge _ 2)) by lia. cbn [negb oguard obind].
  assert (S2 : suffix_at inp (pos + 1 + cl + 2) rest).
  { apply (suffix_at_app _ _ [c1; c2]) in R5. exact R5. }
  assert (Rd : rd inp (pos + 1 + cl) = Ok c1 /\ rd inp (pos + 1 + cl + 1) = Ok c2).
  { destruct R5 as (pre & -> & <-). by rewrite rd_app_0, rd_app. }
  destruct Rd as [-> ->]. cbn [obind]. replace (blen inp - blen rest) with (pos + 1 + cl + 2) by lia. done.
Qed.

Definition flag_of (o m : Z) : bool := negb (Z.land o m =? 0).

Lemma octet_flag (b : bool) c : 0 <= c < 128 ->
  let o := u8 (Z.lor (bit b 0x80) (Z.land c 0x7F)) in
  byte_ok o /\ u8 (Z.land o 0x7F) = c /\ flag_of o 0x80 = b.
Proof.
  intros Hc. pose proof (byte_forall (fun c => negb (c <? 128) ||
    (let o := u8 (Z.lor (bit b 0x80) (Z.land c 0x7F)) in
     (0 <=? o) && (o <? 256) && (u8 (Z.land o 0x7F) =? c) && eqb (flag_of o 0x80) b))
    ltac:(by destruct b) c ltac:(unfold byte_ok; lia)) as D. cbv beta in D.
  rewrite (proj2 (Z.ltb_lt c 128)) in D by lia. cbn [negb orb] in D. cbv zeta in D. bool_prop.
  apply eqb_prop in H0. by unfold byte_ok.
Qed.

Lemma rtp_control_octet (b1 b2 b3 b4 b5 : bool) c : 0 <= c < 8 ->
  let o := u8 (Z.lor (Z.lor (Z.lor (Z.lor (Z.lor (bit b1 0x80) (bit b2 0x40)) (bit b3 0x20)) (bit b4 0x10))
           (bit b5 0x08)) (Z.land c 0x07)) in
  byte_ok o /\ u8 (Z.land o 0x07) = c /\ flag_of o 0x80 = b1 /\ flag_of o 0x40 = b2 /\
  flag_of o 0x20 = b3 /\ flag_of o 0x10 = b4 /\ flag_of o 0x08 = b5.
Proof.
  intros Hc o. assert (E : c = 0 \/ c = 1 \/ c = 2 \/ c = 3 \/ c = 4 \/ c = 5 \/ c = 6 \/ c = 7) by lia.
  unfold byte_ok, o. repeat destruct E as [->|E]; [..|subst c];
    destruct b1, b2, b3, b4, b5; (split; [vm_compute; split; congruence|done]).
Qed.

Lemma control_octet (b1 b2 b3 : bool) r c : 0 <= r <= 3 -> 0 <= c < 8 ->
  let o := u8 (Z.lor (Z.lor (Z.lor (Z.lor (bit b1 0x80) (bit b2 0x40)) (bit b3 0x20))
           (Z.shiftl (Z.land r 0x03) 3)) (Z.land c 0x07)) in
  byte_ok o /\ u8 (Z.land o 0x07) = c /\ flag_of o 0x80 = b1 /\ flag_of o 0x40 = b2 /\ flag_of o 0x20 = b3 /\
  u8 (Z.land (Z.shiftr o 3) 0x03) = r.
Proof.
  intros Hr Hc o. assert (E : c = 0 \/ c = 1 \/ c = 2 \/ c = 3 \/ c = 4 \/ c = 5 \/ c = 6 \/ c = 7) by lia.
  assert (F : r = 0 \/ r = 1 \/ r = 2 \/ r = 3) by lia.
  unfold byte_ok, o. repeat destruct E as [->|E]; [..|subst c]; (repeat destruct F as [->|F]; [..|subst r]);
    destruct b1, b2, b3; (split; [vm_compute; split; congruence|done]).
Qed.

(** What a co_common packet puts in a packet: the indicators of the profile. *)
Definition common_decoded (p : Profile) (cid_value : Z) (large : bool) (f : FormalCoCommonFields)
    (header_crc control_crc off len : Z) : FormalCoPacket :=
  let q := no_packet <| fp_profile := p |> <| fp_variant := CoCommon |> <| fp_cid := cid_value |>
    <| fp_large_cid := large |> <| fp_cid_len := cid_len_of cid_value large |>
    <| fp_header_crc := header_crc |> <| fp_control_crc3 := control_crc |>
    <| fp_ip_id_indicator := f_ip_id_indicator f |>
    <| fp_variable_offset := off |> <| fp_variable_len := len |> in
  if is_rtp_formal_co_profile p then
    q <| fp_marker := f_common_marker f |> <| fp_flags1_indicator := f_flags1 f |>
      <| fp_flags2_indicator := f_flags2 f |> <| fp_tsc_indicator := f_tsc f |> <| fp_tss_indicator := f_tss f |>
  else
    q <| fp_flags_indicator := f_flags f |> <| fp_ttl_hopl_indicator := f_ttl_hopl f |>
      <| fp_tos_tc_indicator := f_tos_tc f |> <| fp_reorder_ratio := f_reorder_ratio f |>.

Definition repair_decoded (p : Profile) (cid_value : Z) (large : bool) (header_crc control_crc off len : Z) :
    FormalCoPacket :=
  no_packet <| fp_profile := p |> <| fp_variant := CoRepair |> <| fp_cid := cid_value |>
    <| fp_large_cid := large |> <| fp_cid_len := cid_len_of cid_value large |>
    <| fp_header_crc := header_crc |> <| fp_control_crc3 := control_crc |>
    <| fp_variable_offset := off |> <| fp_variable_len := len |>.

Lemma emit_common_run p cid_value large f ih ic oh oc ov cap : is_supported_formal_co_profile p = true ->
  0 <= cid_value -> is_valid_for_space cid_value large = true -> reads ih oh -> reads ic oc ->
  reads (f_variable f) ov -> f_reorder_ratio f <= 3 ->
  let '(c1, c2) := common_octets p f (crc7 oh) (crc3 oc) in
  if required_len cid_value large (2 + blen ov) <=? cap then
    emit_formal_co_common p cid_value large f ih ic {| w_out := []; w_cap := cap |} =
      (Ok tt, {| w_out := frame cid_value large 0xFA (c1 :: c2 :: ov); w_cap := cap |})
  else fst (emit_formal_co_common p cid_value large f ih ic {| w_out := []; w_cap := cap |}) = Rej.
Proof.
  intros Hp Hc Hs Hh Hcc Hov Hr. destruct (common_octets p f (crc7 oh) (crc3 oc)) as [c1 c2] eqn:Eo.
  destruct (header_crc_reads CoCommon ih oh Hh) as (V1 & Eh & _). destruct (control_crc_reads ic oc Hcc) as [Ec _].
  destruct Hcc as (V2 & _). pose proof Hov as (V3 & _). pose proof (reads_len _ _ Hov) as Lv.
  unfold emit_formal_co_common, formal_co_variant_valid_for_profile. rewrite Hp, Hs, V1.
  unfold formal_co_bytes_valid in V2, V3. unfold formal_co_crc_input_valid, formal_co_bytes_valid. rewrite V2, V3, (proj2 (Z.ltb_ge 3 _)) by lia.
  do 2 (erewrite bind_ok by reflexivity). change (room {| w_out := []; w_cap := cap |}) with (cap - 0).
  rewrite Z.sub_0_r, Lv. set (n := required_len cid_value large (2 + blen ov)).
  destruct (Z.leb_spec n cap) as [Hf|Hf]; [|by rewrite (proj2 (Z.ltb_lt cap n)) by lia].
  rewrite (proj2 (Z.ltb_ge cap n)) by lia. erewrite bind_ok by reflexivity. apply (emits_run _ n); [|done].
  apply (emits_co_frame cid_value large Hc Hs); [|rewrite !blen_cons; lia].
  rewrite Eh, Ec. change (formal_co_variant_uses_crc3 CoCommon) with false. cbv iota.
  pose proof (blen_nonneg ov).
  assert (E : emits (put c1 ;;; put c2 ;;; put_bytes (f_variable f)) (1 + (1 + blen ov)) (Some (c1 :: c2 :: ov))).
  { apply (emits_seq _ _ 1 (1 + blen ov) (Some [c1]) (Some (c2 :: ov))); [apply emits_put| |lia].
    apply (emits_seq _ _ 1 (blen ov) (Some [c2]) (Some ov)); [apply emits_put|by apply emits_put_bytes|lia]. }
  intros s Hr'. do 2 (erewrite bind_ok by reflexivity). rewrite Eo.
  replace (2 + blen ov) with (1 + (1 + blen ov)) in Hr' |- * by lia. by apply E.
Qed.

Lemma decode_common_run p cid_value large f ih ic oh oc rest s : is_supported_formal_co_profile p = true ->
  0 <= cid_value -> is_valid_for_space cid_value large = true -> reads ih oh -> reads ic oc ->
  0 <= f_reorder_ratio f <= 3 ->
  let '(c1, c2) := common_octets p f (crc7 oh) (crc3 oc) in
  let inp := frame cid_value large 0xFA (c1 :: c2 :: rest) in
  size_ok (blen inp) ->
  decode_formal_co_common inp p large ih ic s =
    (Ok (blen inp), common_decoded p cid_value large f (crc7 oh) (crc3 oc) (blen inp - blen rest) (blen rest)).
Proof.
  intros Hp Hc Hs Hh Hcc Hr. destruct (common_octets p f (crc7 oh) (crc3 oc)) as [c1 c2] eqn:Eo. intros inp Hz.
  destruct (header_crc_reads CoCommon ih oh Hh) as (V1 & Eh & B1). change (formal_co_variant_uses_crc3 CoCommon) with false in Eh, B1.
  cbv iota in Eh, B1. change (2 ^ crc_bits CoCommon) with 128 in B1.
  destruct (control_crc_reads ic oc Hcc) as [Ec B2]. destruct Hcc as (V2 & _).
  destruct (read_extended_run cid_value large 0xFA c1 c2 rest Hc Hs ltac:(discriminate) Hz) as [E R]. fold inp in E, R.
  pose proof (suffix_at_len _ _ _ R) as [Hp0 Hend]. pose proof (blen_nonneg rest).
  assert (Hne : blen inp <> 0).
  { unfold inp. rewrite (frame_len _ _ Hs). unfold required_len. rewrite !blen_cons.
    destruct large; cbn [negb andb]; [pose proof (encoded_len_bound cid_value); lia|]. destruct (0 <? cid_value); lia. }
  unfold decode_formal_co_common, formal_co_variant_valid_for_profile. rewrite Hp, V1.
  unfold formal_co_crc_input_valid. unfold formal_co_bytes_valid in V2. rewrite V2, (proj2 (Z.eqb_neq (blen inp) 0)) by done.
  do 2 (erewrite bind_ok by reflexivity). rewrite E. erewrite bind_ok by reflexivity. cbv beta iota.
  do 3 (erewrite bind_ok by reflexivity).
  rewrite Eh, Ec. unfold size_ok in Hz. rewrite usub_small by lia. replace (blen inp - (blen inp - blen rest)) with (blen rest) by lia.
  clear E Eh Ec Hz R Hend Hne V1 V2. unfold common_octets in Eo. unfold common_decoded.
  destruct (is_rtp_formal_co_profile p); injection Eo as <- <-.
  - destruct (octet_flag (f_common_marker f) (crc7 oh) B1) as (_ & A1 & A2).
    destruct (rtp_control_octet (f_flags1 f) (f_flags2 f) (f_tsc f) (f_tss f) (f_ip_id_indicator f) (crc3 oc) B2)
      as (_ & C1 & C2 & C3 & C4 & C5 & C6). cbv zeta in *. unfold flag_of in *.
    set (o1 := u8 (Z.lor _ (Z.land (crc7 oh) 127))) in *. set (o2 := u8 (Z.lor _ (Z.land (crc3 oc) 7))) in *.
    rewrite A1, A2, C1, C2, C3, C4, C5, C6. clearbody o1 o2.
    erewrite bind_ok by reflexivity. cbn [oguard]. change (fp_header_crc _) with (crc7 oh). rewrite Z.eqb_refl.
    do 2 (erewrite bind_ok by reflexivity). change (fp_control_crc3 _) with (crc3 oc). rewrite Z.eqb_refl.
    generalize (crc7 oh) (crc3 oc) (blen inp - blen rest) (blen inp) (blen rest) (cid_len_of cid_value large).
    intros. vm_compute. reflexivity.
  - destruct (octet_flag (f_ip_id_indicator f) (crc7 oh) B1) as (_ & A1 & A2).
    destruct (control_octet (f_flags f) (f_ttl_hopl f) (f_tos_tc f) (f_reorder_ratio f) (crc3 oc) Hr B2)
      as (_ & C1 & C2 & C3 & C4 & C5). cbv zeta in *. unfold flag_of in *.
    set (o1 := u8 (Z.lor _ (Z.land (crc7 oh) 127))) in *. set (o2 := u8 (Z.lor _ (Z.land (crc3 oc) 7))) in *.
    rewrite A1, A2, C1, C2, C3, C4, C5. clearbody o1 o2.
    erewrite bind_ok by reflexivity. change (fp_header_crc _) with (crc7 oh). rewrite Z.eqb_refl.
    do 2 (erewrite bind_ok by reflexivity). change (fp_control_crc3 _) with (crc3 oc). rewrite Z.eqb_refl.
    generalize (crc7 oh) (crc3 oc) (blen inp - blen rest) (blen inp) (blen rest) (cid_len_of cid_value large).
    intros. vm_compute. reflexivity.
Qed.

Lemma emit_repair_run p cid_value large chain ih ic oh oc ov cap : is_supported_formal_co_profile p = true ->
  0 <= cid_value -> is_valid_for_space cid_value large = true -> reads ih oh -> reads ic oc -> reads chain ov ->
  if required_len cid_value large (2 + blen ov) <=? cap then
    emit_formal_co_repair p cid_value large chain ih ic {| w_out := []; w_cap := cap |} =
      (Ok tt, {| w_out := frame cid_value large 0xFB (crc7 oh :: crc3 oc :: ov); w_cap := cap |})
  else fst (emit_formal_co_repair p cid_value large chain ih ic {| w_out := []; w_cap := cap |}) = Rej.
Proof.
  intros Hp Hc Hs Hh Hcc Hov.
  destruct (header_crc_reads CoRepair ih oh Hh) as (V1 & Eh & _). destruct (control_crc_reads ic oc Hcc) as [Ec _].
  destruct Hcc as (V2 & _). pose proof Hov as (V3 & _). pose proof (reads_len _ _ Hov) as Lv.
  unfold emit_formal_co_repair, formal_co_variant_valid_for_profile. rewrite Hp, Hs, V1.
  unfold formal_co_bytes_valid in V2, V3. unfold formal_co_crc_input_valid, formal_co_bytes_valid. rewrite V2, V3.
  do 2 (erewrite bind_ok by reflexivity). change (room {| w_out := []; w_cap := cap |}) with (cap - 0).
  rewrite Z.sub_0_r, Lv. set (n := required_len cid_value large (2 + blen ov)).
  destruct (Z.leb_spec n cap) as [Hf|Hf]; [|by rewrite (proj2 (Z.ltb_lt cap n)) by lia].
  rewrite (proj2 (Z.ltb_ge cap n)) by lia. erewrite bind_ok by reflexivity. apply (emits_run _ n); [|done].
  apply (emits_co_frame cid_value large Hc Hs); [|rewrite !blen_cons; lia].
  rewrite Eh, Ec. change (formal_co_variant_uses_crc3 CoRepair) with false. cbv iota. pose proof (blen_nonneg ov).
  assert (E : emits (put (crc7 oh) ;;; put (crc3 oc) ;;; put_bytes chain) (1 + (1 + blen ov)) (Some (crc7 oh :: crc3 oc :: ov))).
  { apply (emits_seq _ _ 1 (1 + blen ov) (Some [_]) (Some (_ :: ov))); [apply emits_put| |lia].
    apply (emits_seq _ _ 1 (blen ov) (Some [_]) (Some ov)); [apply emits_put|by apply emits_put_bytes|lia]. }
  replace (2 + blen ov) with (1 + (1 + blen ov)) by lia. exact E.
Qed.

Lemma decode_repair_run p cid_value large ih ic oh oc rest s : is_supported_formal_co_profile p = true ->
  0 <= cid_value -> is_valid_for_space cid_value large = true -> reads ih oh -> reads ic oc ->
  let inp := frame cid_value large 0xFB (crc7 oh :: crc3 oc :: rest) in
  size_ok (blen inp) ->
  decode_formal_co_repair inp p large ih ic s =
    (Ok (blen inp), repair_decoded p cid_value large (crc7 oh) (crc3 oc) (blen inp - blen rest) (blen rest)).
Proof.
  intros Hp Hc Hs Hh Hcc inp Hz.
  destruct (header_crc_reads CoRepair ih oh Hh) as (V1 & Eh & B1). change (formal_co_variant_uses_crc3 CoRepair) with false in Eh, B1.
  cbv iota in Eh, B1. change (2 ^ crc_bits CoRepair) with 128 in B1.
  destruct (control_crc_reads ic oc Hcc) as [Ec B2]. destruct Hcc as (V2 & _).
  destruct (read_extended_run cid_value large 0xFB (crc7 oh) (crc3 oc) rest Hc Hs ltac:(discriminate) Hz) as [E R]. fold inp in E, R.
  pose proof (suffix_at_len _ _ _ R) as [Hp0 Hend]. pose proof (blen_nonneg rest).
  assert (Hne : blen inp <> 0).
  { unfold inp. rewrite (frame_len _ _ Hs). unfold required_len. rewrite !blen_cons.
    destruct large; cbn [negb andb]; [pose proof (encoded_len_bound cid_value); lia|]. destruct (0 <? cid_value); lia. }
  unfold decode_formal_co_repair, formal_co_variant_valid_for_profile. rewrite Hp, V1.
  unfold formal_co_crc_input_valid. unfold formal_co_bytes_valid in V2. rewrite V2, (proj2 (Z.eqb_neq (blen inp) 0)) by done.
  do 2 (erewrite bind_ok by reflexivity). rewrite E. erewrite bind_ok by reflexivity. cbv beta iota.
  assert (A : Z.land (crc7 oh) 0x80 = 0 /\ u8 (Z.land (crc7 oh) 0x7F) = crc7 oh).
  { destruct (low_octet (crc7 oh) ltac:(lia)) as [-> ->]. split; [done|]. apply u8_small. unfold byte_ok. lia. }
  assert (C : Z.land (crc3 oc) 0xF8 = 0 /\ u8 (Z.land (crc3 oc) 0x07) = crc3 oc).
  { pose proof (byte_forall (fun c => negb (c <? 8) || ((Z.land c 0xF8 =? 0) && (u8 (Z.land c 0x07) =? c)))
      ltac:(vm_compute; reflexivity) (crc3 oc) ltac:(unfold byte_ok; lia)) as D. cbv beta in D.
    rewrite (proj2 (Z.ltb_lt (crc3 oc) 8)) in D by lia. cbn [negb orb] in D. by bool_prop. }
  destruct A as [A1 A2], C as [C1 C2]. rewrite A1, A2, C1, C2.
  do 3 (erewrite bind_ok by reflexivity). rewrite Eh, Ec. erewrite bind_ok by reflexivity.
  change (fp_header_crc _) with (crc7 oh). rewrite Z.eqb_refl. do 2 (erewrite bind_ok by reflexivity).
  change (fp_control_crc3 _) with (crc3 oc). rewrite Z.eqb_refl. unfold size_ok in Hz. rewrite usub_small by lia.
  replace (blen inp - (blen inp - blen rest)) with (blen rest) by lia.
  unfold repair_decoded.
  generalize (crc7 oh) (crc3 oc) (blen inp - blen rest) (blen inp) (blen rest) (cid_len_of cid_value large).
  intros. vm_compute. reflexivity.
Qed.

(** * What the claims state *)

(** C17: Every packet a format emitter produces is decoded again: the emitter
    refuses exactly what does not fit, and the decoder, given the same CRC
    octets, gets back the CID and of each field the low bits that
    [formal_co_msn_lsb_bits] and its siblings announce, whatever follows the
    packet when the caller asks for the octets consumed. *)
Theorem formal_co_roundtrip p v cid_value large fields i o post consumed cap s
  (Hv : is_format p v) (Hc : 0 <= cid_value) (Hs : is_valid_for_space cid_value large = true)
  (Hi : reads i o) (Hz : blen post < 2 ^ 62) (Hcons : post <> [] -> consumed = true) :
  let n := required_len cid_value large (formal_co_base_len p v - 1) in
  if n <=? cap then
    exists out, emit_formal_co p v cid_value large fields i {| w_out := []; w_cap := cap |} =
      (Ok tt, {| w_out := out; w_cap := cap |}) /\
    blen out = n /\
    decode_formal_co (out ++ post) p v large i consumed s =
      (Ok n, decoded p v cid_value large fields (if formal_co_variant_uses_crc3 v then crc3 o else crc7 o))
  else fst (emit_formal_co p v cid_value large fields i {| w_out := []; w_cap := cap |}) = Rej.
Proof.
  intros n. destruct (emit_run p v cid_value large fields i o cap Hv Hc Hs Hi) as (b0 & rest & Hl & Hb & Hh & E).
  destruct (layout_bits p v fields 0 Hv) as [_ Hbl]. fold n in E.
  destruct (Z.leb_spec n cap); [|exact E]. exists (frame cid_value large b0 rest). split; [exact E|].
  assert (Hbr : blen rest = formal_co_base_len p v - 1) by (unfold blen; cbn [length] in Hl; lia).
  split; [by rewrite (frame_len _ _ Hs), Hbr|]. rewrite frame_app. apply decode_run; try done.
  unfold size_ok. rewrite (frame_len _ _ Hs), blen_app, Hbr. pose proof (blen_nonneg post).
  pose proof (encoded_len_bound cid_value). unfold required_len. destruct large, (0 <? cid_value); cbn [negb andb]; lia.
Qed.

(** The co_common and co_repair packets of a profile are decoded again: the
    emitters refuse exactly what does not fit, and the decoders get back the
    CID, every indicator of the profile and the octets of the variable part
    behind them. *)
Theorem formal_co_extended_roundtrip p cid_value large f chain ih ic oh oc ov od cap s
  (Hp : is_supported_formal_co_profile p = true) (Hc : 0 <= cid_value)
  (Hs : is_valid_for_space cid_value large = true) (Hh : reads ih oh) (Hi : reads ic oc)
  (Hv : reads (f_variable f) ov) (Hd : reads chain od) (Hr : 0 <= f_reorder_ratio f <= 3)
  (Hz : blen ov < 2 ^ 62 /\ blen od < 2 ^ 62) :
  (let n := required_len cid_value large (2 + blen ov) in
   if n <=? cap then
     exists out, emit_formal_co_common p cid_value large f ih ic {| w_out := []; w_cap := cap |} =
       (Ok tt, {| w_out := out; w_cap := cap |}) /\
     blen out = n /\ suffix_at out (n - blen ov) ov /\
     decode_formal_co_common out p large ih ic s =
       (Ok n, common_decoded p cid_value large f (crc7 oh) (crc3 oc) (n - blen ov) (blen ov))
   else fst (emit_formal_co_common p cid_value large f ih ic {| w_out := []; w_cap := cap |}) = Rej) /\
  (let n := required_len cid_value large (2 + blen od) in
   if n <=? cap then
     exists out, emit_formal_co_repair p cid_value large chain ih ic {| w_out := []; w_cap := cap |} =
       (Ok tt, {| w_out := out; w_cap := cap |}) /\
     blen out = n /\ suffix_at out (n - blen od) od /\
     decode_formal_co_repair out p large ih ic s =
       (Ok n, repair_decoded p cid_value large (crc7 oh) (crc3 oc) (n - blen od) (blen od))
   else fst (emit_formal_co_repair p cid_value large chain ih ic {| w_out := []; w_cap := cap |}) = Rej).
Proof.
  assert (Hlen : forall t c1 c2 l, blen (frame cid_value large t (c1 :: c2 :: l)) = required_len cid_value large (2 + blen l)).
  { intros. rewrite (frame_len _ _ Hs), !blen_cons. f_equal. lia. }
  assert (Hsz : forall t c1 c2 l, blen l < 2 ^ 62 -> size_ok (blen (frame cid_value large t (c1 :: c2 :: l)))).
  { intros t c1 c2 l Hl. rewrite Hlen. pose proof (blen_nonneg l). pose proof (encoded_len_bound cid_value).
    unfold size_ok, required_len. destruct large, (0 <? cid_value); cbn [negb andb]; lia. }
  split; intros n.
  - pose proof (emit_common_run p cid_value large f ih ic oh oc ov cap Hp Hc Hs Hh Hi Hv ltac:(lia)) as E.
    pose proof (decode_common_run p cid_value large f ih ic oh oc ov s Hp Hc Hs Hh Hi Hr) as D.
    destruct (common_octets p f (crc7 oh) (crc3 oc)) as [c1 c2]. fold n in E. destruct (n <=? cap); [|exact E].
    eexists. split; [exact E|]. split; [apply Hlen|]. specialize (D (Hsz 0xFA c1 c2 ov ltac:(lia))).
    rewrite (Hlen 0xFA c1 c2 ov) in D. fold n in D. split; [|exact D].
    destruct (read_extended_run cid_value large 0xFA c1 c2 ov Hc Hs ltac:(discriminate) (Hsz 0xFA c1 c2 ov ltac:(lia))) as [_ R].
    by rewrite Hlen in R.
  - pose proof (emit_repair_run p cid_value large chain ih ic oh oc od cap Hp Hc Hs Hh Hi Hd) as E. fold n in E.
    pose proof (decode_repair_run p cid_value large ih ic oh oc od s Hp Hc Hs Hh Hi (Hsz 0xFB _ _ od ltac:(lia))) as D.
    destruct (n <=? cap); [|exact E]. eexists. split; [exact E|]. split; [apply Hlen|].
    rewrite Hlen in D. fold n in D. split; [|exact D].
    destruct (read_extended_run cid_value large 0xFB (crc7 oh) (crc3 oc) od Hc Hs ltac:(discriminate) (Hsz 0xFB _ _ od ltac:(lia))) as [_ R].
    by rewrite Hlen in R.
Qed.

(** * Samples *)

Definition sample_crc_input : FormalCoCrcInput := mkFormalCoBytes (Some [0x45; 0x00]) 2.

Lemma sample_crc_reads : reads sample_crc_input [0x45; 0x00].
Proof. split; [done|]. split; [done|]. repeat constructor; unfold byte_ok; lia. Qed.

Lemma formal_co_roundtrip_witness :
  exists out, emit_formal_co RTP Pt2SeqBoth 300 true (mkFormalCoFields 0x1234 0x37 0x155 true) sample_crc_input
      {| w_out := []; w_cap := 10 |} = (Ok tt, {| w_out := out; w_cap := 10 |}) /\ blen out = 6.
Proof.
  destruct (formal_co_roundtrip RTP Pt2SeqBoth 300 true (mkFormalCoFields 0x1234 0x37 0x155 true) sample_crc_input
    [0x45; 0x00] [] false 10 no_packet ltac:(split; [reflexivity|split; discriminate]) ltac:(lia) eq_refl
    sample_crc_reads ltac:(vm_compute; reflexivity) ltac:(intros []; reflexivity)) as (out & E & L & _).
  exists out. split; [exact E|exact L].
Defined.

Lemma formal_co_extended_roundtrip_witness :
  exists out, emit_formal_co_repair UDP 7 false (mkFormalCoBytes (Some [1; 2; 3]) 3) sample_crc_input sample_crc_input
      {| w_out := []; w_cap := 10 |} = (Ok tt, {| w_out := out; w_cap := 10 |}) /\ blen out = 7.
Proof.
  assert (Hr : reads (mkFormalCoBytes (Some [1; 2; 3]) 3) [1; 2; 3]).
  { split; [reflexivity|]. split; [reflexivity|]. repeat constructor; unfold byte_ok; lia. }
  destruct (proj2 (formal_co_extended_roundtrip UDP 7 false
    (mkFormalCoCommonFields false false false false false true false false false 2 (mkFormalCoBytes (Some [1; 2; 3]) 3))
    (mkFormalCoBytes (Some [1; 2; 3]) 3) sample_crc_input sample_crc_input [0x45; 0x00] [0x45; 0x00] [1; 2; 3] [1; 2; 3] 10
    no_packet eq_refl ltac:(lia) eq_refl sample_crc_reads sample_crc_reads Hr Hr ltac:(cbn; lia)
    ltac:(vm_compute; split; reflexivity))) as (out & E & L & _).
  exists out. split; [exact E|exact L].
Defined.
