(* ===== verification/FormalCoExact.v ===== *)
(** * What the format decoders accept: include/rohccxx/core/formal_co.hpp

    The converse of the round trips of [FormalCo]: whatever octets a decoder is
    given, it stays inside them, and what it accepts is a packet the emitter
    writes.  The special PT-0 functions are compared with the general ones. *)

From S2P Require Import Prelude Crc Cid Bits Context Cursor FormalCo.

(** * What the decoders accept *)

Lemma bits_of_ext v w n : (forall i, 0 <= i < Z.of_nat n -> Z.testbit v i = Z.testbit w i) -> bits_of v n = bits_of w n.
Proof.
  induction n as [|n IH]; intros H; [done|]. cbn [bits_of]. rewrite IH by (intros; apply H; lia).
  by rewrite H by lia.
Qed.

Lemma bits_of_val l : bits_of (bits_val l) (length l) = l.
Proof.
  induction l as [|b l IH]; [done|]. unfold bits_val. cbn [fold_left length bits_of]. rewrite fold_bits_val.
  replace (2 * 0 + Z.b2z b) with (Z.b2z b) by lia. pose proof (bits_val_bound l) as Hb.
  set (n := Z.of_nat (length l)) in *. set (v := bits_val l) in *. assert (Hn : 0 <= n) by lia.
  assert (Hv : forall i, 0 <= i -> Z.testbit (Z.b2z b * 2 ^ n + v) i = if i <? n then Z.testbit v i else Z.testbit (Z.b2z b) (i - n)).
  { intros i Hi. rewrite <- lor_disjoint_add, Z.lor_spec, Z.shiftl_spec by lia.
    destruct (Z.ltb_spec i n); [by rewrite (Z.testbit_neg_r _ (i - n)) by lia|].
    assert (Ev : Z.testbit v i = false); [|by rewrite Ev, orb_false_r].
    destruct (Z.eq_dec v 0) as [->|]; [apply Z.bits_0|]. apply Z.bits_above_log2; [lia|].
    apply Z.log2_lt_pow2; [lia|]. apply Z.lt_le_trans with (2 ^ n); [lia|]. by apply Z.pow_le_mono_r. }
  f_equal.
  - rewrite Hv by lia. rewrite (proj2 (Z.ltb_ge n n)) by lia. rewrite Z.sub_diag. by destruct b.
  - rewrite <- IH at 2. apply bits_of_ext. intros i Hi. fold n in Hi. rewrite Hv by lia.
    by rewrite (proj2 (Z.ltb_lt i n)) by lia.
Qed.

(** The fields a buffer holds, whatever its octets are. *)
Lemma held_field base p n : 0 <= n ->
  bits_at base p (Z.to_nat n) = bits_of (low n (bits_val (bits_at base p (Z.to_nat n)))) (Z.to_nat n).
Proof.
  intros Hn. pose proof (bits_val_bound (bits_at base p (Z.to_nat n))) as Hb.
  rewrite bits_at_length, Z2Nat.id in Hb by done. unfold low. rewrite Z.mod_small by done.
  pose proof (bits_of_val (bits_at base p (Z.to_nat n))) as E. by rewrite bits_at_length in E.
Qed.

Lemma held_marker base p : bits_at base p (Z.to_nat 1) = bits_of (if bit_at base p then 1 else 0) (Z.to_nat 1).
Proof. change (Z.to_nat 1) with 1%nat. cbn. by destruct (bit_at base p). Qed.

Ltac tag_case base Hlen k t :=
  destruct (decide (bits_at base 0 (Z.to_nat k) = bits_of t (Z.to_nat k))) as [Ht|Ht].

Lemma read_tag_refuses base q k t m : length base = 4%nat -> 0 <= k <= 8 ->
  bits_at base 0 (Z.to_nat k) <> bits_of t (Z.to_nat k) ->
  exists s, (read_tag k t ;;; m : M rst unit) (reader_at base 0, q) = (Rej, s).
Proof.
  intros Hl Hk Hne. pose proof (held_field base 0 k ltac:(lia)) as E. set (y := bits_val _) in E.
  eexists. unfold read_tag. rewrite bind_assoc.
  erewrite bind_ok by (apply (read_at base q Hl 0 k (low k y)); [done|apply low_bound; lia|lia|lia|done]).
  destruct (Z.eqb_spec (low k y) t) as [E'|]; [|done]. by rewrite E, E' in Hne.
Qed.

(** A format reads every base that starts with its tag. *)
Lemma read_base_inv p v base q : is_format p v -> length base = 4%nat ->
  (exists fields crc, holds base 0 (layout p v fields crc) /\ 0 <= crc < 2 ^ crc_bits v) \/
  (exists s, read_formal_co_base (formal_co_base_len p v) p v (reader_at base 0, q) = (Rej, s)).
Proof.
  intros H Hlen.
  assert (Hc : forall pos n, 0 <= n -> 0 <= bits_val (bits_at base pos (Z.to_nat n)) < 2 ^ n).
  { intros pos n Hn. pose proof (bits_val_bound (bits_at base pos (Z.to_nat n))) as Hb.
    by rewrite bits_at_length, Z2Nat.id in Hb by done. }
  formats p v H;
    match goal with |- context [layout ?p ?v] =>
      let l := eval vm_compute in (layout p v (mkFormalCoFields 0 0 0 false) 0) in
      match l with (?t, ?k) :: _ => tag_case base Hlen k t end end.
  all: first [left; eexists (mkFormalCoFields _ _ _ _), _; split; [
      unfold layout; match goal with |- holds _ _ ?l => let l' := eval cbv beta iota zeta in l in
       match l' with
       | (if ?b then _ else _) => let b' := eval vm_compute in b in change b with b'; cbv iota zeta beta
       | _ => idtac
       end end;
      cbn [holds f_msn f_ip_id f_ts_scaled f_marker];
      repeat (split; [first [exact Ht | apply held_field; vm_compute; discriminate | apply held_marker]|]); exact I
      |apply Hc; vm_compute; discriminate]
    | right; unfold read_formal_co_base; do 2 (erewrite bind_ok by reflexivity); eval_rtp; cbn [fst snd];
      rewrite ?bind_assoc;
      try (lazymatch goal with |- context [bind (guard true)] => erewrite bind_ok by reflexivity; rewrite ?bind_assoc end);
      apply (read_tag_refuses base); [exact Hlen|lia|exact Ht] ].
  Unshelve. all: first [exact 0%Z | exact false].
Qed.

Lemma bits_at_inj a b p n : bits_at a p n = bits_at b p n ->
  forall i, p <= i < p + Z.of_nat n -> bit_at a i = bit_at b i.
Proof.
  revert p. induction n as [|n IH]; intros p H i Hi; [lia|]. cbn [bits_at] in H. injection H as H0 H1.
  destruct (Z.eq_dec i p) as [->|]; [done|]. apply (IH (p + 1) H1). lia.
Qed.

Lemma holds_unique a b p fs : fields_ok fs -> holds a p fs -> holds b p fs ->
  forall i, p <= i < p + total_bits fs -> bit_at a i = bit_at b i.
Proof.
  intros Hf. revert p. induction Hf as [|[v k] fs [Hk Hv] Hfs IH]; intros p Ha Hb i Hi; cbn in Hi; [lia|].
  destruct Ha as [Ha Ha'], Hb as [Hb Hb']. fold (total_bits fs) in Hi. cbn [fst snd] in *.
  destruct (Z.ltb_spec i (p + k)).
  - apply (bits_at_inj a b p (Z.to_nat k)); [congruence|lia].
  - apply (IH (p + k)); [done|done|lia].
Qed.

(** The emitter writes the octets that hold the fields. *)
Lemma emit_held p v cid_value large fields i o b0 rest cap : is_format p v -> 0 <= cid_value ->
  is_valid_for_space cid_value large = true -> reads i o ->
  length (b0 :: rest) = Z.to_nat (formal_co_base_len p v) -> bytes_ok (b0 :: rest) ->
  holds (base_octets b0 rest) 0
    (layout p v fields (if formal_co_variant_uses_crc3 v then crc3 o else crc7 o)) ->
  required_len cid_value large (formal_co_base_len p v - 1) <= cap ->
  emit_formal_co p v cid_value large fields i {| w_out := []; w_cap := cap |} =
    (Ok tt, {| w_out := frame cid_value large b0 rest; w_cap := cap |}).
Proof.
  intros H Hc Hs Hr Hl Hb Hh Hcap. set (crc := if formal_co_variant_uses_crc3 v then crc3 o else crc7 o) in *.
  destruct (emit_run p v cid_value large fields i o cap H Hc Hs Hr) as (c0 & rest' & Hl' & Hb' & Hh' & E).
  cbv zeta in E. fold crc in E, Hh'. rewrite (proj2 (Z.leb_le _ cap)) in E by done. rewrite E. do 2 f_equal.
  destruct (layout_bits p v fields crc H) as [Ht Hbl].
  assert (Hz : forall k, bytes_ok (repeat 0 k)).
  { intros k. apply List.Forall_forall. intros x ->%repeat_spec. unfold byte_ok. lia. }
  assert (Eb : forall x l, base_octets x l = (x :: l) ++ repeat 0 (4 - length (x :: l))) by done.
  assert (Hsame : take (length (b0 :: rest)) (base_octets b0 rest) = take (length (b0 :: rest)) (base_octets c0 rest')).
  { apply same_bits_take; rewrite ?Eb.
    - apply Forall_app; split; [done|apply Hz].
    - apply Forall_app; split; [done|apply Hz].
    - by rewrite !length_app, Hl, Hl'.
    - rewrite <- !Eb. intros j Hj. apply (holds_unique _ _ 0 (layout p v fields crc)); [by apply layout_ok|done|done|].
      rewrite Ht, Hl in *. lia. }
  rewrite !Eb, take_app_length in Hsame.
  replace (length (b0 :: rest)) with (length (c0 :: rest')) in Hsame by congruence.
  rewrite take_app_length in Hsame. injection Hsame as -> ->. done.
Qed.

(** * The CID of what a decoder is given *)

Lemma read_add_cid_inv inp large : bytes_ok inp -> inp <> [] ->
  read_add_cid inp large = Rej \/
  exists a tail, read_add_cid inp large = Ok (blen (add_cid_octets a large), a) /\
    inp = add_cid_octets a large ++ tail /\ 0 <= a <= 15 /\ (large = true -> a = 0).
Proof.
  intros Hb Hne. destruct inp as [|b0 inp]; [done|]. apply bytes_ok_cons in Hb as [H0 Hb]. unfold read_add_cid.
  destruct large; [right; exists 0, (b0 :: inp); split_and!; (done || lia)|].
  change (rd (b0 :: inp) 0) with (Ok b0). cbn [obind]. destruct (Z.eqb_spec (Z.land b0 0xF0) 0xE0) as [E|E].
  - destruct (Z.eqb_spec (Z.land b0 0x0F) 0) as [|Hn]; [by left|]. cbn [orb].
    destruct (Z.ltb_spec (blen (b0 :: inp)) 2); [by left|]. cbn [negb oguard obind]. right.
    pose proof (byte_forall (fun x => negb (Z.land x 0xF0 =? 0xE0) || ((x =? 0xE0 + Z.land x 0x0F) && (0 <=? Z.land x 0x0F) && (Z.land x 0x0F <=? 15)))
      ltac:(vm_compute; reflexivity) b0 H0) as D. cbv beta in D. rewrite E in D. change (0xE0 =? 0xE0) with true in D.
    cbn [negb orb] in D. bool_prop. set (a := Z.land b0 15) in *. exists a, inp.
    unfold add_cid_octets. cbn [negb andb]. rewrite (proj2 (Z.ltb_lt 0 a)) by lia.
    split_and!; [done|cbn [app]; by f_equal|lia|lia|done].
  - right. exists 0, (b0 :: inp). split_and!; (done || lia).
Qed.

Lemma read_large_cid_inv pre b0 tail large a : bytes_ok tail -> 0 <= a <= 15 -> (large = true -> a = 0) ->
  let inp := pre ++ b0 :: tail in
  read_large_cid inp (blen pre + 1) large a = Rej \/
  exists c t, read_large_cid inp (blen pre + 1) large a = Ok (c, cid_len_of c large) /\
    tail = large_cid_part c large ++ t /\ 0 <= c /\ is_valid_for_space c large = true /\ (large = false -> c = a).
Proof.
  intros Hb Ha Hl inp. unfold read_large_cid, cid_len_of, large_cid_part, is_valid_for_space. destruct large.
  - assert (E : tail_from inp (blen pre + 1) = Ok tail).
    { unfold inp. rewrite (cons_middle b0), app_assoc. change 1 with (blen [b0]). rewrite <- blen_app. apply tail_from_app. }
    rewrite E. cbn [obind]. pose proof (read_large_inv tail Hb) as R.
    destruct (read_large tail) as [[c n]| |]; [|by left|done]. destruct R as (Hc & -> & t & ->). right. exists c, t.
    split_and!; [done|done|lia|apply Z.leb_le; lia|done].
  - right. exists a, tail. split_and!; [done|done|lia|unfold is_small, small_cid_max; apply Z.leb_le; lia|done].
Qed.

(** The octets and fields of an accepted packet. *)
Definition held (p : Profile) (v : FormalCoVariant) (o : bytes) (consumed : bool) (t : bytes) (b0 : Z) : Prop :=
  exists rest post fields, t = rest ++ post /\
    length (b0 :: rest) = Z.to_nat (formal_co_base_len p v) /\ bytes_ok (b0 :: rest) /\
    holds (base_octets b0 rest) 0 (layout p v fields (if formal_co_variant_uses_crc3 v then crc3 o else crc7 o)) /\
    (post <> [] -> consumed = true).

Section Accepting.
Context (p : Profile) (v : FormalCoVariant) (large : bool) (i : FormalCoCrcInput) (o : bytes) (consumed : bool).
Context (H : is_format p v) (Hr : reads i o).

(** After the base: the CRC decides, and then what is left over. *)
Lemma check_packet_inv fields crc' inp n q : 0 <= crc' < 2 ^ crc_bits v -> n <= blen inp ->
  (exists q', check_packet i inp n consumed (filled p v fields crc' q) = (Rej, q')) \/
  (crc' = (if formal_co_variant_uses_crc3 v then crc3 o else crc7 o) /\ (n <> blen inp -> consumed = true)).
Proof.
  intros Hc Hn. destruct (header_crc_reads v i o Hr) as (_ & Ec & _). unfold check_packet.
  erewrite bind_ok by reflexivity. change (fp_variant (filled p v fields crc' q)) with v. rewrite Ec.
  erewrite bind_ok by reflexivity. change (fp_header_crc (filled p v fields crc' q)) with (low (crc_bits v) crc').
  unfold low. rewrite Z.mod_small by done. destruct (Z.eqb_spec crc' (if formal_co_variant_uses_crc3 v then crc3 o else crc7 o)) as [->|]; [|left; by eexists].
  erewrite bind_ok by reflexivity. unfold finish. destruct consumed; [by right|].
  destruct (Z.eqb_spec n (blen inp)); [by right|left; by eexists].
Qed.

Lemma decode_frame_inv c b0 t q (inp := frame c large b0 t) : 0 <= c -> is_valid_for_space c large = true ->
  bytes_ok (b0 :: t) -> size_ok (blen inp) ->
  (exists q', decode_formal_co_at inp p v large i consumed (blen (add_cid_octets c large)) (if large then 0 else c) q =
    (Rej, q')) \/ held p v o consumed t b0.
Proof.
  intros Hc Hs Hb Hz. destruct (layout_bits p v (mkFormalCoFields 0 0 0 false) 0 H) as [_ Hbl].
  destruct (Z.ltb_spec (blen t) ((formal_co_base_len p v) - 1)) as [Hshort|Hlong].
  - left. destruct (read_frame c large Hc Hs b0 t) as (_ & R2 & R3 & R4 & R5).
    pose proof (suffix_at_len _ _ _ R5) as [Hp Hend]. fold inp in R2, R3, R4, R5, Hend. unfold size_ok in Hz.
    eexists. unfold decode_formal_co_at. cbv beta iota zeta. rewrite (proj2 (Z.leb_gt (blen inp) _)) by lia.
    erewrite bind_ok by reflexivity. rewrite R3. erewrite bind_ok by reflexivity. rewrite R4.
    erewrite bind_ok by reflexivity. cbv beta iota. pose proof (blen_nonneg t).
    rewrite usub_small by lia. rewrite (proj2 (Z.ltb_lt (blen inp - _) ((formal_co_base_len p v) - 1))) by lia. reflexivity.
  - set (rest := take (Z.to_nat ((formal_co_base_len p v) - 1)) t). set (post := drop (Z.to_nat ((formal_co_base_len p v) - 1)) t).
    assert (Ett : t = rest ++ post) by (symmetry; apply take_drop).
    assert (Lrest : length (b0 :: rest) = Z.to_nat (formal_co_base_len p v)).
    { unfold rest. cbn [length]. rewrite length_take. unfold blen in Hlong. lia. }
    assert (Hbr : bytes_ok (b0 :: rest)).
    { apply bytes_ok_cons in Hb as [Hb0 Hb]. apply bytes_ok_cons. split; [done|]. by apply bytes_ok_take. }
    assert (Hn : required_len c large ((formal_co_base_len p v) - 1) <= blen inp /\ (required_len c large ((formal_co_base_len p v) - 1) = blen inp <-> post = [])).
    { unfold inp. rewrite (frame_len _ _ Hs), Ett, blen_app. cbn [length] in Lrest.
      assert (blen rest = (formal_co_base_len p v) - 1) as -> by (unfold blen; lia). pose proof (blen_nonneg post). unfold required_len.
      split; [lia|]. destruct post; [change (blen []) with 0|rewrite blen_cons; pose proof (blen_nonneg post)]; split; (done || lia). }
    subst inp. rewrite Ett in Hz, Hn |- *. rewrite decode_at_frame by done. set (q1 := q <| fp_profile := p |> <| fp_cid := c |> <| fp_large_cid := large |> <| fp_cid_len := cid_len_of c large |>).
    assert (Hlb : length (base_octets b0 rest) = 4%nat).
    { unfold base_octets. cbn [length] in *. rewrite length_app, repeat_length. lia. }
    unfold bind at 1. destruct (read_base_inv p v (base_octets b0 rest) q1 H Hlb) as [(fields & crc' & Hh & Hc')|(s' & Es)];
      [|left; eexists; by rewrite Es].
    destruct (read_base p v fields crc' (base_octets b0 rest) q1 H Hlb Hh) as (r & Erd). rewrite Erd. cbn [snd].
    destruct (check_packet_inv fields crc' (frame c large b0 (rest ++ post)) (required_len c large ((formal_co_base_len p v) - 1)) q1 Hc' (proj1 Hn))
      as [Hrej|[-> Hcons]]; [by left|]. right. exists rest, post, fields. split_and!; [done|done|done|done|].
    intros Hne. apply Hcons. intros E%Hn. done.
Qed.
End Accepting.

Lemma is_format_supported p v : is_format p v -> is_supported_formal_co_profile p = true.
Proof. intros (H & _). unfold formal_co_variant_valid_for_profile in H. by destruct (is_supported_formal_co_profile p). Qed.

(** What a format decoder does with what it is given: it refuses, or there is
    a CID, a first octet and what follows. *)
Lemma decode_cases inp p v large i o consumed s : is_format p v -> reads i o -> bytes_ok inp -> size_ok (blen inp) ->
  fst (decode_formal_co inp p v large i consumed s) = Rej \/
  exists c b0 t, inp = frame c large b0 t /\ 0 <= c /\ is_valid_for_space c large = true /\ bytes_ok (b0 :: t) /\
    held p v o consumed t b0.
Proof.
  intros H Hr Hb Hz. destruct (header_crc_reads v i o Hr) as (Hv & _). pose proof H as (Hval & _ & _).
  destruct (layout_bits p v (mkFormalCoFields 0 0 0 false) 0 H) as [_ Hbl].
  unfold decode_formal_co. erewrite bind_ok by reflexivity. rewrite Hval, Hv.
  destruct (decide (inp = [])) as [->|Hne]; [by left|].
  rewrite (proj2 (Z.eqb_neq (blen inp) 0)) by (destruct inp; [done|rewrite blen_cons; pose proof (blen_nonneg inp); lia]).
  erewrite bind_ok by reflexivity.
  rewrite (proj2 (Z.eqb_neq (formal_co_base_len p v) 0)), (proj2 (Z.ltb_ge 4 (formal_co_base_len p v))) by lia.
  erewrite bind_ok by reflexivity.
  destruct (read_add_cid_inv inp large Hb Hne) as [->|(a & tail & -> & Ei & Ha & Hla)]; [by left|].
  erewrite bind_ok by reflexivity. cbn [fst snd]. set (q := no_packet). rewrite Ei in Hb. apply Forall_app in Hb as [_ Hb].
  destruct tail as [|b0 tail].
  { left. unfold decode_formal_co_at. rewrite Ei, app_nil_r, (proj2 (Z.leb_le _ _)) by lia. done. }
  pose proof Hb as [Hb0 Hbt]%bytes_ok_cons.
  destruct (read_large_cid_inv (add_cid_octets a large) b0 tail large a Hbt Ha Hla) as [R|(c & t & R & Et & Hc & Hs & Hca)].
  { left. unfold decode_formal_co_at. cbv beta iota zeta. rewrite <- Ei in R.
    rewrite (proj2 (Z.leb_gt (blen inp) _)) by (rewrite Ei, blen_app, blen_cons; pose proof (blen_nonneg tail); lia).
    erewrite bind_ok by reflexivity. rewrite Ei at 1. rewrite rd_app_0. erewrite bind_ok by reflexivity. by rewrite R. }
  assert (Ea : a = if large then 0 else c) by (destruct large; [by apply Hla|by rewrite Hca]).
  assert (Ef : inp = frame c large b0 t).
  { rewrite Ei, Et. unfold frame. rewrite Ea. unfold add_cid_octets. by destruct large. }
  assert (Ep : add_cid_octets a large = add_cid_octets c large) by (rewrite Ea; unfold add_cid_octets; by destruct large).
  rewrite Et in Hbt. apply Forall_app in Hbt as [_ Hbt]. rewrite Ep, Ea, Ef. rewrite Ef in Hz.
  assert (Hb1 : bytes_ok (b0 :: t)) by (by apply bytes_ok_cons).
  destruct (decode_frame_inv p v large i o consumed H Hr c b0 t q Hc Hs Hb1 Hz) as [(q' & ->)|Hh]; [by left|].
  right. by exists c, b0, t.
Qed.

(** * The PT-0 functions *)

Lemma byte_forall2 (P : Z -> Z -> bool) : forallb (fun a => forallb (P a) all_bytes) all_bytes = true ->
  forall a b, byte_ok a -> byte_ok b -> P a b = true.
Proof. intros H a b Ha Hb. apply (byte_forall (P a)); [|done]. by apply (byte_forall (fun a => forallb (P a) all_bytes)). Qed.

Definition pt0_fields (msn : Z) : FormalCoFields := mkFormalCoFields msn 0 0 false.

(** Bits [p .. p + n) are those of [x]. *)
Definition bits_eqb (base : bytes) (p : Z) (n : nat) (x : Z) : bool := bool_decide (bits_at base p n = bits_of x n).

Lemma pt0_crc3_held p first : is_supported_formal_co_profile p = true -> byte_ok first ->
  if Z.land first 0x80 =? 0 then
    holds (base_octets first []) 0 (layout p Pt0Crc3 (pt0_fields (Z.land (Z.shiftr first 3) 0x0F)) (Z.land first 0x07)) /\
    u16 (Z.land (Z.shiftr first 3) 0x0F) = low 4 (Z.land (Z.shiftr first 3) 0x0F) /\
    u8 (Z.land first 0x07) = low 3 (Z.land first 0x07) /\ 0 <= Z.land first 0x07 < 8
  else bits_at (base_octets first []) 0 1 <> bits_of 0 1.
Proof.
  intros Hp Hb. pose proof (byte_forall (fun x =>
    if Z.land x 0x80 =? 0 then
      bits_eqb (base_octets x []) 0 1 0 && bits_eqb (base_octets x []) 1 4 (low 4 (Z.land (Z.shiftr x 3) 0x0F)) &&
      bits_eqb (base_octets x []) 5 3 (low 3 (Z.land x 0x07)) &&
      (u16 (Z.land (Z.shiftr x 3) 0x0F) =? low 4 (Z.land (Z.shiftr x 3) 0x0F)) &&
      (u8 (Z.land x 0x07) =? low 3 (Z.land x 0x07)) && (0 <=? Z.land x 0x07) && (Z.land x 0x07 <? 8)
    else negb (bits_eqb (base_octets x []) 0 1 0)) ltac:(vm_compute; reflexivity) first Hb) as D. cbv beta in D.
  destruct (Z.land first 128 =? 0); unfold bits_eqb in D; bool_prop; [|done].
  destruct p; try discriminate Hp; (split; [by repeat split|done]).
Qed.

(** The number a PT-0 packet with the 7-bit CRC carries, of [5] or [6] bits. *)
Definition pt0_msn (rtp : bool) (first tail : Z) : Z :=
  Z.lor (Z.shiftl (Z.land first (if rtp then 0x0F else 0x1F)) 1) (Z.land (Z.shiftr tail 7) 0x01).
Definition pt0_tag_ok (rtp : bool) (first : Z) : bool :=
  Z.land first (if rtp then 0xF0 else 0xE0) =? 0x80.

(** The octets hold the tag, the number and the CRC. *)
Definition pt0_held_ok (rtp : bool) (first tail : Z) : bool :=
  let w := if rtp then 4%nat else 3%nat in
  if pt0_tag_ok rtp first then
    bits_eqb (base_octets first [tail]) 0 w (if rtp then 8 else 4) &&
    bits_eqb (base_octets first [tail]) (Z.of_nat w) (9 - w) (low (9 - Z.of_nat w) (pt0_msn rtp first tail)) &&
    bits_eqb (base_octets first [tail]) 9 7 (low 7 (Z.land tail 0x7F)) &&
    (u16 (pt0_msn rtp first tail) =? low (9 - Z.of_nat w) (pt0_msn rtp first tail)) &&
    (u8 (Z.land tail 0x7F) =? low 7 (Z.land tail 0x7F)) && (0 <=? Z.land tail 0x7F) && (Z.land tail 0x7F <? 128)
  else negb (bits_eqb (base_octets first [tail]) 0 w (if rtp then 8 else 4)).

Lemma pt0_crc7_held p first tail : is_supported_formal_co_profile p = true -> byte_ok first -> byte_ok tail ->
  let rtp := is_rtp_formal_co_profile p in
  if pt0_tag_ok rtp first then
    holds (base_octets first [tail]) 0 (layout p Pt0Crc7 (pt0_fields (pt0_msn rtp first tail)) (Z.land tail 0x7F)) /\
    u16 (pt0_msn rtp first tail) = low (if rtp then 5 else 6) (pt0_msn rtp first tail) /\
    u8 (Z.land tail 0x7F) = low 7 (Z.land tail 0x7F) /\ 0 <= Z.land tail 0x7F < 128
  else bits_at (base_octets first [tail]) 0 (Z.to_nat (if rtp then 4 else 3)) <> bits_of (if rtp then 8 else 4) (Z.to_nat (if rtp then 4 else 3)).
Proof.
  intros Hp Hf Ht rtp.
  assert (D : pt0_held_ok rtp first tail = true).
  { destruct rtp; (apply byte_forall2; [vm_compute; reflexivity|done|done]). }
  unfold pt0_held_ok in D. cbv zeta in D.
  destruct p; try discriminate Hp; subst rtp;
    match goal with |- context [is_rtp_formal_co_profile ?p] => let b := eval vm_compute in (is_rtp_formal_co_profile p) in
      change (is_rtp_formal_co_profile p) with b in * end; cbv iota in *;
    destruct (pt0_tag_ok _ first); unfold bits_eqb in D; bool_prop; first [done | split; [by repeat split|done]].
Qed.

(** Both accept with the same packet, or both refuse. *)
Definition same_answer (r1 r2 : outcome Z * FormalCoPacket) : Prop :=
  match r1, r2 with
  | (Ok n1, q1), (Ok n2, q2) => n1 = n2 /\ q1 = q2
  | (Rej, _), (Rej, _) => True
  | _, _ => False
  end.

Lemma same_refused r1 r2 : fst r1 = Rej -> fst r2 = Rej -> same_answer r1 r2.
Proof. by destruct r1 as [[]], r2 as [[]]. Qed.

Lemma check_packet_same i o inp n consumed q : reads i o ->
  same_answer (check_packet i inp n consumed q) (check_packet i inp n consumed q).
Proof.
  intros Hr. destruct (header_crc_reads (fp_variant q) i o Hr) as (_ & Ec & _). unfold check_packet.
  erewrite bind_ok by reflexivity. rewrite Ec. erewrite bind_ok by reflexivity.
  destruct (_ =? _); [|done]. erewrite bind_ok by reflexivity. unfold finish. by destruct (_ || _).
Qed.

Definition pt0_variant (first : Z) : FormalCoVariant := if Z.land first 0x80 =? 0 then Pt0Crc3 else Pt0Crc7.

Lemma pt0_is_format p v : is_supported_formal_co_profile p = true -> v = Pt0Crc3 \/ v = Pt0Crc7 -> is_format p v.
Proof. intros Hp [-> | ->]; (split; [unfold formal_co_variant_valid_for_profile; by rewrite Hp|done]). Qed.

Lemma bind_ext {S A B} (m : M S A) (k k' : A -> M S B) s : (forall a s, k a s = k' a s) -> bind m k s = bind m k' s.
Proof. intros E. unfold bind. destruct (m s) as [[a| |] s']; [apply E|done|done]. Qed.

(** What PT-0 puts in a packet whose other fields are clear. *)
Lemma filled_pt0 p v m k q : is_supported_formal_co_profile p = true -> v = Pt0Crc3 \/ v = Pt0Crc7 ->
  fp_ip_id q = 0 -> fp_ts_scaled q = 0 -> fp_marker q = false ->
  filled p v (pt0_fields m) k q =
  q <| fp_variant := v |> <| fp_msn := low (formal_co_msn_lsb_bits p v) m |> <| fp_header_crc := low (crc_bits v) k |>.
Proof.
  intros Hp Hv E1 E2 E3. unfold filled. cbn [pt0_fields f_msn f_ip_id f_ts_scaled f_marker].
  assert (Ei : formal_co_ip_id_lsb_bits p v = 0 /\ formal_co_ts_scaled_lsb_bits p v = 0 /\ formal_co_variant_has_marker v = false).
  { destruct Hv as [-> | ->]; by destruct p. }
  destruct Ei as (-> & -> & ->). rewrite low_0. generalize (low (formal_co_msn_lsb_bits p v) m) (low (crc_bits v) k).
  intros x y. destruct q. cbn in E1, E2, E3. subst. vm_compute. reflexivity.
Qed.

(** The long PT-0 packet behind its CID. *)
Definition pt0_long (rtp : bool) (first : Z) (i : FormalCoCrcInput) (inp : bytes) (n : Z) (has consumed : bool) :
    M FormalCoPacket Z :=
  modify (fun q => q <| fp_variant := Pt0Crc7 |>) ;;;
  guard (negb (blen inp <=? n)) ;;;
  tail <- lift (rd inp n) ;;
  guard (pt0_tag_ok rtp first) ;;;
  modify (fun q => q <| fp_msn := u16 (pt0_msn rtp first tail) |>) ;;;
  modify (fun q => q <| fp_header_crc := u8 (Z.land tail 0x7F) |>) ;;;
  q <- gets (fun q => q) ;;
  crc <- lift (formal_co_header_crc (fp_variant q) i) ;;
  guard (fp_header_crc q =? crc) ;;;
  guard (negb (has && (fp_cid q =? 0))) ;;;
  finish inp (n + 1) consumed.

Lemma pt0_long_short rtp first i inp n has consumed q : blen inp <= n ->
  fst (pt0_long rtp first i inp n has consumed q) = Rej.
Proof. intros Hn. unfold pt0_long. erewrite bind_ok by reflexivity. by rewrite (proj2 (Z.leb_le _ n)) by lia. Qed.

Lemma pt0_long_tag rtp first i inp n has consumed q x : n < blen inp -> rd inp n = Ok x -> pt0_tag_ok rtp first = false ->
  fst (pt0_long rtp first i inp n has consumed q) = Rej.
Proof.
  intros Hn Hx Ht. unfold pt0_long. erewrite bind_ok by reflexivity. rewrite (proj2 (Z.leb_gt _ n)) by lia.
  erewrite bind_ok by reflexivity. rewrite Hx. erewrite bind_ok by reflexivity. by rewrite Ht.
Qed.

Lemma pt0_long_run rtp first i o inp n has consumed q x : reads i o -> n < blen inp -> rd inp n = Ok x ->
  pt0_tag_ok rtp first = true -> (has = true -> fp_cid q <> 0) ->
  same_answer (pt0_long rtp first i inp n has consumed q)
    (check_packet i inp (n + 1) consumed
       (q <| fp_variant := Pt0Crc7 |> <| fp_msn := u16 (pt0_msn rtp first x) |> <| fp_header_crc := u8 (Z.land x 0x7F) |>)).
Proof.
  intros Hr Hn Hx Ht Hh. unfold pt0_long. erewrite bind_ok by reflexivity. rewrite (proj2 (Z.leb_gt _ n)) by lia.
  erewrite bind_ok by reflexivity. rewrite Hx. erewrite bind_ok by reflexivity. rewrite Ht. do 3 (erewrite bind_ok by reflexivity).
  cbv beta. set (r := _ <| fp_header_crc := _ |>). assert (Er : fp_cid r = fp_cid q) by done. clearbody r.
  destruct (header_crc_reads (fp_variant r) i o Hr) as (_ & Ec & _). unfold check_packet, bind, gets, lift, guard.
  rewrite Ec. destruct (fp_header_crc r =? _); [|done]. cbn [oguard lift].
  assert (Eg : negb (has && (fp_cid r =? 0)) = true).
  { rewrite Er. destruct has; [|done]. by rewrite (proj2 (Z.eqb_neq (fp_cid q) 0)) by auto. }
  rewrite Eg. unfold finish, bind, guard, lift. by destruct (consumed || _).
Qed.

(** A CID of 0 that was announced is refused in the end. *)
Lemma pt0_long_zero rtp first i o inp n consumed q : reads i o -> 0 <= n -> fp_cid q = 0 ->
  fst (pt0_long rtp first i inp n true consumed q) = Rej.
Proof.
  intros Hr Hn Hq. destruct (Z.leb_spec (blen inp) n); [by apply pt0_long_short|].
  assert (Hx : rd inp n = Ok (nth (Z.to_nat n) inp 0)) by (by apply rd_nth). set (x := nth _ _ _) in Hx.
  destruct (pt0_tag_ok rtp first) eqn:Ht; [|by eapply pt0_long_tag].
  unfold pt0_long. erewrite bind_ok by reflexivity. rewrite (proj2 (Z.leb_gt _ n)) by lia.
  erewrite bind_ok by reflexivity. rewrite Hx. erewrite bind_ok by reflexivity. rewrite Ht. do 3 (erewrite bind_ok by reflexivity).
  cbv beta. set (r := _ <| fp_header_crc := _ |>). assert (Er : fp_cid r = fp_cid q) by done. clearbody r.
  destruct (header_crc_reads (fp_variant r) i o Hr) as (_ & Ec & _). unfold bind, gets, lift, guard.
  rewrite Ec, Er, Hq. by destruct (fp_header_crc r =? _).
Qed.

(** The special decoder behind the CID. *)
Lemma pt0_at_cid inp p large i consumed has pos a c cl b0 q : rd inp pos = Ok b0 ->
  read_large_cid inp (pos + 1) large a = Ok (c, cl) ->
  decode_formal_co_pt0_at inp p large i consumed has pos a q =
  (if Z.land b0 0x80 =? 0 then
     modify (fun q => q <| fp_variant := Pt0Crc3 |> <| fp_msn := u16 (Z.land (Z.shiftr b0 3) 0x0F) |>
                        <| fp_header_crc := u8 (Z.land b0 0x07) |>) ;;;
     check_packet i inp (pos + 1 + cl) consumed
   else pt0_long (is_rtp_formal_co_profile p) b0 i inp (pos + 1 + cl) has consumed)
  (q <| fp_profile := p |> <| fp_cid := c |> <| fp_large_cid := large |> <| fp_cid_len := cl |>).
Proof.
  intros Hb Hl. unfold decode_formal_co_pt0_at. cbv zeta.
  rewrite Hb. erewrite bind_ok by reflexivity. rewrite Hl. erewrite bind_ok by reflexivity. cbv beta iota.
  erewrite bind_ok by reflexivity. unfold pt0_long, pt0_tag_ok, pt0_msn.
  destruct (Z.land b0 128 =? 0); [done|].
  do 3 (apply bind_ext; intros). by destruct (is_rtp_formal_co_profile p); rewrite bind_assoc.
Qed.

(** The check leaves the packet as it is. *)
Lemma check_packet_keeps i o inp n consumed q : reads i o ->
  match check_packet i inp n consumed q with (Ok _, q') => q' = q | (Rej, _) => True | (Ub, _) => False end.
Proof.
  intros Hr. destruct (header_crc_reads (fp_variant q) i o Hr) as (_ & Ec & _). unfold check_packet.
  erewrite bind_ok by reflexivity. rewrite Ec. erewrite bind_ok by reflexivity.
  destruct (_ =? _); [|done]. erewrite bind_ok by reflexivity. unfold finish. by destruct (_ || _).
Qed.

Section Pt0.
Context (p : Profile) (large : bool) (i : FormalCoCrcInput) (o : bytes) (consumed : bool).
Context (Hp : is_supported_formal_co_profile p = true) (Hr : reads i o).
Context (c b0 : Z) (t : bytes) (Hc : 0 <= c) (Hs : is_valid_for_space c large = true) (Hb : bytes_ok (b0 :: t)).
Context (Hz : size_ok (blen (frame c large b0 t))).

(** The packet with the CID in it. *)
Definition with_cid : FormalCoPacket :=
  no_packet <| fp_profile := p |> <| fp_cid := c |> <| fp_large_cid := large |> <| fp_cid_len := cid_len_of c large |>.

Lemma pt0_msn_bits : formal_co_msn_lsb_bits p Pt0Crc3 = 4 /\
  formal_co_msn_lsb_bits p Pt0Crc7 = if is_rtp_formal_co_profile p then 5 else 6.
Proof. by destruct p. Qed.

(** The special decoder up to the CID. *)
Lemma pt0_front has : exists n, n = required_len c large 0 /\ n <= blen (frame c large b0 t) /\
  suffix_at (frame c large b0 t) n t /\
  decode_formal_co_pt0_at (frame c large b0 t) p large i consumed has (blen (add_cid_octets c large)) (if large then 0 else c) no_packet =
  (if Z.land b0 0x80 =? 0 then
     modify (fun q => q <| fp_variant := Pt0Crc3 |> <| fp_msn := u16 (Z.land (Z.shiftr b0 3) 0x0F) |>
                        <| fp_header_crc := u8 (Z.land b0 0x07) |>) ;;;
     check_packet i (frame c large b0 t) n consumed
   else pt0_long (is_rtp_formal_co_profile p) b0 i (frame c large b0 t) n has consumed) with_cid.
Proof.
  destruct (read_frame c large Hc Hs b0 t) as (_ & R2 & R3 & R4 & R5).
  pose proof (frame_len c large Hs b0 t) as Lf. pose proof (suffix_at_len _ _ _ R5) as [Hn0 Hn].
  set (pos := blen (add_cid_octets c large)) in *. set (inp := frame c large b0 t) in *.
  exists (pos + 1 + cid_len_of c large). pose proof (blen_nonneg t). unfold required_len in *.
  split; [lia|]. split; [lia|]. split; [done|]. by apply pt0_at_cid.
Qed.

Lemma decode_at_filled v fields crc rest post : is_format p v -> t = rest ++ post ->
  length (b0 :: rest) = Z.to_nat (formal_co_base_len p v) -> holds (base_octets b0 rest) 0 (layout p v fields crc) ->
  decode_formal_co_at (frame c large b0 t) p v large i consumed (blen (add_cid_octets c large)) (if large then 0 else c) no_packet =
  check_packet i (frame c large b0 t) (required_len c large (formal_co_base_len p v - 1)) consumed (filled p v fields crc with_cid).
Proof.
  intros Hf Et Hl Hh. destruct (layout_bits p v fields crc Hf) as [_ Hbl]. rewrite Et. rewrite Et in Hz.
  rewrite decode_at_frame by done. fold with_cid.
  destruct (read_base p v fields crc (base_octets b0 rest) with_cid Hf) as (r & Erd);
    [unfold base_octets; cbn [length] in *; rewrite length_app, repeat_length; lia|exact Hh|].
  unfold bind at 1. by rewrite Erd.
Qed.

(** On the same first octet the special decoder does what the general one
    does for the variant the octet names. *)
Lemma pt0_frame has : (has = true -> c <> 0) ->
  same_answer
    (decode_formal_co_pt0_at (frame c large b0 t) p large i consumed has (blen (add_cid_octets c large)) (if large then 0 else c) no_packet)
    (decode_formal_co_at (frame c large b0 t) p (pt0_variant b0) large i consumed (blen (add_cid_octets c large)) (if large then 0 else c) no_packet).
Proof.
  intros Hhas. destruct (pt0_front has) as (n & En & Hn & Ht & ->). pose proof Hb as [Hb0 Hbt]%bytes_ok_cons.
  destruct pt0_msn_bits as [M3 M7]. unfold pt0_variant. destruct (Z.land b0 0x80 =? 0) eqn:E0.
  - pose proof (pt0_crc3_held p b0 Hp Hb0) as D. rewrite E0 in D. destruct D as (Hh & E1 & E2 & Hc3).
    pose proof (pt0_is_format p Pt0Crc3 Hp ltac:(by left)) as Hf.
    assert (Ebl : formal_co_base_len p Pt0Crc3 = 1) by (by destruct p).
    rewrite (decode_at_filled _ _ _ [] t Hf eq_refl ltac:(by rewrite Ebl) Hh), Ebl.
    change (1 - 1) with 0. rewrite <- En. erewrite bind_ok by reflexivity.
    assert (Eq : with_cid <| fp_variant := Pt0Crc3 |> <| fp_msn := u16 (Z.land (Z.shiftr b0 3) 0x0F) |>
        <| fp_header_crc := u8 (Z.land b0 0x07) |> =
      filled p Pt0Crc3 (pt0_fields (Z.land (Z.shiftr b0 3) 0x0F)) (Z.land b0 0x07) with_cid).
    { rewrite E1, E2, filled_pt0, M3 by (done || by left). reflexivity. }
    rewrite Eq. by apply (check_packet_same i o).
  - assert (Ebl : formal_co_base_len p Pt0Crc7 = 2) by (by destruct p).
    pose proof (pt0_is_format p Pt0Crc7 Hp ltac:(by right)) as Hf. pose proof (suffix_at_len _ _ _ Ht) as [_ Hlen].
    assert (Hcase : t = [] \/ exists t0 post, t = t0 :: post) by (clear; destruct t; eauto).
    destruct Hcase as [Et|(t0 & post & Et)].
    { assert (blen t = 0) by (by rewrite Et). apply same_refused; [apply pt0_long_short; lia|].
      destruct (decode_frame_inv p Pt0Crc7 large i o consumed Hf Hr c b0 t no_packet Hc Hs Hb Hz) as [(q' & ->)|Hh]; [done|].
      destruct Hh as (rest & post & fields & E & Hl & _). rewrite Et in E. symmetry in E. apply app_nil in E as [-> ->].
      rewrite Ebl in Hl. done. }
    assert (Hlt : blen t = 1 + blen post) by (by rewrite Et, blen_cons). pose proof (blen_nonneg post).
    rewrite Et in Hbt. apply bytes_ok_cons in Hbt as [Ht0 Hbp].
    assert (Erd0 : rd (frame c large b0 t) n = Ok t0) by (destruct Ht as (pre & -> & <-); rewrite Et; apply rd_app_0).
    pose proof (pt0_crc7_held p b0 t0 Hp Hb0 Ht0) as D. cbv zeta in D.
    destruct (pt0_tag_ok (is_rtp_formal_co_profile p) b0) eqn:Etag.
    + destruct D as (Hh & E1 & E2 & Hc7).
      rewrite (decode_at_filled _ _ _ [t0] post Hf Et ltac:(by rewrite Ebl) Hh), Ebl.
      replace (required_len c large (2 - 1)) with (n + 1) by (rewrite En; unfold required_len; lia).
      rewrite filled_pt0, M7 by (done || by right). change (crc_bits Pt0Crc7) with 7. rewrite <- E1, <- E2.
      apply (pt0_long_run _ _ i o); [done|lia|done|done|exact Hhas].
    + destruct (decode_frame_inv p Pt0Crc7 large i o consumed Hf Hr c b0 t no_packet Hc Hs Hb Hz) as [(q' & ->)|Hh];
        [apply same_refused; [by eapply pt0_long_tag; [lia|..]|done]|].
      exfalso. destruct Hh as (rest & post' & fields & E & Hl & _ & Hh & _). rewrite Ebl in Hl. rewrite Et in E.
      destruct rest as [|x [|]]; [done| |done]. injection E as -> ->. apply D. clear -Hp Hh.
      destruct p; try discriminate Hp; open_layout Hh; exact (proj1 Hh).
Qed.
End Pt0.

(** * What the claims state *)

(** C16: A format decoder accepts nothing but what the format emitter writes:
    on any octets it stays inside them and ends, and when it accepts, they
    start with the packet the emitter writes for the decoded CID and some
    fields, whose low bits are the decoded ones, and whatever follows it was
    asked for. *)
Theorem formal_co_accepts_exactly p v inp large i o consumed s
  (Hf : is_format p v) (Hi : reads i o) (Hb : bytes_ok inp) (Hz : size_ok (blen inp)) :
  match decode_formal_co inp p v large i consumed s with
  | (Ok n, q) =>
      exists fields out post, inp = out ++ post /\ blen out = n /\ (post <> [] -> consumed = true) /\
        emit_formal_co p v (fp_cid q) large fields i {| w_out := []; w_cap := n |} =
          (Ok tt, {| w_out := out; w_cap := n |}) /\
        q = decoded p v (fp_cid q) large fields (if formal_co_variant_uses_crc3 v then crc3 o else crc7 o)
  | (Rej, _) => True
  | (Ub, _) => False
  end.
Proof.
  destruct (decode_cases inp p v large i o consumed s Hf Hi Hb Hz) as [E|(c & b0 & t & -> & Hc & Hs & Hbt & Hh)].
  { by destruct (decode_formal_co _ _ _ _ _ _ _) as [[]]. }
  destruct Hh as (rest & post & fields & -> & Hl & Hbr & Hh & Hcons).
  rewrite (decode_run p v c large fields i o b0 rest post consumed s) by done.
  exists fields, (frame c large b0 rest), post. rewrite frame_app. change (fp_cid (decoded _ _ c _ _ _)) with c.
  assert (Ebr : blen rest = formal_co_base_len p v - 1).
  { destruct (layout_bits p v fields 0 Hf) as [_ Hbl]. cbn [length] in Hl. unfold blen. lia. }
  split; [done|]. split; [by rewrite (frame_len _ _ Hs), Ebr|]. split; [done|]. split; [|done].
  eapply emit_held; done.
Qed.

(** The octets of PT-0 hold its fields, for every number and CRC. *)
Definition pt0_octet_short (m c : Z) : Z := u8 (Z.lor (Z.shiftl m 3) (Z.land c 0x07)).
Definition pt0_octet_first (rtp : bool) (m : Z) : Z :=
  u8 (Z.lor 0x80 (Z.land (Z.shiftr (u8 m) 1) (if rtp then 0x0F else 0x1F))).
Definition pt0_octet_tail (m c : Z) : Z := u8 (Z.lor (Z.shiftl (Z.land (u8 m) 0x01) 7) (Z.land c 0x7F)).

Definition pt0_octets_ok (rtp : bool) (m c : Z) : bool :=
  let w := if rtp then 4%nat else 3%nat in
  let base := base_octets (pt0_octet_first rtp m) [pt0_octet_tail m c] in
  let short := base_octets (pt0_octet_short m c) [] in
  if (m <? 2 ^ (9 - Z.of_nat w)) && (c <? 128) then
    if bits_eqb base 0 w (if rtp then 8 else 4) then
      if bits_eqb base (Z.of_nat w) (9 - w) m then
        if bits_eqb base 9 7 c then
          if (m <? 16) && (c <? 8) then
            bits_eqb short 0 1 0 && bits_eqb short 1 4 m && bits_eqb short 5 3 c
          else true
        else false
      else false
    else false
  else true.

Lemma pt0_octets_held rtp m c : byte_ok m -> byte_ok c -> pt0_octets_ok rtp m c = true.
Proof. destruct rtp; apply byte_forall2; vm_compute; reflexivity. Qed.

Lemma emit_pt0_run p v cid_value large msn i o cap : is_supported_formal_co_profile p = true ->
  v = Pt0Crc3 \/ v = Pt0Crc7 -> 0 <= cid_value -> is_valid_for_space cid_value large = true -> reads i o ->
  let n := required_len cid_value large (formal_co_base_len p v - 1) in
  if n <=? cap then
    exists b0 rest, emit_formal_co_pt0 p v cid_value large msn i {| w_out := []; w_cap := cap |} =
      (Ok tt, {| w_out := frame cid_value large b0 rest; w_cap := cap |}) /\
    length (b0 :: rest) = Z.to_nat (formal_co_base_len p v) /\ bytes_ok (b0 :: rest) /\
    holds (base_octets b0 rest) 0
      (layout p v (pt0_fields msn) (if formal_co_variant_uses_crc3 v then crc3 o else crc7 o))
  else fst (emit_formal_co_pt0 p v cid_value large msn i {| w_out := []; w_cap := cap |}) = Rej.
Proof.
  intros Hp Hv Hc Hs Hr n. destruct (header_crc_reads v i o Hr) as (Hi & Ec & Hcrc).
  set (crc := if formal_co_variant_uses_crc3 v then crc3 o else crc7 o) in *.
  assert (Ebl : formal_co_base_len p v = formal_co_pt0_base_len v) by (destruct Hv as [-> | ->]; by destruct p).
  unfold emit_formal_co_pt0. rewrite Hp, Hs, Hi, <- Ebl. do 2 (erewrite bind_ok by reflexivity).
  change (room {| w_out := []; w_cap := cap |}) with (cap - 0). rewrite Z.sub_0_r. fold n.
  destruct (Z.leb_spec n cap) as [Hf|Hf]; [|by rewrite (proj2 (Z.ltb_lt cap n)) by lia].
  rewrite (proj2 (Z.ltb_ge cap n)) by lia. erewrite bind_ok by reflexivity.
  rewrite Ec. clear Ec. clearbody crc. destruct Hv as [-> | ->].
  - change (2 ^ crc_bits Pt0Crc3) with 8 in Hcrc. pose proof (low_bound 4 msn ltac:(lia)) as Hm.
    pose proof (pt0_octets_held true (low 4 msn) crc ltac:(unfold byte_ok; lia) ltac:(unfold byte_ok; lia)) as D.
    unfold pt0_octets_ok in D. cbv zeta in D.
    rewrite (proj2 (Z.ltb_lt (low 4 msn) (2 ^ _))), (proj2 (Z.ltb_lt crc 128)), (proj2 (Z.ltb_lt (low 4 msn) 16)),
      (proj2 (Z.ltb_lt crc 8)) in D by (try change (2 ^ (9 - Z.of_nat 4)) with 32; lia). cbn [andb] in D.
    do 3 (destruct (bits_eqb _ _ _ _) in D; [|done]). unfold bits_eqb in D. bool_prop.
    exists (pt0_octet_short (low 4 msn) crc), []. split.
    + rewrite low_4. fold (pt0_octet_short (low 4 msn) crc). apply (emits_run _ n); [|done].
      assert (En : n = blen (add_cid_octets cid_value large) + (1 + blen (large_cid_part cid_value large))).
      { unfold n. rewrite Ebl. change (formal_co_pt0_base_len Pt0Crc3 - 1) with (blen []).
        rewrite <- (frame_len cid_value large Hs (pt0_octet_short (low 4 msn) crc) []). unfold frame.
        rewrite app_nil_r, !blen_app. done. }
      rewrite En. eapply emits_eq.
      * apply emits_seq; [by apply emits_co_add_cid| |pose proof (blen_nonneg (large_cid_part cid_value large)); lia].
        apply emits_seq; [apply emits_put|by apply emits_large_part|apply blen_nonneg].
      * cbn [ocat]. unfold frame. by rewrite app_nil_r.
    + split; [by destruct p|]. split; [repeat constructor; apply byte_u8|].
      destruct p; try discriminate Hp; cbn [layout holds pt0_fields f_msn]; change (crc_bits Pt0Crc3) with 3; assert (Ecrc : low 3 crc = crc) by (apply Z.mod_small; lia); rewrite Ecrc; repeat split; assumption.
  - change (2 ^ crc_bits Pt0Crc7) with 128 in Hcrc. set (rtp := is_rtp_formal_co_profile p).
    set (w := if rtp then 5 else 6). assert (Hw : 0 <= w /\ 2 ^ w <= 64) by (unfold w; destruct rtp; lia).
    pose proof (low_bound w msn ltac:(lia)) as Hm.
    pose proof (pt0_octets_held rtp (low w msn) crc ltac:(unfold byte_ok; lia) ltac:(unfold byte_ok; lia)) as D.
    unfold pt0_octets_ok in D. cbv zeta in D.
    rewrite (proj2 (Z.ltb_lt (low w msn) (2 ^ _))), (proj2 (Z.ltb_lt crc 128)) in D by
      (try (unfold w in *; destruct rtp; cbn; lia); lia). cbn [andb] in D.
    destruct (bits_eqb _ 0 _ _) eqn:D1 in D; [|done]. destruct (bits_eqb _ (Z.of_nat _) _ _) eqn:D2 in D; [|done].
    destruct (bits_eqb _ 9 7 _) eqn:D3 in D; [|done]. clear D. unfold bits_eqb in D1, D2, D3. bool_prop.
    exists (pt0_octet_first rtp (low w msn)), [pt0_octet_tail (low w msn) crc]. split.
    + apply (emits_run _ n); [|done]. pose proof (emits_co_frame cid_value large Hc Hs (pt0_octet_first rtp (low w msn))
        (put (pt0_octet_tail (low w msn) crc)) [pt0_octet_tail (low w msn) crc] 1 (emits_put _) eq_refl) as E.
      replace n with (required_len cid_value large 1) by (unfold n; by rewrite Ebl).
      unfold rtp, w, pt0_octet_first, pt0_octet_tail in E. rewrite low_5, low_6. fold rtp.
      fold rtp in E. destruct rtp; exact E.
    + split; [by destruct p|]. split; [repeat constructor; apply byte_u8|].
      assert (Ecrc : low 7 crc = crc) by (apply Z.mod_small; lia). clear -Hp D1 D2 D3 Ecrc.
      destruct p; try discriminate Hp; unfold rtp, w in *; cbn [layout]; eval_rtp;
        cbn [holds pt0_fields f_msn]; change (crc_bits Pt0Crc7) with 7; rewrite Ecrc; repeat split; assumption.
Qed.

(** Whether small CIDs are announced, and the first octet behind the Add-CID. *)
Definition announced (inp : bytes) (large : bool) : bool := negb large && (Z.land (nth 0 inp 0) 0xF0 =? 0xE0).
Definition first_octet_of (inp : bytes) (large : bool) : Z := nth (if announced inp large then 1 else 0) inp 0.

(** An Add-CID of 0: the general decoder refuses it, the special one only with
    the long packet. *)
Lemma pt0_zero_cid inp p i o consumed s v : is_supported_formal_co_profile p = true -> reads i o -> bytes_ok inp ->
  is_format p v -> nth 0 inp 0 = 0xE0 ->
  fst (decode_formal_co inp p v false i consumed s) = Rej /\
  match decode_formal_co_pt0 inp p false i consumed s with
  | (Ok _, q) => fp_variant q = Pt0Crc3 /\ fp_cid q = 0
  | (Rej, _) => True
  | (Ub, _) => False
  end.
Proof.
  intros Hp Hr Hb Hf E0. destruct inp as [|x inp]; [done|]. cbn [nth] in E0. subst x.
  destruct (header_crc_reads v i o Hr) as (Hv & _). pose proof Hf as (Hval & _ & _).
  destruct (layout_bits p v (mkFormalCoFields 0 0 0 false) 0 Hf) as [_ Hbl].
  pose proof (blen_nonneg inp). split.
  - unfold decode_formal_co. rewrite Hval, Hv, blen_cons. erewrite bind_ok by reflexivity. rewrite (proj2 (Z.eqb_neq (1 + blen inp) 0)) by lia.
    erewrite bind_ok by reflexivity.
    rewrite (proj2 (Z.eqb_neq (formal_co_base_len p v) 0)), (proj2 (Z.ltb_ge 4 (formal_co_base_len p v))) by lia. done.
  - unfold decode_formal_co_pt0. rewrite Hp, Hv, blen_cons. erewrite bind_ok by reflexivity. rewrite (proj2 (Z.eqb_neq (1 + blen inp) 0)) by lia.
    erewrite bind_ok by reflexivity. change (rd (0xE0 :: inp) 0) with (Ok 0xE0). cbn [obind].
    change (Z.land 0xE0 0xF0 =? 0xE0) with true. cbv iota. destruct inp as [|b0 t]; [done|].
    rewrite blen_cons. pose proof (blen_nonneg t). rewrite (proj2 (Z.ltb_ge _ 2)) by lia. cbn [negb oguard obind].
    erewrite bind_ok by reflexivity. cbn [fst snd].
    rewrite (pt0_at_cid _ _ _ _ _ _ 1 (Z.land 0xE0 0x0F) 0 0 b0) by done.
    destruct (Z.land b0 128 =? 0).
    + erewrite bind_ok by reflexivity. set (r := _ <| fp_header_crc := _ |>).
      assert (Er : fp_variant r = Pt0Crc3 /\ fp_cid r = 0) by done. clearbody r.
      pose proof (check_packet_keeps i o (0xE0 :: b0 :: t) (1 + 1 + 0) consumed r Hr) as K.
      destruct (check_packet _ _ _ _ _) as [[n| |] q']; [by subst|done|done].
    + pose proof (pt0_long_zero (is_rtp_formal_co_profile p) b0 i o (0xE0 :: b0 :: t) (1 + 1 + 0) consumed
        (no_packet <| fp_profile := p |> <| fp_cid := 0 |> <| fp_large_cid := false |> <| fp_cid_len := 0 |>) Hr ltac:(lia) eq_refl) as R.
      by destruct (pt0_long _ _ _ _ _ _ _ _) as [[]].
Qed.

(** Both decoders behind the same Add-CID. *)
Lemma pt0_behind p large i o consumed a b0 tail (inp := add_cid_octets a large ++ b0 :: tail) :
  is_supported_formal_co_profile p = true -> reads i o -> bytes_ok inp -> size_ok (blen inp) ->
  0 <= a <= 15 -> (large = true -> a = 0) ->
  same_answer
    (decode_formal_co_pt0_at inp p large i consumed (negb large && (0 <? a)) (blen (add_cid_octets a large)) a no_packet)
    (decode_formal_co_at inp p (pt0_variant b0) large i consumed (blen (add_cid_octets a large)) a no_packet).
Proof.
  intros Hp Hr Hb Hz Ha Hla. pose proof Hb as [_ [Hb0 Hbt]%bytes_ok_cons]%Forall_app.
  destruct (read_large_cid_inv (add_cid_octets a large) b0 tail large a Hbt Ha Hla) as [R|(c & t & R & Et & Hc & Hs & Hca)].
  - fold inp in R. assert (Er : rd inp (blen (add_cid_octets a large)) = Ok b0) by apply rd_app_0.
    assert (Hl : blen (add_cid_octets a large) < blen inp).
    { unfold inp. rewrite blen_app, blen_cons. pose proof (blen_nonneg tail). lia. }
    apply same_refused.
    + unfold decode_formal_co_pt0_at. rewrite Er. erewrite bind_ok by reflexivity. cbv zeta. by rewrite R.
    + unfold decode_formal_co_at. cbv beta iota zeta. rewrite (proj2 (Z.leb_gt (blen inp) _)) by lia.
      erewrite bind_ok by reflexivity. rewrite Er. erewrite bind_ok by reflexivity. by rewrite R.
  - assert (Ea : a = if large then 0 else c) by (destruct large; [by apply Hla|by rewrite Hca]).
    assert (Ep : add_cid_octets a large = add_cid_octets c large) by (rewrite Ea; unfold add_cid_octets; by destruct large).
    assert (Ef : inp = frame c large b0 t) by (unfold inp; rewrite Ep, Et; reflexivity).
    rewrite Et in Hbt. apply Forall_app in Hbt as [_ Hbt]. rewrite Ef in Hz |- *. rewrite Ep, Ea.
    apply (pt0_frame p large i o consumed Hp Hr c b0 t Hc Hs); [by apply bytes_ok_cons|done|].
    destruct large; [done|]. cbn [negb andb]. intros E%Z.ltb_lt. lia.
Qed.

Lemma pt0_decoders inp p large i o consumed s : is_supported_formal_co_profile p = true -> reads i o -> bytes_ok inp ->
  size_ok (blen inp) -> large = true \/ nth 0 inp 0 <> 0xE0 ->
  same_answer (decode_formal_co_pt0 inp p large i consumed s)
    (decode_formal_co inp p (pt0_variant (first_octet_of inp large)) large i consumed s).
Proof.
  intros Hp Hr Hb Hz Hne. set (v := pt0_variant (first_octet_of inp large)).
  assert (Hf : is_format p v) by (apply pt0_is_format; [done|unfold v, pt0_variant; destruct (_ =? _); auto]).
  destruct (header_crc_reads v i o Hr) as (Hv & _). pose proof Hf as (Hval & _ & _).
  destruct (layout_bits p v (mkFormalCoFields 0 0 0 false) 0 Hf) as [_ Hbl].
  unfold decode_formal_co_pt0, decode_formal_co. rewrite Hp, Hval, Hv.
  destruct inp as [|x inp]; [done|]. pose proof (blen_nonneg inp).
  rewrite (proj2 (Z.eqb_neq (blen (x :: inp)) 0)) by (rewrite blen_cons; lia).
  rewrite (proj2 (Z.eqb_neq (formal_co_base_len p v) 0)), (proj2 (Z.ltb_ge 4 (formal_co_base_len p v))) by lia.
  unfold read_add_cid. change (rd (x :: inp) 0) with (Ok x). cbn [obind].
  assert (Hplain : announced (x :: inp) large = false ->
    same_answer (decode_formal_co_pt0_at (x :: inp) p large i consumed false 0 0 no_packet)
      (decode_formal_co_at (x :: inp) p v large i consumed 0 0 no_packet)).
  { intros Ean. assert (Ev : v = pt0_variant x) by (unfold v, first_octet_of; by rewrite Ean).
    rewrite Ev. pose proof (pt0_behind p large i o consumed 0 x inp) as B.
    assert (E0 : add_cid_octets 0 large = []) by (by destruct large). rewrite E0 in B. cbn [app] in B.
    rewrite andb_false_r in B. apply B; (done || lia). }
  destruct large; [do 7 (erewrite bind_ok by reflexivity); by apply Hplain|].
  destruct (Z.eqb_spec (Z.land x 0xF0) 0xE0) as [E|E].
  2: { do 7 (erewrite bind_ok by reflexivity). apply Hplain. unfold announced. cbn [negb andb nth]. by apply Z.eqb_neq. }
  pose proof Hb as [Hx _]%bytes_ok_cons. destruct Hne as [|Hne]; [done|]. cbn [nth] in Hne.
  pose proof (byte_forall (fun x => negb (Z.land x 0xF0 =? 0xE0) || ((x =? 0xE0 + Z.land x 0x0F) && (0 <=? Z.land x 0x0F) && (Z.land x 0x0F <=? 15)))
    ltac:(vm_compute; reflexivity) x Hx) as D. cbv beta in D. rewrite E in D. change (0xE0 =? 0xE0) with true in D.
  cbn [negb orb] in D. bool_prop. set (a := Z.land x 15) in *. rewrite (proj2 (Z.eqb_neq a 0)) by lia. cbn [orb].
  destruct (Z.ltb_spec (blen (x :: inp)) 2) as [|Hlen]; [done|]. do 7 (erewrite bind_ok by reflexivity). cbn [fst snd].
  destruct inp as [|b0 tail]; [cbn in Hlen; unfold blen in Hlen; cbn in Hlen; lia|].
  assert (Ev : v = pt0_variant b0).
  { unfold v, first_octet_of, announced. cbn [negb andb nth]. by rewrite E. }
  rewrite Ev. pose proof (pt0_behind p false i o consumed a b0 tail) as B.
  assert (Ep : add_cid_octets a false = [x]).
  { unfold add_cid_octets. cbn [negb andb]. rewrite (proj2 (Z.ltb_lt 0 a)) by lia. by f_equal. }
  rewrite Ep in B. cbn [negb andb] in B. rewrite (proj2 (Z.ltb_lt 0 a)) in B by lia. apply B; (done || lia).
Qed.

(** C18: The special functions for PT-0 do what the general ones do: the emitter
    writes the same octets, or refuses as it does, and the decoder accepts the
    same packets with the same result for the variant the first octet names.
    They differ on an Add-CID of 0 alone: the general decoder refuses it, and
    the special one only in front of a packet with the 7-bit CRC. *)
Theorem formal_pt0_equivalent p v cid_value large msn inp i o consumed cap s
  (Hp : is_supported_formal_co_profile p = true) (Hv : v = Pt0Crc3 \/ v = Pt0Crc7)
  (Hc : 0 <= cid_value) (Hs : is_valid_for_space cid_value large = true)
  (Hi : reads i o) (Hb : bytes_ok inp) (Hz : size_ok (blen inp)) :
  (let special := emit_formal_co_pt0 p v cid_value large msn i {| w_out := []; w_cap := cap |} in
   let general := emit_formal_co p v cid_value large (pt0_fields msn) i {| w_out := []; w_cap := cap |} in
   if required_len cid_value large (formal_co_base_len p v - 1) <=? cap
   then fst special = Ok tt /\ special = general
   else fst special = Rej /\ fst general = Rej) /\
  (let special := decode_formal_co_pt0 inp p large i consumed s in
   let general v := decode_formal_co inp p v large i consumed s in
   if negb large && (nth 0 inp 0 =? 0xE0) then
     fst (general v) = Rej /\
     match special with
     | (Ok _, q) => fp_variant q = Pt0Crc3 /\ fp_cid q = 0
     | (Rej, _) => True
     | (Ub, _) => False
     end
   else same_answer special (general (pt0_variant (first_octet_of inp large)))).
Proof.
  pose proof (pt0_is_format p v Hp Hv) as Hf. split.
  - cbv zeta. pose proof (emit_pt0_run p v cid_value large msn i o cap Hp Hv Hc Hs Hi) as E. cbv zeta in E.
    destruct (emit_run p v cid_value large (pt0_fields msn) i o cap Hf Hc Hs Hi) as (gb & grest & _ & _ & _ & G).
    destruct (Z.leb_spec (required_len cid_value large (formal_co_base_len p v - 1)) cap) as [Hcap|]; [|done].
    destruct E as (b0 & rest & -> & Hl & Hbr & Hh). split; [done|].
    by rewrite (emit_held p v cid_value large (pt0_fields msn) i o b0 rest cap).
  - cbv zeta. destruct large; [apply (pt0_decoders inp p true i o); auto|]. cbn [negb andb].
    destruct (Z.eqb_spec (nth 0 inp 0) 0xE0); [by apply (pt0_zero_cid inp p i o)|]. apply (pt0_decoders inp p false i o); auto.
Qed.

(** * Samples *)

Lemma sample_octets_ok l : forallb (fun b => (0 <=? b) && (b <? 256)) l = true -> bytes_ok l.
Proof.
  intros Hl. apply List.Forall_forall. intros b Hb. apply (proj1 (forallb_forall _ _) Hl) in Hb. bool_prop.
  unfold byte_ok. lia.
Qed.

(** An accepted packet, and one whose tag is another format's. *)
Lemma formal_co_accepts_exactly_witness :
  (exists fields, emit_formal_co RTP Pt1Rnd 5 false fields sample_crc_input {| w_out := []; w_cap := 3 |} =
    (Ok tt, {| w_out := [0xE5; 0xB7; 0x49]; w_cap := 3 |})) /\
  fst (decode_formal_co [0xC7; 0x49] RTP Pt1Rnd false sample_crc_input false no_packet) = Rej.
Proof.
  split; [|reflexivity].
  pose proof (formal_co_accepts_exactly RTP Pt1Rnd [0xE5; 0xB7; 0x49] false sample_crc_input [0x45; 0x00] false no_packet
    ltac:(split; [reflexivity|split; discriminate]) sample_crc_reads (sample_octets_ok [0xE5; 0xB7; 0x49] eq_refl)
    ltac:(vm_compute; split; congruence)) as H.
  remember (decode_formal_co [0xE5; 0xB7; 0x49] RTP Pt1Rnd false sample_crc_input false no_packet) as r eqn:E.
  vm_compute in E. subst r. destruct H as (fields & out & post & E1 & _ & E2 & E3 & _). exists fields.
  destruct post; [|by discriminate E2]. rewrite app_nil_r in E1. subst out. exact E3.
Defined.

Lemma formal_pt0_equivalent_witness :
  fst (emit_formal_co_pt0 UDP Pt0Crc7 3 false 0x2A sample_crc_input {| w_out := []; w_cap := 8 |}) = Ok tt /\
  fst (decode_formal_co [0xE0; 0x29] UDP Pt0Crc3 false sample_crc_input false no_packet) = Rej.
Proof.
  pose proof (formal_pt0_equivalent UDP Pt0Crc7 3 false 0x2A [] sample_crc_input [0x45; 0x00] false 8 no_packet eq_refl
    ltac:(by right) ltac:(lia) eq_refl sample_crc_reads bytes_ok_nil ltac:(vm_compute; split; congruence)) as [[H1 _] _].
  pose proof (formal_pt0_equivalent UDP Pt0Crc3 0 false 0 [0xE0; 0x29] sample_crc_input [0x45; 0x00] false 8 no_packet eq_refl
    ltac:(by left) ltac:(lia) eq_refl sample_crc_reads (sample_octets_ok [0xE0; 0x29] eq_refl)
    ltac:(vm_compute; split; congruence)) as [_ [H2 _]].
  split; [exact H1|exact H2].
Defined.
