(* ===== verification/PacketImage.v ===== *)
(** * Packets and contexts: src/c_api/rohc_c_api.cpp, up to the objects

    [rohc_compress4] captures an IP packet into the context, field by field,
    and leaves the rest as payload; [rohc_decompress4] builds a packet from the
    context and the payload.  Checksums, the capture functions and the packet
    builders for IPv4 and IPv6 are here.  The theorem: what was captured builds
    the packet that was captured. *)

From S2P Require Import Prelude Crc Encoding Context Cursor Chains.
From S2P Require Import Safety Compressor Decompressor Packets.

(** ** Checksums *)

(** The loop of [ipv4_checksum] over the octets [i], [i + 1], ... below [len]. *)
Fixpoint checksum_loop (hdr : bytes) (len i sum : Z) (n : nat) : outcome Z :=
  match n with
  | O => Ok sum
  | S n =>
      let! hi := rd hdr i in
      let word := u16 (Z.shiftl hi 8) in
      let! word := if i + 1 <? len then let! lo := rd hdr (i + 1) in Ok (Z.lor word lo) else Ok word in
      checksum_loop hdr len (i + 2) (u32 (sum + word)) n
  end.

Definition header_checksum (hdr : bytes) (len : Z) : outcome Z :=
  let! sum := checksum_loop hdr len 0 0 (Z.to_nat ((len + 1) / 2)) in
  match fold_carries fold_fuel sum with
  | Some sum => Ok (u16 (2 ^ 32 - 1 - sum))
  | None => Ub
  end.

(** [InternetChecksum]: the sum so far and the octet that waits for its pair. *)
Record InternetChecksum := mkInternetChecksum { ic_sum : Z; ic_high : Z; ic_has_high : bool }.

Definition ic_empty : InternetChecksum := mkInternetChecksum 0 0 false.

(** The loop over pairs of octets, and the octet left over. *)
Fixpoint ic_pairs (c : InternetChecksum) (data : bytes) : InternetChecksum :=
  match data with
  | [] => c
  | [a] => mkInternetChecksum (ic_sum c) a true
  | a :: b :: rest =>
      ic_pairs (mkInternetChecksum (u32 (ic_sum c + u16 (Z.lor (Z.shiftl a 8) b))) (ic_high c) (ic_has_high c)) rest
  end.

Definition ic_add (c : InternetChecksum) (data : bytes) : InternetChecksum :=
  match data with
  | a :: rest =>
      if ic_has_high c then
        ic_pairs (mkInternetChecksum (u32 (ic_sum c + u16 (Z.lor (Z.shiftl (ic_high c) 8) a))) (ic_high c) false) rest
      else ic_pairs c data
  | [] => c
  end.

Definition ic_valid (c : InternetChecksum) : outcome bool :=
  let sum := if ic_has_high c then u32 (ic_sum c + u16 (Z.shiftl (ic_high c) 8)) else ic_sum c in
  match fold_carries fold_fuel sum with
  | Some sum => Ok (u16 sum =? 0xFFFF)
  | None => Ub
  end.

(** [header] is a [std::array] of 28 octets. *)
Definition udp_checksum_valid (header prefix payload : bytes) : outcome bool :=
  let! h26 := rd header 26 in
  let! h27 := rd header 27 in
  if (h26 =? 0) && (h27 =? 0) then Ok false else
  let! h24 := rd header 24 in
  let! h25 := rd header 25 in
  let! addresses := slice header 12 8 in
  let! udp := slice header 20 8 in
  ic_valid (ic_add (ic_add (ic_add (ic_add (ic_add ic_empty addresses) [0; 17; h24; h25]) udp) prefix) payload).

(** ** The IP header of a packet *)

(** [ParsedIpView]; the header it points to starts the packet. *)
Record ParsedIpView := mkView {
  view_header_len : Z; view_extension_len : Z; view_terminal_protocol : Z; view_is_ipv6 : bool }.

Definition parse_ip_view (packet : bytes) : outcome ParsedIpView :=
  match ipv4_parse packet with
  | Ok header_len =>
      let! protocol := rd packet 9 in
      Ok (mkView header_len 0 protocol false)
  | Ub => Ub
  | Rej =>
      let! r := ipv6_parse packet in
      let '(header_len, terminal, extension_len) := r in
      Ok (mkView header_len extension_len terminal true)
  end.

(** ** Capturing a packet *)

Definition set_ctx (f : Context -> Context) : M Context unit := modify f.

Definition capture_ipv4_options (packet : bytes) (ip_hlen : Z) : M Context unit :=
  guard (negb (ip_hlen <? 20)) ;;;
  let options_len := ip_hlen - 20 in
  guard (negb ((40 <? options_len) || negb (options_len mod 4 =? 0))) ;;;
  set_ctx (fun c => c <| ipv4_options_len := u8 options_len |> <| ipv4_options := repeat 0 40 |>) ;;;
  if 0 <? options_len then
    o <- lift (slice packet 20 options_len) ;;
    a <- lift (overwrite (repeat 0 40) o) ;;
    set_ctx (fun c => c <| ipv4_options := a |>)
  else ret tt.

Definition capture_ipv4_context (packet : bytes) (view : ParsedIpView) : M Context unit :=
  tos <- lift (rd packet 1) ;;
  ttl <- lift (rd packet 8) ;;
  id <- lift (rd_u16 packet 4) ;;
  flags_fragment <- lift (rd_u16 packet 6) ;;
  saddr <- lift (rd_u32 packet 12) ;;
  daddr <- lift (rd_u32 packet 16) ;;
  set_ctx (fun c => c <| ipv4_tos := tos |> <| ipv4_ttl := ttl |> <| ipv4_id := id |>
    <| ipv4_flags := u8 (Z.land (Z.shiftr flags_fragment 13) 0x07) |>
    <| ipv4_saddr := saddr |> <| ipv4_daddr := daddr |>
    <| ipv4_id_behavior := if id =? 0 then 3 else 2 |> <| ipv4_id_sequential := false |>) ;;;
  capture_ipv4_options packet (view_header_len view).

Definition capture_ipv6_context (packet : bytes) (view : ParsedIpView) : M Context unit :=
  first_word <- lift (rd_u32 packet 0) ;;
  next_header <- lift (rd packet 6) ;;
  hop_limit <- lift (rd packet 7) ;;
  saddr <- lift (slice packet 8 16) ;;
  daddr <- lift (slice packet 24 16) ;;
  set_ctx (fun c => c <| ipv6_traffic_class := u8 (Z.land (Z.shiftr first_word 20) 0xFF) |>
    <| ipv6_flow_label := Z.land first_word 0x000FFFFF |>
    <| ipv6_next_header := next_header |> <| ipv6_hop_limit := hop_limit |>
    <| ipv6_saddr := saddr |> <| ipv6_daddr := daddr |>) ;;;
  guard (negb (128 <? view_extension_len view)) ;;;
  set_ctx (fun c => c <| ipv6_extension_len := u8 (view_extension_len view) |>) ;;;
  if 0 <? view_extension_len view then
    o <- lift (slice packet 40 (view_extension_len view)) ;;
    a <- lift (overwrite (repeat 0 128) o) ;;
    set_ctx (fun c => c <| ipv6_extensions := a |>)
  else ret tt.

Definition capture_ip_context (packet : bytes) (view : ParsedIpView) : M Context unit :=
  set_ctx (fun c => c <| ip_version := if view_is_ipv6 view then 6 else 4 |>
    <| ipv4_protocol := view_terminal_protocol view |>
    <| ipv4_options_len := 0 |> <| ipv4_options := repeat 0 40 |>
    <| ipv6_extension_len := 0 |> <| ipv6_extensions := repeat 0 128 |>) ;;;
  if view_is_ipv6 view then capture_ipv6_context packet view else capture_ipv4_context packet view.

Definition set_rtp_ctx (f : RtpContext -> RtpContext) : M Context unit :=
  set_ctx (fun c => c <| rtp := f (rtp c) |>).

(** The CSRC list, the header extension and the padding; each answers where
    the next part starts, or how long the padding is. *)
Definition capture_csrc (p : bytes) (vpxcc_ : Z) : M Context Z :=
  let csrc_len := Z.land vpxcc_ 0x0F * 4 in
  guard (negb ((blen p <? 12 + csrc_len) || (60 <? csrc_len))) ;;;
  set_rtp_ctx (fun r => r <| csrc_list_len := u8 csrc_len |>) ;;;
  (if 0 <? csrc_len then
     o <- lift (slice p 12 csrc_len) ;;
     a <- lift (overwrite (repeat 0 60) o) ;;
     set_rtp_ctx (fun r => r <| csrc_list := a |>)
   else ret tt) ;;;
  ret (12 + csrc_len).

Definition capture_extension (p : bytes) (vpxcc_ pos : Z) : M Context Z :=
  if negb (Z.land vpxcc_ 0x10 =? 0) then
    guard (negb (blen p <? pos + 4)) ;;;
    extension_words <- lift (rd_u16 p (pos + 2)) ;;
    let extension_len_ := 4 + extension_words * 4 in
    guard (negb ((256 <? extension_len_) || (blen p <? pos + extension_len_))) ;;;
    set_rtp_ctx (fun r => r <| extension_len := u16 extension_len_ |>) ;;;
    o <- lift (slice p pos extension_len_) ;;
    a <- lift (overwrite (repeat 0 256) o) ;;
    set_rtp_ctx (fun r => r <| extension_bytes := a |>) ;;;
    ret (pos + extension_len_)
  else ret pos.

Definition capture_padding (p : bytes) (vpxcc_ pos : Z) : M Context Z :=
  if negb (Z.land vpxcc_ 0x20 =? 0) then
    padding_len_ <- lift (rd p (blen p - 1)) ;;
    guard (negb ((padding_len_ =? 0) || (255 <? padding_len_) || (usub (blen p) pos <? padding_len_))) ;;;
    set_rtp_ctx (fun r => r <| padding_len := u8 padding_len_ |>) ;;;
    o <- lift (slice p (blen p - padding_len_) padding_len_) ;;
    a <- lift (overwrite (repeat 0 255) o) ;;
    set_rtp_ctx (fun r => r <| padding_bytes := a |>) ;;;
    ret padding_len_
  else ret 0.

(** The offset and the length of the payload ([RtpPayloadView]). *)
Definition capture_rtp_context (p : bytes) : M Context (Z * Z) :=
  guard (negb (blen p <? 12)) ;;;
  set_rtp_ctx (fun r => r <| csrc_list_len := 0 |> <| csrc_list := repeat 0 60 |>
    <| extension_len := 0 |> <| extension_bytes := repeat 0 256 |>
    <| padding_len := 0 |> <| padding_bytes := repeat 0 255 |>) ;;;
  vpxcc_ <- lift (rd p 0) ;;
  pos <- capture_csrc p vpxcc_ ;;
  pos <- capture_extension p vpxcc_ pos ;;
  padding_len_ <- capture_padding p vpxcc_ pos ;;
  c <- gets (fun c => c) ;;
  ignored_body_len <- lift (rtp_extras_body_len c) ;;
  ret (pos, usub (usub (blen p) pos) padding_len_).

(** ** Building a packet *)

Definition rtp_context_payload_layout (ctx : Context) : outcome (Z * Z * Z) :=
  let! ignored_body_len := rtp_extras_body_len ctx in
  Ok (csrc_list_len (rtp ctx), extension_len (rtp ctx), padding_len (rtp ctx)).

Definition checked_packet_size (base payload : Z) : outcome Z :=
  check negb (2 ^ 64 - 1 - base <? payload) in
  Ok (base + payload).

(** The first [ip_len] octets of the output, with the checksum field [csum]. *)
Definition ipv4_octets (ctx : Context) (protocol ip_total csum : Z) : outcome bytes :=
  let! options := slice (ipv4_options ctx) 0 (ipv4_options_len ctx) in
  Ok ([u8 (Z.lor 0x40 ((20 + ipv4_options_len ctx) / 4)); ipv4_tos ctx] ++ be16 ip_total ++
      be16 (ipv4_id ctx) ++ [u8 (Z.shiftl (ipv4_flags ctx) 5); 0; ipv4_ttl ctx; protocol] ++
      be16 csum ++ be32 (ipv4_saddr ctx) ++ be32 (ipv4_daddr ctx) ++ options).

Definition ipv4_header (ctx : Context) (protocol total : Z) : outcome bytes :=
  let! unsigned := ipv4_octets ctx protocol (u16 total) 0 in
  let! csum := header_checksum unsigned (20 + ipv4_options_len ctx) in
  ipv4_octets ctx protocol (u16 total) csum.

Definition udp_octets (ctx : Context) (length_ : Z) : bytes :=
  be16 (udp_sport ctx) ++ be16 (udp_dport ctx) ++ be16 length_ ++ be16 (udp_check ctx).

Definition rtp_octets (ctx : Context) : bytes :=
  [vpxcc (rtp ctx); mpt (rtp ctx)] ++ be16 (last_seq (rtp ctx)) ++ be32 (last_ts (rtp ctx)) ++
  be32 (ssrc (rtp ctx)).

(** The RTP header, the CSRC list, the extension, the payload and the padding. *)
Definition rtp_body (ctx : Context) (csrc_len extension_len_ padding_len_ : Z) (payload : bytes) : outcome bytes :=
  let! csrc := slice (csrc_list (rtp ctx)) 0 csrc_len in
  let! extension := slice (extension_bytes (rtp ctx)) 0 extension_len_ in
  let! padding := slice (padding_bytes (rtp ctx)) 0 padding_len_ in
  Ok (rtp_octets ctx ++ csrc ++ extension ++ payload ++ padding).

Definition esp_octets (ctx : Context) : bytes := be32 (esp_spi ctx) ++ be32 (esp_sequence ctx).

(** The UDP length, or the coverage a UDP-Lite header has in its place. *)
Definition length_or_coverage (ctx : Context) (lite : Profile) (udp_total : Z) : Z :=
  if profile_eqb (profile ctx) lite then udp_length_or_coverage ctx else u16 udp_total.

Definition udp_protocol (ctx : Context) (lite : Profile) : Z :=
  if profile_eqb (profile ctx) lite then 136 else 17.

Definition build_ip_packet (capacity : Z) (ctx : Context) (payload : bytes) : outcome bytes :=
  let ip_len := 20 + ipv4_options_len ctx in
  let! total := checked_packet_size ip_len (blen payload) in
  check negb (0xFFFF <? total) in
  check negb (capacity <? total) in
  let! h := ipv4_header ctx (ipv4_protocol ctx) total in
  Ok (h ++ payload).

Definition build_udp_packet (capacity : Z) (ctx : Context) (payload : bytes) : outcome bytes :=
  let ip_len := 20 + ipv4_options_len ctx in
  let! total := checked_packet_size (ip_len + 8) (blen payload) in
  check negb (0xFFFF <? total) in
  check negb (capacity <? total) in
  let! h := ipv4_header ctx (udp_protocol ctx UDP_Lite) total in
  Ok (h ++ udp_octets ctx (length_or_coverage ctx UDP_Lite (8 + blen payload)) ++ payload).

Definition build_rtp_packet (capacity : Z) (ctx : Context) (payload : bytes) : outcome bytes :=
  let! layout := rtp_context_payload_layout ctx in
  let '(csrc_len, extension_len_, padding_len_) := layout in
  let ip_len := 20 + ipv4_options_len ctx in
  let rtp_header_len := 12 + csrc_len + extension_len_ in
  check negb (usub (usub (2 ^ 64 - 1) rtp_header_len) padding_len_ <? blen payload) in
  let rtp_wire_len := rtp_header_len + blen payload + padding_len_ in
  let! total := checked_packet_size (ip_len + 8) rtp_wire_len in
  check negb (0xFFFF <? total) in
  check negb (capacity <? total) in
  let! h := ipv4_header ctx (udp_protocol ctx RTP_UDP_Lite) total in
  let! body := rtp_body ctx csrc_len extension_len_ padding_len_ payload in
  Ok (h ++ udp_octets ctx (length_or_coverage ctx RTP_UDP_Lite (8 + rtp_wire_len)) ++ body).

(** [build_ipv6_header], over an output of [total] octets. *)
Definition build_ipv6_header (total : Z) (ctx : Context) (upper_len : Z) : outcome bytes :=
  check negb ((total <? 40) || (0xFFFF <? upper_len)) in
  let first_word := Z.lor (Z.lor 0x60000000 (u32 (Z.shiftl (ipv6_traffic_class ctx) 20)))
                          (Z.land (ipv6_flow_label ctx) 0x000FFFFF) in
  let! extensions := slice (ipv6_extensions ctx) 0 (ipv6_extension_len ctx) in
  Ok (be32 first_word ++ be16 upper_len ++ [ipv6_next_header ctx; ipv6_hop_limit ctx] ++
      ipv6_saddr ctx ++ ipv6_daddr ctx ++ extensions).

(** The sizes of an IPv6 packet whose upper part has [before + upper] octets. *)
Definition ipv6_sizes (capacity : Z) (ctx : Context) (before upper : Z) : outcome (Z * Z) :=
  let! upper_len := checked_packet_size (ipv6_extension_len ctx + before) upper in
  check negb (0xFFFF <? upper_len) in
  let! total := checked_packet_size (40 + ipv6_extension_len ctx + before) upper in
  check negb (capacity <? total) in
  Ok (upper_len, total).

Definition build_ipv6_ip_packet (capacity : Z) (ctx : Context) (payload : bytes) : outcome bytes :=
  let! sizes := ipv6_sizes capacity ctx 0 (blen payload) in
  let! h := build_ipv6_header (snd sizes) ctx (fst sizes) in
  Ok (h ++ payload).

Definition build_ipv6_udp_packet (capacity : Z) (ctx : Context) (payload : bytes) : outcome bytes :=
  let! sizes := ipv6_sizes capacity ctx 8 (blen payload) in
  let! h := build_ipv6_header (snd sizes) ctx (fst sizes) in
  Ok (h ++ udp_octets ctx (length_or_coverage ctx UDP_Lite (8 + blen payload)) ++ payload).

Definition build_ipv6_rtp_packet (capacity : Z) (ctx : Context) (payload : bytes) : outcome bytes :=
  let! layout := rtp_context_payload_layout ctx in
  let '(csrc_len, extension_len_, padding_len_) := layout in
  let rtp_header_len := 12 + csrc_len + extension_len_ in
  check negb (usub (usub (2 ^ 64 - 1) rtp_header_len) padding_len_ <? blen payload) in
  let rtp_wire_len := rtp_header_len + blen payload + padding_len_ in
  let! sizes := ipv6_sizes capacity ctx 8 rtp_wire_len in
  let! h := build_ipv6_header (snd sizes) ctx (fst sizes) in
  let! body := rtp_body ctx csrc_len extension_len_ padding_len_ payload in
  Ok (h ++ udp_octets ctx (length_or_coverage ctx RTP_UDP_Lite (8 + rtp_wire_len)) ++ body).

(** The IP header here has no room for options or extensions: its sizes are
    those of a bare header, and the builder it calls checks its own. *)
Definition build_esp_packet (capacity : Z) (ctx : Context) (payload : bytes) : outcome bytes :=
  let ip_len := if ip_version ctx =? 6 then 40 else 20 in
  check negb ((2 ^ 64 - 1 - 8 <? blen payload) || (2 ^ 64 - 1 - ip_len <? 8 + blen payload)) in
  let esp_payload_len := 8 + blen payload in
  let protocol_payload_limit :=
    if ip_version ctx =? 6 then usub 0xFFFF (ipv6_extension_len ctx) else 0xFFFF - ip_len in
  check negb (protocol_payload_limit <? esp_payload_len) in
  check negb (capacity <? ip_len + esp_payload_len) in
  let esp_payload := esp_octets ctx ++ payload in
  if ip_version ctx =? 6 then build_ipv6_ip_packet capacity ctx esp_payload
  else build_ip_packet capacity ctx esp_payload.

(** The builder [rohc_decompress4] ends with, by profile and IP version. *)
Definition build_packet (capacity : Z) (ctx : Context) (payload : bytes) : outcome bytes :=
  let v6 := ip_version ctx =? 6 in
  match profile ctx with
  | UDP | UDP_Lite =>
      if v6 then build_ipv6_udp_packet capacity ctx payload else build_udp_packet capacity ctx payload
  | ESP =>
      if legacy_esp_payload_includes_header ctx then
        if v6 then build_ipv6_ip_packet capacity ctx payload else build_ip_packet capacity ctx payload
      else build_esp_packet capacity ctx payload
  | IP =>
      if v6 then build_ipv6_ip_packet capacity ctx payload else build_ip_packet capacity ctx payload
  | _ =>
      if v6 then build_ipv6_rtp_packet capacity ctx payload else build_rtp_packet capacity ctx payload
  end.

(** ** Headers of fixed size, which PT-0 packets are checked against *)

Definition fixed_ipv4_octets (ctx : Context) (protocol total csum : Z) : bytes :=
  [0x45; ipv4_tos ctx] ++ be16 total ++ be16 (ipv4_id ctx) ++
  [u8 (Z.shiftl (ipv4_flags ctx) 5); 0; ipv4_ttl ctx; protocol] ++ be16 csum ++
  be32 (ipv4_saddr ctx) ++ be32 (ipv4_daddr ctx).

(** The array [out], whose first 20 octets are the IPv4 header, [rest] after. *)
Definition fixed_header (ctx : Context) (protocol total : Z) (rest : bytes) : outcome bytes :=
  let! csum := header_checksum (fixed_ipv4_octets ctx protocol (u16 total) 0 ++ rest) 20 in
  Ok (fixed_ipv4_octets ctx protocol (u16 total) csum ++ rest).

Definition build_fixed_rtp_ipv4_header (ctx : Context) (payload_len : Z) : outcome bytes :=
  check negb (negb (ip_version ctx =? 4) || negb (ipv4_options_len ctx =? 0) ||
              negb (Z.land (vpxcc (rtp ctx)) 0x3F =? 0) || negb (csrc_list_len (rtp ctx) =? 0) ||
              negb (extension_len (rtp ctx) =? 0) || negb (padding_len (rtp ctx) =? 0) ||
              (0xFFFF - 40 <? payload_len)) in
  fixed_header ctx 17 (40 + payload_len) (udp_octets ctx (u16 (20 + payload_len)) ++ rtp_octets ctx).

Definition build_fixed_udp_ipv4_header (ctx : Context) (payload_len : Z) : outcome bytes :=
  check negb (negb (profile_eqb (profile ctx) UDP) || negb (ip_version ctx =? 4) ||
              negb (ipv4_options_len ctx =? 0) || (0xFFFF - 28 <? payload_len)) in
  fixed_header ctx 17 (28 + payload_len) (udp_octets ctx (u16 (8 + payload_len))).

Definition build_fixed_esp_ipv4_header (ctx : Context) (payload_len : Z) : outcome bytes :=
  check negb (negb (profile_eqb (profile ctx) ESP) || negb (ip_version ctx =? 4) ||
              negb (ipv4_options_len ctx =? 0) || (0xFFFF - 28 <? payload_len)) in
  fixed_header ctx 50 (28 + payload_len) (esp_octets ctx).

Definition build_fixed_ip_ipv4_header (ctx : Context) (payload_len : Z) : outcome bytes :=
  check negb (negb (profile_eqb (profile ctx) IP) || negb (ip_version ctx =? 4) ||
              negb (ipv4_options_len ctx =? 0) || (0xFFFF - 20 <? payload_len)) in
  fixed_header ctx (ipv4_protocol ctx) (20 + payload_len) [].

(** * Lemmas *)

Lemma obind_ok {A B} (a : A) (f : A -> outcome B) : obind (Ok a) f = f a.
Proof. done. Qed.
Lemma check_true {B} b (f : unit -> outcome B) : b = true -> obind (oguard b) f = f tt.
Proof. by intros ->. Qed.

(** ** Octets back from the words read *)

Lemma be16_octets a b : byte_ok a -> byte_ok b -> be16 (Z.lor (Z.shiftl a 8) b) = [a; b].
Proof.
  intros Ha Hb. rewrite combine16 by done. unfold be16, u8, byte_ok in *.
  rewrite land_255, Z.shiftr_div_pow2 by lia. change (2 ^ 8) with 256.
  f_equal; [|f_equal]; Z.div_mod_to_equations; lia.
Qed.

Lemma be32_octets a b c d : byte_ok a -> byte_ok b -> byte_ok c -> byte_ok d ->
  be32 (Z.lor (Z.lor (Z.lor (Z.shiftl a 24) (Z.shiftl b 16)) (Z.shiftl c 8)) d) = [a; b; c; d].
Proof.
  intros Ha Hb Hc Hd. rewrite combine32 by done. unfold be32, u8, byte_ok in *.
  rewrite land_255, !Z.shiftr_div_pow2 by lia.
  change (2 ^ 24) with 16777216. change (2 ^ 16) with 65536. change (2 ^ 8) with 256.
  repeat (f_equal; [Z.div_mod_to_equations; lia|]). f_equal. Z.div_mod_to_equations; lia.
Qed.

(** What was copied to the front of a buffer is read back from there. *)
Lemma overwritten (d o : bytes) :
  (length o <= length d)%nat -> exists a, overwrite d o = Ok a /\ slice a 0 (blen o) = Ok o.
Proof.
  intros H. unfold overwrite. destruct (Nat.ltb_spec (length d) (length o)); [lia|].
  eexists. split; [done|]. apply (slice_exact [] o). done.
Qed.

Lemma slice_0 (l : bytes) : slice l 0 0 = Ok [].
Proof. unfold slice. cbn. pose proof (blen_nonneg l). by rewrite (proj2 (Z.ltb_ge _ _)) by lia. Qed.

(** ** The two checksums against their definition *)

Lemma drop_cons (hdr : bytes) i : 0 <= i < blen hdr ->
  exists b, rd hdr i = Ok b /\ drop (Z.to_nat i) hdr = b :: drop (Z.to_nat (i + 1)) hdr.
Proof.
  intros H. unfold rd, blen in *. rewrite (proj2 (Z.ltb_ge i 0)) by lia.
  destruct (lookup_lt_is_Some_2 hdr (Z.to_nat i)) as [b Hb]; [lia|]. rewrite Hb. exists b.
  split; [done|]. rewrite (drop_S _ _ _ Hb). do 2 f_equal. lia.
Qed.

Lemma checksum_loop_spec hdr i sum n :
  0 <= i -> i <= blen hdr + 1 -> Z.of_nat n = (Z.max 0 (blen hdr - i) + 1) / 2 ->
  checksum_loop hdr (blen hdr) i sum n = Ok (sum_words (drop (Z.to_nat i) hdr) sum).
Proof.
  revert i sum. induction n as [|n IH]; intros i sum Hi Hle Hn.
  - rewrite drop_ge; [done|]. unfold blen in *. Z.div_mod_to_equations. lia.
  - cbn [checksum_loop]. assert (Hlt : i < blen hdr) by (Z.div_mod_to_equations; lia).
    destruct (drop_cons hdr i ltac:(lia)) as (a & -> & ->). cbn [obind].
    destruct (Z.ltb_spec (i + 1) (blen hdr)) as [H1|H1].
    + destruct (drop_cons hdr (i + 1) ltac:(lia)) as (b & -> & ->). cbn [obind sum_words].
      rewrite IH by (Z.div_mod_to_equations; lia). do 3 f_equal. lia.
    + cbn [obind]. rewrite IH by (Z.div_mod_to_equations; lia).
      rewrite !drop_ge by (unfold blen in *; lia). done.
Qed.

Lemma header_checksum_eq hdr len : len = blen hdr -> bytes_ok hdr -> word_sum hdr < 2 ^ 32 ->
  header_checksum hdr len = Ok (65535 - ones_sum (word_sum hdr)).
Proof.
  intros -> Hok Hs. unfold header_checksum. pose proof (blen_nonneg hdr).
  rewrite checksum_loop_spec; [|lia|lia|rewrite Z2Nat.id by (apply Z.div_pos; lia); f_equal; lia].
  cbn [obind]. pose proof (ipv4_checksum_eq hdr Hok Hs) as E. unfold ipv4_checksum in E.
  change (drop (Z.to_nat 0) hdr) with hdr.
  destruct (fold_carries fold_fuel (sum_words hdr 0)); [|done]. f_equal. congruence.
Qed.

(** A bare prefix of a longer buffer has the checksum of the prefix. *)
Lemma header_checksum_prefix hdr rest len : len = blen hdr ->
  header_checksum (hdr ++ rest) len = header_checksum hdr len.
Proof.
  intros ->. unfold header_checksum. pose proof (blen_nonneg hdr).
  enough (forall n i sum, 0 <= i -> i + 2 * Z.of_nat n <= blen hdr + 1 ->
    checksum_loop (hdr ++ rest) (blen hdr) i sum n = checksum_loop hdr (blen hdr) i sum n) as ->;
    [done|lia|rewrite Z2Nat.id by (apply Z.div_pos; lia); Z.div_mod_to_equations; lia|].
  induction n as [|n IH]; intros i sum Hi Hn; [done|]. cbn [checksum_loop].
  rewrite (rd_app_l hdr rest i) by lia. destruct (rd hdr i); [|done..]. cbn [obind].
  destruct (Z.ltb_spec (i + 1) (blen hdr)); [rewrite (rd_app_l hdr rest (i + 1)) by lia|].
  - destruct (rd hdr (i + 1)); [|done..]. cbn [obind]. apply IH; lia.
  - cbn [obind]. apply IH; lia.
Qed.

Definition even_length (l : bytes) : Prop := (length l mod 2 = 0)%nat.

Lemma even_step a b l : even_length (a :: b :: l) -> even_length l.
Proof.
  unfold even_length. cbn [length]. change (S (S (length l))) with (2 + length l)%nat.
  by rewrite Nat.Div0.add_mod, Nat.Div0.mod_same, Nat.add_0_l, Nat.Div0.mod_mod.
Qed.

Lemma even_app l1 l2 : even_length l1 -> even_length l2 -> even_length (l1 ++ l2).
Proof. unfold even_length. intros H1 H2. rewrite length_app, Nat.Div0.add_mod, H1, H2. done. Qed.

Lemma word_sum_app l1 l2 : even_length l1 -> word_sum (l1 ++ l2) = word_sum l1 + word_sum l2.
Proof.
  induction l1 as [|a|a b l IH] using octets_ind; intros H; [done|done|].
  cbn [app word_sum]. rewrite IH by (by eapply even_step). lia.
Qed.

(** [c] has taken the octets [p]: their words are in the sum, but for a last
    octet without its pair. *)
Definition has_taken (c : InternetChecksum) (p : bytes) : Prop :=
  exists q, even_length q /\ ic_sum c = word_sum q /\
    p = q ++ (if ic_has_high c then [ic_high c] else []).

Lemma ic_pairs_taken d : forall c q, bytes_ok (q ++ d) -> word_sum (q ++ d) < 2 ^ 32 ->
  even_length q -> ic_sum c = word_sum q -> ic_has_high c = false -> has_taken (ic_pairs c d) (q ++ d).
Proof.
  induction d as [|a|a b d IH] using octets_ind; intros c q Hok Hs He Hc Hh; cbn [ic_pairs].
  - exists q. by rewrite Hh.
  - by exists q.
  - rewrite cons_middle, (cons_middle b), !app_assoc in Hok, Hs |- *. rewrite <- (app_assoc q) in Hok, Hs |- *.
    cbn [app] in Hok, Hs |- *.
    assert (Ea : even_length (q ++ [a; b])) by (by apply even_app).
    assert (Hq : bytes_ok (q ++ [a; b])) by (by apply bytes_ok_app in Hok as [? _]).
    assert (Hd : bytes_ok d) by (by apply bytes_ok_app in Hok as [_ ?]).
    assert (Hab : byte_ok a /\ byte_ok b).
    { apply bytes_ok_app in Hq as [_ Hq]. apply bytes_ok_cons in Hq as [? Hq].
      by apply bytes_ok_cons in Hq as [? _]. }
    rewrite word_sum_app in Hs by done. pose proof (word_sum_nonneg d Hd).
    pose proof (word_sum_nonneg _ Hq) as W0. rewrite word_sum_app in Hs, W0 by done. cbn [word_sum] in Hs, W0.
    pose proof (word_sum_nonneg q ltac:(by apply bytes_ok_app in Hq as [? _])).
    destruct Hab as [Ha Hb]. unfold byte_ok in Ha, Hb.
    apply IH; [by rewrite <- ?app_assoc in Hok |- *| |done| |done].
    + rewrite word_sum_app, word_sum_app by done. cbn [word_sum]. lia.
    + cbn [ic_sum]. rewrite word_sum_app by done. cbn [word_sum]. rewrite Hc, combine16 by (unfold byte_ok; lia).
      unfold u16, u32. rewrite (Z.mod_small (a * 256 + b)) by lia. rewrite Z.mod_small by lia. lia.
Qed.

Lemma ic_add_taken c p d : has_taken c p -> bytes_ok (p ++ d) -> word_sum (p ++ d) < 2 ^ 32 ->
  has_taken (ic_add c d) (p ++ d).
Proof.
  intros (q & He & Hc & ->) Hok Hs. destruct d as [|a d].
  { rewrite app_nil_r. by exists q. }
  unfold ic_add. destruct (ic_has_high c) eqn:Hh.
  - rewrite <- app_assoc in *. cbn [app] in *.
    change (ic_high c :: a :: d) with ([ic_high c; a] ++ d) in *. rewrite app_assoc in *.
    assert (Ea : even_length (q ++ [ic_high c; a])) by (by apply even_app).
    apply ic_pairs_taken; [done..| |done]. cbn [ic_sum].
    rewrite word_sum_app in Hs by done. rewrite word_sum_app in * by done. cbn [word_sum] in *.
    apply bytes_ok_app in Hok as [Hq Hd]. apply bytes_ok_app in Hq as [Hq Ha].
    apply bytes_ok_cons in Ha as [Hi Ha]. apply bytes_ok_cons in Ha as [Ha _].
    pose proof (word_sum_nonneg q Hq). pose proof (word_sum_nonneg d Hd).
    rewrite Hc, combine16 by done. unfold byte_ok, u16, u32 in *.
    rewrite (Z.mod_small (ic_high c * 256 + a)) by lia. rewrite Z.mod_small by lia. lia.
  - rewrite app_nil_r in *. by apply ic_pairs_taken.
Qed.

Lemma ic_valid_taken c p : has_taken c p -> bytes_ok p -> word_sum p < 2 ^ 32 ->
  ic_valid c = Ok (ones_sum (word_sum p) =? 65535).
Proof.
  intros (q & He & Hc & ->) Hok Hs. unfold ic_valid.
  rewrite word_sum_app in Hs |- * by done. apply bytes_ok_app in Hok as [Hq Hh].
  pose proof (word_sum_nonneg q Hq).
  assert (E : (if ic_has_high c then u32 (ic_sum c + u16 (Z.shiftl (ic_high c) 8)) else ic_sum c) =
              word_sum q + word_sum (if ic_has_high c then [ic_high c] else [])).
  { rewrite Hc. destruct (ic_has_high c); cbn [word_sum] in *; [|lia].
    apply bytes_ok_cons in Hh as [Hi _]. unfold byte_ok, u16, u32 in *.
    rewrite Z.shiftl_mul_pow2 by lia. change (2 ^ 8) with 256.
    rewrite (Z.mod_small (_ * 256)) by lia. rewrite Z.mod_small by lia. lia. }
  rewrite E. set (s := word_sum q + _) in *.
  assert (0 <= s) by (unfold s; pose proof (word_sum_nonneg _ Hh); lia).
  rewrite fold_carries_eq by lia. pose proof (ones_sum_bound s ltac:(lia)).
  unfold u16. rewrite Z.mod_small by lia. done.
Qed.

Lemma word_sum_prefix p q : bytes_ok (p ++ q) -> word_sum p <= word_sum (p ++ q).
Proof.
  intros H. apply bytes_ok_app in H as [Hp Hq]. pose proof (word_sum_nonneg q Hq).
  induction p as [|a|a b p IH] using octets_ind.
  - cbn. lia.
  - destruct q as [|b q]; cbn [app word_sum]; [lia|].
    apply bytes_ok_cons in Hq as [Hb Hq]. pose proof (word_sum_nonneg q Hq). unfold byte_ok in Hb. lia.
  - apply bytes_ok_cons in Hp as [_ Hp]. apply bytes_ok_cons in Hp as [_ Hp].
    cbn [app word_sum]. specialize (IH Hp). lia.
Qed.

Lemma word_sum_bound l : bytes_ok l -> 2 * word_sum l <= 65535 * (blen l + 1).
Proof.
  unfold blen. induction l as [|a|a b l IH] using octets_ind; intros H; cbn [word_sum length]; [lia|..].
  - apply bytes_ok_cons in H as [Ha _]. unfold byte_ok in Ha. lia.
  - apply bytes_ok_cons in H as [Ha H]. apply bytes_ok_cons in H as [Hb H].
    specialize (IH H). unfold byte_ok in *. lia.
Qed.

(** Octets taken in pieces are the octets taken at once. *)
Lemma ic_add_pieces pieces c p : has_taken c p -> bytes_ok (p ++ concat pieces) ->
  word_sum (p ++ concat pieces) < 2 ^ 32 -> has_taken (fold_left ic_add pieces c) (p ++ concat pieces).
Proof.
  revert c p. induction pieces as [|d pieces IH]; intros c p Hc Hok Hs; cbn [fold_left concat] in *.
  { by rewrite app_nil_r. }
  rewrite app_assoc in *. apply IH; [|done..]. apply ic_add_taken; [done| |].
  - by apply bytes_ok_app in Hok as [? _].
  - eapply Z.le_lt_trans; [by apply word_sum_prefix|done].
Qed.

Lemma nth_byte l i : bytes_ok l -> byte_ok (nth i l 0).
Proof.
  intros H. destruct (nth_lookup_or_length l i 0) as [E|E].
  - by eapply Forall_lookup_1.
  - by rewrite nth_overflow.
Qed.

(** The pseudo header of RFC 768: addresses, protocol and UDP length. *)
Definition pseudo_header (header : bytes) : bytes :=
  take 8 (drop 12 header) ++ [0; 17; nth 24 header 0; nth 25 header 0].

(** C20: The UDP checksum test that settles which reading of a packet is meant:
    a header whose checksum field is 0 fails it, any other passes exactly if
    the one's complement sum of the pseudo header, the UDP header and the
    payload is 0xFFFF (RFC 768) - wherever the payload is cut in two, also
    between the octets of one word, and without the 32-bit sum overflowing. *)
Theorem udp_checksum_exact header prefix payload :
  bytes_ok header -> bytes_ok prefix -> bytes_ok payload -> blen header = 28 ->
  blen prefix + blen payload <= 0xFFFF ->
  udp_checksum_valid header prefix payload =
  Ok (negb ((nth 26 header 0 =? 0) && (nth 27 header 0 =? 0)) &&
      (ones_sum (word_sum (pseudo_header header ++ drop 20 header ++ prefix ++ payload)) =? 65535)).
Proof.
  intros Hh Hp Hl L Hn. unfold udp_checksum_valid. rewrite !rd_nth by lia. cbn [obind].
  change (Z.to_nat 26) with 26%nat. change (Z.to_nat 27) with 27%nat.
  destruct (_ && _); [done|]. rewrite !slice_eq by lia. cbn [obind negb andb].
  change (Z.to_nat 24) with 24%nat. change (Z.to_nat 25) with 25%nat.
  change (Z.to_nat 12) with 12%nat. change (Z.to_nat 8) with 8%nat. change (Z.to_nat 20) with 20%nat.
  rewrite (take_ge (drop 20 header)) by (rewrite length_drop; unfold blen in L; lia).
  set (pieces := [take 8 (drop 12 header); [0; 17; nth 24 header 0; nth 25 header 0];
                  drop 20 header; prefix; payload]).
  assert (E : pseudo_header header ++ drop 20 header ++ prefix ++ payload = [] ++ concat pieces).
  { unfold pseudo_header, pieces. cbn [concat]. by rewrite app_nil_r, <- app_assoc. }
  rewrite E. assert (Hok : bytes_ok ([] ++ concat pieces)).
  { rewrite <- E. unfold pseudo_header. rewrite !bytes_ok_app, !bytes_ok_cons.
    split_and!; auto using bytes_ok_take, bytes_ok_drop, nth_byte, bytes_ok_nil; unfold byte_ok; lia. }
  assert (Hs : word_sum ([] ++ concat pieces) < 2 ^ 32).
  { pose proof (word_sum_bound _ Hok) as W. rewrite <- E in W |- *. revert W.
    generalize (word_sum (pseudo_header header ++ drop 20 header ++ prefix ++ payload)).
    unfold pseudo_header, blen in *. rewrite !length_app, length_take, !length_drop. cbn [length]. lia. }
  eapply (ic_valid_taken (fold_left ic_add pieces ic_empty)); [|done..].
  by apply ic_add_pieces; [exists []|..].
Qed.

Lemma bytes_ok_by l : forallb (fun b => (0 <=? b) && (b <? 256)) l = true -> bytes_ok l.
Proof.
  intros H. apply List.Forall_forall. intros b Hb. apply (proj1 (forallb_forall _ _) H) in Hb.
  apply andb_true_iff in Hb as [H1%Z.leb_le H2%Z.ltb_lt]. done.
Qed.

Definition sample_udp_header : bytes :=
  [0x45; 0; 0; 31; 0; 7; 0; 0; 64; 17; 0; 0; 10; 0; 0; 1; 10; 0; 0; 2; 4; 210; 8; 174; 0; 11; 25; 243].

(** An odd number of octets in front of the cut. *)
Lemma udp_checksum_exact_witness : udp_checksum_valid sample_udp_header [0x61] [0x62; 0x63] = Ok true.
Proof.
  rewrite (udp_checksum_exact sample_udp_header [0x61] [0x62; 0x63] (bytes_ok_by sample_udp_header eq_refl) (bytes_ok_by [0x61] eq_refl)
    (bytes_ok_by [0x62; 0x63] eq_refl) eq_refl ltac:(vm_compute; discriminate)).
  vm_compute. reflexivity.
Defined.

(** ** What the captured fields say of the packet *)

Lemma rd_u16_nth l i : 0 <= i -> i + 2 <= blen l ->
  rd_u16 l i = Ok (Z.lor (Z.shiftl (nth (Z.to_nat i) l 0) 8) (nth (Z.to_nat (i + 1)) l 0)).
Proof. intros. unfold rd_u16. by rewrite !rd_nth by lia. Qed.

Lemma rd_u32_nth l i : 0 <= i -> i + 4 <= blen l ->
  rd_u32 l i = Ok (Z.lor (Z.lor (Z.lor (Z.shiftl (nth (Z.to_nat i) l 0) 24)
    (Z.shiftl (nth (Z.to_nat (i + 1)) l 0) 16)) (Z.shiftl (nth (Z.to_nat (i + 2)) l 0) 8))
    (nth (Z.to_nat (i + 3)) l 0)).
Proof. intros. unfold rd_u32. by rewrite !rd_nth by lia. Qed.

(** The 16-bit and the 32-bit field at an offset. *)
Definition field16 (l : bytes) (i : nat) : Z := Z.lor (Z.shiftl (nth i l 0) 8) (nth (i + 1) l 0).
Definition field32 (l : bytes) (i : nat) : Z :=
  Z.lor (Z.lor (Z.lor (Z.shiftl (nth i l 0) 24) (Z.shiftl (nth (i + 1) l 0) 16))
    (Z.shiftl (nth (i + 2) l 0) 8)) (nth (i + 3) l 0).

Lemma rd_field16 l i j : j = Z.of_nat i -> j + 2 <= blen l -> rd_u16 l j = Ok (field16 l i).
Proof.
  intros -> ?. rewrite rd_u16_nth by lia. unfold field16. rewrite Nat2Z.id.
  replace (Z.to_nat (Z.of_nat i + 1)) with (i + 1)%nat by lia. done.
Qed.

Lemma rd_field32 l i j : j = Z.of_nat i -> j + 4 <= blen l -> rd_u32 l j = Ok (field32 l i).
Proof.
  intros -> ?. rewrite rd_u32_nth by lia. unfold field32. rewrite Nat2Z.id.
  replace (Z.to_nat (Z.of_nat i + 1)) with (i + 1)%nat by lia.
  replace (Z.to_nat (Z.of_nat i + 2)) with (i + 2)%nat by lia.
  replace (Z.to_nat (Z.of_nat i + 3)) with (i + 3)%nat by lia. done.
Qed.

Lemma field16_range l i : bytes_ok l -> 0 <= field16 l i < 2 ^ 16.
Proof.
  intros H. unfold field16. rewrite combine16 by auto using nth_byte.
  pose proof (nth_byte l i H). pose proof (nth_byte l (i + 1) H). unfold byte_ok in *. lia.
Qed.

Lemma field32_range l i : bytes_ok l -> 0 <= field32 l i < 2 ^ 32.
Proof.
  intros H. unfold field32. rewrite combine32 by auto using nth_byte.
  pose proof (nth_byte l i H). pose proof (nth_byte l (i + 1) H).
  pose proof (nth_byte l (i + 2) H). pose proof (nth_byte l (i + 3) H). unfold byte_ok in *. lia.
Qed.

(** A buffer of [n] octets at least, as its first octets and the rest. *)
Ltac first_octets l n :=
  match n with
  | O => idtac
  | S ?n => let b := fresh "b" in destruct l as [|b l]; [cbn in *; lia|]; first_octets l n
  end.

(** *** IPv4 *)

Lemma ipv4_parse_spec pkt n : bytes_ok pkt -> ipv4_parse pkt = Ok n ->
  20 <= n <= 60 /\ n <= blen pkt /\ n mod 4 = 0 /\ u8 (Z.lor 0x40 (n / 4)) = nth 0 pkt 0 /\ 0 < nth 0 pkt 0.
Proof.
  intros Hok H. unfold ipv4_parse in H. destruct (Z.ltb_spec (blen pkt) 20) as [|L]; [done|]. cbn in H.
  rewrite rd_nth in H by lia. cbn [obind] in H. change (Z.to_nat 0) with 0%nat in H.
  pose proof (nth_byte pkt 0 Hok) as Hb. set (b := nth 0 pkt 0) in *.
  destruct (Z.eqb_spec (Z.shiftr b 4) 4) as [E|]; [|done]. cbn [oguard obind] in H.
  destruct ((_ <? 20) || _) eqn:G; [done|]. cbn in H. injection H as <-. apply orb_false_iff in G as [G1 G2].
  apply Z.ltb_ge in G1, G2. change 15 with (Z.ones 4) in *. rewrite Z.land_ones in * by lia.
  rewrite Z.shiftr_div_pow2 in E by lia. change (2 ^ 4) with 16 in *. unfold byte_ok in Hb.
  assert (B : 0 <= b mod 16 < 16) by (apply Z.mod_pos_bound; lia).
  split_and!; [lia|lia|lia|apply Z.mod_mul; lia| |Z.div_mod_to_equations; lia]. rewrite Z.div_mul by lia.
  change 0x40 with (Z.shiftl 4 4). rewrite lor_disjoint_add by lia. unfold u8. change (2 ^ 4) with 16.
  rewrite Z.mod_small; Z.div_mod_to_equations; lia.
Qed.

(** Equal records after long chains of updates, once the values stored are
    variables. *)
Ltac by_record := intros; vm_compute; reflexivity.
Ltac fields_of pkt :=
  generalize (if field16 pkt 4 =? 0 then 3 else 2) (u8 (Z.land (Z.shiftr (field16 pkt 6) 13) 0x07))
    (field16 pkt 4) (field32 pkt 12) (field32 pkt 16) (nth 1 pkt 0) (nth 8 pkt 0).

(** The context after an IPv4 packet with a header of [n] octets. *)
Definition captured4 (pkt : bytes) (n protocol : Z) (c : Context) : Context :=
  c <| ip_version := 4 |> <| ipv4_protocol := protocol |> <| ipv4_options_len := n - 20 |>
    <| ipv4_options := take (Z.to_nat (n - 20)) (drop 20 pkt) ++ repeat 0 (Z.to_nat (60 - n)) |>
    <| ipv6_extension_len := 0 |> <| ipv6_extensions := repeat 0 128 |>
    <| ipv4_tos := nth 1 pkt 0 |> <| ipv4_ttl := nth 8 pkt 0 |> <| ipv4_id := field16 pkt 4 |>
    <| ipv4_flags := u8 (Z.land (Z.shiftr (field16 pkt 6) 13) 0x07) |>
    <| ipv4_saddr := field32 pkt 12 |> <| ipv4_daddr := field32 pkt 16 |>
    <| ipv4_id_behavior := if field16 pkt 4 =? 0 then 3 else 2 |> <| ipv4_id_sequential := false |>.

Lemma repeat_0_drop (k m : nat) : drop k (repeat 0 m) = repeat 0 (m - k).
Proof. revert k. induction m as [|m IH]; intros [|k]; cbn; auto. Qed.

Lemma capture_ipv4_run pkt n protocol c : bytes_ok pkt -> ipv4_parse pkt = Ok n ->
  capture_ip_context pkt (mkView n 0 protocol false) c = (Ok tt, captured4 pkt n protocol c).
Proof.
  intros Hok Hn. apply ipv4_parse_spec in Hn as (Hr & Hl & Hm & _); [|done].
  unfold capture_ip_context. cbn [view_is_ipv6 view_terminal_protocol].
  erewrite bind_ok by reflexivity. unfold capture_ipv4_context. cbn [view_header_len].
  rewrite !rd_nth by lia. rewrite (rd_field16 pkt 4), (rd_field16 pkt 6), (rd_field32 pkt 12), (rd_field32 pkt 16) by (done || lia).
  do 7 (erewrite bind_ok by reflexivity). unfold capture_ipv4_options.
  rewrite (proj2 (Z.ltb_ge n 20)) by lia. erewrite bind_ok by reflexivity.
  rewrite (proj2 (Z.ltb_ge 40 (n - 20))) by lia.
  assert (M : (n - 20) mod 4 = 0) by (Z.div_mod_to_equations; lia). rewrite M. cbn [Z.eqb negb orb].
  do 2 (erewrite bind_ok by reflexivity).
  assert (E8 : u8 (n - 20) = n - 20) by (apply u8_small; unfold byte_ok; lia).
  rewrite E8. unfold captured4. change (Z.to_nat 1) with 1%nat. change (Z.to_nat 8) with 8%nat.
  assert (Lo : length (take (Z.to_nat (n - 20)) (drop 20 pkt)) = Z.to_nat (n - 20)).
  { rewrite length_take, length_drop. unfold blen in Hl. lia. }
  assert (Ea : overwrite (repeat 0 40) (take (Z.to_nat (n - 20)) (drop 20 pkt)) =
               Ok (take (Z.to_nat (n - 20)) (drop 20 pkt) ++ repeat 0 (Z.to_nat (60 - n)))).
  { unfold overwrite. rewrite repeat_length, Lo, (proj2 (Nat.ltb_ge _ _)) by lia.
    rewrite repeat_0_drop. do 3 f_equal. lia. }
  destruct (Z.ltb_spec 0 (n - 20)) as [P|P].
  - rewrite slice_eq by lia. erewrite bind_ok by reflexivity. change (Z.to_nat 20) with 20%nat.
    rewrite Ea. erewrite bind_ok by reflexivity.
    generalize (take (Z.to_nat (n - 20)) (drop 20 pkt) ++ repeat 0 (Z.to_nat (60 - n))) (n - 20).
    fields_of pkt. by_record.
  - assert (n = 20) as -> by lia. change (Z.to_nat (20 - 20)) with 0%nat. cbn [take app].
    fields_of pkt. by_record.
Qed.

(** The IPv4 fields of a context are those of a packet whose header has [n]
    octets. *)
Definition describes4 (pkt : bytes) (n : Z) (c : Context) : Prop :=
  ip_version c = 4 /\ ipv4_options_len c = n - 20 /\
  ipv4_options c = take (Z.to_nat (n - 20)) (drop 20 pkt) ++ repeat 0 (Z.to_nat (60 - n)) /\
  ipv4_tos c = nth 1 pkt 0 /\ ipv4_ttl c = nth 8 pkt 0 /\ ipv4_id c = field16 pkt 4 /\
  ipv4_flags c = u8 (Z.land (Z.shiftr (field16 pkt 6) 13) 0x07) /\
  ipv4_saddr c = field32 pkt 12 /\ ipv4_daddr c = field32 pkt 16.

(** The two octets of the flags and the fragment offset come back from the
    flags when the packet is not a fragment. *)
Lemma flags_octets a b : byte_ok a -> byte_ok b -> is_fragmented (Z.lor (Z.shiftl a 8) b) = false ->
  u8 (Z.shiftl (u8 (Z.land (Z.shiftr (Z.lor (Z.shiftl a 8) b) 13) 0x07)) 5) = a /\ b = 0.
Proof.
  intros Ha Hb. rewrite combine16 by done. unfold is_fragmented. intros H. apply negb_false_iff, Z.eqb_eq in H.
  change 0x3FFF with (Z.ones 14) in H. rewrite Z.land_ones in H by lia. change 0x07 with (Z.ones 3).
  rewrite Z.land_ones, Z.shiftr_div_pow2, Z.shiftl_mul_pow2 by lia. unfold byte_ok, u8 in *.
  change (2 ^ 14) with 16384 in H. change (2 ^ 13) with 8192. change (2 ^ 3) with 8. change (2 ^ 5) with 32.
  change (2 ^ 8) with 256. rewrite (Z.mod_small (_ mod 8)) by (Z.div_mod_to_equations; lia).
  split; Z.div_mod_to_equations; lia.
Qed.

Lemma take_split (l : bytes) i j : (i <= j)%nat -> take j l = take i l ++ take (j - i) (drop i l).
Proof. intros H. rewrite take_take_drop. f_equal. lia. Qed.

Lemma ipv4_octets_described pkt n c total csum : bytes_ok pkt -> ipv4_parse pkt = Ok n ->
  describes4 pkt n c -> is_fragmented (field16 pkt 6) = false ->
  ipv4_octets c (nth 9 pkt 0) total csum =
  Ok (take 2 pkt ++ be16 total ++ take 6 (drop 4 pkt) ++ be16 csum ++ take (Z.to_nat (n - 12)) (drop 12 pkt)).
Proof.
  intros Hok Hn (_ & Eo & Eb & Et & El & Ei & Ef & Es & Ed) Hf.
  apply ipv4_parse_spec in Hn as (Hr & Hl & Hm & H0 & _); [|done].
  unfold ipv4_octets. rewrite Eo, Eb, Et, El, Ei, Ef, Es, Ed.
  replace (20 + (n - 20)) with n by lia. rewrite H0.
  set (o := take (Z.to_nat (n - 20)) (drop 20 pkt)).
  assert (Lo : n - 20 = blen o) by (unfold blen, o in *; rewrite length_take, length_drop; lia).
  assert (So : slice (o ++ repeat 0 (Z.to_nat (60 - n))) 0 (n - 20) = Ok o) by (by apply (slice_exact [] o)).
  rewrite So. cbn [obind]. f_equal. subst o. clear So.
  replace (Z.to_nat (n - 12)) with (8 + Z.to_nat (n - 20))%nat by lia. clear Lo Eo Eb Et El Ei Ef Es Ed H0.
  generalize (Z.to_nat (n - 20)). intros k. do 20 (destruct pkt as [|?b pkt]; [unfold blen in Hl; cbn in Hl; lia|]).
  repeat (apply bytes_ok_cons in Hok as [? Hok]). unfold field16, field32 in *. cbn [nth Nat.add] in *.
  destruct (flags_octets b5 b6) as [-> ->]; [done..|]. rewrite be16_octets, !be32_octets by done. done.
Qed.

(** The sender filled the header in: its length is the packet's, it is no
    fragment, and its checksum is right and not the other zero, 0xFFFF. *)
Definition conventional4 (pkt : bytes) (n : Z) : Prop :=
  field16 pkt 2 = blen pkt /\ is_fragmented (field16 pkt 6) = false /\
  ones_sum (word_sum (take (Z.to_nat n) pkt)) = 65535 /\ field16 pkt 10 <> 0xFFFF.

(** The complement that makes a sum 0xFFFF is unique but for the two zeros. *)
Lemma checksum_field s f : 0 < s -> 0 <= f < 65535 -> ones_sum (s + f) = 65535 -> 65535 - ones_sum s = f.
Proof.
  intros Hs Hf. unfold ones_sum. rewrite !(proj2 (Z.eqb_neq _ 0)) by lia.
  Z.div_mod_to_equations. lia.
Qed.

Lemma word_sum_pos l : bytes_ok l -> 0 < nth 0 l 0 -> 0 < word_sum l.
Proof.
  intros H Hp. destruct l as [|a [|b l]]; cbn [nth word_sum] in *; [lia|lia|].
  apply bytes_ok_cons in H as [_ H]. apply bytes_ok_cons in H as [Hb H].
  pose proof (word_sum_nonneg l H). unfold byte_ok in Hb. lia.
Qed.

Lemma ipv4_parts pkt n : bytes_ok pkt -> ipv4_parse pkt = Ok n -> field16 pkt 2 = blen pkt ->
  take 2 pkt ++ be16 (blen pkt) ++ take 6 (drop 4 pkt) = take 10 pkt /\
  take (Z.to_nat n) pkt = take 10 pkt ++ [nth 10 pkt 0; nth 11 pkt 0] ++ take (Z.to_nat (n - 12)) (drop 12 pkt).
Proof.
  intros Hok Hn Ht. apply ipv4_parse_spec in Hn as (Hr & Hl & _); [|done]. rewrite <- Ht. clear Ht.
  replace (Z.to_nat n) with (12 + Z.to_nat (n - 12))%nat by lia. generalize (Z.to_nat (n - 12)). intros k.
  do 20 (destruct pkt as [|?b pkt]; [unfold blen in Hl; cbn in Hl; lia|]).
  repeat (apply bytes_ok_cons in Hok as [? Hok]). unfold field16. cbn [nth Nat.add].
  by rewrite be16_octets.
Qed.

Lemma ipv4_header_described pkt n c : bytes_ok pkt -> ipv4_parse pkt = Ok n ->
  describes4 pkt n c -> conventional4 pkt n ->
  ipv4_header c (nth 9 pkt 0) (blen pkt) = Ok (take (Z.to_nat n) pkt).
Proof.
  intros Hok Hn Hd (Ht & Hf & Hs & Hc). pose proof (ipv4_parse_spec _ _ Hok Hn) as (Hr & Hl & _ & _ & H0).
  pose proof (field16_range pkt 2 Hok). unfold ipv4_header, u16. rewrite Z.mod_small by lia.
  destruct (ipv4_parts pkt n Hok Hn Ht) as [Eb En].
  assert (Eo : forall csum, ipv4_octets c (nth 9 pkt 0) (blen pkt) csum =
                 Ok (take 10 pkt ++ be16 csum ++ take (Z.to_nat (n - 12)) (drop 12 pkt))).
  { intros csum. rewrite (ipv4_octets_described pkt n) by done. by rewrite <- Eb, <- !app_assoc. }
  rewrite !Eo. cbn [obind]. change (be16 0) with [0; 0]. rewrite En in Hs |- *. clear Eb En.
  destruct Hd as (_ & En & _). rewrite En. set (before := take 10 pkt) in *.
  set (after := take (Z.to_nat (n - 12)) (drop 12 pkt)) in *.
  assert (Lb : length before = 10%nat) by (unfold before; rewrite length_take; unfold blen in Hl; lia).
  assert (Hob : bytes_ok before) by (by apply bytes_ok_take).
  assert (Hou : bytes_ok (before ++ [0; 0] ++ after)).
  { rewrite !bytes_ok_app, !bytes_ok_cons. split_and!; try (unfold byte_ok; lia); [done|constructor|].
    by apply bytes_ok_take, bytes_ok_drop. }
  assert (Pu : 0 < word_sum (before ++ [0; 0] ++ after)).
  { apply word_sum_pos; [done|]. unfold before. destruct pkt; [unfold blen in Hl; cbn in Hl; lia|]. done. }
  assert (Lu : blen (before ++ [0; 0] ++ after) = n).
  { unfold blen, after in *. rewrite !length_app, Lb, length_take, length_drop. cbn [length]. lia. }
  pose proof (word_sum_bound _ Hou) as W. rewrite Lu in W.
  rewrite header_checksum_eq by (done || lia). cbn [obind].
  rewrite word_sum_stored in Hs by (by rewrite Lb).
  pose proof (field16_range pkt 10 Hok) as R. unfold field16 in Hc, R. cbn [Nat.add] in Hc, R.
  rewrite combine16 in Hc, R by auto using nth_byte. rewrite (checksum_field _ (nth 10 pkt 0 * 256 + nth 11 pkt 0) Pu ltac:(lia) Hs).
  rewrite Eo, <- combine16 by auto using nth_byte. by rewrite be16_octets by auto using nth_byte.
Qed.

(** *** IPv6 *)

Lemma ipv6_walk_spec fuel data total next pos ext h t e : bytes_ok data ->
  total <= blen data -> total < 2 ^ 64 -> 0 <= pos <= total -> 0 <= ext ->
  ipv6_walk fuel data total next pos ext = Ok (h, t, e) ->
  h - pos = e - ext /\ ext <= e /\ h <= total /\ (byte_ok next -> byte_ok t).
Proof.
  intros Hok Ht H64. revert next pos ext. induction fuel as [|fuel IH]; intros next pos ext Hp He H;
    cbn [ipv6_walk] in H; destruct (is_extension_header next); [done| |..].
  - injection H as <- <- <-. split_and!; [lia..|done].
  - destruct (tail_from_in_range data pos ltac:(lia)) as (r & Er & Lr & Hr). rewrite Er in H. cbn [obind] in H.
    rewrite usub_small in H by lia. pose proof (extension_header_len_ok r (total - pos) next (Hr Hok) ltac:(lia)) as X.
    destruct (extension_header_len r (total - pos) next) as [n| |]; [|done..]. cbn in X. cbn [obind] in H.
    destruct (rd_in_range data pos ltac:(lia)) as (v & Ev & Hv). rewrite Ev in H. cbn [obind] in H.
    apply IH in H as (? & ? & ? & Hb); [|lia..]. split_and!; [lia..|]. intros _. apply Hb, Hv, Hok.
  - injection H as <- <- <-. split_and!; [lia..|done].
Qed.

Lemma ipv6_parse_spec pkt h t e : bytes_ok pkt -> ipv6_parse pkt = Ok (h, t, e) ->
  h = 40 + e /\ 0 <= e /\ h <= 40 + field16 pkt 4 /\ 40 + field16 pkt 4 <= blen pkt /\
  Z.shiftr (field32 pkt 0) 28 = 6 /\ byte_ok t.
Proof.
  intros Hok H. unfold ipv6_parse in H. destruct (Z.ltb_spec (blen pkt) 40) as [|L]; [done|]. cbn in H.
  rewrite (rd_field32 pkt 0 0), (rd_field16 pkt 4 4) in H by (done || lia). cbn [obind] in H.
  destruct (Z.eqb_spec (Z.shiftr (field32 pkt 0) 28) 6) as [E|]; [|done]. cbn [oguard obind] in H.
  destruct (Z.ltb_spec (blen pkt) (40 + field16 pkt 4)); [done|]. cbn [negb oguard obind] in H.
  rewrite rd_nth in H by lia. cbn [obind] in H. pose proof (field16_range pkt 4 Hok).
  apply ipv6_walk_spec in H as (? & ? & ? & Hb); [|done|lia..].
  split_and!; [lia..|done|apply Hb, nth_byte, Hok].
Qed.

(** Without extension headers the first next header is the last. *)
Lemma ipv6_no_extension pkt h t : bytes_ok pkt -> ipv6_parse pkt = Ok (h, t, 0) -> t = nth 6 pkt 0.
Proof.
  intros Hok H. unfold ipv6_parse in H. destruct (Z.ltb_spec (blen pkt) 40) as [|L]; [done|]. cbn [negb oguard obind] in H.
  rewrite (rd_field32 pkt 0 0), (rd_field16 pkt 4 4) in H by (done || lia). cbn [obind] in H.
  destruct (Z.eqb_spec (Z.shiftr (field32 pkt 0) 28) 6) as [E|]; [|done]. cbn [oguard obind] in H.
  pose proof (field16_range pkt 4 Hok). set (total := 40 + field16 pkt 4) in *.
  destruct (Z.ltb_spec (blen pkt) total); [done|]. cbn [negb oguard obind] in H.
  rewrite rd_nth in H by lia. cbn [obind] in H. change (Z.to_nat 6) with 6%nat in H.
  destruct (Z.to_nat total) as [|fuel]; cbn [ipv6_walk] in H; destruct (is_extension_header (nth 6 pkt 0)) eqn:Ex; [done|by injection H| |by injection H].
  destruct (tail_from_in_range pkt 40 ltac:(lia)) as (r & Er & Lr & Hr). rewrite Er in H. cbn [obind] in H.
  rewrite usub_small in H by lia. pose proof (extension_header_len_ok r (total - 40) (nth 6 pkt 0) (Hr Hok) ltac:(lia)) as X.
  destruct (extension_header_len r (total - 40) (nth 6 pkt 0)) as [n| |]; [|done..]. cbn in X. cbn [obind] in H.
  destruct (rd pkt 40) as [nx| |]; [|done..]. cbn [obind] in H. apply ipv6_walk_spec in H as (? & ? & _); [lia|done|lia..].
Qed.

Definition addressed6 (pkt : bytes) (t : Z) (c : Context) : Context :=
  c <| ip_version := 6 |> <| ipv4_protocol := t |> <| ipv4_options_len := 0 |>
    <| ipv4_options := repeat 0 40 |> <| ipv6_extension_len := 0 |> <| ipv6_extensions := repeat 0 128 |>
    <| ipv6_traffic_class := u8 (Z.land (Z.shiftr (field32 pkt 0) 20) 0xFF) |>
    <| ipv6_flow_label := Z.land (field32 pkt 0) 0x000FFFFF |>
    <| ipv6_next_header := nth 6 pkt 0 |> <| ipv6_hop_limit := nth 7 pkt 0 |>
    <| ipv6_saddr := take 16 (drop 8 pkt) |> <| ipv6_daddr := take 16 (drop 24 pkt) |>.

(** The context after an IPv6 packet with [e] octets of extension headers. *)
Definition captured6 (pkt : bytes) (e t : Z) (c : Context) : Context :=
  addressed6 pkt t c <| ipv6_extension_len := e |>
    <| ipv6_extensions := take (Z.to_nat e) (drop 40 pkt) ++ repeat 0 (Z.to_nat (128 - e)) |>.

Ltac fields_of6 pkt :=
  generalize (u8 (Z.land (Z.shiftr (field32 pkt 0) 20) 0xFF)) (Z.land (field32 pkt 0) 0x000FFFFF)
    (nth 6 pkt 0) (nth 7 pkt 0) (take 16 (drop 8 pkt)) (take 16 (drop 24 pkt)).

Lemma capture_ipv6_run pkt h t e c : bytes_ok pkt -> ipv6_parse pkt = Ok (h, t, e) ->
  capture_ip_context pkt (mkView h e t true) c =
  if 128 <? e then (Rej, addressed6 pkt t c) else (Ok tt, captured6 pkt e t c).
Proof.
  intros Hok H. apply ipv6_parse_spec in H as (-> & He & Hh & Hl & _); [|done].
  unfold capture_ip_context. cbn [view_is_ipv6 view_terminal_protocol].
  erewrite bind_ok by reflexivity. unfold capture_ipv6_context. cbn [view_extension_len].
  rewrite (rd_field32 pkt 0 0), !rd_nth, !slice_eq by (done || lia).
  change (Z.to_nat 6) with 6%nat. change (Z.to_nat 7) with 7%nat. change (Z.to_nat 8) with 8%nat.
  change (Z.to_nat 16) with 16%nat. change (Z.to_nat 24) with 24%nat.
  do 6 (erewrite bind_ok by reflexivity). unfold captured6, addressed6.
  destruct (Z.ltb_spec 128 e) as [P|P]; cbn [negb].
  { fields_of6 pkt. by_record. }
  do 2 (erewrite bind_ok by reflexivity).
  assert (E8 : u8 e = e) by (apply u8_small; unfold byte_ok; lia). rewrite E8.
  destruct (Z.ltb_spec 0 e) as [Q|Q].
  - assert (Lo : length (take (Z.to_nat e) (drop 40 pkt)) = Z.to_nat e).
    { rewrite length_take, length_drop. unfold blen in Hl. lia. }
    erewrite bind_ok by reflexivity. change (Z.to_nat 40) with 40%nat.
    assert (Ea : overwrite (repeat 0 128) (take (Z.to_nat e) (drop 40 pkt)) =
               Ok (take (Z.to_nat e) (drop 40 pkt) ++ repeat 0 (Z.to_nat (128 - e)))).
    { unfold overwrite. rewrite repeat_length, Lo, (proj2 (Nat.ltb_ge _ _)) by lia.
      rewrite repeat_0_drop. do 3 f_equal. lia. }
    rewrite Ea. erewrite bind_ok by reflexivity.
    generalize (take (Z.to_nat e) (drop 40 pkt) ++ repeat 0 (Z.to_nat (128 - e))).
    fields_of6 pkt. by_record.
  - assert (e = 0) as -> by lia. change (Z.to_nat 0) with 0%nat. cbn [take app].
    fields_of6 pkt. by_record.
Qed.

Definition describes6 (pkt : bytes) (e : Z) (c : Context) : Prop :=
  ip_version c = 6 /\ ipv6_extension_len c = e /\
  ipv6_extensions c = take (Z.to_nat e) (drop 40 pkt) ++ repeat 0 (Z.to_nat (128 - e)) /\
  ipv6_traffic_class c = u8 (Z.land (Z.shiftr (field32 pkt 0) 20) 0xFF) /\
  ipv6_flow_label c = Z.land (field32 pkt 0) 0x000FFFFF /\
  ipv6_next_header c = nth 6 pkt 0 /\ ipv6_hop_limit c = nth 7 pkt 0 /\
  ipv6_saddr c = take 16 (drop 8 pkt) /\ ipv6_daddr c = take 16 (drop 24 pkt).

(** Version, traffic class and flow label make the first word. *)
Lemma first_word_back w : 0 <= w < 2 ^ 32 -> Z.shiftr w 28 = 6 ->
  Z.lor (Z.lor 0x60000000 (u32 (Z.shiftl (u8 (Z.land (Z.shiftr w 20) 0xFF)) 20))) (Z.land (Z.land w 0x000FFFFF) 0x000FFFFF) = w.
Proof.
  intros Hw H6. change 0x000FFFFF with (Z.ones 20). change 0xFF with (Z.ones 8).
  rewrite !Z.land_ones, Z.mod_mod by lia. rewrite !Z.shiftr_div_pow2 in * by lia. unfold u8.
  change (2 ^ 8) with 256. change (2 ^ 20) with 1048576 in *. change (2 ^ 28) with 268435456 in *.
  change (2 ^ 32) with 4294967296 in Hw. rewrite Z.mod_mod by lia.
  set (t := (w / 1048576) mod 256). assert (0 <= t < 256) by (apply Z.mod_pos_bound; lia).
  unfold u32. change (2 ^ 32) with 4294967296.
  rewrite (Z.mod_small (Z.shiftl t 20)) by (rewrite Z.shiftl_mul_pow2 by lia; lia).
  change 0x60000000 with (Z.shiftl 1536 20). rewrite <- Z.shiftl_lor.
  rewrite lor_disjoint_add by (change (2 ^ 20) with 1048576; pose proof (Z.mod_pos_bound w 1048576); lia).
  change 1536 with (Z.shiftl 6 8). rewrite lor_disjoint_add by lia.
  change (2 ^ 20) with 1048576. change (2 ^ 8) with 256. unfold t. Z.div_mod_to_equations. lia.
Qed.

Lemma build_ipv6_header_described pkt h t e c total : bytes_ok pkt -> ipv6_parse pkt = Ok (h, t, e) ->
  describes6 pkt e c -> e <= 128 -> 40 <= total ->
  build_ipv6_header total c (field16 pkt 4) = Ok (take (Z.to_nat h) pkt).
Proof.
  intros Hok H (_ & Ee & Eb & Et & Ef & En & El & Es & Ed) H128 Hto. unfold build_ipv6_header.
  apply ipv6_parse_spec in H as (-> & He & Hh & Hl & H6 & _); [|done].
  pose proof (field16_range pkt 4 Hok). pose proof (field32_range pkt 0 Hok).
  rewrite (proj2 (Z.ltb_ge total 40)), (proj2 (Z.ltb_ge 0xFFFF (field16 pkt 4))) by lia.
  cbn [orb negb oguard obind]. rewrite Ee, Eb, Et, Ef, En, El, Es, Ed, first_word_back by done.
  set (o := take (Z.to_nat e) (drop 40 pkt)).
  assert (Lo : e = blen o) by (unfold blen, o in *; rewrite length_take, length_drop; lia).
  assert (So : slice (o ++ repeat 0 (Z.to_nat (128 - e))) 0 e = Ok o) by (by apply (slice_exact [] o)).
  rewrite So. cbn [obind]. f_equal. subst o. clear So Lo Eb Ee.
  replace (Z.to_nat (40 + e)) with (40 + Z.to_nat e)%nat by lia. generalize (Z.to_nat e). intros k.
  clear - Hok Hl H. assert (L : 40 <= blen pkt) by lia. clear Hl H.
  do 40 (destruct pkt as [|?b pkt]; [unfold blen in L; cbn in L; lia|]).
  do 8 (apply bytes_ok_cons in Hok as [? Hok]). unfold field16, field32. cbn [nth Nat.add].
  by rewrite be16_octets, be32_octets.
Qed.

(** *** UDP, ESP and RTP *)

Definition describes_udp (p : bytes) (c : Context) : Prop :=
  udp_sport c = field16 p 0 /\ udp_dport c = field16 p 2 /\
  udp_length_or_coverage c = field16 p 4 /\ udp_check c = field16 p 6.

Lemma udp_described p c : bytes_ok p -> 8 <= blen p -> describes_udp p c ->
  udp_octets c (field16 p 4) = take 8 p.
Proof.
  intros Hok L (Es & Ed & _ & Ec). unfold udp_octets. rewrite Es, Ed, Ec.
  do 8 (destruct p as [|?b p]; [unfold blen in L; cbn in L; lia|]).
  do 8 (apply bytes_ok_cons in Hok as [? Hok]). unfold field16. cbn [nth Nat.add].
  by rewrite !be16_octets.
Qed.

Definition describes_esp (p : bytes) (c : Context) : Prop :=
  esp_spi c = field32 p 0 /\ esp_sequence c = field32 p 4.

Lemma esp_described p c : bytes_ok p -> 8 <= blen p -> describes_esp p c -> esp_octets c = take 8 p.
Proof.
  intros Hok L (Es & Ed). unfold esp_octets. rewrite Es, Ed.
  do 8 (destruct p as [|?b p]; [unfold blen in L; cbn in L; lia|]).
  do 8 (apply bytes_ok_cons in Hok as [? Hok]). unfold field32. cbn [nth Nat.add].
  by rewrite !be32_octets.
Qed.

Definition describes_rtp (p : bytes) (r : RtpContext) : Prop :=
  vpxcc r = nth 0 p 0 /\ mpt r = nth 1 p 0 /\ last_seq r = field16 p 2 /\
  last_ts r = field32 p 4 /\ ssrc r = field32 p 8.

Lemma rtp_described p c : bytes_ok p -> 12 <= blen p -> describes_rtp p (rtp c) -> rtp_octets c = take 12 p.
Proof.
  intros Hok L (Ev & Em & Es & Et & Ec). unfold rtp_octets. rewrite Ev, Em, Es, Et, Ec.
  do 12 (destruct p as [|?b p]; [unfold blen in L; cbn in L; lia|]).
  do 12 (apply bytes_ok_cons in Hok as [? Hok]). unfold field16, field32. cbn [nth Nat.add].
  by rewrite be16_octets, !be32_octets.
Qed.

(** The parts of an RTP packet behind its header. *)
Definition with_extras (k : Z) (a : bytes) (x : Z) (b : bytes) (q : Z) (d : bytes) (r : RtpContext) : RtpContext :=
  r <| csrc_list_len := k |> <| csrc_list := a |> <| extension_len := x |> <| extension_bytes := b |>
    <| padding_len := q |> <| padding_bytes := d |>.

Lemma with_extras_ok k a x b q d r : rtp_ok r -> byte_ok k -> length a = 60%nat -> bytes_ok a ->
  0 <= x < 2 ^ 16 -> length b = 256%nat -> bytes_ok b -> byte_ok q -> length d = 255%nat -> bytes_ok d ->
  rtp_ok (with_extras k a x b q d r).
Proof. intros. unfold with_extras. auto 10 with ctxok. Qed.

(** A buffer of [m] octets that starts with [n] octets of [p] and is zero
    behind them. *)
Definition held_in (m : nat) (p : bytes) (off n : Z) : bytes :=
  take (Z.to_nat n) (drop (Z.to_nat off) p) ++ repeat 0 (m - Z.to_nat n).

Lemma held_ok m p off n : bytes_ok p -> 0 <= off -> 0 <= n <= Z.of_nat m -> off + n <= blen p ->
  length (held_in m p off n) = m /\ bytes_ok (held_in m p off n) /\
  slice (held_in m p off n) 0 n = Ok (take (Z.to_nat n) (drop (Z.to_nat off) p)).
Proof.
  intros Hok Ho Hn Hl. unfold held_in.
  assert (L : length (take (Z.to_nat n) (drop (Z.to_nat off) p)) = Z.to_nat n).
  { rewrite length_take, length_drop. unfold blen in Hl. lia. }
  split_and!.
  - rewrite length_app, L, repeat_length. lia.
  - apply bytes_ok_app. split; [by apply bytes_ok_take, bytes_ok_drop|]. apply zeros_ok.
  - apply (slice_exact [] _ (repeat 0 (m - Z.to_nat n))). unfold blen. lia.
Qed.

Lemma copied_in (m : nat) p off n : 0 <= off -> 0 <= n <= Z.of_nat m -> off + n <= blen p ->
  (let! o := slice p off n in overwrite (repeat 0 m) o) = Ok (held_in m p off n).
Proof.
  intros Ho Hn Hl. rewrite slice_eq by lia. cbn [obind]. unfold overwrite, held_in.
  assert (L : length (take (Z.to_nat n) (drop (Z.to_nat off) p)) = Z.to_nat n).
  { rewrite length_take, length_drop. unfold blen in Hl. lia. }
  rewrite repeat_length, L, (proj2 (Nat.ltb_ge _ _)) by lia. by rewrite repeat_0_drop.
Qed.

(** The copy as the three capture functions make it. *)
Lemma copy_run (m : nat) p off n (f : bytes -> Context -> Context) c :
  0 <= off -> 0 <= n <= Z.of_nat m -> off + n <= blen p ->
  (o <- lift (slice p off n) ;; a <- lift (overwrite (repeat 0 m) o) ;; set_ctx (f a)) c =
  (Ok tt, f (held_in m p off n) c).
Proof.
  intros Ho Hn Hl. pose proof (copied_in m p off n Ho Hn Hl) as E.
  unfold lift, bind. destruct (slice p off n); [|done..]. cbn [obind] in E. by rewrite E.
Qed.

Lemma copy_then {B} (m : nat) p off n (f : bytes -> Context -> Context) (k : M Context B) c :
  0 <= off -> 0 <= n <= Z.of_nat m -> off + n <= blen p ->
  (o <- lift (slice p off n) ;; a <- lift (overwrite (repeat 0 m) o) ;; set_ctx (f a) ;;; k) c =
  k (f (held_in m p off n) c).
Proof.
  intros Ho Hn Hl. pose proof (copied_in m p off n Ho Hn Hl) as E.
  unfold lift, bind. destruct (slice p off n); [|done..]. cbn [obind] in E. by rewrite E.
Qed.

(** The context with [k] octets of CSRC list, [x] of extension and [q] of
    padding of the RTP packet [p]. *)
Definition with_parts (p : bytes) (k x q : Z) (c : Context) : Context :=
  c <| rtp := with_extras k (held_in 60 p 12 k) x (held_in 256 p (12 + k) x)
                q (held_in 255 p (blen p - q) q) (rtp c) |>.

Definition parts_ok (p : bytes) (k x q : Z) : Prop :=
  0 <= k <= 60 /\ 0 <= x <= 256 /\ 0 <= q <= 255 /\ 12 + k + x + q <= blen p.

Lemma with_parts_ok p k x q c : bytes_ok p -> context_ok c -> parts_ok p k x q ->
  context_ok (with_parts p k x q c).
Proof.
  intros Hok Hc (Hk & Hx & Hq & Hl). unfold with_parts. apply ok_set_rtp; [done|].
  destruct (held_ok 60 p 12 k) as (? & ? & _); [done|lia..|].
  destruct (held_ok 256 p (12 + k) x) as (? & ? & _); [done|lia..|].
  destruct (held_ok 255 p (blen p - q) q) as (? & ? & _); [done|lia..|].
  apply with_extras_ok; try done; unfold byte_ok; try lia. by apply ok_rtp.
Qed.

Lemma held_0 m p off : held_in m p off 0 = repeat 0 m.
Proof. unfold held_in. change (Z.to_nat 0) with 0%nat. by rewrite Nat.sub_0_r. Qed.

(** Equal contexts, once the parts they hold are variables. *)
Ltac same_parts p c k x q :=
  unfold with_parts, with_extras; rewrite ?held_0;
  generalize (held_in 60 p 12 k) (held_in 256 p (12 + k) x) (held_in 255 p (blen p - q) q);
  try generalize k; try generalize x; try generalize q; generalize (rtp c); by_record.

Section CaptureRtp.
Variables (p : bytes) (c : Context).
Hypotheses (Hok : bytes_ok p) (Hsize : size_ok (blen p)).

(** A stage refuses without a change or answers the context it leaves. *)
Lemma capture_csrc_run v : 12 <= blen p -> byte_ok v ->
  capture_csrc p v (with_parts p 0 0 0 c) = (Rej, with_parts p 0 0 0 c) \/
  exists k, parts_ok p k 0 0 /\ capture_csrc p v (with_parts p 0 0 0 c) = (Ok (12 + k), with_parts p k 0 0 c).
Proof.
  intros L Hv. unfold capture_csrc. set (k := Z.land v 15 * 4).
  assert (Hk : 0 <= k <= 60) by (pose proof (land_range v 15 ltac:(lia)); lia).
  rewrite (proj2 (Z.ltb_ge 60 k)), orb_false_r by lia.
  destruct (Z.ltb_spec (blen p) (12 + k)); [by left|right]. exists k. split; [unfold parts_ok; lia|].
  erewrite bind_ok by reflexivity. erewrite bind_ok by reflexivity.
  assert (E8 : u8 k = k) by (apply u8_small; unfold byte_ok; lia). rewrite E8.
  destruct (Z.ltb_spec 0 k) as [P|P].
  - erewrite bind_ok by (apply (copy_run 60 p 12 k (fun a s => s <| rtp := rtp s <| csrc_list := a |> |>)); lia).
    same_parts p c k 0 0.
  - assert (k = 0) as -> by lia. same_parts p c 0 0 0.
Qed.

Lemma capture_extension_run v k : parts_ok p k 0 0 ->
  capture_extension p v (12 + k) (with_parts p k 0 0 c) = (Rej, with_parts p k 0 0 c) \/
  exists x, parts_ok p k x 0 /\
    capture_extension p v (12 + k) (with_parts p k 0 0 c) = (Ok (12 + k + x), with_parts p k x 0 c).
Proof.
  intros (Hk & _ & _ & Hl). unfold capture_extension. destruct (negb (Z.land v 16 =? 0)).
  - destruct (Z.ltb_spec (blen p) (12 + k + 4)); [by left|]. erewrite bind_ok by reflexivity.
    destruct (rd_u16_in_range p (12 + k + 2) ltac:(lia) ltac:(lia)) as (w & -> & Hw). specialize (Hw Hok).
    erewrite bind_ok by reflexivity. set (x := 4 + w * 4).
    destruct ((256 <? x) || (blen p <? 12 + k + x)) eqn:G; [by left|]. apply orb_false_iff in G as [G1 G2].
    apply Z.ltb_ge in G1, G2. right. exists x. split; [unfold parts_ok; lia|].
    do 2 (erewrite bind_ok by reflexivity).
    assert (E16 : u16 x = x) by (apply Z.mod_small; lia). rewrite E16.
    etransitivity; [apply (copy_then 256 p (12 + k) x (fun a s => s <| rtp := rtp s <| extension_bytes := a |> |>)); lia|].
    unfold ret. same_parts p c k x 0.
  - right. exists 0. rewrite Z.add_0_r. split; [unfold parts_ok; lia|done].
Qed.

Lemma capture_padding_run v k x : parts_ok p k x 0 ->
  capture_padding p v (12 + k + x) (with_parts p k x 0 c) = (Rej, with_parts p k x 0 c) \/
  exists q, parts_ok p k x q /\
    capture_padding p v (12 + k + x) (with_parts p k x 0 c) = (Ok q, with_parts p k x q c).
Proof.
  intros (Hk & Hx & _ & Hl). unfold capture_padding. destruct (negb (Z.land v 32 =? 0)).
  - destruct (rd_in_range p (blen p - 1) ltac:(lia)) as (q & -> & Hq). specialize (Hq Hok). unfold byte_ok in Hq.
    erewrite bind_ok by reflexivity.
    destruct (_ || _) eqn:G; [by left|]. rewrite !orb_false_iff in G. destruct G as [[G0 G1] G2].
    apply Z.eqb_neq in G0. apply Z.ltb_ge in G1, G2. unfold size_ok in Hsize.
    rewrite usub_small in G2 by lia. right. exists q. split; [unfold parts_ok; lia|].
    do 2 (erewrite bind_ok by reflexivity).
    assert (E8 : u8 q = q) by (apply u8_small; unfold byte_ok; lia). rewrite E8.
    etransitivity; [apply (copy_then 255 p (blen p - q) q (fun a s => s <| rtp := rtp s <| padding_bytes := a |> |>)); lia|].
    unfold ret. same_parts p c k x q.
  - right. exists 0. split; [unfold parts_ok; lia|done].
Qed.

(** The payload is what the parts leave of the packet. *)
Lemma wp_capture_rtp (Q : Z * Z -> Context -> Prop) (R : Context -> Prop) : context_ok c -> R c ->
  (forall k x q n, parts_ok p k x q -> rtp_extras_body_len (with_parts p k x q c) = Ok n ->
     Q (12 + k + x, blen p - (12 + k + x) - q) (with_parts p k x q c)) ->
  (forall k x q, parts_ok p k x q -> R (with_parts p k x q c)) ->
  wp (capture_rtp_context p) Q R c.
Proof.
  intros Hc Hr HQ HR. unfold capture_rtp_context. wp_step. wp_step; [|done]. bool_prop.
  wp_step. unfold set_rtp_ctx, set_ctx at 1. wp_step.
  match goal with |- wp _ _ _ ?s => change s with (with_parts p 0 0 0 c) end.
  wp_step. rewrite rd_nth by lia. apply wp_lift.
  assert (P0 : parts_ok p 0 0 0) by (unfold parts_ok; lia).
  unfold wp. destruct (capture_csrc_run (nth (Z.to_nat 0) p 0)) as [E|(k & Pk & E)];
    [lia|by apply nth_byte|unfold bind at 1; rewrite E; by apply HR|].
  erewrite bind_ok by exact E.
  destruct (capture_extension_run (nth (Z.to_nat 0) p 0) k Pk) as [E1|(x & Px & E1)];
    [unfold bind at 1; rewrite E1; by apply HR|]. erewrite bind_ok by exact E1.
  destruct (capture_padding_run (nth (Z.to_nat 0) p 0) k x Px) as [E2|(q & Pq & E2)];
    [unfold bind at 1; rewrite E2; by apply HR|]. erewrite bind_ok by exact E2.
  erewrite bind_ok by reflexivity. pose proof (with_parts_ok p k x q c Hok Hc Pq) as Hok'.
  destruct (rtp_extras_body_len (with_parts p k x q c)) as [n| |] eqn:En.
  - erewrite bind_ok by reflexivity. cbn. destruct Pq as (? & ? & ? & ?). unfold size_ok in Hsize.
    rewrite (usub_small (blen p)) by lia. rewrite usub_small by lia. by apply (HQ k x q n).
  - cbn. by apply HR.
  - by eapply extras_body_len_safe.
Qed.
End CaptureRtp.

(** The RTP packet is its header, its parts and the payload between them. *)
Lemma rtp_body_described p k x q c : bytes_ok p -> parts_ok p k x q ->
  describes_rtp p (rtp (with_parts p k x q c)) ->
  rtp_body (with_parts p k x q c) k x q
    (take (Z.to_nat (blen p - (12 + k + x) - q)) (drop (Z.to_nat (12 + k + x)) p)) = Ok p.
Proof.
  intros Hok (Hk & Hx & Hq & Hl) Hd. unfold rtp_body.
  change (csrc_list (rtp (with_parts p k x q c))) with (held_in 60 p 12 k).
  change (extension_bytes (rtp (with_parts p k x q c))) with (held_in 256 p (12 + k) x).
  change (padding_bytes (rtp (with_parts p k x q c))) with (held_in 255 p (blen p - q) q).
  destruct (held_ok 60 p 12 k) as (_ & _ & ->); [done|lia..|].
  destruct (held_ok 256 p (12 + k) x) as (_ & _ & ->); [done|lia..|].
  destruct (held_ok 255 p (blen p - q) q) as (_ & _ & ->); [done|lia..|]. cbn [obind].
  rewrite (rtp_described p) by (done || lia). f_equal. change (Z.to_nat 12) with 12%nat.
  replace (Z.to_nat (12 + k)) with (12 + Z.to_nat k)%nat by lia.
  replace (Z.to_nat (12 + k + x)) with (12 + Z.to_nat k + Z.to_nat x)%nat by lia.
  replace (Z.to_nat (blen p - q)) with (12 + Z.to_nat k + Z.to_nat x + Z.to_nat (blen p - (12 + k + x) - q))%nat
    by (unfold blen in *; lia).
  rewrite (take_ge (drop (12 + Z.to_nat k + Z.to_nat x + _) p))
    by (rewrite length_drop; unfold blen in *; lia).
  rewrite <- !drop_drop, !take_drop. done.
Qed.

Lemma layout_of_parts p k x q c n : rtp_extras_body_len (with_parts p k x q c) = Ok n ->
  rtp_context_payload_layout (with_parts p k x q c) = Ok (k, x, q).
Proof. intros E. unfold rtp_context_payload_layout. by rewrite E. Qed.

(** ** A described packet is built again *)

(** The IP fields of [c] describe [pkt], whose header [view] delimits. *)
Definition describes_ip (pkt : bytes) (view : ParsedIpView) (c : Context) : Prop :=
  if view_is_ipv6 view then describes6 pkt (view_extension_len view) c /\ view_extension_len view <= 128
  else describes4 pkt (view_header_len view) c /\ ipv4_protocol c = view_terminal_protocol view.

(** The sender filled the IP header in as RFC 791 and RFC 8200 say: its length
    is the packet's, and an IPv4 header has its checksum and is no fragment. *)
Definition conventional_ip (pkt : bytes) (view : ParsedIpView) : Prop :=
  if view_is_ipv6 view then field16 pkt 4 + 40 = blen pkt else conventional4 pkt (view_header_len view).

Lemma checked_ok base n : 0 <= base -> 0 <= n -> base + n < 2 ^ 63 -> checked_packet_size base n = Ok (base + n).
Proof. intros. unfold checked_packet_size. by rewrite (proj2 (Z.ltb_ge _ _)) by lia. Qed.

(** The size check of the RTP builders. *)
Lemma rtp_size_ok k x q n : 0 <= k -> 0 <= x -> 0 <= q -> 0 <= n -> 12 + k + x + q + n < 2 ^ 63 ->
  negb (usub (usub (2 ^ 64 - 1) (12 + k + x)) q <? n) = true.
Proof.
  intros. rewrite (usub_small (2 ^ 64 - 1)) by lia. rewrite usub_small by lia.
  by rewrite (proj2 (Z.ltb_ge _ _)) by lia.
Qed.

Section Build.
Variables (pkt : bytes) (view : ParsedIpView) (c : Context) (capacity : Z).
Hypotheses (Hok : bytes_ok pkt) (Hv : parse_ip_view pkt = Ok view) (Hd : describes_ip pkt view c)
  (Hc : conventional_ip pkt view) (Hcap : blen pkt <= capacity) (Hcap' : size_ok capacity).

Let h : Z := view_header_len view.
Let p : bytes := drop (Z.to_nat h) pkt.

Lemma view_cases :
  (view_is_ipv6 view = false /\ ipv4_parse pkt = Ok h /\ view_terminal_protocol view = nth 9 pkt 0) \/
  (view_is_ipv6 view = true /\ ipv6_parse pkt = Ok (h, view_terminal_protocol view, view_extension_len view)).
Proof.
  clear Hd Hc Hok. unfold parse_ip_view in Hv. subst h. destruct (ipv4_parse pkt) as [n| |] eqn:E; [left|right|done].
  - assert (L : 20 <= blen pkt).
    { unfold ipv4_parse in E. destruct (Z.ltb_spec (blen pkt) 20); [done|lia]. }
    rewrite rd_nth in Hv by lia. injection Hv as <-. done.
  - destruct (ipv6_parse pkt) as [[[a t] e]| |]; [|done..]. injection Hv as <-. done.
Qed.

Lemma view_bounds : 20 <= h <= blen pkt.
Proof.
  destruct view_cases as [(_ & E & _)|(_ & E)].
  - apply ipv4_parse_spec in E; [lia|done].
  - apply ipv6_parse_spec in E; [lia|done].
Qed.

Lemma pkt_split : take (Z.to_nat h) pkt ++ p = pkt /\ blen pkt = h + blen p /\ bytes_ok p.
Proof.
  pose proof view_bounds. unfold p. split; [apply take_drop|]. split; [|by apply bytes_ok_drop].
  unfold blen in *. rewrite length_drop. lia.
Qed.

Lemma version_described : (ip_version c =? 6) = view_is_ipv6 view.
Proof.
  unfold describes_ip in Hd. destruct (view_is_ipv6 view); destruct Hd as [(-> & _) _]; done.
Qed.

(** The IPv4 header, over a packet of the described length. *)
Lemma built4 protocol : view_is_ipv6 view = false -> protocol = view_terminal_protocol view ->
  ipv4_header c protocol (blen pkt) = Ok (take (Z.to_nat h) pkt) /\ 20 + ipv4_options_len c = h /\
  blen pkt <= 0xFFFF.
Proof.
  intros E ->. unfold describes_ip, conventional_ip in *. rewrite E in Hd, Hc. destruct Hd as [Hd4 _].
  destruct view_cases as [(_ & E4 & Et)|(E6 & _)]; [|congruence]. rewrite Et.
  split; [by apply ipv4_header_described|]. split; [destruct Hd4 as (_ & -> & _); unfold h; lia|].
  destruct Hc as (<- & _). pose proof (field16_range pkt 2 Hok). lia.
Qed.

Lemma built6 upper : view_is_ipv6 view = true -> h + upper = blen pkt -> 0 <= upper ->
  ipv6_extension_len c = h - 40 /\ 0 <= h - 40 /\ h - 40 + upper <= 0xFFFF /\
  build_ipv6_header (blen pkt) c (h - 40 + upper) = Ok (take (Z.to_nat h) pkt).
Proof.
  intros E Hu H0. unfold describes_ip, conventional_ip in *. rewrite E in Hd, Hc. destruct Hd as [Hd6 H128].
  destruct view_cases as [(E4 & _)|(_ & E6)]; [congruence|].
  pose proof (ipv6_parse_spec _ _ _ _ Hok E6) as (Eh & He & Hle & Hbl & _).
  pose proof (field16_range pkt 4 Hok). destruct Hd6 as (Ev & Ee & Hd6).
  split_and!; [lia..|]. replace (h - 40 + upper) with (field16 pkt 4) by lia.
  eapply build_ipv6_header_described; [done..| |done|lia]. done.
Qed.

Lemma sizes6 before upper : view_is_ipv6 view = true -> 0 <= before -> 0 <= upper -> h + before + upper = blen pkt ->
  ipv6_sizes capacity c before upper = Ok (h - 40 + (before + upper), blen pkt).
Proof.
  intros E Hb H0 Hu. destruct (built6 (before + upper) E) as (Ee & He & Hl & _); [lia..|].
  unfold ipv6_sizes, size_ok in *. rewrite Ee. rewrite !checked_ok by lia. cbn [obind].
  rewrite (proj2 (Z.ltb_ge 0xFFFF _)) by lia. cbn [negb oguard obind].
  rewrite (proj2 (Z.ltb_ge capacity _)) by lia. cbn [negb oguard obind]. do 2 f_equal; lia.
Qed.

(** The packet as an opaque payload of the IP header. *)
Lemma build_ip_described :
  (if view_is_ipv6 view then build_ipv6_ip_packet capacity c p else build_ip_packet capacity c p) = Ok pkt.
Proof.
  destruct pkt_split as (Es & Hl & Hp). pose proof (blen_nonneg p). pose proof view_bounds.
  destruct (view_is_ipv6 view) eqn:E.
  - unfold build_ipv6_ip_packet. rewrite sizes6 by (done || lia). cbn [obind fst snd].
    destruct (built6 (0 + blen p) E) as (_ & _ & _ & ->); [lia..|]. cbn [obind]. by rewrite Es.
  - unfold build_ip_packet, size_ok in *. pose proof Hd as Hd'. unfold describes_ip in Hd'. rewrite E in Hd'.
    destruct Hd' as [_ Ep]. destruct (built4 (ipv4_protocol c) E Ep) as (Eh & Eo & H16). rewrite Eo, checked_ok by lia.
    cbn [obind]. rewrite <- Hl, (proj2 (Z.ltb_ge 0xFFFF _)), (proj2 (Z.ltb_ge capacity _)) by lia.
    cbn [negb oguard obind]. rewrite Eh. cbn [obind]. by rewrite Es.
Qed.

(** ESP: the payload is what follows the SPI and the sequence number. *)
Lemma build_esp_described : describes_esp p c -> 8 <= blen p -> build_esp_packet capacity c (drop 8 p) = Ok pkt.
Proof.
  intros He H8. pose proof build_ip_described as B. pose proof version_described as V.
  destruct pkt_split as (_ & Hl & Hp). pose proof view_bounds. unfold size_ok in *.
  assert (Lp : blen (drop 8 p) = blen p - 8) by (unfold blen in *; rewrite length_drop; lia).
  unfold build_esp_packet. rewrite V, Lp, (esp_described p) by done. rewrite take_drop.
  rewrite (proj2 (Z.ltb_ge (2 ^ 64 - 1 - 8) _)) by lia.
  destruct (view_is_ipv6 view) eqn:E.
  - destruct (built6 (blen p) E) as (Ee & He6 & Hl6 & _); [lia..|]. rewrite Ee.
    rewrite (usub_small 0xFFFF) by lia. rewrite (proj2 (Z.ltb_ge (2 ^ 64 - 1 - 40) _)) by lia.
    rewrite (proj2 (Z.ltb_ge (0xFFFF - _) _)), (proj2 (Z.ltb_ge capacity _)) by lia. exact B.
  - pose proof Hd as Hd'. unfold describes_ip in Hd'. rewrite E in Hd'. destruct Hd' as [_ Ep].
    destruct (built4 _ E Ep) as (_ & _ & H16).
    rewrite (proj2 (Z.ltb_ge (2 ^ 64 - 1 - 20) _)) by lia.
    rewrite (proj2 (Z.ltb_ge (0xFFFF - _) _)), (proj2 (Z.ltb_ge capacity _)) by lia. exact B.
Qed.

(** The UDP header under either profile; a UDP-Lite header has its own
    coverage, a UDP header the length of the datagram. *)
Lemma udp_built lite : describes_udp p c -> 8 <= blen p -> blen p <= 0xFFFF ->
  (profile c = lite \/ field16 p 4 = blen p) -> udp_octets c (length_or_coverage c lite (blen p)) = take 8 p.
Proof.
  intros Hu H8 H16 Hlen. destruct pkt_split as (_ & _ & Hp). unfold length_or_coverage, profile_eqb.
  rewrite <- (udp_described p c) by done. f_equal. destruct (bool_decide_reflect (profile c = lite)) as [|N].
  - by destruct Hu as (_ & _ & -> & _).
  - destruct Hlen as [| ->]; [done|]. apply Z.mod_small. lia.
Qed.

Lemma datagram_fits : blen p <= 0xFFFF.
Proof.
  destruct pkt_split as (_ & Hl & _). pose proof view_bounds. destruct (view_is_ipv6 view) eqn:E.
  - pose proof (blen_nonneg p). destruct (built6 (blen p) E) as (_ & ? & ? & _); lia.
  - pose proof Hd as Hd'. unfold describes_ip in Hd'. rewrite E in Hd'. destruct Hd' as [_ Ep].
    destruct (built4 _ E Ep) as (_ & _ & ?). lia.
Qed.

Lemma build_udp_described : describes_udp p c -> 8 <= blen p ->
  (profile c = UDP_Lite \/ field16 p 4 = blen p) -> view_terminal_protocol view = udp_protocol c UDP_Lite ->
  (if view_is_ipv6 view then build_ipv6_udp_packet capacity c (drop 8 p)
   else build_udp_packet capacity c (drop 8 p)) = Ok pkt.
Proof.
  intros Hu H8 Hlen Hproto. destruct pkt_split as (Es & Hl & Hp). pose proof view_bounds.
  pose proof datagram_fits. unfold size_ok in *.
  assert (Lp : blen (drop 8 p) = blen p - 8) by (unfold blen in *; rewrite length_drop; lia).
  pose proof (udp_built UDP_Lite Hu H8 ltac:(done) Hlen) as Eu.
  destruct (view_is_ipv6 view) eqn:E.
  - unfold build_ipv6_udp_packet. rewrite Lp, sizes6 by (done || lia). cbn [obind fst snd].
    destruct (built6 (8 + (blen p - 8)) E) as (_ & _ & _ & ->); [lia..|]. cbn [obind].
    replace (8 + (blen p - 8)) with (blen p) by lia. by rewrite Eu, take_drop, Es.
  - destruct (built4 (udp_protocol c UDP_Lite) E ltac:(done)) as (Eh & Eo & H16).
    unfold build_udp_packet. rewrite Eo, Lp, checked_ok by lia. cbn [obind].
    replace (h + 8 + (blen p - 8)) with (blen pkt) by lia. replace (8 + (blen p - 8)) with (blen p) by lia.
    rewrite (proj2 (Z.ltb_ge 0xFFFF _)), (proj2 (Z.ltb_ge capacity _)) by lia.
    cbn [negb oguard obind]. rewrite Eh. cbn [obind]. by rewrite Eu, take_drop, Es.
Qed.

Section Rtp.
Variables (k x q : Z) (payload : bytes).
Hypotheses (Elay : rtp_context_payload_layout c = Ok (k, x, q)) (Hk : 0 <= k) (Hx : 0 <= x) (Hq : 0 <= q)
  (Hsum : 12 + k + x + q + blen payload = blen p - 8) (Eb : rtp_body c k x q payload = Ok (drop 8 p))
  (Hu : describes_udp p c) (Hlen : profile c = RTP_UDP_Lite \/ field16 p 4 = blen p).

Lemma build_ipv6_rtp_described : view_is_ipv6 view = true -> build_ipv6_rtp_packet capacity c payload = Ok pkt.
Proof.
  intros E. destruct pkt_split as (Es & Hl & Hp). pose proof view_bounds. pose proof datagram_fits as H16.
  unfold size_ok in *. pose proof (blen_nonneg payload).
  pose proof (udp_built RTP_UDP_Lite Hu ltac:(lia) H16 Hlen) as Eu.
  unfold build_ipv6_rtp_packet. rewrite Elay, obind_ok, rtp_size_ok, check_true by lia.
  assert (Ew : 12 + k + x + blen payload + q = blen p - 8) by lia. rewrite Ew.
  rewrite sizes6, obind_ok by (done || lia). unfold fst, snd.
  destruct (built6 (8 + (blen p - 8)) E) as (_ & _ & _ & Eh); [lia..|]. rewrite Eh, obind_ok, Eb, obind_ok.
  assert (E8 : 8 + (blen p - 8) = blen p) by lia. rewrite E8. by rewrite Eu, take_drop, Es.
Qed.

Lemma build_ipv4_rtp_described : view_is_ipv6 view = false ->
  view_terminal_protocol view = udp_protocol c RTP_UDP_Lite -> build_rtp_packet capacity c payload = Ok pkt.
Proof.
  intros E Hproto. destruct pkt_split as (Es & Hl & Hp). pose proof view_bounds. pose proof datagram_fits as H16.
  unfold size_ok in *. pose proof (blen_nonneg payload).
  pose proof (udp_built RTP_UDP_Lite Hu ltac:(lia) H16 Hlen) as Eu.
  destruct (built4 (udp_protocol c RTP_UDP_Lite) E ltac:(done)) as (Eh & Eo & Ht).
  unfold build_rtp_packet. rewrite Elay, obind_ok, rtp_size_ok, check_true, Eo by lia.
  assert (Ew : 12 + k + x + blen payload + q = blen p - 8) by lia. rewrite Ew.
  rewrite checked_ok, obind_ok by lia.
  assert (Et : h + 8 + (blen p - 8) = blen pkt) by lia. assert (E8 : 8 + (blen p - 8) = blen p) by lia.
  rewrite Et, E8, (proj2 (Z.ltb_ge 0xFFFF _)), (proj2 (Z.ltb_ge capacity _)), !check_true by (done || lia).
  rewrite Eh, obind_ok, Eb, obind_ok. by rewrite Eu, take_drop, Es.
Qed.
End Rtp.
End Build.

(** ** The headers of fixed size are those of the packets built *)

Lemma fixed_octets_are c protocol total csum : ipv4_options_len c = 0 ->
  ipv4_octets c protocol total csum = Ok (fixed_ipv4_octets c protocol total csum).
Proof.
  intros Ho. unfold ipv4_octets, fixed_ipv4_octets. rewrite Ho, slice_0, obind_ok. by rewrite app_nil_r.
Qed.

Lemma fixed_header_is c protocol total rest : ipv4_options_len c = 0 ->
  fixed_header c protocol total rest = obind (ipv4_header c protocol total) (fun ip => Ok (ip ++ rest)).
Proof.
  intros Ho. unfold fixed_header, ipv4_header. rewrite (fixed_octets_are c protocol (u16 total) 0 Ho), obind_ok, Ho.
  rewrite (header_checksum_prefix (fixed_ipv4_octets c protocol (u16 total) 0) rest 20 eq_refl).
  change (20 + 0) with 20. generalize (header_checksum (fixed_ipv4_octets c protocol (u16 total) 0) 20).
  intros [csum| |]; [|reflexivity..]. rewrite !obind_ok. by rewrite fixed_octets_are, obind_ok.
Qed.

Lemma fixed_header_inv c protocol total rest h : ipv4_options_len c = 0 ->
  fixed_header c protocol total rest = Ok h ->
  exists ip, ipv4_header c protocol total = Ok ip /\ h = ip ++ rest /\ blen ip = 20.
Proof.
  intros Ho. rewrite fixed_header_is by done. unfold ipv4_header.
  rewrite (fixed_octets_are c protocol (u16 total) 0 Ho), obind_ok.
  generalize (header_checksum (fixed_ipv4_octets c protocol (u16 total) 0) (20 + ipv4_options_len c)).
  intros [csum| |]; [|done..]. rewrite obind_ok, fixed_octets_are, obind_ok by done. intros [= <-].
  eexists. split_and!; reflexivity.
Qed.

Lemma refused {B} b (f : unit -> outcome B) a : obind (oguard (negb b)) f = Ok a -> b = false /\ f tt = Ok a.
Proof. by destruct b. Qed.

(** The general builders over a context whose IPv4 header has no options. *)
Lemma build_ip_fixed c payload capacity h : size_ok (blen payload) -> blen h + blen payload <= capacity ->
  build_fixed_ip_ipv4_header c (blen payload) = Ok h ->
  ip_version c = 4 /\ build_ip_packet capacity c payload = Ok (h ++ payload).
Proof.
  intros Hs Hcap H. apply refused in H as [G H]. bool_prop.
  apply fixed_header_inv in H as (ip & Ei & -> & Li); [|done]. rewrite app_nil_r in *. split; [done|].
  unfold build_ip_packet, size_ok in *. match goal with E : ipv4_options_len c = 0 |- _ => rewrite E end.
  pose proof (blen_nonneg payload).
  rewrite checked_ok, obind_ok, (proj2 (Z.ltb_ge 0xFFFF _)), (proj2 (Z.ltb_ge capacity _)), !check_true by (done || lia).
  rewrite Z.add_0_r. by rewrite Ei, obind_ok.
Qed.

Lemma not_lite c lite n : profile c <> lite ->
  udp_protocol c lite = 17 /\ length_or_coverage c lite n = u16 n.
Proof.
  intros H. unfold udp_protocol, length_or_coverage, profile_eqb. by rewrite bool_decide_false.
Qed.

Lemma build_udp_fixed c payload capacity h : size_ok (blen payload) -> blen h + blen payload <= capacity ->
  build_fixed_udp_ipv4_header c (blen payload) = Ok h ->
  ip_version c = 4 /\ build_udp_packet capacity c payload = Ok (h ++ payload).
Proof.
  intros Hs Hcap H. apply refused in H as [G H]. rewrite !orb_false_iff, !negb_false_iff, !Z.eqb_eq, Z.ltb_ge in G.
  destruct G as [[[Hp V] Eo] Hl]. apply fixed_header_inv in H as (ip & Ei & -> & Li); [|done]. split; [done|].
  apply bool_decide_eq_true in Hp. destruct (not_lite c UDP_Lite (8 + blen payload)) as [Epr Elc]; [by rewrite Hp|].
  unfold build_udp_packet, size_ok in *. rewrite Eo, Epr, Elc.
  pose proof (blen_nonneg payload). rewrite blen_app, Li in Hcap. change (blen (udp_octets c _)) with 8 in Hcap.
  rewrite checked_ok, obind_ok, (proj2 (Z.ltb_ge 0xFFFF _)), (proj2 (Z.ltb_ge capacity _)), !check_true by (done || lia).
  replace (20 + 0 + 8 + blen payload) with (28 + blen payload) by lia.
  rewrite Ei, obind_ok, <- app_assoc. done.
Qed.

Lemma build_esp_fixed c payload capacity h : size_ok (blen payload) -> blen h + blen payload <= capacity ->
  ipv4_protocol c = 50 -> build_fixed_esp_ipv4_header c (blen payload) = Ok h ->
  build_esp_packet capacity c payload = Ok (h ++ payload).
Proof.
  intros Hs Hcap H50 H. apply refused in H as [G H].
  rewrite !orb_false_iff, !negb_false_iff, !Z.eqb_eq, Z.ltb_ge in G. destruct G as [[[_ V] Eo] Hl].
  apply fixed_header_inv in H as (ip & Ei & -> & Li); [|done].
  pose proof (blen_nonneg payload). rewrite blen_app, Li in Hcap. change (blen (esp_octets c)) with 8 in Hcap.
  unfold build_esp_packet, build_ip_packet, size_ok in *. rewrite V, Eo, H50, blen_app. cbn [Z.eqb Pos.eqb].
  change (blen (esp_octets c)) with 8.
  rewrite (proj2 (Z.ltb_ge (2 ^ 64 - 1 - 8) _)), (proj2 (Z.ltb_ge (2 ^ 64 - 1 - 20) _)) by lia.
  rewrite (proj2 (Z.ltb_ge (0xFFFF - 20) _)), (proj2 (Z.ltb_ge capacity (20 + _))), !check_true by (done || lia).
  rewrite checked_ok, obind_ok, (proj2 (Z.ltb_ge 0xFFFF _)), (proj2 (Z.ltb_ge capacity _)), !check_true by (done || lia).
  replace (20 + 0 + (8 + blen payload)) with (28 + blen payload) by lia.
  by rewrite Ei, obind_ok, <- app_assoc.
Qed.

Lemma build_rtp_fixed c payload capacity h : size_ok (blen payload) -> blen h + blen payload <= capacity ->
  profile c = RTP -> build_fixed_rtp_ipv4_header c (blen payload) = Ok h ->
  ip_version c = 4 /\ build_rtp_packet capacity c payload = Ok (h ++ payload).
Proof.
  intros Hs Hcap Hp H. apply refused in H as [G H].
  rewrite !orb_false_iff, !negb_false_iff, !Z.eqb_eq, Z.ltb_ge in G. destruct G as [[[[[[V Eo] Ev] Ec] Ex] Eq] Hl].
  apply fixed_header_inv in H as (ip & Ei & -> & Li); [|done]. split; [done|].
  pose proof (blen_nonneg payload). rewrite !blen_app, Li in Hcap.
  change (blen (udp_octets c _)) with 8 in Hcap. change (blen (rtp_octets c)) with 12 in Hcap.
  assert (Elay : rtp_context_payload_layout c = Ok (0, 0, 0)).
  { unfold rtp_context_payload_layout, rtp_extras_body_len.
    assert (M : forall m, Z.land 0x3F m = m -> Z.land (vpxcc (rtp c)) m = 0).
    { intros m <-. by rewrite Z.land_assoc, Ev. }
    rewrite (M 0x0F), (M 0x10), (M 0x20), Ec, Ex, Eq by reflexivity.
    pose proof (blen_nonneg (csrc_list (rtp c))). change (0 * 4) with 0.
    by rewrite (proj2 (Z.ltb_ge (blen _) 0)) by lia. }
  assert (Eb : rtp_body c 0 0 0 payload = Ok (rtp_octets c ++ payload)).
  { unfold rtp_body. rewrite !slice_0, !obind_ok. cbn [app]. by rewrite app_nil_r. }
  destruct (not_lite c RTP_UDP_Lite (20 + blen payload)) as [Epr Elc]; [by rewrite Hp|].
  unfold build_rtp_packet, size_ok in *.
  rewrite Elay, obind_ok, rtp_size_ok, check_true, Eo, Epr by lia.
  assert (E12 : 12 + 0 + 0 + blen payload + 0 = 12 + blen payload) by lia. rewrite E12.
  rewrite checked_ok, obind_ok, (proj2 (Z.ltb_ge 0xFFFF _)), (proj2 (Z.ltb_ge capacity _)), !check_true by (done || lia).
  assert (E40 : 20 + 0 + 8 + (12 + blen payload) = 40 + blen payload) by lia.
  assert (E20 : 8 + (12 + blen payload) = 20 + blen payload) by lia. rewrite E40, E20, Elc.
  rewrite Ei, obind_ok, Eb, obind_ok, <- !app_assoc. done.
Qed.

(** C19: The header that a PT-0 packet's CRC is checked against is the header of
    the packet delivered: for each of the four profiles, when the builder of
    fixed size gives a header, the general builder gives that header followed
    by the payload, if the buffer has room. *)
Theorem checked_header_is_delivered c payload capacity h :
  size_ok (blen payload) -> blen h + blen payload <= capacity ->
  (profile c = IP -> build_fixed_ip_ipv4_header c (blen payload) = Ok h ->
     build_packet capacity c payload = Ok (h ++ payload)) /\
  (profile c = UDP -> build_fixed_udp_ipv4_header c (blen payload) = Ok h ->
     build_packet capacity c payload = Ok (h ++ payload)) /\
  (profile c = ESP -> ipv4_protocol c = 50 -> legacy_esp_payload_includes_header c = false ->
     build_fixed_esp_ipv4_header c (blen payload) = Ok h ->
     build_packet capacity c payload = Ok (h ++ payload)) /\
  (profile c = RTP -> build_fixed_rtp_ipv4_header c (blen payload) = Ok h ->
     build_packet capacity c payload = Ok (h ++ payload)).
Proof.
  intros Hs Hcap. unfold build_packet. split_and!.
  - intros -> H1. by destruct (build_ip_fixed c payload capacity h Hs Hcap H1) as [-> B].
  - intros -> H1. by destruct (build_udp_fixed c payload capacity h Hs Hcap H1) as [-> B].
  - intros -> H50 -> H1. by apply build_esp_fixed.
  - intros Hp H1. rewrite Hp. by destruct (build_rtp_fixed c payload capacity h Hs Hcap Hp H1) as [-> B].
Qed.

Lemma checked_header_is_delivered_witness :
  let c := initial_context <| profile := UDP |> <| ip_version := 4 |> <| ipv4_protocol := 17 |> in
  exists h, build_fixed_udp_ipv4_header c 2 = Ok h /\ build_packet 1500 c [0x61; 0x62] = Ok (h ++ [0x61; 0x62]).
Proof.
  intros c. destruct (build_fixed_udp_ipv4_header c 2) as [h| |] eqn:E; [|vm_compute in E; discriminate..].
  exists h. split; [reflexivity|].
  assert (Hs : size_ok (blen [0x61; 0x62])) by (split; vm_compute; [discriminate|reflexivity]).
  assert (Hc : blen h + blen [0x61; 0x62] <= 1500) by (injection E as <-; vm_compute; discriminate).
  destruct (checked_header_is_delivered c [0x61; 0x62] 1500 h Hs Hc) as (_ & U & _).
  exact (U eq_refl E).
Defined.
