(* ===== verification/CompactGuards.v ===== *)
(** * When a compact packet is safe: src/c_api/rohc_c_api.cpp

    A PT-0 packet has four or six bits of sequence number and a CRC of three
    or seven bits, and its octets may read as a first-order packet of this
    library's own format.  The predicates here decide when the compressor may
    send one, and how far the receiver may trust its sequence number. *)

From S2P Require Import Prelude Crc Bits Encoding Context Cursor DecodeIr Lla.
From S2P Require Import PrivateFo RtpFo Compressor Packets FormalCo PacketImage.

(** A call that answers [bool] and fills in its result: [None] for [false]. *)
Definition attempt {A} (o : outcome A) : outcome (option A) :=
  match o with Ok a => Ok (Some a) | Rej => Ok None | Ub => Ub end.

Definition succeeds {A} (o : outcome A) : outcome bool :=
  let! r := attempt o in
  Ok (match r with Some _ => true | None => false end).

(** ** The sequence number of a compact packet, and how far forward it is *)

(** [p_by_reorder_ratio] for a sequence number of [width] bits. *)
Definition reorder_offset (range ratio : Z) : Z :=
  if ratio =? 0 then 1
  else if ratio =? 1 then range / 4 - 1
  else if ratio =? 2 then range / 2 - 1
  else range * 3 / 4 - 1.

Definition decode_forward_formal_msn (context : Context) (msn_lsb width : Z) : outcome Z :=
  check negb ((3 <? reorder_ratio context) || (width <? 2) || (16 <=? width)) in
  let range := u32 (Z.shiftl 1 width) in
  let p := reorder_offset range (reorder_ratio context) in
  let! decoded := decode_lsb_with_p msn_lsb width (msn context) p 16 in
  let next_msn := u16 decoded in
  let forward_delta := u16 (next_msn - msn context) in
  check (0 <? forward_delta) && (forward_delta <=? range - 1 - p) in
  Ok next_msn.

Definition pt0_offset (ratio : Z) : Z :=
  if ratio =? 0 then 1 else if ratio =? 1 then 3 else if ratio =? 2 then 7 else 11.

Definition decode_forward_formal_pt0_msn (context : Context) (msn_lsb : Z) : outcome Z :=
  check negb ((3 <? reorder_ratio context) || (0x0F <? msn_lsb)) in
  let p := pt0_offset (reorder_ratio context) in
  let! decoded := decode_lsb_with_p msn_lsb 4 (msn context) p 16 in
  let next_msn := u16 decoded in
  let forward_delta := u16 (next_msn - msn context) in
  check (0 <? forward_delta) && (forward_delta <=? 15 - p) in
  Ok next_msn.

Definition formal_pt0_forward_limit (ctx : Context) : Z :=
  if 4 <=? reorder_ratio ctx then 0 else u8 (15 - pt0_offset (reorder_ratio ctx)).

Definition legacy_pt0_delta_safe_for_profile (ctx : Context) (delta : Z) : bool :=
  if delta =? 0 then false
  else if profile_replacement_active ctx || compact_profile_replacement_seen ctx then delta =? 1
  else if profile_eqb (profile ctx) RTP then delta =? 1
  else true.

Definition profile_uses_formal_pt0 (p : Profile) : bool :=
  profile_eqb p RTP || profile_eqb p UDP || profile_eqb p ESP || profile_eqb p IP.

(** ** What the state of the context calls for *)

Definition should_emit_ir (ctx : Context) : bool :=
  (tx_count ctx =? 0) || state_eqb (rohc_state ctx) NoContext || profile_replacement_pending ctx ||
  (mode_eqb (mode ctx) Reliable && negb (static_acked ctx)).

Definition should_emit_ir_dyn (ctx : Context) : bool :=
  if (tx_count ctx =? 1) || state_eqb (rohc_state ctx) StaticEstablished then true
  else mode_eqb (mode ctx) Reliable && static_acked ctx && negb (dynamic_acked ctx).

(** Until the peer has confirmed a new revision, explicit headers only. *)
Definition hold_for_confirmation (ctx : Context) : Context :=
  ctx <| context_revision := u64 (context_revision ctx + 1) |> <| profile_replacement_pending := true |>.

Definition require_confirmation_before_pt0_alias (ctx : Context) : Context :=
  let limit := formal_pt0_forward_limit ctx in
  if (0 <? limit) && (limit <=? formal_pt0_since_confirmation ctx) && negb (profile_replacement_pending ctx)
  then hold_for_confirmation ctx else ctx.

(** ** How the IPv4 identification moves *)

(** 0 sequential, 1 sequential with swapped octets, 2 random, 3 zero; and
    whether a first-order RTP packet can express the change. *)
Definition update_rtp_ipv4_id_behavior (ctx : Context) (had_ipv4_rtp_context : bool)
    (previous_ipv4_id previous_ipv4_flags : Z) (previous_ipv4_id_sequential : bool)
    (previous_rtp_seq seq : Z) : Context * bool :=
  if negb (ip_version ctx =? 4) || negb had_ipv4_rtp_context then
    (ctx <| ipv4_id_behavior := if ipv4_id ctx =? 0 then 3 else 2 |> <| ipv4_id_sequential := false |>, true)
  else
    let id_delta := u16 (ipv4_id ctx - previous_ipv4_id) in
    let seq_delta := u16 (seq - previous_rtp_seq) in
    let swapped_delta := u16 (byte_swapped (ipv4_id ctx) - byte_swapped previous_ipv4_id) in
    let behavior :=
      if id_delta =? seq_delta then 0
      else if ipv4_id ctx =? 0 then 3
      else if swapped_delta =? seq_delta then 1 else 2 in
    let ctx := ctx <| ipv4_id_behavior := behavior |> <| ipv4_id_sequential := behavior <=? 1 |> in
    let flags_unchanged := ipv4_flags ctx =? previous_ipv4_flags in
    let behavior_unchanged := eqb (ipv4_id_sequential ctx) previous_ipv4_id_sequential in
    let id_fo_safe := (ipv4_id ctx =? previous_ipv4_id) || ipv4_id_sequential ctx in
    (ctx, flags_unchanged && behavior_unchanged && id_fo_safe).

Definition update_ipv4_id_behavior (ctx : Context) (had_ipv4_context : bool) (previous_ipv4_id : Z) : Context :=
  if negb (ip_version ctx =? 4) then ctx
  else
    let behavior :=
      if had_ipv4_context then
        let delta := u16 (ipv4_id ctx - previous_ipv4_id) in
        let swapped_delta := u16 (byte_swapped (ipv4_id ctx) - byte_swapped previous_ipv4_id) in
        if delta =? 1 then 0
        else if swapped_delta =? 1 then 1
        else if ipv4_id ctx =? 0 then 3 else 2
      else if ipv4_id ctx =? 0 then 3 else 2 in
    ctx <| ipv4_id_behavior := behavior |> <| ipv4_id_sequential := behavior <=? 1 |>.

Definition update_rtp_timestamp_stride (ctx : Context) (seq ts : Z) : Context :=
  if tx_count ctx =? 0 then ctx <| rtp := rtp ctx <| ts_stride := 0 |> <| ts_residue := 0 |> |>
  else if negb (tx_count ctx =? 1) then ctx
  else
    match infer_timestamp_stride (last_seq (rtp ctx)) (last_ts (rtp ctx)) seq ts with
    | None => ctx
    | Some (stride, residue) => ctx <| rtp := rtp ctx <| ts_stride := stride |> <| ts_residue := residue |> |>
    end.

(** ** Whether the receiver can reconstruct the header from the sequence number *)

(** The IPv4 header but for the identification. *)
Definition same_ipv4 (previous current : Context) : bool :=
  (ipv4_tos current =? ipv4_tos previous) && (ipv4_ttl current =? ipv4_ttl previous) &&
  (ipv4_flags current =? ipv4_flags previous) && (ipv4_protocol current =? ipv4_protocol previous) &&
  (ipv4_saddr current =? ipv4_saddr previous) && (ipv4_daddr current =? ipv4_daddr previous) &&
  (ipv4_options_len current =? ipv4_options_len previous) &&
  bool_decide (ipv4_options current = ipv4_options previous).

(** Both packets are IPv4 of the profile [p], and the first is established. *)
Definition established_ipv4 (p : Profile) (previous current : Context) : bool :=
  profile_eqb (profile previous) p && state_eqb (rohc_state previous) DynamicEstablished &&
  (ip_version previous =? 4) && (ip_version current =? 4).

Definition rtp_pt0_reconstructable (previous current : Context) : bool :=
  let delta := u16 (last_seq (rtp current) - last_seq (rtp previous)) in
  if negb (established_ipv4 RTP previous current && negb (ts_stride (rtp previous) =? 0)) then false
  else if negb
    (negb (delta =? 0) && (delta <=? 15) &&
     (last_ts (rtp current) =? u32 (last_ts (rtp previous) + ts_stride (rtp previous) * delta)) &&
     (vpxcc (rtp current) =? vpxcc (rtp previous)) && (mpt (rtp current) =? mpt (rtp previous)) &&
     (ssrc (rtp current) =? ssrc (rtp previous)) &&
     (udp_sport current =? udp_sport previous) && (udp_dport current =? udp_dport previous) &&
     (udp_check current =? udp_check previous) && same_ipv4 previous current &&
     (ipv4_id_behavior current =? ipv4_id_behavior previous)) then false
  else if ipv4_id_behavior current =? 0 then ipv4_id current =? u16 (ipv4_id previous + delta)
  else ((ipv4_id_behavior current =? 2) || (ipv4_id_behavior current =? 3)) &&
       (ipv4_id current =? ipv4_id previous).

Definition udp_pt0_reconstructable (previous current : Context) : bool :=
  established_ipv4 UDP previous current &&
  (msn current =? u16 (msn previous + 1)) && (ipv4_id_behavior current =? 0) &&
  (ipv4_id current =? u16 (ipv4_id previous + 1)) &&
  (udp_sport current =? udp_sport previous) && (udp_dport current =? udp_dport previous) &&
  (udp_check current =? 0) && (udp_check previous =? 0) && same_ipv4 previous current.

Definition esp_pt0_reconstructable (previous current : Context) : bool :=
  if negb (established_ipv4 ESP previous current && (esp_spi current =? esp_spi previous) &&
           (ipv4_id_behavior current =? 0) && same_ipv4 previous current) then false
  else
    let delta := u32 (esp_sequence current - esp_sequence previous) in
    (0 <? delta) && (delta <=? 15) && (msn current =? u16 (msn previous + delta)) &&
    (ipv4_id current =? u16 (ipv4_id previous + delta)).

Definition ip_private_fo_reconstructable (previous current : Context) : bool :=
  established_ipv4 IP previous current &&
  (negb (ipv4_id_behavior current =? 0) || (ipv4_id_behavior previous =? 0)) && same_ipv4 previous current.

Definition ip_pt0_reconstructable (previous current : Context) : bool :=
  ip_private_fo_reconstructable previous current &&
  (msn current =? u16 (msn previous + 1)) && (ipv4_id_behavior current =? 0) &&
  (ipv4_id current =? u16 (ipv4_id previous + 1)).

(** ** Octets that two readings accept *)

(** [decodes_as_private]: a PT-0 packet whose first octet is [first_octet]
    reads as a first-order packet once the payload follows. *)
Definition decodes_as_private (payload : bytes) (tentative : Context) (first_octet : Z) : outcome bool :=
  let decoder :=
    match detect_packet_type first_octet with
    | FO_UDP => Some (6, decode_udp_fo)
    | FO_ESP => Some (4, decode_esp_fo)
    | FO_IP => Some (4, decode_ip_fo)
    | _ => None
    end in
  match decoder with
  | None => Ok false
  | Some (private_header_len, decode) =>
      if blen payload <? private_header_len - 1 then Ok false else
      let! rest := slice payload 0 (private_header_len - 1) in
      succeeds (run_decoder decode (first_octet :: rest) tentative)
  end.

Fixpoint any_private (payload : bytes) (tentative : Context) (octets : list Z) : outcome bool :=
  match octets with
  | [] => Ok false
  | o :: octets =>
      let! private := decodes_as_private payload tentative o in
      if private : bool then Ok true else any_private payload tentative octets
  end.

(** The octet itself, and those one of whose seven lower bits differs. *)
Definition one_bit_neighbors (pt0 : Z) : list Z := map (Z.lxor pt0) [1; 2; 4; 8; 16; 32; 64].

Definition pt0_private_fo_ambiguous (pt0 : Z) (payload : bytes) (context : option Context)
    (include_one_bit_neighbors : bool) : outcome bool :=
  let tentative := match context with Some c => c | None => initial_context end in
  any_private payload tentative
    (pt0 :: if include_one_bit_neighbors then one_bit_neighbors pt0 else []).

(** [read_formal_co_base] of a PT-0 packet with the 3-bit CRC. *)
Definition read_pt0_base (packet : bytes) (p : Profile) : outcome (option FormalCoPacket) :=
  match read_formal_co_base 1 p Pt0Crc3 (mk_bit_reader packet default_byte_len, no_packet) with
  | (Ok _, s) => Ok (Some (snd s))
  | (Rej, _) => Ok None
  | (Ub, _) => Ub
  end.

Definition private_udp_fo_is_formal_pt0_ambiguous (previous : Context) (private_packet payload : bytes)
    : outcome bool :=
  if (blen private_packet =? 0) || negb (profile_eqb (profile previous) UDP) ||
     negb (state_eqb (rohc_state previous) DynamicEstablished) then Ok false else
  let! r := read_pt0_base private_packet UDP in
  match r with None => Ok false | Some formal =>
  let! m := attempt (decode_forward_formal_pt0_msn previous (fp_msn formal)) in
  match m with None => Ok false | Some next_msn =>
  let delta := u16 (next_msn - msn previous) in
  let formal_context := previous <| msn := next_msn |> <| ipv4_id := u16 (ipv4_id previous + delta) |> in
  let checked := udp_checksum_used formal_context in
  if checked && (blen private_packet <? 3) then Ok false else
  let! check_ := if checked then rd_u16 private_packet 1 else Ok (udp_check formal_context) in
  let formal_context := formal_context <| udp_check := check_ |> in
  let formal_header_len := if checked then 3 else 1 in
  if (blen private_packet <? formal_header_len) ||
     (usub (2 ^ 64 - 1) (blen private_packet - formal_header_len) <? blen payload) then Ok false else
  let formal_payload_len := blen private_packet - formal_header_len + blen payload in
  let! h := attempt (build_fixed_udp_ipv4_header formal_context formal_payload_len) in
  match h with None => Ok false | Some header =>
  if negb (crc3 header =? fp_header_crc formal) then Ok false
  else if negb checked then Ok true
  else
    let! prefix := tail_from private_packet formal_header_len in
    let! formal_checksum_valid := udp_checksum_valid header prefix payload in
    let! d := attempt (run_decoder decode_udp_fo private_packet previous) in
    let! private_checksum_valid :=
      match d with None => Ok false | Some (private_context, _) =>
      let! g := attempt (build_fixed_udp_ipv4_header private_context (blen payload)) in
      match g with None => Ok false | Some private_header => udp_checksum_valid private_header [] payload end end in
    Ok (formal_checksum_valid || negb private_checksum_valid)
  end end end.

Definition private_ip_fo_is_formal_pt0_ambiguous (previous : Context) (private_packet : bytes) (payload_len : Z)
    : outcome bool :=
  if (blen private_packet =? 0) || negb (profile_eqb (profile previous) IP) ||
     negb (state_eqb (rohc_state previous) DynamicEstablished) then Ok false else
  let! r := read_pt0_base private_packet IP in
  match r with None => Ok false | Some formal =>
  let! m := attempt (decode_forward_formal_pt0_msn previous (fp_msn formal)) in
  match m with None => Ok false | Some next_msn =>
  if usub (2 ^ 64 - 1) (blen private_packet - 1) <? payload_len then Ok false else
  let delta := u16 (next_msn - msn previous) in
  let formal_context := previous <| msn := next_msn |> in
  let formal_context :=
    if ipv4_id_behavior formal_context =? 0
    then formal_context <| ipv4_id := u16 (ipv4_id formal_context + delta) |> else formal_context in
  let formal_payload_len := blen private_packet - 1 + payload_len in
  let! h := attempt (build_fixed_ip_ipv4_header formal_context formal_payload_len) in
  match h with None => Ok false | Some header => Ok (crc3 header =? fp_header_crc formal) end end end.

Definition legacy_private_ip_fo_crc_valid (packet : bytes) : outcome bool :=
  if blen packet <? 4 then Ok false else
  let! p0 := rd packet 0 in
  if negb (p0 =? 0x79) then Ok false else
  let! header := slice packet 0 4 in
  let! received_crc := rd header 1 in
  Ok (crc8 (<[1%nat := 0]> header) =? received_crc).
