(* ===== verification/CompressApi.v ===== *)
(** * rohc_compress4: src/c_api/rohc_c_api.cpp

    One call of the compressor on a packet: the profile is chosen, the packet
    captured into the context, the packet type the context's state allows is
    emitted, and the payload follows.  The context is the state; [Rej] is the
    result -1, which keeps what was stored before.  The call is the inner one,
    into a buffer of its own; segments and integrity values are in the file
    Segmentation. *)

From S2P Require Import Prelude Crc Cid Encoding Context Cursor EmitIr Lla.
From S2P Require Import DecodeIr PrivateFo RtpFo Compressor Feedback Packets FormalCo PacketImage CompactGuards.

Definition get_ctx : M Context Context := gets (fun c => c).

(** [segment_buffer_max], the size of the buffer of the inner call. *)
Definition segment_buffer_max : Z := 4096.

(** ** The profile of the packet *)

(** What the parsers find: the IP header, a UDP and an RTP header. *)
Record PacketView := mkPacketView {
  pv_ip : ParsedIpView; pv_udp : bool; pv_rtp : bool; pv_profile : Profile }.

Definition has_standard_chain (p : Profile) : bool :=
  profile_eqb p RTP || profile_eqb p UDP || profile_eqb p ESP || profile_eqb p IP.

Definition view_packet (ip_packet : bytes) : outcome PacketView :=
  let! v := parse_ip_view ip_packet in
  let h := view_header_len v in
  let! ipv4_fragmented :=
    if view_is_ipv6 v then Ok false else let! f := rd_u16 ip_packet 6 in Ok (is_fragmented f) in
  let udp := negb ipv4_fragmented &&
             ((view_terminal_protocol v =? 17) || (view_terminal_protocol v =? 136)) && udp_parse ip_packet h in
  let! rtp := if udp then rtp_parse ip_packet (h + 8) else Ok false in
  let! p := if ipv4_fragmented then Ok Uncompressed else classify_packet ip_packet in
  let! unsupported_ip :=
    if view_is_ipv6 v then
      let! first_word := rd_u32 ip_packet 0 in
      Ok (negb (view_extension_len v =? 0) || negb (Z.land first_word 0x000FFFFF =? 0))
    else Ok (negb (h =? 20)) in
  let! unsupported_rtp :=
    if rtp then let! x := rd ip_packet (h + 8) in Ok (negb (Z.land x 0x3F =? 0)) else Ok false in
  Ok (mkPacketView v udp rtp
        (if (unsupported_ip || unsupported_rtp) && has_standard_chain p then Uncompressed else p)).

(** ** Small CIDs in front of a packet *)

Definition prepend_small_cid (packet : bytes) (capacity cid : Z) : outcome bytes :=
  if cid =? 0 then Ok packet else
  check negb ((0x0F <? cid) || (capacity <? blen packet + 1)) in
  Ok (u8 (Z.lor 0xE0 (Z.land cid 0x0F)) :: packet).

Definition prepend_private_rtp_small_cid (packet : bytes) (capacity cid : Z) : outcome bytes :=
  check negb ((0x0F <? cid) || (capacity <? blen packet + 1)) in
  Ok (u8 (Z.lor 0xE0 cid) :: packet).

(** A first-order RTP packet, in a zeroed buffer, behind its Add-CID octet. *)
Definition emit_private_rtp (cid capacity : Z) (ctx : Context) : outcome bytes :=
  let! r := emit_rtp_fo ctx (repeat 0 (Z.to_nat capacity)) capacity in
  let! packet := slice (fst r) 0 (snd r) in
  prepend_private_rtp_small_cid packet capacity cid.

(** [emit_formal_co] of the sequence number [msn] into an array of [size]
    octets; the CRC is that of the packet's first [header_len] octets. *)
Definition formal_pt0 (size : Z) (p : Profile) (v : FormalCoVariant) (cid msn : Z) (ip_packet : bytes)
    (header_len : Z) : outcome bytes :=
  match emit_formal_co p v cid false (mkFormalCoFields msn 0 0 false)
          (mkFormalCoBytes (Some ip_packet) header_len) {| w_out := []; w_cap := size |} with
  | (Ok _, s) => Ok (w_out s)
  | (Rej, _) => Rej
  | (Ub, _) => Ub
  end.

Definition emit_rtp_pt0_small_cid (capacity cid msn : Z) (ipv4_udp_rtp_header : bytes) : outcome bytes :=
  check negb (0x0F <? cid) in
  formal_pt0 capacity RTP Pt0Crc7 cid msn ipv4_udp_rtp_header 40.

Section Call.
Context (cid_value : Z) (large : bool) (mode_ : Mode) (ip_packet : bytes) (out_capacity : Z).

(** ** Before and after the packet *)

(** [Context{}] for a CID whose profile changes. *)
Definition profile_replacement (before : Context) : Context :=
  initial_context <| cid := cid_value |> <| large_cid := large |> <| mode := mode_ |>
    <| profile_has_been_used := true |> <| profile_replacement_active := true |>
    <| profile_replacement_pending := true |> <| compact_profile_replacement_seen := true |>
    <| context_revision := u64 (context_revision before + 1) |>.

Definition begin_packet (p : Profile) : M Context unit :=
  before <- get_ctx ;;
  set_ctx (fun c => c <| cid := cid_value |> <| large_cid := large |>) ;;;
  ctx <- get_ctx ;;
  (if profile_has_been_used ctx && negb (profile_eqb (profile ctx) p) && negb (profile_eqb p Uncompressed)
   then set_ctx (fun _ => profile_replacement before) else ret tt) ;;;
  if profile_uses_formal_pt0 p then set_ctx require_confirmation_before_pt0_alias else ret tt.

(** The counters and, but in reliable mode or while a replacement waits, the
    optimistic acknowledgments. *)
Definition count_sent (c : Context) : Context :=
  let c := if negb (mode_eqb (mode c) Reliable) && negb (profile_replacement_pending c) then
             let c := if 0 <? tx_count c then c <| static_acked := true |> else c in
             if 1 <? tx_count c then c <| dynamic_acked := true |> else c
           else c in
  c <| nack_count := 0 |>.

Definition append_payload_range (header : bytes) (payload_offset payload_len : Z) : M Context bytes :=
  guard (negb ((blen ip_packet <? payload_offset) || (usub (blen ip_packet) payload_offset <? payload_len))) ;;;
  guard (negb (out_capacity <? blen header + payload_len)) ;;;
  payload <- lift (slice ip_packet payload_offset payload_len) ;;
  set_ctx (fun c => c <| tx_count := u32 (tx_count c + 1) |> <| profile_has_been_used := true |>) ;;;
  ctx <- get_ctx ;;
  ctx <- lift (record_transmitted_msn ctx (msn ctx)) ;;
  set_ctx (fun _ => count_sent ctx) ;;;
  ret (header ++ payload).

Definition append_payload (header : bytes) (payload_offset : Z) : M Context bytes :=
  append_payload_range header payload_offset
    (if payload_offset <? blen ip_packet then blen ip_packet - payload_offset else 0).

(** The packet an emitter makes of the context in the state [s]. *)
Definition emit_in (s : RohcState) (emitter : Z -> Context -> outcome bytes) : M Context bytes :=
  set_ctx (fun c => c <| rohc_state := s |>) ;;;
  ctx <- get_ctx ;;
  lift (emitter out_capacity ctx).

Definition capture_common (v : ParsedIpView) : M Context unit := capture_ip_context ip_packet v.

Definition capture_udp (h : Z) : M Context unit :=
  sport <- lift (rd_u16 ip_packet h) ;;
  dport <- lift (rd_u16 ip_packet (h + 2)) ;;
  length_ <- lift (rd_u16 ip_packet (h + 4)) ;;
  checksum <- lift (rd_u16 ip_packet (h + 6)) ;;
  set_ctx (fun c => c <| udp_sport := sport |> <| udp_dport := dport |>
                      <| udp_length_or_coverage := length_ |> <| udp_check := checksum |>).

(** ** RTP, over UDP and UDP-Lite *)

(** Up to the payload: whether first-order packets are safe, and where the
    payload is. *)
Definition capture_rtp_flow (p : Profile) (v : ParsedIpView) : M Context (bool * (Z * Z)) :=
  let h := view_header_len v in
  set_ctx (fun c => c <| profile := p |> <| mode := mode_ |>) ;;;
  previous <- get_ctx ;;
  let had_ipv4_rtp_context := (ip_version previous =? 4) && (0 <? tx_count previous) in
  capture_common v ;;;
  capture_udp h ;;;
  seq <- lift (rd_u16 ip_packet (h + 10)) ;;
  ts <- lift (rd_u32 ip_packet (h + 12)) ;;
  ctx <- get_ctx ;;
  let '(ctx, rtp_fo_ipv4_safe) :=
    update_rtp_ipv4_id_behavior ctx had_ipv4_rtp_context (ipv4_id previous) (ipv4_flags previous)
      (ipv4_id_sequential previous) (last_seq (rtp previous)) seq in
  set_ctx (fun _ => ctx) ;;;
  (if profile_replacement_active ctx && negb rtp_fo_ipv4_safe && negb (profile_replacement_pending ctx)
   then set_ctx hold_for_confirmation else ret tt) ;;;
  set_ctx (fun c => update_rtp_timestamp_stride c seq ts) ;;;
  vpxcc_ <- lift (rd ip_packet (h + 8)) ;;
  mpt_ <- lift (rd ip_packet (h + 9)) ;;
  ssrc_ <- lift (rd_u32 ip_packet (h + 16)) ;;
  set_ctx (fun c => c <| rtp := rtp c <| vpxcc := vpxcc_ |> <| mpt := mpt_ |> <| last_seq := seq |>
                                      <| last_ts := ts |> <| ssrc := ssrc_ |> |>
                      <| msn := seq |> <| udp_checksum_used := negb (udp_check c =? 0) |>) ;;;
  guard (negb (blen ip_packet <? h + 8)) ;;;
  p <- lift (tail_from ip_packet (h + 8)) ;;
  rtp_payload <- capture_rtp_context p ;;
  ret (rtp_fo_ipv4_safe, rtp_payload).

Definition compress_rtp_udp_lite (v : ParsedIpView) : M Context bytes :=
  r <- capture_rtp_flow RTP_UDP_Lite v ;;
  let '(safe, (payload_offset, payload_len)) := r in
  ctx <- get_ctx ;;
  header <-
    (if should_emit_ir ctx then emit_in StaticEstablished emit_ir_rtp_udp_lite
     else if should_emit_ir_dyn ctx || negb safe then emit_in DynamicEstablished emit_ir_dyn_rtp_udp_lite
     else if large_cid ctx then emit_in DynamicEstablished emit_ir_rtp_udp_lite
     else emit_in DynamicEstablished (emit_private_rtp cid_value)) ;;
  append_payload_range header (view_header_len v + 8 + payload_offset) payload_len.

(** The first 32 octets of what follows the Add-CID, read as a first-order
    RTP packet of the context before the call. *)
Definition ambiguous_private_rtp (before : Context) (formal payload : bytes) : outcome bool :=
  if cid_value =? 0 then Ok false else
  let! first := rd formal 1 in
  let candidate := first :: take 31 payload in
  let private_context := before <| cid := cid_value |> <| large_cid := false |> in
  succeeds (fst (decode_fo_rtp candidate private_context)).

Definition emit_rtp_pt0 (before : Context) (payload : bytes) : M Context bytes :=
  ctx <- get_ctx ;;
  formal <- lift (emit_rtp_pt0_small_cid out_capacity cid_value (msn ctx) ip_packet) ;;
  first <- lift (rd formal (if cid_value =? 0 then 0 else 1)) ;;
  ambiguous <- lift (ambiguous_private_rtp before formal payload) ;;
  if ambiguous || ((0x77 <=? first) && (first <=? 0x7A)) then lift (emit_ir_dyn_rtp out_capacity ctx)
  else
    set_ctx (fun c => c <| formal_pt0_since_confirmation := u8 (formal_pt0_since_confirmation c + 1) |>) ;;;
    ret formal.

Definition compress_rtp (before : Context) (v : ParsedIpView) : M Context bytes :=
  r <- capture_rtp_flow RTP v ;;
  let '(safe, (payload_offset, payload_len)) := r in
  let rtp_offset := view_header_len v + 8 in
  ctx <- get_ctx ;;
  header <-
    (if should_emit_ir ctx then emit_in StaticEstablished emit_ir_rtp
     else if should_emit_ir_dyn ctx || negb safe then emit_in DynamicEstablished emit_ir_dyn_rtp
     else
       set_ctx (fun c => c <| rohc_state := DynamicEstablished |>) ;;;
       ctx <- get_ctx ;;
       if large_cid ctx then lift (emit_ir_rtp out_capacity ctx)
       else if rtp_pt0_reconstructable before ctx then
         payload <- lift (slice ip_packet (rtp_offset + payload_offset) payload_len) ;;
         emit_rtp_pt0 before payload
       else if negb (udp_check ctx =? udp_check before) then lift (emit_ir_dyn_rtp out_capacity ctx)
       else lift (emit_private_rtp cid_value out_capacity ctx)) ;;
  append_payload_range header (rtp_offset + payload_offset) payload_len.

(** ** UDP, IP, ESP and UDP-Lite *)

(** The captured identification, and a pending confirmation when an active
    replacement sees its behaviour change. *)
Definition capture_ip_flow (p : Profile) (v : ParsedIpView) : M Context Context :=
  previous <- get_ctx ;;
  set_ctx (fun c => c <| profile := p |> <| mode := mode_ |>) ;;;
  ctx <- get_ctx ;;
  let had_ipv4_context := (ip_version ctx =? 4) && (0 <? tx_count ctx) in
  capture_common v ;;;
  set_ctx (fun c => update_ipv4_id_behavior c had_ipv4_context (ipv4_id ctx)) ;;;
  ctx <- get_ctx ;;
  (if profile_replacement_active ctx && had_ipv4_context &&
      negb (ipv4_id_behavior previous =? ipv4_id_behavior ctx) && negb (profile_replacement_pending ctx)
   then set_ctx hold_for_confirmation else ret tt) ;;;
  ret previous.

Definition payload_from (offset : Z) : outcome bytes := tail_from ip_packet offset.

(** A PT-0 packet of [size] octets at most, unless its octets are ambiguous
    in front of the payload: then what [instead] emits. *)
Definition emit_pt0 (size : Z) (v : FormalCoVariant) (header_len : Z) (tentative : option Context)
    (neighbors : bool) (instead : M Context bytes) : M Context bytes :=
  ctx <- get_ctx ;;
  formal <- lift (attempt (formal_pt0 size (profile ctx) v cid_value (msn ctx) ip_packet header_len)) ;;
  match formal with
  | None => instead
  | Some formal =>
      pt0 <- lift (rd formal (if cid_value =? 0 then 0 else 1)) ;;
      payload <- lift (payload_from header_len) ;;
      ambiguous <- lift (pt0_private_fo_ambiguous pt0 payload tentative neighbors) ;;
      if ambiguous : bool then instead
      else
        guard (negb (out_capacity <? blen formal)) ;;;
        set_ctx (fun c => c <| formal_pt0_since_confirmation := u8 (formal_pt0_since_confirmation c + 1) |>) ;;;
        ret formal
  end.

Definition emit_unambiguous_udp_fo (previous : Context) (header_len : Z) : M Context bytes :=
  ctx <- get_ctx ;;
  private_packet <- lift (emit_udp_fo out_capacity ctx) ;;
  payload <- lift (payload_from header_len) ;;
  ambiguous <- lift (private_udp_fo_is_formal_pt0_ambiguous previous private_packet payload) ;;
  if ambiguous : bool then
    refresh <- lift (emit_ir_dyn_udp out_capacity ctx) ;;
    set_ctx (fun c => c <| rohc_state := StaticEstablished |>) ;;;
    ret refresh
  else if large_cid ctx then ret private_packet
  else lift (prepend_small_cid private_packet out_capacity cid_value).

Definition compress_udp (v : ParsedIpView) : M Context bytes :=
  let header_len := view_header_len v + 8 in
  previous <- capture_ip_flow UDP v ;;
  capture_udp (view_header_len v) ;;;
  set_ctx (fun c => c <| udp_checksum_used := negb (udp_check c =? 0) |> <| msn := u16 (tx_count c + 1) |>) ;;;
  ctx <- get_ctx ;;
  header <-
    (if should_emit_ir ctx then emit_in StaticEstablished emit_ir_udp
     else if should_emit_ir_dyn ctx then emit_in DynamicEstablished emit_ir_dyn_udp
     else
       set_ctx (fun c => c <| rohc_state := DynamicEstablished |>) ;;;
       ctx <- get_ctx ;;
       if negb (large_cid ctx) && (cid_value <=? 0x0F) && udp_pt0_reconstructable previous ctx
       then emit_pt0 2 Pt0Crc3 header_len None false (emit_unambiguous_udp_fo previous header_len)
       else emit_unambiguous_udp_fo previous header_len) ;;
  append_payload header header_len.

Definition emit_unambiguous_ip_fo (previous : Context) (header_len : Z) : M Context bytes :=
  ctx <- get_ctx ;;
  private_packet <- lift (emit_ip_fo out_capacity ctx) ;;
  ambiguous <-
    (if large_cid ctx then ret false
     else lift (private_ip_fo_is_formal_pt0_ambiguous previous private_packet (blen ip_packet - header_len))) ;;
  if ambiguous : bool then
    refresh <- lift (emit_ir_ip out_capacity ctx) ;;
    set_ctx (fun c => c <| rohc_state := StaticEstablished |>) ;;;
    ret refresh
  else if large_cid ctx then ret private_packet
  else lift (prepend_small_cid private_packet out_capacity cid_value).

Definition compress_ip (v : ParsedIpView) : M Context bytes :=
  let header_len := view_header_len v in
  previous <- capture_ip_flow IP v ;;
  set_ctx (fun c => c <| msn := u16 (tx_count c + 1) |>) ;;;
  ctx <- get_ctx ;;
  header <-
    (if should_emit_ir ctx then emit_in StaticEstablished emit_ir_ip
     else if should_emit_ir_dyn ctx then emit_in DynamicEstablished emit_ir_dyn_ip
     else
       set_ctx (fun c => c <| rohc_state := DynamicEstablished |>) ;;;
       ctx <- get_ctx ;;
       if negb (large_cid ctx) && (cid_value <=? 0x0F) && ip_pt0_reconstructable previous ctx
       then emit_pt0 2 Pt0Crc3 header_len None false (emit_unambiguous_ip_fo previous header_len)
       else if negb (ip_version ctx =? 4) || ip_private_fo_reconstructable previous ctx
       then emit_unambiguous_ip_fo previous header_len
       else lift (emit_ir_ip out_capacity ctx)) ;;
  append_payload header header_len.

Definition compress_esp (v : ParsedIpView) : M Context bytes :=
  let h := view_header_len v in
  previous <- capture_ip_flow ESP v ;;
  guard (negb (blen ip_packet <? h + 8)) ;;;
  spi <- lift (rd_u32 ip_packet h) ;;
  sequence <- lift (rd_u32 ip_packet (h + 4)) ;;
  set_ctx (fun c => c <| esp_spi := spi |> <| esp_sequence := sequence |> <| msn := u16 sequence |>) ;;;
  ctx <- get_ctx ;;
  header <-
    (if should_emit_ir ctx then emit_in StaticEstablished emit_ir_esp
     else if should_emit_ir_dyn ctx then emit_in DynamicEstablished emit_ir_dyn_esp
     else
       set_ctx (fun c => c <| rohc_state := DynamicEstablished |>) ;;;
       ctx <- get_ctx ;;
       if negb (large_cid ctx) && (cid_value <=? 0x0F) && esp_pt0_reconstructable previous ctx
       then emit_pt0 3 Pt0Crc7 (h + 8) (Some previous) true (lift (emit_ir_esp out_capacity ctx))
       else lift (emit_ir_esp out_capacity ctx)) ;;
  append_payload header (h + 8).

Definition compress_udp_lite (v : ParsedIpView) : M Context bytes :=
  let h := view_header_len v in
  set_ctx (fun c => c <| profile := UDP_Lite |> <| mode := mode_ |>) ;;;
  capture_common v ;;;
  capture_udp h ;;;
  ctx <- get_ctx ;;
  header <-
    (if should_emit_ir ctx then emit_in StaticEstablished emit_ir_udp_lite
     else if should_emit_ir_dyn ctx then emit_in DynamicEstablished emit_ir_dyn_udp_lite
     else
       packet <- emit_in DynamicEstablished emit_udp_lite_fo ;;
       ctx <- get_ctx ;;
       if large_cid ctx then ret packet else lift (prepend_small_cid packet out_capacity cid_value)) ;;
  append_payload header (h + 8).

(** ** The fallback, and the call *)

Definition compress_uncompressed : M Context bytes :=
  carried <- lift (is_uncompressed_ip_payload ip_packet) ;;
  guard carried ;;;
  set_ctx (fun c => c <| profile := Uncompressed |> <| mode := ModeUncompressed |>
    <| rohc_state := DynamicEstablished |> <| tx_count := u32 (tx_count c + 1) |>
    <| profile_has_been_used := true |> <| nack_count := 0 |>
    <| static_acked := true |> <| dynamic_acked := true |>) ;;;
  ctx <- get_ctx ;;
  lift (emit_uncompressed_ir out_capacity ctx ip_packet).

Definition compress4 : M Context bytes :=
  pv <- lift (view_packet ip_packet) ;;
  before <- get_ctx ;;
  begin_packet (pv_profile pv) ;;;
  match pv_profile pv, pv_udp pv, pv_rtp pv with
  | RTP_UDP_Lite, true, true => compress_rtp_udp_lite (pv_ip pv)
  | RTP, true, true => compress_rtp before (pv_ip pv)
  | UDP, true, _ => compress_udp (pv_ip pv)
  | IP, _, _ => compress_ip (pv_ip pv)
  | ESP, _, _ => compress_esp (pv_ip pv)
  | UDP_Lite, true, _ => compress_udp_lite (pv_ip pv)
  | _, _, _ => compress_uncompressed
  end.
End Call.
