(* ===== verification/EmitSafety.v ===== *)
(** * Every emitter the C API calls stays inside its buffers

    The standard emitters have exact specifications in [EmitIr]; here are
    bounds on what the legacy emitters of the UDP-Lite profiles write, and what
    the other emitters answer for a well-formed context. *)

From S2P Require Import Prelude Crc Cid Bits Encoding Context Cursor Chains EmitIr Safety.
From S2P Require Import DecodeIr IrProperties PrivateFo RtpFo Decompressor Packets FormalCo PacketImage.
From S2P Require Import CompactGuards CompressApi.

(** ** Writers with a bound *)

(** Given room for [n] octets, [m] keeps what was written and writes [n] more
    at most, also when it refuses. *)
Definition bounded {A} (m : M wst A) (n : Z) : Prop :=
  forall s, n <= room s ->
  let within s' := w_cap s' = w_cap s /\ blen (w_out s) <= blen (w_out s') <= blen (w_out s) + n in
  wp m (fun _ => within) within s.

Lemma bounded_bind {A B} (m : M wst A) (k : A -> M wst B) n1 n2 n :
  bounded m n1 -> (forall a, bounded (k a) n2) -> n1 + n2 <= n -> 0 <= n1 -> 0 <= n2 -> bounded (bind m k) n.
Proof.
  unfold bounded, room. intros Hm Hk Hn H1 H2 s Hs. apply wp_bind.
  eapply wp_mono; [| |apply Hm; lia]; cbn; [|lia].
  intros a s' [Hr Hl]. eapply wp_mono; [| |apply Hk; lia]; cbn; lia.
Qed.

Lemma bounded_weaken {A} (m : M wst A) n n' : bounded m n -> n <= n' -> bounded m n'.
Proof. unfold bounded. intros H Hn s Hs. eapply wp_mono; [| |apply H; lia]; cbn; lia. Qed.

Lemma bounded_puts l n : blen l <= n -> bounded (puts l) n.
Proof.
  unfold bounded. intros H s Hs. apply wp_puts; [lia|]. cbn. rewrite blen_app. pose proof (blen_nonneg l). lia.
Qed.
Lemma bounded_put b n : 1 <= n -> bounded (put b) n.
Proof. intros H. apply (bounded_puts [b]). by rewrite blen_cons, blen_nil. Qed.
Lemma bounded_pure {A} (m : M wst A) n : 0 <= n -> (forall s, snd (m s) = s /\ fst (m s) <> Ub) -> bounded m n.
Proof.
  unfold bounded. intros Hn H s Hs. specialize (H s). unfold wp. destruct (m s) as [[a| |] s']; cbn in *; destruct H; subst; [lia..|done].
Qed.
Lemma bounded_ret {A} (a : A) n : 0 <= n -> bounded (ret a) n.
Proof. intros. by apply bounded_pure. Qed.
Lemma bounded_gets {A} (f : wst -> A) n : 0 <= n -> bounded (gets f) n.
Proof. intros. by apply bounded_pure. Qed.
Lemma bounded_guard b n : 0 <= n -> bounded (guard b) n.
Proof. intros. apply bounded_pure; [done|]. by destruct b. Qed.
Lemma bounded_lift {A} (o : outcome A) n : 0 <= n -> o <> Ub -> bounded (lift o) n.
Proof. intros. apply bounded_pure; [done|]. by destruct o. Qed.
Lemma bounded_if {A} (b : bool) (m1 m2 : M wst A) n : bounded m1 n -> bounded m2 n -> bounded (if b then m1 else m2) n.
Proof. by destruct b. Qed.

Lemma bounded_then {B} (b : bool) (k : unit -> M wst B) n :
  0 <= n -> (b = true -> bounded (k tt) n) -> bounded (bind (guard b) k) n.
Proof.
  intros Hn Hk. destruct b.
  - unfold bounded in *. intros s Hs. apply wp_bind. by apply Hk.
  - unfold bounded. intros s Hs. cbn. lia.
Qed.

Lemma bounded_assoc {A B C} (m : M wst A) (f : A -> M wst B) (g : B -> M wst C) n :
  bounded (bind m (fun x => bind (f x) g)) n -> bounded (bind (bind m f) g) n.
Proof. unfold bounded. intros H s Hs. specialize (H s Hs). unfold wp in *. by rewrite bind_assoc. Qed.

(** A writer with an [end] of its own, where the buffer has that room. *)
Lemma bounded_ignored {A} (m : M wst A) e : 0 <= e -> bounded m e -> bounded (ignore_result (with_end e m)) e.
Proof.
  unfold bounded, room. intros He Hm s Hs.
  specialize (Hm {| w_out := w_out s; w_cap := blen (w_out s) + e |}). cbn [w_out w_cap] in Hm.
  specialize (Hm ltac:(lia)). unfold wp, ignore_result, with_end in *.
  destruct (m _) as [[a| |] s']; [| |done]; destruct Hm as [_ Hl];
    rewrite (proj2 (Z.leb_le _ _)) by lia; cbn; lia.
Qed.

(** The next writer of a sequence, whose length is known. *)
Ltac bounded_step :=
  lazymatch goal with
  | |- bounded (if _ then _ else _) _ => apply bounded_if
  | |- bounded (bind (guard _) _) _ => apply bounded_then; [lia|intros; bool_prop]
  | |- bounded (bind (gets _) _) ?n => apply (bounded_bind _ _ 0 n); [by apply bounded_gets|intros|lia..]
  | |- bounded (bind (put _) _) ?n => apply (bounded_bind _ _ 1 (n - 1)); [by apply bounded_put|intros _|lia..]
  | |- bounded (bind (write_u16 ?v) _) ?n =>
      apply (bounded_bind _ _ 2 (n - 2)); [by apply (bounded_puts (be16 v))|intros _|lia..]
  | |- bounded (bind (write_u32 ?v) _) ?n =>
      apply (bounded_bind _ _ 4 (n - 4)); [by apply (bounded_puts (be32 v))|intros _|lia..]
  | |- bounded (put _) _ => apply bounded_put; lia
  | |- bounded (write_u16 ?v) _ => eapply bounded_weaken; [apply (bounded_puts (be16 v) 2); reflexivity|lia]
  | |- bounded (write_u32 ?v) _ => eapply bounded_weaken; [apply (bounded_puts (be32 v) 4); reflexivity|lia]
  | |- bounded (ret _) _ => apply bounded_ret; lia
  | |- bounded (guard _) _ => apply bounded_guard; lia
  | |- bounded (bind (bind _ _) _) _ => apply bounded_assoc
  end.
Ltac bounds := repeat bounded_step.
(** A part with a bound of its own. *)
Ltac part L k :=
  lazymatch goal with
  | |- bounded (bind _ _) ?n => apply (bounded_bind _ _ k (n - k)); [by apply L|intros|lia..]
  | |- _ => eapply bounded_weaken; [by apply L|lia]
  end.

(** ** The legacy chains *)

Lemma bounded_slice l n : 0 <= n <= blen l -> bounded (o <- lift (slice l 0 n) ;; puts o) n.
Proof.
  intros Hn. destruct (slice_in_range l 0 n) as (o & E & Hl & _); [lia..|]. rewrite E.
  apply (bounded_puts o). lia.
Qed.

Section Legacy.
Variable ctx : Context.
Hypothesis Hc : context_ok ctx.

Lemma bounded_large_cid : bounded (if large_cid ctx then write_large (cid ctx) else ret tt) 2.
Proof. unfold write_large. bounds. Qed.

Lemma bounded_add_cid : bounded (emit_add_cid_if_needed ctx) 1.
Proof. unfold emit_add_cid_if_needed. bounds. Qed.

Lemma bounded_ip_static protocol : bounded (write_ip_static_with_protocol ctx protocol) 34.
Proof.
  destruct (ok_ipv6_saddr ctx Hc) as [Hs _], (ok_ipv6_daddr ctx Hc) as [Hd _].
  unfold write_ip_static_with_protocol, write_ipv6_static, write_ipv4_static_with_protocol. bounds.
  apply (bounded_bind _ _ 16 16); [apply bounded_puts; lia|intros _; apply bounded_puts; lia|lia..].
Qed.

Lemma bounded_options : bounded (write_ipv4_options_list ctx) (1 + ipv4_options_len ctx).
Proof.
  assert (H : 0 <= ipv4_options_len ctx) by (unfold context_ok, ipv4_ok, byte_ok in Hc; decompose [and] Hc; lia).
  unfold write_ipv4_options_list, write_empty_list. bounds.
  eapply bounded_weaken; [apply bounded_slice|]; lia.
Qed.

Lemma bounded_extensions : bounded (write_ipv6_extensions_list ctx) (1 + ipv6_extension_len ctx).
Proof.
  assert (H : 0 <= ipv6_extension_len ctx) by (unfold context_ok, ipv6_ok, byte_ok in Hc; decompose [and] Hc; lia).
  unfold write_ipv6_extensions_list, write_empty_list. bounds.
  eapply bounded_weaken; [apply bounded_slice|]; lia.
Qed.

Lemma bounded_ip_dynamic : bounded (write_ip_dynamic ctx) 262.
Proof.
  assert (H : byte_ok (ipv4_options_len ctx) /\ byte_ok (ipv6_extension_len ctx))
    by (unfold context_ok, ipv4_ok, ipv6_ok in Hc; decompose [and] Hc; unfold byte_ok; lia).
  unfold byte_ok in H. unfold write_ip_dynamic, write_ipv6_dynamic, write_ipv4_dynamic. bounds;
    (eapply bounded_weaken; [apply bounded_ignored; [lia|]|lia]).
  - apply bounded_extensions.
  - apply bounded_options.
Qed.

(** What a list of RTP extras holds when it can be written. *)
Lemma extras_bounds n : rtp_extras_body_len ctx = Ok n ->
  0 <= csrc_list_len (rtp ctx) <= 60 /\ 0 <= extension_len (rtp ctx) <= 256 /\ 0 <= padding_len (rtp ctx) <= 255.
Proof.
  pose proof (ok_rtp ctx Hc) as H. unfold rtp_ok in H. decompose [and] H. clear H.
  unfold rtp_extras_body_len, rtp_extension_bytes_valid. cbv zeta.
  assert (He : blen (extension_bytes (rtp ctx)) = 256) by (unfold blen; lia).
  pose proof (land_range (vpxcc (rtp ctx)) 15 ltac:(lia)). unfold byte_ok in *. rewrite He.
  destruct (_ || _) eqn:G1; [done|]. cbn [negb oguard obind]. bool_prop.
  destruct (negb (Z.land _ 16 =? 0)).
  - destruct (Z.eqb_spec (extension_len (rtp ctx)) 0); [done|]. cbn [negb oguard obind].
    destruct (_ || _ || _) eqn:G2; [done|]. bool_prop. intros _. lia.
  - destruct (Z.eqb_spec (extension_len (rtp ctx)) 0); [|done]. intros _. lia.
Qed.

Lemma bounded_extras : bounded (write_rtp_extras_list ctx) 579.
Proof.
  unfold write_rtp_extras_list. pose proof (extras_body_len_safe ctx Hc) as Hs.
  pose proof extras_bounds as Hb. destruct (rtp_extras_body_len ctx) as [n| |] eqn:E; [| |done].
  2: { unfold bounded. intros. cbn. lia. }
  destruct (Hb n eq_refl) as (Hk & Hx & Hq). clear Hb.
  pose proof (ok_rtp ctx Hc) as H. unfold rtp_ok in H. decompose [and] H. clear H.
  apply (bounded_bind _ _ 0 579); [by apply bounded_lift|intros b|lia..].
  unfold write_empty_list, write_sdvl_14. bounds.
  apply (bounded_bind _ _ 2 576); [unfold write_large; bounds|intros _|lia..]. bounds.
  assert (S : forall l k, 0 <= k <= blen l -> bounded (if 0 <? k then o <- lift (slice l 0 k) ;; puts o else ret tt) k)
    by (intros; apply bounded_if; [by apply bounded_slice|apply bounded_ret; lia]).
  apply (bounded_bind _ _ 60 511);
    [eapply bounded_weaken; [apply S; unfold blen; lia|lia]|intros _|lia..].
  apply (bounded_bind _ _ 256 255);
    [eapply bounded_weaken; [apply S; unfold blen; lia|lia]|intros _|lia..].
  eapply bounded_weaken; [apply S; unfold blen; lia|lia].
Qed.

Lemma bounded_rtp_dynamic : bounded (write_rtp_dynamic ctx) 587.
Proof. unfold write_rtp_dynamic. bounds. eapply bounded_weaken; [apply bounded_extras|lia]. Qed.
End Legacy.

(** ** The emitters *)

Lemma wp_bounded m n (Q : unit -> wst -> Prop) s : bounded m n -> n <= room s ->
  (forall s', w_cap s' = w_cap s -> blen (w_out s) <= blen (w_out s') <= blen (w_out s) + n -> Q tt s') ->
  wp m Q (fun _ => True) s.
Proof.
  intros Hm Hs HQ. eapply wp_mono; [| |by apply Hm]; [|done]. intros [] s' [Hw Hl]. by apply HQ.
Qed.

Lemma wp_legacy_prefix ctx t p (Q : Z -> wst -> Prop) s : 6 <= room s ->
  (forall pos s', w_cap s' = w_cap s -> blen (w_out s') <= blen (w_out s) + 6 -> 0 <= pos < blen (w_out s') -> Q pos s') ->
  wp (emit_legacy_prefix ctx t p) Q (fun _ => True) s.
Proof.
  intros Hs HQ. unfold emit_legacy_prefix. apply wp_bind, (wp_bounded _ 5); [|lia|].
  - part bounded_add_cid 1. bounded_step. part bounded_large_cid 2. bounds.
  - unfold room in *. intros s' Hw Hl. unfold reserve_crc. do 2 wp_step. wp_step. wp_step; [unfold room; blen_lia|].
    wp_step. pose proof (blen_nonneg (w_out s)). apply HQ; cbn [w_out w_cap]; [done|..]; blen_lia.
Qed.

Lemma wp_patch_crc8 pos (Q : unit -> wst -> Prop) s : 0 <= pos < blen (w_out s) ->
  (forall o, blen o = blen (w_out s) -> Q tt {| w_out := o; w_cap := w_cap s |}) ->
  wp (patch_crc8 pos) Q (fun _ => True) s.
Proof.
  intros Hp HQ. unfold patch_crc8. do 2 wp_step. unfold wp, patch.
  rewrite (proj2 (Z.ltb_ge pos 0)), (proj2 (Z.leb_gt _ pos)) by lia. cbn. apply HQ.
  unfold blen. by rewrite length_insert.
Qed.

Lemma atomically_safe out_len ctx emitter :
  wp (emitter ctx) (fun _ _ => True) (fun _ => True) {| w_out := []; w_cap := scratch_len |} ->
  yields (emit_ir_atomically out_len ctx emitter) (fun o => blen o <= out_len).
Proof.
  unfold wp, emit_ir_atomically. destruct (emitter ctx _) as [[a| |] s]; cbn; [|done..]. intros _.
  destruct (Z.ltb_spec out_len (blen (w_out s))); cbn; lia.
Qed.

Lemma wp_legacy_capacity ctx a b x y m (Q : unit -> wst -> Prop) s : context_ok ctx -> Q tt s ->
  wp (legacy_capacity ctx a b x y m) Q (fun _ => True) s.
Proof.
  intros Hc HQ. unfold legacy_capacity. do 2 wp_step. wp_step. apply wp_lift.
  assert (H : legacy_ir_capacity_ok (w_cap s) ctx a b x y m <> Ub).
  { unfold legacy_ir_capacity_ok, legacy_ir_lengths. destruct (_ || _); [done|].
    pose proof (extras_body_len_safe ctx Hc) as Hx.
    destruct (ip_version ctx =? 4); [|destruct (ip_version ctx =? 6)]; cbn [obind]; try done;
      destruct (negb _); cbn [oguard obind]; try done; destruct b; cbn [obind]; try done;
      by destruct (rtp_extras_body_len ctx). }
  destruct (legacy_ir_capacity_ok _ _ _ _ _ _ _); [|done|done]. by wp_step.
Qed.

(** A part of at most [n] octets of what an emitter writes. *)
Ltac stage L n :=
  apply wp_bind, (wp_bounded _ n);
  [first [by apply L | solve [apply L; lia]] | unfold room in *; lia | let s' := fresh "s" in intros s' ? ?; unfold room in * ].

Section Lite.
Variables (ctx : Context) (out_len : Z).
Hypothesis Hc : context_ok ctx.

Lemma bounded_udp_static : bounded (write_udp_static ctx) 4.
Proof. unfold write_udp_static. bounds. Qed.
Lemma bounded_rtp_static : bounded (write_rtp_static ctx) 4.
Proof. unfold write_rtp_static. bounds. Qed.
Lemma bounded_udp_lite_dynamic : bounded (write_udp_lite_dynamic ctx) 4.
Proof. unfold write_udp_lite_dynamic. bounds. Qed.

Lemma wp_patch_mode pos s : 0 <= pos < blen (w_out s) -> 1 <= room s ->
  wp (patch_crc8 pos ;;; put_mode ctx) (fun _ _ => True) (fun _ => True) s.
Proof.
  intros Hp Hr. apply wp_bind, wp_patch_crc8; [done|]. intros o Ho. unfold put_mode, room in *.
  apply (wp_bounded _ 1); [by apply bounded_put| |done]. unfold room. cbn [w_out w_cap]. lia.
Qed.

Ltac emitter :=
  apply atomically_safe; apply wp_bind, wp_legacy_capacity; [done|];
  apply wp_bind, wp_legacy_prefix; unfold room, scratch_len; cbn [w_out w_cap]; rewrite blen_nil; [lia|];
  intros pos s0 ? ? ?.

Lemma emit_ir_udp_lite_safe : yields (emit_ir_udp_lite out_len ctx) (fun o => blen o <= out_len).
Proof.
  emitter. stage bounded_ip_static 34. stage bounded_udp_static 4. stage bounded_ip_dynamic 262.
  stage bounded_udp_lite_dynamic 4. apply wp_patch_mode; unfold room; lia.
Qed.

Lemma emit_ir_rtp_udp_lite_safe : yields (emit_ir_rtp_udp_lite out_len ctx) (fun o => blen o <= out_len).
Proof.
  emitter. stage bounded_ip_static 34. stage bounded_udp_static 4. stage bounded_rtp_static 4.
  stage bounded_ip_dynamic 262. stage bounded_udp_lite_dynamic 4. stage bounded_rtp_dynamic 587.
  apply wp_patch_mode; unfold room; lia.
Qed.

Lemma emit_ir_dyn_udp_lite_safe : yields (emit_ir_dyn_udp_lite out_len ctx) (fun o => blen o <= out_len).
Proof.
  emitter. stage bounded_ip_dynamic 262. stage bounded_udp_lite_dynamic 4.
  apply wp_patch_crc8; [lia|done].
Qed.

Lemma emit_ir_dyn_rtp_udp_lite_safe : yields (emit_ir_dyn_rtp_udp_lite out_len ctx) (fun o => blen o <= out_len).
Proof.
  emitter. stage bounded_ip_dynamic 262. stage bounded_udp_lite_dynamic 4. stage bounded_rtp_dynamic 587.
  apply wp_patch_crc8; [lia|done].
Qed.

Lemma own_addresses : addresses_ok ctx.
Proof. unfold context_ok, ipv6_ok in Hc. decompose [and] Hc. by split. Qed.

Lemma deliver_safe ok packet : yields (deliver out_len ok packet) (fun o => blen o <= out_len).
Proof. unfold deliver. destruct ok; [|done]. destruct (Z.leb_spec (blen packet) out_len); [cbn; lia|done]. Qed.

Lemma standard_ir_safe :
  yields (emit_ir_ip out_len ctx) (fun o => blen o <= out_len) /\
  yields (emit_ir_udp out_len ctx) (fun o => blen o <= out_len) /\
  yields (emit_ir_esp out_len ctx) (fun o => blen o <= out_len) /\
  yields (emit_ir_rtp out_len ctx) (fun o => blen o <= out_len).
Proof.
  pose proof own_addresses. pose proof (ok_cid ctx Hc).
  rewrite emit_ir_ip_spec, emit_ir_udp_spec, emit_ir_esp_spec, emit_ir_rtp_spec by (done || lia).
  split_and!; apply deliver_safe.
Qed.

Lemma private_fo_safe p : yields (emit_fo p out_len ctx) (fun o => blen o <= out_len /\ o <> [] /\ bytes_ok o).
Proof.
  rewrite emitted_fo by done. destruct (_ && _) eqn:G; [|done]. bool_prop.
  split_and!; [done|done|]. unfold fo_packet. apply fo_octets_ok; [done..|]. by apply fo_crc_ok.
Qed.

(** The uncompressed packet behind its IR header. *)
Lemma emit_uncompressed_ir_exact inp :
  yields (emit_uncompressed_ir out_len ctx inp) (fun o => exists header, o = header ++ inp /\ blen o <= out_len).
Proof.
  unfold emit_uncompressed_ir. pose proof (encoded_len_bound (cid ctx)) as He. pose proof (ok_cid ctx Hc).
  destruct (_ || _) eqn:G; [done|]. cbn [negb oguard obind]. bool_prop.
  pose proof (blen_nonneg inp).
  set (m := bind _ _). assert (W : wp m (fun _ s' => exists header, w_out s' = header ++ inp /\ blen (w_out s') <= out_len)
    (fun _ => True) {| w_out := []; w_cap := out_len |}).
  { set (a := if negb (large_cid ctx) && (0 <? cid ctx) then 1 else 0).
    set (b := if large_cid ctx then encoded_len (cid ctx) else 0).
    assert (Hl : a + b + 3 + blen inp <= out_len /\ 0 <= a <= 1 /\ 0 <= b).
    { subst a b. destruct (large_cid ctx), (0 <? cid ctx); cbn [negb andb] in *; lia. }
    assert (Ha : bounded (if negb (large_cid ctx) && (0 <? cid ctx) then put (u8 (Z.lor 0xE0 (cid ctx))) else ret tt) a).
    { subst a. destruct (negb (large_cid ctx) && (0 <? cid ctx)); bounds. }
    assert (Hb : bounded (if large_cid ctx then write_large (cid ctx) else ret tt) b).
    { subst b. unfold write_large, encoded_len. destruct (large_cid ctx); [|bounds]. bounds;
        destruct (cid ctx <=? 127) eqn:?; bool_prop; bounds; lia. }
    clearbody a b. unfold m. apply wp_bind, (wp_bounded _ a); [done|unfold room; cbn [w_out w_cap]; rewrite blen_nil; lia|].
    cbn [w_out w_cap]. rewrite blen_nil. intros s1 ? ?. stage @bounded_put 1. stage Hb b. stage @bounded_put 1.
    do 2 wp_step. wp_step. wp_step; [unfold room; blen_lia|]. wp_step. match goal with |- context [w_out ?x ++ [0]] => pose proof (blen_nonneg (w_out x)) end.
    apply wp_patch_crc8; [cbn [w_out]; blen_lia|]. cbn [w_out w_cap]. intros o Ho. rewrite blen_app, blen_cons, blen_nil in Ho.
    wp_step; [unfold room; cbn [w_out w_cap]; lia|]. exists o. split; [done|]. cbn [w_out]. rewrite blen_app. lia. }
  unfold wp in W. destruct (m _) as [[u| |] s']; [|done|done]. destruct W as (header & -> & Hl).
  exists header. by split.
Qed.
End Lite.

(** A first-order RTP packet, behind its Add-CID octet. *)
Lemma emit_private_rtp_safe ctx cid_value capacity : context_ok ctx -> 0 < capacity ->
  yields (emit_private_rtp cid_value capacity ctx) (fun o => blen o <= capacity).
Proof.
  intros Hc Hcap. unfold emit_private_rtp. pose proof (ok_cid ctx Hc) as [Hcid _].
  set (out := repeat 0 (Z.to_nat capacity)). assert (Hl : blen out = capacity) by (unfold blen, out; rewrite repeat_length; lia).
  assert (H : yields (emit_rtp_fo ctx out capacity) (fun r => 0 <= snd r <= blen (fst r))).
  { destruct (is_valid_for_space (cid ctx) (large_cid ctx)) eqn:V; [|unfold emit_rtp_fo; by rewrite V].
    destruct (Z.leb_spec (fo_length ctx) capacity) as [F|F].
    - destruct (emit_rtp_fo_run ctx out) as (buf & E & Lb & _).
      + by split.
      + unfold K_SEQ. rewrite seq_lsb_eq. apply Z.mod_pos_bound. lia.
      + unfold K_TS. rewrite ts_lsb_eq. apply Z.mod_pos_bound. lia.
      + lia.
      + rewrite Hl in E. rewrite E. cbn [yields fst snd]. pose proof (encoded_len_bound (cid ctx)).
        assert (0 <= fo_length ctx) by (unfold fo_length; destruct (large_cid ctx); lia). unfold blen in *. lia.
    - unfold emit_rtp_fo. rewrite V. cbn [oguard obind]. fold (fo_length ctx).
      rewrite (proj2 (Z.eqb_neq capacity 0)), (proj2 (Z.ltb_lt capacity _)) by (done || lia). done. }
  eapply yields_bind; [exact H|]. intros [buf n] Hn. cbn [fst snd] in *.
  destruct (slice_in_range buf 0 n) as (packet & -> & Lp & _); [lia..|]. cbn [obind].
  unfold prepend_private_rtp_small_cid. destruct (_ || _) eqn:G; [done|]. bool_prop. cbn. rewrite blen_cons. lia.
Qed.

(** A PT-0 packet has its Add-CID octet, if any, and the octets of its format. *)
Lemma formal_pt0_safe size p v cid_value msn_ ip_packet n : is_format p v -> 0 <= cid_value <= small_cid_max ->
  bytes_ok ip_packet -> 0 <= n <= blen ip_packet ->
  yields (formal_pt0 size p v cid_value msn_ ip_packet n)
    (fun o => blen o <= size /\ exists b, rd o (if cid_value =? 0 then 0 else 1) = Ok b /\ byte_ok b).
Proof.
  intros Hf Hcid Hok Hn. assert (Hr : reads (mkFormalCoBytes (Some ip_packet) n) (take (Z.to_nat n) ip_packet)).
  { unfold reads, formal_co_bytes_valid, octets. cbn [fb_len fb_data]. split_and!; [|  |by apply bytes_ok_take].
    - rewrite bool_decide_true by (by eexists). by rewrite orb_true_r.
    - destruct (Z.eqb_spec n 0) as [->|]; [done|]. by rewrite slice_eq by lia. }
  assert (Hs : is_valid_for_space cid_value false = true).
  { unfold is_valid_for_space, is_small, small_cid_max in *. lia. }
  destruct (emit_run p v cid_value false (mkFormalCoFields msn_ 0 0 false) _ _ size Hf ltac:(lia) Hs Hr)
    as (b0 & rest & Hl & Hb & _ & E). unfold formal_pt0.
  destruct (_ <=? size) eqn:F in E.
  - rewrite E. cbn [yields w_out]. bool_prop. apply bytes_ok_cons in Hb as [Hb0 _]. revert F.
    unfold frame, add_cid_octets, large_cid_part, required_len. cbn [negb andb]. unfold blen in *. cbn [length] in Hl.
    destruct (Z.eqb_spec cid_value 0) as [->|Hz]; [|rewrite (proj2 (Z.ltb_lt 0 cid_value)) by lia];
      cbn [Z.ltb Z.compare app length]; intros F; (split; [lia|]); by exists b0.
  - destruct (emit_formal_co _ _ _ _ _ _ _) as [[a| |] s]; done.
Qed.

Lemma fo_image_ok p vs rx : context_ok rx -> fo_values_ok p vs -> context_ok (fo_image p vs rx).
Proof.
  intros H [Hl Hv]. unfold fo_image. apply ok_set_rohc_state, ok_set_profile.
  destruct p; cbn in Hl.
  all: repeat (destruct vs as [|? vs]; cbn [length] in Hl; [lia|]; apply Forall_cons_1 in Hv as [? Hv]).
  all: destruct vs; cbn [length] in Hl; [|lia]; cbn [fo_store]; auto with ctxok.
Qed.

(** A first-order decoder on any octets: a well-formed context and a length
    within its input, or a refusal. *)
Lemma decode_fo_yields p inp rx : context_ok rx -> size_ok (blen inp) -> bytes_ok inp ->
  yields (run_decoder (decode_fo p) inp rx) (fun r => context_ok (fst r) /\ 0 <= snd r <= blen inp).
Proof.
  intros Hrx Hs Hb. destruct (decode_fo_inv p inp rx Hrx Hs Hb) as [(crc & vs & rest & -> & _ & Hv & Hc)|H].
  - pose proof (decode_fo_at p rx vs crc rest Hrx Hc Hv Hs) as H. unfold wp, run_decoder in *.
    destruct (decode_fo p _ _) as [[n| |] s]; [|done..]. destruct H as (_ & -> & ->). cbn [yields fst snd].
    split; [by apply fo_image_ok|]. pose proof (blen_nonneg rest). pose proof (blen_nonneg (fo_octets p rx crc vs)).
    rewrite blen_app. lia.
  - unfold wp, run_decoder in *. by destruct (decode_fo p _ _) as [[n| |] s].
Qed.

Lemma run_decoder_fo_safe p inp rx : context_ok rx -> cid_ok rx = true -> size_ok (blen inp) -> bytes_ok inp ->
  run_decoder (decode_fo p) inp rx <> Ub.
Proof.
  intros Hrx _ Hs Hb E. pose proof (decode_fo_yields p inp rx Hrx Hs Hb) as H. by rewrite E in H.
Qed.

(** ** Checksums and headers of fixed size *)

Lemma u32_range x : 0 <= u32 x < 2 ^ 32.
Proof. apply Z.mod_pos_bound. lia. Qed.

Lemma checksum_loop_total hdr len n : forall i sum, 0 <= i -> i + 2 * Z.of_nat n <= len + 1 -> len <= blen hdr ->
  0 <= sum < 2 ^ 32 -> exists s, checksum_loop hdr len i sum n = Ok s /\ 0 <= s < 2 ^ 32.
Proof.
  induction n as [|n IH]; intros i sum Hi Hn Hl Hs; cbn [checksum_loop]; [by eexists|].
  rewrite rd_nth by lia. cbn [obind]. destruct (Z.ltb_spec (i + 1) len).
  - rewrite rd_nth by lia. cbn [obind]. apply IH; [lia..|]. apply u32_range.
  - cbn [obind]. apply IH; [lia..|]. apply u32_range.
Qed.

Lemma header_checksum_total hdr len : 0 <= len <= blen hdr -> exists v, header_checksum hdr len = Ok v.
Proof.
  intros Hl. unfold header_checksum.
  destruct (checksum_loop_total hdr len (Z.to_nat ((len + 1) / 2)) 0 0) as (s & -> & Hs); [Z.div_mod_to_equations; lia|Z.div_mod_to_equations; lia|lia..|].
  cbn [obind]. rewrite fold_carries_eq by done. by eexists.
Qed.

Lemma fixed_header_len c protocol total rest : exists h, fixed_header c protocol total rest = Ok h /\ blen h = 20 + blen rest.
Proof.
  unfold fixed_header. destruct (header_checksum_total (fixed_ipv4_octets c protocol (u16 total) 0 ++ rest) 20) as (v & ->).
  { rewrite blen_app. change (blen (fixed_ipv4_octets _ _ _ _)) with 20. pose proof (blen_nonneg rest). lia. }
  cbn [obind]. eexists. split; [done|]. by rewrite blen_app.
Qed.

Lemma fixed_headers_safe c n :
  yields (build_fixed_udp_ipv4_header c n) (fun h => blen h = 28) /\
  yields (build_fixed_ip_ipv4_header c n) (fun h => blen h = 20).
Proof.
  unfold build_fixed_udp_ipv4_header, build_fixed_ip_ipv4_header. split; apply yields_guard; intros _.
  - by destruct (fixed_header_len c 17 (28 + n) (udp_octets c (u16 (8 + n)))) as (h & -> & E).
  - by destruct (fixed_header_len c (ipv4_protocol c) (20 + n) []) as (h & -> & E).
Qed.

Lemma ic_sum_range data : forall c, 0 <= ic_sum c < 2 ^ 32 -> 0 <= ic_sum (ic_pairs c data) < 2 ^ 32.
Proof.
  enough (forall n (data : bytes) c, (length data <= n)%nat -> 0 <= ic_sum c < 2 ^ 32 -> 0 <= ic_sum (ic_pairs c data) < 2 ^ 32) by eauto.
  intros n. induction n as [|n IH]; intros [|a [|b l]] c Hl Hc; cbn in *; try done; try lia.
  apply IH; [lia|]. apply u32_range.
Qed.

Lemma ic_add_range c data : 0 <= ic_sum c < 2 ^ 32 -> 0 <= ic_sum (ic_add c data) < 2 ^ 32.
Proof.
  intros H. unfold ic_add. destruct data as [|a rest]; [done|].
  destruct (ic_has_high c); apply ic_sum_range; [apply u32_range|done].
Qed.

Lemma udp_checksum_total header prefix payload : blen header = 28 -> exists b, udp_checksum_valid header prefix payload = Ok b.
Proof.
  intros L. unfold udp_checksum_valid. rewrite !rd_nth by lia. cbn [obind]. destruct (_ && _); [by eexists|].
  rewrite !slice_eq by lia. cbn [obind]. unfold ic_valid.
  rewrite fold_carries_eq; [by eexists|]. case_match; [apply u32_range|]. repeat apply ic_add_range. cbn. lia.
Qed.

(** ** The predicates on compact packets *)

Lemma attempt_ok {A} (o : outcome A) : o <> Ub -> exists r, attempt o = Ok r.
Proof. destruct o; [by eexists..|done]. Qed.

Lemma succeeds_ok {A} (o : outcome A) : o <> Ub -> exists b, succeeds o = Ok b.
Proof. destruct o; [by eexists..|done]. Qed.

Lemma lsb_with_p_no_ub lsb width reference p field_width : decode_lsb_with_p lsb width reference p field_width <> Ub.
Proof.
  unfold decode_lsb_with_p. destruct (_ || _); [done|]. cbn [negb oguard obind].
  destruct (_ || _); [done|]. cbn [negb oguard obind]. by destruct (width =? field_width).
Qed.

Lemma forward_pt0_no_ub c lsb : decode_forward_formal_pt0_msn c lsb <> Ub.
Proof.
  unfold decode_forward_formal_pt0_msn. destruct (negb _); cbn [oguard obind]; [|done].
  pose proof (lsb_with_p_no_ub lsb 4 (msn c) (pt0_offset (reorder_ratio c)) 16).
  destruct (decode_lsb_with_p _ _ _ _ _); cbn [obind]; [|done..]. by destruct (_ && _).
Qed.

(** A reader of unknown length, over octets that are there. *)
Lemma read_value base pos k q : 0 <= k <= 8 -> 0 <= pos -> pos + k <= 8 * blen base -> pos <= 32 ->
  read k (reader_at base pos, q) =
  (Ok (bits_val (bits_at base pos (Z.to_nat k))), (reader_at base (pos + k), q)).
Proof.
  intros Hk Hp Hl H32. unfold read, reader_at, read_bits, can_read. cbn [fst snd br_valid br_bitpos br_bit_len br_buf].
  change (default_byte_len * 8) with 18446744073709551608.
  rewrite (proj2 (Z.ltb_ge 32 k)), (proj2 (Z.leb_le pos _)), (proj2 (Z.leb_le k _)) by lia. cbn [orb andb negb].
  assert (2 ^ k <= 2 ^ 8) by (apply Z.pow_le_mono_r; lia).
  rewrite read_loop_spec by (rewrite ?Z2Nat.id by lia; lia). by rewrite Z.mul_0_l, Z.add_0_l.
Qed.

Lemma read_pt0_base_ok packet p : packet <> [] -> exists r, read_pt0_base packet p = Ok r.
Proof.
  intros Hn. assert (L : 1 <= blen packet).
  { destruct packet; [done|]. rewrite blen_cons. pose proof (blen_nonneg packet). lia. }
  unfold read_pt0_base, read_formal_co_base. destruct (negb _); [|by eexists]. erewrite bind_ok by reflexivity.
  rewrite reader_start. erewrite bind_ok by reflexivity. rewrite bind_assoc. unfold read_tag. rewrite bind_assoc.
  erewrite bind_ok by (apply read_value; lia). destruct (_ =? 0); [|by eexists].
  erewrite bind_ok by reflexivity. unfold read_msn, read_crc. rewrite !bind_assoc.
  erewrite bind_ok by (apply read_value; lia). erewrite bind_ok by reflexivity.
  rewrite !bind_assoc. erewrite bind_ok by (apply read_value; lia). erewrite bind_ok by reflexivity.
  erewrite bind_ok by reflexivity. destruct (guard _ _) as [[u| |] s] eqn:E; [by eexists..|].
  unfold guard, lift in E. by destruct (_ =? 1).
Qed.

(** The formats a first octet may announce. *)
Lemma decodes_as_private_ok payload tentative first : bytes_ok payload -> byte_ok first -> context_ok tentative ->
  cid_ok tentative = true -> exists b, decodes_as_private payload tentative first = Ok b.
Proof.
  intros Hp Hf Ht Hc. unfold decodes_as_private.
  assert (H : forall f n, 4 <= n <= 6 -> exists b,
    (if blen payload <? n - 1 then Ok false else
     let! rest := slice payload 0 (n - 1) in succeeds (run_decoder (decode_fo f) (first :: rest) tentative)) = Ok b).
  { intros f n Hn. destruct (Z.ltb_spec (blen payload) (n - 1)); [by eexists|].
    destruct (slice_in_range payload 0 (n - 1)) as (rest & -> & Lr & Hr); [lia..|]. cbn [obind].
    apply succeeds_ok, run_decoder_fo_safe; [done..| |].
    - unfold size_ok. rewrite blen_cons. lia.
    - apply bytes_ok_cons. auto. }
  destruct (detect_packet_type first); try (by eexists).
  - apply (H FoUDP 6). lia.
  - apply (H FoIP 4). lia.
  - apply (H FoESP 4). lia.
Qed.

Lemma any_private_ok payload tentative octets : bytes_ok payload -> bytes_ok octets -> context_ok tentative ->
  cid_ok tentative = true -> exists b, any_private payload tentative octets = Ok b.
Proof.
  intros Hp Ho Ht Hc. induction octets as [|o octets IH]; [by eexists|]. apply bytes_ok_cons in Ho as [H1 H2].
  cbn [any_private]. destruct (decodes_as_private_ok payload tentative o) as (b & ->); [done..|]. cbn [obind].
  destruct b; [by eexists|]. by apply IH.
Qed.

Lemma one_bit_neighbors_ok b : byte_ok b -> bytes_ok (one_bit_neighbors b).
Proof.
  intros Hb. unfold one_bit_neighbors. cbn [map].
  assert (H : forall k, 0 <= k < 256 -> byte_ok (Z.lxor b k)) by (intros; apply (lxor_bound 8); [lia|done|done]).
  repeat (apply bytes_ok_cons; split; [apply H; lia|]). apply bytes_ok_nil.
Qed.

Lemma pt0_ambiguous_ok pt0 payload tentative neighbors : byte_ok pt0 -> bytes_ok payload ->
  match tentative with Some c => context_ok c /\ cid_ok c = true | None => True end ->
  exists b, pt0_private_fo_ambiguous pt0 payload tentative neighbors = Ok b.
Proof.
  intros Hb Hp Ht. unfold pt0_private_fo_ambiguous. apply any_private_ok; [done| |destruct tentative..].
  - apply bytes_ok_cons. split; [done|]. destruct neighbors; [by apply one_bit_neighbors_ok|apply bytes_ok_nil].
  - by destruct Ht.
  - apply initial_context_ok.
  - by destruct Ht.
  - done.
Qed.

(** A step of a predicate that cannot fail. *)
Ltac settled E :=
  let r := fresh "r" in let H := fresh "E" in destruct E as (r & H); rewrite H; cbn [obind]; clear H.

Lemma udp_ambiguous_ok previous packet payload : context_ok previous -> cid_ok previous = true ->
  bytes_ok packet -> size_ok (blen packet) ->
  exists b, private_udp_fo_is_formal_pt0_ambiguous previous packet payload = Ok b.
Proof.
  intros Hc Hcid Hb Hs. unfold private_udp_fo_is_formal_pt0_ambiguous.
  destruct (Z.eqb_spec (blen packet) 0) as [|Hn]; cbn [orb]; [by eexists|]. destruct (_ || _); [by eexists|].
  settled (read_pt0_base_ok packet UDP ltac:(by intros ->)). destruct r as [formal|]; [|by eexists].
  settled (attempt_ok _ (forward_pt0_no_ub previous (fp_msn formal))). destruct r as [next|]; [|by eexists].
  cbv zeta. destruct (_ && (blen packet <? 3)) eqn:G; [by eexists|].
  match goal with |- context [if ?u then rd_u16 packet 1 else Ok ?w] =>
    assert (E : exists v, (if u then rd_u16 packet 1 else Ok w) = Ok v);
      [destruct u; [|by eexists]; cbn [andb] in G; bool_prop; eexists; by rewrite rd_u16_nth by lia|];
    settled E; generalize dependent u; intros used G
  end.
  pose proof (blen_nonneg packet). destruct (_ || _) eqn:G2; [by eexists|]. bool_prop.
  match goal with |- context [build_fixed_udp_ipv4_header ?c ?n] => destruct (fixed_headers_safe c n) as [Y _];
    destruct (build_fixed_udp_ipv4_header c n) as [header| |]; cbn in Y; cbn [attempt obind]; [|by eexists|done] end.
  destruct (negb _); [by eexists|]. destruct (negb used); [by eexists|].
  match goal with |- context [tail_from packet ?k] =>
    destruct (tail_from_in_range packet k) as (prefix & -> & _); [destruct used; lia|]; cbn [obind] end.
  settled (udp_checksum_total header prefix payload Y).
  settled (attempt_ok (run_decoder decode_udp_fo packet previous) (run_decoder_fo_safe FoUDP packet previous Hc Hcid Hs Hb)).
  destruct r1 as [[pc n]|]; [|cbn [obind]; by eexists].
  destruct (fixed_headers_safe pc (blen payload)) as [Z _].
  destruct (build_fixed_udp_ipv4_header pc (blen payload)) as [h2| |]; cbn in Z; cbn [attempt obind]; [|by eexists|done].
  settled (udp_checksum_total h2 [] payload Z). by eexists.
Qed.

Lemma ip_ambiguous_ok previous packet payload_len : exists b, private_ip_fo_is_formal_pt0_ambiguous previous packet payload_len = Ok b.
Proof.
  unfold private_ip_fo_is_formal_pt0_ambiguous.
  destruct (Z.eqb_spec (blen packet) 0) as [|Hn]; cbn [orb]; [by eexists|]. destruct (_ || _); [by eexists|].
  settled (read_pt0_base_ok packet IP ltac:(by intros ->)). destruct r as [formal|]; [|by eexists].
  settled (attempt_ok _ (forward_pt0_no_ub previous (fp_msn formal))). destruct r as [next|]; [|by eexists].
  cbv zeta. destruct (_ <? _); [by eexists|].
  match goal with |- context [build_fixed_ip_ipv4_header ?c ?n] => destruct (fixed_headers_safe c n) as [_ Y];
    destruct (build_fixed_ip_ipv4_header c n) as [header| |]; cbn in Y; cbn [attempt obind]; [by eexists..|done] end.
Qed.
