(* ===== verification/CompressFaithful.v ===== *)
(** * What rohc_compress4 promises

    Every call ends without undefined behaviour and leaves a well-formed
    context, whatever the packet; and what it sends is enough: the context it
    leaves builds the packet it was given around the payload it appended. *)

From S2P Require Import Prelude Crc Cid Bits Encoding Context Cursor Chains EmitIr Safety Lla.
From S2P Require Import DecodeIr StandardIr IrProperties PrivateFo RtpFo Compressor Feedback FeedbackV1 Packets FormalCo PacketImage.
From S2P Require Import CompactGuards CompressApi EmitSafety.

#[local] Hint Extern 5 (byte_ok _) => ok_side : ctxok.
#[local] Hint Extern 5 (_ <= _ < _) => ok_side : ctxok.
#[local] Hint Extern 5 (_ <= _ <= _) => ok_side : ctxok.
#[local] Hint Extern 5 (length _ = _) => ok_side : ctxok.
#[local] Hint Extern 5 (bytes_ok _) => ok_side : ctxok.
Lemma u64_range x : 0 <= u64 x < 2 ^ 64.
Proof. apply Z.mod_pos_bound. lia. Qed.
#[local] Hint Resolve u16_ok u32_range u64_range : ctxok.
Ltac context_ok_tac := solve [auto 60 with ctxok].

(** ** What sending changes *)

(** The context without the compressor's own state: what the packet is
    rebuilt from. *)
Definition forget (c : Context) : Context :=
  c <| rohc_state := NoContext |> <| tx_count := 0 |> <| profile_has_been_used := false |>
    <| static_acked := false |> <| dynamic_acked := false |> <| nack_count := 0 |>
    <| formal_pt0_since_confirmation := 0 |> <| transmitted_msn_history := [] |>
    <| transmitted_context_revision_history := [] |> <| transmitted_msn_head := 0 |>
    <| transmitted_msn_count := 0 |>.

Lemma build_packet_forget capacity c payload : build_packet capacity (forget c) payload = build_packet capacity c payload.
Proof. reflexivity. Qed.

(** The invariant of a compressor's context. *)
Definition sound (c : Context) : Prop :=
  context_ok c /\ history_ok c /\ legacy_esp_payload_includes_header c = false.

Lemma sound_initial : sound initial_context.
Proof. split_and!; [apply initial_context_ok|apply initial_history|done]. Qed.

Section Call.
Context (cid_value : Z) (large : bool) (mode_ : Mode) (ip_packet : bytes) (out_capacity : Z).
Hypotheses (Hcid : 0 <= cid_value) (Hspace : is_valid_for_space cid_value large = true)
  (Hok : bytes_ok ip_packet) (Hsize : size_ok (blen ip_packet)) (Hcap : 0 < out_capacity).
(** Whether the packet is the first of its context. *)
Context (opening : bool).

Definition at_cid (c : Context) : Prop :=
  cid c = cid_value /\ large_cid c = large /\ (opening = true -> tx_count c = 0).

Lemma at_cid_ok c : at_cid c -> cid_ok c = true.
Proof. intros (E1 & E2 & _). unfold cid_ok. by rewrite E1, E2. Qed.

(** A step that sends: the octets it answers, and only the compressor's own
    state changed. *)
Definition sends (m : M Context bytes) (c : Context) : Prop :=
  wp m (fun _ c' => sound c' /\ forget c' = forget c) sound c.

Lemma sends_lift (o : outcome bytes) c : sound c -> o <> Ub -> sends (lift o) c.
Proof. intros Hs Ho. apply wp_lift. by destruct o. Qed.

Lemma sends_yields (o : outcome bytes) P c : sound c -> yields o P -> sends (lift o) c.
Proof. intros Hs H. apply sends_lift; [done|]. by intros ->. Qed.

Lemma sends_state (m : M Context bytes) s c :
  sends m (c <| rohc_state := s |>) -> sends (set_ctx (fun c => c <| rohc_state := s |>) ;;; m) c.
Proof. intros H. apply wp_bind, wp_modify. done. Qed.

Lemma sound_state s c : sound c -> sound (c <| rohc_state := s |>).
Proof. intros (H1 & H2 & H3). split_and!; [context_ok_tac|exact H2|exact H3]. Qed.

Lemma sends_emit_in s e c : sound c -> (forall c', context_ok c' -> e out_capacity c' <> Ub) -> sends (emit_in out_capacity s e) c.
Proof.
  intros Hs He. apply sends_state. pose proof (sound_state s c Hs) as Hs'. apply wp_bind, wp_gets.
  apply sends_lift; [done|]. apply He, Hs'.
Qed.

Lemma sends_counted c formal : sound c ->
  sends (set_ctx (fun c => c <| formal_pt0_since_confirmation := u8 (formal_pt0_since_confirmation c + 1) |>) ;;; ret formal) c.
Proof.
  intros (H1 & H2 & H3). apply wp_bind, wp_modify, wp_ret. split; [|reflexivity].
  split_and!; [context_ok_tac|exact H2|exact H3].
Qed.

(** *** The emitters, by profile *)

Lemma ir_emitters_safe c : context_ok c ->
  emit_ir_ip out_capacity c <> Ub /\ emit_ir_udp out_capacity c <> Ub /\
  emit_ir_esp out_capacity c <> Ub /\ emit_ir_rtp out_capacity c <> Ub.
Proof.
  intros Hc. destruct (standard_ir_safe c out_capacity Hc) as (H1 & H2 & H3 & H4).
  split_and!; intros E; [rewrite E in H1|rewrite E in H2|rewrite E in H3|rewrite E in H4]; done.
Qed.

Lemma payload_tail off : 0 <= off <= blen ip_packet -> exists p, tail_from ip_packet off = Ok p /\ bytes_ok p /\ size_ok (blen p).
Proof.
  intros H. destruct (tail_from_in_range ip_packet off H) as (p & E & L & Hp). exists p.
  split_and!; [done|by apply Hp|unfold size_ok in *; pose proof (blen_nonneg p); lia].
Qed.

Lemma sends_pt0 size v header_len tentative neighbors instead c : sound c -> at_cid c ->
  is_format (profile c) v -> cid_value <= small_cid_max -> 0 <= header_len <= blen ip_packet ->
  match tentative with Some t => context_ok t /\ cid_ok t = true | None => True end ->
  sends instead c ->
  sends (emit_pt0 cid_value ip_packet out_capacity size v header_len tentative neighbors instead) c.
Proof.
  intros Hs Hat Hf Hsm Hl Ht Hi. unfold emit_pt0. apply wp_bind, wp_gets, wp_bind, wp_lift.
  pose proof (formal_pt0_safe size (profile c) v cid_value (msn c) ip_packet header_len Hf ltac:(lia) Hok Hl) as F.
  destruct (formal_pt0 _ _ _ _ _ _ _) as [formal| |]; cbn in F; cbn [attempt]; [|done..].
  destruct F as (_ & pt0 & E & Hb). apply wp_bind, wp_lift. rewrite E.
  destruct (payload_tail header_len Hl) as (p & Ep & Hp & _). apply wp_bind, wp_lift. unfold payload_from. rewrite Ep.
  destruct (pt0_ambiguous_ok pt0 p tentative neighbors Hb Hp Ht) as (b & Eb). apply wp_bind, wp_lift. rewrite Eb.
  destruct b; [done|]. apply wp_bind, wp_guard; intros _; [|done]. by apply sends_counted.
Qed.

Lemma prepended_safe packet cid : prepend_small_cid packet out_capacity cid <> Ub.
Proof. unfold prepend_small_cid. destruct (cid =? 0); [done|]. by destruct (negb _). Qed.

Lemma sends_udp_fo previous header_len c : sound c -> at_cid c -> context_ok previous -> cid_ok previous = true ->
  0 <= header_len <= blen ip_packet -> out_capacity < 2 ^ 60 ->
  sends (emit_unambiguous_udp_fo cid_value ip_packet out_capacity previous header_len) c.
Proof.
  intros Hs Hat Hp Hpc Hl H60. unfold emit_unambiguous_udp_fo. apply wp_bind, wp_gets, wp_bind, wp_lift.
  destruct Hs as (Hc & Hh & Hle). assert (Hs : sound c) by done.
  pose proof (private_fo_safe c out_capacity Hc FoUDP) as F. cbn [emit_fo] in F.
  destruct (emit_udp_fo out_capacity c) as [fo| |]; cbn in F; [|done..]. destruct F as (Lf & _ & Hf).
  destruct (payload_tail header_len Hl) as (p & Ep & _). apply wp_bind, wp_lift. unfold payload_from. rewrite Ep.
  destruct (udp_ambiguous_ok previous fo p Hp Hpc Hf ltac:(unfold size_ok; pose proof (blen_nonneg fo); lia)) as (b & Eb).
  apply wp_bind, wp_lift. rewrite Eb. destruct b.
  - destruct (ir_emitters_safe c Hc) as (_ & U & _). unfold emit_ir_dyn_udp. apply wp_bind, wp_lift.
    destruct (emit_ir_udp out_capacity c); [|done..]. apply wp_bind, wp_modify, wp_ret.
    split; [by apply sound_state|done].
  - destruct (large_cid c); [by apply wp_ret|]. apply sends_lift; [done|]. apply prepended_safe.
Qed.

Lemma sends_ip_fo previous header_len c : sound c -> at_cid c ->
  sends (emit_unambiguous_ip_fo cid_value ip_packet out_capacity previous header_len) c.
Proof.
  intros Hs Hat. unfold emit_unambiguous_ip_fo. apply wp_bind, wp_gets, wp_bind, wp_lift.
  destruct Hs as (Hc & Hh & Hle). assert (Hs : sound c) by done.
  pose proof (private_fo_safe c out_capacity Hc FoIP) as F. cbn [emit_fo] in F.
  destruct (emit_ip_fo out_capacity c) as [fo| |]; cbn in F; [|done..].
  apply wp_bind. assert (A : forall b : bool, wp (if b then refresh <- lift (emit_ir_ip out_capacity c) ;;
      set_ctx (fun c => c <| rohc_state := StaticEstablished |>) ;;; ret refresh
    else if large_cid c then ret fo else lift (prepend_small_cid fo out_capacity cid_value))
    (fun _ c' => sound c' /\ forget c' = forget c) sound c).
  { intros []. 
    - destruct (ir_emitters_safe c Hc) as (U & _). apply wp_bind, wp_lift.
      destruct (emit_ir_ip out_capacity c); [|done..]. apply wp_bind, wp_modify, wp_ret.
      split; [by apply sound_state|done].
    - destruct (large_cid c); [by apply wp_ret|]. apply sends_lift; [done|]. apply prepended_safe. }
  destruct (large_cid c) eqn:El; [apply wp_ret, (A false)|].
  destruct (ip_ambiguous_ok previous fo (blen ip_packet - header_len)) as (b & Eb). apply wp_lift. rewrite Eb. apply A.
Qed.

(** *** The payload *)

Lemma forget_counted c : forget (count_sent c) = forget c.
Proof. unfold count_sent. by repeat case_match. Qed.

Lemma counted_ok c : context_ok c -> history_ok c -> context_ok (count_sent c) /\ history_ok (count_sent c).
Proof.
  intros H1 H2. unfold count_sent. split.
  - apply ok_set_nack_count; [|unfold byte_ok; lia]. repeat case_match; context_ok_tac.
  - by repeat case_match.
Qed.

Lemma recorded_context_ok c m : context_ok c -> history_ok c -> context_ok (recorded c m).
Proof.
  intros Hc (Hm & Hr & Hh & Hn). unfold recorded. pose proof (Z.mod_pos_bound (transmitted_msn_head c + 1) 64).
  apply ok_set_transmitted_msn_count; [apply ok_set_transmitted_msn_head; [|unfold byte_ok; lia]|].
  - apply ok_set_transmitted_context_revision_history; [apply ok_set_transmitted_msn_history; [done|]|];
      by rewrite length_insert.
  - unfold byte_ok. repeat case_match; bool_prop; cbn in *; lia.
Qed.

(** The octets sent are the header and a stretch of the packet. *)
Definition appended (header : bytes) (off n : Z) (c : Context) (out : bytes) (c' : Context) : Prop :=
  sound c' /\ forget c' = forget c /\ blen out <= out_capacity /\ off + n <= blen ip_packet /\
  out = header ++ take (Z.to_nat n) (drop (Z.to_nat off) ip_packet).

Lemma wp_append_range header off n c : sound c -> 0 <= off -> 0 <= n ->
  wp (append_payload_range ip_packet out_capacity header off n) (appended header off n c) sound c.
Proof.
  intros (Hc & Hh & Hl) Ho Hn. unfold append_payload_range. pose proof Hsize as Hs. unfold size_ok in Hs.
  apply wp_bind, wp_guard; intros G; [|done]. bool_prop. rewrite usub_small in * by lia.
  apply wp_bind, wp_guard; intros G2; [|done]. bool_prop. apply wp_bind, wp_lift.
  rewrite slice_eq by lia. apply wp_bind, wp_modify, wp_bind, wp_gets, wp_bind, wp_lift.
  set (c1 := c <| tx_count := u32 (tx_count c + 1) |> <| profile_has_been_used := true |>).
  assert (Hc1 : context_ok c1) by (unfold c1; context_ok_tac). assert (Hh1 : history_ok c1) by exact Hh.
  rewrite record_ok by done. apply wp_bind, wp_modify, wp_ret.
  destruct (counted_ok (recorded c1 (msn c1))) as [X Y]; [by apply recorded_context_ok|by apply recorded_ok|].
  split_and!; [split_and!; [done|done|]|..|lia|done].
  - unfold count_sent. by repeat case_match.
  - by rewrite forget_counted.
  - rewrite blen_app. unfold blen in *. rewrite length_take, length_drop. lia.
Qed.

(** *** The IP header *)

Definition captured (v : ParsedIpView) (c : Context) : Context :=
  if view_is_ipv6 v then captured6 ip_packet (view_extension_len v) (view_terminal_protocol v) c
  else captured4 ip_packet (view_header_len v) (view_terminal_protocol v) c.

Lemma captured4_ok n c : context_ok c -> 20 <= n <= 60 -> n <= blen ip_packet ->
  forall p, byte_ok p -> context_ok (captured4 ip_packet n p c).
Proof.
  intros Hc Hn Hl p Hp. pose proof (nth_byte ip_packet 1 Hok). pose proof (nth_byte ip_packet 8 Hok).
  pose proof (field16_range ip_packet 4 Hok). pose proof (field32_range ip_packet 12 Hok). pose proof (field32_range ip_packet 16 Hok).
  assert (Lo : length (take (Z.to_nat (n - 20)) (drop 20 ip_packet) ++ repeat 0 (Z.to_nat (60 - n))) = 40%nat).
  { rewrite length_app, length_take, length_drop, repeat_length. unfold blen in Hl. lia. }
  assert (Bo : bytes_ok (take (Z.to_nat (n - 20)) (drop 20 ip_packet) ++ repeat 0 (Z.to_nat (60 - n)))).
  { apply bytes_ok_app. split; [by apply bytes_ok_take, bytes_ok_drop|apply zeros_ok]. }
  unfold captured4. revert Lo Bo. generalize (take (Z.to_nat (n - 20)) (drop 20 ip_packet) ++ repeat 0 (Z.to_nat (60 - n))). intros o Lo Bo.
  apply ok_set_ipv4_id_sequential, ok_set_ipv4_id_behavior; [|destruct (_ =? 0); unfold byte_ok; lia].
  context_ok_tac.
Qed.

Lemma addressed6_ok t c : context_ok c -> 40 <= blen ip_packet -> byte_ok t -> context_ok (addressed6 ip_packet t c).
Proof.
  intros Hc Hl Ht. pose proof (nth_byte ip_packet 6 Hok). pose proof (nth_byte ip_packet 7 Hok).
  pose proof (field32_range ip_packet 0 Hok). pose proof (land_range (field32 ip_packet 0) 0x000FFFFF ltac:(lia)).
  assert (L : forall o, (o = 8 \/ o = 24)%nat -> length (take 16 (drop o ip_packet)) = 16%nat /\ bytes_ok (take 16 (drop o ip_packet))).
  { intros o Ho. split; [rewrite length_take, length_drop; unfold blen in Hl; lia|by apply bytes_ok_take, bytes_ok_drop]. }
  destruct (L 8%nat) as [L1 B1]; [lia|]. destruct (L 24%nat) as [L2 B2]; [lia|].
  unfold addressed6. context_ok_tac.
Qed.

Lemma captured6_ok e t c : context_ok c -> 40 + e <= blen ip_packet -> 0 <= e <= 128 -> byte_ok t ->
  context_ok (captured6 ip_packet e t c).
Proof.
  intros Hc Hl He Ht. unfold captured6.
  assert (Lo : length (take (Z.to_nat e) (drop 40 ip_packet) ++ repeat 0 (Z.to_nat (128 - e))) = 128%nat).
  { rewrite length_app, length_take, length_drop, repeat_length. unfold blen in Hl. lia. }
  assert (Bo : bytes_ok (take (Z.to_nat e) (drop 40 ip_packet) ++ repeat 0 (Z.to_nat (128 - e)))).
  { apply bytes_ok_app. split; [by apply bytes_ok_take, bytes_ok_drop|apply zeros_ok]. }
  apply ok_set_ipv6_extensions; [|done..]. apply ok_set_ipv6_extension_len; [|lia].
  apply addressed6_ok; [done|lia|done].
Qed.

Definition stretch (payload : bytes) : Prop := exists off n : nat, payload = take n (drop off ip_packet).

Section View.
Variable v : ParsedIpView.
Hypothesis Hv : parse_ip_view ip_packet = Ok v.

Lemma view_spec :
  (view_is_ipv6 v = false /\ ipv4_parse ip_packet = Ok (view_header_len v) /\ v = mkView (view_header_len v) 0 (view_terminal_protocol v) false /\
   20 <= view_header_len v <= 60 /\ byte_ok (view_terminal_protocol v)) \/
  (view_is_ipv6 v = true /\ ipv6_parse ip_packet = Ok (view_header_len v, view_terminal_protocol v, view_extension_len v) /\
   v = mkView (view_header_len v) (view_extension_len v) (view_terminal_protocol v) true /\ byte_ok (view_terminal_protocol v)).
Proof.
  pose proof Hv as E. unfold parse_ip_view in E. destruct (ipv4_parse ip_packet) as [n| |] eqn:E4; [left|right|done].
  - pose proof (ipv4_parse_spec ip_packet n Hok E4) as (Hn & Hl & _). rewrite rd_nth in E by lia. injection E as <-.
    split_and!; try done; cbn; [lia|lia|by apply nth_byte].
  - destruct (ipv6_parse ip_packet) as [[[h t] e]| |] eqn:E6; [|done..]. injection E as <-.
    pose proof (ipv6_parse_spec ip_packet h t e Hok E6) as (_ & _ & _ & _ & _ & Ht). done.
Qed.

Lemma wp_capture_common c (Q : unit -> Context -> Prop) : sound c ->
  (sound (captured v c) -> describes_ip ip_packet v (captured v c) -> Q tt (captured v c)) ->
  wp (capture_common ip_packet v) Q sound c.
Proof.
  intros (Hc & Hh & Hl) HQ. unfold capture_common, wp.
  pose proof (PacketImage.view_bounds ip_packet v Hok Hv) as Hb.
  destruct view_spec as [(E6 & E & Ev & Hn & Ht)|(E6 & E & Ev & Ht)].
  - rewrite Ev, (capture_ipv4_run ip_packet (view_header_len v)) by done.
    assert (X : captured v c = captured4 ip_packet (view_header_len v) (view_terminal_protocol v) c) by (unfold captured; by rewrite E6).
    rewrite <- X. apply HQ; rewrite X.
    + split_and!; [apply captured4_ok; [done|done|lia|done]|exact Hh|exact Hl].
    + unfold describes_ip. rewrite E6. split; [by split_and!|done].
  - rewrite Ev, (capture_ipv6_run ip_packet (view_header_len v) (view_terminal_protocol v) (view_extension_len v)) by done.
    pose proof (ipv6_parse_spec ip_packet _ _ _ Hok E) as (Eh & He & _).
    destruct (Z.ltb_spec 128 (view_extension_len v)).
    + split_and!; [apply addressed6_ok; [done|lia|done]|exact Hh|exact Hl].
    + assert (X : captured v c = captured6 ip_packet (view_extension_len v) (view_terminal_protocol v) c) by (unfold captured; by rewrite E6).
      rewrite <- X. apply HQ; rewrite X.
      * split_and!; [apply captured6_ok; [done|lia|lia|done]|exact Hh|exact Hl].
      * unfold describes_ip. rewrite E6. split; [by split_and!|lia].
Qed.

(** *** The flows whose identification is followed *)

(** An identification that is said to be 0 is. *)
Definition id_described (c : Context) : Prop :=
  ip_version c = 4 -> id_behavior c = 3 -> ipv4_id c = 0.

Definition described (c : Context) : Prop := describes_ip ip_packet v c /\ id_described c.

Lemma captured_described c : describes_ip ip_packet v (captured v c) -> described (captured v c).
Proof.
  intros H. split; [done|]. unfold id_described, id_behavior, captured. destruct (view_is_ipv6 v); [done|].
  intros _. cbn. by destruct (Z.eqb_spec (field16 ip_packet 4) 0).
Qed.

Lemma described_update c had id : described c -> described (update_ipv4_id_behavior c had id).
Proof.
  intros [H Hi]. unfold update_ipv4_id_behavior. destruct (Z.eqb_spec (ip_version c) 4) as [E4|]; cbn [negb]; [|by split].
  split; [unfold describes_ip, describes4, describes6 in *; by destruct (view_is_ipv6 v)|].
  intros _. unfold id_behavior. cbn. destruct had; [destruct (_ =? 1); [done|]; destruct (_ =? 1); [done|]|];
    by destruct (Z.eqb_spec (ipv4_id c) 0).
Qed.

Lemma update_id_ok c had id : context_ok c -> context_ok (update_ipv4_id_behavior c had id).
Proof.
  intros Hc. unfold update_ipv4_id_behavior. destruct (negb _); [done|]. cbv zeta.
  apply ok_set_ipv4_id_sequential, ok_set_ipv4_id_behavior; [done|]. unfold byte_ok. repeat case_match; lia.
Qed.

Lemma hold_ok c : sound c -> sound (hold_for_confirmation c).
Proof. intros (H1 & H2 & H3). split_and!; [unfold hold_for_confirmation; context_ok_tac|exact H2|exact H3]. Qed.

Lemma wp_hold_if (b : bool) c (Q : unit -> Context -> Prop) : sound c ->
  (forall c', sound c' -> c' = c \/ c' = hold_for_confirmation c -> Q tt c') ->
  wp (if b then set_ctx hold_for_confirmation else ret tt) Q sound c.
Proof.
  intros Hs HQ. destruct b; [apply wp_modify|apply wp_ret]; apply HQ; auto using hold_ok.
Qed.

(** A context that has captured the IP header for the profile [p]. *)
Definition ready (p : Profile) (c : Context) : Prop :=
  sound c /\ at_cid c /\ profile c = p /\ described c.

Lemma sound_profile p c : sound c -> sound (c <| profile := p |> <| mode := mode_ |>).
Proof. intros (H1 & H2 & H3). split_and!; [context_ok_tac|exact H2|exact H3]. Qed.

Lemma captured_fields c : profile (captured v c) = profile c /\ cid (captured v c) = cid c /\ large_cid (captured v c) = large_cid c /\
  tx_count (captured v c) = tx_count c.
Proof. unfold captured. by destruct (view_is_ipv6 v). Qed.

Lemma wp_capture_ip_flow p c (Q : Context -> Context -> Prop) : sound c -> at_cid c ->
  (forall c', ready p c' -> Q c c') -> wp (capture_ip_flow mode_ ip_packet p v) Q sound c.
Proof.
  intros Hs Hat HQ. unfold capture_ip_flow. apply wp_bind, wp_gets, wp_bind, wp_modify, wp_bind, wp_gets.
  set (c1 := c <| profile := p |> <| mode := mode_ |>). cbv zeta.
  apply wp_bind, wp_capture_common; [by apply sound_profile|]. intros (H1 & H2 & H3) Hd.
  destruct (captured_fields c1) as (E1 & E2 & E3 & E4). set (c2 := captured v c1) in *.
  apply wp_bind, wp_modify. set (had := _ && _). set (c3 := update_ipv4_id_behavior c2 had (ipv4_id c1)).
  assert (R : ready p c3).
  { split_and!; [split_and!; [by apply update_id_ok|..]| | |by apply described_update, captured_described];
      unfold c3, update_ipv4_id_behavior; destruct (negb _); [exact H2|exact H2|exact H3|exact H3|..].
    1,2: destruct Hat as (A1 & A2 & A3); split_and!; [change (cid c2 = cid_value); by rewrite E2|change (large_cid c2 = large); by rewrite E3|].
    1,2: intros Hf; change (tx_count c2 = 0); rewrite E4; by apply A3.
    1,2: change (profile c2 = p); by rewrite E1. }
  apply wp_bind, wp_gets, wp_bind, wp_hold_if; [apply R|]. intros c' Hc' [-> | ->]; apply wp_ret, HQ; [exact R|].
  destruct R as (_ & R). split; [exact Hc'|exact R].
Qed.

(** What is read of the UDP header. *)
Lemma wp_capture_udp c (Q : unit -> Context -> Prop) : sound c -> view_header_len v + 8 <= blen ip_packet ->
  (forall c', c' = c <| udp_sport := field16 (drop (Z.to_nat (view_header_len v)) ip_packet) 0 |>
                <| udp_dport := field16 (drop (Z.to_nat (view_header_len v)) ip_packet) 2 |>
                <| udp_length_or_coverage := field16 (drop (Z.to_nat (view_header_len v)) ip_packet) 4 |>
                <| udp_check := field16 (drop (Z.to_nat (view_header_len v)) ip_packet) 6 |> ->
     sound c' -> Q tt c') ->
  wp (capture_udp ip_packet (view_header_len v)) Q sound c.
Proof.
  intros (H1 & H2 & H3) Hl HQ. pose proof (PacketImage.view_bounds ip_packet v Hok Hv) as Hb.
  set (h := view_header_len v) in *. set (p := drop (Z.to_nat h) ip_packet).
  assert (E : forall i : nat, (i + 2 <= 8)%nat -> rd_u16 ip_packet (h + Z.of_nat i) = Ok (field16 p i)).
  { intros i Hi. rewrite (rd_field16 ip_packet (Z.to_nat h + i)) by lia. f_equal. unfold field16, p.
    by rewrite !nth_lookup, !lookup_drop, Nat.add_assoc. }
  unfold capture_udp. pose proof (E 0%nat ltac:(lia)) as E0. rewrite Z.add_0_r in E0. rewrite E0.
  change 2 with (Z.of_nat 2). change 4 with (Z.of_nat 4). change 6 with (Z.of_nat 6). rewrite !E by lia. do 4 (apply wp_bind, wp_lift). apply wp_modify, HQ; [done|].
  assert (R : forall i, 0 <= field16 p i < 2 ^ 16) by (intros; by apply field16_range, bytes_ok_drop).
  pose proof (R 0%nat). pose proof (R 2%nat). pose proof (R 4%nat). pose proof (R 6%nat).
  split_and!; [|exact H2|exact H3]. revert H H0 H4 H5.
  generalize (field16 p 0) (field16 p 2) (field16 p 4) (field16 p 6). intros. context_ok_tac.
Qed.

(** *** The first packet of a context *)

(** The header is an IR packet of a context with the fields of [c']. *)
Definition opens (q : StandardProfile) (header : bytes) (c' : Context) : Prop :=
  exists c1, ready (as_profile q) c1 /\ IrProperties.carries q c1 /\ (q = StdRTP -> Z.shiftr (vpxcc (rtp c1)) 6 = 2) /\
    emit_ir q out_capacity c1 = Ok header /\ forget c1 = forget c'.

Definition starts (p : Profile) (m : M Context bytes) (c : Context) : Prop :=
  forall q, p = as_profile q -> opening = true -> wp m (opens q) (fun _ => True) c.

Lemma ready_state p s c : ready p c -> ready p (c <| rohc_state := s |>).
Proof. intros (H & R). split; [by apply sound_state|exact R]. Qed.

(** The protocol behind the IP header is the one that was looked for. *)
Lemma terminal_ready p c : ready p c -> standard_ip_ok c = true -> terminal_protocol c = view_terminal_protocol v.
Proof.
  intros (_ & _ & _ & Hd & _) Hip. unfold describes_ip in Hd. unfold terminal_protocol, standard_ip_ok in *.
  destruct view_spec as [(E6 & _)|(E6 & E & _)]; rewrite E6 in Hd.
  - destruct Hd as [(Hv4 & _) Hp]. by rewrite Hv4.
  - destruct Hd as [(Hv6 & He & _ & _ & _ & Hn & _) _]. rewrite Hv6 in *. cbn [Z.eqb Pos.eqb andb] in *. bool_prop.
    rewrite Hn. symmetry. apply (ipv6_no_extension ip_packet (view_header_len v)); [done|]. rewrite E. do 2 f_equal. congruence.
Qed.

Lemma starts_ir q k c : ready (as_profile q) c -> (q = StdRTP -> Z.shiftr (vpxcc (rtp c)) 6 = 2) ->
  match q with StdIP => True | StdESP => view_terminal_protocol v = 50 | _ => view_terminal_protocol v = 17 end ->
  starts (as_profile q) (if should_emit_ir c then emit_in out_capacity StaticEstablished (emit_ir q) else k) c.
Proof.
  intros R Hv2 Hterm q' Eq Hf. assert (q' = q) as -> by (by destruct q, q').
  pose proof R as ((Hc & _) & (_ & _ & Ht) & _). unfold should_emit_ir. rewrite (Ht Hf). cbn [Z.eqb orb].
  apply wp_bind, wp_modify, wp_bind, wp_gets, wp_lift. pose proof (ready_state _ StaticEstablished c R) as R1.
  set (c1 := c <| rohc_state := StaticEstablished |>) in *. assert (Hc1 : context_ok c1) by apply R1.
  destruct (emit_ir q out_capacity c1) as [header| |] eqn:E; [|done|].
  - exists c1. split_and!; [exact R1| |exact Hv2|done|done].
    rewrite (emitted q out_capacity c1 Hc1) in E. unfold deliver in E. destruct (_ && _) eqn:G in E; [|done]. bool_prop.
    unfold expressible in *. bool_prop. pose proof (terminal_ready _ c1 R1) as T.
    by destruct q; cbn in *; rewrite ?T.
  - destruct (standard_ir_safe c1 out_capacity Hc1) as (H1 & H2 & H3 & H4). destruct q; cbn in E; by rewrite E in *.
Qed.

Lemma starts_other p m c : has_standard_chain p = false -> starts p m c.
Proof. intros H q -> _. by destruct q. Qed.

(** *** What is promised *)

(** The sender filled the headers in as the RFCs say: the lengths are those of
    the packet, the IPv4 checksum is right, and the packet is no fragment. *)
Definition conventional (p : Profile) : Prop :=
  conventional_ip ip_packet v /\
  let datagram := drop (Z.to_nat (view_header_len v)) ip_packet in
  (p = UDP \/ p = RTP -> field16 datagram 4 = blen datagram).

(** The context builds the packet around [payload]. *)
Definition rebuilds (p : Profile) (payload : bytes) (c : Context) : Prop :=
  conventional p -> forall capacity, blen ip_packet <= capacity -> size_ok capacity ->
  build_packet capacity c payload = Ok ip_packet.

Definition faithful (p : Profile) (out : bytes) (c : Context) : Prop :=
  sound c /\ profile c = p /\ blen out <= out_capacity /\
  exists header payload, out = header ++ payload /\ stretch payload /\ rebuilds p payload c /\
    forall q, p = as_profile q -> opening = true -> opens q header c.

Lemma wp_sent p m off n c : sends m c -> starts p m c -> sound c -> profile c = p -> 0 <= off -> 0 <= n ->
  (off + n <= blen ip_packet -> rebuilds p (take (Z.to_nat n) (drop (Z.to_nat off) ip_packet)) c) ->
  wp (header <- m ;; append_payload_range ip_packet out_capacity header off n) (faithful p) sound c.
Proof.
  intros Hm Hst Hs Hp Ho Hn HR. apply wp_bind.
  assert (H : wp m (fun header c' => (sound c' /\ forget c' = forget c) /\
    (forall q, p = as_profile q -> opening = true -> opens q header c')) sound c).
  { unfold starts, sends, wp in *. destruct (m c) as [[header| |] c']; [|done..]. split; [done|].
    intros q Eq Hf. exact (Hst q Eq Hf). }
  eapply wp_mono; [| |exact H]; [|done].
  cbn beta. intros header c1 [[Hs1 F1] Hop]. eapply wp_mono; [| |by apply wp_append_range]; [|done].
  intros out c2 (Hs2 & F2 & Hb & Hl & ->). split_and!; [apply Hs2..| |done|].
  - change (profile (forget c2) = p). by rewrite F2, F1.
  - eexists _, _. split; [done|]. split; [by eexists _, _|]. split.
    + intros Hconv capacity H1 H2. rewrite <- build_packet_forget, F2, F1, build_packet_forget. by apply HR.
    + intros q Eq Hf. destruct (Hop q Eq Hf) as (c3 & H3 & H4 & H5 & H6 & H7). exists c3. split_and!; [done..|congruence].
Qed.

Lemma wp_sent_tail p m off c : sends m c -> starts p m c -> sound c -> profile c = p -> 0 <= off <= blen ip_packet ->
  rebuilds p (drop (Z.to_nat off) ip_packet) c ->
  wp (header <- m ;; append_payload ip_packet out_capacity header off) (faithful p) sound c.
Proof.
  intros Hm Hst Hs Hp Ho HR. unfold append_payload.
  set (n := if off <? blen ip_packet then blen ip_packet - off else 0).
  assert (En : n = blen ip_packet - off) by (subst n; destruct (Z.ltb_spec off (blen ip_packet)); lia).
  apply wp_sent; [done..|lia|lia|]. intros _. rewrite take_ge; [done|]. rewrite length_drop. unfold blen in *. lia.
Qed.

Lemma version_ready p c : ready p c -> (ip_version c =? 6) = view_is_ipv6 v.
Proof. intros (_ & _ & _ & Hd & _). by apply (version_described ip_packet). Qed.

(** *** IP *)

Lemma ip_rebuilds c : ready IP c -> rebuilds IP (drop (Z.to_nat (view_header_len v)) ip_packet) c.
Proof.
  intros R [Hconv _] capacity H1 H2. pose proof (version_ready IP c R) as V. destruct R as (_ & _ & Ep & Hd & _).
  unfold build_packet. rewrite Ep, V. by apply (build_ip_described ip_packet v c capacity).
Qed.

Lemma ready_msn p c m : ready p c -> 0 <= m < 2 ^ 16 -> ready p (c <| msn := m |>).
Proof.
  intros ((H1 & H2 & H3) & R) Hm. split; [|exact R]. split_and!; [context_ok_tac|exact H2|exact H3].
Qed.

Lemma compress_ip_faithful c : sound c -> at_cid c ->
  wp (compress_ip cid_value mode_ ip_packet out_capacity v) (faithful IP) sound c.
Proof.
  intros Hs Hat. pose proof (PacketImage.view_bounds ip_packet v Hok Hv) as Hb. unfold compress_ip.
  apply wp_bind, wp_capture_ip_flow; [done..|]. intros c1 R1. apply wp_bind, wp_modify, wp_bind, wp_gets.
  pose proof (ready_msn IP c1 (u16 (tx_count c1 + 1)) R1 (u16_ok _)) as R2.
  set (c2 := c1 <| msn := u16 (tx_count c1 + 1) |>) in *. pose proof R2 as (Hs2 & Hat2 & Ep2 & _).
  apply wp_sent_tail; [|by apply (starts_ir StdIP)|done|done|lia|by apply ip_rebuilds].
  assert (Hir : forall c', context_ok c' -> emit_ir_ip out_capacity c' <> Ub) by (intros; by apply ir_emitters_safe).
  destruct (should_emit_ir c2); [by apply sends_emit_in|]. destruct (should_emit_ir_dyn c2); [by apply sends_emit_in|].
  apply sends_state. apply wp_bind, wp_gets. pose proof (ready_state IP DynamicEstablished c2 R2) as (Hs3 & Hat3 & Ep3 & _).
  set (c3 := c2 <| rohc_state := DynamicEstablished |>) in *.
  assert (Hfo : sends (emit_unambiguous_ip_fo cid_value ip_packet out_capacity c (view_header_len v)) c3)
    by (by apply sends_ip_fo).
  destruct (_ && _) eqn:G.
  - bool_prop. apply sends_pt0; [done|done| |done|lia|done|done]. by rewrite Ep3.
  - destruct (_ || _); [done|]. apply sends_lift; [done|]. apply Hir, Hs3.
Qed.

(** *** UDP, UDP-Lite and ESP *)

Let datagram : bytes := drop (Z.to_nat (view_header_len v)) ip_packet.

Lemma drop_datagram n : 0 <= n -> drop (Z.to_nat n) datagram = drop (Z.to_nat (view_header_len v + n)) ip_packet.
Proof.
  intros Hn. pose proof (PacketImage.view_bounds ip_packet v Hok Hv). unfold datagram. rewrite drop_drop. f_equal. lia.
Qed.

Lemma datagram_len : blen datagram = blen ip_packet - view_header_len v.
Proof.
  pose proof (PacketImage.view_bounds ip_packet v Hok Hv). unfold datagram, blen in *. rewrite length_drop. lia.
Qed.

Lemma udp_rebuilds p c : ready p c -> p = UDP \/ p = UDP_Lite -> describes_udp datagram c ->
  view_header_len v + 8 <= blen ip_packet -> view_terminal_protocol v = (if profile_eqb p UDP_Lite then 136 else 17) ->
  rebuilds p (drop (Z.to_nat (view_header_len v + 8)) ip_packet) c.
Proof.
  intros R Hp Hu Hl Ht [Hconv Hlen] capacity H1 H2. pose proof (version_ready p c R) as V.
  destruct R as (_ & _ & Ep & Hd & _). rewrite <- drop_datagram by lia.
  pose proof datagram_len. unfold build_packet. rewrite Ep, V.
  assert (B : (if view_is_ipv6 v then build_ipv6_udp_packet capacity c (drop 8 datagram)
               else build_udp_packet capacity c (drop 8 datagram)) = Ok ip_packet).
  { apply (build_udp_described ip_packet v c capacity); try done; fold datagram; [lia| |].
    - rewrite Ep. destruct Hp as [-> | ->]; [right|by left]. apply Hlen. by left.
    - unfold udp_protocol. by rewrite Ep. }
  by destruct Hp as [-> | ->].
Qed.

Lemma compress_udp_faithful c : sound c -> at_cid c -> out_capacity < 2 ^ 60 ->
  view_header_len v + 8 <= blen ip_packet -> view_terminal_protocol v = 17 ->
  wp (compress_udp cid_value mode_ ip_packet out_capacity v) (faithful UDP) sound c.
Proof.
  intros Hs Hat H60 Hl Ht. pose proof (PacketImage.view_bounds ip_packet v Hok Hv) as Hb. unfold compress_udp.
  apply wp_bind, wp_capture_ip_flow; [done..|]. intros c1 R1.
  apply wp_bind, wp_capture_udp; [apply R1|done|]. intros c2 E2 Hs2. apply wp_bind, wp_modify, wp_bind, wp_gets.
  assert (R2 : ready UDP c2) by (split; [done|]; rewrite E2; apply R1).
  assert (Hu : describes_udp datagram c2) by (rewrite E2; done).
  set (c3 := c2 <| udp_checksum_used := negb (udp_check c2 =? 0) |> <| msn := u16 (tx_count c2 + 1) |>).
  assert (R3 : ready UDP c3).
  { apply ready_msn; [|apply u16_ok]. destruct R2 as ((H1 & H2 & H3) & R). split; [|exact R].
    split_and!; [context_ok_tac|exact H2|exact H3]. }
  pose proof R3 as (Hs3 & Hat3 & Ep3 & _).
  apply wp_sent_tail; [|by apply (starts_ir StdUDP)|done|done|lia|by apply udp_rebuilds; auto].
  assert (Hir : forall c', context_ok c' -> emit_ir_udp out_capacity c' <> Ub) by (intros; by apply ir_emitters_safe).
  destruct (should_emit_ir c3); [by apply sends_emit_in|]. destruct (should_emit_ir_dyn c3); [by apply sends_emit_in|].
  apply sends_state. apply wp_bind, wp_gets. pose proof (ready_state UDP DynamicEstablished c3 R3) as (Hs4 & Hat4 & Ep4 & _).
  set (c4 := c3 <| rohc_state := DynamicEstablished |>) in *.
  assert (Hfo : sends (emit_unambiguous_udp_fo cid_value ip_packet out_capacity c (view_header_len v + 8)) c4)
    by (apply sends_udp_fo; try done; [apply Hs|by apply at_cid_ok|lia]).
  destruct (_ && _) eqn:G; [|done].
  bool_prop. apply sends_pt0; [done|done| |done|lia|done|done]. by rewrite Ep4.
Qed.

Lemma compress_esp_faithful c : sound c -> at_cid c -> view_terminal_protocol v = 50 ->
  wp (compress_esp cid_value mode_ ip_packet out_capacity v) (faithful ESP) sound c.
Proof.
  intros Hs Hat Ht. pose proof (PacketImage.view_bounds ip_packet v Hok Hv) as Hb. unfold compress_esp.
  apply wp_bind, wp_capture_ip_flow; [done..|]. intros c1 R1. set (h := view_header_len v) in *.
  apply wp_bind, wp_guard; intros G; [|apply R1]. bool_prop.
  assert (E : forall i : nat, (i + 4 <= 8)%nat -> rd_u32 ip_packet (h + Z.of_nat i) = Ok (field32 datagram i)).
  { intros i Hi. rewrite (rd_field32 ip_packet (Z.to_nat h + i)) by lia. f_equal. unfold field32, datagram. fold h.
    by rewrite !nth_lookup, !lookup_drop, !Nat.add_assoc. }
  pose proof (E 0%nat ltac:(lia)) as E0. rewrite Z.add_0_r in E0. rewrite E0.
  pose proof (E 4%nat ltac:(lia)) as E4. change (Z.of_nat 4) with 4 in E4. rewrite E4.
  do 2 (apply wp_bind, wp_lift). apply wp_bind, wp_modify, wp_bind, wp_gets.
  set (c2 := c1 <| esp_spi := field32 datagram 0 |> <| esp_sequence := field32 datagram 4 |> <| msn := u16 (field32 datagram 4) |>).
  assert (R2 : ready ESP c2).
  { assert (Hr : forall i, 0 <= field32 datagram i < 2 ^ 32) by (intros; by apply field32_range, bytes_ok_drop).
    apply ready_msn; [|apply u16_ok]. destruct R1 as ((H1 & H2 & H3) & R). split; [|exact R].
    pose proof (Hr 0%nat) as X0. pose proof (Hr 4%nat) as X4. clear - H1 H2 H3 X0 X4.
    split_and!; [|exact H2|exact H3]. revert X0 X4. generalize (field32 datagram 0) (field32 datagram 4). intros. context_ok_tac. }
  pose proof R2 as (Hs2 & Hat2 & Ep2 & _).
  apply wp_sent_tail; [|by apply (starts_ir StdESP)|done|done|lia|].
  2: { intros [Hconv _] capacity H1 H2. pose proof (version_ready ESP c2 R2) as V. destruct R2 as ((_ & _ & Hle) & _ & _ & Hd & _).
       fold h. rewrite <- drop_datagram by lia. unfold build_packet. rewrite Ep2, Hle. pose proof datagram_len as Ld. fold h in Ld.
       apply (build_esp_described ip_packet v c2 capacity); try done; fold h datagram; lia. }
  assert (Hir : forall c', context_ok c' -> emit_ir_esp out_capacity c' <> Ub) by (intros; by apply ir_emitters_safe).
  destruct (should_emit_ir c2); [by apply sends_emit_in|]. destruct (should_emit_ir_dyn c2); [by apply sends_emit_in|].
  apply sends_state. apply wp_bind, wp_gets. pose proof (ready_state ESP DynamicEstablished c2 R2) as (Hs3 & Hat3 & Ep3 & _).
  set (c3 := c2 <| rohc_state := DynamicEstablished |>) in *.
  assert (Hfull : sends (lift (emit_ir_esp out_capacity c3)) c3) by (apply sends_lift; [done|]; apply Hir, Hs3).
  destruct (_ && _) eqn:G2; [|done].
  bool_prop. apply sends_pt0; [done|done| |done|lia| |done]; [by rewrite Ep3|].
  split; [apply Hs|by apply at_cid_ok].
Qed.

Lemma compress_udp_lite_faithful c : sound c -> at_cid c ->
  view_header_len v + 8 <= blen ip_packet -> view_terminal_protocol v = 136 ->
  wp (compress_udp_lite cid_value mode_ ip_packet out_capacity v) (faithful UDP_Lite) sound c.
Proof.
  intros Hs Hat Hl Ht. pose proof (PacketImage.view_bounds ip_packet v Hok Hv) as Hb. unfold compress_udp_lite.
  apply wp_bind, wp_modify. set (c1 := c <| profile := UDP_Lite |> <| mode := mode_ |>).
  apply wp_bind, wp_capture_common; [by apply sound_profile|]. intros Hs2 Hd2.
  destruct (captured_fields c1) as (E1 & E2 & E3 & E4). set (c2 := captured v c1) in *.
  apply wp_bind, wp_capture_udp; [done..|]. intros c3 E Hs3. apply wp_bind, wp_gets.
  assert (R3 : ready UDP_Lite c3).
  { split; [done|]. rewrite E. split; [split|split; [exact E1|by apply captured_described]].
    - change (cid c2 = cid_value). rewrite E2. apply Hat.
    - split; [change (large_cid c2 = large); rewrite E3; apply Hat|].
      intros Hf. change (tx_count c2 = 0). rewrite E4. by apply Hat. }
  assert (Hu : describes_udp datagram c3) by (rewrite E; done). clear E.
  apply wp_sent_tail; [|by apply starts_other|done|apply R3|lia|by apply udp_rebuilds; auto].
  destruct (should_emit_ir c3); [apply sends_emit_in; [done|]|].
  { intros c' Hc' X. pose proof (emit_ir_udp_lite_safe c' out_capacity Hc') as Y. by rewrite X in Y. }
  destruct (should_emit_ir_dyn c3); [apply sends_emit_in; [done|]|].
  { intros c' Hc' X. pose proof (emit_ir_dyn_udp_lite_safe c' out_capacity Hc') as Y. by rewrite X in Y. }
  apply wp_bind. eapply wp_mono; [| |apply (sends_emit_in DynamicEstablished emit_udp_lite_fo); [done|]]; [|done|].
  - cbn beta. intros packet c4 [Hs4 F]. apply wp_bind, wp_gets.
    eapply wp_mono; [|by intros|].
    2: { destruct (large_cid c4); [by apply (sends_lift (Ok packet))|]. apply (sends_lift _ c4); [done|]. apply prepended_safe. }
    cbn beta. intros ? c5 [Hs5 ?]. split; [done|]. congruence.
  - intros c' Hc' X. pose proof (private_fo_safe c' out_capacity Hc' FoUDPLite) as Y. cbn [emit_fo] in Y. by rewrite X in Y.
Qed.

(** *** RTP *)

Let rtp_octets_ : bytes := drop 8 datagram.

Lemma update_rtp_id c had i f s ps seq : exists b q,
  fst (update_rtp_ipv4_id_behavior c had i f s ps seq) = c <| ipv4_id_behavior := b |> <| ipv4_id_sequential := q |> /\ byte_ok b /\
  (Z.land b 0x03 = 3 -> ipv4_id c = 0).
Proof.
  unfold update_rtp_ipv4_id_behavior. destruct (_ || _); cbn [fst]; eexists _, _; (split; [reflexivity|]);
    (split; [unfold byte_ok; repeat case_match; lia|]); [by destruct (Z.eqb_spec (ipv4_id c) 0)|].
  destruct (_ =? _); [done|]. destruct (Z.eqb_spec (ipv4_id c) 0); [done|]. by destruct (_ =? _).
Qed.

Lemma update_stride_ok c seq ts : sound c -> 0 <= ts < 2 ^ 32 -> sound (update_rtp_timestamp_stride c seq ts).
Proof.
  intros (H1 & H2 & H3) Ht. unfold update_rtp_timestamp_stride. pose proof (ok_rtp c H1) as Hr.
  destruct (tx_count c =? 0); [|destruct (negb _); [done|]].
  - split_and!; [|exact H2|exact H3]. apply ok_set_rtp; [done|]. apply ok_set_ts_residue; [apply ok_set_ts_stride|]; (done || lia).
  - pose proof (stride_ok true (rtp c) (last_seq (rtp c)) (last_ts (rtp c)) seq ts ltac:(by apply ok_last_ts) Ht Hr) as X.
    destruct (infer_timestamp_stride _ _ _ _) as [[st res]|]; [|done].
    split_and!; [|exact H2|exact H3]. by apply ok_set_rtp.
Qed.

Lemma update_stride_frame c seq ts : update_rtp_timestamp_stride c seq ts = c \/
  exists a b, update_rtp_timestamp_stride c seq ts = c <| rtp := rtp c <| ts_stride := a |> <| ts_residue := b |> |>.
Proof.
  unfold update_rtp_timestamp_stride. destruct (tx_count c =? 0); [right; by eexists _, _|]. destruct (negb _); [by left|].
  destruct (infer_timestamp_stride _ _ _ _) as [[st res]|]; [right; by eexists _, _|by left].
Qed.

(** The IP and UDP headers are those of the packet. *)
Definition flow (p : Profile) (c : Context) : Prop := ready p c /\ describes_udp datagram c.

Lemma flow_id p c had i f s ps seq : flow p c -> flow p (fst (update_rtp_ipv4_id_behavior c had i f s ps seq)).
Proof.
  intros [((H1 & H2 & H3) & Hat & Ep & Hd) Hu].
  destruct (update_rtp_id c had i f s ps seq) as (b & q & -> & Hb & Hi).
  split; [|exact Hu]. split; [|split; [exact Hat|split; [exact Ep|split; [exact (proj1 Hd)|intros _; exact Hi]]]].
  split_and!; [|exact H2|exact H3]. by apply ok_set_ipv4_id_sequential, ok_set_ipv4_id_behavior.
Qed.

Lemma flow_stride p c seq ts : flow p c -> 0 <= ts < 2 ^ 32 -> flow p (update_rtp_timestamp_stride c seq ts).
Proof.
  intros [(Hs & Hat & Ep & Hd) Hu] Ht. pose proof (update_stride_ok c seq ts Hs Ht) as Hs'.
  destruct (update_stride_frame c seq ts) as [E|(a & b & E)]; rewrite E in *; [done|].
  split; [|exact Hu]. split; [exact Hs'|split; [exact Hat|split; [exact Ep|exact Hd]]].
Qed.

Lemma flow_hold p c c' : flow p c -> sound c' -> c' = c \/ c' = hold_for_confirmation c -> flow p c'.
Proof.
  intros [(Hs & Hat & Ep & Hd) Hu] Hs' [-> | ->]; [done|]. split; [|exact Hu].
  split; [exact Hs'|split; [exact Hat|split; [exact Ep|exact Hd]]].
Qed.
(** The fixed part of the RTP header, as it is stored. *)
Definition with_rtp (c : Context) : Context :=
  c <| rtp := rtp c <| vpxcc := nth 0 rtp_octets_ 0 |> <| mpt := nth 1 rtp_octets_ 0 |>
                    <| last_seq := field16 rtp_octets_ 2 |> <| last_ts := field32 rtp_octets_ 4 |>
                    <| ssrc := field32 rtp_octets_ 8 |> |>
    <| msn := field16 rtp_octets_ 2 |> <| udp_checksum_used := negb (udp_check c =? 0) |>.

Lemma rtp_octets_ok : bytes_ok rtp_octets_.
Proof. by apply bytes_ok_drop, bytes_ok_drop. Qed.

Lemma flow_rtp p c : flow p c -> flow p (with_rtp c) /\ describes_rtp rtp_octets_ (rtp (with_rtp c)).
Proof.
  intros [((H1 & H2 & H3) & Hat & Ep & Hd) Hu]. split; [|split_and!; reflexivity].
  split; [|exact Hu]. split; [|split; [exact Hat|split; [exact Ep|exact Hd]]].
  split_and!; [|exact H2|exact H3]. pose proof rtp_octets_ok as Hr.
  pose proof (nth_byte rtp_octets_ 0 Hr) as B0. pose proof (nth_byte rtp_octets_ 1 Hr) as B1.
  pose proof (field16_range rtp_octets_ 2 Hr) as B2. pose proof (field32_range rtp_octets_ 4 Hr) as B4.
  pose proof (field32_range rtp_octets_ 8 Hr) as B8. pose proof (ok_rtp c H1) as Hrtp. unfold with_rtp. revert B0 B1 B2 B4 B8.
  generalize (nth 0 rtp_octets_ 0) (nth 1 rtp_octets_ 0) (field16 rtp_octets_ 2) (field32 rtp_octets_ 4) (field32 rtp_octets_ 8).
  intros. context_ok_tac.
Qed.

(** What the capture of an RTP packet leaves: where the payload is, and a
    context that builds the packet around it. *)
Definition captured_rtp (p : Profile) (r : bool * (Z * Z)) (c : Context) : Prop :=
  let '(_, (off, n)) := r in
  ready p c /\ vpxcc (rtp c) = nth 0 rtp_octets_ 0 /\ 0 <= off /\ 0 <= n /\ view_header_len v + 8 + off + n <= blen ip_packet /\
  rebuilds p (take (Z.to_nat n) (drop (Z.to_nat (view_header_len v + 8 + off)) ip_packet)) c.

Lemma captured_parts p c k x q n safe : flow p c -> describes_rtp rtp_octets_ (rtp c) ->
  p = RTP \/ p = RTP_UDP_Lite -> view_terminal_protocol v = (if profile_eqb p RTP_UDP_Lite then 136 else 17) ->
  view_header_len v + 20 <= blen ip_packet -> parts_ok rtp_octets_ k x q ->
  rtp_extras_body_len (with_parts rtp_octets_ k x q c) = Ok n ->
  captured_rtp p (safe, (12 + k + x, blen rtp_octets_ - (12 + k + x) - q)) (with_parts rtp_octets_ k x q c).
Proof.
  intros [((H1 & H2 & H3) & Hat & Ep & Hd) Hu] Hr Hp Ht Hl Hparts En.
  pose proof (PacketImage.view_bounds ip_packet v Hok Hv) as Hb. pose proof datagram_len as Ld.
  assert (Lr : blen rtp_octets_ = blen datagram - 8) by (unfold rtp_octets_, blen in *; rewrite length_drop; lia).
  pose proof Hparts as (Hk & Hx & Hq & Hsum). set (c' := with_parts rtp_octets_ k x q c).
  assert (R : ready p c').
  { split; [|split; [exact Hat|split; [exact Ep|exact Hd]]]. split_and!; [|exact H2|exact H3].
    apply with_parts_ok; [apply rtp_octets_ok|done|done]. }
  unfold captured_rtp. split_and!; [exact R|exact (proj1 Hr)|lia|lia|lia|].
  intros [Hconv Hlen] capacity Hc1 Hc2. pose proof (version_ready p c' R) as V. unfold rebuilds, build_packet.
  change (profile c') with (profile c). rewrite Ep, V.
  pose proof (rtp_body_described rtp_octets_ k x q c rtp_octets_ok Hparts Hr) as Eb.
  pose proof (layout_of_parts rtp_octets_ k x q c n En) as El. fold c' in Eb, El.
  set (payload := take _ (drop (Z.to_nat (12 + k + x)) _)) in Eb.
  assert (Epay : take (Z.to_nat (blen rtp_octets_ - (12 + k + x) - q)) (drop (Z.to_nat (view_header_len v + 8 + (12 + k + x))) ip_packet) = payload).
  { unfold payload. f_equal. unfold rtp_octets_, datagram. rewrite !drop_drop. f_equal. lia. }
  rewrite Epay.
  assert (Lp : blen payload = blen rtp_octets_ - (12 + k + x) - q)
    by (unfold payload; unfold blen in *; rewrite length_take, length_drop; lia).
  assert (B : (if view_is_ipv6 v then build_ipv6_rtp_packet capacity c' payload else build_rtp_packet capacity c' payload) = Ok ip_packet).
  { pose proof (proj1 Hd : describes_ip ip_packet v c') as Hdi. destruct (view_is_ipv6 v) eqn:E6.
    - apply (build_ipv6_rtp_described ip_packet v c' capacity) with (k := k) (x := x) (q := q); try done; fold datagram; [lia..|].
      change (profile c') with (profile c). rewrite Ep. destruct Hp as [-> | ->]; [right; apply Hlen; by right|by left].
    - apply (build_ipv4_rtp_described ip_packet v c' capacity) with (k := k) (x := x) (q := q); try done; fold datagram; [lia..| |].
      + change (profile c') with (profile c). rewrite Ep. destruct Hp as [-> | ->]; [right; apply Hlen; by right|by left].
      + unfold udp_protocol. change (profile c') with (profile c). by rewrite Ep. }
  by destruct Hp as [-> | ->].
Qed.
Lemma rd_datagram16 (i : nat) : (view_header_len v + 8 + Z.of_nat i + 2 <= blen ip_packet) ->
  rd_u16 ip_packet (view_header_len v + (8 + Z.of_nat i)) = Ok (field16 rtp_octets_ i).
Proof.
  intros Hi. pose proof (PacketImage.view_bounds ip_packet v Hok Hv).
  rewrite (rd_field16 ip_packet (Z.to_nat (view_header_len v) + (8 + i))) by lia. f_equal.
  unfold field16, rtp_octets_, datagram. by rewrite !nth_lookup, !lookup_drop, !Nat.add_assoc.
Qed.

Lemma rd_datagram32 (i : nat) : (view_header_len v + 8 + Z.of_nat i + 4 <= blen ip_packet) ->
  rd_u32 ip_packet (view_header_len v + (8 + Z.of_nat i)) = Ok (field32 rtp_octets_ i).
Proof.
  intros Hi. pose proof (PacketImage.view_bounds ip_packet v Hok Hv).
  rewrite (rd_field32 ip_packet (Z.to_nat (view_header_len v) + (8 + i))) by lia. f_equal.
  unfold field32, rtp_octets_, datagram. by rewrite !nth_lookup, !lookup_drop, !Nat.add_assoc.
Qed.

Lemma nth_datagram (i : nat) : nth i rtp_octets_ 0 = nth (Z.to_nat (view_header_len v + 8) + i) ip_packet 0.
Proof.
  pose proof (PacketImage.view_bounds ip_packet v Hok Hv).
  unfold rtp_octets_, datagram. rewrite !nth_lookup, !lookup_drop. do 2 f_equal. lia.
Qed.

Lemma rd_datagram (i : nat) : (view_header_len v + 8 + Z.of_nat i + 1 <= blen ip_packet) ->
  rd ip_packet (view_header_len v + (8 + Z.of_nat i)) = Ok (nth i rtp_octets_ 0).
Proof.
  intros Hi. pose proof (PacketImage.view_bounds ip_packet v Hok Hv). rewrite rd_nth by lia. f_equal.
  unfold rtp_octets_, datagram. rewrite !nth_lookup, !lookup_drop. do 2 f_equal. lia.
Qed.

Lemma wp_capture_rtp_flow p c : sound c -> at_cid c -> p = RTP \/ p = RTP_UDP_Lite ->
  view_terminal_protocol v = (if profile_eqb p RTP_UDP_Lite then 136 else 17) ->
  view_header_len v + 20 <= blen ip_packet ->
  wp (capture_rtp_flow mode_ ip_packet p v) (captured_rtp p) sound c.
Proof.
  intros Hs Hat Hp Ht Hl. pose proof (PacketImage.view_bounds ip_packet v Hok Hv) as Hb.
  unfold capture_rtp_flow. apply wp_bind, wp_modify. set (c1 := c <| profile := p |> <| mode := mode_ |>).
  apply wp_bind, wp_gets. cbv zeta. apply wp_bind, wp_capture_common; [by apply sound_profile|]. intros Hs2 Hd2.
  destruct (captured_fields c1) as (E1 & E2 & E3 & E4). set (c2 := captured v c1) in *.
  apply wp_bind, wp_capture_udp; [done|lia|]. intros c3 E Hs3.
  assert (F3 : flow p c3).
  { split; [split; [done|]|]; rewrite E; [|done]. split; [split|split; [exact E1|by apply captured_described]].
    - change (cid c2 = cid_value). rewrite E2. apply Hat.
    - split; [change (large_cid c2 = large); rewrite E3; apply Hat|].
      intros Hf. change (tx_count c2 = 0). rewrite E4. by apply Hat. }
  clear E. set (h := view_header_len v) in *.
  assert (R2 : rd_u16 ip_packet (h + 10) = Ok (field16 rtp_octets_ 2)) by (apply (rd_datagram16 2); lia).
  assert (R4 : rd_u32 ip_packet (h + 12) = Ok (field32 rtp_octets_ 4)) by (apply (rd_datagram32 4); lia).
  assert (R0 : rd ip_packet (h + 8) = Ok (nth 0 rtp_octets_ 0)) by (apply (rd_datagram 0); lia).
  assert (R1 : rd ip_packet (h + 9) = Ok (nth 1 rtp_octets_ 0)) by (apply (rd_datagram 1); lia).
  assert (R8 : rd_u32 ip_packet (h + 16) = Ok (field32 rtp_octets_ 8)) by (apply (rd_datagram32 8); lia).
  rewrite R2, R4. do 2 (apply wp_bind, wp_lift). apply wp_bind, wp_gets.
  pose proof (field32_range rtp_octets_ 4 rtp_octets_ok) as Hts.
  destruct (update_rtp_ipv4_id_behavior _ _ _ _ _ _ _) as [c4 safe] eqn:Eu.
  assert (F4 : flow p c4) by (change c4 with (fst (c4, safe)); rewrite <- Eu; by apply flow_id).
  apply wp_bind, wp_modify, wp_bind, wp_hold_if; [apply F4|]. intros c5 Hs5 E5.
  pose proof (flow_hold p c4 c5 F4 Hs5 E5) as F5. clear E5 Hs5 Eu F4 F3 Hs3.
  apply wp_bind, wp_modify. pose proof (flow_stride p c5 (field16 rtp_octets_ 2) (field32 rtp_octets_ 4) F5 Hts) as F6.
  set (c6 := update_rtp_timestamp_stride _ _ _) in *. rewrite R0, R1, R8. do 3 (apply wp_bind, wp_lift).
  apply wp_bind, wp_modify. destruct (flow_rtp p c6 F6) as [F7 D7]. fold (with_rtp c6). set (c7 := with_rtp c6) in *.
  apply wp_bind, wp_guard; intros _; [|apply F7].
  destruct (tail_from_in_range ip_packet (h + 8)) as (pay & Ep & _); [lia|].
  assert (Epay : pay = rtp_octets_).
  { unfold tail_from in Ep. destruct (_ || _) in Ep; [done|]. injection Ep as <-.
    unfold rtp_octets_, datagram. fold h. rewrite drop_drop. f_equal. lia. }
  apply wp_bind, wp_lift. rewrite Ep, Epay.
  assert (Hsz : size_ok (blen rtp_octets_)).
  { unfold size_ok in *. unfold rtp_octets_, datagram, blen in *. rewrite !length_drop. lia. }
  apply wp_bind, wp_capture_rtp; [apply rtp_octets_ok|done|apply F7|apply F7|..].
  - intros k x q n Hparts En. apply wp_ret. by apply (captured_parts p c7 k x q n safe).
  - intros k x q Hparts. destruct F7 as [((H1 & H2 & H3) & _) _]. split_and!; [|exact H2|exact H3].
    by apply with_parts_ok; [apply rtp_octets_ok|..].
Qed.
Lemma sends_private_rtp c : sound c -> sends (lift (emit_private_rtp cid_value out_capacity c)) c.
Proof. intros Hs. eapply sends_yields; [done|]. apply emit_private_rtp_safe; [apply Hs|done]. Qed.

Lemma sends_private_rtp_in s c : sound c -> sends (emit_in out_capacity s (emit_private_rtp cid_value)) c.
Proof. intros Hs. apply sends_emit_in; [done|]. intros c' Hc' E. pose proof (emit_private_rtp_safe c' cid_value out_capacity Hc' Hcap) as H. by rewrite E in H. Qed.

Lemma compress_rtp_udp_lite_faithful c : sound c -> at_cid c ->
  view_header_len v + 20 <= blen ip_packet -> view_terminal_protocol v = 136 ->
  wp (compress_rtp_udp_lite cid_value mode_ ip_packet out_capacity v) (faithful RTP_UDP_Lite) sound c.
Proof.
  intros Hs Hat Hl Ht. pose proof (PacketImage.view_bounds ip_packet v Hok Hv) as Hb. unfold compress_rtp_udp_lite.
  apply wp_bind. eapply wp_mono; [| |apply (wp_capture_rtp_flow RTP_UDP_Lite c); auto]; [|done].
  cbn beta. intros [safe [off n]] c1 (R1 & Evp & Ho & Hn & Hfit & HR). pose proof R1 as (Hs1 & Hat1 & Ep1 & _).
  apply wp_bind, wp_gets. apply wp_sent; [|by apply starts_other|done|done|lia|done|done].
  assert (Hir : forall c', context_ok c' -> emit_ir_rtp_udp_lite out_capacity c' <> Ub).
  { intros c' Hc' X. pose proof (emit_ir_rtp_udp_lite_safe c' out_capacity Hc') as Y. by rewrite X in Y. }
  destruct (should_emit_ir c1); [by apply sends_emit_in|].
  destruct (_ || _); [apply sends_emit_in; [done|]|].
  { intros c' Hc' X. pose proof (emit_ir_dyn_rtp_udp_lite_safe c' out_capacity Hc') as Y. by rewrite X in Y. }
  destruct (large_cid c1); [by apply sends_emit_in|by apply sends_private_rtp_in].
Qed.

(** Whether a PT-0 packet reads as a first-order one is always decided. *)
Lemma ambiguous_private_rtp_ok before first payload : sound before -> bytes_ok payload -> byte_ok first ->
  forall formal, (cid_value = 0 \/ rd formal 1 = Ok first) -> exists b, ambiguous_private_rtp cid_value before formal payload = Ok b.
Proof.
  intros (Hb & _) Hp Hf formal Hfirst. unfold ambiguous_private_rtp.
  destruct (Z.eqb_spec cid_value 0) as [|N]; [by eexists|]. destruct Hfirst as [|E]; [done|]. rewrite E. cbn [obind].
  apply succeeds_ok. pose proof (decode_fo_safe (first :: take 31 payload) (before <| cid := cid_value |> <| large_cid := false |>)) as F.
  unfold wp in F. destruct (decode_fo_rtp _ _) as [[] ?]; [done|done|]. exfalso. apply F.
  - apply bytes_ok_cons. split; [done|]. by apply bytes_ok_take.
  - unfold blen. cbn [length]. rewrite length_take. lia.
Qed.

Lemma sends_rtp_pt0 before payload c : sound before -> sound c -> bytes_ok payload -> 40 <= blen ip_packet ->
  sends (emit_rtp_pt0 cid_value ip_packet out_capacity before payload) c.
Proof.
  intros Hb Hs Hp Hl. unfold emit_rtp_pt0, emit_rtp_pt0_small_cid. apply wp_bind, wp_gets, wp_bind, wp_lift.
  destruct (Z.ltb_spec 0x0F cid_value) as [|Hsm]; [done|]. cbn [negb oguard obind].
  pose proof (formal_pt0_safe out_capacity RTP Pt0Crc7 cid_value (msn c) ip_packet 40 ltac:(done)
                ltac:(unfold small_cid_max; lia) Hok ltac:(lia)) as F.
  destruct (formal_pt0 _ _ _ _ _ _ _) as [formal| |]; cbn in F; [|done..]. destruct F as (_ & first & E & Hf).
  apply wp_bind, wp_lift. rewrite E.
  destruct (ambiguous_private_rtp_ok before first payload Hb Hp Hf formal) as (b & Eb).
  { destruct (Z.eqb_spec cid_value 0); auto. }
  apply wp_bind, wp_lift. rewrite Eb. destruct (_ || _); [|by apply sends_counted].
  apply sends_lift; [done|]. apply ir_emitters_safe, Hs.
Qed.

Lemma compress_rtp_faithful before c : sound before -> sound c -> at_cid c ->
  view_header_len v + 20 <= blen ip_packet -> view_terminal_protocol v = 17 ->
  Z.shiftr (nth (Z.to_nat (view_header_len v + 8)) ip_packet 0) 6 = 2 ->
  wp (compress_rtp cid_value mode_ ip_packet out_capacity before v) (faithful RTP) sound c.
Proof.
  intros Hbe Hs Hat Hl Ht H2. pose proof (PacketImage.view_bounds ip_packet v Hok Hv) as Hb. unfold compress_rtp.
  apply wp_bind. eapply wp_mono; [| |apply (wp_capture_rtp_flow RTP c); auto]; [|done].
  cbn beta. intros [safe [off n]] c1 (R1 & Evp & Ho & Hn & Hfit & HR). pose proof R1 as (Hs1 & Hat1 & Ep1 & _).
  apply wp_bind, wp_gets. apply wp_sent; [|apply (starts_ir StdRTP); [done|intros _; rewrite Evp, nth_datagram, Nat.add_0_r; exact H2|done]|done|done|lia|done|done].
  assert (Hir : forall c', context_ok c' -> emit_ir_rtp out_capacity c' <> Ub) by (intros; by apply ir_emitters_safe).
  destruct (should_emit_ir c1); [by apply sends_emit_in|]. destruct (_ || _); [by apply sends_emit_in|].
  apply sends_state. apply wp_bind, wp_gets. pose proof (ready_state RTP DynamicEstablished c1 R1) as (Hs2 & _ & _ & _).
  set (c2 := c1 <| rohc_state := DynamicEstablished |>) in *.
  assert (Hfull : sends (lift (emit_ir_rtp out_capacity c2)) c2) by (apply sends_lift; [done|]; apply Hir, Hs2).
  destruct (large_cid c2); [done|]. destruct (rtp_pt0_reconstructable before c2).
  - apply wp_bind, wp_lift. unfold size_ok in *. rewrite slice_eq by lia. apply sends_rtp_pt0; [done|done| |lia].
    by apply bytes_ok_take, bytes_ok_drop.
  - destruct (negb _); [exact Hfull|]. by apply sends_private_rtp.
Qed.
End View.

(** *** Choosing the profile *)

(** What the classification and the parsers agree on. *)
Definition viewed (pv : PacketView) : Prop :=
  let v := pv_ip pv in
  parse_ip_view ip_packet = Ok v /\
  (pv_udp pv = true -> view_header_len v + 8 <= blen ip_packet) /\
  (pv_rtp pv = true -> view_header_len v + 20 <= blen ip_packet /\
     Z.shiftr (nth (Z.to_nat (view_header_len v + 8)) ip_packet 0) 6 = 2) /\
  match pv_profile pv with
  | RTP | UDP => view_terminal_protocol v = 17
  | ESP => view_terminal_protocol v = 50
  | RTP_UDP_Lite | UDP_Lite => view_terminal_protocol v = 136
  | _ => True
  end.

Lemma rtp_view_ok off : 0 <= off -> exists b, rtp_parse ip_packet off = Ok b /\
  (b = true -> off + 12 <= blen ip_packet /\ Z.shiftr (nth (Z.to_nat off) ip_packet 0) 6 = 2).
Proof.
  intros Ho. unfold rtp_parse, bounds_check, rtp_header_size. destruct (_ && _) eqn:B; cbn [negb]; [|by eexists].
  bool_prop. rewrite rd_nth by lia. cbn [obind]. eexists. split; [done|lia].
Qed.

Lemma udp_view_fits off : udp_parse ip_packet off = true -> off + 8 <= blen ip_packet.
Proof. unfold udp_parse, bounds_check, udp_header_size. intros B. bool_prop. lia. Qed.

Lemma transport_profile off protocol : 0 <= off -> exists p, classify_transport ip_packet off protocol = Ok p /\
  match p with RTP | UDP => protocol = 17 | ESP => protocol = 50 | RTP_UDP_Lite | UDP_Lite => protocol = 136 | _ => True end.
Proof.
  intros Ho. unfold classify_transport, udp_header_size.
  destruct (rtp_view_ok (off + 8)) as (b & E & _); [lia|]. rewrite E.
  destruct (Z.eqb_spec protocol 17); [destruct (udp_parse _ _); cbn [negb obind]; [destruct b|]; by eexists|].
  destruct (Z.eqb_spec protocol 50); [by eexists|].
  destruct (Z.eqb_spec protocol 136); [destruct (udp_parse _ _); cbn [negb obind]; [destruct b|]; by eexists|by eexists].
Qed.

Lemma classified v : parse_ip_view ip_packet = Ok v -> exists p, classify_packet ip_packet = Ok p /\
  match p with
  | RTP | UDP => view_terminal_protocol v = 17
  | ESP => view_terminal_protocol v = 50
  | RTP_UDP_Lite | UDP_Lite => view_terminal_protocol v = 136
  | _ => True
  end.
Proof.
  intros Hv. pose proof (PacketImage.view_bounds ip_packet v Hok Hv) as Hb. unfold classify_packet.
  destruct (view_cases ip_packet v Hv) as [(_ & -> & Et)|(E6 & E)].
  - rewrite (rd_field16 ip_packet 6) by lia. cbn [obind]. destruct (is_fragmented _); [by eexists|].
    rewrite rd_nth by lia. cbn [obind]. rewrite Et. apply transport_profile. lia.
  - assert (N : ipv4_parse ip_packet = Rej).
    { unfold parse_ip_view in Hv. destruct (ipv4_parse ip_packet); [|done..]. destruct (rd ip_packet 9); [|done..].
      injection Hv as <-. done. }
    rewrite N, E. apply transport_profile. lia.
Qed.

Lemma parse_ip_view_ok : parse_ip_view ip_packet <> Ub.
Proof.
  unfold parse_ip_view, ipv4_parse. destruct (Z.ltb_spec (blen ip_packet) 20) as [|L]; cbn [negb oguard obind].
  - pose proof (ipv6_parse_ok ip_packet Hok) as Y. by destruct (ipv6_parse ip_packet) as [[[? ?] ?]| |].
  - rewrite !rd_nth by lia. cbn [obind]. pose proof (ipv6_parse_ok ip_packet Hok) as Y.
    destruct (_ =? 4); cbn [oguard obind]; [destruct (negb _); cbn [oguard obind]; [done|]|];
      by destruct (ipv6_parse ip_packet) as [[[? ?] ?]| |].
Qed.

Lemma view_packet_ok : yields (view_packet ip_packet) viewed.
Proof.
  unfold view_packet. pose proof parse_ip_view_ok as N. destruct (parse_ip_view ip_packet) as [v| |] eqn:Hv; [|done..].
  pose proof (PacketImage.view_bounds ip_packet v Hok Hv) as Hb. cbn [obind]. cbv zeta.
  eapply (yields_bind _ _ (fun _ => True)); [destruct (view_is_ipv6 v); [done|]; by rewrite (rd_field16 ip_packet 6) by lia|].
  intros fragmented _. set (udp := negb fragmented && _ && _).
  assert (Hu : udp = true -> view_header_len v + 8 <= blen ip_packet).
  { unfold udp. intros U. apply andb_prop in U as [_ U]. by apply udp_view_fits. }
  eapply (yields_bind _ _ (fun b => b = true -> view_header_len v + 20 <= blen ip_packet /\
    Z.shiftr (nth (Z.to_nat (view_header_len v + 8)) ip_packet 0) 6 = 2)).
  { destruct udp; [|done]. destruct (rtp_view_ok (view_header_len v + 8)) as (b & -> & Hr); [lia|]. cbn. intros B. destruct (Hr B). split; [lia|done]. }
  intros rtp Hr. destruct (classified v Hv) as (p & Ep & Hp).
  eapply (yields_bind _ _ (fun p => match p with RTP | UDP => view_terminal_protocol v = 17 | ESP => view_terminal_protocol v = 50
    | RTP_UDP_Lite | UDP_Lite => view_terminal_protocol v = 136 | _ => True end)); [destruct fragmented; [done|by rewrite Ep]|].
  clear p Ep Hp. intros p Hp. eapply (yields_bind _ _ (fun _ => True)).
  { destruct (view_is_ipv6 v) eqn:E6; [|done]. by rewrite (rd_field32 ip_packet 0) by lia. }
  intros ip _. eapply (yields_bind _ _ (fun _ => True)).
  { destruct rtp; [|done]. destruct (Hr ltac:(done)). by rewrite rd_nth by lia. }
  intros x _. cbn [yields]. split_and!; [done|exact Hu|exact Hr|]. cbn [pv_profile pv_ip]. destruct (_ && has_standard_chain p); [exact I|exact Hp].
Qed.
(** *** The call *)

Lemma cid_value_range : 0 <= cid_value < 2 ^ 32.
Proof.
  pose proof Hspace as H. unfold is_valid_for_space, is_small, small_cid_max, large_cid_max in H. destruct large; bool_prop; lia.
Qed.
#[local] Hint Resolve cid_value_range : ctxok.

Lemma sound_cid c : sound c -> sound (c <| cid := cid_value |> <| large_cid := large |>).
Proof. intros (H1 & H2 & H3). split_and!; [context_ok_tac|exact H2|exact H3]. Qed.

Lemma wp_begin_packet p c : sound c -> (opening = true -> tx_count c = 0) ->
  wp (begin_packet cid_value large mode_ p) (fun _ c' => sound c' /\ at_cid c') sound c.
Proof.
  intros Hs Hfirst. unfold begin_packet. apply wp_bind, wp_gets, wp_bind, wp_modify, wp_bind, wp_gets.
  pose proof (sound_cid c Hs) as Hs1. set (c1 := c <| cid := cid_value |> <| large_cid := large |>) in *.
  apply wp_bind. assert (A : forall c2, sound c2 /\ at_cid c2 ->
    wp (if profile_uses_formal_pt0 p then set_ctx require_confirmation_before_pt0_alias else ret tt)
      (fun _ c' => sound c' /\ at_cid c') sound c2).
  { intros c2 [Hs2 Hat2]. destruct (profile_uses_formal_pt0 p); [|by apply wp_ret]. apply wp_modify.
    unfold require_confirmation_before_pt0_alias. cbv zeta. destruct (_ && _); [|done].
    split; [by apply hold_ok|exact Hat2]. }
  destruct (_ && _); [|apply wp_ret, A; by split]. apply wp_modify, A. split; [|done].
  destruct sound_initial as (H1 & H2 & H3). unfold profile_replacement.
  split_and!; [context_ok_tac|exact H2|exact H3].
Qed.

(** What the octets sent and the context carry of the packet. *)
Definition carries (out : bytes) (c : Context) : Prop :=
  sound c /\ blen out <= out_capacity /\
  exists header payload, out = header ++ payload /\ stretch payload /\
    ((profile c = Uncompressed /\ payload = ip_packet) \/
     exists v, parse_ip_view ip_packet = Ok v /\
       (conventional v (profile c) -> forall capacity, blen ip_packet <= capacity -> size_ok capacity ->
        build_packet capacity c payload = Ok ip_packet) /\
       (forall q, profile c = as_profile q -> opening = true -> opens v q header c)).

Lemma faithful_carries v p out c : parse_ip_view ip_packet = Ok v -> faithful v p out c -> carries out c.
Proof.
  intros Hv (Hs & Ep & Hl & header & payload & E & Hst & HR & Ho). split_and!; [done..|]. exists header, payload. do 2 (split; [done|]).
  right. exists v. rewrite Ep. by split_and!.
Qed.

Lemma uncompressed_carries c : sound c -> wp (compress_uncompressed ip_packet out_capacity) carries sound c.
Proof.
  intros (H1 & H2 & H3). unfold compress_uncompressed. destruct (uncompressed_safe ip_packet) as (b & E).
  apply wp_bind, wp_lift. rewrite E. apply wp_bind, wp_guard; intros _; [|done].
  apply wp_bind, wp_modify, wp_bind, wp_gets.
  lazymatch goal with |- wp _ _ _ ?s => set (c1 := s) end.
  assert (S1 : sound c1) by (split_and!; [unfold c1; context_ok_tac|exact H2|exact H3]).
  apply wp_lift. pose proof (emit_uncompressed_ir_exact c1 out_capacity (proj1 S1) ip_packet) as Y.
  destruct (emit_uncompressed_ir _ _ _) as [o| |]; cbn in Y; [|done..]. destruct Y as (header & -> & Hl).
  split_and!; [apply S1..|done|]. exists header, ip_packet. split; [done|].
  split; [exists 0%nat, (length ip_packet); by rewrite drop_0, take_ge|]. by left.
Qed.

Lemma compress4_carries c : sound c -> (opening = true -> tx_count c = 0) -> out_capacity < 2 ^ 60 ->
  wp (compress4 cid_value large mode_ ip_packet out_capacity) carries sound c.
Proof.
  intros Hs Hfirst H60. unfold compress4. apply wp_bind, wp_lift. pose proof view_packet_ok as V.
  destruct (view_packet ip_packet) as [pv| |]; cbn in V; [|done..]. destruct V as (Hv & Hu & Hr & Hp).
  apply wp_bind, wp_gets, wp_bind. eapply wp_mono; [| |by apply wp_begin_packet]; [|done].
  cbn beta. intros _ c1 [Hs1 Hat1].
  assert (F : forall p (m : M Context bytes), wp m (faithful (pv_ip pv) p) sound c1 -> wp m carries sound c1).
  { intros p m Hm. eapply wp_mono; [| |exact Hm]; [|done]. intros out c2. by apply faithful_carries. }
  pose proof (uncompressed_carries c1 Hs1) as Hun.
  destruct (pv_profile pv); [exact Hun|exact Hun| | |by apply (F ESP), compress_esp_faithful|by apply (F IP), compress_ip_faithful| |].
  all: destruct (pv_udp pv); [specialize (Hu eq_refl)|exact Hun].
  - destruct (pv_rtp pv); [|exact Hun]. destruct (Hr eq_refl). by apply (F RTP), compress_rtp_faithful; auto.
  - by apply (F UDP), compress_udp_faithful.
  - destruct (pv_rtp pv); [|exact Hun]. destruct (Hr eq_refl). by apply (F RTP_UDP_Lite), compress_rtp_udp_lite_faithful; auto.
  - by apply (F UDP_Lite), compress_udp_lite_faithful.
Qed.
End Call.

(** C2: the compressor's call, on any packet of octets in any well-formed
    context, never reads or writes outside its buffers and leaves a
    well-formed context, also where it answers -1.  Where it answers a packet
    that packet fits the buffer and ends in a stretch of the input, and
    nothing was lost on the way: either the whole input is carried under the
    uncompressed profile, or the context the call leaves builds exactly the
    input around that stretch, for every input whose lengths and IPv4
    checksum are those its headers' RFCs ask for.  The first packet of a context
    is, in the profiles with a standard chain, an IR packet of these fields. *)
Theorem compress4_faithful cid_value large mode_ ip_packet out_capacity c :
  0 <= cid_value -> is_valid_for_space cid_value large = true -> bytes_ok ip_packet ->
  size_ok (blen ip_packet) -> 0 < out_capacity < 2 ^ 60 -> sound c ->
  match compress4 cid_value large mode_ ip_packet out_capacity c with
  | (Ok out, c') => carries cid_value large ip_packet out_capacity (tx_count c =? 0) out c'
  | (Rej, c') => sound c'
  | (Ub, _) => False
  end.
Proof.
  intros Hcid Hspace Hok Hsize [Hcap H60] Hs.
  exact (compress4_carries cid_value large mode_ ip_packet out_capacity Hcid Hspace Hok Hsize Hcap (tx_count c =? 0) c Hs
    (proj1 (Z.eqb_eq _ _)) H60).
Qed.

(** A UDP datagram of three octets, in IPv4. *)
Definition sample_packet : bytes :=
  [69; 0; 0; 31; 0; 1; 64; 0; 64; 17; 38; 203; 10; 0; 0; 1; 10; 0; 0; 2; 19; 136; 19; 138; 0; 11; 0; 0; 1; 2; 3].

Lemma compress4_faithful_witness :
  (exists out c', compress4 1 false Optimistic sample_packet segment_buffer_max initial_context = (Ok out, c')) /\
  match compress4 1 false Optimistic sample_packet segment_buffer_max initial_context with
  | (Ok out, c') => carries 1 false sample_packet segment_buffer_max true out c'
  | (Rej, c') => sound c'
  | (Ub, _) => False
  end.
Proof.
  split; [eexists _, _; vm_compute; reflexivity|].
  apply (compress4_faithful 1 false Optimistic sample_packet segment_buffer_max initial_context);
    [lia|done|by apply bytes_ok_by|by vm_compute|by vm_compute|apply sound_initial].
Defined.
