(* ===== verification/DecompressApi.v ===== *)
(** * rohc_decompress4: src/c_api/rohc_c_api.cpp

    One call of the decompressor: feedback in front of the packet is skipped, an
    integrity check value behind it is set aside, the packet is told apart, and
    its header decoded into the context of its CID - by the compact formats
    first, whose octets other formats share.  Every candidate is decoded into a
    context of its own; what is stored is stored with the packet delivered, and
    a refusal leaves a NACK for the compressor. *)

From S2P Require Import Prelude Crc Cid Bits Encoding Context Cursor EmitIr DecodeIr DecodeIrDyn Lla.
From S2P Require Import PrivateFo RtpFo Compressor Feedback Packets Sha256 FormalCo PacketImage CompactGuards CompressApi.

(** ** The decompressor *)

(** [rohccxx_internal::Decompressor]; of the array [reassembly] the octets
    received so far, of the key array the key. *)
Record DecompImpl := mkDecomp {
  dx_direction : Direction; dx_mode : Mode; dx_table : ContextTable; dx_large : bool;
  dx_last_feedback : Feedback; dx_ack_refresh : bool; dx_has_feedback : bool;
  dx_mrru : Z; dx_active : bool; dx_reassembly : bytes; dx_expected : Z;
  dx_ipsec : bool; dx_algorithm : Z; dx_key : bytes; dx_icv_len : Z;
  dx_lla : bool; dx_contract : AssistingLayerContract; dx_flow : ZeroByteFlow }.

Definition eta_decomp (d : DecompImpl) : DecompImpl :=
  mkDecomp (dx_direction d) (dx_mode d) (dx_table d) (dx_large d)
    (dx_last_feedback d) (dx_ack_refresh d) (dx_has_feedback d)
    (dx_mrru d) (dx_active d) (dx_reassembly d) (dx_expected d)
    (dx_ipsec d) (dx_algorithm d) (dx_key d) (dx_icv_len d) (dx_lla d) (dx_contract d) (dx_flow d).

#[export] Instance set_dx_table : Settable DecompImpl (@dx_table) := ltac:(make_setter eta_decomp dx_table).
#[export] Instance set_dx_mode : Settable DecompImpl (@dx_mode) := ltac:(make_setter eta_decomp dx_mode).
#[export] Instance set_dx_last_feedback : Settable DecompImpl (@dx_last_feedback) := ltac:(make_setter eta_decomp dx_last_feedback).
#[export] Instance set_dx_ack_refresh : Settable DecompImpl (@dx_ack_refresh) := ltac:(make_setter eta_decomp dx_ack_refresh).
#[export] Instance set_dx_has_feedback : Settable DecompImpl (@dx_has_feedback) := ltac:(make_setter eta_decomp dx_has_feedback).
#[export] Instance set_dx_mrru : Settable DecompImpl (@dx_mrru) := ltac:(make_setter eta_decomp dx_mrru).
#[export] Instance set_dx_active : Settable DecompImpl (@dx_active) := ltac:(make_setter eta_decomp dx_active).
#[export] Instance set_dx_reassembly : Settable DecompImpl (@dx_reassembly) := ltac:(make_setter eta_decomp dx_reassembly).
#[export] Instance set_dx_expected : Settable DecompImpl (@dx_expected) := ltac:(make_setter eta_decomp dx_expected).
#[export] Instance set_dx_ipsec : Settable DecompImpl (@dx_ipsec) := ltac:(make_setter eta_decomp dx_ipsec).
#[export] Instance set_dx_algorithm : Settable DecompImpl (@dx_algorithm) := ltac:(make_setter eta_decomp dx_algorithm).
#[export] Instance set_dx_key : Settable DecompImpl (@dx_key) := ltac:(make_setter eta_decomp dx_key).
#[export] Instance set_dx_icv_len : Settable DecompImpl (@dx_icv_len) := ltac:(make_setter eta_decomp dx_icv_len).
#[export] Instance set_dx_lla : Settable DecompImpl (@dx_lla) := ltac:(make_setter eta_decomp dx_lla).
#[export] Instance set_dx_contract : Settable DecompImpl (@dx_contract) := ltac:(make_setter eta_decomp dx_contract).
#[export] Instance set_dx_flow : Settable DecompImpl (@dx_flow) := ltac:(make_setter eta_decomp dx_flow).

(** [rohccxx_internal], and the longest packet that is ever built. *)
Definition segment_header_len : Z := 2.
Definition max_reconstructed_ip_packet : Z := 40 + 0xFFFF.

Definition store_ctx (cid : Z) (c : Context) : M DecompImpl unit :=
  modify (fun d => d <| dx_table := table_set (dx_table d) cid c |>).
Definition load_ctx (cid : Z) : M DecompImpl Context :=
  d <- gets (fun d => d) ;;
  lift (table_get (dx_table d) cid).

(** ** Feedback for the compressor *)

(** The acknowledgment of the context's sequence number, where there is one. *)
Definition acknowledging (d : DecompImpl) (cid_ : Z) (type : FeedbackType) : outcome Feedback :=
  let feedback := empty_feedback <| f_cid := cid_ |> <| f_type := type |> in
  match table_get (dx_table d) cid_ with
  | Ok ctx => Ok (feedback <| acknowledgment_number := msn ctx |> <| acknowledgment_bits := 14 |>
                           <| acknowledgment_valid := true |>)
  | Rej => Ok feedback
  | Ub => Ub
  end.

Definition set_feedback (cid_ : Z) (type : FeedbackType) : M DecompImpl unit :=
  d <- gets (fun d => d) ;;
  feedback <- lift (acknowledging d cid_ type) ;;
  modify (fun d => d <| dx_last_feedback := feedback |> <| dx_has_feedback := true |>).

Definition fail_with_feedback {A} (feedback_cid : Z) : M DecompImpl A :=
  set_feedback feedback_cid NACK ;;; lift Rej.

(** The feedback packets in front; each takes two octets at least. *)
Fixpoint feedback_prefix_len (fuel : nat) (rohc_packet : bytes) (len : Z) : M DecompImpl Z :=
  if negb (len <? blen rohc_packet) then ret len else
  first <- lift (rd rohc_packet len) ;;
  if negb (is_feedback_packet_start first) then ret len else
  match fuel with
  | O => lift Ub
  | S fuel =>
      rest <- lift (tail_from rohc_packet len) ;;
      consumed <- lift (attempt (fst (read_feedback_prefix rest empty_feedback))) ;;
      match consumed with
      | None => fail_with_feedback 0
      | Some n => feedback_prefix_len fuel rohc_packet (len + n)
      end
  end.

(** ** What the decoders of compact packets share *)

(** [read_formal_co_base] of the first [base_len] octets. *)
Definition read_base (base_len : Z) (p : Profile) (v : FormalCoVariant) (packet : bytes) : outcome FormalCoPacket :=
  match read_formal_co_base base_len p v (mk_bit_reader packet default_byte_len, no_packet) with
  | (Ok _, s) => Ok (snd s)
  | (Rej, _) => Rej
  | (Ub, _) => Ub
  end.

(** The header and the payload, where they fit. *)
Definition rebuilt_in (capacity : Z) (header payload : bytes) : outcome bytes :=
  check negb ((2 ^ 64 - 1 - blen header <? blen payload) || (capacity <? blen header + blen payload)) in
  Ok (header ++ payload).

(** The UDP checksum that follows the first octets of a compact packet. *)
Definition carried_checksum (packet : bytes) (header_len : Z) (c : Context) : outcome (Context * Z) :=
  if udp_checksum_used c then
    check negb (blen packet <? header_len + 2) in
    let! check_ := rd_u16 packet header_len in
    Ok (c <| udp_check := check_ |>, header_len + 2)
  else Ok (c, header_len).

(** The IP-ID, timestamp and ESP sequence number [delta] packets on. *)
Definition advance_id (delta : Z) (c : Context) : Context := c <| ipv4_id := u16 (ipv4_id c + delta) |>.
Definition advance_sequential_id (delta : Z) (c : Context) : Context :=
  if ipv4_id_behavior c =? 0 then advance_id delta c else c.
Definition advance_esp (delta : Z) (c : Context) : Context := c <| esp_sequence := u32 (esp_sequence c + delta) |>.
Definition advance_rtp (next_msn delta : Z) (c : Context) : Context :=
  c <| rtp := rtp c <| last_seq := next_msn |> <| last_ts := u32 (last_ts (rtp c) + ts_stride (rtp c) * delta) |> |>.

(** The packet is not empty, and the bits of its first octet in [mask] are
    [tag]. *)
Definition starts_with (mask tag : Z) (packet : bytes) : bool :=
  match packet with [] => false | b :: _ => Z.land b mask =? tag end.

(** An RTP header of twelve octets, without lists. *)
Definition plain_rtp (c : Context) : bool :=
  (Z.land (vpxcc (rtp c)) 0x3F =? 0) && (csrc_list_len (rtp c) =? 0) &&
  (extension_len (rtp c) =? 0) && (padding_len (rtp c) =? 0).

(** ** One packet, in the context of its CID *)

Section Packet.
Context (large : bool) (cid_ : Z) (before : Context) (mode_before : Mode) (capacity : Z)
  (received_icv : bytes) (pending : option Feedback) (parsed : ParsedRohcPacket).

Let packet : bytes := pr_packet parsed.

Definition refuse {A} : M DecompImpl A := fail_with_feedback cid_.

Definition restore (d : DecompImpl) : DecompImpl :=
  d <| dx_table := table_set (dx_table d) cid_ before |> <| dx_mode := mode_before |>.

Definition verify_rohcoipsec_icv (ip_packet : bytes) : M DecompImpl unit :=
  d <- gets (fun d => d) ;;
  if negb (dx_ipsec d) || (blen received_icv =? 0) then ret tt else
  equal <- lift (attempt (
    let! digest := compute_icv (dx_algorithm d) (dx_key d) ip_packet (blen received_icv) in
    let! computed := overwrite (repeat 0 (Z.to_nat sha256_digest_len)) digest in
    constant_time_equal computed received_icv (blen received_icv))) ;;
  match equal with Some true => ret tt | _ => fail_with_feedback (pr_cid parsed) end.

(** Where the peer asked for it, a refreshed context is acknowledged, unless
    feedback is waiting already. *)
Definition acknowledge_refresh : M DecompImpl unit :=
  d <- gets (fun d => d) ;;
  ctx <- load_ctx cid_ ;;
  if (type_eqb (pr_type parsed) PktIR || type_eqb (pr_type parsed) PktIR_DYN) &&
     profile_uses_formal_pt0 (profile ctx) && dx_ack_refresh d then
    match pending with
    | Some f => modify (fun d => d <| dx_last_feedback := f |> <| dx_has_feedback := true |>)
    | None => set_feedback cid_ ACK
    end
  else ret tt.

(** A part of the call either delivers a packet or leaves it to the next; what
    it refuses leaves the context as it was. *)
Definition finish_decoding (part : M DecompImpl (option bytes)) : M DecompImpl (option bytes) := fun s =>
  match part s with
  | (Ok (Some ip_packet), s') => (acknowledge_refresh ;;; ret (Some ip_packet)) s'
  | (Rej, s') => (Rej, restore s')
  | r => r
  end.

Definition deliver (c : Context) (ip_packet : bytes) : M DecompImpl (option bytes) :=
  store_ctx cid_ c ;;;
  modify (fun d => d <| dx_mode := mode c |>) ;;;
  verify_rohcoipsec_icv ip_packet ;;;
  ret (Some ip_packet).

Definition deliver_or_refuse (o : outcome (Context * bytes)) : M DecompImpl (option bytes) :=
  r <- lift (attempt o) ;;
  match r with None => refuse | Some (c, ip_packet) => deliver c ip_packet end.

(** *** The uncompressed profile *)

Definition uncompressed_packet : M DecompImpl (option bytes) :=
  let live := negb (state_eqb (rohc_state before) NoContext) && profile_eqb (profile before) Uncompressed in
  if negb (type_eqb (pr_type parsed) PktUncompressed && live) then ret None
  else if capacity <? blen packet then refuse
  else
    ctx <- load_ctx cid_ ;;
    store_ctx cid_ (ctx <| tx_count := u32 (tx_count ctx + 1) |> <| nack_count := 0 |>) ;;;
    verify_rohcoipsec_icv packet ;;;
    ret (Some packet).

Definition uncompressed_replacement : Context :=
  initial_context <| cid := cid_ |> <| large_cid := large |> <| profile := Uncompressed |>
    <| mode := ModeUncompressed |> <| rohc_state := DynamicEstablished |> <| tx_count := 1 |>
    <| profile_has_been_used := true |>.

Definition uncompressed_ir : M DecompImpl (option bytes) :=
  if negb (type_eqb (pr_type parsed) PktIR && (pr_profile_id parsed =? 0x00)) then ret None
  else
    let header_len := (if pr_has_add_cid parsed then 1 else 0) + 3 +
                      (if pr_has_large_cid parsed then pr_cid_len parsed else 0) in
    if (blen (pr_wire parsed) <=? header_len) || (5 <? header_len) then refuse
    else
      crc_header <- lift (slice (pr_wire parsed) 0 header_len) ;;
      received_crc <- lift (rd crc_header (header_len - 1)) ;;
      original <- lift (tail_from (pr_wire parsed) header_len) ;;
      carried <- lift (is_uncompressed_ip_payload original) ;;
      if negb (crc8 (<[Z.to_nat (header_len - 1) := 0]> crc_header) =? received_crc) || negb carried ||
         (capacity <? blen original)
      then refuse
      else deliver uncompressed_replacement original.

(** *** Compact packets with the 7-bit CRC, and PT-1 *)

Definition live : bool := live_pt0_context_supported before large cid_ (pr_has_add_cid parsed).
Definition formal_type : bool := type_eqb (pr_type parsed) FormalCO && (2 <=? blen packet).

Definition rtp_pt0_crc7_candidate : outcome (Context * bytes) :=
  check negb (ts_stride (rtp before) =? 0) in
  let! formal := read_base 2 RTP Pt0Crc7 packet in
  let! next_msn := decode_forward_formal_msn before (fp_msn formal) 5 in
  let delta := u16 (next_msn - msn before) in
  let c := advance_rtp next_msn delta (advance_sequential_id delta (before <| msn := next_msn |>)) in
  let! payload := payload_after_header packet 2 in
  let! header := build_fixed_rtp_ipv4_header c (blen payload) in
  check crc7 header =? fp_header_crc formal in
  let! ip_packet := rebuilt_in capacity header payload in
  Ok (c, ip_packet).

Definition rtp_pt0_crc7 : M DecompImpl (option bytes) :=
  if formal_type && starts_with 0xF0 0x80 packet && profile_eqb (profile before) RTP &&
     (ipv4_options_len before =? 0) && plain_rtp before && live
  then deliver_or_refuse rtp_pt0_crc7_candidate
  else ret None.

Definition esp_pt0_crc7_candidate : outcome (Context * bytes) :=
  let! formal := read_base 2 ESP Pt0Crc7 packet in
  let! next_msn := decode_forward_formal_msn before (fp_msn formal) 6 in
  let delta := u16 (next_msn - msn before) in
  let c := advance_esp delta (advance_id delta (before <| msn := next_msn |>)) in
  let! payload := payload_after_header packet 2 in
  let! header := build_fixed_esp_ipv4_header c (blen payload) in
  check crc7 header =? fp_header_crc formal in
  let! ip_packet := rebuilt_in capacity header payload in
  Ok (c <| formal_pt0_crc7_seen := true |>, ip_packet).

Definition esp_pt0_crc7 : M DecompImpl (option bytes) :=
  if formal_type && starts_with 0xE0 0x80 packet && profile_eqb (profile before) ESP &&
     (ipv4_options_len before =? 0) && live
  then deliver_or_refuse esp_pt0_crc7_candidate
  else ret None.

Definition build_fixed_header (c : Context) (payload_len : Z) : outcome bytes :=
  if profile_eqb (profile c) UDP then build_fixed_udp_ipv4_header c payload_len
  else if profile_eqb (profile c) ESP then build_fixed_esp_ipv4_header c payload_len
  else build_fixed_ip_ipv4_header c payload_len.

Definition pt1_seq_id_candidate : outcome (Context * bytes) :=
  let p := profile before in
  let! formal := read_base 2 p Pt1SeqId packet in
  let msn_width := formal_co_msn_lsb_bits p Pt1SeqId in
  let ip_id_width := formal_co_ip_id_lsb_bits p Pt1SeqId in
  let! next_msn := decode_forward_formal_msn before (fp_msn formal) msn_width in
  let reference_offset := encode_offset_ip_id (ipv4_id before) (msn before) in
  let ip_id_p := Z.shiftl 1 ip_id_width / 4 - 1 in
  let! next_ipv4_id := decode_ip_id_offset_lsb_with_p (fp_ip_id formal) next_msn reference_offset ip_id_width ip_id_p in
  let msn_delta := u16 (next_msn - msn before) in
  let c := before <| msn := next_msn |> <| ipv4_id := next_ipv4_id |> in
  let c := if profile_eqb p ESP then advance_esp msn_delta c else c in
  let! r := if profile_eqb p UDP then carried_checksum packet 2 c else Ok (c, 2) in
  let '(c, candidate_header_len) := r in
  let! payload := payload_after_header packet candidate_header_len in
  let! header := build_fixed_header c (blen payload) in
  check crc3 header =? fp_header_crc formal in
  let! ip_packet := rebuilt_in capacity header payload in
  Ok (c, ip_packet).

Definition pt1_seq_id : M DecompImpl (option bytes) :=
  if formal_type && starts_with 0xE0 0xA0 packet &&
     (profile_eqb (profile before) UDP || profile_eqb (profile before) ESP || profile_eqb (profile before) IP) && live
  then deliver_or_refuse pt1_seq_id_candidate
  else ret None.

(** *** PT-0 with the 3-bit CRC, whose octets first-order packets share *)

(** The formal reading of a packet whose first octet is [first_octet]: the
    sequence number must be near enough for a packet without provenance. *)
Definition pt0_msn (p : Profile) (first_octet : Z) (sequential : bool) : outcome (FormalCoPacket * Z * Z) :=
  let! formal := read_base 1 p Pt0Crc3 [first_octet] in
  check negb (reject_legacy_udp_pt0_until_refresh before) in
  let! next_msn := decode_forward_formal_pt0_msn before (fp_msn formal) in
  let delta := u16 (next_msn - msn before) in
  check legacy_pt0_delta_safe_for_profile before delta in
  check negb (sequential && negb (delta =? 1)) in
  Ok (formal, next_msn, delta).

(** The context, header and payload of one reading. *)
Definition udp_pt0_formal (first_octet : Z) : outcome (Context * bytes * bytes) :=
  let! r := pt0_msn UDP first_octet (limit_legacy_udp_pt0_to_sequential before) in
  let '(formal, next_msn, delta) := r in
  let c := advance_id delta (before <| msn := next_msn |>) <| limit_legacy_udp_pt0_to_sequential := false |> in
  let! r := carried_checksum packet 1 c in
  let '(c, formal_header_len) := r in
  let! payload := payload_after_header packet formal_header_len in
  let! header := build_fixed_udp_ipv4_header c (blen payload) in
  check crc3 header =? fp_header_crc formal in
  Ok (c, header, payload).

(** The first-order reading: the context and the header's length. *)
Definition private_reading : outcome (Context * Z) :=
  match pr_type parsed with
  | FO_UDP => run_decoder decode_udp_fo packet before
  | FO_ESP => run_decoder decode_esp_fo packet before
  | FO_IP => run_decoder decode_ip_fo packet before
  | _ => Rej
  end.

(** Its header and payload, and whether their UDP checksum verifies. *)
Definition private_udp_image (r : Context * Z) : outcome (bytes * bytes * bool) :=
  let! payload := payload_after_header packet (snd r) in
  let! header := build_fixed_udp_ipv4_header (fst r) (blen payload) in
  let! valid := udp_checksum_valid header [] payload in
  Ok (header, payload, valid).

(** What is left of the two readings: both refused, one delivered, or the
    first-order one left to its decoder. *)
Definition resolve_udp (formal : option (Context * bytes * bytes)) (private : option (Context * Z))
    : M DecompImpl (option bytes) :=
  match formal, private with
  | None, None => refuse
  | None, Some _ => ret None
  | Some (c, header, payload), None => deliver_or_refuse (let! ip := rebuilt_in capacity header payload in Ok (c, ip))
  | Some (c, header, payload), Some r =>
      if negb (udp_checksum_used c) then refuse else
      formal_checksum_valid <- lift (udp_checksum_valid header [] payload) ;;
      image <- lift (attempt (private_udp_image r)) ;;
      let private_checksum_valid := match image with Some (_, _, v) => v | None => false end in
      if eqb private_checksum_valid formal_checksum_valid then refuse else
      match image with
      | Some (private_header, private_payload, true) =>
          deliver_or_refuse (
            let! ip := rebuilt_in capacity private_header private_payload in
            Ok (fst r <| msn := u16 (msn before + 1) |>, ip))
      | _ => deliver_or_refuse (let! ip := rebuilt_in capacity header payload in Ok (c, ip))
      end
  end.

Definition udp_pt0 (staged : bool) : M DecompImpl (option bytes) :=
  if negb (negb staged && starts_with 0x80 0 packet && profile_eqb (profile before) UDP &&
           (ipv4_options_len before =? 0) && live) then ret None
  else
    first_octet <- lift (rd packet 0) ;;
    formal <- lift (attempt (udp_pt0_formal first_octet)) ;;
    private <- lift (attempt private_reading) ;;
    formal <-
      match formal, private with
      | Some (c, header, payload), None =>
          if udp_checksum_used c then
            valid <- lift (udp_checksum_valid header [] payload) ;;
            ret (if valid : bool then formal else None)
          else ret formal
      | _, _ => ret formal
      end ;;
    resolve_udp formal private.

Definition esp_pt0_formal (first_octet : Z) : outcome (Context * bytes * bytes) :=
  check negb (formal_pt0_crc3_retired before) in
  let! r := pt0_msn ESP first_octet false in
  let '(formal, next_msn, delta) := r in
  let c := advance_esp delta (advance_id delta (before <| msn := next_msn |>)) in
  let! payload := payload_after_header packet 1 in
  let! header := build_fixed_esp_ipv4_header c (blen payload) in
  check crc3 header =? fp_header_crc formal in
  Ok (c, header, payload).

(** A decoder of first-order packets whose result is of the profile [p]. *)
Definition private_of (p : Profile) (r : outcome (Context * Z)) : outcome (Context * Z) :=
  let! r := r in
  check profile_eqb (profile (fst r)) p in
  Ok r.

(** Whether changing one bit of the first octet makes it a formal packet. *)
Fixpoint any_formal_esp (octets : list Z) : outcome bool :=
  match octets with
  | [] => Ok false
  | o :: octets =>
      let! valid := succeeds (esp_pt0_formal o) in
      if valid : bool then Ok true else any_formal_esp octets
  end.

Definition esp_pt0_alias_context : bool :=
  state_eqb (rohc_state before) DynamicEstablished && profile_eqb (profile before) ESP &&
  (ip_version before =? 4) && negb large && negb (large_cid before) &&
  (cid_ <=? 0x0F) && eqb (pr_has_add_cid parsed) (negb (cid_ =? 0)).

Definition esp_pt0 (staged : bool) : M DecompImpl (option bytes) :=
  if negb (negb staged && starts_with 0x80 0 packet && (ipv4_options_len before =? 0) && esp_pt0_alias_context)
  then ret None
  else
    first_octet <- lift (rd packet 0) ;;
    formal <- lift (attempt (esp_pt0_formal first_octet)) ;;
    private <- lift (attempt (private_of ESP (run_decoder decode_esp_fo packet before))) ;;
    match formal, private with
    | Some (c, header, payload), None =>
        if negb live then refuse
        else deliver_or_refuse (let! ip := rebuilt_in capacity header payload in Ok (c, ip))
    | Some _, Some _ => refuse
    | None, Some _ =>
        adjacent <- lift (any_formal_esp (one_bit_neighbors first_octet)) ;;
        if adjacent : bool then refuse else ret None
    | None, None => refuse
    end.

Definition ip_pt0_formal (first_octet : Z) : outcome (Context * bytes * bytes) :=
  let! r := pt0_msn IP first_octet false in
  let '(formal, next_msn, delta) := r in
  let c := advance_id delta (before <| msn := next_msn |>) in
  let! payload := payload_after_header packet 1 in
  let! header := build_fixed_ip_ipv4_header c (blen payload) in
  check crc3 header =? fp_header_crc formal in
  Ok (c, header, payload).

Definition ip_pt0 (staged : bool) : M DecompImpl (option bytes) :=
  if negb (negb staged && starts_with 0x80 0 packet && profile_eqb (profile before) IP &&
           (ipv4_options_len before =? 0) && live) then ret None
  else
    first_octet <- lift (rd packet 0) ;;
    formal <- lift (attempt (ip_pt0_formal first_octet)) ;;
    private <- lift (attempt (private_of IP (run_decoder decode_ip_fo packet before))) ;;
    legacy <- lift (legacy_private_ip_fo_crc_valid packet) ;;
    match formal, private with
    | Some (c, header, payload), None =>
        if legacy : bool then refuse
        else deliver_or_refuse (let! ip := rebuilt_in capacity header payload in Ok (c, ip))
    | Some _, Some _ => refuse
    | None, Some _ => ret None
    | None, None => refuse
    end.

(** Here the context is the stored one, whose CID is this call's. *)
Definition rtp_pt0_formal (first_octet : Z) (ctx : Context) : outcome (Context * bytes * bytes) :=
  check negb (ts_stride (rtp before) =? 0) in
  let! r := pt0_msn RTP first_octet false in
  let '(formal, next_msn, delta) := r in
  let c := advance_rtp next_msn delta (advance_sequential_id delta (ctx <| msn := next_msn |>)) in
  let! payload := payload_after_header packet 1 in
  let! header := build_fixed_rtp_ipv4_header c (blen payload) in
  check crc3 header =? fp_header_crc formal in
  Ok (c, header, payload).

(** A first-order RTP packet that builds a header. *)
Definition private_rtp (ctx : Context) : outcome unit :=
  check pr_has_add_cid parsed in
  match decode_fo_rtp packet ctx with
  | (Ok (_, _, private_header_len), private_context) =>
      let! payload := payload_after_header packet private_header_len in
      let! header := build_fixed_rtp_ipv4_header private_context (blen payload) in
      Ok tt
  | (Rej, _) => Rej
  | (Ub, _) => Ub
  end.

Definition rtp_pt0_candidate (staged : bool) : bool :=
  negb staged && type_eqb (pr_type parsed) FO_RTP && starts_with 0x80 0 packet &&
  profile_eqb (profile before) RTP && (ipv4_options_len before =? 0) && plain_rtp before && live.

(** Past this part, the candidates are packets whose first-order reading is
    preferred ([prefer_private_rtp_fo]). *)
Definition rtp_pt0 (staged : bool) : M DecompImpl (option bytes) :=
  if negb (rtp_pt0_candidate staged) then ret None
  else
    ctx <- load_ctx cid_ ;;
    first_octet <- lift (rd packet 0) ;;
    formal <- lift (attempt (rtp_pt0_formal first_octet ctx)) ;;
    private <- lift (attempt (private_rtp ctx)) ;;
    match formal, private with
    | Some (c, header, payload), None =>
        deliver_or_refuse (let! ip := rebuilt_in capacity header payload in Ok (c, ip))
    | Some _, Some _ => refuse
    | None, Some _ => ret None
    | None, None => refuse
    end.

(** *** First-order markers that a PT-0 octet may carry *)

Definition reconstruct_tentative (c : Context) (header_len : Z) : outcome bytes :=
  let! payload := payload_after_header packet header_len in
  match profile c with
  | RTP => build_rtp_packet max_reconstructed_ip_packet c payload
  | UDP => build_udp_packet max_reconstructed_ip_packet c payload
  | ESP => if legacy_esp_payload_includes_header c then build_ip_packet max_reconstructed_ip_packet c payload
           else build_esp_packet max_reconstructed_ip_packet c payload
  | IP => build_ip_packet max_reconstructed_ip_packet c payload
  | _ => Rej
  end.

(** The octets under the CRC of a PT-0 packet. *)
Definition crc_header_len (p : Profile) : Z :=
  if profile_eqb p RTP then 40 else if profile_eqb p UDP || profile_eqb p ESP then 28 else 20.

Definition header_crc_matches (ip_packet : bytes) (len crc : Z) : outcome bool :=
  if blen ip_packet <? len then Ok false else
  let! header := slice ip_packet 0 len in
  Ok (crc3 header =? crc).

(** The context a PT-0 packet of its profile stands for, and where the
    payload starts. *)
Definition pt0_context (next_msn delta : Z) (ctx : Context) : outcome (Context * Z) :=
  let c := advance_sequential_id delta (ctx <| msn := next_msn |>) in
  let c := if profile_eqb (profile c) ESP then advance_esp delta c else c in
  let c := if profile_eqb (profile c) RTP then advance_rtp next_msn delta c else c in
  if profile_eqb (profile c) UDP then carried_checksum packet 1 c else Ok (c, 1).

Definition try_formal_pt0 : outcome unit :=
  let! formal := read_base 1 (profile before) Pt0Crc3 packet in
  let! next_msn := decode_forward_formal_pt0_msn before (fp_msn formal) in
  let delta := u16 (next_msn - msn before) in
  check legacy_pt0_delta_safe_for_profile before delta in
  let! r := pt0_context next_msn delta before in
  let! output := reconstruct_tentative (fst r) (snd r) in
  let! valid := header_crc_matches output (crc_header_len (profile before)) (fp_header_crc formal) in
  oguard valid.

Definition try_private_fo : outcome unit :=
  let! r := match pr_type parsed with
            | FO_UDP => private_of UDP (run_decoder decode_udp_fo packet before)
            | FO_ESP => private_of ESP (run_decoder decode_esp_fo packet before)
            | FO_IP => private_of IP (run_decoder decode_ip_fo packet before)
            | _ => Rej
            end in
  let! output := reconstruct_tentative (fst r) (snd r) in
  Ok tt.

Definition private_fo_overlap : bool :=
  type_eqb (pr_type parsed) FO_UDP_Lite || type_eqb (pr_type parsed) FO_ESP ||
  type_eqb (pr_type parsed) FO_IP || type_eqb (pr_type parsed) FO_UDP.

(** Whether the packet is read as a formal one from here on.  Two valid
    meanings are never the same interpretation. *)
Definition resolve_overlap : M DecompImpl bool :=
  if negb (private_fo_overlap && starts_with 0x80 0 packet && live) then ret false
  else
    formal <- lift (succeeds try_formal_pt0) ;;
    private <- lift (succeeds try_private_fo) ;;
    if formal && private then modify restore ;;; refuse else ret formal.

(** *** Segments *)

Definition forget_reassembly : M DecompImpl unit :=
  modify (fun d => d <| dx_active := false |> <| dx_reassembly := [] |>).

(** The packet put together, or none while segments are missing. *)
Definition reassemble : M DecompImpl (option bytes) :=
  d <- gets (fun d => d) ;;
  header <- lift (attempt (read_segment_header packet)) ;;
  match header with
  | None => forget_reassembly ;;; refuse
  | Some segment =>
      if (dx_mrru d =? 0) || (blen packet <=? segment_header_len) then forget_reassembly ;;; refuse else
      payload <- lift (tail_from packet segment_header_len) ;;
      (if dx_active d then ret tt
       else if negb (sequence segment =? 0) then refuse
       else modify (fun d => d <| dx_active := true |> <| dx_reassembly := [] |> <| dx_expected := 0 |>)) ;;;
      d <- gets (fun d => d) ;;
      let next_len := blen (dx_reassembly d) + blen payload in
      if negb (sequence segment =? Z.land (dx_expected d) 0xFF) || (dx_mrru d <? next_len) ||
         (segment_buffer_max <? next_len)
      then forget_reassembly ;;; refuse
      else
        modify (fun d => d <| dx_reassembly := dx_reassembly d ++ payload |>
                           <| dx_expected := u16 (dx_expected d + 1) |>) ;;;
        if negb (final segment) then ret None
        else
          d <- gets (fun d => d) ;;
          modify (fun d => d <| dx_active := false |> <| dx_reassembly := [] |> <| dx_expected := 0 |>) ;;;
          ret (Some (dx_reassembly d))
  end.

(** *** IR and IR-DYN packets *)

Definition incoming_profile : option Profile :=
  let id := pr_profile_id parsed in
  if id =? 0x01 then Some RTP
  else if id =? 0x02 then Some UDP
  else if id =? 0x03 then Some ESP
  else if id =? 0x04 then Some IP
  else if id =? 0x07 then Some RTP_UDP_Lite
  else if id =? 0x08 then Some UDP_Lite
  else None.

Definition known_before : bool := negb (state_eqb (rohc_state before) NoContext).

(** A packet of another profile starts from an empty context. *)
Definition ir_context (p : Profile) (ctx : Context) : Context :=
  if known_before && negb (profile_eqb (profile before) p) then
    initial_context <| cid := cid_ |> <| large_cid := large |> <| mode := mode before |>
  else if known_before && profile_eqb (profile before) p && profile_eqb p ESP && formal_pt0_crc7_seen before
  then ctx <| formal_pt0_crc3_retired := true |>
  else ctx.

Definition ir_decoder (p : Profile) (ctx : Context) : outcome (Context * Z) :=
  let decode_packet := decoder_packet parsed in
  match p with
  | UDP => decode_ir_udp decode_packet ctx
  | UDP_Lite => decode_ir_udp_lite decode_packet ctx
  | ESP => decode_ir_esp decode_packet ctx
  | IP => decode_ir_ip decode_packet ctx
  | RTP_UDP_Lite => decode_ir_rtp_udp_lite decode_packet ctx
  | RTP => decode_ir_rtp decode_packet ctx
  | _ => Rej
  end.

Definition after_ir (p : Profile) (c : Context) : Context :=
  let c := c <| formal_pt0_since_confirmation := 0 |> in
  if known_before && negb (cid_ =? 0) && negb (profile_eqb (profile before) p) && profile_uses_formal_pt0 p then
    c <| compact_profile_replacement_seen := true |> <| reject_legacy_udp_pt0_until_refresh := true |>
      <| limit_legacy_udp_pt0_to_sequential := false |>
  else if known_before && negb (cid_ =? 0) && profile_eqb p UDP && negb (udp_checksum_used c) then
    c <| reject_legacy_udp_pt0_until_refresh := false |> <| limit_legacy_udp_pt0_to_sequential := true |>
  else if profile_eqb (profile before) p then
    c <| reject_legacy_udp_pt0_until_refresh := false |> <| limit_legacy_udp_pt0_to_sequential := false |>
  else c.

Definition receive_ir (ctx : Context) : outcome (Context * Z) :=
  match incoming_profile with
  | None => Rej
  | Some p =>
      let! r := ir_decoder p (ir_context p ctx) in
      Ok (after_ir p (fst r), snd r)
  end.

Definition ir_dyn_decoder (p : Profile) (ctx : Context) : outcome (Context * Z) :=
  let decode_packet := decoder_packet parsed in
  match p with
  | UDP => run_decoder decode_ir_dyn_udp decode_packet ctx
  | RTP_UDP_Lite => run_decoder decode_ir_dyn_rtp_udp_lite decode_packet ctx
  | UDP_Lite => run_decoder decode_ir_dyn_udp_lite decode_packet ctx
  | ESP => run_decoder decode_ir_dyn_esp decode_packet ctx
  | IP => run_decoder decode_ir_dyn_ip decode_packet ctx
  | RTP => run_decoder decode_ir_dyn_rtp decode_packet ctx
  | _ => Rej
  end.

Definition receive_ir_dyn (ctx : Context) : outcome (Context * Z) :=
  match incoming_profile with
  | None => Rej
  | Some p =>
      let! r := ir_dyn_decoder p ctx in
      let '(c, n) := r in
      Ok (if profile_eqb (profile before) p then
            c <| formal_pt0_since_confirmation := 0 |> <| reject_legacy_udp_pt0_until_refresh := false |>
              <| limit_legacy_udp_pt0_to_sequential := false |>
          else c, n)
  end.

(** *** PT-0 and first-order packets, once told apart *)

(** The context, where the payload starts, and the CRC of the packet's first
    octets that is still to be checked. *)
Definition receive_pt0 (ctx : Context) : outcome (Context * Z * option (Z * Z)) :=
  check negb (profile_eqb (profile ctx) RTP && (ts_stride (rtp ctx) =? 0)) in
  let! formal := read_base 1 (profile ctx) Pt0Crc3 packet in
  check negb (reject_legacy_udp_pt0_until_refresh ctx) in
  let! next_msn := decode_forward_formal_pt0_msn ctx (fp_msn formal) in
  let msn_delta := u16 (next_msn - msn ctx) in
  check legacy_pt0_delta_safe_for_profile ctx msn_delta in
  check negb (profile_eqb (profile ctx) UDP && limit_legacy_udp_pt0_to_sequential ctx && negb (msn_delta =? 1)) in
  let! r := pt0_context next_msn msn_delta ctx in
  let '(c, header_len) := r in
  let c := if profile_eqb (profile c) UDP then c <| limit_legacy_udp_pt0_to_sequential := false |> else c in
  Ok (c, header_len, Some (fp_header_crc formal, crc_header_len (profile c))).

Definition private_fo_context_ready (p : Profile) : bool := known_before && profile_eqb (profile before) p.

Definition receive_private_rtp (ctx : Context) : outcome (Context * Z) :=
  check negb large && pr_has_add_cid parsed &&
        (private_fo_context_ready RTP || private_fo_context_ready RTP_UDP_Lite) in
  match decode_fo_rtp packet ctx with
  | (Ok (seq, _, header_len), c) =>
      check state_eqb (rohc_state c) DynamicEstablished in
      Ok (c <| msn := seq |>, header_len)
  | (Rej, _) => Rej
  | (Ub, _) => Ub
  end.

Definition receive_fo (type : RohcPacketType) (ctx : Context) : outcome (Context * Z) :=
  match type with
  | FO_UDP =>
      check private_fo_context_ready UDP in
      let! r := run_decoder decode_udp_fo packet ctx in
      Ok (fst r <| msn := u16 (msn ctx + 1) |>, snd r)
  | FO_IP =>
      check private_fo_context_ready IP in
      let! r := run_decoder decode_ip_fo packet ctx in
      Ok (update_ipv4_id_behavior (fst r <| msn := u16 (msn ctx + 1) |>) (ip_version ctx =? 4) (ipv4_id ctx), snd r)
  | FO_ESP =>
      check private_fo_context_ready ESP in
      run_decoder decode_esp_fo packet ctx
  | FO_UDP_Lite =>
      check private_fo_context_ready UDP_Lite in
      run_decoder decode_udp_lite_fo packet ctx
  | FO_RTP => receive_private_rtp ctx
  | _ => Rej
  end.

Definition unchecked (o : outcome (Context * Z)) : outcome (Context * Z * option (Z * Z)) :=
  let! r := o in
  Ok (fst r, snd r, None).

Definition receive_header (type : RohcPacketType) (prefer_private_rtp_fo : bool) (ctx : Context)
    : outcome (Context * Z * option (Z * Z)) :=
  if type_eqb type PktIR then unchecked (receive_ir ctx)
  else if type_eqb type PktIR_DYN then unchecked (receive_ir_dyn ctx)
  else if type_eqb type FO_RTP && negb prefer_private_rtp_fo &&
          negb (profile_eqb (profile ctx) RTP_UDP_Lite) && negb (profile_eqb (profile ctx) Uncompressed) &&
          starts_with 0x80 0 packet && live_pt0_context_supported ctx large cid_ (pr_has_add_cid parsed)
  then receive_pt0 ctx
  else unchecked (receive_fo type ctx).

(** The packet built of a decoded header, in a buffer of its own where a PT-0
    packet is still to be checked. *)
Definition build_received (staged : bool) (r : Context * Z * option (Z * Z)) : outcome (Context * bytes) :=
  let '(c, header_len, crc) := r in
  let! payload := payload_after_header (decoder_packet parsed) header_len in
  match crc with
  | None => let! ip_packet := build_packet capacity c payload in Ok (c, ip_packet)
  | Some (received_crc, len) =>
      let! ip_packet := build_packet (if staged then capacity else Z.min capacity max_reconstructed_ip_packet) c payload in
      let! valid := header_crc_matches ip_packet len received_crc in
      check valid in
      Ok (c, ip_packet)
  end.

Definition receive_packet (staged : bool) (type : RohcPacketType) (prefer_private_rtp_fo : bool)
    : M DecompImpl (option bytes) :=
  ctx <- load_ctx cid_ ;;
  r <- lift (attempt (
    let! r := receive_header type prefer_private_rtp_fo ctx in
    build_received staged r)) ;;
  match r with
  | None => modify restore ;;; refuse
  | Some (c, ip_packet) => deliver c ip_packet
  end.
End Packet.

(** ** The call *)

Definition with_type (type : RohcPacketType) (p : ParsedRohcPacket) : ParsedRohcPacket :=
  mkParsed (pr_wire p) (pr_packet p) (pr_cid p) (pr_has_add_cid p) (pr_has_large_cid p) (pr_cid_len p) type (pr_profile_id p).
Definition with_cid (cid : Z) (p : ParsedRohcPacket) : ParsedRohcPacket :=
  mkParsed (pr_wire p) (pr_packet p) cid (pr_has_add_cid p) (pr_has_large_cid p) (pr_cid_len p) (pr_type p) (pr_profile_id p).

(** The packet parsed, and the integrity check value behind it. *)
Definition parse_authenticated (rohc_packet : bytes) : M DecompImpl (ParsedRohcPacket * bytes) :=
  d <- gets (fun d => d) ;;
  parsed <- lift (attempt (parse_rohc_packet rohc_packet (dx_large d))) ;;
  match parsed with
  | None => fail_with_feedback 0
  | Some parsed =>
      if dx_ipsec d && negb (type_eqb (pr_type parsed) Segment) && (0 <? dx_icv_len d) then
        if (sha256_digest_len <? dx_icv_len d) || (blen rohc_packet <? dx_icv_len d)
        then fail_with_feedback (pr_cid parsed)
        else
          let packet_len := blen rohc_packet - dx_icv_len d in
          received_icv <- lift (slice rohc_packet packet_len (dx_icv_len d)) ;;
          rohc_packet <- lift (slice rohc_packet 0 packet_len) ;;
          parsed <- lift (attempt (parse_rohc_packet rohc_packet (dx_large d))) ;;
          match parsed with
          | None => fail_with_feedback 0
          | Some parsed => ret (parsed, received_icv)
          end
      else ret (parsed, [])
  end.

(** The CID of a packet whose first octet may be a PT-0 packet on CID 0 as
    well as a first-order RTP packet with its CID inside. *)
Definition disambiguate_cid (d : DecompImpl) (parsed : ParsedRohcPacket) : outcome (ParsedRohcPacket * Z * option Context) :=
  let! cid_zero := attempt (table_get (dx_table d) 0) in
  let live_zero := match cid_zero with Some c => live_pt0_context_supported c false 0 false | None => false end in
  let parsed :=
    if negb (dx_large d) && negb (pr_has_add_cid parsed) && starts_with 0x80 0 (pr_packet parsed) && live_zero
    then with_cid 0 parsed else parsed in
  let! ctx := attempt (table_get (dx_table d) (pr_cid parsed)) in
  let no_context := match ctx with Some c => state_eqb (rohc_state c) NoContext | None => true end in
  if type_eqb (pr_type parsed) FO_RTP && negb (pr_has_add_cid parsed) && no_context then
    match cid_zero with
    | Some c => if state_eqb (rohc_state c) DynamicEstablished then Ok (parsed, 0, cid_zero) else Ok (parsed, pr_cid parsed, ctx)
    | None => Ok (parsed, pr_cid parsed, ctx)
    end
  else Ok (parsed, pr_cid parsed, ctx).

(** The context of the CID belongs to this channel. *)
Definition prepare_context (d : DecompImpl) (cid_ : Z) (ctx : Context) : Context :=
  let ctx := ctx <| cid := cid_ |> <| large_cid := dx_large d |> in
  if (tx_count ctx =? 0) && state_eqb (rohc_state ctx) NoContext then ctx <| mode := dx_mode d |> else ctx.

(** An established RTP context reads the octet 0 as a first-order packet. *)
Definition settle_type (large : bool) (before : Context) (parsed : ParsedRohcPacket) : ParsedRohcPacket :=
  let established_rtp_context := state_eqb (rohc_state before) DynamicEstablished &&
    (profile_eqb (profile before) RTP || profile_eqb (profile before) RTP_UDP_Lite) in
  if negb large && (pr_cid parsed =? 0) && type_eqb (pr_type parsed) PktUncompressed &&
     starts_with 0xFF 0 (pr_packet parsed) && established_rtp_context
  then with_type FO_RTP parsed else parsed.

(** [m], and what comes after it where it does not deliver a packet. *)
Definition or_else (m k : M DecompImpl (option bytes)) : M DecompImpl (option bytes) :=
  r <- m ;;
  match r with Some ip_packet => ret (Some ip_packet) | None => k end.

(** What is tried once the type is settled, in the order of the source; [again]
    takes the packet that segments were put together to. *)
Definition settled_parts (again : bytes -> M DecompImpl (option bytes)) (large : bool) (cid_ : Z)
    (before : Context) (mode_before : Mode) (capacity : Z) (icv : bytes) (pending : option Feedback)
    (staged : bool) (parsed : ParsedRohcPacket) : M DecompImpl (option bytes) :=
  let finish := finish_decoding cid_ before mode_before pending parsed in
  or_else (finish (rtp_pt0_crc7 large cid_ before capacity icv parsed)) (
  or_else (finish (esp_pt0_crc7 large cid_ before capacity icv parsed)) (
  or_else (finish (pt1_seq_id large cid_ before capacity icv parsed)) (
  or_else (finish (udp_pt0 large cid_ before capacity icv parsed staged)) (
  or_else (finish (esp_pt0 large cid_ before capacity icv parsed staged)) (
  or_else (finish (ip_pt0 large cid_ before capacity icv parsed staged)) (
  or_else (finish (rtp_pt0 large cid_ before capacity icv parsed staged)) (
  formal <- resolve_overlap large cid_ before mode_before parsed ;;
  let type := if formal : bool then FO_RTP else pr_type parsed in
  if type_eqb type PktFeedback then
    incoming <- lift (attempt (fst (read_feedback_packet (pr_packet parsed) true empty_feedback))) ;;
    match incoming with Some _ => lift Rej | None => fail_with_feedback cid_ end
  else if type_eqb type Segment then
    reassembled <- reassemble cid_ parsed ;;
    match reassembled with Some rohc_packet => again rohc_packet | None => ret None end
  else
    finish (receive_packet large cid_ before mode_before capacity icv parsed staged type
              (rtp_pt0_candidate large cid_ before parsed staged))))))))).

(** All that is tried; the two parts of the uncompressed profile come first. *)
Definition decode_parsed (again : bytes -> M DecompImpl (option bytes)) (large : bool) (cid_ : Z)
    (before : Context) (mode_before : Mode) (capacity : Z) (icv : bytes) (pending : option Feedback)
    (staged : bool) (parsed : ParsedRohcPacket) : M DecompImpl (option bytes) :=
  let finish := finish_decoding cid_ before mode_before pending parsed in
  or_else (finish (uncompressed_packet cid_ before capacity icv parsed)) (
  or_else (finish (uncompressed_ir large cid_ capacity icv parsed)) (
  settled_parts again large cid_ before mode_before capacity icv pending staged (settle_type large before parsed))).

(** One call; [again] decompresses a packet put together of segments.  The
    result is 0 with a packet, or 1 ([None]) for a segment that is not the last;
    [Rej] is -1, with no packet. *)
Definition decompress_call (again : bytes -> Z -> M DecompImpl (option bytes)) (rohc_packet : bytes)
    (capacity : Z) : M DecompImpl (option bytes) :=
  guard (negb (blen rohc_packet =? 0)) ;;;
  d <- gets (fun d => d) ;;
  let pending := if dx_has_feedback d then Some (dx_last_feedback d) else None in
  modify (fun d => d <| dx_has_feedback := false |>) ;;;
  prefix_len <- feedback_prefix_len (length rohc_packet) rohc_packet 0 ;;
  guard (negb (prefix_len =? blen rohc_packet)) ;;;
  rohc_packet <- lift (tail_from rohc_packet prefix_len) ;;
  r <- parse_authenticated rohc_packet ;;
  let '(parsed, icv) := r in
  d <- gets (fun d => d) ;;
  let staged := dx_ipsec d && (0 <? blen icv) in
  let capacity := if staged then Z.min capacity max_reconstructed_ip_packet else capacity in
  r <- lift (disambiguate_cid d parsed) ;;
  let '(parsed, cid_, ctx) := r in
  match ctx with
  | None => fail_with_feedback cid_
  | Some before =>
      store_ctx cid_ (prepare_context d cid_ before) ;;;
      decode_parsed (fun reassembled => again reassembled capacity)
        (dx_large d) cid_ before (dx_mode d) capacity icv pending staged parsed
  end.

(** A packet put together is at least two octets shorter than its segments, of
    which the last has its own header: the fuel is half the number of octets that
    can still be in segments. *)
Fixpoint rohc_decompress4 (fuel : nat) (rohc_packet : bytes) (capacity : Z) : M DecompImpl (option bytes) :=
  decompress_call (fun p c => match fuel with O => lift Ub | S fuel => rohc_decompress4 fuel p c end) rohc_packet capacity.
