(* ===== verification/Channel.v ===== *)
(** * Compressors and decompressors: src/c_api/rohc_c_api.cpp

    The handles of the C API: how they are made and configured, how the
    compressor's packets are cut into segments and carry an integrity check
    value, how feedback reaches the compressor's contexts, and the link-layer
    assisted packets of RFC 4362.  A null pointer is refused before anything
    else; the arguments here are what is behind the pointers. *)

From S2P Require Import Prelude Crc Cid Encoding Context Cursor EmitIr DecodeIr Lla.
From S2P Require Import Compressor Feedback Packets Sha256 PacketImage CompactGuards CompressApi DecompressApi.

(** ** The compressor *)

(** [rohccxx_internal::Compressor]; of the array [pending_segment] the octets
    of the packet that is being cut, of the key array the key.  The flag
    [suppress_segmentation] is set during inner calls only, which are a function
    of their own here. *)
Record CompImpl := mkComp {
  cx_direction : Direction; cx_mode : Mode; cx_table : ContextTable; cx_cid : Z; cx_large : bool;
  cx_mrru : Z; cx_pending : bytes; cx_pos : Z; cx_sequence : Z;
  cx_ipsec : bool; cx_algorithm : Z; cx_key : bytes; cx_icv_len : Z;
  cx_lla : bool; cx_contract : AssistingLayerContract; cx_flow : ZeroByteFlow }.

Definition eta_comp (c : CompImpl) : CompImpl :=
  mkComp (cx_direction c) (cx_mode c) (cx_table c) (cx_cid c) (cx_large c)
    (cx_mrru c) (cx_pending c) (cx_pos c) (cx_sequence c)
    (cx_ipsec c) (cx_algorithm c) (cx_key c) (cx_icv_len c) (cx_lla c) (cx_contract c) (cx_flow c).

#[export] Instance set_cx_mode : Settable CompImpl (@cx_mode) := ltac:(make_setter eta_comp cx_mode).
#[export] Instance set_cx_table : Settable CompImpl (@cx_table) := ltac:(make_setter eta_comp cx_table).
#[export] Instance set_cx_cid : Settable CompImpl (@cx_cid) := ltac:(make_setter eta_comp cx_cid).
#[export] Instance set_cx_mrru : Settable CompImpl (@cx_mrru) := ltac:(make_setter eta_comp cx_mrru).
#[export] Instance set_cx_pending : Settable CompImpl (@cx_pending) := ltac:(make_setter eta_comp cx_pending).
#[export] Instance set_cx_pos : Settable CompImpl (@cx_pos) := ltac:(make_setter eta_comp cx_pos).
#[export] Instance set_cx_sequence : Settable CompImpl (@cx_sequence) := ltac:(make_setter eta_comp cx_sequence).
#[export] Instance set_cx_ipsec : Settable CompImpl (@cx_ipsec) := ltac:(make_setter eta_comp cx_ipsec).
#[export] Instance set_cx_algorithm : Settable CompImpl (@cx_algorithm) := ltac:(make_setter eta_comp cx_algorithm).
#[export] Instance set_cx_key : Settable CompImpl (@cx_key) := ltac:(make_setter eta_comp cx_key).
#[export] Instance set_cx_icv_len : Settable CompImpl (@cx_icv_len) := ltac:(make_setter eta_comp cx_icv_len).
#[export] Instance set_cx_lla : Settable CompImpl (@cx_lla) := ltac:(make_setter eta_comp cx_lla).
#[export] Instance set_cx_contract : Settable CompImpl (@cx_contract) := ltac:(make_setter eta_comp cx_contract).
#[export] Instance set_cx_flow : Settable CompImpl (@cx_flow) := ltac:(make_setter eta_comp cx_flow).

Definition rohcoipsec_key_max : Z := 128.

(** The context of a CID, if the table has it. *)
Definition find_context (t : ContextTable) (cid : Z) : outcome (option Context) := attempt (table_get t cid).

(** *** Making and configuring both ends *)

Definition rohc_comp_new2 (max_cid_ : Z) (d : Direction) : outcome CompImpl :=
  check negb (large_cid_max <? max_cid_) in
  Ok (mkComp d Optimistic (table_init max_cid_) 0 (small_cid_max <? max_cid_)
        0 [] 0 0 false None_ [] 0 false no_contract no_flow).

Definition rohc_decomp_new2 (max_cid_ : Z) (d : Direction) : outcome DecompImpl :=
  check negb (large_cid_max <? max_cid_) in
  Ok (mkDecomp d Optimistic (table_init max_cid_) (small_cid_max <? max_cid_)
        empty_feedback false false 0 false [] 0 false None_ [] 0 false no_contract no_flow).

(** [rohccxx_mode_t], which a caller may have outside its three values. *)
Definition c_mode_to_core (mode : Z) : outcome Mode :=
  if mode =? 0 then Ok ModeUncompressed else if mode =? 1 then Ok Optimistic else if mode =? 2 then Ok Reliable else Rej.

Definition core_mode_to_c (mode : Mode) : Z := mode_val mode.

(** The algorithm, key and length of the check value that are stored. *)
Definition configure_rohcoipsec (algorithm : Z) (key : bytes) (icv_len : Z) : outcome (Z * bytes * Z) :=
  check negb (rohcoipsec_key_max <? blen key) in
  let full_len := digest_len algorithm in
  let none := algorithm =? None_ in
  check negb (negb none && ((full_len =? 0) || (icv_len =? 0) || (full_len <? icv_len) || (blen key =? 0))) in
  Ok (algorithm, key, if none then 0 else icv_len).

Definition rohc_comp_set_cid (cid : Z) : M CompImpl unit :=
  c <- gets (fun c => c) ;;
  guard (negb (max_cid (cx_table c) <? cid)) ;;;
  guard (negb (negb (cx_large c) && (small_cid_max <? cid))) ;;;
  guard (negb (cx_large c && (large_cid_max <? cid))) ;;;
  modify (fun c => c <| cx_cid := cid |>).

Definition rohc_comp_set_mode (mode_ : Z) : M CompImpl unit :=
  core_mode <- lift (c_mode_to_core mode_) ;;
  modify (fun c => c <| cx_mode := core_mode |>) ;;;
  c <- gets (fun c => c) ;;
  ctx <- lift (find_context (cx_table c) (cx_cid c)) ;;
  match ctx with
  | None => ret tt
  | Some ctx => modify (fun c => c <| cx_table := table_set (cx_table c) (cx_cid c) (ctx <| mode := core_mode |>) |>)
  end.

Definition rohc_comp_set_mrru (mrru : Z) : M CompImpl unit :=
  guard (negb (segment_buffer_max <? mrru)) ;;;
  modify (fun c => c <| cx_mrru := mrru |>).

Definition rohc_comp_set_rohcoipsec_integrity (algorithm : Z) (key : bytes) (icv_len : Z) : M CompImpl unit :=
  r <- lift (configure_rohcoipsec algorithm key icv_len) ;;
  let '(a, k, n) := r in
  modify (fun c => c <| cx_algorithm := a |> <| cx_key := k |> <| cx_icv_len := n |> <| cx_ipsec := true |>).

Definition rohc_comp_enable_rohcoipsec : M CompImpl unit := rohc_comp_set_rohcoipsec_integrity None_ [] 0.

Definition rohc_decomp_set_mode (mode_ : Z) : M DecompImpl unit :=
  core_mode <- lift (c_mode_to_core mode_) ;;
  modify (fun d => d <| dx_mode := core_mode |>).

Definition rohc_decomp_set_context_refresh_ack_enabled (enabled : bool) : M DecompImpl unit :=
  modify (fun d => d <| dx_ack_refresh := enabled |>).

Definition rohc_decomp_set_mrru (mrru : Z) : M DecompImpl unit :=
  guard (negb (segment_buffer_max <? mrru)) ;;;
  modify (fun d => d <| dx_mrru := mrru |>).

Definition rohc_decomp_set_rohcoipsec_integrity (algorithm : Z) (key : bytes) (icv_len : Z) : M DecompImpl unit :=
  r <- lift (configure_rohcoipsec algorithm key icv_len) ;;
  let '(a, k, n) := r in
  modify (fun d => d <| dx_algorithm := a |> <| dx_key := k |> <| dx_icv_len := n |> <| dx_ipsec := true |>).

Definition rohc_decomp_enable_rohcoipsec : M DecompImpl unit := rohc_decomp_set_rohcoipsec_integrity None_ [] 0.

(** *** Segments *)

Definition write_next_segment (capacity : Z) : M CompImpl bytes :=
  c <- gets (fun c => c) ;;
  guard (negb ((capacity <=? segment_header_len) || (blen (cx_pending c) <=? cx_pos c))) ;;;
  let payload_capacity := capacity - segment_header_len in
  let remaining := blen (cx_pending c) - cx_pos c in
  let payload_len := if remaining <? payload_capacity then remaining else payload_capacity in
  let final := payload_len =? remaining in
  modify (fun c => c <| cx_sequence := u16 (cx_sequence c + 1) |>) ;;;
  payload <- lift (slice (cx_pending c) (cx_pos c) payload_len) ;;
  packet <- lift (match write_segment_packet (mkSegment final (cx_sequence c)) payload {| w_out := []; w_cap := capacity |} with
                  | (Ok _, s) => Ok (w_out s) | (Rej, _) => Rej | (Ub, _) => Ub end) ;;
  modify (fun c => c <| cx_pos := cx_pos c + payload_len |>) ;;;
  (if final then modify (fun c => c <| cx_pending := [] |> <| cx_pos := 0 |>) else ret tt) ;;;
  ret packet.

Definition rohc_comp_has_segment (c : CompImpl) : bool := cx_pos c <? blen (cx_pending c).
Definition rohc_comp_get_segment (capacity : Z) : M CompImpl bytes := write_next_segment capacity.

(** *** One packet *)

(** [rohc_compress4] with segmentation suppressed. *)
Definition compress_whole (ip_packet : bytes) (capacity : Z) : M CompImpl bytes := fun c =>
  match table_get (cx_table c) (cx_cid c) with
  | Ok ctx =>
      match compress4 (cx_cid c) (cx_large c) (cx_mode c) ip_packet capacity ctx with
      | (o, ctx') => (o, c <| cx_table := table_set (cx_table c) (cx_cid c) ctx' |>)
      end
  | Rej => (Rej, c)
  | Ub => (Ub, c)
  end.

Definition rohc_compress4 (ip_packet : bytes) (requested_capacity : Z) : M CompImpl bytes :=
  guard (negb (requested_capacity <=? segment_header_len)) ;;;
  full_packet <- compress_whole ip_packet segment_buffer_max ;;
  c <- gets (fun c => c) ;;
  full_packet <-
    (if cx_ipsec c then
       lift (append_icv (cx_algorithm c) (cx_key c) ip_packet full_packet segment_buffer_max (cx_icv_len c))
     else ret full_packet) ;;
  if blen full_packet <=? requested_capacity then ret full_packet
  else
    guard (negb ((cx_mrru c =? 0) || (cx_mrru c <? blen full_packet) || (segment_buffer_max <? blen full_packet))) ;;;
    modify (fun c => c <| cx_pending := full_packet |> <| cx_pos := 0 |> <| cx_sequence := 0 |>) ;;;
    write_next_segment requested_capacity.

(** *** Feedback *)

Definition apply_at (cid : Z) (ctx : Context) (f : Feedback) : M CompImpl unit :=
  modify (fun c => c <| cx_table := table_set (cx_table c) cid (apply_feedback_to_context ctx f) |>).

Definition feedback_type_of (value : Z) : FeedbackType :=
  if value =? 0 then NACK else if value =? 1 then STATIC_NACK else ACK.

Definition rohc_comp_handle_feedback (cid : Z) (feedback_type : Z) : M CompImpl unit :=
  if negb (is_known_feedback_type feedback_type) then ret tt else
  c <- gets (fun c => c) ;;
  ctx <- lift (find_context (cx_table c) cid) ;;
  match ctx with
  | None => ret tt
  | Some ctx => apply_at cid ctx (empty_feedback <| f_cid := cid |> <| f_type := feedback_type_of (Z.land feedback_type 0x03) |>)
  end.

(** The feedback packets in front of [packet], each of two octets at least;
    the result is whether one was for this compressor. *)
Fixpoint deliver_packets (fuel : nat) (packet : bytes) (pos : Z) (delivered : bool) : M CompImpl bool :=
  if negb (pos <? blen packet) then ret delivered else
  first <- lift (rd packet pos) ;;
  if negb (is_feedback_packet_start first) then ret delivered else
  match fuel with
  | O => lift Ub
  | S fuel =>
      rest <- lift (tail_from packet pos) ;;
      let '(o, f) := read_feedback_prefix rest empty_feedback in
      consumed <- lift o ;;
      (if has_mode f then modify (fun c => c <| cx_mode := f_mode f |>) else ret tt) ;;;
      c <- gets (fun c => c) ;;
      ctx <- lift (find_context (cx_table c) (f_cid f)) ;;
      match ctx with
      | Some ctx => apply_at (f_cid f) ctx f ;;; deliver_packets fuel packet (pos + consumed) true
      | None => deliver_packets fuel packet (pos + consumed) (has_mode f || delivered)
      end
  end.

Definition rohc_comp_deliver_feedback_packet (packet : bytes) : M CompImpl unit :=
  guard (negb (blen packet =? 0)) ;;;
  delivered <- deliver_packets (length packet) packet 0 false ;;
  guard delivered.

(** [rohccxx_feedback_v1_t]; of the array [raw] the octets a caller filled in. *)
Record FeedbackV1 := mkFeedbackV1 {
  v_api_version : Z; v_struct_size : Z; v_channel : Z; v_cid : Z; v_feedback_type : Z;
  v_acknowledgment_number : Z; v_acknowledgment_bits : Z; v_acknowledgment_valid : Z;
  v_crc_present : Z; v_crc_valid : Z; v_raw_len : Z; v_raw : bytes }.

Definition feedback_api_v1 : Z := 1.
Definition feedback_raw_max : Z := 260.
(** [sizeof(rohccxx_feedback_v1_t)] where [size_t] has 64 bits. *)
Definition feedback_v1_size : Z := 320.

Definition direction_val (d : Direction) : Z := match d with Uplink => 0 | Downlink => 1 end.
Definition feedback_type_val (t : FeedbackType) : Z := match t with NACK => 0 | STATIC_NACK => 1 | ACK => 2 end.
Definition bool_val (b : bool) : Z := if b then 1 else 0.

Definition feedback_v1_header_valid (f : FeedbackV1) : bool :=
  (v_api_version f =? feedback_api_v1) && (feedback_v1_size <=? v_struct_size f).

(** What is known of feedback to send, with its octets where it has some. *)
Definition feedback_core_to_c (channel : Z) (core : Feedback) : outcome (FeedbackStatus * FeedbackV1) :=
  let out raw valid :=
    mkFeedbackV1 feedback_api_v1 feedback_v1_size channel (f_cid core) (feedback_type_val (f_type core))
      (acknowledgment_number core) (acknowledgment_bits core) (bool_val (acknowledgment_valid core))
      1 valid (blen raw) raw in
  match write_feedback2_v1 core {| w_out := []; w_cap := feedback_raw_max |} with
  | (Ok _, s) => Ok (Accepted, out (w_out s) 1)
  | (Rej, s) => Ok (Unsupported, out [] 0)
  | (Ub, _) => Ub
  end.

(** The caller's structure is filled in unless the arguments are refused. *)
Definition rohc_feedback_parse_v1 (channel : Z) (packet : bytes) : outcome (FeedbackStatus * option FeedbackV1) :=
  if (blen packet =? 0) || (feedback_raw_max <? blen packet) || (negb (channel =? 0) && negb (channel =? 1))
  then Ok (Malformed, None)
  else
    let '(o, core) := read_feedback2_v1 packet false empty_feedback in
    let! r := o in
    Ok (fst r, Some (mkFeedbackV1 feedback_api_v1 feedback_v1_size channel (f_cid core) (feedback_type_val (f_type core))
      (acknowledgment_number core) (acknowledgment_bits core) (bool_val (acknowledgment_valid core))
      (bool_val (crc_present core)) (bool_val (crc_valid core)) (blen packet) packet)).

(** The fields a caller must not have changed since it parsed the octets. *)
Definition same_fields (a b : FeedbackV1) : bool :=
  (v_cid a =? v_cid b) && (v_feedback_type a =? v_feedback_type b) &&
  (v_acknowledgment_number a =? v_acknowledgment_number b) && (v_acknowledgment_bits a =? v_acknowledgment_bits b) &&
  (v_acknowledgment_valid a =? v_acknowledgment_valid b) && (v_crc_present a =? v_crc_present b) &&
  (v_crc_valid a =? v_crc_valid b).

(** Feedback for a packet the context remembers, of its current revision and
    near enough for a compact packet. *)
Definition correlate (context : Context) (parsed : FeedbackV1) : outcome (FeedbackStatus + Context) :=
  let! found := attempt (transmitted_msn_revision context (v_acknowledgment_number parsed) (v_acknowledgment_bits parsed)) in
  match found with
  | None => Ok (inl Stale)
  | Some (acknowledged_revision, acknowledged_msn) =>
      if negb (acknowledged_revision =? context_revision context) then Ok (inl Stale) else
      let context_distance := u16 (msn context - acknowledged_msn) in
      if profile_uses_formal_pt0 (profile context) && (formal_pt0_forward_limit context <? context_distance)
      then Ok (inl Stale)
      else
        let '(o, core) := read_feedback2_v1 (v_raw parsed) false empty_feedback in
        let! r := o in
        match fst r with
        | Accepted =>
            Ok (inr (apply_feedback_to_context context
              (core <| acknowledged_context_revision := acknowledged_revision |> <| context_revision_valid := true |>
                    <| acknowledged_context_distance := context_distance |> <| context_distance_valid := true |>)))
        | status => Ok (inl status)
        end
  end.

Definition rohc_comp_deliver_feedback_v1 (feedback : FeedbackV1) : M CompImpl FeedbackStatus :=
  if negb (feedback_v1_header_valid feedback) || (v_raw_len feedback =? 0) || (feedback_raw_max <? v_raw_len feedback)
  then ret Malformed else
  c <- gets (fun c => c) ;;
  if negb (v_channel feedback =? direction_val (cx_direction c)) then ret Uncorrelated else
  raw <- lift (slice (v_raw feedback) 0 (v_raw_len feedback)) ;;
  r <- lift (rohc_feedback_parse_v1 (v_channel feedback) raw) ;;
  match r with
  | (Accepted, Some parsed) =>
      if negb (same_fields parsed feedback) then ret Malformed
      else if v_acknowledgment_valid parsed =? 0 then ret Uncorrelated
      else
        context <- lift (find_context (cx_table c) (v_cid parsed)) ;;
        match context with
        | None => ret Uncorrelated
        | Some context =>
            answer <- lift (correlate context parsed) ;;
            match answer with
            | inl status => ret status
            | inr context =>
                modify (fun c => c <| cx_table := table_set (cx_table c) (v_cid parsed) context |>) ;;;
                ret Accepted
            end
        end
  | (status, _) => ret status
  end.

Definition rohc_decomp_get_feedback (d : DecompImpl) : outcome (Z * Z) :=
  check dx_has_feedback d in
  Ok (f_cid (dx_last_feedback d), feedback_type_val (f_type (dx_last_feedback d))).

Definition rohc_decomp_get_feedback_v1 (d : DecompImpl) : outcome (FeedbackStatus * option FeedbackV1) :=
  if negb (dx_has_feedback d) then Ok (Uncorrelated, None) else
  let! r := feedback_core_to_c (direction_val (dx_direction d)) (dx_last_feedback d) in
  Ok (fst r, Some (snd r)).

(** *** RFC 4362: packets an assisting layer carries *)

Definition rohc_comp_enable_rfc4362_lla (contract : AssistingLayerContract) (flow : ZeroByteFlow) : M CompImpl unit :=
  guard (lla_runtime_contract_valid contract flow) ;;;
  modify (fun c => c <| cx_contract := contract |> <| cx_flow := flow |> <| cx_lla := true |>).

Definition rohc_decomp_enable_rfc4362_lla (contract : AssistingLayerContract) (flow : ZeroByteFlow) : M DecompImpl unit :=
  guard (lla_runtime_contract_valid contract flow) ;;;
  modify (fun d => d <| dx_contract := contract |> <| dx_flow := flow |> <| dx_lla := true |>).

(** The context one packet later, with a stride of 160 until one is known. *)
Definition next_rtp_context (ctx : Context) : Context :=
  let ctx := ctx <| rtp := rtp ctx <| last_seq := u16 (last_seq (rtp ctx) + 1) |> |> in
  let ctx := if (ip_version ctx =? 4) && ipv4_id_sequential ctx then ctx <| ipv4_id := u16 (ipv4_id ctx + 1) |> else ctx in
  ctx <| rtp := rtp ctx
    <| last_ts := u32 (last_ts (rtp ctx) + (if negb (ts_stride (rtp ctx) =? 0) then ts_stride (rtp ctx) else 160)) |> |>.

(** A packet of no octets, where the receiver will build this very header. *)
Definition rohc_comp_rfc4362_emit_nhp (ip_packet : bytes) : M CompImpl unit :=
  c <- gets (fun c => c) ;;
  guard (cx_lla c && can_emit_no_header_packet_for_flow (cx_contract c) (cx_flow c)) ;;;
  ctx <- lift (table_get (cx_table c) (cx_cid c)) ;;
  guard (lla_context_ready ctx) ;;;
  guard (negb (mode_eqb (mode ctx) Reliable && negb (dynamic_acked ctx))) ;;;
  guard (negb (blen ip_packet <? 40)) ;;;
  expected_header <- lift (build_fixed_rtp_ipv4_header (next_rtp_context ctx) (blen ip_packet - 40)) ;;
  header <- lift (slice ip_packet 0 40) ;;
  guard (bytes_eqb expected_header header) ;;;
  compress_whole ip_packet segment_buffer_max ;;;
  ret tt.

(** The RTP payload behind headers that parse, or none. *)
Definition rtp_payload_length (ip_packet : bytes) : outcome Z :=
  let! view := attempt (parse_ip_view ip_packet) in
  match view with
  | None => Ok 0
  | Some v =>
      let h := view_header_len v in
      if negb (udp_parse ip_packet h) then Ok 0 else
      let! rtp := rtp_parse ip_packet (h + 8) in
      Ok (if rtp : bool then (if h + 20 <? blen ip_packet then blen ip_packet - (h + 20) else 0) else 0)
  end.

Definition rohc_comp_rfc4362_emit_csp (ip_packet : bytes) (capacity : Z) : M CompImpl bytes :=
  c <- gets (fun c => c) ;;
  guard (cx_lla c && can_emit_context_synchronization_packet (cx_contract c)) ;;;
  rohc_header <- compress_whole ip_packet segment_buffer_max ;;
  payload_len <- lift (rtp_payload_length ip_packet) ;;
  guard (negb (0xFFFF <? payload_len)) ;;;
  lift (write_context_synchronization_packet capacity payload_len rohc_header).

Definition rohc_comp_rfc4362_emit_ccp (capacity : Z) : M CompImpl bytes :=
  c <- gets (fun c => c) ;;
  guard (cx_lla c && can_emit_context_check_packet (cx_contract c)) ;;;
  ctx <- lift (table_get (cx_table c) (cx_cid c)) ;;
  guard (lla_context_established ctx) ;;;
  crc <- lift (context_crc7 ctx) ;;
  lift (write_context_check_packet capacity {| has_crc := true; ccp_crc7 := crc |}).

(** The context moves before the packet is built, and stays moved. *)
Definition rohc_decomp_rfc4362_receive_nhp_for_cid (cid_ : Z) (payload : bytes) (capacity : Z) : M DecompImpl bytes :=
  d <- gets (fun d => d) ;;
  guard (dx_lla d && can_emit_no_header_packet_for_flow (dx_contract d) (dx_flow d)) ;;;
  ctx <- load_ctx cid_ ;;
  guard (lla_context_ready ctx) ;;;
  let ctx := next_rtp_context ctx in
  store_ctx cid_ ctx ;;;
  packet <- lift (attempt (if ip_version ctx =? 6 then build_ipv6_rtp_packet capacity ctx payload
                           else build_rtp_packet capacity ctx payload)) ;;
  match packet with
  | None => fail_with_feedback (cid ctx)
  | Some ip_packet => modify (fun d => d <| dx_has_feedback := false |>) ;;; ret ip_packet
  end.

Definition rohc_decomp_rfc4362_receive_csp (fuel : nat) (csp_packet : bytes) (capacity : Z) : M DecompImpl (option bytes) :=
  d <- gets (fun d => d) ;;
  guard (dx_lla d && can_emit_context_synchronization_packet (dx_contract d)) ;;;
  csp <- lift (attempt (
    let! csp := read_context_synchronization_packet csp_packet in
    check negb (blen (rohc_header csp) =? 0) in Ok csp)) ;;
  match csp with
  | None => fail_with_feedback 0
  | Some csp => rohc_decompress4 fuel (rohc_header csp) capacity
  end.

Definition rohc_decomp_rfc4362_receive_ccp_for_cid (cid_ : Z) (ccp_packet : bytes) : M DecompImpl unit :=
  d <- gets (fun d => d) ;;
  guard (dx_lla d && can_emit_context_check_packet (dx_contract d)) ;;;
  ccp <- lift (attempt (
    let! ccp := read_context_check_packet ccp_packet in check has_crc ccp in Ok ccp)) ;;
  match ccp with
  | None => fail_with_feedback cid_
  | Some ccp =>
      ctx <- lift (find_context (dx_table d) cid_) ;;
      match ctx with
      | Some ctx =>
          if negb (lla_context_established ctx) then set_feedback cid_ STATIC_NACK ;;; lift Rej else
          crc <- lift (context_crc7 ctx) ;;
          if negb (ccp_crc7 ccp =? crc) then set_feedback (cid ctx) STATIC_NACK ;;; lift Rej
          else modify (fun d => d <| dx_has_feedback := false |>)
      | None => set_feedback cid_ STATIC_NACK ;;; lift Rej
      end
  end.

Definition rohc_decomp_rfc4362_report_loss (cid_ : Z) : M DecompImpl unit :=
  d <- gets (fun d => d) ;;
  guard (dx_lla d && reports_loss (dx_contract d)) ;;;
  set_feedback cid_ NACK.

Definition rohc_decomp_rfc4362_report_residual_error (cid_ : Z) : M DecompImpl unit :=
  d <- gets (fun d => d) ;;
  guard (dx_lla d && reports_residual_errors (dx_contract d)) ;;;
  set_feedback cid_ STATIC_NACK.
