(* ===== verification/ReceiveSafe.v ===== *)
(** * What reading a packet answers

    On any octets, and in any well-formed context, each reading of a received
    packet - the compact formats, the first-order formats, IR and IR-DYN -
    stays inside its buffers and answers a well-formed context and a packet no
    longer than asked for, or refuses. *)

From S2P Require Import Prelude Crc Cid Bits Encoding Context Cursor Chains EmitIr Safety Lla.
From S2P Require Import DecodeIr DecodeIrDyn IrProperties PrivateFo RtpFo Compressor Feedback Packets FormalCo PacketImage.
From S2P Require Import CompactGuards CompressApi EmitSafety DecompressApi.

#[local] Hint Extern 5 (byte_ok _) => ok_side : ctxok.
#[local] Hint Extern 5 (_ <= _ < _) => ok_side : ctxok.
#[local] Hint Resolve u16_ok u32_range : ctxok.

(** ** Results *)

(** A context the decompressor may store, with a packet that fits. *)
Definition image_ok (capacity : Z) (r : Context * bytes) : Prop := context_ok (fst r) /\ blen (snd r) <= capacity.
(** A context with where the payload starts. *)
Definition header_in (n : Z) (r : Context * Z) : Prop := context_ok (fst r) /\ 0 <= snd r <= n.

Lemma yields_ok {A} (a : A) (P : A -> Prop) : P a -> yields (Ok a) P.
Proof. done. Qed.

Lemma yields_no_ub {A} (o : outcome A) P : yields o P -> o <> Ub.
Proof. by destruct o. Qed.

Lemma yields_any {A} (o : outcome A) : o <> Ub -> yields o (fun _ => True).
Proof. by destruct o. Qed.

Lemma yields_attempt {A} (o : outcome A) P : yields o P ->
  yields (attempt o) (fun r => match r with Some a => P a | None => True end).
Proof. by destruct o. Qed.

Lemma yields_succeeds {A} (o : outcome A) P : yields o P -> yields (succeeds o) (fun _ => True).
Proof. by destruct o. Qed.

Lemma yields_if {A} (b : bool) (o1 o2 : outcome A) P : yields o1 P -> yields o2 P -> yields (if b then o1 else o2) P.
Proof. by destruct b. Qed.

(** ** Rebuilding packets *)

Lemma payload_in inp n : 0 <= n -> bytes_ok inp ->
  yields (payload_after_header inp n) (fun p => bytes_ok p /\ blen p = blen inp - n).
Proof.
  intros Hn Hb. unfold payload_after_header. apply yields_guard. intros G. bool_prop.
  destruct (tail_from_in_range inp n) as (p & -> & L & H); [lia|]. cbn. auto.
Qed.

Lemma ok_lengths c : context_ok c -> 0 <= ipv4_options_len c <= 40 /\ 0 <= ipv6_extension_len c <= 128 /\
  blen (ipv4_options c) = 40 /\ blen (ipv6_extensions c) = 128.
Proof. unfold context_ok, ipv4_ok, ipv6_ok, blen. intros H. decompose [and] H. split_and!; lia. Qed.

Lemma ipv4_octets_len c protocol total csum : context_ok c ->
  exists o, ipv4_octets c protocol total csum = Ok o /\ blen o = 20 + ipv4_options_len c.
Proof.
  intros Hc. destruct (ok_lengths c Hc) as (H & _ & L & _). unfold ipv4_octets.
  destruct (slice_in_range (ipv4_options c) 0 (ipv4_options_len c)) as (o & -> & Lo & _); [lia..|].
  cbn [obind]. eexists. split; [done|]. autorewrite with blen. lia.
Qed.

Lemma ipv4_header_len c protocol total : context_ok c ->
  yields (ipv4_header c protocol total) (fun h => blen h = 20 + ipv4_options_len c).
Proof.
  intros Hc. destruct (ok_lengths c Hc) as (H & _). unfold ipv4_header.
  destruct (ipv4_octets_len c protocol (u16 total) 0 Hc) as (o & -> & L). cbn [obind].
  destruct (header_checksum_total o (20 + ipv4_options_len c)) as (v & ->); [lia|]. cbn [obind].
  by destruct (ipv4_octets_len c protocol (u16 total) v Hc) as (h & -> & Lh).
Qed.

Lemma ipv6_header_len c total upper : context_ok c ->
  yields (build_ipv6_header total c upper) (fun h => blen h = 40 + ipv6_extension_len c).
Proof.
  intros Hc. destruct (ok_lengths c Hc) as (_ & H & _ & L), (ok_ipv6_saddr c Hc) as [Ls _], (ok_ipv6_daddr c Hc) as [Ld _].
  unfold build_ipv6_header. apply yields_guard. intros _.
  destruct (slice_in_range (ipv6_extensions c) 0 (ipv6_extension_len c)) as (o & -> & Lo & _); [lia..|].
  cbn. autorewrite with blen. lia.
Qed.

Lemma udp_octets_len c n : blen (udp_octets c n) = 8.
Proof. done. Qed.
Lemma rtp_octets_len c : blen (rtp_octets c) = 12.
Proof. done. Qed.
Lemma esp_octets_len c : blen (esp_octets c) = 8.
Proof. done. Qed.
#[local] Hint Rewrite udp_octets_len rtp_octets_len esp_octets_len : blen.

Lemma layout_in c : context_ok c ->
  yields (rtp_context_payload_layout c) (fun r => let '(k, x, q) := r in
    forall payload, yields (rtp_body c k x q payload) (fun b => blen b = 12 + k + x + blen payload + q)).
Proof.
  intros Hc. unfold rtp_context_payload_layout. pose proof (extras_body_len_safe c Hc) as Hs.
  pose proof (extras_bounds c Hc) as Hb. destruct (rtp_extras_body_len c) as [n| |]; [|done..]. cbn [obind yields].
  destruct (Hb n eq_refl) as (Hk & Hx & Hq). pose proof (ok_rtp c Hc) as H. unfold rtp_ok in H. decompose [and] H.
  assert (Y : forall payload, yields (rtp_body c (csrc_list_len (rtp c)) (extension_len (rtp c)) (padding_len (rtp c)) payload)
    (fun b => blen b = 12 + csrc_list_len (rtp c) + extension_len (rtp c) + blen payload + padding_len (rtp c))).
  { intros payload. unfold rtp_body.
    destruct (slice_in_range (csrc_list (rtp c)) 0 (csrc_list_len (rtp c))) as (a & -> & La & _); [unfold blen in *; lia..|].
    destruct (slice_in_range (extension_bytes (rtp c)) 0 (extension_len (rtp c))) as (b & -> & Lb & _); [unfold blen in *; lia..|].
    destruct (slice_in_range (padding_bytes (rtp c)) 0 (padding_len (rtp c))) as (d & -> & Ld & _); [unfold blen in *; lia..|].
    cbn. autorewrite with blen. lia. }
  exact Y.
Qed.

Lemma sizes_in capacity c before upper :
  yields (ipv6_sizes capacity c before upper)
    (fun s => snd s = 40 + ipv6_extension_len c + before + upper /\ snd s <= capacity).
Proof.
  unfold ipv6_sizes, checked_packet_size. apply (yields_bind _ _ (fun _ => True)); [by apply yields_guard|].
  intros n _. apply yields_guard. intros _.
  apply (yields_bind _ _ (fun t => t = 40 + ipv6_extension_len c + before + upper)); [by apply yields_guard|].
  intros t ->. apply yields_guard. intros G. bool_prop. done.
Qed.


Section Builders.
Context (capacity : Z) (c : Context) (payload : bytes).
Hypothesis Hc : context_ok c.

Let fits : bytes -> Prop := fun ip => blen ip <= capacity.

(** The size of an IPv4 packet, checked against the buffer. *)
Lemma sized base upper {B} (k : Z -> outcome B) P :
  (forall n, n = base + upper -> n <= capacity -> yields (k n) P) ->
  yields (let! total := checked_packet_size base upper in
          check negb (0xFFFF <? total) in check negb (capacity <? total) in k total) P.
Proof.
  intros H. apply (yields_bind _ _ (fun t => t = base + upper)); [unfold checked_packet_size; by apply yields_guard|].
  intros n ->. apply yields_guard. intros _. apply yields_guard. intros G. bool_prop. by apply H.
Qed.

Ltac built := cbn [yields]; subst fits; cbv beta in *; autorewrite with blen; lia.

Lemma build_ip_safe : yields (build_ip_packet capacity c payload) fits.
Proof.
  unfold build_ip_packet. apply sized. intros n -> Hn.
  eapply yields_bind; [by apply ipv4_header_len|]. intros h Hh. built.
Qed.

Lemma build_udp_safe : yields (build_udp_packet capacity c payload) fits.
Proof.
  unfold build_udp_packet. apply sized. intros n -> Hn.
  eapply yields_bind; [by apply ipv4_header_len|]. intros h Hh. built.
Qed.

Lemma build_rtp_safe : yields (build_rtp_packet capacity c payload) fits.
Proof.
  unfold build_rtp_packet. eapply yields_bind; [by apply layout_in|]. intros [[k x] q] Hb.
  apply yields_guard. intros _. apply sized. intros n -> Hn.
  eapply yields_bind; [by apply ipv4_header_len|]. intros h Hh.
  eapply yields_bind; [apply Hb|]. intros b Lb. built.
Qed.

Lemma build_ipv6_ip_safe : yields (build_ipv6_ip_packet capacity c payload) fits.
Proof.
  unfold build_ipv6_ip_packet. eapply yields_bind; [apply sizes_in|]. intros s [Hs Hn].
  eapply yields_bind; [by apply ipv6_header_len|]. intros h Hh. built.
Qed.

Lemma build_ipv6_udp_safe : yields (build_ipv6_udp_packet capacity c payload) fits.
Proof.
  unfold build_ipv6_udp_packet. eapply yields_bind; [apply sizes_in|]. intros s [Hs Hn].
  eapply yields_bind; [by apply ipv6_header_len|]. intros h Hh. built.
Qed.

Lemma build_ipv6_rtp_safe : yields (build_ipv6_rtp_packet capacity c payload) fits.
Proof.
  unfold build_ipv6_rtp_packet. eapply yields_bind; [by apply layout_in|]. intros [[k x] q] Hb.
  apply yields_guard. intros _. eapply yields_bind; [apply sizes_in|]. intros s [Hs Hn].
  eapply yields_bind; [by apply ipv6_header_len|]. intros h Hh.
  eapply yields_bind; [apply Hb|]. intros b Lb. built.
Qed.
End Builders.

Lemma build_esp_safe capacity c payload : context_ok c ->
  yields (build_esp_packet capacity c payload) (fun ip => blen ip <= capacity).
Proof.
  intros Hc. unfold build_esp_packet. do 3 (apply yields_guard; intros _).
  apply yields_if; [by apply build_ipv6_ip_safe|by apply build_ip_safe].
Qed.

(** A packet built for the caller is no longer than the caller's buffer. *)
Lemma build_packet_safe capacity c payload : context_ok c ->
  yields (build_packet capacity c payload) (fun ip => blen ip <= capacity).
Proof.
  intros Hc. unfold build_packet. destruct (profile c); repeat (destruct (_ : bool));
    auto using build_ip_safe, build_udp_safe, build_rtp_safe, build_esp_safe,
      build_ipv6_ip_safe, build_ipv6_udp_safe, build_ipv6_rtp_safe.
Qed.

Lemma fixed_headers c n :
  yields (build_fixed_udp_ipv4_header c n) (fun h => blen h = 28) /\
  yields (build_fixed_ip_ipv4_header c n) (fun h => blen h = 20) /\
  yields (build_fixed_esp_ipv4_header c n) (fun h => blen h = 28) /\
  yields (build_fixed_rtp_ipv4_header c n) (fun h => blen h = 40).
Proof.
  destruct (fixed_headers_safe c n) as [Hu Hi]. split; [done|]. split; [done|].
  unfold build_fixed_esp_ipv4_header, build_fixed_rtp_ipv4_header. split; apply yields_guard; intros _.
  - by destruct (fixed_header_len c 50 (28 + n) (esp_octets c)) as (h & -> & E).
  - by destruct (fixed_header_len c 17 (40 + n) (udp_octets c (u16 (20 + n)) ++ rtp_octets c)) as (h & -> & E).
Qed.

Lemma rebuilt_fits capacity header payload : yields (rebuilt_in capacity header payload) (fun ip => blen ip <= capacity).
Proof. unfold rebuilt_in. apply yields_guard. intros G. bool_prop. cbn. rewrite blen_app. lia. Qed.

(** ** The base octets of a compact packet *)

Lemma wp_read base pos k q (Q : Z -> rst -> Prop) R : 0 <= k <= 8 -> 0 <= pos <= 32 -> pos + k <= 8 * blen base ->
  (forall v, Q v (reader_at base (pos + k), q)) -> wp (read k) Q R (reader_at base pos, q).
Proof. intros Hk Hp Hl HQ. unfold wp. by rewrite read_value by lia. Qed.

(** A step of a reader of fields. *)
Ltac field_step :=
  lazymatch goal with
  | |- wp (read_tag _ _) _ _ _ => unfold read_tag
  | |- wp (read_msn _) _ _ _ => unfold read_msn
  | |- wp (read_ip_id _) _ _ _ => unfold read_ip_id
  | |- wp (read_crc _) _ _ _ => unfold read_crc
  | |- wp (read _) _ _ _ => apply wp_read; [lia..|intros ?]
  | |- wp (store _) _ _ _ => unfold store; apply wp_modify; cbn [fst snd]
  | |- wp (guard _) _ _ _ => apply wp_guard; intros _; [|exact I]
  | |- _ => wp_step
  end.

(** The live formats of one or two octets, read of a packet as long. *)
Lemma read_base_safe n p v packet : v = Pt0Crc3 /\ n = 1 \/ (v = Pt0Crc7 \/ v = Pt1SeqId) /\ n = 2 -> n <= blen packet ->
  yields (read_base n p v packet) (fun _ => True).
Proof.
  intros Hv Hl. unfold read_base. set (m := read_formal_co_base n p v). set (s := (_, no_packet)).
  assert (W : wp m (fun _ _ => True) (fun _ => True) s).
  { subst m s. unfold read_formal_co_base. rewrite reader_start.
    destruct Hv as [[-> ->]|[[-> | ->] ->]]; repeat field_step; exact I. }
  unfold wp in W. by destruct (m s) as [[u| |] s'].
Qed.

(** ** Sequence numbers *)

Lemma forward_msn_safe c lsb width :
  yields (decode_forward_formal_msn c lsb width) (fun m => 0 <= m < 2 ^ 16).
Proof.
  unfold decode_forward_formal_msn. apply yields_guard. intros _. cbv zeta.
  eapply yields_bind; [apply yields_any, lsb_with_p_no_ub|]. intros d _. apply yields_guard. intros _. apply u16_ok.
Qed.

Lemma forward_pt0_safe c lsb : yields (decode_forward_formal_pt0_msn c lsb) (fun m => 0 <= m < 2 ^ 16).
Proof.
  unfold decode_forward_formal_pt0_msn. apply yields_guard. intros _. cbv zeta.
  eapply yields_bind; [apply yields_any, lsb_with_p_no_ub|]. intros d _. apply yields_guard. intros _. apply u16_ok.
Qed.

Lemma ip_id_lsb_safe lsb sequence reference width p :
  yields (decode_ip_id_offset_lsb_with_p lsb sequence reference width p) (fun i => 0 <= i < 2 ^ 16).
Proof.
  unfold decode_ip_id_offset_lsb_with_p. eapply yields_bind; [apply yields_any, lsb_with_p_no_ub|].
  intros o _. apply u16_ok.
Qed.

Lemma advance_id_ok delta c : context_ok c -> context_ok (advance_id delta c).
Proof. intros H. unfold advance_id. auto with ctxok. Qed.
Lemma advance_sequential_id_ok delta c : context_ok c -> context_ok (advance_sequential_id delta c).
Proof. intros H. unfold advance_sequential_id. destruct (_ =? 0); [by apply advance_id_ok|done]. Qed.
Lemma advance_esp_ok delta c : context_ok c -> context_ok (advance_esp delta c).
Proof. intros H. unfold advance_esp. auto with ctxok. Qed.
Lemma advance_rtp_ok m delta c : 0 <= m < 2 ^ 16 -> context_ok c -> context_ok (advance_rtp m delta c).
Proof. intros Hm H. unfold advance_rtp. auto 10 with ctxok. Qed.
#[local] Hint Resolve advance_id_ok advance_sequential_id_ok advance_esp_ok advance_rtp_ok : ctxok.

(** ** One reading at a time *)

Section Reading.
Context (large : bool) (cid_ : Z) (before : Context) (capacity : Z) (parsed : ParsedRohcPacket).
Let packet : bytes := pr_packet parsed.
Hypotheses (Hbefore : context_ok before) (Hb : bytes_ok packet) (Hs : blen packet < 2 ^ 60).

Ltac guarded := apply yields_guard; intros.

Lemma carried_safe n c : 0 <= n -> context_ok c ->
  yields (carried_checksum packet n c) (fun r => context_ok (fst r) /\ n <= snd r).
Proof.
  intros Hn Hc. unfold carried_checksum. destruct (udp_checksum_used c); [|cbn; split; [done|lia]].
  guarded. bool_prop. eapply yields_bind; [apply yields_rd_u16; [done|lia|lia]|]. intros v Hv.
  cbn [yields fst snd]. split; [auto with ctxok|lia].
Qed.

Lemma rtp_pt0_crc7_safe : 2 <= blen packet -> yields (rtp_pt0_crc7_candidate before capacity parsed) (image_ok capacity).
Proof.
  intros Hl. unfold rtp_pt0_crc7_candidate. fold packet. guarded.
  eapply yields_bind; [apply read_base_safe; [auto|done]|]. intros formal _.
  eapply yields_bind; [apply forward_msn_safe|]. intros m Hm. cbv beta zeta in *.
  eapply yields_bind; [apply payload_in; [lia|done]|]. intros payload _.
  eapply yields_bind; [apply fixed_headers|]. intros h _. guarded.
  eapply yields_bind; [apply rebuilt_fits|]. intros ip Hip. split; [|done]. cbn [fst]. auto 10 with ctxok.
Qed.

Lemma esp_pt0_crc7_safe : 2 <= blen packet -> yields (esp_pt0_crc7_candidate before capacity parsed) (image_ok capacity).
Proof.
  intros Hl. unfold esp_pt0_crc7_candidate. fold packet.
  eapply yields_bind; [apply read_base_safe; [auto|done]|]. intros formal _.
  eapply yields_bind; [apply forward_msn_safe|]. intros m Hm. cbv beta zeta in *.
  eapply yields_bind; [apply payload_in; [lia|done]|]. intros payload _.
  eapply yields_bind; [apply fixed_headers|]. intros h _. guarded.
  eapply yields_bind; [apply rebuilt_fits|]. intros ip Hip. split; [|done]. cbn [fst]. auto 10 with ctxok.
Qed.

Lemma build_fixed_safe c n : yields (build_fixed_header c n) (fun _ => True).
Proof.
  unfold build_fixed_header. repeat apply yields_if; eapply yields_mono; try (by intros); apply fixed_headers.
Qed.

Lemma pt1_seq_id_safe : 2 <= blen packet -> yields (pt1_seq_id_candidate before capacity parsed) (image_ok capacity).
Proof.
  intros Hl. unfold pt1_seq_id_candidate. fold packet.
  eapply yields_bind; [apply read_base_safe; [auto|done]|]. intros formal _.
  eapply yields_bind; [apply forward_msn_safe|]. intros m Hm.
  eapply yields_bind; [apply ip_id_lsb_safe|]. intros i Hi. cbv beta zeta in *.
  set (c := if profile_eqb (profile before) ESP then _ else _).
  assert (Hc : context_ok c) by (subst c; destruct (profile_eqb _ _); auto 10 with ctxok).
  apply (yields_bind _ _ (fun r => context_ok (fst r) /\ 2 <= snd r)).
  { apply yields_if; [by apply carried_safe|]. cbn. split; [done|lia]. }
  intros [c' n] [Hc' Hn]. cbn [fst snd] in *.
  eapply yields_bind; [apply payload_in; [lia|done]|]. intros payload _.
  eapply yields_bind; [apply build_fixed_safe|]. intros h _. guarded.
  eapply yields_bind; [apply rebuilt_fits|]. intros ip Hip. by split.
Qed.

(** A formal reading: a context, a header of [n] octets and a payload. *)
Definition reading_ok (n : Z) (r : Context * bytes * bytes) : Prop :=
  let '(c, header, payload) := r in context_ok c /\ blen header = n /\ bytes_ok payload.

Lemma pt0_msn_safe p o sequential :
  yields (pt0_msn before p o sequential) (fun r => let '(_, m, _) := r in 0 <= m < 2 ^ 16).
Proof.
  unfold pt0_msn. eapply yields_bind; [apply read_base_safe; [auto|done]|]. intros formal _.
  guarded. eapply yields_bind; [apply forward_pt0_safe|]. intros m Hm. by do 2 guarded.
Qed.

Lemma udp_pt0_formal_safe o : yields (udp_pt0_formal before parsed o) (reading_ok 28).
Proof.
  unfold udp_pt0_formal. fold packet. eapply yields_bind; [apply pt0_msn_safe|]. intros [[formal m] delta] Hm.
  eapply yields_bind; [apply (carried_safe 1); [lia|auto 10 with ctxok]|]. intros [c n] [Hc Hn]. cbn [fst snd] in *.
  eapply yields_bind; [apply payload_in; [lia|done]|]. intros payload [Hp _].
  eapply yields_bind; [apply fixed_headers|]. intros h Hh. by guarded.
Qed.

Lemma esp_pt0_formal_safe o : yields (esp_pt0_formal before parsed o) (reading_ok 28).
Proof.
  unfold esp_pt0_formal. fold packet. guarded. eapply yields_bind; [apply pt0_msn_safe|]. intros [[formal m] delta] Hm.
  cbv zeta. eapply yields_bind; [apply payload_in; [lia|done]|]. intros payload [Hp _].
  eapply yields_bind; [apply fixed_headers|]. intros h Hh. guarded. split; [auto 10 with ctxok|done].
Qed.

Lemma ip_pt0_formal_safe o : yields (ip_pt0_formal before parsed o) (reading_ok 20).
Proof.
  unfold ip_pt0_formal. fold packet. eapply yields_bind; [apply pt0_msn_safe|]. intros [[formal m] delta] Hm.
  cbv zeta. eapply yields_bind; [apply payload_in; [lia|done]|]. intros payload [Hp _].
  eapply yields_bind; [apply fixed_headers|]. intros h Hh. guarded. split; [auto 10 with ctxok|done].
Qed.

Lemma rtp_pt0_formal_safe o ctx : context_ok ctx -> yields (rtp_pt0_formal before parsed o ctx) (reading_ok 40).
Proof.
  intros Hctx. unfold rtp_pt0_formal. fold packet. guarded. eapply yields_bind; [apply pt0_msn_safe|].
  intros [[formal m] delta] Hm. cbv zeta. eapply yields_bind; [apply payload_in; [lia|done]|]. intros payload [Hp _].
  eapply yields_bind; [apply fixed_headers|]. intros h Hh. guarded. split; [auto 10 with ctxok|done].
Qed.

(** *** First-order readings *)

Lemma packet_size : size_ok (blen packet).
Proof. unfold size_ok. pose proof (blen_nonneg packet). lia. Qed.

Lemma fo_reading_safe p : yields (run_decoder (decode_fo p) packet before) (header_in (blen packet)).
Proof. apply decode_fo_yields; [done|apply packet_size|done]. Qed.

Lemma private_of_safe p o : yields o (header_in (blen packet)) -> yields (private_of p o) (header_in (blen packet)).
Proof. intros H. unfold private_of. eapply yields_bind; [exact H|]. intros r Hr. by guarded. Qed.

Lemma private_reading_safe : yields (private_reading before parsed) (header_in (blen packet)).
Proof.
  unfold private_reading. destruct (pr_type parsed); try exact I;
    [apply (fo_reading_safe FoUDP)|apply (fo_reading_safe FoIP)|apply (fo_reading_safe FoESP)].
Qed.

Lemma private_udp_image_safe r : header_in (blen packet) r -> yields (private_udp_image parsed r) (fun _ => True).
Proof.
  intros [_ Hn]. unfold private_udp_image. fold packet.
  eapply yields_bind; [apply payload_in; [lia|done]|]. intros payload _.
  eapply yields_bind; [apply fixed_headers|]. intros h Hh. destruct (udp_checksum_total h [] payload Hh) as (v & ->). done.
Qed.

Lemma fo_accept_ok seq ts c : context_ok c -> 0 <= seq < 2 ^ 16 -> 0 <= ts < 2 ^ 32 -> context_ok (fo_accept seq ts c).
Proof.
  intros Hc Hq Ht. unfold fo_accept, LsbWindow.update. cbv zeta. set (c1 := c <| rtp := _ |>).
  assert (H1 : context_ok c1) by (subst c1; auto 10 with ctxok). clearbody c1.
  destruct (_ && _); auto 10 with ctxok.
Qed.

(** What a first-order RTP packet leaves, for a context that may read it. *)
Lemma rtp_fo_reading ctx : context_ok ctx ->
  match decode_fo_rtp packet ctx with
  | (Ok (seq, ts, n), c) => context_ok c /\ 0 <= seq < 2 ^ 16 /\ 0 < n <= blen packet
  | (Rej, _) => True
  | (Ub, _) => False
  end.
Proof.
  intros Hc. pose proof (decode_fo_safe packet ctx Hb Hs) as H. unfold wp in H.
  destruct (decode_fo_rtp packet ctx) as [[[[seq ts] n]| |] c]; [|done..].
  destruct H as (-> & ? & ? & ?). split_and!; try lia. by apply fo_accept_ok.
Qed.

Lemma private_rtp_safe ctx : context_ok ctx -> yields (private_rtp parsed ctx) (fun _ => True).
Proof.
  intros Hc. unfold private_rtp. fold packet. guarded. pose proof (rtp_fo_reading ctx Hc) as F.
  destruct (decode_fo_rtp packet ctx) as [[[[seq ts] n]| |] c]; [|done..]. destruct F as (_ & _ & Hn).
  eapply yields_bind; [apply payload_in; [lia|done]|]. intros payload _.
  by eapply yields_bind; [apply fixed_headers|].
Qed.

Lemma legacy_ip_crc_safe : exists b, legacy_private_ip_fo_crc_valid packet = Ok b.
Proof.
  unfold legacy_private_ip_fo_crc_valid. destruct (Z.ltb_spec (blen packet) 4); [by eexists|].
  rewrite rd_nth by lia. cbn [obind]. destruct (negb _); [by eexists|].
  destruct (slice_in_range packet 0 4) as (h & -> & L & _); [lia..|]. cbn [obind]. rewrite rd_nth by lia. by eexists.
Qed.

(** *** The two meanings of a first-order marker *)

Lemma reconstruct_safe c n : context_ok c -> 0 <= n -> yields (reconstruct_tentative parsed c n) (fun _ => True).
Proof.
  intros Hc Hn. unfold reconstruct_tentative. fold packet.
  eapply yields_bind; [by apply payload_in|]. intros payload _.
  destruct (profile c); try exact I; [| |destruct (legacy_esp_payload_includes_header c)|];
    (eapply yields_mono; [by eauto using build_rtp_safe, build_udp_safe, build_ip_safe, build_esp_safe|done]).
Qed.

Lemma header_crc_safe ip len crc : 0 <= len -> yields (header_crc_matches ip len crc) (fun _ => True).
Proof.
  intros Hl. unfold header_crc_matches. destruct (Z.ltb_spec (blen ip) len); [done|].
  by destruct (slice_in_range ip 0 len) as (h & -> & _); [lia..|].
Qed.

Lemma crc_header_len_nonneg p : 0 <= crc_header_len p.
Proof. unfold crc_header_len. repeat destruct (_ : bool); lia. Qed.

Lemma pt0_context_safe m delta c : context_ok c -> 0 <= m < 2 ^ 16 ->
  yields (pt0_context parsed m delta c) (fun r => context_ok (fst r) /\ 1 <= snd r).
Proof.
  intros Hc Hm. unfold pt0_context. fold packet. cbv zeta.
  set (c1 := advance_sequential_id _ _). assert (H1 : context_ok c1) by (subst c1; auto with ctxok). clearbody c1.
  set (c2 := if profile_eqb (profile c1) ESP then _ else _).
  assert (H2 : context_ok c2) by (subst c2; destruct (profile_eqb _ _); auto with ctxok). clearbody c2.
  set (c3 := if profile_eqb (profile c2) RTP then _ else _).
  assert (H3 : context_ok c3) by (subst c3; destruct (profile_eqb _ _); auto with ctxok). clearbody c3.
  apply yields_if; [by apply carried_safe|cbn; split; [done|lia]].
Qed.

Lemma try_formal_safe : 1 <= blen packet -> yields (try_formal_pt0 before parsed) (fun _ => True).
Proof.
  intros Hl. unfold try_formal_pt0. fold packet.
  eapply yields_bind; [apply read_base_safe; [auto|done]|]. intros formal _.
  eapply yields_bind; [apply forward_pt0_safe|]. intros m Hm. cbv zeta. guarded.
  eapply yields_bind; [by apply pt0_context_safe|]. intros [c n] [Hc Hn]. cbn [fst snd] in *.
  eapply yields_bind; [apply reconstruct_safe; [done|lia]|]. intros ip _.
  eapply yields_bind; [apply header_crc_safe, crc_header_len_nonneg|]. intros v _. by destruct v.
Qed.

Lemma try_private_safe : yields (try_private_fo before parsed) (fun _ => True).
Proof.
  unfold try_private_fo. fold packet. apply (yields_bind _ _ (header_in (blen packet))).
  - destruct (pr_type parsed); try exact I; apply private_of_safe;
      [apply (fo_reading_safe FoUDP)|apply (fo_reading_safe FoIP)|apply (fo_reading_safe FoESP)].
  - intros [c n] [Hc Hn]. cbn [fst snd] in *. by eapply yields_bind; [apply reconstruct_safe; [done|lia]|].
Qed.
End Reading.

(** ** A packet's header, by its type *)

Section Header.
Context (large : bool) (cid_ : Z) (before : Context) (parsed : ParsedRohcPacket).
Let packet : bytes := pr_packet parsed.
Let whole : bytes := decoder_packet parsed.
Hypotheses (Hcid : 0 <= cid_ < 2 ^ 32) (Hbefore : context_ok before).
Hypotheses (Hb : bytes_ok packet) (Hs : blen packet < 2 ^ 60).
Hypotheses (Hwb : bytes_ok whole) (Hws : size_ok (blen whole)).

Ltac guarded := apply yields_guard; intros.

(** A decoded header: where the payload starts. *)
Definition placed (r : Context * Z) : Prop := context_ok (fst r) /\ 0 <= snd r.

Lemma decoded_placed (o : outcome (Context * Z)) n :
  match o with Ok (c, k) => context_ok c /\ 0 <= k <= n | Rej => True | Ub => False end -> yields o placed.
Proof. destruct o as [[c k]| |]; cbn; [|done..]. intros [? ?]. split; [done|cbn; lia]. Qed.

Lemma run_placed (d : bytes -> M dst Z) ctx : decodes whole (d whole) ctx -> yields (run_decoder d whole ctx) placed.
Proof. intros H. eapply decoded_placed, run_decoder_safe, H. Qed.

Lemma ir_decoder_safe p ctx : context_ok ctx -> yields (ir_decoder parsed p ctx) placed.
Proof.
  intros Hc. unfold ir_decoder. fold whole.
  destruct p; try exact I.
  - by apply (decoded_placed _ (blen whole)), (compatible_safe StdRTP).
  - by apply (decoded_placed _ (blen whole)), (compatible_safe StdUDP).
  - by apply (decoded_placed _ (blen whole)), (compatible_safe StdESP).
  - by apply (decoded_placed _ (blen whole)), (compatible_safe StdIP).
  - by apply run_placed, safe_rtp_udp_lite_legacy.
  - by apply run_placed, safe_udp_lite_legacy.
Qed.

Lemma ir_dyn_decoder_safe p ctx : context_ok ctx -> yields (ir_dyn_decoder parsed p ctx) placed.
Proof.
  intros Hc. unfold ir_dyn_decoder. fold whole. destruct p; try exact I; apply run_placed.
  - by apply safe_dyn_rtp.
  - by apply safe_dyn_udp.
  - by apply safe_dyn_esp.
  - by apply safe_dyn_ip_profile.
  - by apply safe_dyn_rtp_udp_lite.
  - by apply safe_dyn_udp_lite.
Qed.

Lemma ir_context_ok p ctx : context_ok ctx -> context_ok (ir_context large cid_ before p ctx).
Proof.
  intros Hc. pose proof initial_context_ok. unfold ir_context.
  destruct (_ && _); [auto 10 with ctxok|]. destruct (_ && _); auto 10 with ctxok.
Qed.

Lemma after_ir_ok p c : context_ok c -> context_ok (after_ir cid_ before p c).
Proof. intros Hc. unfold after_ir. repeat destruct (_ && _); auto 10 with ctxok; destruct (profile_eqb _ _); auto 10 with ctxok. Qed.

Lemma receive_ir_safe ctx : context_ok ctx -> yields (receive_ir large cid_ before parsed ctx) placed.
Proof.
  intros Hc. unfold receive_ir. destruct (incoming_profile parsed) as [p|]; [|done].
  eapply yields_bind; [by apply ir_decoder_safe, ir_context_ok|]. intros [c n] [H Hn]. split; [by apply after_ir_ok|done].
Qed.

Lemma receive_ir_dyn_safe ctx : context_ok ctx -> yields (receive_ir_dyn before parsed ctx) placed.
Proof.
  intros Hc. unfold receive_ir_dyn. destruct (incoming_profile parsed) as [p|]; [|done].
  eapply yields_bind; [by apply ir_dyn_decoder_safe|]. intros [c n] [H Hn]. cbn [fst snd] in *.
  split; cbn [fst snd]; [|done]. destruct (profile_eqb _ _); auto 10 with ctxok.
Qed.

(** Any decoded header, with the CRC that is still to be checked. *)
Definition pending (r : Context * Z * option (Z * Z)) : Prop :=
  placed (fst r) /\ match snd r with Some (_, len) => 0 <= len | None => True end.

Lemma unchecked_safe o : yields o placed -> yields (unchecked o) pending.
Proof. intros H. unfold unchecked. eapply yields_bind; [exact H|]. intros [c n] Hr. by split. Qed.

Lemma receive_pt0_safe ctx : context_ok ctx -> 1 <= blen packet -> yields (receive_pt0 parsed ctx) pending.
Proof.
  intros Hc Hl. unfold receive_pt0. fold packet. guarded.
  eapply yields_bind; [apply read_base_safe; [auto|done]|]. intros formal _. guarded.
  eapply yields_bind; [apply forward_pt0_safe|]. intros m Hm. cbv zeta. do 2 guarded.
  eapply yields_bind; [by apply pt0_context_safe|]. intros [c n] [Hc' Hn]. cbn [fst snd] in *.
  split; [split; cbn [fst snd]; [|lia]|apply crc_header_len_nonneg].
  destruct (profile_eqb (profile c) UDP); auto with ctxok.
Qed.

Lemma receive_private_rtp_safe ctx : context_ok ctx -> yields (receive_private_rtp large before parsed ctx) placed.
Proof.
  intros Hc. unfold receive_private_rtp. fold packet. guarded. pose proof (rtp_fo_reading parsed Hb Hs ctx Hc) as F.
  destruct (decode_fo_rtp _ ctx) as [[[[seq ts] n]| |] c]; [|done..]. destruct F as (Hc' & Hq & Hn).
  guarded. split; cbn [fst snd]; [auto with ctxok|lia].
Qed.

Lemma update_id_behavior_ok c had id : context_ok c -> context_ok (update_ipv4_id_behavior c had id).
Proof.
  intros Hc. unfold update_ipv4_id_behavior. destruct (negb _); [done|]. cbv zeta.
  apply ok_set_ipv4_id_sequential, ok_set_ipv4_id_behavior; [done|]. repeat destruct (_ : bool); unfold byte_ok; lia.
Qed.

Lemma receive_fo_safe type ctx : context_ok ctx -> yields (receive_fo large before parsed type ctx) placed.
Proof.
  intros Hc. assert (F : forall p, yields (run_decoder (decode_fo p) packet ctx) placed).
  { intros p. eapply yields_mono; [by apply (fo_reading_safe ctx parsed)|]. intros [c n] [? ?]. by split; [|cbn [snd] in *; lia]. }
  unfold receive_fo. fold packet. destruct type; try exact I.
  - by apply receive_private_rtp_safe.
  - guarded. eapply yields_bind; [apply (F FoUDP)|]. intros [c n] [H1 H2]. split; [|done]. cbn [fst snd] in *. auto with ctxok.
  - guarded. eapply yields_bind; [apply (F FoIP)|]. intros [c n] [H1 H2]. split; [|done]. cbn [fst snd] in *.
    apply update_id_behavior_ok. auto with ctxok.
  - guarded. apply (F FoESP).
  - guarded. apply (F FoUDPLite).
Qed.

Lemma receive_header_safe type prefer ctx : context_ok ctx -> 1 <= blen packet ->
  yields (receive_header large cid_ before parsed type prefer ctx) pending.
Proof.
  intros Hc Hl. unfold receive_header.
  repeat apply yields_if; [by apply unchecked_safe, receive_ir_safe|by apply unchecked_safe, receive_ir_dyn_safe|
    by apply receive_pt0_safe|by apply unchecked_safe, receive_fo_safe].
Qed.

Lemma build_received_safe capacity staged r : pending r -> yields (build_received capacity parsed staged r) (image_ok capacity).
Proof.
  intros [[Hc Hn] Hl]. destruct r as [[c n] crc]. cbn [fst snd] in *. unfold build_received. fold whole.
  eapply yields_bind; [by apply payload_in|]. intros payload _. destruct crc as [[crc len]|].
  - eapply yields_bind; [by apply build_packet_safe|]. intros ip Hip.
    eapply yields_bind; [by apply header_crc_safe|]. intros v _. guarded. split; [done|]. cbn in *. destruct staged; lia.
  - eapply yields_bind; [by apply build_packet_safe|]. intros ip Hip. by split.
Qed.
End Header.
