(* ===== verification/DecompressSafe.v ===== *)
(** * What rohc_decompress4 promises

    A call on any octets ends without undefined behaviour and leaves a
    well-formed decompressor.  A packet it delivers fits the caller's buffer and
    changes at most the context of one CID; where it delivers none, every
    context is as before but for its channel's own fields. *)

From S2P Require Import Prelude Crc Cid Bits Encoding Context Cursor Chains EmitIr Safety Lla.
From S2P Require Import DecodeIr DecodeIrDyn IrProperties PrivateFo RtpFo Compressor Feedback FeedbackPackets Packets.
From S2P Require Import Sha256 FormalCo PacketImage CompactGuards CompressApi EmitSafety CompressFaithful DecompressApi ReceiveSafe.

#[local] Hint Extern 5 (byte_ok _) => ok_side : ctxok.
#[local] Hint Extern 5 (_ <= _ < _) => ok_side : ctxok.
#[local] Hint Resolve u16_ok u32_range : ctxok.

(** ** Well-formed decompressors *)

Definition contexts_ok (t : ContextTable) : Prop :=
  0 <= max_cid t < 2 ^ 32 /\ length (table t) = Z.to_nat (max_cid t + 1) /\ Forall context_ok (table t).

Definition decomp_ok (d : DecompImpl) : Prop :=
  contexts_ok (dx_table d) /\ (bytes_ok (dx_reassembly d) /\ blen (dx_reassembly d) <= segment_buffer_max) /\
  bytes_ok (dx_key d) /\ 0 <= dx_icv_len d.

(** A part that leaves the packet to the next. *)
Lemma or_else_none m k s : m s = (Ok None, s) -> or_else m k s = k s.
Proof. intros H. unfold or_else. by erewrite bind_ok by exact H. Qed.

Lemma table_get_in t i : contexts_ok t -> 0 <= i <= max_cid t -> exists c, table_get t i = Ok c /\ context_ok c.
Proof.
  intros (H0 & Hl & Hf) Hi. unfold table_get. rewrite (proj2 (Z.ltb_ge _ _)) by lia.
  destruct (lookup_lt_is_Some_2 (table t) (Z.to_nat i)) as [c E]; [lia|]. rewrite E. exists c. split; [done|].
  by eapply Forall_lookup_1.
Qed.

Lemma table_get_total t i : contexts_ok t -> 0 <= i -> yields (table_get t i) (fun c => context_ok c /\ i <= max_cid t).
Proof.
  intros Ht Hi. destruct (Z.leb_spec i (max_cid t)).
  - by destruct (table_get_in t i Ht ltac:(lia)) as (c & -> & Hc).
  - unfold table_get. by rewrite (proj2 (Z.ltb_lt _ _)) by lia.
Qed.

Lemma contexts_ok_set t i c : contexts_ok t -> context_ok c -> contexts_ok (table_set t i c).
Proof.
  intros (H0 & Hl & Hf) Hc. unfold contexts_ok, table_set. cbn [table max_cid].
  rewrite length_insert. split_and!; [lia..|]. by apply Forall_insert.
Qed.

Lemma compute_icv_safe algorithm key data n : bytes_ok key -> 0 <= n ->
  yields (compute_icv algorithm key data n) (fun d => blen d <= 32 /\ bytes_ok d).
Proof.
  intros Hk Hn. destruct (Z.eqb_spec algorithm None_) as [->|Ha]; [by split; [|constructor]|].
  destruct (Z.eqb_spec algorithm HmacSha256) as [->|Hh]; cycle 1.
  { unfold compute_icv. rewrite (proj2 (Z.eqb_neq _ None_)), (proj2 (Z.eqb_neq _ HmacSha256)) by done. done. }
  destruct (Z.leb_spec n 32); cycle 1.
  { unfold compute_icv. change (HmacSha256 =? None_) with false. change (HmacSha256 =? HmacSha256) with true.
    unfold sha256_digest_len. by rewrite (proj2 (Z.ltb_lt 32 n)) by lia. }
  destruct (Z.leb_spec (blen data) 4096).
  - rewrite compute_icv_hmac by (done || lia). cbn [yields]. unfold hmac_sha256.
    match goal with |- context [digest_of ?m] => destruct (sha256_digest m) as (_ & Ld & Hd) end.
    split; [unfold blen; rewrite length_take; lia|by apply bytes_ok_take].
  - pose proof (compute_icv_hmac key [] n Hk ltac:(lia) ltac:(done)) as E. unfold compute_icv in *.
    change (HmacSha256 =? None_) with false in *. change (HmacSha256 =? HmacSha256) with true in *. cbv iota in *.
    destruct (oguard _); cbn [obind] in *; [|done..]. destruct (if 64 <? blen key then _ else _); cbn [obind] in *; [|done..].
    by rewrite (proj2 (Z.ltb_lt 4096 _)) by lia.
Qed.

(** ** The context of the packet's CID may change, the others do not *)

Section At.
Context (cid_ : Z) (before : Context).

Definition here (s : DecompImpl) : Prop := decomp_ok s /\ 0 <= cid_ <= max_cid (dx_table s).

Definition leaves (s s' : DecompImpl) : Prop :=
  here s' /\ table_set (dx_table s') cid_ before = table_set (dx_table s) cid_ before.

Lemma leaves_refl s : here s -> leaves s s.
Proof. by split. Qed.

Lemma leaves_trans s1 s2 s3 : leaves s1 s2 -> leaves s2 s3 -> leaves s1 s3.
Proof. intros [_ E1] [H E2]. split; [done|congruence]. Qed.

Lemma leaves_store s s' c : leaves s s' -> context_ok c ->
  leaves s (s' <| dx_table := table_set (dx_table s') cid_ c |>).
Proof.
  intros [((Ht & H) & Hi) E] Hc. split; [|by cbn; rewrite table_set_set].
  split; [|done]. split; [by apply contexts_ok_set|done].
Qed.

Lemma wp_store s s' c (Q : unit -> DecompImpl -> Prop) R : leaves s s' -> context_ok c ->
  (forall s'', leaves s s'' -> Q tt s'') -> wp (store_ctx cid_ c) Q R s'.
Proof. intros Hs Hc HQ. apply wp_modify, HQ. by apply leaves_store. Qed.

Lemma wp_load s (Q : Context -> DecompImpl -> Prop) R : here s ->
  (forall c, context_ok c -> Q c s) -> wp (load_ctx cid_) Q R s.
Proof.
  intros [[Ht _] Hi] HQ. unfold load_ctx. do 2 wp_step. apply wp_lift.
  destruct (table_get_in _ _ Ht Hi) as (c & -> & Hc). by apply HQ.
Qed.

Lemma wp_set_feedback s s' i ty (Q : unit -> DecompImpl -> Prop) R : leaves s s' -> 0 <= i ->
  (forall s'', leaves s s'' -> Q tt s'') -> wp (set_feedback i ty) Q R s'.
Proof.
  intros H Hi HQ. unfold set_feedback. do 3 wp_step. apply wp_lift. unfold acknowledging.
  pose proof (table_get_total (dx_table s') i ltac:(apply H) Hi) as T.
  destruct (table_get (dx_table s') i); cbn in T; [|..|done]; (wp_step; by apply HQ).
Qed.

Lemma wp_fail {A} s s' i (Q : A -> DecompImpl -> Prop) : leaves s s' -> 0 <= i ->
  wp (fail_with_feedback i) Q (leaves s) s'.
Proof. intros H Hi. unfold fail_with_feedback. wp_step. eapply wp_set_feedback; [done..|]. intros s'' H''. by apply wp_lift. Qed.

(** A computation on the side. *)
Lemma wp_attempt {A} (o : outcome A) P (Q : option A -> DecompImpl -> Prop) R s : yields o P ->
  Q None s -> (forall a, P a -> Q (Some a) s) -> wp (lift (attempt o)) Q R s.
Proof. intros H H0 H1. apply wp_lift. destruct o; cbn in *; auto. Qed.
End At.

Section Packet.
Context (large : bool) (cid_ : Z) (before : Context) (mode_before : Mode) (capacity : Z)
  (icv : bytes) (pending_ : option Feedback) (parsed : ParsedRohcPacket).
Let packet : bytes := pr_packet parsed.
Let whole : bytes := decoder_packet parsed.
Hypotheses (Hcid : 0 <= cid_ < 2 ^ 32) (Hpcid : 0 <= pr_cid parsed) (Hbefore : context_ok before).
Hypotheses (Hb : bytes_ok packet) (Hs : blen packet < 2 ^ 60) (Hwb : bytes_ok whole) (Hws : size_ok (blen whole)).
Hypotheses (Hicv : blen icv <= 32) (Hicvb : bytes_ok icv).

(** Either nothing is delivered and nothing has changed, or a packet that fits
    is, and at most this context has. *)
Definition part_post (s : DecompImpl) (r : option bytes) (s' : DecompImpl) : Prop :=
  match r with None => s' = s | Some ip => blen ip <= capacity /\ leaves cid_ before s s' end.
Definition part_ok (m : M DecompImpl (option bytes)) : Prop :=
  forall s, here cid_ s -> wp m (part_post s) (leaves cid_ before s) s.

Lemma wp_verify s s' ip (Q : unit -> DecompImpl -> Prop) : leaves cid_ before s s' -> Q tt s' ->
  wp (verify_rohcoipsec_icv icv parsed ip) Q (leaves cid_ before s) s'.
Proof.
  intros H HQ. unfold verify_rohcoipsec_icv. do 2 wp_step. wp_step; [by wp_step|].
  wp_step. eapply (wp_attempt _ (fun _ => True)).
  - eapply yields_bind; [apply compute_icv_safe; [apply H|apply blen_nonneg]|]. intros d [Hd Hdb].
    unfold sha256_digest_len in *. destruct (overwrite_ok (repeat 0 (Z.to_nat 32)) d) as (arr & -> & La & Ha);
      [rewrite repeat_length; unfold blen in Hd; lia|apply zeros_ok|done|].
    cbn [obind]. rewrite repeat_length in La. rewrite constant_time_equal_spec; [done..| |lia].
    unfold blen at 3. rewrite La. pose proof (blen_nonneg icv). lia.
  - eapply wp_fail; done.
  - intros [] _; [by wp_step|]. eapply wp_fail; done.
Qed.

Lemma refuse_ok : part_ok (refuse cid_).
Proof. intros s H. eapply wp_fail; [by apply leaves_refl|lia]. Qed.

Lemma skip_ok : part_ok (ret None).
Proof. intros s H. by wp_step. Qed.

Lemma part_if (b : bool) m1 m2 : (b = true -> part_ok m1) -> (b = false -> part_ok m2) -> part_ok (if b then m1 else m2).
Proof. destruct b; auto. Qed.

(** A computation on the side, and the part that uses it. *)
Lemma part_value {A} (o : outcome A) a k : o = Ok a -> part_ok (k a) -> part_ok (x <- lift o ;; k x).
Proof. intros -> Hk s H. wp_step. apply wp_lift. by apply Hk. Qed.

Lemma part_assoc {A B} (m : M DecompImpl A) (f : A -> M DecompImpl B) g :
  part_ok (bind m (fun x => bind (f x) g)) -> part_ok (bind (bind m f) g).
Proof. intros H s Hh. unfold wp. rewrite bind_assoc. by apply H. Qed.

Lemma part_attempt {A} (o : outcome A) P k : yields o P ->
  (forall r, match r with Some a => P a | None => True end -> part_ok (k r)) -> part_ok (r <- lift (attempt o) ;; k r).
Proof. intros Ho Hk. destruct o as [a| |]; [by apply (part_value _ (Some a)), Hk|by apply (part_value _ None), Hk|done]. Qed.

Lemma part_load k : (forall c, context_ok c -> part_ok (k c)) -> part_ok (c <- load_ctx cid_ ;; k c).
Proof. intros Hk s H. wp_step. eapply wp_load; [done|]. intros c Hc. by apply Hk. Qed.

Lemma deliver_ok c ip : image_ok capacity (c, ip) -> part_ok (deliver cid_ icv parsed c ip).
Proof.
  intros [Hc Hip] s H. unfold deliver. wp_step. eapply wp_store; [by apply leaves_refl|done|]. intros s1 H1.
  do 3 wp_step. eapply wp_verify; [exact H1|]. by wp_step.
Qed.

Lemma deliver_or_refuse_ok o : yields o (image_ok capacity) -> part_ok (deliver_or_refuse cid_ icv parsed o).
Proof. intros Ho. eapply part_attempt; [exact Ho|]. intros [[c ip]|] H; [by apply deliver_ok|apply refuse_ok]. Qed.

(** A reading's packet put together. *)
Lemma rebuild_ok c header payload : context_ok c ->
  part_ok (deliver_or_refuse cid_ icv parsed (let! ip := rebuilt_in capacity header payload in Ok (c, ip))).
Proof. intros Hc. apply deliver_or_refuse_ok. eapply yields_bind; [apply rebuilt_fits|]. intros ip Hip. by split. Qed.

(** *** The parts, in the order they are tried *)

Lemma uncompressed_packet_ok : part_ok (uncompressed_packet cid_ before capacity icv parsed).
Proof.
  unfold uncompressed_packet. apply part_if; intros G1; [apply skip_ok|]. apply part_if; intros G2; [apply refuse_ok|].
  apply part_load. intros c Hc s H. wp_step. eapply wp_store; [by apply leaves_refl|auto with ctxok|]. intros s1 H1.
  wp_step. eapply wp_verify; [exact H1|]. wp_step. split; [bool_prop; lia|done].
Qed.

Lemma replacement_ok : context_ok (uncompressed_replacement large cid_).
Proof. pose proof initial_context_ok. unfold uncompressed_replacement. auto 20 with ctxok. Qed.

Lemma uncompressed_ir_ok : 0 <= pr_cid_len parsed -> part_ok (uncompressed_ir large cid_ capacity icv parsed).
Proof.
  intros Hl. unfold uncompressed_ir. apply part_if; intros G; [apply skip_ok|]. cbv zeta. set (n := _ + 3 + _).
  assert (Hn : 3 <= n) by (subst n; destruct (pr_has_add_cid parsed), (pr_has_large_cid parsed); lia). clearbody n.
  apply part_if; intros G2; [apply refuse_ok|]. bool_prop.
  destruct (slice_in_range (pr_wire parsed) 0 n) as (h & Eh & Lh & _); [lia..|].
  eapply part_value; [exact Eh|]. eapply part_value; [apply rd_nth; lia|].
  destruct (tail_from_in_range (pr_wire parsed) n) as (o & Eo & _); [lia|].
  eapply part_value; [exact Eo|]. destruct (uncompressed_safe o) as (b & Eu). eapply part_value; [exact Eu|].
  apply part_if; intros G3; [apply refuse_ok|]. bool_prop. apply deliver_ok. split; [apply replacement_ok|cbn; lia].
Qed.

Lemma rtp_pt0_crc7_ok : part_ok (rtp_pt0_crc7 large cid_ before capacity icv parsed).
Proof.
  unfold rtp_pt0_crc7. apply part_if; intros G; [|apply skip_ok]. unfold formal_type in G. bool_prop.
  by apply deliver_or_refuse_ok, rtp_pt0_crc7_safe.
Qed.

Lemma esp_pt0_crc7_ok : part_ok (esp_pt0_crc7 large cid_ before capacity icv parsed).
Proof.
  unfold esp_pt0_crc7. apply part_if; intros G; [|apply skip_ok]. unfold formal_type in G. bool_prop.
  by apply deliver_or_refuse_ok, esp_pt0_crc7_safe.
Qed.

Lemma pt1_seq_id_ok : part_ok (pt1_seq_id large cid_ before capacity icv parsed).
Proof.
  unfold pt1_seq_id. apply part_if; intros G; [|apply skip_ok]. unfold formal_type in G. bool_prop.
  by apply deliver_or_refuse_ok, pt1_seq_id_safe.
Qed.

(** A packet of the shape asked for has a first octet. *)
Lemma starts_len mask tag : starts_with mask tag packet = true -> 1 <= blen packet.
Proof. unfold starts_with. destruct packet as [|b l]; [done|]. intros _. rewrite blen_cons. pose proof (blen_nonneg l). lia. Qed.

Lemma part_first k : 1 <= blen packet -> (forall o, part_ok (k o)) -> part_ok (o <- lift (rd packet 0) ;; k o).
Proof. intros Hl Hk. eapply part_value; [apply rd_nth; lia|apply Hk]. Qed.

(** A checksum over a header of 28 octets is always computed. *)
Lemma part_checksum header payload k : blen header = 28 -> (forall b, part_ok (k b)) ->
  part_ok (b <- lift (udp_checksum_valid header [] payload) ;; k b).
Proof.
  intros Hh Hk. destruct (udp_checksum_total header [] payload Hh) as (b & E).
  by eapply part_value.
Qed.

Lemma resolve_udp_ok formal private :
  match formal with Some r => reading_ok 28 r | None => True end ->
  match private with Some r => header_in (blen packet) r | None => True end ->
  part_ok (resolve_udp cid_ before capacity icv parsed formal private).
Proof.
  intros Hf Hp. unfold resolve_udp. destruct formal as [[[c header] payload]|]; cycle 1.
  { destruct private; [apply skip_ok|apply refuse_ok]. }
  destruct Hf as (Hc & Hh & Hpay). destruct private as [[pc n]|]; [|by apply rebuild_ok].
  apply part_if; intros G; [apply refuse_ok|]. apply part_checksum; [done|]. intros valid.
  eapply part_attempt; [by apply (private_udp_image_safe parsed Hb)|]. intros image _. cbv zeta.
  apply part_if; intros G2; [apply refuse_ok|]. destruct image as [[[ph pp] []]|]; [|by apply rebuild_ok..].
  apply deliver_or_refuse_ok. eapply yields_bind; [apply rebuilt_fits|]. intros ip Hip. split; [|done].
  cbn [fst]. destruct Hp as [Hpc _]. cbn [fst] in Hpc. auto with ctxok.
Qed.

Lemma udp_pt0_ok staged : part_ok (udp_pt0 large cid_ before capacity icv parsed staged).
Proof.
  unfold udp_pt0. fold packet. apply part_if; intros G; [apply skip_ok|]. apply negb_false_iff in G. bool_prop.
  apply part_first; [by eapply starts_len|]. intros o.
  eapply part_attempt; [by apply udp_pt0_formal_safe|]. intros formal Hf.
  eapply part_attempt; [by apply private_reading_safe|]. intros private Hp.
  assert (N : part_ok (formal <- ret formal ;; resolve_udp cid_ before capacity icv parsed formal private)).
  { intros s Hh. do 2 wp_step. by apply resolve_udp_ok. }
  destruct formal as [[[c header] payload]|]; [|exact N]. destruct private as [r|]; [exact N|].
  destruct (udp_checksum_used c); [|exact N]. apply part_assoc.
  apply part_checksum; [apply Hf|]. intros [] s Hh; do 2 wp_step; by apply resolve_udp_ok.
Qed.

Lemma fo_part p : yields (private_of (fo_profile p) (run_decoder (decode_fo p) packet before)) (header_in (blen packet)).
Proof. by apply private_of_safe, fo_reading_safe. Qed.

Lemma any_formal_safe octets : yields (any_formal_esp before parsed octets) (fun _ => True).
Proof.
  induction octets as [|o octets IH]; [done|]. cbn [any_formal_esp].
  eapply yields_bind; [eapply yields_succeeds; by apply esp_pt0_formal_safe|]. intros [] _; [done|exact IH].
Qed.

Lemma part_total (o : outcome bool) k : yields o (fun _ => True) -> o <> Rej -> (forall b, part_ok (k b)) -> part_ok (b <- lift o ;; k b).
Proof. intros Ho Hr Hk. destruct o as [b| |]; [|done..]. by apply (part_value _ b). Qed.

Lemma any_formal_answers octets : any_formal_esp before parsed octets <> Rej.
Proof.
  induction octets as [|o octets IH]; [done|]. cbn [any_formal_esp]. unfold succeeds.
  destruct (esp_pt0_formal before parsed o); cbn; done.
Qed.

Lemma esp_pt0_ok staged : part_ok (esp_pt0 large cid_ before capacity icv parsed staged).
Proof.
  unfold esp_pt0. fold packet. apply part_if; intros G; [apply skip_ok|]. apply negb_false_iff in G. bool_prop.
  apply part_first; [by eapply starts_len|]. intros o.
  eapply part_attempt; [by apply esp_pt0_formal_safe|]. intros formal Hf.
  eapply part_attempt; [apply (fo_part FoESP)|]. intros private _.
  destruct formal as [[[c header] payload]|], private as [r|]; try apply refuse_ok.
  - apply part_if; intros _; [apply refuse_ok|]. apply rebuild_ok, Hf.
  - apply part_total; [apply any_formal_safe|apply any_formal_answers|]. intros []; [apply refuse_ok|apply skip_ok].
Qed.

Lemma ip_pt0_ok staged : part_ok (ip_pt0 large cid_ before capacity icv parsed staged).
Proof.
  unfold ip_pt0. fold packet. apply part_if; intros G; [apply skip_ok|]. apply negb_false_iff in G. bool_prop.
  apply part_first; [by eapply starts_len|]. intros o.
  eapply part_attempt; [by apply ip_pt0_formal_safe|]. intros formal Hf.
  eapply part_attempt; [apply (fo_part FoIP)|]. intros private _.
  destruct (legacy_ip_crc_safe parsed) as (b & E). eapply part_value; [exact E|].
  destruct formal as [[[c header] payload]|], private as [r|]; try apply refuse_ok; [|apply skip_ok].
  apply part_if; intros _; [apply refuse_ok|]. apply rebuild_ok, Hf.
Qed.

Lemma rtp_pt0_ok staged : part_ok (rtp_pt0 large cid_ before capacity icv parsed staged).
Proof.
  unfold rtp_pt0. fold packet. apply part_if; intros G; [apply skip_ok|]. apply negb_false_iff in G.
  unfold rtp_pt0_candidate in G. bool_prop.
  apply part_load. intros ctx Hctx. apply part_first; [by eapply starts_len|]. intros o.
  eapply part_attempt; [by apply rtp_pt0_formal_safe|]. intros formal Hf.
  eapply part_attempt; [by apply private_rtp_safe|]. intros private _.
  destruct formal as [[[c header] payload]|], private as [r|]; try apply refuse_ok; [|apply skip_ok].
  apply rebuild_ok, Hf.
Qed.

(** *** How a call ends *)

(** No context has changed. *)
Definition kept (s s' : DecompImpl) : Prop :=
  decomp_ok s' /\ dx_table s' = dx_table s /\ dx_mode s' = dx_mode s.
(** The context is what it was before the call. *)
Definition restored (s s' : DecompImpl) : Prop :=
  decomp_ok s' /\ dx_table s' = table_set (dx_table s) cid_ before /\ dx_mode s' = mode_before.

Lemma kept_refl s : decomp_ok s -> kept s s.
Proof. done. Qed.

Lemma wp_feedback_kept s' i ty (Q : unit -> DecompImpl -> Prop) R : decomp_ok s' -> 0 <= i ->
  (forall f, Q tt (s' <| dx_last_feedback := f |> <| dx_has_feedback := true |>)) -> wp (set_feedback i ty) Q R s'.
Proof.
  intros H Hi HQ. unfold set_feedback. do 3 wp_step. apply wp_lift. unfold acknowledging.
  pose proof (table_get_total (dx_table s') i ltac:(apply H) Hi) as T.
  destruct (table_get (dx_table s') i); cbn in T; [|..|done]; (wp_step; by apply HQ).
Qed.

Lemma wp_fail_any {A} i s (Q : A -> DecompImpl -> Prop) (R : DecompImpl -> Prop) : decomp_ok s -> 0 <= i ->
  (forall f, R (s <| dx_last_feedback := f |> <| dx_has_feedback := true |>)) -> wp (fail_with_feedback i) Q R s.
Proof. intros H Hi HR. unfold fail_with_feedback. wp_step. apply wp_feedback_kept; [done..|]. intros f. by apply wp_lift. Qed.

Lemma acknowledge_ok s s' (Q : unit -> DecompImpl -> Prop) R : leaves cid_ before s s' ->
  (forall s'', leaves cid_ before s s'' -> Q tt s'') -> wp (acknowledge_refresh cid_ pending_ parsed) Q R s'.
Proof.
  intros H HQ. unfold acknowledge_refresh. do 3 wp_step. eapply wp_load; [apply H|]. intros c Hc.
  wp_step; [|wp_step; by apply HQ]. destruct pending_ as [f|]; [wp_step; by apply HQ|].
  eapply wp_set_feedback; [exact H|lia|done].
Qed.

Lemma finish_ok m s : part_ok m -> here cid_ s ->
  wp (finish_decoding cid_ before mode_before pending_ parsed m) (part_post s) (restored s) s.
Proof.
  intros Hm Hs0. specialize (Hm s Hs0). unfold wp, finish_decoding in *.
  destruct (m s) as [[[ip|]| |] s'] eqn:E; [|exact Hm| |done].
  - destruct Hm as [Hip H]. match goal with |- match ?x with _ => _ end =>
      enough (W : wp (acknowledge_refresh cid_ pending_ parsed ;;; ret (Some ip)) (part_post s) (restored s) s') by exact W end.
    wp_step. eapply acknowledge_ok; [exact H|]. intros s'' H''. wp_step. by split.
  - destruct Hm as [[[Ht H] Hi] Ea]. split_and!; [|exact Ea|done].
    split; [by apply contexts_ok_set|exact H].
Qed.

Lemma wp_finish m s (Q : option bytes -> DecompImpl -> Prop) R k : part_ok m -> here cid_ s ->
  (forall ip s', blen ip <= capacity -> leaves cid_ before s s' -> Q (Some ip) s') -> (forall s', restored s s' -> R s') ->
  wp k Q R s -> wp (or_else (finish_decoding cid_ before mode_before pending_ parsed m) k) Q R s.
Proof.
  intros Hm H HQ HR Hk. unfold or_else. wp_step. eapply wp_mono; [|exact HR|by apply finish_ok].
  intros [ip|] s'; [intros [? ?]; apply wp_ret; auto|intros ->; exact Hk].
Qed.

Lemma receive_packet_ok staged type prefer : 1 <= blen packet ->
  part_ok (receive_packet large cid_ before mode_before capacity icv parsed staged type prefer).
Proof.
  intros Hl. unfold receive_packet. apply part_load. intros ctx Hctx. eapply part_attempt.
  - eapply yields_bind; [by apply receive_header_safe|]. intros r Hr. by apply build_received_safe.
  - intros [[c ip]|] H; [by apply deliver_ok|]. intros s Hs0. do 2 wp_step.
    eapply wp_fail; [|lia]. exact (leaves_store cid_ before s s before (leaves_refl cid_ before s Hs0) Hbefore).
Qed.

Lemma overlap_ok s (Q : bool -> DecompImpl -> Prop) R : here cid_ s -> (forall b, Q b s) -> (forall s', restored s s' -> R s') ->
  wp (resolve_overlap large cid_ before mode_before parsed) Q R s.
Proof.
  intros [Hd Hi] HQ HR. unfold resolve_overlap. fold packet. wp_step; [by wp_step|]. apply negb_false_iff in H. bool_prop.
  assert (Hl : 1 <= blen packet) by (by eapply starts_len).
  pose proof (try_formal_safe before parsed Hbefore Hb Hl) as T1. pose proof (try_private_safe before parsed Hbefore Hb Hs) as T2.
  wp_step. apply wp_lift. unfold succeeds, attempt. destruct (try_formal_pt0 before parsed); cbn in T1 |- *; [|..|done];
    (wp_step; apply wp_lift; unfold succeeds, attempt; destruct (try_private_fo before parsed); cbn in T2 |- *; [| |done]);
    try apply HQ.
  do 2 wp_step. assert (Hr : restored s (restore cid_ before mode_before s)).
  { split; [|done]. destruct Hd as [Ht Hrest]. split; [by apply contexts_ok_set|exact Hrest]. }
  apply wp_fail_any; [apply Hr|lia|]. intros f. apply HR. exact Hr.
Qed.

(** *** Segments *)

(** What has been put together: of one packet only its payload, when nothing
    was waiting. *)
Definition together (s : DecompImpl) (b : bytes) (s' : DecompImpl) : Prop :=
  dx_active s' = false /\ bytes_ok b /\ 0 < blen b <= segment_buffer_max /\
  (dx_active s = false -> blen b <= blen packet - 2).

Lemma kept_reassembly s s' a r e : kept s s' -> bytes_ok r -> blen r <= segment_buffer_max ->
  kept s (s' <| dx_active := a |> <| dx_reassembly := r |> <| dx_expected := e |>).
Proof. intros ((Ht & _ & H) & E) Hr Hl. split; [|exact E]. split; [exact Ht|]. split; [by split|exact H]. Qed.

Lemma kept_refuse {A} s s' (Q : A -> DecompImpl -> Prop) : kept s s' -> wp (refuse cid_) Q (kept s) s'.
Proof. intros [H E]. unfold refuse. apply wp_fail_any; [exact H|lia|]. intros f. by split. Qed.

Lemma kept_forget {A} s s' (Q : A -> DecompImpl -> Prop) : kept s s' ->
  wp (forget_reassembly ;;; refuse cid_) Q (kept s) s'.
Proof.
  intros H. unfold forget_reassembly. do 2 wp_step. apply kept_refuse.
  exact (kept_reassembly s s' false [] (dx_expected s') H bytes_ok_nil ltac:(done)).
Qed.

Lemma segment_header_safe : yields (read_segment_header packet) (fun _ => True).
Proof.
  unfold read_segment_header. apply yields_guard. intros G. bool_prop.
  eapply yields_bind; [apply yields_rd; [done|lia]|]. intros b0 _. apply yields_guard. intros _.
  by eapply yields_bind; [apply yields_rd; [done|lia]|].
Qed.

Lemma reassemble_ok s : decomp_ok s ->
  wp (reassemble cid_ parsed) (fun r s' => kept s s' /\ match r with None => True | Some b => together s b s' end) (kept s) s.
Proof.
  intros Hd. pose proof (kept_refl s Hd) as K. unfold reassemble. fold packet. do 3 wp_step.
  eapply (wp_attempt _ (fun _ => True)); [apply segment_header_safe|by apply kept_forget|].
  intros seg _. wp_step; [by apply kept_forget|]. bool_prop. unfold segment_header_len in *.
  wp_step. wp_step; [lia|]. assert (Hn : bytes_ok t) by auto.
  apply wp_bind, (wp_mono _ (fun _ s' => kept s s' /\ (dx_active s = false -> dx_reassembly s' = [])) _ (kept s)); [|done|].
  2: { destruct (dx_active s) eqn:Ea; [by wp_step|].
       wp_step; [by apply kept_refuse|]. wp_step. split; [|done].
       exact (kept_reassembly s s true [] 0 K bytes_ok_nil ltac:(done)). }
  intros _ s' [K' Hz]. do 2 wp_step. cbv zeta. wp_step; [by apply kept_forget|]. bool_prop.
  assert (Hr : bytes_ok (dx_reassembly s')) by apply K'.
  assert (K2 : kept s (s' <| dx_reassembly := dx_reassembly s' ++ t |> <| dx_expected := u16 (dx_expected s' + 1) |>)).
  { apply (kept_reassembly s s' (dx_active s') (dx_reassembly s' ++ t)); [done|by apply bytes_ok_app|rewrite blen_app; lia]. }
  do 2 wp_step. wp_step; [by wp_step|]. do 4 wp_step. split.
  - exact (kept_reassembly s _ false [] 0 K2 bytes_ok_nil ltac:(done)).
  - unfold together. cbn. rewrite blen_app. pose proof (blen_nonneg (dx_reassembly s')).
    split_and!; [done|by apply bytes_ok_app|lia..|]. intros E. rewrite (Hz E), blen_nil. lia.
Qed.
End Packet.

(** ** A parsed packet *)

Definition received (p : ParsedRohcPacket) : Prop :=
  0 <= pr_cid p /\ 0 <= pr_cid_len p /\ (bytes_ok (pr_packet p) /\ 1 <= blen (pr_packet p) < 2 ^ 60) /\
  (bytes_ok (decoder_packet p) /\ size_ok (blen (decoder_packet p))).

Lemma parsed_received inp large p : bytes_ok inp -> blen inp < 2 ^ 60 -> parsed_ok inp large p ->
  received p /\ blen (pr_packet p) <= blen inp.
Proof.
  intros Hb Hs (Hw & Hp & Hne & _ & Hc & Hl). unfold received, decoder_packet, size_ok. rewrite Hw.
  assert (P : bytes_ok (pr_packet p) /\ blen (pr_packet p) <= blen inp).
  { rewrite Hp. destruct (pr_has_add_cid p); [|done]. split; [by apply bytes_ok_drop|]. unfold blen. rewrite length_drop. lia. }
  destruct P as [P1 P2]. pose proof (blen_nonneg inp). pose proof (blen_nonneg (pr_packet p)).
  assert (1 <= blen (pr_packet p)) by (destruct (pr_packet p) as [|b l]; [done|rewrite blen_cons; pose proof (blen_nonneg l); lia]).
  split_and!; try lia; try done; destruct (_ && _); (done || lia).
Qed.

Lemma settled_received large before p : received p -> received (settle_type large before p).
Proof.
  unfold settle_type. destruct (_ && _); [|done]. intros (? & ? & (? & ? & ?) & ?). unfold received, with_type. cbn.
  split_and!; try done. all: unfold decoder_packet; cbn; rewrite andb_false_r; unfold size_ok; (done || lia).
Qed.

Lemma settled_packet large before p : pr_packet (settle_type large before p) = pr_packet p.
Proof. unfold settle_type. by destruct (_ && _). Qed.

Section Decode.
Context (again : bytes -> M DecompImpl (option bytes)) (large : bool) (cid_ : Z) (before : Context) (mode_before : Mode)
  (capacity : Z) (icv : bytes) (pending_ : option Feedback) (staged : bool) (s : DecompImpl)
  (Q : option bytes -> DecompImpl -> Prop) (R : DecompImpl -> Prop).
Hypotheses (Hcid : 0 <= cid_ < 2 ^ 32) (Hbefore : context_ok before) (Hicv : blen icv <= 32) (Hicvb : bytes_ok icv)
  (Hh : here cid_ s).
Hypotheses (HQ : forall ip s', blen ip <= capacity -> leaves cid_ before s s' -> Q (Some ip) s')
  (HK : forall s', kept s s' -> Q None s' /\ R s') (HR : forall s', restored cid_ before mode_before s s' -> R s').

Lemma tried parsed m k : part_ok cid_ before capacity m -> wp k Q R s ->
  wp (or_else (finish_decoding cid_ before mode_before pending_ parsed m) k) Q R s.
Proof. intros Hm Hk. by eapply wp_finish. Qed.

Lemma settled_parts_ok parsed : received parsed -> dx_mode s = mode_before ->
  (forall b s', kept s s' -> together parsed s b s' -> wp (again b) Q R s') ->
  wp (settled_parts again large cid_ before mode_before capacity icv pending_ staged parsed) Q R s.
Proof.
  intros (Hpc & Hpl & (Hpb & H1 & Hps) & Hwb & Hws) Hm Hagain. assert (Hd : decomp_ok s) by apply Hh.
  unfold settled_parts. cbv zeta.
  apply tried; [by apply rtp_pt0_crc7_ok|]. apply tried; [by apply esp_pt0_crc7_ok|].
  apply tried; [by apply pt1_seq_id_ok|]. apply tried; [by apply udp_pt0_ok|].
  apply tried; [by apply esp_pt0_ok|]. apply tried; [by apply ip_pt0_ok|].
  apply tried; [by apply rtp_pt0_ok|].
  wp_step. eapply overlap_ok; [done..| |done]. intros formal. set (type := if formal : bool then _ else _).
  wp_step; [|wp_step].
  - pose proof (wp_read_feedback_packet (pr_packet parsed) true empty_feedback Hpb) as F. unfold wp in F.
    wp_step. eapply (wp_attempt _ (fun _ => True)).
    + destruct (read_feedback_packet _ _ _) as [[n| |] g]; cbn in *; [done..|apply F]. unfold size_ok. lia.
    + apply wp_fail_any; [done|lia|]. intros f. apply HK. by split.
    + intros n _. apply wp_lift. apply HK. by split.
  - wp_step. eapply wp_mono; [| |by apply reassemble_ok].
    + intros [b|] s' [K T]; cbv beta in *; [by apply Hagain|]. wp_step. by apply HK.
    + intros s' K. by apply HK.
  - eapply wp_mono; [|exact HR|apply finish_ok; [done..| |done]; by apply receive_packet_ok].
    intros [ip|] s'; [intros [? ?]; by apply HQ|intros ->; by apply HK].
Qed.

Lemma decode_parsed_ok parsed : received parsed -> dx_mode s = mode_before ->
  (forall b s', kept s s' -> together parsed s b s' -> wp (again b) Q R s') ->
  wp (decode_parsed again large cid_ before mode_before capacity icv pending_ staged parsed) Q R s.
Proof.
  intros Hp Hm Hagain. unfold decode_parsed.
  pose proof Hp as (Hpc & Hpl & (Hpb & H1 & Hps) & Hwb & Hws).
  apply tried; [by apply uncompressed_packet_ok|].
  apply tried; [by apply uncompressed_ir_ok|].
  apply settled_parts_ok; [by apply settled_received|done|].
  intros b s' K T. apply Hagain; [done|]. revert T. unfold together. by rewrite settled_packet.
Qed.
End Decode.

(** ** The call *)

(** A context without its channel's fields. *)
Definition content (c : Context) : Context := c <| cid := 0 |> <| large_cid := false |> <| mode := ModeUncompressed |>.
Definition contents (d : DecompImpl) : list Context := map content (table (dx_table d)).

Definition unchanged (d d' : DecompImpl) : Prop :=
  decomp_ok d' /\ contents d' = contents d /\ dx_mode d' = dx_mode d.
Definition changes_one (d d' : DecompImpl) : Prop :=
  decomp_ok d' /\ exists i c, contents d' = <[i := c]> (contents d).

Lemma contents_set t i c : map content (table (table_set t i c)) = <[Z.to_nat i := content c]> (map content (table t)).
Proof. apply list_fmap_insert. Qed.

Lemma changed_at i b d d' : <[i := b]> (contents d') = <[i := b]> (contents d) -> exists c, contents d' = <[i := c]> (contents d).
Proof.
  intros E. destruct (contents d' !! i) as [x|] eqn:Ex.
  - exists x. rewrite <- (list_insert_insert_eq (contents d) i x b), <- E, list_insert_insert_eq. by rewrite list_insert_id.
  - exists b. rewrite <- E. symmetry. apply list_insert_ge. by apply lookup_ge_None.
Qed.

Lemma wp_feedback_prefix fuel packet : forall len s, bytes_ok packet -> size_ok (blen packet) -> decomp_ok s ->
  0 <= len <= blen packet -> blen packet - len <= Z.of_nat fuel ->
  wp (feedback_prefix_len fuel packet len) (fun n s' => s' = s /\ len <= n <= blen packet) (kept s) s.
Proof.
  induction fuel as [|fuel IH]; intros len s Hb Hs Hd Hl Hf; cbn [feedback_prefix_len].
  { rewrite (proj2 (Z.ltb_ge _ _)) by lia. cbn [negb]. wp_step. by split; [|lia]. }
  wp_step; [wp_step; by split; [|lia]|]. apply negb_false_iff in H. bool_prop.
  wp_step. wp_step; [lia|]. wp_step; [wp_step; by split; [|lia]|].
  wp_step. wp_step; [lia|]. match goal with H : bytes_ok packet -> bytes_ok ?t |- _ => pose proof (H Hb) as Ht end.
  pose proof (wp_read_feedback_packet t true empty_feedback Ht) as F. unfold wp in F.
  wp_step. eapply (wp_attempt _ (fun n => 2 <= n <= blen t)).
  - unfold read_feedback_prefix. destruct (read_feedback_packet t true empty_feedback) as [[n| |] g]; cbn; [|done|].
    + apply F. unfold size_ok in *. lia.
    + apply F. unfold size_ok in *. lia.
  - apply wp_fail_any; [done|lia|]. intros f. by split.
  - intros n Hn. eapply wp_mono; [|done|apply IH; try done; lia]. cbv beta. intros m s' [-> ?]. split; [done|lia].
Qed.

Lemma wp_parse packet s : bytes_ok packet -> blen packet < 2 ^ 60 -> decomp_ok s ->
  wp (parse_authenticated packet) (fun r s' => s' = s /\ received (fst r) /\ blen (pr_packet (fst r)) <= blen packet /\
    blen (snd r) <= 32 /\ bytes_ok (snd r)) (kept s) s.
Proof.
  intros Hb Hs Hd. unfold parse_authenticated. do 3 wp_step.
  eapply wp_attempt; [by apply parse_rohc_packet_ok|apply wp_fail_any; [done|lia|intros f; by split]|].
  intros p Hp. pose proof (parsed_received _ _ p Hb Hs Hp) as [Hr Hl]. wp_step; [|wp_step; by split_and!; [..|apply bytes_ok_nil]].
  destruct Hd as (Ht & Hre & Hk & Hi) eqn:E. clear E. bool_prop. unfold sha256_digest_len.
  wp_step; [apply wp_fail_any; [done|apply Hr|intros f; by split]|]. bool_prop.
  wp_step. wp_step; [lia..|]. wp_step. wp_step; [lia..|].
  repeat match goal with H : bytes_ok packet -> bytes_ok _ |- _ => specialize (H Hb) end.
  wp_step. eapply wp_attempt; [by apply parse_rohc_packet_ok|apply wp_fail_any; [done|lia|intros f; by split]|].
  intros p2 Hp2. wp_step. cbn [fst snd].
  match goal with H : parsed_ok ?i _ p2 |- _ => destruct (parsed_received i _ p2 ltac:(done) ltac:(lia) H) as [Hr2 Hl2] end.
  split_and!; (done || lia).
Qed.

(** The context found, with the packet as far as it matters below. *)
Lemma disambiguate_ok d p : decomp_ok d -> received p ->
  yields (disambiguate_cid d p) (fun r => let '(p', i, ctx) := r in
    received p' /\ pr_packet p' = pr_packet p /\ 0 <= i /\
    match ctx with Some c => table_get (dx_table d) i = Ok c /\ context_ok c /\ i <= max_cid (dx_table d) | None => True end).
Proof.
  intros [Ht _] Hp. unfold disambiguate_cid.
  assert (G : forall i, 0 <= i -> yields (attempt (table_get (dx_table d) i)) (fun r => match r with
    Some c => table_get (dx_table d) i = Ok c /\ context_ok c /\ i <= max_cid (dx_table d) | None => True end)).
  { intros i Hi. pose proof (table_get_total (dx_table d) i Ht Hi) as T. by destruct (table_get (dx_table d) i). }
  eapply yields_bind; [apply (G 0); lia|]. intros zero H0. cbv zeta.
  match goal with |- context [if ?b then with_cid 0 p else p] => set (p' := if b then with_cid 0 p else p) end.
  assert (Hp' : received p' /\ pr_packet p' = pr_packet p).
  { subst p'. destruct (_ && _); [|done]. split; [|done]. unfold received, with_cid in *. cbn. split; [lia|]. apply Hp. }
  destruct Hp' as [Hp' Ep]. clearbody p'. eapply yields_bind; [apply (G (pr_cid p')), Hp'|]. intros ctx Hc.
  assert (0 <= pr_cid p') by apply Hp'.
  cbv beta in *. assert (Y : yields (Ok (p', pr_cid p', ctx)) (fun r => let '(p', i, ctx) := r in
    received p' /\ pr_packet p' = pr_packet p /\ 0 <= i /\
    match ctx with Some c => table_get (dx_table d) i = Ok c /\ context_ok c /\ i <= max_cid (dx_table d) | None => True end)) by done.
  destruct (_ && _); [|exact Y]. destruct zero as [c|]; [|exact Y]. by destruct (state_eqb (rohc_state c) _).
Qed.

Lemma prepare_ok d i c : 0 <= i < 2 ^ 32 -> context_ok c -> context_ok (prepare_context d i c) /\ content (prepare_context d i c) = content c.
Proof.
  intros Hi Hc. unfold prepare_context. cbv zeta. destruct (_ && _); (split; [auto 10 with ctxok|done]).
Qed.

Lemma unchanged_trans d1 d2 d3 : unchanged d1 d2 -> unchanged d2 d3 -> unchanged d1 d3.
Proof. intros (_ & E1 & M1) (H & E2 & M2). split_and!; [done|congruence..]. Qed.
Lemma changes_after d1 d2 d3 : unchanged d1 d2 -> changes_one d2 d3 -> changes_one d1 d3.
Proof. intros (_ & E1 & _) (H & i & c & E). split; [done|]. exists i, c. congruence. Qed.

Definition enough (fuel : nat) (d : DecompImpl) (n : Z) : Prop :=
  dx_active d = false /\ n <= 2 + 2 * Z.of_nat fuel \/ (2048 <= fuel)%nat.

(** What a call of [n] octets answers, when [again] answers as much. *)
Definition answers (d : DecompImpl) (m : M DecompImpl (option bytes)) (capacity : Z) : Prop :=
  wp m (fun r d' => match r with Some ip => blen ip <= capacity /\ changes_one d d' | None => unchanged d d' end)
    (unchanged d) d.

Lemma answers_after d1 d2 m capacity capacity' : unchanged d1 d2 -> capacity' <= capacity -> answers d2 m capacity' ->
  wp m (fun r d' => match r with Some ip => blen ip <= capacity /\ changes_one d1 d' | None => unchanged d1 d' end)
    (unchanged d1) d2.
Proof.
  intros U Hc H. eapply wp_mono; [| |exact H].
  - intros [ip|] d'; [intros [? ?]; split; [lia|by eapply changes_after]|by apply unchanged_trans].
  - intros d'. by apply unchanged_trans.
Qed.

Lemma call_answers again d inp capacity : decomp_ok d -> bytes_ok inp -> blen inp < 2 ^ 60 ->
  (forall b d' c, unchanged d d' -> dx_active d' = false -> bytes_ok b -> 0 < blen b <= segment_buffer_max ->
     (dx_active d = false -> blen b <= blen inp - 2) -> answers d' (again b c) c) ->
  answers d (decompress_call again inp capacity) capacity.
Proof.
  intros Hd Hb Hs Hagain. unfold answers, decompress_call. pose proof (blen_nonneg inp).
  wp_step; wp_step; [|by split_and!]. do 4 wp_step. wp_step.
  set (d1 := d <| dx_has_feedback := false |>). assert (Hd1 : decomp_ok d1) by done.
  assert (K : forall s', kept d1 s' -> unchanged d s')
    by (intros s' (H' & E1 & E2); unfold unchanged, contents; rewrite E1, E2; done).
  eapply wp_mono; [|exact K|apply wp_feedback_prefix; [done|unfold size_ok; lia|done|lia|unfold blen; lia]].
  intros n s' [-> Hn]. wp_step. wp_step; [|by apply K]. wp_step. wp_step; [lia|].
  match goal with H : bytes_ok inp -> bytes_ok ?t |- _ => specialize (H Hb); rename t into packet end.
  wp_step. eapply wp_mono; [|exact K|apply wp_parse; [done|lia|done]].
  intros [p icv] s' (-> & Hp & Hlen & Hicv & Hicvb). cbn [fst snd] in *. do 2 wp_step. cbv zeta.
  set (capacity' := if dx_ipsec d1 && _ then _ else capacity).
  assert (Hcap : capacity' <= capacity) by (subst capacity'; destruct (_ && _); lia). clearbody capacity'.
  wp_step. apply wp_lift. pose proof (disambiguate_ok d1 p Hd1 Hp) as T.
  destruct (disambiguate_cid d1 p) as [[[p' i] ctx]| |]; cbn in T; [|by apply K|done].
  destruct T as (Hp' & Ep & Hi & Hctx). destruct ctx as [before|]; [|by apply wp_fail_any; [|lia|intros f; apply K]].
  destruct Hctx as (Eg & Hbefore & Him). destruct Hd1 as [Ht Hrest].
  assert (Hi32 : 0 <= i < 2 ^ 32) by (destruct Ht as [Hmax _]; change (dx_table d1) with (dx_table d) in Hmax; lia). destruct (prepare_ok d1 i before Hi32 Hbefore) as [Hprep Eprep].
  unfold store_ctx. do 2 wp_step. set (s := set_field _ _ d1).
  assert (Hs' : decomp_ok s) by (split; [by apply contexts_ok_set|exact Hrest]).
  assert (Es : contents s = contents d).
  { unfold contents, s. cbn [dx_table set_field set_dx_table]. rewrite contents_set, Eprep, <- contents_set.
    by rewrite table_set_get. }
  assert (K2 : forall s', kept s s' -> unchanged d s').
  { intros s' (H' & E1 & E2). split_and!; [done| |done]. unfold contents. rewrite E1. exact Es. }
  eapply decode_parsed_ok; try done.
  - intros ip s' Hip [[Hok _] E]. split; [lia|]. split; [done|].
    exists (Z.to_nat i). apply (changed_at _ (content before)). rewrite <- Es.
    unfold contents. by rewrite <- !contents_set, E.
  - intros s' K'. split; by apply K2.
  - intros s' (H' & E1 & E2). split_and!; [done| |done]. unfold contents. rewrite E1. subst s.
    cbn [dx_table set_field set_dx_table]. by rewrite table_set_set, table_set_get.
  - intros b s' K' (Ha & Hbb & Hbl & Hz). eapply answers_after; [by apply K2|exact Hcap|].
    apply Hagain; [by apply K2|done..|]. intros E. specialize (Hz E). rewrite Ep in Hz. lia.
Qed.

Lemma decompress4_answers fuel : forall d inp capacity, decomp_ok d -> bytes_ok inp -> blen inp < 2 ^ 60 ->
  enough fuel d (blen inp) -> answers d (rohc_decompress4 fuel inp capacity) capacity.
Proof.
  induction fuel as [|fuel IH]; intros d inp capacity Hd Hb Hs Hf; cbn [rohc_decompress4]; apply call_answers; try done.
  - intros b d' c _ _ _ Hbl Hz. destruct Hf as [[Ha Hl]|]; [|lia]. specialize (Hz Ha). lia.
  - intros b d' c (Hd' & _) Ha Hbb Hbl Hz. unfold segment_buffer_max in *. apply IH; [done..|lia|]. left. split; [done|].
    destruct Hf as [[Hi Hl]|Hf]; [specialize (Hz Hi); lia|lia].
Qed.

(** C4: on any octets, a call of the decompressor ends without undefined
    behaviour and leaves a well-formed decompressor, however many segments it
    puts together on the way.  A packet it delivers is no longer than the
    caller's buffer, and at most one context has changed; where it delivers
    none - a refusal, or a segment with more to come - the mode is what it was
    before the call, and so is every context but for the fields that are the
    channel's (its CID, whether CIDs are large, its mode). *)
Theorem decompress4_transactional fuel d rohc_packet capacity :
  decomp_ok d -> bytes_ok rohc_packet -> blen rohc_packet < 2 ^ 60 -> (2048 <= fuel)%nat ->
  match rohc_decompress4 fuel rohc_packet capacity d with
  | (Ok (Some ip_packet), d') => blen ip_packet <= capacity /\ changes_one d d'
  | (Ok None, d') | (Rej, d') => unchanged d d'
  | (Ub, _) => False
  end.
Proof.
  intros Hd Hb Hs Hf. pose proof (decompress4_answers fuel d rohc_packet capacity Hd Hb Hs (or_intror Hf)) as W.
  unfold answers, wp in W. by destruct (rohc_decompress4 fuel rohc_packet capacity d) as [[[ip|]| |] d'].
Qed.

(** A decompressor as it is made, for CIDs up to [max]. *)
Definition fresh_decomp (max : Z) : DecompImpl :=
  mkDecomp Uplink Optimistic (table_init max) (small_cid_max <? max)
    empty_feedback false false 0 false [] 0 false None_ [] 0 false no_contract no_flow.

Lemma table_init_ok max : 0 <= max <= large_cid_max -> contexts_ok (table_init max).
Proof.
  unfold large_cid_max. intros H. unfold contexts_ok, table_init, u32. cbn [table max_cid].
  rewrite Z.mod_small by lia. rewrite repeat_length. split_and!; [lia..|].
  apply List.Forall_forall. intros c ->%repeat_spec. apply initial_context_ok.
Qed.

Lemma fresh_decomp_ok max : 0 <= max <= large_cid_max -> decomp_ok (fresh_decomp max).
Proof. intros H. split; [by apply table_init_ok|]. split; [split; [apply bytes_ok_nil|done]|]. split; [apply bytes_ok_nil|done]. Qed.

(** The first packet of a compressor on CID 1. *)
Definition sample_ir : bytes :=
  match compress4 1 false Optimistic sample_packet segment_buffer_max initial_context with
  | (Ok packet, _) => packet
  | _ => []
  end.

Lemma decompress4_transactional_witness :
  fst (rohc_decompress4 2048 sample_ir 1500 (fresh_decomp 3)) = Ok (Some sample_packet) /\
  match rohc_decompress4 2048 sample_ir 1500 (fresh_decomp 3) with
  | (Ok (Some ip_packet), d') => blen ip_packet <= 1500 /\ changes_one (fresh_decomp 3) d'
  | (Ok None, d') | (Rej, d') => unchanged (fresh_decomp 3) d'
  | (Ub, _) => False
  end.
Proof.
  split; [by vm_compute|]. apply (decompress4_transactional 2048 (fresh_decomp 3) sample_ir 1500);
    [apply fresh_decomp_ok; unfold large_cid_max; lia|by apply bytes_ok_by|by vm_compute|lia].
Defined.
