(* ===== verification/Segmentation.v ===== *)
(** * Segments from one end to the other

    A packet longer than the buffer is cut by the compressor of [Channel] and
    put together by the decompressor of [DecompressApi]. *)

From S2P Require Import Prelude Crc Cid Encoding Context Cursor DecodeIr Compressor Feedback Packets.
From S2P Require Import EmitIr Lla Sha256 CompactGuards PacketImage CompressApi CompressFaithful DecompressApi Channel DecompressSafe.

(** ** The two ends of a run of segments *)

(** [rohc_comp_get_segment] as long as [rohc_comp_has_segment], with the
    buffers of the sizes [capacities]. *)
Fixpoint drain (capacities : list Z) : M CompImpl (list bytes) :=
  match capacities with
  | [] => ret []
  | capacity :: capacities =>
      c <- gets (fun c => c) ;;
      if rohc_comp_has_segment c then
        segment <- rohc_comp_get_segment capacity ;;
        segments <- drain capacities ;;
        ret (segment :: segments)
      else ret []
  end.

(** [rohc_decompress4] on one packet after the other, of which all but the last
    answer that more is to come. *)
Fixpoint receive_all (fuel : nat) (packets : list bytes) (capacity : Z) : M DecompImpl (option bytes) :=
  match packets with
  | [] => ret None
  | [packet] => rohc_decompress4 fuel packet capacity
  | packet :: packets =>
      r <- rohc_decompress4 fuel packet capacity ;;
      match r with None => receive_all fuel packets capacity | Some _ => lift Rej end
  end.

(** A decompressor whose call on CID 0 has begun. *)
Definition entered (d : DecompImpl) : DecompImpl :=
  d <| dx_has_feedback := false |>
    <| dx_table := match table_get (dx_table d) 0 with
                   | Ok c => table_set (dx_table d) 0 (prepare_context d 0 c)
                   | _ => dx_table d
                   end |>.

(** A decompressor that has put together the octets of the segments before [n]. *)
Definition holding (d : DecompImpl) (octets : bytes) (n : Z) : DecompImpl :=
  d <| dx_active := true |> <| dx_reassembly := octets |> <| dx_expected := n |>.
Definition idle (d : DecompImpl) : DecompImpl :=
  d <| dx_active := false |> <| dx_reassembly := [] |> <| dx_expected := 0 |>.

(** ** One segment at the receiver *)

Definition segment_tag (last : bool) : Z := if last then 0xFF else 0xFE.
Definition parsed_segment (packet : bytes) : ParsedRohcPacket := mkParsed packet packet 0 false false 0 Segment 0.

Lemma parse_segment last n b payload :
  parse_rohc_packet (segment_tag last :: n :: b :: payload) false =
  Ok (parsed_segment (segment_tag last :: n :: b :: payload)).
Proof.
  change (n :: b :: payload) with ((if false then large_octets 0 else []) ++ n :: b :: payload).
  rewrite (parse_packet_tagged (segment_tag last) 0); [by destruct last|by destruct last|unfold large_cid_max; lia].
Qed.

Lemma prepare_twice d e c : dx_large e = dx_large d -> dx_mode e = dx_mode d ->
  prepare_context e 0 (prepare_context d 0 c) = prepare_context d 0 c.
Proof.
  intros El Em. unfold prepare_context. rewrite El, Em. clear El Em. generalize (dx_large d) (dx_mode d). clear.
  intros l m. destruct c. lazy -[andb state_eqb Z.eqb].
  destruct ((tx_count =? 0) && state_eqb rohc_state NoContext) eqn:E; rewrite ?E; reflexivity.
Qed.

Lemma table_set_here t c : contexts_ok t -> table_get (table_set t 0 c) 0 = Ok c.
Proof.
  intros (Hm & Hl & _). unfold table_get, table_set. cbn [max_cid table].
  rewrite (proj2 (Z.ltb_ge _ 0)) by lia. cbn. destruct (table t); [cbn in Hl; lia|done].
Qed.

Lemma entered_twice d : contexts_ok (dx_table d) -> entered (entered d) = entered d.
Proof.
  intros Ht. destruct (table_get_in _ 0 Ht) as (c & E & _); [destruct Ht; lia|].
  unfold entered at 2 3. rewrite E. unfold entered.
  change (dx_table (_ <| dx_table := ?t |>)) with t at 1 2 3. rewrite table_set_here by done.
  by rewrite prepare_twice, table_set_set.
Qed.

(** None of the readings of other packets takes a segment. *)
Lemma decode_segment again large i before m capacity icv pending staged parsed s :
  pr_type parsed = Segment -> starts_with 0x80 0 (pr_packet parsed) = false ->
  decode_parsed again large i before m capacity icv pending staged parsed s =
  (r <- reassemble i parsed ;; match r with Some p => again p | None => ret None end) s.
Proof.
  intros Ht H. unfold decode_parsed. do 2 (rewrite or_else_none by (unfold finish_decoding, uncompressed_packet, uncompressed_ir; by rewrite Ht)).
  replace (settle_type large before parsed) with parsed by (unfold settle_type; rewrite Ht; cbn; by rewrite andb_false_r).
  unfold settled_parts. do 3 (rewrite or_else_none by
    (unfold finish_decoding, rtp_pt0_crc7, esp_pt0_crc7, pt1_seq_id, formal_type; by rewrite Ht)).
  do 4 (rewrite or_else_none by (unfold finish_decoding, udp_pt0, esp_pt0, ip_pt0, rtp_pt0, rtp_pt0_candidate;
    rewrite ?H, ?Ht, ?andb_false_r; reflexivity)).
  unfold resolve_overlap. rewrite H, andb_false_r. erewrite bind_ok by reflexivity. by rewrite Ht.
Qed.

Lemma segment_nonempty last n payload : (blen (segment_tag last :: n :: payload) =? 0) = false.
Proof. rewrite !blen_cons. pose proof (blen_nonneg payload). apply Z.eqb_neq. lia. Qed.

(** No feedback comes in front of a segment. *)
Lemma segment_prefix last n payload d : let packet := segment_tag last :: n :: payload in
  feedback_prefix_len (length packet) packet 0 d = (Ok 0, d).
Proof.
  cbn [length feedback_prefix_len]. rewrite (proj2 (Z.ltb_lt 0 _)) by (rewrite !blen_cons; pose proof (blen_nonneg payload); lia).
  by destruct last.
Qed.

(** A call on a segment does nothing but put it to the others. *)
Lemma segment_call again d last n b payload capacity : contexts_ok (dx_table d) -> dx_large d = false ->
  let packet := segment_tag last :: n :: b :: payload in
  decompress_call again packet capacity d =
  (r <- reassemble 0 (parsed_segment packet) ;;
   match r with Some p => again p capacity | None => ret None end) (entered d).
Proof.
  intros Ht Hl packet. match goal with |- _ = ?r => set (rhs := r) end. unfold decompress_call.
  assert (Hn : (blen packet =? 0) = false) by apply segment_nonempty.
  rewrite Hn. erewrite bind_ok by reflexivity. erewrite bind_ok by reflexivity. cbv zeta.
  erewrite bind_ok by reflexivity. erewrite bind_ok by apply segment_prefix. rewrite Z.eqb_sym, Hn. erewrite bind_ok by reflexivity.
  erewrite bind_ok by (unfold lift; by rewrite (tail_from_app [] packet : tail_from packet 0 = Ok packet)).
  assert (Hp : parse_authenticated packet (d <| dx_has_feedback := false |>) =
    (Ok (parsed_segment packet, []), d <| dx_has_feedback := false |>)).
  { unfold parse_authenticated. erewrite bind_ok by reflexivity. change (dx_large (_ <| dx_has_feedback := _ |>)) with (dx_large d).
    rewrite Hl. subst packet. rewrite parse_segment. erewrite bind_ok by reflexivity.
    cbn [pr_type parsed_segment]. by rewrite andb_false_r. }
  erewrite bind_ok by exact Hp. cbv beta iota. erewrite bind_ok by reflexivity. rewrite andb_false_r. cbv zeta.
  assert (Hfb : starts_with 0x80 0 packet = false) by (subst packet; by destruct last).
  destruct (table_get_in _ 0 Ht) as (c & Ec & _); [destruct Ht; lia|].
  assert (Hd : disambiguate_cid (d <| dx_has_feedback := false |>) (parsed_segment packet) = Ok (parsed_segment packet, 0, Some c)).
  { unfold disambiguate_cid. change (dx_table (_ <| dx_has_feedback := _ |>)) with (dx_table d). rewrite Ec. cbn [attempt obind].
    cbn [pr_packet parsed_segment pr_cid pr_type]. rewrite Hfb, andb_false_r. cbn [andb].
    cbn [pr_cid pr_type parsed_segment]. by rewrite Ec. }
  erewrite bind_ok by (unfold lift; by rewrite Hd). cbv beta iota.
  erewrite bind_ok by reflexivity.
  change (prepare_context (d <| dx_has_feedback := false |>) 0 c) with (prepare_context d 0 c).
  match goal with |- decode_parsed _ _ _ _ _ _ _ _ _ _ ?s = _ => assert (Es : s = entered d) end.
  { unfold entered. by rewrite Ec. }
  rewrite Es. change (dx_large (d <| dx_has_feedback := false |>)) with (dx_large d). rewrite Hl.
  by rewrite decode_segment.
Qed.

(** ** One segment at the sender *)

(** A compressor that has cut [sent] off its packet in segments before [n]. *)
Definition cutting (c : CompImpl) (sent left : bytes) (n : Z) : CompImpl :=
  c <| cx_pending := sent ++ left |> <| cx_pos := blen sent |> <| cx_sequence := n |>.
Definition done_cutting (c : CompImpl) (n : Z) : CompImpl :=
  c <| cx_pending := [] |> <| cx_pos := 0 |> <| cx_sequence := n |>.

(** What fits behind the header of a segment, and what is left. *)
Definition chunk (capacity : Z) (left : bytes) : bytes := take (Z.to_nat (capacity - segment_header_len)) left.
Definition beyond (capacity : Z) (left : bytes) : bytes := drop (Z.to_nat (capacity - segment_header_len)) left.
Definition ends (capacity : Z) (left : bytes) : bool := blen left <=? capacity - segment_header_len.
Definition segment_of (capacity : Z) (left : bytes) (n : Z) : bytes :=
  segment_tag (ends capacity left) :: Z.land n 0xFF :: chunk capacity left.

Lemma chunk_split capacity left : chunk capacity left ++ beyond capacity left = left.
Proof. apply take_drop. Qed.

Lemma chunk_len capacity left : 2 < capacity ->
  blen (chunk capacity left) = Z.min (capacity - 2) (blen left) /\
  blen (beyond capacity left) = blen left - Z.min (capacity - 2) (blen left).
Proof.
  intros H. unfold chunk, beyond, segment_header_len, blen. rewrite length_take, length_drop. lia.
Qed.

Lemma write_segment_step c sent left n capacity : 2 < capacity -> left <> [] -> 0 <= n ->
  write_next_segment capacity (cutting c sent left n) =
  (Ok (segment_of capacity left n),
   if ends capacity left then done_cutting c (u16 (n + 1))
   else cutting c (sent ++ chunk capacity left) (beyond capacity left) (u16 (n + 1))).
Proof.
  intros Hc Hl Hn. destruct (chunk_len capacity left Hc) as [H1 H2].
  assert (Hl' : 0 < blen left) by (destruct left; [done|rewrite blen_cons; pose proof (blen_nonneg left); lia]).
  pose proof (blen_nonneg sent).
  unfold write_next_segment. erewrite bind_ok by reflexivity.
  change (cx_pending (cutting c sent left n)) with (sent ++ left).
  change (cx_pos (cutting c sent left n)) with (blen sent). rewrite blen_app.
  unfold segment_header_len at 1. rewrite (proj2 (Z.leb_gt capacity 2)), (proj2 (Z.leb_gt _ (blen sent))) by lia.
  erewrite bind_ok by reflexivity. cbv zeta. erewrite bind_ok by reflexivity.
  replace (blen sent + blen left - blen sent) with (blen left) by lia.
  set (len := if blen left <? capacity - segment_header_len then blen left else capacity - segment_header_len).
  assert (Elen : len = blen (chunk capacity left)).
  { rewrite H1. subst len. unfold segment_header_len. destruct (Z.ltb_spec (blen left) (capacity - 2)); lia. }
  assert (El : (len =? blen left) = ends capacity left).
  { unfold ends, segment_header_len. rewrite Elen, H1. destruct (Z.eqb_spec (Z.min (capacity - 2) (blen left)) (blen left)),
      (Z.leb_spec (blen left) (capacity - 2)); lia. }
  rewrite El, Elen. change (cx_sequence (cutting c sent left n)) with n.
  assert (Es : slice (sent ++ left) (blen sent) (blen (chunk capacity left)) = Ok (chunk capacity left)).
  { rewrite <- (chunk_split capacity left) at 1. by apply slice_exact. }
  erewrite bind_ok by (unfold lift; rewrite Es; reflexivity).
  erewrite bind_ok by (unfold lift; rewrite write_segment_exact by lia; reflexivity).
  erewrite bind_ok by reflexivity. cbn [w_out final sequence].
  replace (u8 (Z.lor 0xFE (if ends capacity left then 0x01 else 0x00))) with (segment_tag (ends capacity left))
    by (by destruct (ends capacity left)).
  unfold segment_of. destruct (ends capacity left); [done|].
  erewrite bind_ok by reflexivity. unfold ret. f_equal. unfold cutting.
  rewrite <- app_assoc, chunk_split, blen_app. by destruct c.
Qed.

(** ** One segment put to the others *)

Lemma reassemble_step d octets n capacity left : 0 <= n < 2 ^ 16 -> 2 < capacity -> left <> [] ->
  (dx_active d = false /\ octets = [] /\ n = 0 \/ d = holding d octets n) ->
  blen octets + blen left <= dx_mrru d -> blen octets + blen left <= segment_buffer_max ->
  reassemble 0 (parsed_segment (segment_of capacity left n)) d =
  if ends capacity left then (Ok (Some (octets ++ left)), idle d)
  else (Ok None, holding d (octets ++ chunk capacity left) (u16 (n + 1))).
Proof.
  intros Hn Hc Hl Hd Hm Hb. destruct (chunk_len capacity left Hc) as [H1 H2].
  assert (Hl' : 0 < blen left) by (destruct left; [done|rewrite blen_cons; pose proof (blen_nonneg left); lia]).
  pose proof (blen_nonneg octets).
  unfold reassemble. erewrite bind_ok by reflexivity. cbn [pr_packet parsed_segment].
  assert (Hr : read_segment_header (segment_of capacity left n) = Ok (mkSegment (ends capacity left) (Z.land n 0xFF))).
  { unfold read_segment_header, segment_of. rewrite !blen_cons, (proj2 (Z.ltb_ge _ 2)) by lia.
    cbn [negb oguard obind]. rd_simp. by destruct (ends capacity left). }
  rewrite Hr. erewrite bind_ok by reflexivity. cbn [final sequence].
  unfold segment_of at 1. rewrite !blen_cons. unfold segment_header_len at 1.
  rewrite (proj2 (Z.eqb_neq (dx_mrru d) 0)), (proj2 (Z.leb_gt _ 2)) by lia. cbn [orb].
  erewrite bind_ok by (unfold lift; by rewrite (tail_from_app [segment_tag (ends capacity left); Z.land n 0xFF]
    (chunk capacity left) : tail_from (segment_of capacity left n) segment_header_len = Ok (chunk capacity left))).
  match goal with |- bind ?first _ _ = _ => assert (Ef : first d = (Ok tt, holding d octets n)) end.
  { destruct Hd as [(Ha & -> & ->) | ->]; [by rewrite Ha|by destruct d]. }
  erewrite bind_ok by exact Ef. erewrite bind_ok by reflexivity.
  change (dx_reassembly (holding d octets n)) with octets. change (dx_expected (holding d octets n)) with n.
  change (dx_mrru (holding d octets n)) with (dx_mrru d).
  rewrite Z.eqb_refl, (proj2 (Z.ltb_ge (dx_mrru d) _)), (proj2 (Z.ltb_ge segment_buffer_max _)) by lia.
  cbn [negb orb]. erewrite bind_ok by reflexivity.
  destruct (ends capacity left) eqn:Ee; cbn [negb]; [|done].
  replace left with (chunk capacity left) at 2; [done|].
  unfold ends, segment_header_len in Ee. apply Z.leb_le in Ee. apply take_ge. unfold blen, segment_header_len in *. lia.
Qed.

Lemma entered_holding d octets n : entered (holding d octets n) = holding (entered d) octets n.
Proof.
  unfold entered. change (dx_table (holding d octets n)) with (dx_table d). by destruct (table_get (dx_table d) 0).
Qed.

Lemma receive_segment fuel D d octets n capacity left size : 0 <= n < 2 ^ 16 -> 2 < capacity -> left <> [] ->
  contexts_ok (dx_table d) -> dx_large d = false -> entered d = D ->
  (dx_active D = false /\ octets = [] /\ n = 0 \/ D = holding D octets n) ->
  blen octets + blen left <= dx_mrru D -> blen octets + blen left <= segment_buffer_max ->
  rohc_decompress4 (S fuel) (segment_of capacity left n) size d =
  if ends capacity left then rohc_decompress4 fuel (octets ++ left) size (idle D)
  else (Ok None, holding D (octets ++ chunk capacity left) (u16 (n + 1))).
Proof.
  intros Hn Hc Hl Ht Hd <- Hs Hm Hb. cbn [rohc_decompress4].
  destruct (chunk capacity left) as [|b payload] eqn:Ek.
  { exfalso. destruct (chunk_len capacity left Hc) as [H1 _]. rewrite Ek, blen_nil in H1.
    destruct left as [|x left]; [done|]. rewrite blen_cons in H1. pose proof (blen_nonneg left). lia. }
  assert (E := segment_call (fun p c => rohc_decompress4 fuel p c) d (ends capacity left) (Z.land n 0xFF) b payload size Ht Hd).
  cbv zeta in E. rewrite <- Ek in *. fold (segment_of capacity left n) in E.
  etransitivity; [exact E|]. unfold bind at 1.
  rewrite (reassemble_step (entered d) octets n capacity left) by done. by destruct (ends capacity left).
Qed.

(** ** The exchange *)

Lemma exchange fuel size c D : contexts_ok (dx_table D) -> dx_large D = false -> entered D = D ->
  forall capacities sent left n d, Forall (Z.lt 2) capacities -> (length left <= length capacities)%nat -> left <> [] ->
  0 <= n < 2 ^ 16 -> contexts_ok (dx_table d) -> dx_large d = false ->
  (entered d = D /\ dx_active D = false /\ sent = [] /\ n = 0 \/ d = holding D sent n) ->
  blen sent + blen left <= dx_mrru D -> blen sent + blen left <= segment_buffer_max ->
  exists segments n', drain capacities (cutting c sent left n) = (Ok segments, done_cutting c n') /\ segments <> [] /\
    receive_all (S fuel) segments size d = rohc_decompress4 fuel (sent ++ left) size (idle D).
Proof.
  intros HT HL HD. induction capacities as [|capacity capacities IH]; intros sent left n d Hcs Hlen Hl Hn Ht Hd Hs Hm Hb.
  { destruct left; [done|cbn in Hlen; lia]. }
  apply List.Forall_cons_iff in Hcs as [Hc Hcs]. destruct (chunk_len capacity left Hc) as [H1 H2].
  assert (Hl' : 0 < blen left) by (destruct left; [done|rewrite blen_cons; pose proof (blen_nonneg left); lia]).
  assert (Hu : 0 <= u16 (n + 1) < 2 ^ 16) by (apply Z.mod_pos_bound; lia).
  assert (R : rohc_decompress4 (S fuel) (segment_of capacity left n) size d =
    if ends capacity left then rohc_decompress4 fuel (sent ++ left) size (idle D)
    else (Ok None, holding D (sent ++ chunk capacity left) (u16 (n + 1)))).
  { destruct Hs as [(E & Ha & -> & ->)|E].
    - apply receive_segment; try done. by left.
    - rewrite (receive_segment fuel (holding D sent n) d sent n); try done; [|by right].
      by rewrite E, entered_holding, HD. }
  cbn [drain]. erewrite bind_ok by reflexivity.
  replace (rohc_comp_has_segment (cutting c sent left n)) with true
    by (symmetry; apply Z.ltb_lt; change (blen sent < blen (sent ++ left)); rewrite blen_app; lia).
  unfold rohc_comp_get_segment. erewrite bind_ok by (apply write_segment_step; [done..|lia]).
  destruct (ends capacity left) eqn:Ee.
  - exists [segment_of capacity left n], (u16 (n + 1)).
    split_and!; [by destruct capacities|done|exact R].
  - assert (Hk : capacity - 2 < blen left) by (apply Z.leb_gt in Ee; exact Ee).
    destruct (IH (sent ++ chunk capacity left) (beyond capacity left) (u16 (n + 1))
      (holding D (sent ++ chunk capacity left) (u16 (n + 1)))) as (segments & n' & E1 & E2 & E3).
    + done.
    + cbn in Hlen. unfold blen in *. lia.
    + intros E. rewrite E, blen_nil in H2. lia.
    + done.
    + done.
    + done.
    + by right.
    + rewrite blen_app. lia.
    + rewrite blen_app. lia.
    + exists (segment_of capacity left n :: segments), n'. split_and!; [|done|].
      * by erewrite bind_ok by exact E1.
      * destruct segments as [|x segments]; [done|]. cbn [receive_all]. erewrite bind_ok by exact R.
        etransitivity; [exact E3|]. by rewrite <- app_assoc, chunk_split.
Qed.

(** The whole packet, with its check value. *)
Definition sealed (ip_packet : bytes) : M CompImpl bytes := fun c =>
  match compress_whole ip_packet segment_buffer_max c with
  | (Ok full, s) =>
      (if cx_ipsec s then append_icv (cx_algorithm s) (cx_key s) ip_packet full segment_buffer_max (cx_icv_len s)
       else Ok full, s)
  | r => r
  end.

Lemma compress_is_sealed ip_packet requested c : 2 < requested ->
  rohc_compress4 ip_packet requested c =
  match sealed ip_packet c with
  | (Ok whole, s) =>
      if blen whole <=? requested then (Ok whole, s)
      else if (cx_mrru s =? 0) || (cx_mrru s <? blen whole) || (segment_buffer_max <? blen whole) then (Rej, s)
      else write_next_segment requested (cutting s [] whole 0)
  | r => r
  end.
Proof.
  intros H. unfold rohc_compress4, sealed, segment_header_len. rewrite (proj2 (Z.leb_gt requested 2)) by done.
  cbn [negb]. erewrite bind_ok by reflexivity. unfold bind at 1.
  destruct (compress_whole ip_packet segment_buffer_max c) as [[full| |] s]; [|done..].
  unfold bind at 1. cbn [gets]. unfold bind at 1.
  destruct (cx_ipsec s); unfold lift, ret; [destruct (append_icv _ _ _ _ _ _) as [whole| |]; [|done..]|];
    (destruct (_ <=? requested); [done|]; by destruct ((_ =? _) || _ || _)).
Qed.

(** How the size of the caller's buffer enters [rohc_compress4]. *)
Lemma compress_sizes ip_packet c whole c1 requested : 2 < requested ->
  rohc_compress4 ip_packet segment_buffer_max c = (Ok whole, c1) ->
  blen whole <= segment_buffer_max /\
  (requested < blen whole -> blen whole <= cx_mrru c ->
   rohc_compress4 ip_packet requested c = write_next_segment requested (cutting c1 [] whole 0)).
Proof.
  intros Hr. rewrite !compress_is_sealed by (unfold segment_buffer_max; lia).
  assert (Hmrru : cx_mrru (snd (sealed ip_packet c)) = cx_mrru c).
  { unfold sealed, compress_whole. destruct (table_get _ _); [destruct (compress4 _ _ _ _ _ _) as [[]]|..]; done. }
  destruct (sealed ip_packet c) as [[w| |] s]; [|done..]. cbn [snd] in Hmrru.
  destruct (Z.leb_spec (blen w) segment_buffer_max) as [Hw|Hw].
  - intros [= <- <-]. split; [done|]. intros H1 H2.
    rewrite (proj2 (Z.leb_gt _ requested)) by lia. rewrite Hmrru, (proj2 (Z.ltb_ge (cx_mrru c) _)), (proj2 (Z.ltb_ge segment_buffer_max _)) by lia.
    by rewrite (proj2 (Z.eqb_neq (cx_mrru c) 0)) by lia.
  - rewrite (proj2 (Z.ltb_lt segment_buffer_max _)) by lia. by rewrite orb_true_r.
Qed.

Lemma entered_ok d : decomp_ok d -> decomp_ok (entered d) /\ unchanged d (idle (entered d)).
Proof.
  intros (Ht & Hr & Hk). destruct (table_get_in _ 0 Ht) as (c & E & Hc); [destruct Ht; lia|].
  destruct (prepare_ok d 0 c ltac:(lia) Hc) as [Hp Ep].
  assert (Et : dx_table (entered d) = table_set (dx_table d) 0 (prepare_context d 0 c)) by (unfold entered; by rewrite E).
  assert (Ht' : contexts_ok (dx_table (entered d))) by (rewrite Et; by apply contexts_ok_set).
  split; [done|]. split_and!.
  - split; [exact Ht'|]. split; [|exact Hk]. split; [apply bytes_ok_nil|done].
  - unfold contents. change (dx_table (idle (entered d))) with (dx_table (entered d)).
    rewrite Et, contents_set, Ep, <- contents_set. by rewrite table_set_get.
  - done.
Qed.


(** ** Segments on a channel of large CIDs *)

(** What follows the type octet of a segment is read as a CID. *)
Lemma large_segment_read last octets : bytes_ok octets ->
  let packet := segment_tag last :: octets in
  parse_rohc_packet packet true =
    obind (read_large octets) (fun r => Ok (mkParsed packet packet (fst r) false true (snd r) Segment 0)).
Proof.
  intros Hb packet. pose proof (blen_nonneg octets) as H0. unfold parse_rohc_packet, parse_from_packet, is_uncompressed_ip_payload.
  assert (Hn : (blen packet =? 0) = false) by (unfold packet; rewrite blen_cons; apply Z.eqb_neq; lia).
  assert (Hr : rd packet 0 = Ok (segment_tag last)) by (unfold packet; rewrite rd_nth by (rewrite blen_cons; lia); done).
  rewrite Hn, Hr. cbn [negb andb oguard obind].
  replace (Z.shiftr (segment_tag last) 4 =? 4) with false by (by destruct last).
  replace (Z.shiftr (segment_tag last) 4 =? 6) with false by (by destruct last). cbn [obind].
  replace (detect_packet_type (segment_tag last)) with Segment by (by destruct last).
  change (negb (type_eqb Segment PktUncompressed)) with true. cbn [andb].
  destruct octets as [|n octets]; [done|].
  replace (blen packet <? 2) with false by (symmetry; apply Z.ltb_ge; unfold packet; rewrite !blen_cons; pose proof (blen_nonneg octets); lia).
  cbn [negb oguard obind]. unfold packet at 1. rewrite (tail_from_app [segment_tag last] (n :: octets) : tail_from (segment_tag last :: n :: octets) 1 = _).
  cbn [obind]. by destruct (read_large (n :: octets)).
Qed.

(** The octets behind the type octet name no CID of the channel. *)
Definition no_cid_of (t : ContextTable) (octets : bytes) : Prop :=
  match read_large octets with Ok (cid_, _) => max_cid t < cid_ | _ => True end.

Lemma fail_refuses {A} i d : contexts_ok (dx_table d) -> 0 <= i -> fst (fail_with_feedback (A := A) i d) = Rej.
Proof.
  intros Ht Hi. pose proof (table_get_total (dx_table d) i Ht Hi) as T. unfold fail_with_feedback, set_feedback, acknowledging.
  unfold bind, gets, lift. by destruct (table_get (dx_table d) i).
Qed.

(** No feedback comes in front of it, and the call goes no further than its CID. *)
Lemma large_segment_call again d last octets size :
  contexts_ok (dx_table d) -> dx_large d = true -> bytes_ok octets -> no_cid_of (dx_table d) octets ->
  fst (decompress_call again (segment_tag last :: octets) size d) = Rej.
Proof.
  intros Ht Hl Hb Hno. set (packet := _ :: _). set (d1 := d <| dx_has_feedback := false |>).
  pose proof (large_segment_read last octets Hb) as Hp. cbv zeta in Hp. fold packet in Hp.
  pose proof (blen_nonneg octets) as H0.
  assert (Hne : (blen packet =? 0) = false) by (unfold packet; rewrite blen_cons; apply Z.eqb_neq; lia).
  assert (Hpre : feedback_prefix_len (length packet) packet 0 d1 = (Ok 0, d1)).
  { cbn [length packet feedback_prefix_len]. rewrite (proj2 (Z.ltb_lt 0 _)) by (unfold packet; rewrite blen_cons; lia).
    by destruct last. }
  unfold decompress_call. rewrite Hne. erewrite bind_ok by reflexivity. erewrite bind_ok by reflexivity. cbv zeta.
  erewrite bind_ok by reflexivity. erewrite bind_ok by exact Hpre. rewrite Z.eqb_sym, Hne. erewrite bind_ok by reflexivity.
  erewrite bind_ok by (unfold lift; by rewrite (tail_from_app [] packet : tail_from packet 0 = Ok packet)).
  unfold no_cid_of in Hno. pose proof (read_large_inv octets Hb) as Hinv.
  assert (Ha : parse_authenticated packet d1 = match read_large octets with
    | Ok r => (Ok (mkParsed packet packet (fst r) false true (snd r) Segment 0, []), d1)
    | _ => fail_with_feedback 0 d1 end).
  { unfold parse_authenticated. erewrite bind_ok by reflexivity. change (dx_large d1) with (dx_large d). rewrite Hl, Hp.
    destruct (read_large octets) as [[i len]| |]; [| |done]; cbn [obind]; (erewrite bind_ok by reflexivity); [|done].
    cbn [pr_type fst snd]. by rewrite andb_false_r. }
  destruct (read_large octets) as [[i len]| |]; [| |done].
  - erewrite bind_ok by exact Ha. cbv beta iota. erewrite bind_ok by reflexivity. cbn [fst snd].
    assert (Hg : table_get (dx_table d) i = Rej) by (unfold table_get; by rewrite (proj2 (Z.ltb_lt _ _))).
    destruct (table_get_in _ 0 Ht) as (c & Ec & _); [destruct Ht; lia|].
    erewrite bind_ok by (unfold lift, disambiguate_cid; change (dx_table d1) with (dx_table d); change (dx_large d1) with (dx_large d);
      rewrite Hl, Ec; cbn [attempt obind negb andb pr_cid pr_type]; rewrite Hg; reflexivity).
    cbv beta iota. apply (fail_refuses (A := option bytes) i d1); [done|lia].
  - pose proof (fail_refuses (A := ParsedRohcPacket * bytes) 0 d1 Ht ltac:(lia)) as F.
    unfold bind at 1. rewrite Ha. destruct (fail_with_feedback 0 d1) as [[] s]; done.
Qed.

(** C38: on a channel of large CIDs the octets behind the type octet of a segment,
    the sequence number first, are read as the CID of the packet: a number below
    128 is the CID itself, one below 192 its upper bits and the octet behind it
    the lower ones, and a larger one none at all.  Every segment where this is
    no CID, or one above the largest of the channel, is refused, whatever came
    before it and whether or not it has a payload. *)
Theorem large_channel_segment_refused fuel d last octets size :
  contexts_ok (dx_table d) -> dx_large d = true -> bytes_ok octets -> no_cid_of (dx_table d) octets ->
  fst (rohc_decompress4 fuel (segment_tag last :: octets) size d) = Rej.
Proof.
  intros Ht Hl Hb Hno. destruct fuel; cbn [rohc_decompress4]; by apply large_segment_call.
Qed.


(** ** Witness *)

(** A channel for CIDs up to [max], with segments, and a packet of it. *)
Definition sender (max : Z) : CompImpl :=
  mkComp Uplink Optimistic (table_init max) 1 (small_cid_max <? max) segment_buffer_max [] 0 0
    false None_ [] 0 false no_contract no_flow.
Definition receiver (max : Z) : DecompImpl := fresh_decomp max <| dx_mrru := segment_buffer_max |>.

(** What arrives of a packet sent in segments of [size] octets. *)
Definition sent_in_segments (max size : Z) (ip_packet : bytes) : outcome (option bytes) :=
  match (first <- rohc_compress4 ip_packet size ;; rest <- drain (repeat size 4096) ;; ret (first :: rest)) (sender max) with
  | (Ok segments, _) => fst (receive_all 2049 segments 65535 (receiver max))
  | _ => Ub
  end.

(** The segments of one packet arrive on CID 1 where the CIDs end at 15, and are
    lost where they end at 16 and take an octet of their own. *)
Example segments_need_small_cids :
  sent_in_segments 15 3 sample_packet = Ok (Some sample_packet) /\
  sent_in_segments 16 3 sample_packet = Rej.
Proof. split; vm_compute; reflexivity. Qed.

Lemma large_channel_segment_refused_witness :
  fst (rohc_decompress4 2048 (segment_tag false :: 17 :: [1; 2; 3]) 1500 (receiver 16)) = Rej /\
  fst (rohc_decompress4 2048 (segment_tag false :: 129 :: [1; 2; 3]) 1500 (receiver 256)) = Rej /\
  fst (rohc_decompress4 2048 [segment_tag true; 192] 1500 (receiver large_cid_max)) = Rej.
Proof.
  split_and!.
  - apply (large_channel_segment_refused 2048 (receiver 16) false [17; 1; 2; 3] 1500);
      [apply fresh_decomp_ok; unfold large_cid_max; lia|done|by apply bytes_ok_by|reflexivity].
  - apply (large_channel_segment_refused 2048 (receiver 256) false [129; 1; 2; 3] 1500);
      [apply fresh_decomp_ok; unfold large_cid_max; lia|done|by apply bytes_ok_by|reflexivity].
  - apply (large_channel_segment_refused 2048 (receiver large_cid_max) true [192] 1500);
      [apply fresh_decomp_ok; unfold large_cid_max; lia|done|by apply bytes_ok_by|exact I].
Defined.

Lemma receiver_ok : decomp_ok (receiver 3).
Proof. destruct (fresh_decomp_ok 3) as (H1 & H2 & H3); [unfold large_cid_max; lia|]. exact (conj H1 (conj H2 H3)). Qed.

