(* ===== verification/FirstPacket.v ===== *)
(** * The first packet of a flow, from one end to the other

    What rohc_compress4 answers for the first packet of a context is given to
    rohc_decompress4, whatever that decompressor has been through.  The examples
    at the end show the packets the theorem leaves out, and a refusal. *)

From S2P Require Import Prelude Crc Cid Encoding Context Cursor Chains EmitIr DecodeIr StandardIr Safety IrProperties.
From S2P Require Import Compressor Feedback Packets Sha256 Lla PacketImage CompactGuards CompressApi CompressFaithful.
From S2P Require Import DecompressApi Channel ReceiveSafe DecompressSafe Segmentation.

(** ** How the packet is parsed *)

Lemma ir_read q tx payload : context_ok tx -> cid_ok tx = true ->
  let packet := header q tx ++ payload in
  exists r rest first following, parse_rohc_packet packet (large_cid tx) = Ok r /\ pr_type r = PktIR /\
    pr_cid r = cid tx /\ pr_profile_id r = profile_octet q /\ decoder_packet r = packet /\
    pr_packet r = 0xFD :: rest /\ packet = first :: following /\ is_feedback_packet_start first = false.
Proof.
  intros Htx H packet. destruct (cid_ok_range tx Htx H) as [Hr Hs].
  unfold packet, header, ir_packet, ir_head. set (crc := crc8 _). set (tail := chains q tx ++ payload).
  assert (Ht : plain_tag 0xFD = true) by reflexivity.
  unfold add_cid_octets, large_cid_octets. rewrite <- !app_assoc. cbn [app]. fold tail.
  destruct (large_cid tx) eqn:El; cbn [negb andb app].
  - eexists _, _, _, _. split.
    + apply (parse_packet_tagged 0xFD (cid tx) (profile_octet q) (crc :: tail) true Ht Hr).
    + by destruct q.
  - destruct (Z.ltb_spec 0 (cid tx)) as [Hp|Hz]; cbn [app].
    + eexists _, _, _, _. split.
      * apply (parse_packet_add_cid 0xFD (cid tx) (profile_octet q) (crc :: tail) Ht). lia.
      * split_and!; try (by destruct q). specialize (Hs eq_refl).
        assert (H16 : cid tx = 1 \/ cid tx = 2 \/ cid tx = 3 \/ cid tx = 4 \/ cid tx = 5 \/ cid tx = 6 \/ cid tx = 7 \/
          cid tx = 8 \/ cid tx = 9 \/ cid tx = 10 \/ cid tx = 11 \/ cid tx = 12 \/ cid tx = 13 \/ cid tx = 14 \/ cid tx = 15) by lia.
        by repeat destruct H16 as [->|H16]; try rewrite H16.
    + eexists _, _, _, _. split.
      * apply (parse_packet_tagged 0xFD 0 (profile_octet q) (crc :: tail) false Ht).
        unfold large_cid_max. lia.
      * replace (cid tx) with 0 by lia. by destruct q.
Qed.

(** ** What the receiver builds *)

Definition same_ipv4_header (a b : Context) : Prop :=
  ipv4_options_len a = 0 /\ ipv4_options_len b = 0 /\ ipv4_tos a = ipv4_tos b /\ ipv4_id a = ipv4_id b /\
  ipv4_flags a = ipv4_flags b /\ ipv4_ttl a = ipv4_ttl b /\ ipv4_saddr a = ipv4_saddr b /\ ipv4_daddr a = ipv4_daddr b.

Definition same_ipv6_header (a b : Context) : Prop :=
  ipv6_extension_len a = 0 /\ ipv6_extension_len b = 0 /\ ipv6_traffic_class a = ipv6_traffic_class b /\
  ipv6_flow_label a = ipv6_flow_label b /\ ipv6_next_header a = ipv6_next_header b /\
  ipv6_hop_limit a = ipv6_hop_limit b /\ ipv6_saddr a = ipv6_saddr b /\ ipv6_daddr a = ipv6_daddr b.

Lemma slice_nothing l : slice l 0 0 = Ok [].
Proof. unfold slice. pose proof (blen_nonneg l). by rewrite (proj2 (Z.ltb_ge (blen l) (0 + 0))) by lia. Qed.

Lemma ipv4_header_same a b protocol total : same_ipv4_header a b -> ipv4_header a protocol total = ipv4_header b protocol total.
Proof.
  intros (Ea & Eb & E1 & E2 & E3 & E4 & E5 & E6). unfold ipv4_header, ipv4_octets.
  by rewrite Ea, Eb, E1, E2, E3, E4, E5, E6, !slice_nothing.
Qed.

Lemma ipv6_header_same a b total upper : same_ipv6_header a b -> build_ipv6_header total a upper = build_ipv6_header total b upper.
Proof.
  intros (Ea & Eb & E1 & E2 & E3 & E4 & E5 & E6). unfold build_ipv6_header.
  by rewrite Ea, Eb, E1, E2, E3, E4, E5, E6, !slice_nothing.
Qed.

(** The fields a packet of the profile [p] is built from are the same. *)
Definition same_headers (p : Profile) (a b : Context) : Prop :=
  profile a = p /\ profile b = p /\ ip_version a = ip_version b /\
  (if ip_version a =? 6 then same_ipv6_header a b else same_ipv4_header a b) /\
  match p with
  | IP => ip_version a = 6 \/ ipv4_protocol a = ipv4_protocol b
  | ESP => legacy_esp_payload_includes_header a = false /\ legacy_esp_payload_includes_header b = false /\
           esp_octets a = esp_octets b /\ (ip_version a = 6 \/ ipv4_protocol a = ipv4_protocol b)
  | UDP => forall n, udp_octets a n = udp_octets b n
  | RTP => (forall n, udp_octets a n = udp_octets b n) /\ rtp_octets a = rtp_octets b /\
           rtp_context_payload_layout a = Ok (0, 0, 0) /\ rtp_context_payload_layout b = Ok (0, 0, 0)
  | _ => False
  end.

Lemma obind_ext {A B} (m : outcome A) (k k' : A -> outcome B) : (forall x, k x = k' x) -> obind m k = obind m k'.
Proof. intros H. by destruct m; cbn. Qed.

Lemma build_ip_same a b capacity payload : same_ipv4_header a b -> ipv4_protocol a = ipv4_protocol b ->
  build_ip_packet capacity a payload = build_ip_packet capacity b payload.
Proof.
  intros H Hp. pose proof H as (Ea & Eb & _). unfold build_ip_packet. rewrite Ea, Eb, Hp.
  apply obind_ext. intros total. by rewrite (ipv4_header_same a b).
Qed.

Lemma ipv6_sizes_same a b capacity before upper : same_ipv6_header a b -> ipv6_sizes capacity a before upper = ipv6_sizes capacity b before upper.
Proof. intros (Ea & Eb & _). unfold ipv6_sizes. by rewrite Ea, Eb. Qed.

Lemma build_ipv6_ip_same a b capacity payload : same_ipv6_header a b ->
  build_ipv6_ip_packet capacity a payload = build_ipv6_ip_packet capacity b payload.
Proof.
  intros H. unfold build_ipv6_ip_packet. rewrite (ipv6_sizes_same a b) by done. apply obind_ext. intros sizes.
  by rewrite (ipv6_header_same a b).
Qed.

Lemma rtp_body_same a b payload : rtp_octets a = rtp_octets b -> rtp_body a 0 0 0 payload = rtp_body b 0 0 0 payload.
Proof. intros E. unfold rtp_body. by rewrite !slice_nothing, E. Qed.

Lemma same_headers_build p a b capacity payload : same_headers p a b -> build_packet capacity a payload = build_packet capacity b payload.
Proof.
  intros (Ea & Eb & Ev & Hip & H). unfold build_packet. rewrite Ea, Eb, <- Ev.
  destruct (ip_version a =? 6) eqn:E6; destruct p; try done.
  - destruct H as (Hu & Hr & La & Lb). unfold build_ipv6_rtp_packet, length_or_coverage, udp_protocol.
    rewrite La, Lb, Ea, Eb. cbn [obind profile_eqb]. apply obind_ext. intros _. rewrite (ipv6_sizes_same a b) by done.
    apply obind_ext. intros sizes. rewrite (ipv6_header_same a b) by done. apply obind_ext. intros h.
    rewrite (rtp_body_same a b) by done. apply obind_ext. intros body. by rewrite Hu.
  - unfold build_ipv6_udp_packet, length_or_coverage. rewrite Ea, Eb, (ipv6_sizes_same a b) by done.
    apply obind_ext. intros sizes. rewrite (ipv6_header_same a b) by done. apply obind_ext. intros h. by rewrite H.
  - destruct H as (La & Lb & He & _). rewrite La, Lb. unfold build_esp_packet. rewrite <- Ev, E6, He.
    pose proof Hip as (X1 & X2 & _). rewrite X1, X2. do 3 (apply obind_ext; intros _). by apply build_ipv6_ip_same.
  - by apply build_ipv6_ip_same.
  - destruct H as (Hu & Hr & La & Lb). unfold build_rtp_packet, length_or_coverage, udp_protocol.
    pose proof Hip as (X1 & X2 & _). rewrite La, Lb, Ea, Eb, X1, X2. cbn [obind profile_eqb].
    do 2 (apply obind_ext; intros ?). do 2 (apply obind_ext; intros _). rewrite (ipv4_header_same a b) by done.
    apply obind_ext. intros h. rewrite (rtp_body_same a b) by done. apply obind_ext. intros body. by rewrite Hu.
  - unfold build_udp_packet, length_or_coverage, udp_protocol. pose proof Hip as (X1 & X2 & _). rewrite X1, X2, Ea, Eb.
    apply obind_ext. intros total. do 2 (apply obind_ext; intros _). rewrite (ipv4_header_same a b) by done.
    apply obind_ext. intros h. by rewrite H.
  - destruct H as (La & Lb & He & Hp). rewrite La, Lb. unfold build_esp_packet. rewrite <- Ev, E6, He.
    do 3 (apply obind_ext; intros _). apply build_ip_same; [done|].
    destruct Hp as [E|]; [by rewrite E in E6|done].
  - apply build_ip_same; [done|]. destruct H as [E|]; [by rewrite E in E6|done].
Qed.

(** The contexts whose packets an IR packet describes in full. *)
Definition in_full (q : StandardProfile) (tx : Context) : Prop :=
  profile tx = as_profile q /\ legacy_esp_payload_includes_header tx = false /\ expressible q tx = true /\
  (ip_version tx = 4 -> ipv4_flags tx = Z.shiftl (df tx) 1 /\ (id_behavior tx = 3 -> ipv4_id tx = 0)) /\
  (q = StdRTP -> vpxcc (rtp tx) = 0x80).

(** No CSRC list, extension or padding is left from an earlier flow. *)
Definition no_extras (c : Context) : Prop :=
  csrc_list_len (rtp c) = 0 /\ extension_len (rtp c) = 0 /\ padding_len (rtp c) = 0.

Lemma layout_nothing c : vpxcc (rtp c) = 0x80 -> no_extras c -> rtp_context_payload_layout c = Ok (0, 0, 0).
Proof.
  intros Ev (E1 & E2 & E3). unfold rtp_context_payload_layout, rtp_extras_body_len. rewrite Ev, E1, E2, E3.
  change (Z.land 0x80 0x0F * 4) with 0. pose proof (blen_nonneg (csrc_list (rtp c))). by rewrite (proj2 (Z.ltb_ge _ 0)).
Qed.

(** An RTP header without them refuses to be built where they are left. *)
Lemma layout_extras c : vpxcc (rtp c) = 0x80 -> ~ no_extras c -> rtp_context_payload_layout c = Rej.
Proof.
  intros Ev E. unfold rtp_context_payload_layout, rtp_extras_body_len, no_extras in *. rewrite Ev.
  change (Z.land 0x80 0x0F * 4) with 0. change (negb (Z.land 0x80 0x10 =? 0)) with false.
  change (negb (Z.land 0x80 0x20 =? 0)) with false. cbv zeta. cbn iota.
  destruct (Z.eqb_spec (csrc_list_len (rtp c)) 0); [|done]. destruct (_ <? _); [done|].
  destruct (Z.eqb_spec (extension_len (rtp c)) 0); [|done]. destruct (Z.eqb_spec (padding_len (rtp c)) 0); [|done].
  exfalso. by apply E.
Qed.

#[global] Instance standard_profile_dec : EqDecision StandardProfile.
Proof. solve_decision. Defined.

#[global] Instance no_extras_dec c : Decision (no_extras c).
Proof. unfold no_extras. apply _. Defined.

(** The context an IR packet of the profile [q] finds has a CSRC list, an
    extension or padding left, from an RTP packet received before. *)
Definition extras_left (q : StandardProfile) (before : Context) : Prop :=
  q = StdRTP /\ (rohc_state before = NoContext \/ profile before = RTP) /\ ~ no_extras before.

Lemma image_ip tx c b : standard_ip_ok tx = true ->
  (ip_version tx = 4 -> ipv4_flags tx = Z.shiftl (df tx) 1 /\ (id_behavior tx = 3 -> ipv4_id tx = 0)) ->
  let c' := dynamic_image tx b (static_image tx c) in
  ip_version c' = ip_version tx /\
  (if ip_version tx =? 6 then same_ipv6_header tx c' else same_ipv4_header tx c') /\
  (ip_version tx = 6 \/ ipv4_protocol tx = ipv4_protocol c').
Proof.
  intros Hip Hf. pose proof (standard_ip_version tx Hip) as V. unfold standard_ip_ok in Hip. cbv zeta.
  unfold dynamic_image, static_image. destruct V as [E|E]; rewrite E in *; cbn [Z.eqb Pos.eqb] in *; bool_prop.
  - destruct (Hf eq_refl) as [H1 H2].
    assert (Hid : (if id_present tx then ipv4_id tx else 0) = ipv4_id tx).
    { unfold id_present. destruct (Z.eqb_spec (id_behavior tx) 3); [symmetry; auto|done]. }
    unfold same_ipv4_header. destruct b; (split_and!; first [reflexivity|exact Hip|exact H1|symmetry; exact Hid|by right]).
  - unfold same_ipv6_header. split_and!; try (by destruct b); try done. by left.
Qed.

Lemma id_image_shape rx c : exists b, id_image rx c = c <| ipv4_id_sequential := b |>.
Proof. unfold id_image. destruct (_ && _); [by eexists|]. exists (ipv4_id_sequential c). by destruct c. Qed.

Lemma stride_image_shape tx rx r : exists a b, stride_image tx rx r = r <| ts_stride := a |> <| ts_residue := b |>.
Proof.
  unfold stride_image. assert (E : r = r <| ts_stride := ts_stride r |> <| ts_residue := ts_residue r |>) by (by destruct r).
  destruct (negb _); [|by eexists _, _]. destruct (infer_timestamp_stride _ _ _ _) as [[? ?]|]; by eexists _, _.
Qed.

(** A frame: what the images change beside the IP header is not of it. *)
Definition ip_part (c : Context) : Z * Z * (Z * Z * Z * Z * Z * Z * Z) * (Z * Z * Z * Z * Z * bytes * bytes) :=
  (ip_version c, ipv4_protocol c,
   (ipv4_options_len c, ipv4_tos c, ipv4_id c, ipv4_flags c, ipv4_ttl c, ipv4_saddr c, ipv4_daddr c),
   (ipv6_extension_len c, ipv6_traffic_class c, ipv6_flow_label c, ipv6_next_header c, ipv6_hop_limit c, ipv6_saddr c, ipv6_daddr c)).

Lemma ip_part_dynamic tx e c c' : ip_part c = ip_part c' -> ip_part (dynamic_image tx e c) = ip_part (dynamic_image tx e c').
Proof.
  unfold ip_part, dynamic_image. intros [= E1 E2 E3 E4 E5 E6 E7 E8 E9 E10 E11 E12 E13 E14 E15 E16].
  destruct (ip_version tx =? 6), e; cbn; congruence.
Qed.

Lemma ip_part_same (tx c c' : Context) : ip_part c = ip_part c' ->
  ip_version c = ip_version c' /\ ipv4_protocol c = ipv4_protocol c' /\
  (same_ipv4_header tx c -> same_ipv4_header tx c') /\ (same_ipv6_header tx c -> same_ipv6_header tx c').
Proof.
  unfold ip_part, same_ipv4_header, same_ipv6_header. intros [= E1 E2 E3 E4 E5 E6 E7 E8 E9 E10 E11 E12 E13 E14 E15 E16].
  split_and!; [done..|intros (?&?&?&?&?&?&?&?)|intros (?&?&?&?&?&?&?&?)]; split_and!; congruence.
Qed.

Lemma image_ip_part q tx rx : exists e, ip_part (dynamic_image tx e (static_image tx rx)) = ip_part (image q tx rx).
Proof.
  assert (S : forall e c, ip_part c = ip_part (static_image tx rx) ->
    ip_part (dynamic_image tx e (static_image tx rx)) = ip_part (dynamic_image tx e c)) by (intros; by apply ip_part_dynamic).
  destruct q; cbn [image].
  - exists true. by apply (S true).
  - exists false. by apply (S false).
  - exists false. by apply (S false).
  - exists false. unfold rtp_image. cbv zeta.
    rewrite (S false (ports_image tx (base_image tx rx)
      <| rtp := rtp (ports_image tx (base_image tx rx)) <| ssrc := ssrc (rtp tx) |> |>)) by reflexivity.
    match goal with |- context [id_image rx ?c] => destruct (id_image_shape rx c) as (b & ->) end. reflexivity.
Qed.

Lemma expressible_extras q tx : expressible q tx = true -> q = StdRTP -> no_extras tx.
Proof. intros H ->. unfold expressible, standard_rtp_ok in H. bool_prop. done. Qed.

(** What the images hold beside the IP header. *)
Lemma image_fields q tx rx : in_full q tx -> (q = StdRTP -> no_extras rx) ->
  profile (image q tx rx) = as_profile q /\ legacy_esp_payload_includes_header (image q tx rx) = false /\
  match q with
  | StdIP => True
  | StdESP => esp_octets tx = esp_octets (image q tx rx)
  | StdUDP => forall n, udp_octets tx n = udp_octets (image q tx rx) n
  | StdRTP => (forall n, udp_octets tx n = udp_octets (image q tx rx) n) /\ rtp_octets tx = rtp_octets (image q tx rx) /\
      rtp_context_payload_layout tx = Ok (0, 0, 0) /\ rtp_context_payload_layout (image q tx rx) = Ok (0, 0, 0)
  end.
Proof.
  intros (Ep & Hl & Hx & _ & Hv) Hrx. pose proof (expressible_extras q tx Hx) as Htx.
  unfold expressible in Hx. apply andb_true_iff in Hx as [Hip _].
  pose proof (standard_ip_version tx Hip) as V.
  destruct q; cbn [image as_profile].
  - split_and!; [done| |done]. unfold ip_image, commit, dynamic_image, base_image, static_image. by destruct V as [-> | ->].
  - unfold esp_image, commit, dynamic_image, base_image, static_image. by destruct V as [-> | ->].
  - unfold udp_image, commit, checksum_image, ports_image, dynamic_image, base_image, static_image. by destruct V as [-> | ->].
  - specialize (Hv eq_refl). specialize (Htx eq_refl). specialize (Hrx eq_refl). unfold rtp_image. cbv zeta.
    match goal with |- context [id_image rx ?c] => destruct (id_image_shape rx c) as (b & ->) end.
    match goal with |- context [stride_image tx rx ?r] => destruct (stride_image_shape tx rx r) as (x & y & ->) end.
    unfold dynamic_image, base_image, static_image, checksum_image, ports_image.
    destruct V as [-> | ->]; cbn [Z.eqb Pos.eqb]; split_and!; try reflexivity.
    all: try (by apply layout_nothing). all: try (by apply (layout_nothing (_ <| rohc_state := _ |>))).
    all: unfold rtp_octets; rewrite Hv; reflexivity.
Qed.

(** The receiver's context builds what the sender's does. *)
Lemma image_builds q tx rx capacity payload : in_full q tx -> (q = StdRTP -> no_extras rx) ->
  build_packet capacity (image q tx rx) payload = build_packet capacity tx payload.
Proof.
  intros H Hrx. symmetry. apply (same_headers_build (as_profile q)).
  destruct (image_fields q tx rx H Hrx) as (Ep & El & Hq). destruct (image_ip_part q tx rx) as (e & Ei).
  destruct H as (Hp & Hl & Hx & Hf & _). unfold expressible in Hx. apply andb_true_iff in Hx as [Hip _].
  destruct (image_ip tx rx e Hip Hf) as (Ev & Hh & Hpr). destruct (ip_part_same tx _ _ Ei) as (V & P & S4 & S6).
  rewrite V in Ev. rewrite P in Hpr. split_and!; [done|done|done| |].
  - destruct (ip_version tx =? 6); auto.
  - destruct q; cbn [as_profile]; done.
Qed.

(** What was left of an earlier packet survives an RTP packet. *)
Lemma image_extras tx rx : ip_version tx = 4 \/ ip_version tx = 6 ->
  let c := image StdRTP tx rx in
  vpxcc (rtp c) = 0x80 /\ profile c = RTP /\ (no_extras c -> no_extras rx).
Proof.
  intros V. cbn [image]. unfold rtp_image. cbv zeta.
  match goal with |- context [id_image rx ?c] => destruct (id_image_shape rx c) as (b & ->) end.
  match goal with |- context [stride_image tx rx ?r] => destruct (stride_image_shape tx rx r) as (x & y & ->) end.
  unfold dynamic_image, base_image, static_image, checksum_image, ports_image.
  by destruct V as [-> | ->].
Qed.

Lemma image_refuses tx rx capacity payload : in_full StdRTP tx -> ~ no_extras rx ->
  build_packet capacity (image StdRTP tx rx) payload = Rej.
Proof.
  intros (_ & _ & Hx & _) Hrx. unfold expressible in Hx. apply andb_true_iff in Hx as [Hip _].
  destruct (image_extras tx rx (standard_ip_version tx Hip)) as (Ev & Ep & En).
  pose proof (layout_extras _ Ev ltac:(auto)) as L. unfold build_packet. rewrite Ep.
  unfold build_ipv6_rtp_packet, build_rtp_packet. rewrite L. by destruct (_ =? 6).
Qed.

(** ** The packet received *)

(** An IR packet of a standard profile is read by nothing but its decoder. *)
Lemma decode_ir_only again large cid_ before m capacity pending r rest s :
  pr_type r = PktIR -> pr_profile_id r <> 0 -> pr_packet r = 0xFD :: rest ->
  decode_parsed again large cid_ before m capacity [] pending false r s =
  finish_decoding cid_ before m pending r (receive_packet large cid_ before m capacity [] r false PktIR false) s.
Proof.
  intros Ht Hid Hp. unfold decode_parsed.
  rewrite or_else_none by (unfold finish_decoding, uncompressed_packet; by rewrite Ht).
  rewrite or_else_none by (unfold finish_decoding, uncompressed_ir; by rewrite Ht, (proj2 (Z.eqb_neq _ 0))).
  replace (settle_type large before r) with r by (unfold settle_type; rewrite Ht; cbn; by rewrite andb_false_r).
  unfold settled_parts.
  do 3 (rewrite or_else_none by (unfold finish_decoding, rtp_pt0_crc7, esp_pt0_crc7, pt1_seq_id, formal_type; by rewrite Ht)).
  do 4 (rewrite or_else_none by (unfold finish_decoding, udp_pt0, esp_pt0, ip_pt0, rtp_pt0, rtp_pt0_candidate;
    rewrite Hp; cbn; rewrite ?andb_false_r; reflexivity)).
  unfold resolve_overlap. rewrite Hp. cbn [starts_with]. rewrite andb_false_r. cbn [andb negb].
  erewrite bind_ok by reflexivity. cbn iota. rewrite Ht. unfold rtp_pt0_candidate. rewrite Ht. done.
Qed.

Lemma compatible_profile q : profile_octet q <> 0.
Proof. by destruct q. Qed.

(** The call up to the choice of a decoder. *)
Lemma ir_call again d q tx payload capacity before :
  contexts_ok (dx_table d) -> dx_ipsec d = false -> dx_large d = large_cid tx ->
  context_ok tx -> cid_ok tx = true -> table_get (dx_table d) (cid tx) = Ok before ->
  let packet := header q tx ++ payload in
  let entered := d <| dx_has_feedback := false |> <| dx_table := table_set (dx_table d) (cid tx) (prepare_context d (cid tx) before) |> in
  exists r pending, decoder_packet r = packet /\ pr_type r = PktIR /\ pr_profile_id r = profile_octet q /\
    decompress_call again packet capacity d =
    finish_decoding (cid tx) before (dx_mode d) pending r
      (receive_packet (large_cid tx) (cid tx) before (dx_mode d) capacity [] r false PktIR false) entered.
Proof.
  intros Ht Hi Hl Htx Hcid Hget packet entered.
  destruct (ir_read q tx payload Htx Hcid) as (r & rest & first & following & Hp & Hty & Hc & Hid & Hd & Hpk & Hf & Hfb).
  fold packet in Hp, Hd, Hf.
  exists r, (if dx_has_feedback d then Some (dx_last_feedback d) else None). split_and!; [done..|].
  set (d1 := d <| dx_has_feedback := false |>).
  assert (Hn : (blen packet =? 0) = false) by (rewrite Hf, blen_cons; pose proof (blen_nonneg following); apply Z.eqb_neq; lia).
  assert (Hpre : feedback_prefix_len (length packet) packet 0 d1 = (Ok 0, d1)).
  { destruct (length packet) eqn:El; [by rewrite Hf in El|]. cbn [feedback_prefix_len].
    rewrite (proj2 (Z.ltb_lt 0 _)) by (apply Z.eqb_neq in Hn; pose proof (blen_nonneg packet); lia).
    cbn [negb]. erewrite bind_ok by (unfold lift; rewrite Hf; reflexivity). by rewrite Hfb. }
  assert (Ha : parse_authenticated packet d1 = (Ok (r, []), d1)).
  { unfold parse_authenticated. erewrite bind_ok by reflexivity. change (dx_large d1) with (dx_large d). rewrite Hl, Hp.
    erewrite bind_ok by reflexivity. change (dx_ipsec d1) with (dx_ipsec d). by rewrite Hi. }
  assert (Hdis : disambiguate_cid d1 r = Ok (r, cid tx, Some before)).
  { destruct (table_get_in _ 0 Ht) as (z & Ez & _); [destruct Ht; lia|].
    unfold disambiguate_cid. change (dx_table d1) with (dx_table d). rewrite Ez. cbn [attempt obind].
    rewrite Hpk. cbn [starts_with]. rewrite andb_false_r. cbn [andb]. rewrite Hc, Hget. cbn [attempt obind]. by rewrite Hty. }
  unfold decompress_call. rewrite Hn. erewrite bind_ok by reflexivity. erewrite bind_ok by reflexivity. cbv zeta.
  erewrite bind_ok by reflexivity. erewrite bind_ok by exact Hpre. rewrite Z.eqb_sym, Hn. erewrite bind_ok by reflexivity.
  erewrite bind_ok by (unfold lift; by rewrite (tail_from_app [] packet : tail_from packet 0 = Ok packet)).
  erewrite bind_ok by exact Ha. cbv beta iota. erewrite bind_ok by reflexivity.
  erewrite bind_ok by (unfold lift; by rewrite Hdis). cbv beta iota. erewrite bind_ok by reflexivity.
  change (0 <? blen []) with false. rewrite (andb_false_r (dx_ipsec d1)). change (dx_large d1) with (dx_large d). rewrite Hl.
  apply decode_ir_only with (rest := rest); [done| |done]. rewrite Hid. apply compatible_profile.
Qed.

Section Received.
Context (d : DecompImpl) (q : StandardProfile) (tx before : Context) (payload ip_packet : bytes) (capacity : Z).
Hypotheses (Hd : decomp_ok d) (Hipsec : dx_ipsec d = false) (Hl : dx_large d = large_cid tx)
  (Hrange : 0 <= cid tx <= max_cid (dx_table d)) (Hget : table_get (dx_table d) (cid tx) = Ok before)
  (Hbefore : context_ok before).
Hypotheses (Htx : context_ok tx) (Hcid : cid_ok tx = true) (Hfull : in_full q tx) (Hcar : IrProperties.carries q tx)
  (Hpay : bytes_ok payload) (Hsize : blen (header q tx ++ payload) < 2 ^ 60)
  (Hbuild : build_packet capacity tx payload = Ok ip_packet).

Let packet : bytes := header q tx ++ payload.
Let ctx : Context := prepare_context d (cid tx) before.

(** The context the decoder starts from. *)
Definition decoding_context : Context := ir_context (large_cid tx) (cid tx) before (as_profile q) ctx.

Lemma cid_small : 0 <= cid tx < 2 ^ 32.
Proof. destruct Hd as [(H & _) _]. lia. Qed.

Lemma prepared : context_ok ctx /\ cid ctx = cid tx /\ large_cid ctx = large_cid tx /\ rtp ctx = rtp before.
Proof.
  split; [by apply prepare_ok; [apply cid_small|]|]. unfold ctx, prepare_context. cbv zeta.
  destruct (_ && _); by rewrite <- Hl.
Qed.

Lemma decoding_context_ok : context_ok decoding_context /\ same_channel tx decoding_context.
Proof.
  destruct prepared as (H1 & H2 & H3 & H4). split; [apply ir_context_ok; [apply cid_small|done]|].
  unfold decoding_context, ir_context, same_channel. destruct (_ && _); [done|]. by destruct (_ && _).
Qed.

(** Extras reach the decoder only from a context of the same profile. *)
Lemma decoding_extras : q = StdRTP -> no_extras decoding_context \/ ~ no_extras decoding_context /\ extras_left q before.
Proof.
  intros Hq. destruct (decide (no_extras decoding_context)) as [|N]; [by left|right; split; [done|]].
  assert (Hp : as_profile q = RTP) by by rewrite Hq.
  destruct prepared as (_ & _ & _ & H4). split; [done|].
  unfold decoding_context, ir_context, known_before, state_eqb, profile_eqb, no_extras in *. rewrite Hp in N.
  destruct (bool_decide_reflect (rohc_state before = NoContext)) as [E|E]; cbn [negb andb] in N.
  - rewrite <- H4. by split; [left|].
  - destruct (bool_decide_reflect (profile before = RTP)) as [E'|E']; cbn [negb andb] in N; [|by elim N].
    rewrite <- H4. by split; [right|].
Qed.

(** The packet decodes to a context that builds what the sender's does, or the
    older reading stands in the way. *)
Lemma received_value r : decoder_packet r = packet -> pr_type r = PktIR -> pr_profile_id r = profile_octet q ->
  let value := (let! h := receive_header (large_cid tx) (cid tx) before r PktIR false ctx in
                build_received capacity r false h) in
  (exists c, value = Ok (c, ip_packet) /\ context_ok c) \/
  value = Rej /\ (extras_left q before \/ exists x, run_decoder (legacy_decoder q) packet decoding_context = Ok x).
Proof.
  intros Hdec Ht Hid. destruct decoding_context_ok as (Hrx & Hch). cbv zeta.
  unfold receive_header. cbn [type_eqb]. unfold unchecked, receive_ir.
  assert (Hp : incoming_profile r = Some (as_profile q)) by (unfold incoming_profile; rewrite Hid; by destruct q).
  assert (Hi : forall c, ir_decoder r (as_profile q) c = decode_ir q packet c)
    by (intros c; unfold ir_decoder; rewrite Hdec; by destruct q).
  rewrite Hp, Hi. fold decoding_context.
  destruct (decoded_or_refused q tx decoding_context payload Htx Hrx Hcid) as [E|[E X]]; try done.
  - by destruct Hfull as (_ & _ & ? & _).
  - unfold size_ok. pose proof (blen_nonneg (header q tx ++ payload)). lia.
  - fold packet in E. change (type_eqb PktIR PktIR) with true. cbn iota. rewrite E. cbn [obind fst snd].
    unfold build_received. rewrite Hdec. unfold payload_after_header.
    rewrite (proj2 (Z.ltb_ge (blen packet) _)) by (unfold packet; rewrite blen_app; pose proof (blen_nonneg payload); lia).
    cbn [negb oguard obind]. unfold packet. rewrite tail_from_app. cbn [obind].
    replace (build_packet capacity (after_ir (cid tx) before (as_profile q) (image q tx decoding_context)) payload)
      with (build_packet capacity (image q tx decoding_context) payload)
      by (unfold after_ir; repeat destruct (_ && _); try done; by destruct (profile_eqb (profile before) (as_profile q))).
    destruct (decide (q = StdRTP /\ ~ no_extras decoding_context)) as [[Hq N]|Hno].
    { right. destruct (decoding_extras Hq) as [|[_ X]]; [done|]. split; [|by left].
      assert (Hf : in_full StdRTP tx) by by rewrite <- Hq.
      rewrite Hq. by rewrite (image_refuses tx decoding_context). }
    left. eexists. split.
    + rewrite image_builds, Hbuild; [done|done|]. intros Hq. destruct (decoding_extras Hq) as [|[N _]]; [done|]. by elim Hno.
    + apply after_ir_ok. assert (Hpb : bytes_ok packet) by (apply bytes_ok_app; auto using header_ok).
      pose proof (compatible_safe q packet decoding_context ltac:(unfold size_ok; pose proof (blen_nonneg packet); unfold packet in *; lia) Hpb Hrx) as W.
      rewrite E in W. apply W.
  - right. split; [|by right]. change (type_eqb PktIR PktIR) with true. cbn iota. fold packet in E. by rewrite E.
Qed.

(** What the call answers: the packet that was sent, unless the older reading
    of the octets is possible too. *)
Lemma ir_received fuel :
  (exists d', rohc_decompress4 fuel packet capacity d = (Ok (Some ip_packet), d')) \/
  (fst (rohc_decompress4 fuel packet capacity d) = Rej /\
   (extras_left q before \/ exists x, run_decoder (legacy_decoder q) packet decoding_context = Ok x)).
Proof.
  assert (Hdt : contexts_ok (dx_table d)) by apply Hd.
  set (again := fun p c => match fuel with O => lift Ub | S fuel => rohc_decompress4 fuel p c end).
  destruct (ir_call again d q tx payload capacity before Hdt Hipsec Hl Htx Hcid Hget) as (r & pending & Hdec & Ht & Hid & E).
  fold packet in Hdec, E. fold ctx in E.
  replace (rohc_decompress4 fuel packet capacity d) with (decompress_call again packet capacity d) by (by destruct fuel).
  rewrite E. clear E. set (s := _ <| dx_table := _ |>).
  destruct prepared as (Hctx & _).
  assert (Hs : here (cid tx) s).
  { split; [|exact Hrange]. split; [by apply contexts_ok_set|apply Hd]. }
  assert (Hload : table_get (dx_table s) (cid tx) = Ok ctx).
  { unfold s. cbn [dx_table set_field set_dx_table]. unfold table_get in *. cbn [max_cid table_set table].
    destruct (_ <? _); [done|]. destruct (table (dx_table d) !! Z.to_nat (cid tx)) eqn:Ex; [|done].
    rewrite list_lookup_insert_eq; [done|]. by eapply lookup_lt_Some. }
  destruct (received_value r Hdec Ht Hid) as [(c & Ev & Hc)|[Ev X]].
  - left. unfold finish_decoding, receive_packet. 
    erewrite bind_ok by (unfold load_ctx; erewrite bind_ok by reflexivity; unfold lift; rewrite Hload; reflexivity).
    erewrite bind_ok by (unfold lift; rewrite Ev; reflexivity). cbv beta iota.
    assert (Edel : deliver (cid tx) [] r c ip_packet s =
      (Ok (Some ip_packet), s <| dx_table := table_set (dx_table s) (cid tx) c |> <| dx_mode := mode c |>)).
    { unfold deliver. erewrite bind_ok by reflexivity. erewrite bind_ok by reflexivity.
      unfold verify_rohcoipsec_icv. by erewrite bind_ok by (erewrite bind_ok by reflexivity; rewrite orb_true_r; reflexivity). }
    rewrite Edel. set (s2 := _ <| dx_mode := _ |>).
    pose proof (acknowledge_ok (cid tx) before pending r cid_small s s2 (fun _ _ => True) (fun _ => False)) as W.
    unfold wp in W. unfold bind.
    destruct (acknowledge_refresh (cid tx) pending r s2) as [[[]| |] s3].
    + by exists s3.
    + exfalso. apply W; [|done]. by apply (leaves_store (cid tx) before s s c).
    + exfalso. apply W; [|done]. by apply (leaves_store (cid tx) before s s c).
  - right. split; [|exact X]. unfold finish_decoding, receive_packet.
    erewrite bind_ok by (unfold load_ctx; erewrite bind_ok by reflexivity; unfold lift; rewrite Hload; reflexivity).
    erewrite bind_ok by (unfold lift; rewrite Ev; reflexivity). cbv beta iota. erewrite bind_ok by reflexivity.
    set (s2 := restore _ _ _ s). unfold refuse, fail_with_feedback.
    pose proof (wp_set_feedback (cid tx) before s s2 (cid tx) NACK (fun _ _ => True) (fun _ => False)) as W.
    unfold wp in W. unfold bind at 1.
    destruct (set_feedback (cid tx) NACK s2) as [[[]| |] s3]; [done|done|].
    exfalso. apply W; [|lia|done]. by apply (leaves_store (cid tx) before s s before).
Qed.
End Received.

(** ** Both ends *)

(** RFC 791 has the first of the three flags zero. *)
Definition reserved_clear (ip_packet : bytes) (v : ParsedIpView) : Prop :=
  view_is_ipv6 v = false -> field16 ip_packet 6 < 0x8000.

(** The DF flag is all that is left of the flags. *)
Lemma df_flags f : 0 <= f < 0x8000 -> is_fragmented f = false ->
  let flags := u8 (Z.land (Z.shiftr f 13) 0x07) in flags = Z.shiftl (Z.land (Z.shiftr flags 1) 0x01) 1.
Proof.
  intros Hf H. unfold is_fragmented in H. apply negb_false_iff, Z.eqb_eq in H. change 0x3FFF with (Z.ones 14) in H.
  rewrite Z.land_ones in H by lia. assert (f = 0 \/ f = 16384) as [-> | ->]; [|done..].
  change (2 ^ 14) with 16384 in H. Z.div_mod_to_equations. lia.
Qed.

Lemma opened_in_full cid_value large ip_packet out_capacity v q c1 header_ :
  bytes_ok ip_packet -> parse_ip_view ip_packet = Ok v -> conventional_ip ip_packet v -> reserved_clear ip_packet v ->
  ready cid_value large ip_packet true v (as_profile q) c1 -> (q = StdRTP -> Z.shiftr (vpxcc (rtp c1)) 6 = 2) ->
  emit_ir q out_capacity c1 = Ok header_ ->
  in_full q c1 /\ header_ = header q c1 /\ cid_ok c1 = true.
Proof.
  intros Hok Hv Hconv Hres ((Hc & _ & Hl) & _ & Ep & Hd & Hid) Hvp E.
  rewrite (emitted q out_capacity c1 Hc) in E. unfold EmitIr.deliver in E. destruct (_ && _) eqn:G in E; [|done].
  injection E as <-. bool_prop. split; [|done]. split_and!; [done..| |].
  - intros H4. split; [|by apply Hid]. unfold describes_ip, conventional_ip, reserved_clear in *.
    destruct (view_is_ipv6 v); [destruct Hd as [(H6 & _) _]; by rewrite H4 in H6|].
    destruct Hd as [(_ & _ & _ & _ & _ & _ & Hf & _) _]. destruct Hconv as (_ & Hfr & _).
    unfold df. rewrite Hf. apply df_flags; [|done]. split; [|by apply Hres]. by apply field16_range.
  - intros ->. specialize (Hvp eq_refl). unfold expressible, standard_rtp_ok in *. bool_prop.
    assert (B : byte_ok (vpxcc (rtp c1))) by (apply (ok_rtp c1 Hc)).
    pose proof (byte_forall (fun b => negb ((Z.shiftr b 6 =? 2) && (Z.land b 0x0F =? 0) && (Z.land b 0x20 =? 0) && (Z.land b 0x10 =? 0)) ||
      (b =? 0x80)) ltac:(vm_compute; reflexivity) _ B) as F. cbv beta in F.
    repeat match goal with H : Z.land _ _ = 0 |- _ => rewrite (proj2 (Z.eqb_eq _ _) H) in F; clear H end.
    rewrite (proj2 (Z.eqb_eq _ _) Hvp) in F. by apply Z.eqb_eq.
Qed.

Lemma first_packet_read fuel cid_value large mode_ ip_packet c c' wire v d size :
  0 <= cid_value -> is_valid_for_space cid_value large = true ->
  bytes_ok ip_packet -> size_ok (blen ip_packet) -> sound c -> tx_count c = 0 ->
  compress4 cid_value large mode_ ip_packet segment_buffer_max c = (Ok wire, c') -> has_standard_chain (profile c') = true ->
  parse_ip_view ip_packet = Ok v -> conventional ip_packet v (profile c') -> reserved_clear ip_packet v ->
  decomp_ok d -> dx_ipsec d = false -> dx_large d = large -> cid_value <= max_cid (dx_table d) ->
  blen ip_packet <= size < 2 ^ 60 ->
  (exists d', rohc_decompress4 fuel wire size d = (Ok (Some ip_packet), d')) \/
  (fst (rohc_decompress4 fuel wire size d) = Rej /\
   exists q before, profile c' = as_profile q /\ table_get (dx_table d) cid_value = Ok before /\
     (extras_left q before \/ exists rx x, run_decoder (legacy_decoder q) wire rx = Ok x)).
Proof.
  intros Hcid Hspace Hok Hsz Hs Htx0 E Hchain Hv Hconv Hres Hd Hip Hlarge Hmax Hsize.
  pose proof (compress4_carries cid_value large mode_ ip_packet segment_buffer_max Hcid Hspace Hok Hsz ltac:(done) true c Hs
    (fun _ => Htx0) ltac:(done)) as W. unfold wp in W. rewrite E in W.
  destruct W as (Hs' & Hlen & header_ & payload & -> & (off & n & Epay) & [[Ep _]|(v' & Hv' & Hbuild & Hopen)]);
    [by rewrite Ep in Hchain|].
  rewrite Hv in Hv'. injection Hv' as <-.
  assert (Hq : exists q, profile c' = as_profile q).
  { destruct (profile c'); try done; [by exists StdRTP|by exists StdUDP|by exists StdESP|by exists StdIP]. }
  destruct Hq as [q Eq]. destruct (Hopen q Eq eq_refl) as (c1 & R & Hcar & Hvp & Hemit & Hforget).
  destruct (opened_in_full cid_value large ip_packet segment_buffer_max v q c1 header_) as (Hfull & -> & Hcok); try done;
    [apply Hconv|].
  pose proof R as ((Hc1 & _) & (Ec & El & _) & _).
  assert (Ht : contexts_ok (dx_table d)) by apply Hd.
  destruct (table_get_in (dx_table d) (cid c1) Ht) as (before & Hget & Hbefore); [lia|].
  assert (Epk : build_packet size c1 payload = Ok ip_packet).
  { pose proof (blen_nonneg ip_packet). rewrite <- build_packet_forget, Hforget, build_packet_forget. apply Hbuild; [done|lia|unfold size_ok; lia]. }
  assert (Hpb : bytes_ok payload) by (rewrite Epay; by apply bytes_ok_take, bytes_ok_drop).
  unfold segment_buffer_max in Hlen.
  destruct (ir_received d q c1 before payload ip_packet size Hd Hip) with (fuel := fuel) as [X|[X1 X2]];
    try done; [congruence|lia|lia|by left|].
  right. split; [exact X1|]. exists q, before. rewrite <- Ec. split_and!; [done..|].
  destruct X2 as [|[x X2]]; [by left|right]. by exists (decoding_context d q c1 before), x.
Qed.

(** C3: the first packet of a flow arrives as it was sent.  Whatever a
    decompressor that serves the CID has been given before, the first packet of
    a compressor's context - an IP, ESP, UDP or RTP packet whose lengths and
    IPv4 header are as the RFCs ask - is delivered octet for octet, or it is
    refused and nothing is delivered.  It is refused only when the older reading
    of IR packets, which is tried too, accepts the same octets, or when it is an
    RTP packet and the context it finds under its CID still holds the CSRC list,
    the extension or the padding of an RTP packet received earlier.  Neither end
    has ROHCoIPsec in force. *)
Theorem first_packet_delivered fuel c c1 ctx ctx' ip_packet wire v d size :
  (* the sender *)
  table_get (cx_table c) (cx_cid c) = Ok ctx -> sound ctx -> tx_count ctx = 0 ->
  0 <= cx_cid c -> is_valid_for_space (cx_cid c) (cx_large c) = true -> cx_ipsec c = false ->
  bytes_ok ip_packet -> size_ok (blen ip_packet) ->
  rohc_compress4 ip_packet segment_buffer_max c = (Ok wire, c1) ->
  table_get (cx_table c1) (cx_cid c) = Ok ctx' -> has_standard_chain (profile ctx') = true ->
  (* the packet *)
  parse_ip_view ip_packet = Ok v -> conventional ip_packet v (profile ctx') -> reserved_clear ip_packet v ->
  (* the receiver *)
  decomp_ok d -> dx_ipsec d = false -> dx_large d = cx_large c -> cx_cid c <= max_cid (dx_table d) ->
  blen ip_packet <= size < 2 ^ 60 ->
  (exists d', rohc_decompress4 fuel wire size d = (Ok (Some ip_packet), d')) \/
  (fst (rohc_decompress4 fuel wire size d) = Rej /\
   exists q before, profile ctx' = as_profile q /\ table_get (dx_table d) (cx_cid c) = Ok before /\
     (extras_left q before \/ exists rx x, run_decoder (legacy_decoder q) wire rx = Ok x)).
Proof.
  intros Hget Hs Htx0 Hcid Hspace Hip Hok Hsz E Hget' Hchain Hv Hconv Hres Hd Hdip Hlarge Hmax Hsize.
  rewrite compress_is_sealed in E by (unfold segment_buffer_max; lia). unfold sealed, compress_whole in E. rewrite Hget in E.
  destruct (compress4 _ _ _ _ _ _) as [[full| |] c'] eqn:Ec; [|done..].
  change (cx_ipsec (c <| cx_table := _ |>)) with (cx_ipsec c) in E. rewrite Hip in E.
  destruct (Z.leb_spec (blen full) segment_buffer_max) as [L|L];
    [|rewrite (proj2 (Z.ltb_lt segment_buffer_max _)) in E by lia; by rewrite orb_true_r in E].
  injection E as <- <-.
  assert (ctx' = c') as ->.
  { cbn [cx_table set_field set_cx_table] in Hget'. unfold table_get, table_set in *. cbn [max_cid table] in Hget'.
    destruct (_ <? _); [done|]. destruct (table (cx_table c) !! Z.to_nat (cx_cid c)) eqn:Ex; [|done].
    rewrite list_lookup_insert_eq in Hget' by (by eapply lookup_lt_Some). congruence. }
  by apply (first_packet_read fuel (cx_cid c) (cx_large c) (cx_mode c) ip_packet ctx c' full v d size).
Qed.

Definition sample_view : ParsedIpView := mkView 20 0 17 false.

Lemma sample_conventional : conventional sample_packet sample_view UDP /\ reserved_clear sample_packet sample_view.
Proof. split; [|done]. split; [|done]. unfold conventional_ip, conventional4. by vm_compute. Qed.

Lemma sender_sound : table_get (cx_table (sender 3)) 1 = Ok initial_context /\ sound initial_context.
Proof. split; [done|apply sound_initial]. Qed.

Lemma first_packet_delivered_witness : exists wire c1 ctx',
  rohc_compress4 sample_packet segment_buffer_max (sender 3) = (Ok wire, c1) /\
  ((exists d', rohc_decompress4 2048 wire 1500 (receiver 3) = (Ok (Some sample_packet), d')) \/
   (fst (rohc_decompress4 2048 wire 1500 (receiver 3)) = Rej /\
    exists q before, profile ctx' = as_profile q /\ table_get (dx_table (receiver 3)) 1 = Ok before /\
      (extras_left q before \/ exists rx x, run_decoder (legacy_decoder q) wire rx = Ok x))).
Proof.
  destruct (rohc_compress4 sample_packet segment_buffer_max (sender 3)) as [[wire| |] c1] eqn:E;
    [|exfalso; by vm_compute in E..].
  assert (Ec : c1 = snd (rohc_compress4 sample_packet segment_buffer_max (sender 3))) by by rewrite E.
  destruct (table_get (cx_table c1) 1) as [ctx'| |] eqn:Et; [|exfalso; rewrite Ec in Et; vm_compute in Et; discriminate Et..].
  assert (Ep : profile ctx' = UDP).
  { assert (X : obind (table_get (cx_table c1) 1) (fun c => Ok (profile c)) = Ok UDP) by (rewrite Ec; vm_compute; reflexivity).
    rewrite Et in X. by injection X. }
  exists wire, c1, ctx'. split; [done|]. destruct sender_sound as [Hg Hs]. pose proof receiver_ok as Hd.
  destruct sample_conventional as [Hc Hr].
  refine (first_packet_delivered 2048 (sender 3) c1 initial_context ctx' sample_packet wire sample_view (receiver 3) 1500
    Hg Hs eq_refl _ eq_refl eq_refl _ _ E Et _ eq_refl _ Hr Hd eq_refl eq_refl _ _); clear E Ec.
  - done.
  - by apply bytes_ok_by.
  - by vm_compute.
  - by rewrite Ep.
  - by rewrite Ep.
  - by vm_compute.
  - by vm_compute.
Defined.

(** The second reason for a refusal does occur.  An RTP packet with two octets of
    padding is received on CID 1, in the older form; the IR packet of a fresh
    compressor for the same CID, which another receiver delivers and the older
    reading rejects, is then refused. *)
Definition padded_ir : bytes :=
  [225; 253; 1; 240; 64; 17; 10; 0; 0; 1; 10; 0; 0; 2; 19; 140; 19; 142; 0; 0; 202; 254; 0; 64; 0; 7; 2; 0; 146; 52;
   160; 0; 0; 100; 0; 0; 62; 128; 128; 7; 4; 0; 0; 0; 2; 0; 2; 4; 9].
Definition plain_rtp : bytes :=
  [69; 0; 0; 43; 0; 7; 64; 0; 64; 17; 38; 185; 10; 0; 0; 1; 10; 0; 0; 2; 19; 140; 19; 142; 0; 23; 146; 52;
   128; 0; 0; 100; 0; 0; 62; 128; 0; 0; 202; 254; 1; 2; 3].

Definition first_of (d : DecompImpl) : outcome (option bytes) :=
  let! wire := fst (rohc_compress4 plain_rtp segment_buffer_max (sender 3)) in
  fst (rohc_decompress4 2048 wire 1500 d).

Example padding_left_refuses :
  let padded := rohc_decompress4 2048 padded_ir 1500 (receiver 3) in
  is_ok (fst padded) = true /\ first_of (receiver 3) = Ok (Some plain_rtp) /\ first_of (snd padded) = Rej /\
  (let! wire := fst (rohc_compress4 plain_rtp segment_buffer_max (sender 3)) in
   let! r := run_decoder (legacy_decoder StdRTP) wire initial_context in Ok (snd r)) = Rej.
Proof. vm_compute. repeat split. Qed.

(** The packets the theorem leaves out by [conventional]: one whose IPv4 checksum
    is wrong arrives with the right one, and octets past the total length arrive as
    part of the payload, under lengths and a checksum that cover them. *)
Definition through (ip_packet : bytes) : outcome (option bytes) :=
  let! wire := fst (rohc_compress4 ip_packet segment_buffer_max (sender 3)) in
  fst (rohc_decompress4 2048 wire 1500 (receiver 3)).

Example unconventional_rebuilt :
  through (<[11%nat := 0]> sample_packet) = Ok (Some sample_packet) /\
  through (sample_packet ++ [9]) = Ok (Some (
    [69; 0; 0; 32; 0; 1; 64; 0; 64; 17; 38; 202; 10; 0; 0; 1; 10; 0; 0; 2; 19; 136; 19; 138; 0; 12; 0; 0; 1; 2; 3; 9])).
Proof. vm_compute. repeat split. Qed.
