(* ===== verification/ChannelSafe.v ===== *)
(** * The compressor's handle under any calls

    What a compressor of the C API keeps true from its creation on, whatever is
    called in whatever order. *)

From S2P Require Import Prelude Crc Cid Bits Encoding Context Cursor Chains EmitIr DecodeIr Safety Lla Compressor.
From S2P Require Import Feedback FeedbackV1 FeedbackPackets Packets Sha256 PacketImage CompactGuards CompressApi.
From S2P Require Import EmitSafety CompressFaithful DecompressApi Channel ReceiveSafe DecompressSafe Segmentation.

#[local] Hint Resolve u16_ok u32_range : ctxok.

(** ** The calls *)

Inductive comp_call :=
| SetCid (cid : Z) | SetMode (mode_ : Z) | SetMrru (mrru : Z)
| SetIntegrity (algorithm : Z) (key : bytes) (icv_len : Z) | EnableRohcoipsec
| Compress (ip_packet : bytes) (capacity : Z) | GetSegment (capacity : Z)
| HandleFeedback (cid feedback_type : Z) | DeliverPacket (packet : bytes) | DeliverV1 (feedback : FeedbackV1)
| EnableLla (contract : AssistingLayerContract) (flow : ZeroByteFlow)
| EmitNhp (ip_packet : bytes) | EmitCsp (ip_packet : bytes) (capacity : Z) | EmitCcp (capacity : Z).

Definition discard {S A} (m : M S A) : M S unit := m ;;; ret tt.

Definition comp_apply (k : comp_call) : M CompImpl unit :=
  match k with
  | SetCid i => rohc_comp_set_cid i
  | SetMode m => rohc_comp_set_mode m
  | SetMrru n => rohc_comp_set_mrru n
  | SetIntegrity a key n => rohc_comp_set_rohcoipsec_integrity a key n
  | EnableRohcoipsec => rohc_comp_enable_rohcoipsec
  | Compress p n => discard (rohc_compress4 p n)
  | GetSegment n => discard (rohc_comp_get_segment n)
  | HandleFeedback i ty => rohc_comp_handle_feedback i ty
  | DeliverPacket p => rohc_comp_deliver_feedback_packet p
  | DeliverV1 f => discard (rohc_comp_deliver_feedback_v1 f)
  | EnableLla contract flow => rohc_comp_enable_rfc4362_lla contract flow
  | EmitNhp p => rohc_comp_rfc4362_emit_nhp p
  | EmitCsp p n => discard (rohc_comp_rfc4362_emit_csp p n)
  | EmitCcp n => discard (rohc_comp_rfc4362_emit_ccp n)
  end.

(** Arguments within their C types, behind valid pointers. *)
Definition octets_ok (p : bytes) : Prop := bytes_ok p /\ size_ok (blen p).

Definition comp_call_ok (k : comp_call) : Prop :=
  match k with
  | SetCid i => 0 <= i
  | SetMrru n => 0 <= n
  | SetIntegrity _ key n => bytes_ok key /\ 0 <= n
  | HandleFeedback i _ => 0 <= i
  | Compress p _ | DeliverPacket p | EmitNhp p | EmitCsp p _ => octets_ok p
  | DeliverV1 f => bytes_ok (v_raw f) /\ blen (v_raw f) = feedback_raw_max /\ 0 <= v_raw_len f
  | _ => True
  end.

(** ** The invariant *)

Definition table_sound (t : ContextTable) : Prop :=
  0 <= max_cid t < 2 ^ 32 /\ length (table t) = Z.to_nat (max_cid t + 1) /\ Forall sound (table t).

Definition comp_ok (c : CompImpl) : Prop :=
  table_sound (cx_table c) /\
  (0 <= cx_cid c <= max_cid (cx_table c) /\ is_valid_for_space (cx_cid c) (cx_large c) = true) /\
  (0 <= cx_pos c <= blen (cx_pending c) /\ blen (cx_pending c) <= segment_buffer_max) /\
  (bytes_ok (cx_key c) /\ 0 <= cx_icv_len c).

Lemma sound_get t i : table_sound t -> 0 <= i -> i <= max_cid t -> exists c, table_get t i = Ok c /\ sound c.
Proof.
  intros (H0 & Hl & Hf) Hi Hm. unfold table_get. rewrite (proj2 (Z.ltb_ge _ _)) by lia.
  destruct (lookup_lt_is_Some_2 (table t) (Z.to_nat i)) as [c E]; [lia|]. rewrite E. exists c. split; [done|].
  by eapply Forall_lookup_1.
Qed.

Lemma sound_set t i c : table_sound t -> sound c -> table_sound (table_set t i c).
Proof.
  intros (H0 & Hl & Hf) Hc. unfold table_sound, table_set. cbn [max_cid table]. rewrite length_insert.
  split_and!; [lia..|done|]. by apply Forall_insert.
Qed.

Lemma comp_ok_set c i x : comp_ok c -> sound x -> comp_ok (c <| cx_table := table_set (cx_table c) i x |>).
Proof. intros (Ht & H) Hx. split; [by apply sound_set|exact H]. Qed.

(** The context of a CID, and what is done with it. *)
Lemma wp_find c i (Q : option Context -> CompImpl -> Prop) : comp_ok c -> 0 <= i ->
  Q None c -> (forall x, sound x -> Q (Some x) c) -> wp (lift (find_context (cx_table c) i)) Q comp_ok c.
Proof.
  intros (Ht & _) Hi HN HS. apply wp_lift. unfold find_context. destruct (Z.le_gt_cases i (max_cid (cx_table c))) as [Hm|Hm].
  - destruct (sound_get _ i Ht Hi Hm) as (x & -> & Hx). by apply HS.
  - unfold table_get. by rewrite (proj2 (Z.ltb_lt _ _)) by lia.
Qed.

Lemma sound_mode x m : sound x -> sound (x <| mode := m |>).
Proof. intros (H1 & H2 & H3). split_and!; [auto with ctxok|exact H2|exact H3]. Qed.

(** ** Configuration *)

Lemma set_cid_ok i c : comp_ok c -> 0 <= i -> wp (rohc_comp_set_cid i) (fun _ => comp_ok) comp_ok c.
Proof.
  intros Hc Hi. unfold rohc_comp_set_cid. do 2 wp_step. do 3 (wp_step; wp_step; [|exact Hc]). wp_step.
  destruct Hc as (Ht & _ & Hrest). split; [exact Ht|]. split; [|exact Hrest].
  cbn [cx_cid set_field set_cx_cid cx_table cx_large]. split; [bool_prop; lia|].
  unfold is_valid_for_space, is_small. destruct (cx_large c); cbn [negb andb] in *; bool_prop;
    unfold large_cid_max, small_cid_max in *; rewrite ?andb_true_iff, ?Z.leb_le; lia.
Qed.

Lemma set_mode_ok m c : comp_ok c -> wp (rohc_comp_set_mode m) (fun _ => comp_ok) comp_ok c.
Proof.
  intros Hc. unfold rohc_comp_set_mode. wp_step. apply wp_lift.
  destruct (c_mode_to_core m) as [k| |] eqn:E; [|exact Hc|unfold c_mode_to_core in E; by destruct (m =? 0), (m =? 1), (m =? 2)].
  do 4 wp_step. wp_step. apply (wp_find (c <| cx_mode := k |>)); [exact Hc|apply Hc|by wp_step|]. intros x Hx. wp_step.
  by apply (comp_ok_set (c <| cx_mode := k |>)), sound_mode.
Qed.

Lemma set_mrru_ok n c : comp_ok c -> wp (rohc_comp_set_mrru n) (fun _ => comp_ok) comp_ok c.
Proof. intros Hc. unfold rohc_comp_set_mrru. wp_step. wp_step; [|exact Hc]. by wp_step. Qed.

Lemma configure_ok a k n : bytes_ok k -> 0 <= n ->
  yields (configure_rohcoipsec a k n) (fun r => bytes_ok (snd (fst r)) /\ 0 <= snd r).
Proof.
  intros Hk Hn. unfold configure_rohcoipsec. do 2 (apply yields_guard; intros _). split; [done|]. by destruct (a =? None_).
Qed.

Lemma set_integrity_ok a k n c : comp_ok c -> bytes_ok k -> 0 <= n ->
  wp (rohc_comp_set_rohcoipsec_integrity a k n) (fun _ => comp_ok) comp_ok c.
Proof.
  intros Hc Hk Hn. unfold rohc_comp_set_rohcoipsec_integrity. wp_step. apply wp_lift.
  pose proof (configure_ok a k n Hk Hn) as Y. destruct (configure_rohcoipsec a k n) as [[[? ?] ?]| |]; [|done..].
  destruct Hc as (Ht & Hi & Hp & _). wp_step. exact (conj Ht (conj Hi (conj Hp Y))).
Qed.

Lemma enable_lla_ok contract flow c : comp_ok c -> wp (rohc_comp_enable_rfc4362_lla contract flow) (fun _ => comp_ok) comp_ok c.
Proof. intros Hc. unfold rohc_comp_enable_rfc4362_lla. wp_step. wp_step; [|exact Hc]. by wp_step. Qed.

(** ** Packets *)

Lemma compress_whole_ok p c : comp_ok c -> octets_ok p ->
  wp (compress_whole p segment_buffer_max) (fun out c' => comp_ok c' /\ blen out <= segment_buffer_max) comp_ok c.
Proof.
  intros Hc [Hb Hs]. pose proof Hc as (Ht & [Hi Hv] & _). unfold wp, compress_whole.
  destruct (sound_get _ (cx_cid c) Ht) as (x & -> & Hx); [lia..|].
  pose proof (compress4_carries (cx_cid c) (cx_large c) (cx_mode c) p segment_buffer_max (proj1 Hi) Hv Hb Hs ltac:(done)
    false x Hx ltac:(done) ltac:(done)) as W.
  unfold wp in W. destruct (compress4 _ _ _ _ _ x) as [[out| |] x']; [|by apply comp_ok_set|done].
  destruct W as (Hx' & Hl & _). split; [by apply comp_ok_set|exact Hl].
Qed.

Lemma append_icv_ok a k auth p cap n : bytes_ok k -> 0 <= n -> append_icv a k auth p cap n <> Ub.
Proof.
  intros Hk Hn. unfold append_icv. destruct (negb (_ && _)); cbn [oguard obind]; [|done].
  destruct (a =? None_) eqn:Ea.
  - apply Z.eqb_eq in Ea as ->. by destruct (cap <? _).
  - destruct (cap <? _); [done|]. cbn [negb oguard obind].
    pose proof (compute_icv_safe a k auth n Hk Hn) as Y. destruct (compute_icv a k auth n) as [d| |] eqn:E; [|done..].
    cbn [obind]. unfold compute_icv in E. rewrite Ea in E.
    destruct (oguard _); [|done..]. cbn [obind] in E.
    destruct (if 64 <? blen k then _ else _); [|done..]. cbn [obind] in E.
    destruct (oguard _); [|done..]. cbn [obind] in E.
    destruct (sha256 _); [|done..]. cbn [obind] in E. destruct (sha256 _) as [h| |]; [|done..]. cbn [obind] in E.
    assert (blen d = n).
    { unfold slice in E. destruct (_ || _) eqn:G; [done|]. injection E as <-. bool_prop.
      unfold blen in *. rewrite length_take, length_drop. lia. }
    destruct (slice_in_range d 0 n) as (v & -> & _); [lia..|]. done.
Qed.

Lemma write_next_segment_ok n c : comp_ok c -> wp (write_next_segment n) (fun _ => comp_ok) comp_ok c.
Proof.
  intros Hc. pose proof Hc as (Ht & Hi & [Hp Hl] & Hk). unfold write_next_segment.
  do 2 wp_step. wp_step; wp_step; [|exact Hc]. unfold segment_header_len in *. bool_prop. cbv zeta.
  set (len := if _ <? _ then _ else _).
  assert (Hlen : 0 < len <= n - 2 /\ len <= blen (cx_pending c) - cx_pos c)
    by (subst len; destruct (Z.ltb_spec (blen (cx_pending c) - cx_pos c) (n - 2)); lia). clearbody len.
  do 2 wp_step. wp_step. wp_step; [lia..|]. wp_step.
  apply wp_lift. rewrite write_segment_exact by lia. do 3 wp_step.
  wp_step; do 2 wp_step; (split; [exact Ht|]; split; [exact Hi|]; split; [|exact Hk]); cbn -[blen]; [done|lia].
Qed.

Lemma compress_call_ok p n c : comp_ok c -> octets_ok p -> wp (rohc_compress4 p n) (fun _ => comp_ok) comp_ok c.
Proof.
  intros Hc Hp. unfold rohc_compress4. wp_step; wp_step; [|exact Hc]. wp_step.
  eapply wp_mono; [| |by apply compress_whole_ok]; [|done]. cbn beta. intros full c1 [Hc1 _]. do 3 wp_step.
  assert (K : forall whole, wp (if blen whole <=? n then ret whole else
    guard (negb ((cx_mrru c1 =? 0) || (cx_mrru c1 <? blen whole) || (segment_buffer_max <? blen whole))) ;;;
    modify (fun c => c <| cx_pending := whole |> <| cx_pos := 0 |> <| cx_sequence := 0 |>) ;;; write_next_segment n)
    (fun _ => comp_ok) comp_ok c1).
  { intros whole. wp_step; [by wp_step|]. wp_step; wp_step; [|exact Hc1]. do 2 wp_step. apply write_next_segment_ok.
    destruct Hc1 as (Ht & Hi & _ & Hk). pose proof (blen_nonneg whole). bool_prop.
    split; [exact Ht|]; split; [exact Hi|]; split; [|exact Hk]. cbn -[blen]. lia. }
  wp_step; [|wp_step; apply K].
  apply wp_lift. destruct Hc1 as (Ht & Hi & Hpe & Hk1 & Hk2).
  pose proof (append_icv_ok (cx_algorithm c1) (cx_key c1) p full segment_buffer_max (cx_icv_len c1) Hk1 Hk2) as N.
  destruct (append_icv _ _ _ _ _ _) as [whole| |]; [apply K|done|done].
Qed.

(** ** Feedback *)

Lemma apply_feedback_sound x f : sound x -> sound (apply_feedback_to_context x f).
Proof.
  intros (H1 & H2 & H3). split; [by apply apply_feedback_ok|].
  assert (E : transmitted_msn_history (apply_feedback_to_context x f) = transmitted_msn_history x /\
    transmitted_context_revision_history (apply_feedback_to_context x f) = transmitted_context_revision_history x /\
    transmitted_msn_head (apply_feedback_to_context x f) = transmitted_msn_head x /\
    transmitted_msn_count (apply_feedback_to_context x f) = transmitted_msn_count x /\
    legacy_esp_payload_includes_header (apply_feedback_to_context x f) = legacy_esp_payload_includes_header x)
    by (unfold apply_feedback_to_context; repeat (case_match; cbn); done).
  destruct E as (E1 & E2 & E3 & E4 & E5). unfold history_ok. by rewrite E1, E2, E3, E4, E5.
Qed.

Lemma apply_at_ok i x f c : comp_ok c -> sound x -> wp (apply_at i x f) (fun _ => comp_ok) comp_ok c.
Proof. intros Hc Hx. unfold apply_at. wp_step. by apply comp_ok_set, apply_feedback_sound. Qed.

Lemma handle_feedback_ok i ty c : comp_ok c -> 0 <= i -> wp (rohc_comp_handle_feedback i ty) (fun _ => comp_ok) comp_ok c.
Proof.
  intros Hc Hi. unfold rohc_comp_handle_feedback. wp_step; [by wp_step|]. do 3 wp_step.
  apply wp_find; [done|done|by wp_step|]. intros x Hx. by apply apply_at_ok.
Qed.

Lemma deliver_packets_ok fuel packet : bytes_ok packet -> size_ok (blen packet) -> forall pos delivered c,
  comp_ok c -> 0 <= pos <= blen packet -> blen packet - pos <= Z.of_nat fuel ->
  wp (deliver_packets fuel packet pos delivered) (fun _ => comp_ok) comp_ok c.
Proof.
  intros Hb Hs. induction fuel as [|fuel IH]; intros pos delivered c Hc Hp Hf; cbn [deliver_packets].
  { rewrite (proj2 (Z.ltb_ge _ _)) by lia. by wp_step. }
  wp_step; [by wp_step|]. apply negb_false_iff in H. bool_prop.
  wp_step. wp_step; [lia|]. wp_step; [by wp_step|]. wp_step. wp_step; [lia|].
  match goal with H : bytes_ok packet -> bytes_ok ?t |- _ => pose proof (H Hb) as Ht end.
  pose proof (wp_read_feedback_packet t true empty_feedback Ht ltac:(unfold size_ok in *; lia)) as F.
  unfold wp in F at 1. unfold read_feedback_prefix. destruct (read_feedback_packet t true empty_feedback) as [[n| |] f]; [|by apply wp_bind, wp_lift|done].
  destruct F as (Hn & _ & Hcid & _). wp_step. apply wp_lift.
  assert (K : forall c1, comp_ok c1 -> wp (c <- gets (fun c => c) ;; ctx <- lift (find_context (cx_table c) (f_cid f)) ;;
      match ctx with
      | Some ctx => apply_at (f_cid f) ctx f ;;; deliver_packets fuel packet (pos + n) true
      | None => deliver_packets fuel packet (pos + n) (has_mode f || delivered)
      end) (fun _ => comp_ok) comp_ok c1).
  { intros c1 Hc1. do 3 wp_step. apply wp_find; [done|lia|apply IH; (done || lia)|]. intros x Hx. wp_step.
    eapply wp_mono; [|done|by apply apply_at_ok]. cbv beta. intros _ c2 Hc2. apply IH; (done || lia). }
  wp_step. wp_step; wp_step; by apply K.
Qed.

Lemma deliver_packet_ok packet c : comp_ok c -> octets_ok packet ->
  wp (rohc_comp_deliver_feedback_packet packet) (fun _ => comp_ok) comp_ok c.
Proof.
  intros Hc [Hb Hs]. unfold rohc_comp_deliver_feedback_packet. wp_step; wp_step; [|done]. wp_step.
  eapply wp_mono; [| |apply deliver_packets_ok]; try done; [|pose proof (blen_nonneg packet); lia|unfold blen; lia].
  cbv beta. intros r c' Hc'. by wp_step.
Qed.

Lemma transmitted_answers x ack bits : history_ok x -> transmitted_msn_revision x ack bits <> Ub.
Proof.
  intros H. unfold transmitted_msn_revision. destruct (negb _); cbn [oguard obind]; [|done].
  destruct H as (? & ? & ? & ?) eqn:E. clear E. rewrite msn_search_find by (done || lia). by destruct (List.find _ _).
Qed.

Lemma parse_v1_answers channel packet : bytes_ok packet ->
  yields (rohc_feedback_parse_v1 channel packet) (fun r => match snd r with Some f => 0 <= v_cid f | None => True end).
Proof.
  intros Hb. unfold rohc_feedback_parse_v1. destruct (_ || _); [done|].
  pose proof (read_v1_answers packet false empty_feedback Hb) as W. unfold wp in W.
  destruct (read_feedback2_v1 packet false empty_feedback) as [[r| |] f]; [|done..]. apply W.
Qed.

Lemma parse_v1_raw channel packet s f : rohc_feedback_parse_v1 channel packet = Ok (s, Some f) -> v_raw f = packet.
Proof.
  unfold rohc_feedback_parse_v1. destruct (_ || _); [done|].
  destruct (read_feedback2_v1 _ _ _) as [[r| |] g]; [|done..]. cbn [obind]. by intros [= _ <-].
Qed.

Lemma correlate_ok x f : sound x -> bytes_ok (v_raw f) ->
  yields (correlate x f) (fun r => match r with inr x' => sound x' | inl _ => True end).
Proof.
  intros Hx Hb. unfold correlate.
  pose proof (transmitted_answers x (v_acknowledgment_number f) (v_acknowledgment_bits f) (proj1 (proj2 Hx))) as N.
  destruct (transmitted_msn_revision _ _ _) as [[r m]| |]; cbn [attempt obind]; [|done..].
  destruct (negb _); [done|]. destruct (_ && _); [done|].
  pose proof (read_v1_answers (v_raw f) false empty_feedback Hb) as W. unfold wp in W.
  destruct (read_feedback2_v1 _ _ _) as [[[s o]| |] g]; [|done..]. cbn [obind fst]. destruct s; cbn; try done.
  by apply apply_feedback_sound.
Qed.

Lemma deliver_v1_ok f c : comp_ok c -> bytes_ok (v_raw f) -> blen (v_raw f) = feedback_raw_max -> 0 <= v_raw_len f ->
  wp (rohc_comp_deliver_feedback_v1 f) (fun _ => comp_ok) comp_ok c.
Proof.
  intros Hc Hb Hl Hn. unfold rohc_comp_deliver_feedback_v1. wp_step; [by wp_step|]. bool_prop.
  do 2 wp_step. wp_step; [by wp_step|]. wp_step. wp_step; [lia..|].
  match goal with H : bytes_ok (v_raw f) -> bytes_ok ?t |- _ => pose proof (H Hb) as Ht end.
  wp_step. apply wp_lift. pose proof (parse_v1_answers (v_channel f) b Ht) as Y.
  destruct (rohc_feedback_parse_v1 _ _) as [[s [p|]]| |] eqn:E; [|by destruct s|done..]. apply parse_v1_raw in E.
  cbn in Y. destruct s; try by wp_step. wp_step; [by wp_step|]. wp_step; [by wp_step|]. wp_step.
  apply wp_find; [done|done|by wp_step|]. intros x Hx. wp_step. apply wp_lift.
  pose proof (correlate_ok x p Hx ltac:(by rewrite E)) as Z. destruct (correlate x p) as [[s|x']| |]; [by wp_step| |done..].
  do 3 wp_step. by apply comp_ok_set.
Qed.

(** ** Packets an assisting layer carries *)

Lemma own_context_ok c (Q : Context -> CompImpl -> Prop) R : comp_ok c -> (forall x, sound x -> Q x c) ->
  wp (lift (table_get (cx_table c) (cx_cid c))) Q R c.
Proof.
  intros (Ht & [Hi _] & _) HQ. apply wp_lift. destruct (sound_get _ (cx_cid c) Ht) as (x & -> & Hx); [lia..|]. by apply HQ.
Qed.

Lemma fixed_rtp_safe x n : build_fixed_rtp_ipv4_header x n <> Ub.
Proof.
  unfold build_fixed_rtp_ipv4_header. destruct (negb _); cbn [oguard obind]; [|done].
  match goal with |- fixed_header ?c ?p ?t ?r <> Ub => by destruct (fixed_header_len c p t r) as (h & -> & _) end.
Qed.

Lemma emit_nhp_ok p c : comp_ok c -> octets_ok p -> wp (rohc_comp_rfc4362_emit_nhp p) (fun _ => comp_ok) comp_ok c.
Proof.
  intros Hc Hp. unfold rohc_comp_rfc4362_emit_nhp. do 2 wp_step. wp_step; wp_step; [|done]. wp_step.
  apply own_context_ok; [done|]. intros x Hx. do 3 (wp_step; wp_step; [|done]). wp_step. apply wp_lift.
  pose proof (fixed_rtp_safe (next_rtp_context x) (blen p - 40)) as N.
  destruct (build_fixed_rtp_ipv4_header _ _) as [h| |]; [|done..]. bool_prop.
  wp_step. wp_step; [lia..|]. wp_step; wp_step; [|done]. wp_step.
  eapply wp_mono; [| |by apply compress_whole_ok]; [|done]. intros out c' [Hc' _]. by wp_step.
Qed.

Lemma rtp_payload_answers p : octets_ok p -> exists n, rtp_payload_length p = Ok n.
Proof.
  intros [Hb Hs]. unfold rtp_payload_length. pose proof (parse_ip_view_ok p Hb) as N.
  destruct (parse_ip_view p) as [v| |]; cbn [attempt obind]; [|by eexists|done].
  destruct (negb _); [by eexists|]. destruct (rtp_parse_ok p (view_header_len v + 8) Hb) as (b & ->). by eexists.
Qed.

Lemma emit_csp_ok p n c : comp_ok c -> octets_ok p -> wp (rohc_comp_rfc4362_emit_csp p n) (fun _ => comp_ok) comp_ok c.
Proof.
  intros Hc Hp. unfold rohc_comp_rfc4362_emit_csp. do 2 wp_step. wp_step; wp_step; [|done]. wp_step.
  eapply wp_mono; [| |by apply compress_whole_ok]; [|done]. cbv beta. intros out c' [Hc' _]. wp_step. apply wp_lift.
  destruct (rtp_payload_answers p Hp) as (k & ->). wp_step; wp_step; [|done]. apply wp_lift.
  unfold write_context_synchronization_packet. by destruct (negb (n <? 3 + blen out)).
Qed.

Lemma emit_ccp_ok n c : comp_ok c -> wp (rohc_comp_rfc4362_emit_ccp n) (fun _ => comp_ok) comp_ok c.
Proof.
  intros Hc. unfold rohc_comp_rfc4362_emit_ccp. do 2 wp_step. wp_step; wp_step; [|done]. wp_step.
  apply own_context_ok; [done|]. intros x Hx. wp_step; wp_step; [|done]. wp_step. apply wp_lift. rewrite context_crc7_runs.
  apply wp_lift. unfold write_context_check_packet. by destruct (negb (n <? 2)).
Qed.

(** ** Any calls *)

Lemma discard_ok {S A} (m : M S A) (I : S -> Prop) s : wp m (fun _ => I) I s -> wp (discard m) (fun _ => I) I s.
Proof. intros H. unfold discard. wp_step. eapply wp_mono; [| |exact H]; [|done]. intros a s' Hs'. by wp_step. Qed.

Lemma comp_apply_ok k c : comp_ok c -> comp_call_ok k -> wp (comp_apply k) (fun _ => comp_ok) comp_ok c.
Proof.
  intros Hc Hk. destruct k; cbn [comp_apply comp_call_ok] in *; try apply discard_ok.
  - by apply set_cid_ok.
  - by apply set_mode_ok.
  - by apply set_mrru_ok.
  - destruct Hk. by apply set_integrity_ok.
  - apply set_integrity_ok; [done|apply bytes_ok_nil|done].
  - by apply compress_call_ok.
  - by apply write_next_segment_ok.
  - by apply handle_feedback_ok.
  - by apply deliver_packet_ok.
  - destruct Hk as (? & ? & ?). by apply deliver_v1_ok.
  - by apply enable_lla_ok.
  - by apply emit_nhp_ok.
  - by apply emit_csp_ok.
  - by apply emit_ccp_ok.
Qed.


(** ** The decompressor's handle *)

Inductive decomp_call :=
| DSetMode (mode_ : Z) | DSetAckRefresh (enabled : bool) | DSetMrru (mrru : Z)
| DSetIntegrity (algorithm : Z) (key : bytes) (icv_len : Z) | DEnableRohcoipsec
| Decompress (fuel : nat) (rohc_packet : bytes) (capacity : Z)
| DEnableLla (contract : AssistingLayerContract) (flow : ZeroByteFlow)
| ReceiveNhp (cid : Z) (payload : bytes) (capacity : Z) | ReceiveCsp (fuel : nat) (packet : bytes) (capacity : Z)
| ReceiveCcp (cid : Z) (packet : bytes) | ReportLoss (cid : Z) | ReportResidualError (cid : Z).

Definition decomp_apply (k : decomp_call) : M DecompImpl unit :=
  match k with
  | DSetMode m => rohc_decomp_set_mode m
  | DSetAckRefresh enabled => rohc_decomp_set_context_refresh_ack_enabled enabled
  | DSetMrru n => rohc_decomp_set_mrru n
  | DSetIntegrity a key n => rohc_decomp_set_rohcoipsec_integrity a key n
  | DEnableRohcoipsec => rohc_decomp_enable_rohcoipsec
  | Decompress fuel p n => discard (rohc_decompress4 fuel p n)
  | DEnableLla contract flow => rohc_decomp_enable_rfc4362_lla contract flow
  | ReceiveNhp i p n => discard (rohc_decomp_rfc4362_receive_nhp_for_cid i p n)
  | ReceiveCsp fuel p n => discard (rohc_decomp_rfc4362_receive_csp fuel p n)
  | ReceiveCcp i p => rohc_decomp_rfc4362_receive_ccp_for_cid i p
  | ReportLoss i => rohc_decomp_rfc4362_report_loss i
  | ReportResidualError i => rohc_decomp_rfc4362_report_residual_error i
  end.

(** Fuel for the segments of a call is no argument of the code's: the calls
    that need some have enough. *)
Definition decomp_call_ok (k : decomp_call) : Prop :=
  match k with
  | DSetIntegrity _ key n => bytes_ok key /\ 0 <= n
  | Decompress fuel p _ | ReceiveCsp fuel p _ => bytes_ok p /\ blen p < 2 ^ 60 /\ (2048 <= fuel)%nat
  | ReceiveNhp i p _ | ReceiveCcp i p => 0 <= i /\ octets_ok p
  | ReportLoss i | ReportResidualError i => 0 <= i
  | _ => True
  end.

Lemma decomp_set_integrity_ok a k n d : decomp_ok d -> bytes_ok k -> 0 <= n ->
  wp (rohc_decomp_set_rohcoipsec_integrity a k n) (fun _ => decomp_ok) decomp_ok d.
Proof.
  intros Hd Hk Hn. unfold rohc_decomp_set_rohcoipsec_integrity. wp_step. apply wp_lift.
  pose proof (configure_ok a k n Hk Hn) as Y. destruct (configure_rohcoipsec a k n) as [[[? ?] ?]| |]; [|done..].
  destruct Hd as (Ht & Hr & _). wp_step. exact (conj Ht (conj Hr Y)).
Qed.

Lemma decompress_ok fuel p n d : decomp_ok d -> bytes_ok p -> blen p < 2 ^ 60 -> (2048 <= fuel)%nat ->
  wp (rohc_decompress4 fuel p n) (fun _ => decomp_ok) decomp_ok d.
Proof.
  intros Hd Hb Hl Hf. eapply wp_mono; [| |exact (decompress4_answers fuel d p n Hd Hb Hl (or_intror Hf))].
  - intros [ip|] d'; [intros [_ [H _]]|intros [H _]]; exact H.
  - intros d' [H _]. exact H.
Qed.

(** The feedback remembered is no part of well-formedness. *)
Lemma decomp_set_feedback_ok i ty d (Q : unit -> DecompImpl -> Prop) R : decomp_ok d -> 0 <= i ->
  (forall d', decomp_ok d' -> Q tt d') -> wp (set_feedback i ty) Q R d.
Proof. intros Hd Hi HQ. apply wp_feedback_kept; [done..|]. intros f. by apply HQ. Qed.

Lemma decomp_fail_ok {A} i d (Q : A -> DecompImpl -> Prop) : decomp_ok d -> 0 <= i -> wp (fail_with_feedback i) Q decomp_ok d.
Proof. intros Hd Hi. by apply wp_fail_any. Qed.

Lemma next_rtp_ok x : context_ok x -> context_ok (next_rtp_context x).
Proof. intros H. unfold next_rtp_context. cbv zeta. repeat case_match; auto 20 with ctxok. Qed.

Lemma rtp_builds x capacity payload : context_ok x ->
  yields (if ip_version x =? 6 then build_ipv6_rtp_packet capacity x payload else build_rtp_packet capacity x payload)
    (fun ip => blen ip <= capacity).
Proof. intros Hx. destruct (_ =? 6); [by apply build_ipv6_rtp_safe|by apply build_rtp_safe]. Qed.

Lemma receive_nhp_ok i p n d : decomp_ok d -> 0 <= i -> wp (rohc_decomp_rfc4362_receive_nhp_for_cid i p n) (fun _ => decomp_ok) decomp_ok d.
Proof.
  intros Hd Hi. unfold rohc_decomp_rfc4362_receive_nhp_for_cid. do 2 wp_step. wp_step; wp_step; [|done]. wp_step.
  unfold load_ctx. do 2 wp_step. apply wp_lift. pose proof (table_get_total (dx_table d) i (proj1 Hd) Hi) as T.
  destruct (table_get (dx_table d) i) as [x| |]; [|done..]. destruct T as [Hx _].
  wp_step; wp_step; [|done]. cbv zeta. pose proof (next_rtp_ok x Hx) as Hn. unfold store_ctx. do 2 wp_step.
  lazymatch goal with |- wp _ _ _ ?s => assert (Hd1 : decomp_ok s) by (split; [by apply contexts_ok_set; [apply Hd|]|apply Hd]) end.
  wp_step. eapply wp_attempt; [by apply rtp_builds| |].
  - apply decomp_fail_ok; [done|]. apply (ok_cid _ Hn).
  - intros ip _. do 3 wp_step. exact Hd1.
Qed.

Lemma receive_csp_ok fuel p n d : decomp_ok d -> bytes_ok p -> blen p < 2 ^ 60 -> (2048 <= fuel)%nat ->
  wp (rohc_decomp_rfc4362_receive_csp fuel p n) (fun _ => decomp_ok) decomp_ok d.
Proof.
  intros Hd Hb Hl Hf. unfold rohc_decomp_rfc4362_receive_csp. do 2 wp_step. wp_step; wp_step; [|done]. wp_step.
  eapply (wp_attempt _ (fun q => bytes_ok (rohc_header q) /\ blen (rohc_header q) <= blen p)).
  - unfold read_context_synchronization_packet. destruct (Z.ltb_spec (blen p) 3); [done|]. cbn [negb oguard obind].
    destruct (rd_in_range p 0) as (t & -> & _); [lia|]. cbn [obind]. destruct (t =? _); cbn [oguard obind]; [|done].
    destruct (rd_u16_in_range p 1) as (k & -> & _); [lia..|]. cbn [obind].
    destruct (tail_from_in_range p 3) as (r & -> & Hr & Hrb); [lia|]. cbn [obind rohc_header].
    destruct (negb _); cbn; [|done]. split; [auto|lia].
  - by apply decomp_fail_ok.
  - intros q [Hq Hlq]. apply decompress_ok; [done..|lia|done].
Qed.

Lemma receive_ccp_ok i p d : decomp_ok d -> 0 <= i -> wp (rohc_decomp_rfc4362_receive_ccp_for_cid i p) (fun _ => decomp_ok) decomp_ok d.
Proof.
  intros Hd Hi. unfold rohc_decomp_rfc4362_receive_ccp_for_cid. do 2 wp_step. wp_step; wp_step; [|done]. wp_step.
  assert (F : forall j ty, 0 <= j -> wp (set_feedback j ty ;;; lift Rej) (fun _ : unit => decomp_ok) decomp_ok d).
  { intros j ty Hj. wp_step. apply decomp_set_feedback_ok; [done..|]. intros d' Hd'. by apply wp_lift. }
  eapply (wp_attempt _ (fun _ => True)).
  - unfold read_context_check_packet. destruct (Z.ltb_spec (blen p) 2); [done|]. cbn [negb oguard obind].
    destruct (rd_in_range p 0) as (t & -> & _); [lia|]. cbn [obind]. destruct (t =? _); cbn [oguard obind]; [|done].
    destruct (rd_in_range p 1) as (k & -> & _); [lia|]. cbn [obind]. by destruct (has_crc _).
  - by apply decomp_fail_ok.
  - intros q _. wp_step. apply wp_lift. unfold find_context.
    pose proof (table_get_total (dx_table d) i (proj1 Hd) Hi) as T.
    destruct (table_get (dx_table d) i) as [x| |]; cbn [attempt]; [|by apply F|done]. destruct T as [Hx _].
    wp_step; [by apply F|]. wp_step. apply wp_lift. rewrite context_crc7_runs. wp_step; [apply F, (ok_cid _ Hx)|]. by wp_step.
Qed.

Lemma report_ok (b : DecompImpl -> bool) i ty d : decomp_ok d -> 0 <= i ->
  wp (d <- gets (fun d => d) ;; guard (b d) ;;; set_feedback i ty) (fun _ => decomp_ok) decomp_ok d.
Proof. intros Hd Hi. do 2 wp_step. wp_step; wp_step; [|done]. by apply decomp_set_feedback_ok. Qed.

Lemma decomp_apply_ok k d : decomp_ok d -> decomp_call_ok k -> wp (decomp_apply k) (fun _ => decomp_ok) decomp_ok d.
Proof.
  intros Hd Hk. destruct k; cbn [decomp_apply decomp_call_ok] in *; try apply discard_ok.
  - unfold rohc_decomp_set_mode. wp_step. apply wp_lift.
    destruct (c_mode_to_core mode_) as [m| |] eqn:E; [by wp_step|done|]. unfold c_mode_to_core in E. by repeat case_match.
  - by unfold rohc_decomp_set_context_refresh_ack_enabled.
  - unfold rohc_decomp_set_mrru. wp_step. wp_step; [|done]. by wp_step.
  - destruct Hk. by apply decomp_set_integrity_ok.
  - apply decomp_set_integrity_ok; [done|apply bytes_ok_nil|done].
  - destruct Hk as (? & ? & ?). by apply decompress_ok.
  - unfold rohc_decomp_enable_rfc4362_lla. wp_step. wp_step; [|done]. by wp_step.
  - destruct Hk. by apply receive_nhp_ok.
  - destruct Hk as (? & ? & ?). by apply receive_csp_ok.
  - destruct Hk. by apply receive_ccp_ok.
  - by apply (report_ok (fun d => dx_lla d && reports_loss (dx_contract d))).
  - by apply (report_ok (fun d => dx_lla d && reports_residual_errors (dx_contract d))).
Qed.

(** ** Any calls, in any order *)

Definition comp_calls (calls : list comp_call) (c : CompImpl) : CompImpl :=
  fold_left (fun c k => snd (comp_apply k c)) calls c.
Definition decomp_calls (calls : list decomp_call) (d : DecompImpl) : DecompImpl :=
  fold_left (fun d k => snd (decomp_apply k d)) calls d.

Lemma wp_state {S A} (m : M S A) (I : S -> Prop) s : wp m (fun _ => I) I s -> I (snd (m s)).
Proof. unfold wp. by destruct (m s) as [[a| |] s']. Qed.

Lemma comp_calls_ok calls : forall c, comp_ok c -> Forall comp_call_ok calls -> comp_ok (comp_calls calls c).
Proof.
  induction calls as [|k calls IH]; intros c Hc Hk; [done|]. apply List.Forall_cons_iff in Hk as [Hk Hks].
  apply IH; [|done]. by apply wp_state, comp_apply_ok.
Qed.

Lemma decomp_calls_ok calls : forall d, decomp_ok d -> Forall decomp_call_ok calls -> decomp_ok (decomp_calls calls d).
Proof.
  induction calls as [|k calls IH]; intros d Hd Hk; [done|]. apply List.Forall_cons_iff in Hk as [Hk Hks].
  apply IH; [|done]. by apply wp_state, decomp_apply_ok.
Qed.

Lemma comp_new_ok max d c : 0 <= max -> rohc_comp_new2 max d = Ok c -> comp_ok c.
Proof.
  unfold rohc_comp_new2. intros H0. destruct (Z.ltb_spec large_cid_max max) as [|Hm]; [done|]. intros [= <-].
  unfold large_cid_max in Hm. split_and!; cbn -[blen]; try done; [|by destruct (small_cid_max <? max)|apply bytes_ok_nil].
  unfold table_sound, table_init, u32. cbn [table max_cid]. rewrite Z.mod_small by lia. rewrite repeat_length.
  split_and!; [lia..|]. apply List.Forall_forall. intros x ->%repeat_spec. apply sound_initial.
Qed.

Lemma decomp_new_ok max d e : 0 <= max -> rohc_decomp_new2 max d = Ok e -> decomp_ok e.
Proof.
  unfold rohc_decomp_new2. intros H0. destruct (Z.ltb_spec large_cid_max max) as [|Hm]; [done|]. intros [= <-].
  destruct (fresh_decomp_ok max) as (H1 & H2 & H3); [lia|]. exact (conj H1 (conj H2 H3)).
Qed.

(** C6: the handles of the C API are sound under any use.  After any calls in
    any order, whether they succeeded or were refused, the compressor's handle
    is well formed - its CID is one of its table's and of its CID space, every
    context is within its fields' widths, the segment to be cut next lies in
    the pending packet - and so is the decompressor's; and no further call
    reads or writes outside a buffer.  The calls are configuration,
    compression, segments, feedback by packet, by type and by the versioned
    structure, the packets of RFC 4362, and their counterparts of the
    decompressor. *)
Theorem handles_safe max direction c d comp_before decomp_before :
  0 <= max -> rohc_comp_new2 max direction = Ok c -> rohc_decomp_new2 max direction = Ok d ->
  Forall comp_call_ok comp_before -> Forall decomp_call_ok decomp_before ->
  comp_ok (comp_calls comp_before c) /\ decomp_ok (decomp_calls decomp_before d) /\
  (forall k, comp_call_ok k -> fst (comp_apply k (comp_calls comp_before c)) <> Ub) /\
  (forall k, decomp_call_ok k -> fst (decomp_apply k (decomp_calls decomp_before d)) <> Ub).
Proof.
  intros Hm Hc Hd Hcs Hds. apply comp_new_ok in Hc; [|done]. apply decomp_new_ok in Hd; [|done].
  apply (comp_calls_ok _ _ Hc) in Hcs. apply (decomp_calls_ok _ _ Hd) in Hds. split_and!; [done..| |].
  - intros k Hk. by eapply wp_no_ub, comp_apply_ok.
  - intros k Hk. by eapply wp_no_ub, decomp_apply_ok.
Qed.

(** A packet cut in two, with feedback in between, and what the other end gets. *)
Definition sample_calls : list comp_call :=
  [SetCid 2; SetMrru 4096; Compress sample_packet 24; HandleFeedback 2 1; SetCid 4].
Definition sample_packets : list decomp_call :=
  [DSetMode 7; Decompress 2048 sample_ir 1500; ReportLoss 1; Decompress 2048 [0xFE; 0; 1] 1500].

Lemma handles_safe_witness : exists c d,
  rohc_comp_new2 3 Uplink = Ok c /\ rohc_decomp_new2 3 Uplink = Ok d /\
  fst (comp_apply (GetSegment 24) (comp_calls sample_calls c)) = Ok tt /\
  comp_ok (comp_calls sample_calls c) /\ decomp_ok (decomp_calls sample_packets d) /\
  (forall k, comp_call_ok k -> fst (comp_apply k (comp_calls sample_calls c)) <> Ub) /\
  (forall k, decomp_call_ok k -> fst (decomp_apply k (decomp_calls sample_packets d)) <> Ub).
Proof.
  eexists _, _. split; [reflexivity|]. split; [reflexivity|]. split; [vm_compute; reflexivity|].
  refine (handles_safe 3 Uplink _ _ sample_calls sample_packets _ eq_refl eq_refl _ _); [lia|..].
  - assert (octets_ok sample_packet) by (split; [by apply bytes_ok_by|by vm_compute]).
    repeat (apply List.Forall_cons; [cbn [comp_call_ok]; first [done|lia]|]). apply List.Forall_nil.
  - assert (bytes_ok sample_ir /\ bytes_ok [0xFE; 0; 1]) as [H1 H2] by (split; by apply bytes_ok_by).
    repeat (apply List.Forall_cons; [cbn [decomp_call_ok]; first [exact I|lia|split_and!; [done|by vm_compute|lia]]|]).
    apply List.Forall_nil.
Defined.
