(* ===== verification/SecurityAssociation.v ===== *)
(** * Security associations: the ROHCoIPsec calls of src/c_api/rohc_c_api.cpp

    The structures of include/rohccxx.h and the parameters of [IpsecChannel],
    the keys of both directions, the security association built from a
    negotiated channel, and what applying it does to the handles of [Channel].
    A null pointer is refused before anything else. *)

From S2P Require Import Prelude Context Cursor IpsecChannel Sha256 Compressor CompressApi DecompressApi Channel.

(** ** The structures *)

(** [rohccxx_rohcoipsec_channel_t]. *)
Record CChannel := mkCChannel {
  ch_max_cid : Z; ch_profiles : list Z; ch_profile_count : Z;
  ch_algorithms : list Z; ch_algorithm_count : Z;
  ch_icv_len : Z; ch_has_icv_len : Z; ch_mrru : Z; ch_has_mrru : Z }.

(** [rohccxx_rohcoipsec_sa_t]. *)
Record Sa := mkSa {
  sa_max_cid : Z; sa_large_cids : Z; sa_algorithm : Z; sa_icv_len : Z; sa_mrru : Z; sa_has_mrru : Z;
  sa_key : bytes; sa_key_len : Z; sa_feedback_for : Z; sa_has_feedback_for : Z }.

(** The loop that appends the first [n] entries of [a] from [i] on. *)
Fixpoint append_entries (f : ChannelParameters -> Z -> outcome ChannelParameters) (a : list Z) (i : Z) (n : nat)
    (p : ChannelParameters) : outcome ChannelParameters :=
  match n with
  | O => Ok p
  | S n =>
      let! x := rd a i in
      let! p := f p x in
      append_entries f a (i + 1) n p
  end.

Definition c_rohcoipsec_to_core (inp : CChannel) : outcome ChannelParameters :=
  check negb ((max_profiles <? ch_profile_count inp) || (max_integrity_algorithms <? ch_algorithm_count inp)) in
  let out := set_max_cid (ch_max_cid inp) no_channel in
  let! out := append_entries append_profile (ch_profiles inp) 0 (Z.to_nat (ch_profile_count inp)) out in
  let! out := append_entries append_integrity (ch_algorithms inp) 0 (Z.to_nat (ch_algorithm_count inp)) out in
  Ok (set_mrru (ch_mrru inp) (negb (ch_has_mrru inp =? 0))
       (set_icv (ch_icv_len inp) (negb (ch_has_icv_len inp =? 0)) out)).

(** The first [count] entries of [a], in an array of [size] zeros. *)
Definition copy_entries (a : list Z) (count : Z) (size : nat) : outcome (list Z) :=
  let! entries := slice a 0 count in overwrite (repeat 0 size) entries.

Definition core_rohcoipsec_to_c (inp : ChannelParameters) : outcome CChannel :=
  check negb ((max_profiles <? profile_count inp) || (max_integrity_algorithms <? integrity_algorithm_count inp)) in
  let! ps := copy_entries (profiles inp) (profile_count inp) 16 in
  let! algorithms := copy_entries (integrity_algorithms inp) (integrity_algorithm_count inp) 8 in
  Ok (mkCChannel (IpsecChannel.max_cid inp) ps (profile_count inp) algorithms (integrity_algorithm_count inp)
       (icv_len inp) (bool_val (has_icv_len inp)) (mrru inp) (bool_val (has_mrru inp))).

(** ** Negotiation *)

Definition rohc_rohcoipsec_write_supported (params : CChannel) (capacity : Z) : outcome bytes :=
  let! core := c_rohcoipsec_to_core params in
  match write_supported_notify_payload core {| w_out := []; w_cap := capacity |} with
  | (Ok _, s) => Ok (w_out s) | (Rej, _) => Rej | (Ub, _) => Ub
  end.

Definition rohc_rohcoipsec_parse_supported (data : bytes) : outcome CChannel :=
  match parse_supported_notify_payload data no_channel with
  | (Ok _, core) => core_rohcoipsec_to_c core | (Rej, _) => Rej | (Ub, _) => Ub
  end.

Definition rohc_rohcoipsec_negotiate (local peer : CChannel) : outcome CChannel :=
  let! core_local := c_rohcoipsec_to_core local in
  let! core_peer := c_rohcoipsec_to_core peer in
  match negotiate core_local core_peer no_channel with
  | (Ok _, core_negotiated) => core_rohcoipsec_to_c core_negotiated | (Rej, _) => Rej | (Ub, _) => Ub
  end.

(** ** Keys and security associations *)

(** The outbound key and the inbound key. *)
Definition rohc_rohcoipsec_derive_directional_keys (keymat : bytes) (key_len outbound_capacity inbound_capacity : Z)
    : outcome (bytes * bytes) :=
  check negb ((key_len =? 0) || (rohcoipsec_key_max <? key_len) || (blen keymat <? key_len * 2) ||
              (outbound_capacity <? key_len) || (inbound_capacity <? key_len)) in
  let! outbound_key := slice keymat 0 key_len in
  let! inbound_key := slice keymat key_len key_len in
  Ok (outbound_key, inbound_key).

Definition rohc_rohcoipsec_build_sa (negotiated : CChannel) (algorithm : Z) (key : bytes)
    (feedback_for has_feedback_for : Z) : outcome Sa :=
  check negb (rohcoipsec_key_max <? blen key) in
  let! core := c_rohcoipsec_to_core negotiated in
  let! good := IpsecChannel.valid core in
  check good in
  let! offered := supports_integrity core algorithm in
  check offered in
  let none := algorithm =? None_ in
  let full_len := digest_len algorithm in
  let len := if none then 0 else if has_icv_len core then icv_len core else full_len in
  check negb (negb none && ((full_len =? 0) || (len =? 0) || (full_len <? len) || (blen key =? 0))) in
  let! stored := overwrite (repeat 0 128) key in
  Ok (mkSa (IpsecChannel.max_cid core) (bool_val (large_cids core)) algorithm (u16 len)
       (if has_mrru core then mrru core else 0) (bool_val (has_mrru core)) stored (blen key)
       feedback_for (bool_val (negb (has_feedback_for =? 0)))).

(** The key of an association, once its length is known to fit. *)
Definition key_of (sa : Sa) : outcome bytes :=
  check negb (rohcoipsec_key_max <? sa_key_len sa) in slice (sa_key sa) 0 (sa_key_len sa).

Definition rohc_comp_apply_rohcoipsec_sa (sa : Sa) : M CompImpl unit :=
  key <- lift (key_of sa) ;;
  rohc_comp_set_rohcoipsec_integrity (sa_algorithm sa) key (sa_icv_len sa) ;;;
  if negb (sa_has_mrru sa =? 0) then rohc_comp_set_mrru (sa_mrru sa) else ret tt.

Definition rohc_decomp_apply_rohcoipsec_sa (sa : Sa) : M DecompImpl unit :=
  key <- lift (key_of sa) ;;
  rohc_decomp_set_rohcoipsec_integrity (sa_algorithm sa) key (sa_icv_len sa) ;;;
  if negb (sa_has_mrru sa =? 0) then rohc_decomp_set_mrru (sa_mrru sa) else ret tt.

(** ** The protocol number *)

Definition rohc_rohcoipsec_security_next_header (original_next_header compressed : Z) : Z :=
  if negb (compressed =? 0) then protocol_number else original_next_header.
Definition rohc_rohcoipsec_outbound_next_header (compressed : Z) : Z :=
  if negb (compressed =? 0) then protocol_number else 0.
Definition rohc_rohcoipsec_inbound_requires_decompression (next_header : Z) : bool := is_rohc_next_header next_header.
Definition rohc_comp_rohcoipsec_next_header (c : CompImpl) : Z := if cx_ipsec c then protocol_number else 0.
Definition rohc_decomp_rohcoipsec_requires_decompression (d : DecompImpl) (next_header : Z) : bool :=
  dx_ipsec d && is_rohc_next_header next_header.

(** ** Check values of packets an IPsec stack handles itself *)

Definition rohc_rohcoipsec_append_icv (algorithm : Z) (key authenticated_packet rohc_packet : bytes)
    (capacity icv_len : Z) : outcome bytes :=
  append_icv algorithm key authenticated_packet rohc_packet capacity icv_len.

Definition rohc_rohcoipsec_strip_verify_icv (algorithm : Z) (key authenticated_packet rohcoipsec_packet : bytes)
    (capacity icv_len : Z) : outcome bytes :=
  let! stripped := strip_and_verify_icv algorithm key authenticated_packet rohcoipsec_packet icv_len in
  check negb (capacity <? blen stripped) in
  Ok stripped.

(** * What a structure stands for *)

Definition cchannel_ok (ch : CChannel) : Prop :=
  length (ch_profiles ch) = 16%nat /\ Forall word_ok (ch_profiles ch) /\ 0 <= ch_profile_count ch /\
  length (ch_algorithms ch) = 8%nat /\ Forall word_ok (ch_algorithms ch) /\ 0 <= ch_algorithm_count ch /\
  word_ok (ch_max_cid ch) /\ word_ok (ch_icv_len ch) /\ word_ok (ch_mrru ch).

Definition c_channel_of (ch : CChannel) : Channel :=
  mkChannel (ch_max_cid ch) (take (Z.to_nat (ch_profile_count ch)) (ch_profiles ch))
    (take (Z.to_nat (ch_algorithm_count ch)) (ch_algorithms ch))
    (if negb (ch_has_icv_len ch =? 0) then Some (ch_icv_len ch) else None)
    (if negb (ch_has_mrru ch =? 0) then Some (ch_mrru ch) else None).

Section Entries.
Context {f entries more cap supported} `{!Appender f entries more cap supported}.

Lemma append_entries_run a n : forall i p, channel_ok p -> Forall word_ok a -> 0 <= i -> i + Z.of_nat n <= blen a ->
  Z.of_nat (length (entries p)) + Z.of_nat n <= cap -> NoDup (entries p) ->
  let l := take n (drop (Z.to_nat i) a) in
  (exists p', append_entries f a i n p = Ok p' /\ channel_ok p' /\ entries p' = entries p ++ l /\
     channel_of p' = more l (channel_of p) /\ Forall (fun x => supported x = true) l /\ NoDup (entries p')) \/
  (append_entries f a i n p = Rej /\ ~ (Forall (fun x => supported x = true) l /\ NoDup (entries p ++ l))).
Proof.
  induction n as [|n IH]; intros i p Hp Ha Hi Hn Hc Hd l.
  { left. exists p. subst l. rewrite take_0, app_nil_r. by rewrite (more_nil (Appender := _)). }
  subst l. destruct (take_rd_drop a i n Hi ltac:(lia)) as (x & Ex & El). cbn [append_entries]. rewrite Ex, El. cbn [obind].
  assert (Hx : word_ok x).
  { apply (f_equal (fun l => x ∈ l)) in El. assert (Hin : x ∈ take (S n) (drop (Z.to_nat i) a)) by (rewrite El; apply list_elem_of_here).
    apply List.Forall_forall with (x := x) in Ha; [done|]. apply list_elem_of_In.
    eapply subseteq_drop, subseteq_take, Hin. }
  pose proof (append_one p x Hp Hx) as H. destruct (bool_decide_reflect (Z.of_nat (length (entries p)) < cap /\ supported x = true /\ x ∉ entries p)) as [G|G].
  - destruct H as (p1 & E1 & Hp1 & Ee & Ec). destruct G as (_ & Hsx & Hnx). rewrite E1. cbn [obind].
    assert (Hd1 : NoDup (entries p1)).
    { rewrite Ee. apply list.NoDup_app. split_and!; [done| |apply NoDup_singleton].
      intros y Hy Hy'%list_elem_of_singleton. by subst. }
    destruct (IH (i + 1) p1 Hp1 Ha ltac:(lia) ltac:(lia)) as [(p2 & E2 & Hp2 & Ee2 & Ec2 & Hs & Hd2)|[E2 N]];
      [rewrite Ee, length_app; cbn; lia|done| |].
    + left. exists p2. rewrite Ee2, Ec2, Ec, Ee, (more_app (Appender := _)), <- app_assoc in *. split_and!; try done.
      by apply Forall_cons_iff.
    + right. split; [done|]. rewrite Ee, <- app_assoc in N. intros [[_ Hs]%Forall_cons_iff Hnd]. by apply N.
  - rewrite H. right. split; [done|]. intros [[Hsx _]%Forall_cons_iff Hnd]. apply G. split_and!; [lia|done|].
    apply list.NoDup_app in Hnd as (_ & Hnd & _). intros Hin. by apply (Hnd x Hin), list_elem_of_here.
Qed.
End Entries.

Lemma to_core_run ch : cchannel_ok ch ->
  (ch_profile_count ch <= 16 /\ ch_algorithm_count ch <= 8 /\
   exists p, c_rohcoipsec_to_core ch = Ok p /\ channel_ok p /\ channel_of p = c_channel_of ch) \/
  (c_rohcoipsec_to_core ch = Rej /\ ~ (ch_profile_count ch <= 16 /\ ch_algorithm_count ch <= 8 /\ well_formed (c_channel_of ch))).
Proof.
  intros (L1 & W1 & N1 & L2 & W2 & N2 & Hm & Hi & Hr). unfold c_rohcoipsec_to_core, max_profiles, max_integrity_algorithms.
  destruct (Z.ltb_spec 16 (ch_profile_count ch)); [right; cbn; split; [done|lia]|].
  destruct (Z.ltb_spec 8 (ch_algorithm_count ch)); [right; cbn; split; [done|lia]|]. cbn [orb negb oguard obind].
  set (p0 := set_max_cid (ch_max_cid ch) no_channel).
  assert (Hp0 : channel_ok p0).
  { destruct no_channel_ok as (H1 & H2 & H3 & H4 & H5 & H6 & H7 & H8 & H9). do 6 (split; [done|]). by split_and!. }
  assert (Eo : offered p0 = []) by reflexivity.
  destruct (append_entries_run (f := append_profile) (ch_profiles ch) (Z.to_nat (ch_profile_count ch)) 0 p0)
    as [(p1 & E1 & Hp1 & Ee1 & Ec1 & Hs1 & Hd1)|[E1 N]]; try done; [unfold blen; lia|rewrite Eo; cbn; lia|rewrite Eo; apply NoDup_nil_2| |]; cycle 1.
  { right. rewrite E1. split; [done|]. intros (_ & _ & _ & _ & Hs & Hd & _). apply N. split; [done|]. exact Hd. }
  rewrite E1. cbn [obind].
  assert (Ea1 : algorithms p1 = []).
  { assert (E : c_algorithms (channel_of p1) = []) by (rewrite Ec1; done). exact E. }
  destruct (append_entries_run (f := append_integrity) (ch_algorithms ch) (Z.to_nat (ch_algorithm_count ch)) 0 p1)
    as [(p2 & E2 & Hp2 & Ee2 & Ec2 & Hs2 & Hd2)|[E2 N]]; try done; [unfold blen; lia|rewrite Ea1; cbn; lia|rewrite Ea1; apply NoDup_nil_2| |]; cycle 1.
  { right. rewrite E2. split; [done|]. intros (_ & _ & _ & _ & _ & _ & _ & Hs & Hd & _). apply N. split; [done|]. rewrite Ea1. exact Hd. }
  left. rewrite E2. cbn [obind]. do 2 (split; [done|]). eexists. split; [reflexivity|]. split.
  - destruct Hp2 as (H1 & H2 & H3 & H4 & H5 & H6 & H7 & H8 & H9). do 6 (split; [done|]). by split_and!.
  - rewrite Ec1 in Ec2. unfold c_channel_of. rewrite <- (drop_0 (ch_profiles ch)), <- (drop_0 (ch_algorithms ch)).
    transitivity (mkChannel (c_max_cid (channel_of p2)) (c_profiles (channel_of p2)) (c_algorithms (channel_of p2))
      (if negb (ch_has_icv_len ch =? 0) then Some (ch_icv_len ch) else None)
      (if negb (ch_has_mrru ch =? 0) then Some (ch_mrru ch) else None)); [reflexivity|]. by rewrite Ec2.
Qed.

(** * The association of a channel *)

(** What a channel, an algorithm and a key have to be for an association. *)
Definition sa_wanted (ch : CChannel) (algorithm : Z) (key : bytes) : Prop :=
  (ch_profile_count ch <= 16 /\ ch_algorithm_count ch <= 8 /\ well_formed (c_channel_of ch)) /\
  algorithm ∈ c_algorithms (c_channel_of ch) /\ blen key <= 128 /\ (algorithm = None_ \/ 0 < blen key).

Definition sa_for (ch : CChannel) (algorithm : Z) (key : bytes) (feedback_for has_feedback_for : Z) : Sa :=
  let ch := c_channel_of ch in
  mkSa (c_max_cid ch) (bool_val (15 <? c_max_cid ch)) algorithm
    (if algorithm =? None_ then 0 else match c_icv ch with Some n => n | None => 32 end)
    (match c_mrru ch with Some n => n | None => 0 end) (bool_val (match c_mrru ch with Some _ => true | None => false end))
    (key ++ repeat 0 (128 - length key)) (blen key) feedback_for (bool_val (negb (has_feedback_for =? 0))).

(** Whose algorithms are keyed gets a check value of a length that fits. *)
Lemma keyed_icv ch algorithm : well_formed ch -> algorithm ∈ c_algorithms ch -> algorithm <> None_ ->
  algorithm = HmacSha256 /\ 0 < match c_icv ch with Some n => n | None => 32 end <= 32.
Proof.
  intros (_ & _ & _ & _ & _ & Hs & _ & Hi) Hin Hn.
  assert (E : algorithm = HmacSha256).
  { apply list_elem_of_In in Hin. eapply List.Forall_forall in Hs; [|exact Hin]. cbv beta in Hs.
    unfold is_supported_integrity_algorithm in Hs. apply orb_true_iff in Hs as [Hs|Hs]; by apply Z.eqb_eq in Hs. }
  split; [done|]. destruct (c_icv ch) as [n|]; [|lia]. unfold icv_fits, keyed in Hi.
  replace (existsb _ _) with true in Hi; [done|]. symmetry. apply existsb_exists. exists algorithm.
  split; [by apply list_elem_of_In|by rewrite E].
Qed.

Lemma build_sa_run ch algorithm key feedback_for has : cchannel_ok ch ->
  (sa_wanted ch algorithm key /\
   rohc_rohcoipsec_build_sa ch algorithm key feedback_for has = Ok (sa_for ch algorithm key feedback_for has)) \/
  (~ sa_wanted ch algorithm key /\ rohc_rohcoipsec_build_sa ch algorithm key feedback_for has = Rej).
Proof.
  intros Hch. unfold rohc_rohcoipsec_build_sa, rohcoipsec_key_max, sa_wanted.
  destruct (Z.ltb_spec 128 (blen key)) as [|Hk]; [right; split; [lia|done]|]. cbn [negb oguard obind].
  destruct (to_core_run ch Hch) as [(B1 & B2 & p & -> & Hp & Ec)|[-> N]]; [|right; split; [tauto|done]]. cbn [obind].
  rewrite valid_spec by done. cbn [obind]. rewrite Ec.
  destruct (bool_decide_reflect (well_formed (c_channel_of ch))) as [W|W]; [|right; split; [tauto|done]]. cbn [oguard obind].
  rewrite supports_integrity_spec by done. cbn [obind].
  assert (Ea : algorithms p = c_algorithms (c_channel_of ch)) by (by rewrite <- Ec). rewrite Ea.
  destruct (bool_decide_reflect (algorithm ∈ c_algorithms (c_channel_of ch))) as [Hin|Hin]; [|right; split; [tauto|done]].
  cbn [oguard obind]. set (len := if algorithm =? None_ then 0 else if has_icv_len p then _ else _).
  set (n := if algorithm =? None_ then 0 else match c_icv (c_channel_of ch) with Some n => n | None => 32 end).
  pose proof (blen_nonneg key).
  assert (El : len = n /\ 0 <= n <= 32 /\ (algorithm <> None_ -> algorithm = HmacSha256 /\ 0 < n)).
  { subst len n. destruct (Z.eqb_spec algorithm None_) as [|Hn]; [by split_and!|].
    destruct (keyed_icv _ algorithm W Hin Hn) as [-> G]. rewrite <- Ec in *. cbn [channel_of c_icv] in *.
    destruct (has_icv_len p); split_and!; (done || lia). }
  destruct El as (-> & Hn & Hkeyed).
  assert (G : (algorithm = None_ \/ 0 < blen key) <->
    negb (negb (algorithm =? None_) && ((digest_len algorithm =? 0) || (n =? 0) || (digest_len algorithm <? n) || (blen key =? 0))) = true).
  { destruct (Z.eqb_spec algorithm None_) as [|Hne]; [by split; [|left]|]. destruct (Hkeyed Hne) as [-> Hpos].
    change (digest_len HmacSha256) with 32. rewrite (proj2 (Z.eqb_neq n 0)), (proj2 (Z.ltb_ge 32 n)) by lia.
    destruct (Z.eqb_spec (blen key) 0); cbn; split; [|done| |]; lia. }
  destruct (negb (_ && _)); cbn [oguard obind]; [|right; split; [|done]; intros (_ & _ & _ & X%G); done].
  left. split; [split_and!; try done; by apply G|].
  rewrite overwrite_fits by (rewrite repeat_length; unfold blen in Hk; lia). cbn [obind]. unfold sa_for.
  assert (En : u16 n = n) by (unfold u16; apply Z.mod_small; lia). rewrite En. subst n.
  assert (Ez : forall k m, drop k (repeat 0 m) = repeat 0 (m - k)) by (intros k m; revert k; induction m as [|m IH]; intros [|k]; cbn; auto).
  rewrite Ez.
  rewrite <- Ec. cbn [channel_of c_max_cid c_icv c_mrru]. by destruct (has_mrru p).
Qed.

(** ** Both handles under one association *)

Definition key_held (sa : Sa) : bytes := take (Z.to_nat (sa_key_len sa)) (sa_key sa).

Definition comp_under (sa : Sa) (c : CompImpl) : Prop :=
  cx_ipsec c = true /\ cx_algorithm c = sa_algorithm sa /\ cx_key c = key_held sa /\ cx_icv_len c = sa_icv_len sa.
Definition decomp_under (sa : Sa) (d : DecompImpl) : Prop :=
  dx_ipsec d = true /\ dx_algorithm d = sa_algorithm sa /\ dx_key d = key_held sa /\ dx_icv_len d = sa_icv_len sa.

(** Of an association that [build_sa] makes. *)
Definition sa_ok (sa : Sa) : Prop :=
  bytes_ok (sa_key sa) /\ blen (sa_key sa) = 128 /\ 0 <= sa_key_len sa <= 128 /\
  (sa_algorithm sa = None_ /\ sa_icv_len sa = 0 \/
   sa_algorithm sa = HmacSha256 /\ 0 < sa_icv_len sa <= 32 /\ 0 < sa_key_len sa).

Lemma sa_for_ok ch algorithm key feedback_for has : bytes_ok key -> sa_wanted ch algorithm key ->
  sa_ok (sa_for ch algorithm key feedback_for has) /\ key_held (sa_for ch algorithm key feedback_for has) = key.
Proof.
  intros Hb ((_ & _ & W) & Hin & Hk & Hkey). pose proof (blen_nonneg key). unfold sa_for, sa_ok, key_held. cbn.
  assert (Hl : (length key <= 128)%nat) by (unfold blen in Hk; lia). split_and!.
  - apply bytes_ok_app. split; [done|]. apply List.Forall_forall. by intros x ->%repeat_spec.
  - unfold blen in *. rewrite length_app, repeat_length. lia.
  - done.
  - done.
  - destruct (Z.eqb_spec algorithm None_) as [|Hn]; [by left|right].
    destruct (keyed_icv _ algorithm W Hin Hn) as [-> G]. split_and!; [done|apply G|apply G|by destruct Hkey].
  - unfold blen. rewrite Nat2Z.id. by rewrite take_app_length.
Qed.

Lemma key_of_held sa : sa_ok sa -> key_of sa = Ok (key_held sa) /\ blen (key_held sa) = sa_key_len sa.
Proof.
  intros (_ & Hl & Hn & _). unfold key_of, key_held, rohcoipsec_key_max. rewrite (proj2 (Z.ltb_ge 128 _)) by lia. cbn [negb oguard obind].
  rewrite slice_eq by lia. change (Z.to_nat 0) with 0%nat. rewrite drop_0. split; [done|].
  unfold blen in *. rewrite length_take. lia.
Qed.

Lemma configure_held sa : sa_ok sa ->
  configure_rohcoipsec (sa_algorithm sa) (key_held sa) (sa_icv_len sa) = Ok (sa_algorithm sa, key_held sa, sa_icv_len sa).
Proof.
  intros H. destruct (key_of_held sa H) as [_ El]. destruct H as (_ & _ & Hn & H). unfold configure_rohcoipsec, rohcoipsec_key_max.
  rewrite El, (proj2 (Z.ltb_ge 128 _)) by lia. cbn [negb oguard obind].
  destruct H as [[-> ->]|(-> & Hi & Hk)]; [done|]. change (HmacSha256 =? None_) with false. change (digest_len HmacSha256) with 32.
  by rewrite (proj2 (Z.eqb_neq (sa_icv_len sa) 0)), (proj2 (Z.ltb_ge 32 _)), (proj2 (Z.eqb_neq (sa_key_len sa) 0)) by lia.
Qed.

Definition mrru_taken (sa : Sa) : bool := (sa_has_mrru sa =? 0) || (sa_mrru sa <=? segment_buffer_max).

Lemma comp_apply_run sa c : sa_ok sa -> exists c1, comp_under sa c1 /\
  rohc_comp_apply_rohcoipsec_sa sa c = (if mrru_taken sa then Ok tt else Rej, c1).
Proof.
  intros H. unfold rohc_comp_apply_rohcoipsec_sa, mrru_taken. destruct (key_of_held sa H) as [-> _].
  erewrite bind_ok by reflexivity. unfold rohc_comp_set_rohcoipsec_integrity. rewrite configure_held by done.
  erewrite bind_ok by reflexivity. destruct (sa_has_mrru sa =? 0); cbn [negb orb]; [eexists; split; [|reflexivity]; by split_and!|].
  unfold rohc_comp_set_mrru. rewrite Z.leb_antisym. destruct (segment_buffer_max <? sa_mrru sa); (eexists; split; [|reflexivity]; by split_and!).
Qed.

Lemma decomp_apply_run sa d : sa_ok sa -> exists d1, decomp_under sa d1 /\
  rohc_decomp_apply_rohcoipsec_sa sa d = (if mrru_taken sa then Ok tt else Rej, d1).
Proof.
  intros H. unfold rohc_decomp_apply_rohcoipsec_sa, mrru_taken. destruct (key_of_held sa H) as [-> _].
  erewrite bind_ok by reflexivity. unfold rohc_decomp_set_rohcoipsec_integrity. rewrite configure_held by done.
  erewrite bind_ok by reflexivity. destruct (sa_has_mrru sa =? 0); cbn [negb orb]; [eexists; split; [|reflexivity]; by split_and!|].
  unfold rohc_decomp_set_mrru. rewrite Z.leb_antisym. destruct (segment_buffer_max <? sa_mrru sa); (eexists; split; [|reflexivity]; by split_and!).
Qed.

(** What one end seals the other opens. *)
Lemma sealed_opens sa ip rohc cap whole : sa_ok sa -> bytes_ok rohc -> blen ip <= 4096 ->
  append_icv (sa_algorithm sa) (key_held sa) ip rohc cap (sa_icv_len sa) = Ok whole ->
  strip_and_verify_icv (sa_algorithm sa) (key_held sa) ip whole (sa_icv_len sa) = Ok rohc.
Proof.
  intros (Hb & Hl & Hn & H) Hr Hip E. destruct H as [[Ea Ei]|(Ea & Hi & Hk)]; rewrite Ea in *.
  - rewrite Ei in *. unfold append_icv, strip_and_verify_icv in *. change (None_ =? None_) with true in *.
    cbn [negb andb oguard obind] in *. destruct (cap <? _); [done|]. cbn in E. injection E as <-. rewrite app_nil_r.
    pose proof (blen_nonneg rohc). rewrite (proj2 (Z.ltb_ge (blen rohc) 0)) by done. cbn -[blen].
    rewrite slice_eq by lia. rewrite Z.sub_0_r. change (Z.to_nat 0) with 0%nat. rewrite drop_0, take_ge; [done|unfold blen; lia].
  - assert (Hkb : bytes_ok (key_held sa)) by (by apply bytes_ok_take).
    rewrite append_icv_hmac in E by done. destruct (_ <=? cap); [|done]. injection E as <-.
    destruct (sha256_digest (masked 0x5C (key_block (key_held sa)) ++ digest_of (masked 0x36 (key_block (key_held sa)) ++ ip))) as (_ & Hdl & Hdb).
    fold (hmac_sha256 (key_held sa) ip) in Hdl, Hdb.
    set (icv := take _ _). assert (Hicv : blen icv = sa_icv_len sa) by (unfold icv, blen in *; rewrite length_take; lia).
    rewrite strip_icv_hmac; [|done|apply bytes_ok_app; split; [done|by apply bytes_ok_take]|done|done].
    rewrite blen_app, Hicv. pose proof (blen_nonneg rohc). rewrite (proj2 (Z.leb_le _ _)) by lia.
    replace (blen rohc + sa_icv_len sa - sa_icv_len sa) with (blen rohc) by lia. unfold blen. rewrite Nat2Z.id.
    rewrite drop_app_length, take_app_length. by rewrite bool_decide_true.
Qed.

(** ** The keys of both directions *)

(** The first half is the outbound key and the second the inbound key, at both
    ends alike: what is outbound at one end is inbound at the other only where
    the halves are equal, or where one end exchanges the two. *)
Lemma directional_keys keymat n : 0 < n <= 128 -> 2 * n <= blen keymat ->
  exists outbound inbound, rohc_rohcoipsec_derive_directional_keys keymat n n n = Ok (outbound, inbound) /\
    take (Z.to_nat (2 * n)) keymat = outbound ++ inbound /\ blen outbound = n /\ blen inbound = n.
Proof.
  intros Hn Hl. unfold rohc_rohcoipsec_derive_directional_keys, rohcoipsec_key_max.
  rewrite (proj2 (Z.eqb_neq n 0)), (proj2 (Z.ltb_ge 128 n)), (proj2 (Z.ltb_ge (blen keymat) _)), !(proj2 (Z.ltb_ge n n)) by lia.
  cbn [orb negb oguard obind]. rewrite !slice_eq by lia. cbn [obind]. do 2 eexists. split; [reflexivity|].
  change (Z.to_nat 0) with 0%nat. rewrite drop_0. unfold blen in *. rewrite !length_take, length_drop. split; [|lia].
  replace (Z.to_nat (2 * n)) with (Z.to_nat n + Z.to_nat n)%nat by lia. by rewrite take_take_drop.
Qed.

(** C23: a security association fits both ends.  From a channel, an algorithm
    and a key the call builds an association exactly when the channel is well
    formed, offers the algorithm, and the key is of at most 128 octets and not
    empty where the algorithm is keyed; it is refused otherwise, never read
    outside its arrays.  Applied to a compressor and to a decompressor the
    association puts its algorithm, key and length in force, and what the one
    end appends to a packet the other verifies and takes off.  Where its MRRU is
    above the 4096 octets of the reassembly buffer, which no negotiation
    excludes, both calls answer -1 after the integrity is in force. *)
Theorem association_protects ch algorithm key feedback_for has c d :
  cchannel_ok ch -> bytes_ok key ->
  (sa_wanted ch algorithm key /\
   exists sa, rohc_rohcoipsec_build_sa ch algorithm key feedback_for has = Ok sa /\
     sa_algorithm sa = algorithm /\ key_held sa = key /\
     exists c1 d1, comp_under sa c1 /\ decomp_under sa d1 /\
       rohc_comp_apply_rohcoipsec_sa sa c = (if mrru_taken sa then Ok tt else Rej, c1) /\
       rohc_decomp_apply_rohcoipsec_sa sa d = (if mrru_taken sa then Ok tt else Rej, d1) /\
       forall ip_packet rohc_packet capacity whole, bytes_ok rohc_packet -> blen ip_packet <= 4096 ->
         rohc_rohcoipsec_append_icv (cx_algorithm c1) (cx_key c1) ip_packet rohc_packet capacity (cx_icv_len c1) = Ok whole ->
         rohc_rohcoipsec_strip_verify_icv (dx_algorithm d1) (dx_key d1) ip_packet whole (blen rohc_packet) (dx_icv_len d1) =
           Ok rohc_packet) \/
  (~ sa_wanted ch algorithm key /\ rohc_rohcoipsec_build_sa ch algorithm key feedback_for has = Rej).
Proof.
  intros Hch Hb. destruct (build_sa_run ch algorithm key feedback_for has Hch) as [[W E]|N]; [left|by right].
  split; [exact W|]. destruct (sa_for_ok ch algorithm key feedback_for has Hb W) as [Hsa Hk].
  set (sa := sa_for ch algorithm key feedback_for has) in *. exists sa. do 3 (split; [done|]).
  destruct (comp_apply_run sa c Hsa) as (c1 & Hc & E1), (decomp_apply_run sa d Hsa) as (d1 & Hd & E2).
  exists c1, d1. do 4 (split; [done|]). intros ip rohc cap whole Hr Hip.
  destruct Hc as (_ & -> & -> & ->), Hd as (_ & -> & -> & ->). unfold rohc_rohcoipsec_append_icv, rohc_rohcoipsec_strip_verify_icv.
  intros Ha. rewrite (sealed_opens sa ip rohc cap whole) by done. cbn [obind]. by rewrite Z.ltb_irrefl.
Qed.

(** RTP over CIDs up to 31, HMAC-SHA-256 cut to 12 octets, and an MRRU of 1500. *)
Definition sample_cchannel : CChannel :=
  mkCChannel 31 (0x0101 :: repeat 0 15) 1 (12 :: repeat 0 7) 1 12 1 1500 1.

Lemma association_protects_witness :
  rohc_rohcoipsec_build_sa sample_cchannel HmacSha256 [1; 2; 3] 9 1 =
    Ok (mkSa 31 1 HmacSha256 12 1500 1 ([1; 2; 3] ++ repeat 0 125) 3 9 1) /\
  exists c d, rohc_comp_new2 31 Uplink = Ok c /\ rohc_decomp_new2 31 Uplink = Ok d /\
  exists sa, rohc_rohcoipsec_build_sa sample_cchannel HmacSha256 [1; 2; 3] 9 1 = Ok sa /\
    exists c1 d1, rohc_comp_apply_rohcoipsec_sa sa c = (Ok tt, c1) /\ rohc_decomp_apply_rohcoipsec_sa sa d = (Ok tt, d1).
Proof.
  split; [by vm_compute|]. eexists _, _. do 2 (split; [reflexivity|]).
  lazymatch goal with |- exists sa, _ /\ exists c1 d1, _ _ ?c = _ /\ _ _ ?d = _ =>
    destruct (association_protects sample_cchannel HmacSha256 [1; 2; 3] 9 1 c d) as [(_ & sa & E & _ & _ & c1 & d1 & _ & _ & E1 & E2 & _)|[_ E]] end.
  - assert (W : forall l, forallb (fun x => (0 <=? x) && (x <? 2 ^ 16)) l = true -> Forall word_ok l).
    { intros l Hl. apply List.Forall_forall. intros x Hx. apply (proj1 (forallb_forall _ _) Hl) in Hx. unfold word_ok. bool_prop. lia. }
    unfold cchannel_ok. split_and!; try reflexivity; try (by apply W); by vm_compute.
  - apply List.Forall_forall. intros x Hx. cbn in Hx. unfold byte_ok. lia.
  - exists sa. split; [exact E|]. exists c1, d1.
    assert (M : mrru_taken sa = true) by (vm_compute in E; by injection E as <-). by rewrite M in E1, E2.
  - exfalso. by vm_compute in E.
Defined.
