(* ===== verification/IntegritySafe.v ===== *)
(** * No packet without its check value

    Once a decompressor has HMAC-SHA-256 in force, [rohc_decompress4], and
    [rohc_decomp_rfc4362_receive_csp] through it, deliver a packet only where the
    octets that arrived end in the check value of that very packet: whichever way
    the packet was read, and however many segments it came in.  A packet without
    a header is delivered with no check at all ([header_free_unchecked]). *)

From S2P Require Import Prelude Crc Cid Bits Encoding Context Cursor Chains EmitIr Safety Lla.
From S2P Require Import DecodeIr DecodeIrDyn Compressor Feedback FeedbackPackets Packets IpsecChannel.
From S2P Require Import Sha256 FormalCo PacketImage CompactGuards CompressApi CompressFaithful DecompressApi Channel.
From S2P Require Import ReceiveSafe DecompressSafe Segmentation FirstPacket ChannelSafe SecurityAssociation.

(** A check value is computed of 4096 octets at most, and is part of a digest. *)
Lemma computed_short key data len v : compute_icv HmacSha256 key data len = Ok v -> blen data <= 4096.
Proof.
  unfold compute_icv. change (HmacSha256 =? None_) with false. change (HmacSha256 =? HmacSha256) with true. cbn [negb orb].
  destruct (negb (_ <? len)); cbn [oguard obind]; [|done]. destruct (if 64 <? blen key then _ else _); cbn [obind]; [|done..].
  destruct (Z.ltb_spec 4096 (blen data)); [done|]. by intros _.
Qed.

Lemma hmac_octets key data : blen (hmac_sha256 key data) = 32 /\ bytes_ok (hmac_sha256 key data).
Proof.
  unfold hmac_sha256. match goal with |- context [digest_of ?m] => by destruct (sha256_digest m) as (_ & H & Hb) end.
Qed.

(** ** The type of a packet is in its first octet *)

Definition segment_octet (packet : bytes) : bool := Z.land (nth 0 packet 0) 0xFE =? 0xFE.

Lemma segment_octet_first packet : bytes_ok packet -> segment_octet packet = true ->
  is_uncompressed_ip_payload packet = Ok false /\ starts_with 0x80 0 packet = false.
Proof.
  unfold segment_octet. intros Hb H. destruct packet as [|b l]; [done|]. cbn [nth] in H.
  pose proof Hb as [Hbb _]%bytes_ok_cons. unfold byte_ok in Hbb.
  assert (E : b = 254 \/ b = 255).
  { assert (F : forall x : nat, (x < 256)%nat -> (Z.land (Z.of_nat x) 0xFE =? 0xFE) = true -> x = 254%nat \/ x = 255%nat).
    { intros x Hx Ex. do 256 (destruct x as [|x]; [cbn in Ex; first [discriminate Ex|by left|by right]|]). lia. }
    destruct (F (Z.to_nat b)) as [E|E]; [lia|by rewrite Z2Nat.id by lia|lia|lia]. }
  split; [|destruct E as [->| ->]; reflexivity]. unfold is_uncompressed_ip_payload. rewrite blen_cons. pose proof (blen_nonneg l).
  rewrite (proj2 (Z.eqb_neq _ 0)) by lia. rewrite rd_nth by (rewrite blen_cons; lia). cbn [obind]. destruct E as [->| ->]; reflexivity.
Qed.

Lemma segment_type inp packet i add large p : bytes_ok packet -> parse_from_packet inp packet i add large = Ok p ->
  pr_packet p = packet /\ packet <> [] /\ (pr_type p = Segment <-> segment_octet packet = true).
Proof.
  intros Hb. unfold parse_from_packet. destruct (Z.eqb_spec (blen packet) 0) as [|Hne]; [done|]. cbn [negb oguard obind].
  pose proof (blen_nonneg packet). rewrite rd_nth by lia. cbn [obind].
  destruct (uncompressed_safe packet) as (u & Eu). rewrite Eu. cbn [obind]. cbv zeta. set (type := if u then _ else _).
  assert (Ht : type = Segment <-> segment_octet packet = true).
  { subst type. unfold segment_octet. split.
    - destruct u; [done|]. unfold detect_packet_type.
      change (Z.to_nat 0) with 0%nat. destruct (_ =? 0xFE); [done|].
      repeat lazymatch goal with |- (if ?b then _ else _) = _ -> _ => destruct b; [done|] end. done.
    - intros E. destruct (segment_octet_first packet Hb E) as [E1 _]. rewrite E1 in Eu. injection Eu as <-.
      change (Z.to_nat 0) with 0%nat. unfold detect_packet_type. by rewrite E. }
  clearbody type. destruct (if large && _ then _ else _) as [v| |]; cbn [obind]; [|done..].
  assert (Hn : packet <> []) by (by intros ->).
  destruct (_ || _).
  - destruct (negb _); cbn [oguard obind]; [|done]. destruct (rd packet _); cbn [obind]; [|done..].
    destruct (negb _); cbn [oguard obind]; [|done]. by intros [= <-].
  - destruct (negb (type_eqb type Unknown)); cbn [oguard obind]; [|done]. by intros [= <-].
Qed.

(** A packet behind its Add-CID octet, if it has one. *)
Definition body (inp : bytes) (large : bool) : bytes :=
  if negb large && (Z.land (nth 0 inp 0) 0xF0 =? 0xE0) then drop 1 inp else inp.

Lemma parse_segment_type inp large p : bytes_ok inp -> parse_rohc_packet inp large = Ok p ->
  pr_packet p = body inp large /\ pr_packet p <> [] /\ (pr_type p = Segment <-> segment_octet (body inp large) = true).
Proof.
  intros Hb. unfold parse_rohc_packet, body. destruct (Z.eqb_spec (blen inp) 0); cbn [negb oguard obind]; [done|].
  pose proof (blen_nonneg inp). rewrite rd_nth by lia. cbn [obind]. change (Z.to_nat 0) with 0%nat. destruct (_ && _).
  - destruct (negb _); cbn [oguard obind]; [|done]. destruct (tail_from inp 1) as [t| |] eqn:Et; cbn [obind]; [|done..].
    unfold tail_from in Et. destruct (_ || _); [done|]. injection Et as <-.
    intros E. apply segment_type in E as (-> & H1 & H2); [|by apply bytes_ok_drop]. exact (conj eq_refl (conj H1 H2)).
  - intros E. apply segment_type in E as (-> & H1 & H2); [|done]. exact (conj eq_refl (conj H1 H2)).
Qed.

Lemma body_suffix inp large : body inp large `suffix_of` inp.
Proof. unfold body. destruct (_ && _); [apply suffix_drop|done]. Qed.

(** A packet and the same packet without its check value start alike. *)
Lemma same_start front icv large p q : bytes_ok (front ++ icv) ->
  parse_rohc_packet (front ++ icv) large = Ok p -> parse_rohc_packet front large = Ok q ->
  pr_type p <> Segment -> pr_type q <> Segment.
Proof.
  intros Hb Ep Eq Hp Hq. apply Hp. pose proof Hb as [Hf _]%bytes_ok_app.
  apply (parse_segment_type _ _ _ Hb) in Ep as (_ & _ & Ep). apply (parse_segment_type _ _ _ Hf) in Eq as (Eb & Hne & Eq).
  apply Ep. apply Eq in Hq. rewrite Eb in Hne.
  assert (Hfr : front <> []) by (intros ->; apply Hne; clear; unfold body; destruct (_ && _); reflexivity).
  rewrite <- Hq. clear Eb Ep Eq. unfold body, segment_octet in *.
  destruct front as [|b front]; [done|]. cbn [app nth] in *.
  destruct (_ && _); [|done]. destruct front; [by destruct Hne|done].
Qed.

Section Enforced.
Context (k : bytes) (n : Z).
Hypotheses (Hk : bytes_ok k) (Hn : 0 < n <= 32).

Definition check_value (ip_packet : bytes) : bytes := take (Z.to_nat n) (hmac_sha256 k ip_packet).

(** HMAC-SHA-256 is in force, and [r] is what has been put together so far. *)
Definition in_force (r : bytes) (d : DecompImpl) : Prop :=
  dx_ipsec d = true /\ dx_algorithm d = HmacSha256 /\ dx_key d = k /\ dx_icv_len d = n /\ dx_reassembly d = r.

(** From a decompressor that enforces the check [m] answers only what [Q] says,
    and it is still enforced. *)
Definition keeps {A} (r : bytes) (m : M DecompImpl A) (Q : A -> Prop) : Prop :=
  forall d a d', in_force r d -> m d = (Ok a, d') -> Q a /\ in_force r d'.

Lemma keeps_weaken {A} r (m : M DecompImpl A) (P Q : A -> Prop) : (forall a, P a -> Q a) -> keeps r m P -> keeps r m Q.
Proof. intros H Hm d a d' Hd E. destruct (Hm d a d' Hd E). auto. Qed.

Lemma keeps_bind {A B} r (m : M DecompImpl A) (f : A -> M DecompImpl B) P Q :
  keeps r m P -> (forall a, P a -> keeps r (f a) Q) -> keeps r (bind m f) Q.
Proof.
  intros Hm Hf d b d' Hd E. unfold bind in E. destruct (m d) as [[a| |] d1] eqn:E1; [|done..].
  destruct (Hm d a d1 Hd E1) as [Ha Hd1]. by apply (Hf a Ha d1 b d').
Qed.

Lemma keeps_then {A B} r (m : M DecompImpl A) (f : A -> M DecompImpl B) Q :
  keeps r m (fun _ => True) -> (forall a, keeps r (f a) Q) -> keeps r (bind m f) Q.
Proof. intros Hm Hf. apply (keeps_bind r m f (fun _ => True)); auto. Qed.

Lemma keeps_ret {A} r (a : A) (Q : A -> Prop) : Q a -> keeps r (ret a) Q.
Proof. intros Ha d b d' Hd [= <- <-]. done. Qed.
Lemma keeps_gets {A} r (f : DecompImpl -> A) : keeps r (gets f) (fun _ => True).
Proof. intros d b d' Hd [= <- <-]. done. Qed.
Lemma keeps_lift {A} r (o : outcome A) (Q : A -> Prop) : (forall a, o = Ok a -> Q a) -> keeps r (lift o) Q.
Proof. intros H d b d' Hd [= -> <-]. auto. Qed.
Lemma keeps_modify r f Q : Q tt -> (forall d, in_force r d -> in_force r (f d)) -> keeps r (modify f) Q.
Proof. intros HQ H d b d' Hd [= <- <-]. auto. Qed.
Lemma keeps_guard r b : keeps r (guard b) (fun _ => True).
Proof. by apply keeps_lift. Qed.

Ltac keep := repeat first
  [ apply keeps_then; [|intros ?]
  | apply keeps_gets | apply keeps_guard
  | apply keeps_modify; [exact I|by intros ? ?]
  | apply keeps_lift; intros; exact I
  | lazymatch goal with |- keeps _ (match ?x with _ => _ end) _ => destruct x end ].

(** *** Feedback to send *)

Lemma keeps_feedback r i ty : keeps r (set_feedback i ty) (fun _ => True).
Proof. unfold set_feedback. keep. Qed.

(** A refusal answers nothing. *)
Lemma keeps_fail {A} r i (Q : A -> Prop) : keeps r (fail_with_feedback i) Q.
Proof. unfold fail_with_feedback. apply keeps_then; [apply keeps_feedback|]. intros _. by apply keeps_lift. Qed.

Lemma keeps_load r i : keeps r (load_ctx i) (fun _ => True).
Proof. unfold load_ctx. keep. Qed.
Lemma keeps_store r i c : keeps r (store_ctx i c) (fun _ => True).
Proof. unfold store_ctx. keep. Qed.

(** ** One packet, whose check value is [icv] *)

Section Packet.
Context (r : bytes) (large : bool) (cid_ : Z) (before : Context) (mode_before : Mode) (capacity : Z)
  (icv : bytes) (pending_ : option Feedback).
Hypotheses (Hicv : blen icv = n) (Hicvb : bytes_ok icv).

(** A packet with this check value. *)
Definition genuine (ip_packet : bytes) : Prop := icv = check_value ip_packet /\ blen ip_packet <= 4096.
Definition answer_ok (o : option bytes) : Prop := match o with Some ip_packet => genuine ip_packet | None => True end.

Lemma verify_genuine parsed ip : keeps r (verify_rohcoipsec_icv icv parsed ip) (fun _ => genuine ip).
Proof.
  intros d a d' Hd. pose proof Hd as (H1 & H2 & H3 & _). unfold verify_rohcoipsec_icv. erewrite bind_ok by reflexivity.
  rewrite H1, H2, H3, Hicv, (proj2 (Z.eqb_neq n 0)) by lia. cbn [negb orb]. unfold bind at 1, lift.
  match goal with |- context [attempt ?o] => destruct o as [[]| |] eqn:E end; cbn [attempt]; [| | |done].
  2-3: intros F; exact (keeps_fail r (pr_cid parsed) (fun _ => genuine ip) d a d' Hd F).
  intros [= <- <-]. split; [|done]. unfold genuine, check_value.
  destruct (compute_icv HmacSha256 k ip n) as [g| |] eqn:Eg; [|done..]. cbn [obind] in E.
  pose proof (computed_short k ip n g Eg) as Hl. split; [|exact Hl]. rewrite compute_icv_hmac in Eg by (done || lia). injection Eg as <-.
  pose proof (hmac_octets k ip) as [Hhl Hhb]. set (h := take (Z.to_nat n) (hmac_sha256 k ip)) in *.
  assert (Lh : length h = Z.to_nat n) by (subst h; rewrite length_take; unfold blen in Hhl; lia).
  unfold sha256_digest_len in E. rewrite overwrite_fits in E by (rewrite repeat_length; lia). cbn [obind] in E.
  rewrite constant_time_equal_spec in E.
  - injection E as E. apply bool_decide_eq_true in E. rewrite <- Lh, take_app_length in E. rewrite E. symmetry. apply take_ge.
    unfold blen in Hicv. lia.
  - apply bytes_ok_app. split; [by apply bytes_ok_take|]. apply bytes_ok_drop, List.Forall_forall. by intros x ->%repeat_spec.
  - done.
  - rewrite blen_app. unfold blen. rewrite length_drop, repeat_length. lia.
  - lia.
Qed.

Lemma keeps_refuse : keeps r (refuse (A := option bytes) cid_) answer_ok.
Proof. apply keeps_fail. Qed.
Lemma keeps_none : keeps r (ret None) answer_ok.
Proof. by apply keeps_ret. Qed.

Lemma keeps_deliver parsed c ip : keeps r (deliver cid_ icv parsed c ip) answer_ok.
Proof.
  unfold deliver. apply keeps_then; [apply keeps_store|intros _]. apply keeps_then; [keep|intros _].
  eapply keeps_bind; [apply verify_genuine|]. intros a H. by apply keeps_ret.
Qed.

Lemma keeps_deliver_or_refuse parsed o : keeps r (deliver_or_refuse cid_ icv parsed o) answer_ok.
Proof.
  unfold deliver_or_refuse. apply keeps_then; [apply keeps_lift; intros; exact I|]. intros [[c ip]|]; [apply keeps_deliver|apply keeps_refuse].
Qed.

Ltac part := repeat lazymatch goal with
  | |- keeps _ (ret None) _ => apply keeps_none
  | |- keeps _ (refuse _) _ => apply keeps_refuse
  | |- keeps _ (deliver _ _ _ _ _) _ => apply keeps_deliver
  | |- keeps _ (deliver_or_refuse _ _ _ _) _ => apply keeps_deliver_or_refuse
  | |- keeps _ (bind (load_ctx _) _) _ => apply keeps_then; [apply keeps_load|intros ?]
  | |- keeps _ (bind (store_ctx _ _) _) _ => apply keeps_then; [apply keeps_store|intros ?]
  | |- keeps _ (bind (lift _) _) _ => apply keeps_then; [apply keeps_lift; intros; exact I|intros ?]
  | |- keeps _ (match ?x with _ => _ end) _ => destruct x
  end.

Lemma keeps_uncompressed parsed : keeps r (uncompressed_packet cid_ before capacity icv parsed) answer_ok.
Proof.
  unfold uncompressed_packet. cbv zeta. part. eapply keeps_bind; [apply verify_genuine|]. intros ? H. by apply keeps_ret.
Qed.

Lemma keeps_uncompressed_ir parsed : keeps r (uncompressed_ir large cid_ capacity icv parsed) answer_ok.
Proof. unfold uncompressed_ir. cbv zeta. part. Qed.

Lemma keeps_rtp_crc7 parsed : keeps r (rtp_pt0_crc7 large cid_ before capacity icv parsed) answer_ok.
Proof. unfold rtp_pt0_crc7. part. Qed.
Lemma keeps_esp_crc7 parsed : keeps r (esp_pt0_crc7 large cid_ before capacity icv parsed) answer_ok.
Proof. unfold esp_pt0_crc7. part. Qed.
Lemma keeps_pt1 parsed : keeps r (pt1_seq_id large cid_ before capacity icv parsed) answer_ok.
Proof. unfold pt1_seq_id. part. Qed.

Lemma keeps_resolve_udp parsed formal private : keeps r (resolve_udp cid_ before capacity icv parsed formal private) answer_ok.
Proof. unfold resolve_udp. part. Qed.

Lemma keeps_udp_pt0 parsed staged : keeps r (udp_pt0 large cid_ before capacity icv parsed staged) answer_ok.
Proof.
  unfold udp_pt0. part. apply keeps_then; [|intros ?; apply keeps_resolve_udp]. keep; by apply keeps_ret.
Qed.
Lemma keeps_esp_pt0 parsed staged : keeps r (esp_pt0 large cid_ before capacity icv parsed staged) answer_ok.
Proof. unfold esp_pt0. part. Qed.
Lemma keeps_ip_pt0 parsed staged : keeps r (ip_pt0 large cid_ before capacity icv parsed staged) answer_ok.
Proof. unfold ip_pt0. part. Qed.
Lemma keeps_rtp_pt0 parsed staged : keeps r (rtp_pt0 large cid_ before capacity icv parsed staged) answer_ok.
Proof. unfold rtp_pt0. part. Qed.
Lemma keeps_receive parsed staged type prefer :
  keeps r (receive_packet large cid_ before mode_before capacity icv parsed staged type prefer) answer_ok.
Proof.
  unfold receive_packet. part. apply keeps_then; [keep|intros _; apply keeps_refuse].
Qed.

(** How a part ends, and what comes after it. *)
Lemma keeps_finish parsed m : keeps r m answer_ok -> keeps r (finish_decoding cid_ before mode_before pending_ parsed m) answer_ok.
Proof.
  intros Hm d a d' Hd. unfold finish_decoding. destruct (m d) as [[[ip|]| |] d1] eqn:E; intros F; [|injection F as <- <-; by apply (Hm d)|done..].
  destruct (Hm d (Some ip) d1 Hd E) as [Hip Hd1]. revert F.
  assert (K : keeps r (acknowledge_refresh cid_ pending_ parsed ;;; ret (Some ip)) answer_ok).
  { apply keeps_then; [|intros _; by apply keeps_ret]. unfold acknowledge_refresh.
    apply keeps_then; [keep|intros ?]. apply keeps_then; [apply keeps_load|intros ?]. keep. }
  by apply K.
Qed.

Lemma keeps_or_else m f : keeps r m answer_ok -> keeps r f answer_ok -> keeps r (or_else m f) answer_ok.
Proof. intros Hm Hf. unfold or_else. eapply keeps_bind; [exact Hm|]. intros [ip|] H; [by apply keeps_ret|exact Hf]. Qed.
End Packet.

(** ** Segments *)

(** What a call answers of the octets [inp]: the last of what was put together
    before and of these octets, or a part of them, are the packet's check value. *)
Definition proven (r inp ip_packet : bytes) : Prop :=
  blen ip_packet <= 4096 /\
  exists payload, payload `suffix_of` inp /\ check_value ip_packet `suffix_of` r ++ payload.

Definition delivers (r : bytes) (m : M DecompImpl (option bytes)) (Q : bytes -> Prop) : Prop :=
  forall d ip d', in_force r d -> m d = (Ok (Some ip), d') -> Q ip.

Lemma keeps_delivers r m Q : keeps r m (fun o => match o with Some ip => Q ip | None => True end) -> delivers r m Q.
Proof. intros H d ip d' Hd E. by destruct (H d (Some ip) d' Hd E). Qed.

Lemma delivers_bind {A} r (m : M DecompImpl A) f (P : A -> Prop) Q :
  keeps r m P -> (forall a, P a -> delivers r (f a) Q) -> delivers r (bind m f) Q.
Proof.
  intros Hm Hf d ip d' Hd E. unfold bind in E. destruct (m d) as [[a| |] d1] eqn:E1; [|done..].
  destruct (Hm d a d1 Hd E1) as [Ha Hd1]. by apply (Hf a Ha d1 ip d').
Qed.

Lemma delivers_or_else r m f Q : keeps r m (fun o => match o with Some ip => Q ip | None => True end) -> delivers r f Q ->
  delivers r (or_else m f) Q.
Proof.
  intros Hm Hf. unfold or_else. eapply delivers_bind; [exact Hm|]. intros [ip|] H; [|exact Hf].
  intros d ip' d' _ [= <- _]. exact H.
Qed.

Lemma proven_again r inp b payload ip : payload `suffix_of` inp -> b = r ++ payload \/ b = payload -> proven [] b ip -> proven r inp ip.
Proof.
  intros Hp Hb (Hl & p & Hs & Hc). cbn [app] in Hc. split; [exact Hl|]. exists payload. split; [done|].
  etransitivity; [exact Hc|]. etransitivity; [exact Hs|]. destruct Hb as [->| ->]; [done|]. by apply suffix_app_r.
Qed.

Lemma never_refused {A} i d (a : A) d' : refuse i d <> (Ok a, d').
Proof. unfold refuse, fail_with_feedback, set_feedback, bind, gets, lift. by destruct (acknowledging d i NACK). Qed.

Lemma never_forgotten {A} i d (a : A) d' : (forget_reassembly ;;; refuse i) d <> (Ok a, d').
Proof. erewrite bind_ok by reflexivity. apply never_refused. Qed.

Lemma reassembled r i parsed d b d' : in_force r d -> reassemble i parsed d = (Ok (Some b), d') ->
  in_force [] d' /\ exists payload, payload `suffix_of` pr_packet parsed /\ (b = r ++ payload \/ b = payload).
Proof.
  intros Hd. pose proof Hd as (_ & _ & _ & _ & Er). unfold reassemble. erewrite bind_ok by reflexivity.
  unfold bind at 1, lift. destruct (attempt (read_segment_header _)) as [[seg|]| |]; [|by intros ?%never_forgotten|done..].
  destruct (_ || _); [by intros ?%never_forgotten|]. unfold bind at 1. destruct (tail_from _ _) as [payload| |] eqn:Et; [|done..].
  assert (Hp : payload `suffix_of` pr_packet parsed).
  { unfold tail_from in Et. destruct (_ || _); [done|]. injection Et as <-. apply suffix_drop. }
  unfold bind at 1.
  assert (K : forall d1, in_force (dx_reassembly d1) d1 -> dx_reassembly d1 = r \/ dx_reassembly d1 = [] ->
    (d <- gets (fun d => d) ;;
     let next_len := blen (dx_reassembly d) + blen payload in
     if negb (sequence seg =? Z.land (dx_expected d) 0xFF) || (dx_mrru d <? next_len) || (segment_buffer_max <? next_len)
     then forget_reassembly ;;; refuse i
     else modify (fun d => d <| dx_reassembly := dx_reassembly d ++ payload |> <| dx_expected := u16 (dx_expected d + 1) |>) ;;;
       if negb (final seg) then ret None
       else d <- gets (fun d => d) ;;
            modify (fun d => d <| dx_active := false |> <| dx_reassembly := [] |> <| dx_expected := 0 |>) ;;;
            ret (Some (dx_reassembly d))) d1 = (Ok (Some b), d') ->
    in_force [] d' /\ exists payload, payload `suffix_of` pr_packet parsed /\ (b = r ++ payload \/ b = payload)).
  { intros d1 Hd1 He. erewrite bind_ok by reflexivity. cbv zeta. destruct (_ || _); [by intros ?%never_forgotten|]. erewrite bind_ok by reflexivity.
    destruct (negb (final seg)); [done|]. intros [= <- <-]. split; [by destruct Hd1 as (? & ? & ? & ? & _)|].
    exists payload. split; [done|]. cbn. destruct He as [->| ->]; [by left|by right]. }
  destruct (dx_active d); [apply K; [by rewrite Er|by left]|].
  destruct (negb (sequence seg =? 0)).
  { intros E. exfalso. destruct (refuse (A := unit) i d) as [[a| |] d1] eqn:E1; [by apply (never_refused i d a d1)|done..]. }
  apply K; [|by right]. by destruct Hd as (? & ? & ? & ? & _).
Qed.

(** ** The call *)

Lemma keeps_prefix r packet fuel : forall len, keeps r (feedback_prefix_len fuel packet len) (fun _ => True).
Proof.
  induction fuel as [|fuel IH]; intros len; cbn [feedback_prefix_len].
  - keep; first [by apply keeps_ret|by apply keeps_lift].
  - keep; first [by apply keeps_ret|apply IH|apply keeps_fail].
Qed.

(** What a packet is parsed to, and the check value that came with it. *)
Definition authenticated (packet : bytes) (a : ParsedRohcPacket * bytes) : Prop :=
  bytes_ok (snd a) /\
  (blen (snd a) = n /\ snd a `suffix_of` packet /\ pr_type (fst a) <> Segment \/
   snd a = [] /\ pr_packet (fst a) `suffix_of` packet /\ pr_type (fst a) = Segment /\
   starts_with 0x80 0 (pr_packet (fst a)) = false).

Lemma keeps_parse r packet : bytes_ok packet -> keeps r (parse_authenticated packet) (authenticated packet).
Proof.
  intros Hb d a d' Hd. pose proof Hd as (H1 & _ & _ & H4 & _). unfold parse_authenticated. erewrite bind_ok by reflexivity.
  unfold bind at 1, lift. destruct (parse_rohc_packet packet (dx_large d)) as [p| |] eqn:Ep; cbn [attempt];
    [|intros E; exact (keeps_fail r 0 _ d a d' Hd E)|done].
  destruct (parse_segment_type _ _ _ Hb Ep) as (Eb & Hne & Hseg).
  rewrite H1, H4, (proj2 (Z.ltb_lt 0 n)) by lia. cbn [andb]. rewrite andb_true_r.
  destruct (type_eqb (pr_type p) Segment) eqn:Et; cbn [negb].
  - unfold type_eqb in Et. apply bool_decide_eq_true in Et. intros [= <- <-]. split; [|done].
    split; [constructor|]. right. cbn [fst snd]. split_and!; [done|rewrite Eb; apply body_suffix|done|].
    rewrite Eb. apply segment_octet_first; [|by apply Hseg]. unfold body. destruct (_ && _); [by apply bytes_ok_drop|done].
  - unfold type_eqb in Et. apply bool_decide_eq_false in Et.
    destruct (_ || _) eqn:G; [intros E; exact (keeps_fail r _ _ d a d' Hd E)|]. cbv zeta. bool_prop. unfold sha256_digest_len in *.
    destruct (slice_in_range packet (blen packet - n) n) as (icv & E1 & L1 & B1); [lia..|].
    destruct (slice_in_range packet 0 (blen packet - n)) as (front & E2 & L2 & B2); [lia..|].
    rewrite E1. erewrite bind_ok by reflexivity. rewrite E2. erewrite bind_ok by reflexivity.
    assert (Es : packet = front ++ icv).
    { rewrite slice_eq in E1, E2 by lia. injection E1 as <-. injection E2 as <-. change (Z.to_nat 0) with 0%nat. rewrite drop_0.
      rewrite (take_ge (drop _ _)); [by rewrite take_drop|]. rewrite length_drop. unfold blen in *. lia. }
    unfold bind, lift. destruct (parse_rohc_packet front (dx_large d)) as [q| |] eqn:Eq; cbn [attempt];
      [|intros E; exact (keeps_fail r 0 _ d a d' Hd E)|done].
    intros [= <- <-]. split; [|done]. split; [by apply B1|]. left. cbn [fst snd]. split_and!; [done|rewrite Es; by apply suffix_app_r|].
    rewrite Es in Hb, Ep. exact (same_start front icv (dx_large d) p q Hb Ep Eq Et).
Qed.

(** The tables of contexts are no part of it. *)
Lemma disambiguate_packet d p : forall p' i ctx, disambiguate_cid d p = Ok (p', i, ctx) ->
  pr_packet p' = pr_packet p /\ pr_type p' = pr_type p.
Proof.
  intros p' i ctx. unfold disambiguate_cid. destruct (attempt (table_get (dx_table d) 0)) as [zero| |]; cbn [obind]; [|done..].
  cbv zeta. set (q := if _ : bool then with_cid 0 p else p).
  assert (Hq : pr_packet q = pr_packet p /\ pr_type q = pr_type p) by (subst q; by destruct (_ : bool)). clearbody q.
  destruct (attempt (table_get (dx_table d) (pr_cid q))) as [c| |]; cbn [obind]; [|done..].
  destruct (_ && _); [destruct zero as [z|]; [destruct (state_eqb _ _)|]|]; by intros [= <- _ _].
Qed.

Lemma settled_type large before p : pr_type p <> Segment -> pr_type (settle_type large before p) <> Segment.
Proof. unfold settle_type. by destruct (_ && _). Qed.

(** The parts of a call, and segments put together from [parsed] with [again]. *)
Lemma assembled r inp i parsed again : bytes_ok r -> bytes_ok inp -> pr_packet parsed `suffix_of` inp ->
  (forall b, bytes_ok b -> delivers [] (again b) (proven [] b)) ->
  delivers r (o <- reassemble i parsed ;; match o with Some p => again p | None => ret None end) (proven r inp).
Proof.
  intros Hrb Hib Hs Ha d ip d' Hd E. unfold bind in E. destruct (reassemble i parsed d) as [[[b|]| |] d1] eqn:Er; [|done..].
  destruct (reassembled r i parsed d b d1 Hd Er) as (Hd1 & payload & Hp & Hb).
  assert (Hpi : payload `suffix_of` inp) by (by etransitivity).
  apply (proven_again r inp b payload); [done..|]. apply (Ha b) with (d := d1) (d' := d'); [|done..].
  assert (bytes_ok payload) by (destruct Hpi as [pre ->]; by apply bytes_ok_app in Hib as [_ Hib]).
  destruct Hb as [->| ->]; [|done]. apply bytes_ok_app. by split.
Qed.

Lemma genuine_proven r inp icv o : icv `suffix_of` inp ->
  answer_ok icv o -> match o with Some ip => proven r inp ip | None => True end.
Proof.
  destruct o as [ip|]; [|done]. intros Hs [E Hl]. split; [exact Hl|]. rewrite E in Hs. exists inp. split; [done|]. by apply suffix_app_r.
Qed.

Lemma decode_proven r inp again large i before m capacity icv pending staged parsed :
  bytes_ok r -> bytes_ok inp -> authenticated inp (parsed, icv) ->
  (forall b, bytes_ok b -> delivers [] (again b) (proven [] b)) ->
  delivers r (decode_parsed again large i before m capacity icv pending staged parsed) (proven r inp).
Proof.
  intros Hrb Hib (Hb & [(Hl & Hs & Ht)|(E0 & Hs & Ht & H0)]) Ha; cbn [fst snd] in *; cycle 1.
  { intros d ip d' Hd E. rewrite decode_segment in E by done. by apply (assembled r inp i parsed again Hrb Hib Hs Ha d ip d' Hd). }
  assert (G : forall p mm, keeps r mm (answer_ok icv) ->
    keeps r (finish_decoding i before m pending p mm) (fun o => match o with Some ip => proven r inp ip | None => True end)).
  { intros p mm Hm. eapply keeps_weaken; [intros o; by apply (genuine_proven r inp icv o)|]. by apply keeps_finish. }
  unfold decode_parsed. apply delivers_or_else; [by apply G, keeps_uncompressed|].
  apply delivers_or_else; [by apply G, keeps_uncompressed_ir|]. apply settled_type with (large := large) (before := before) in Ht.
  set (p := settle_type large before parsed) in *. clearbody p. unfold settled_parts. cbv zeta.
  apply delivers_or_else; [by apply G, keeps_rtp_crc7|]. apply delivers_or_else; [by apply G, keeps_esp_crc7|].
  apply delivers_or_else; [by apply G, keeps_pt1|]. apply delivers_or_else; [by apply G, keeps_udp_pt0|].
  apply delivers_or_else; [by apply G, keeps_esp_pt0|]. apply delivers_or_else; [by apply G, keeps_ip_pt0|].
  apply delivers_or_else; [by apply G, keeps_rtp_pt0|].
  apply (delivers_bind r _ _ (fun _ => True)).
  { unfold resolve_overlap. keep; first [by apply keeps_ret|apply keeps_fail]. }
  intros formal _. set (type := if formal : bool then FO_RTP else pr_type p).
  assert (Hty : type <> Segment) by (subst type; by destruct formal).
  destruct (type_eqb type PktFeedback).
  - apply keeps_delivers. apply keeps_then; [apply keeps_lift; intros; exact I|]. intros [x|]; [by apply keeps_lift|apply keeps_fail].
  - replace (type_eqb type Segment) with false by (symmetry; by apply bool_decide_eq_false).
    apply keeps_delivers. by apply G, keeps_receive.
Qed.

Lemma call_proven r again inp capacity : bytes_ok r -> bytes_ok inp ->
  (forall b c, bytes_ok b -> delivers [] (again b c) (proven [] b)) ->
  delivers r (decompress_call again inp capacity) (proven r inp).
Proof.
  intros Hr Hb Ha. unfold decompress_call.
  apply (delivers_bind r _ _ (fun _ => True)); [apply keeps_guard|intros _ _].
  apply (delivers_bind r _ _ (fun _ => True)); [apply keeps_gets|intros d0 _]. cbv zeta.
  apply (delivers_bind r _ _ (fun _ => True)); [keep|intros _ _].
  apply (delivers_bind r _ _ (fun _ => True)); [apply keeps_prefix|intros len _].
  apply (delivers_bind r _ _ (fun _ => True)); [apply keeps_guard|intros _ _].
  apply (delivers_bind r _ _ (fun p => p `suffix_of` inp)).
  { apply keeps_lift. intros t. unfold tail_from. destruct (_ || _); [done|]. intros [= <-]. apply suffix_drop. }
  intros packet Hp. assert (Hpb : bytes_ok packet) by (destruct Hp as [pre ->]; by apply bytes_ok_app in Hb as [_ Hb]).
  apply (delivers_bind r _ _ (authenticated packet)); [by apply keeps_parse|]. intros [parsed icv] Hauth.
  apply (delivers_bind r _ _ (fun _ => True)); [apply keeps_gets|intros d _].
  apply (delivers_bind r _ _ (fun a => let '(p', _, _) := a in pr_packet p' = pr_packet parsed /\ pr_type p' = pr_type parsed)).
  { apply keeps_lift. intros [[p' i] ctx] E. by eapply disambiguate_packet. }
  intros [[p' i] [before|]] [E1 E2]; [|apply keeps_delivers, keeps_fail].
  apply (delivers_bind r _ _ (fun _ => True)); [apply keeps_store|intros _ _].
  intros s ip s' Hs E. destruct (decode_proven r packet _ _ i before _ _ icv _ _ p' Hr Hpb ltac:(unfold authenticated; cbn [fst snd]; rewrite E1, E2; exact Hauth)
    (fun b Hbb => Ha b _ Hbb) s ip s' Hs E) as (Hl & payload & H1 & H2).
  split; [exact Hl|]. exists payload. split; [by etransitivity|done].
Qed.

Lemma decompress_proven fuel : forall r inp capacity, bytes_ok r -> bytes_ok inp ->
  delivers r (rohc_decompress4 fuel inp capacity) (proven r inp).
Proof.
  induction fuel as [|fuel IH]; intros r inp capacity Hr Hb; cbn [rohc_decompress4]; apply call_proven; try done.
  intros b c Hbb. apply IH; [constructor|done].
Qed.

Lemma proven_part r inp part ip : part `suffix_of` inp -> proven r part ip -> proven r inp ip.
Proof. intros Hs (Hl & payload & Hp & Hc). split; [done|]. exists payload. split; [by etransitivity|done]. Qed.

(** A context synchronisation packet holds the packet it hands on. *)
Lemma csp_part p csp : read_context_synchronization_packet p = Ok csp -> rohc_header csp `suffix_of` p.
Proof.
  unfold read_context_synchronization_packet. destruct (negb (_ <? 3)); cbn [oguard obind]; [|done].
  destruct (rd p 0); cbn [obind]; [|done..]. destruct (_ =? _); cbn [oguard obind]; [|done].
  destruct (rd_u16 p 1); cbn [obind]; [|done..]. destruct (tail_from p 3) as [t| |] eqn:Et; cbn [obind]; [|done..].
  intros [= <-]. unfold tail_from in Et. destruct (_ || _); [done|]. injection Et as <-. apply suffix_drop.
Qed.

Lemma csp_proven fuel r inp capacity : bytes_ok r -> bytes_ok inp ->
  delivers r (rohc_decomp_rfc4362_receive_csp fuel inp capacity) (proven r inp).
Proof.
  intros Hr Hb. unfold rohc_decomp_rfc4362_receive_csp.
  apply (delivers_bind r _ _ (fun _ => True)); [apply keeps_gets|intros d0 _].
  apply (delivers_bind r _ _ (fun _ => True)); [apply keeps_guard|intros _ _].
  apply (delivers_bind r _ _ (fun o => match o with Some csp => rohc_header csp `suffix_of` inp | None => True end)).
  { apply keeps_lift. intros o. destruct (read_context_synchronization_packet inp) as [csp| |] eqn:E; cbn [obind attempt]; [| |done].
    - destruct (negb _); cbn [oguard obind attempt]; intros [= <-]; [by apply csp_part|done].
    - by intros [= <-]. }
  intros [csp|] Hs; [|apply keeps_delivers, keeps_fail]. intros d ip d' Hd E.
  apply (proven_part r inp (rohc_header csp)); [done|].
  apply (decompress_proven fuel r (rohc_header csp) capacity Hr) with (d := d) (d' := d'); [|done..].
  destruct Hs as [pre ->]. by apply bytes_ok_app in Hb as [_ Hb].
Qed.
End Enforced.

(** ** The configuration stays *)

Definition config (d : DecompImpl) : bool * Z * bytes * Z := (dx_ipsec d, dx_algorithm d, dx_key d, dx_icv_len d).

(** Whatever [m] answers, it does not touch the integrity configured. *)
Definition frames {A} (m : M DecompImpl A) : Prop := forall d, config (snd (m d)) = config d.

Lemma frames_bind {A B} (m : M DecompImpl A) (f : A -> M DecompImpl B) : frames m -> (forall a, frames (f a)) -> frames (bind m f).
Proof. intros Hm Hf d. unfold bind. pose proof (Hm d) as E. destruct (m d) as [[a| |] d1]; cbn in *; [|done..]. by rewrite Hf. Qed.

Lemma frames_same {A} (m : M DecompImpl A) : (forall d, snd (m d) = d) -> frames m.
Proof. intros H d. by rewrite H. Qed.

Ltac framed := repeat lazymatch goal with
  | |- frames (bind _ _) => apply frames_bind; [|intros ?]
  | |- frames (modify _) => intros ?; reflexivity
  | |- frames (match ?x with _ => _ end) => destruct x
  | |- frames (set_feedback _ _) => unfold set_feedback
  | |- frames (fail_with_feedback _) => unfold fail_with_feedback
  | |- frames (refuse _) => unfold refuse
  | |- frames (load_ctx _) => unfold load_ctx
  | |- frames (store_ctx _ _) => unfold store_ctx
  | |- frames (verify_rohcoipsec_icv _ _ _) => unfold verify_rohcoipsec_icv
  | |- frames (deliver _ _ _ _ _) => unfold deliver
  | |- frames (deliver_or_refuse _ _ _ _) => unfold deliver_or_refuse
  | |- frames (resolve_udp _ _ _ _ _ _ _) => unfold resolve_udp
  | |- frames _ => apply frames_same; intros ?; reflexivity
  end.

Lemma frames_finish i before m p parsed mm : frames mm -> frames (finish_decoding i before m p parsed mm).
Proof.
  intros Hm d. unfold finish_decoding. pose proof (Hm d) as E. destruct (mm d) as [[[ip|]| |] d1]; cbn [snd] in *; [|done..].
  rewrite <- E. assert (F : frames (acknowledge_refresh i p parsed ;;; ret (Some ip))) by (unfold acknowledge_refresh; framed). apply F.
Qed.

Lemma frames_or_else m f : frames m -> frames f -> frames (or_else m f).
Proof. intros Hm Hf. unfold or_else. framed; done. Qed.

Lemma frames_parts again large i before m capacity icv pending staged parsed : (forall b, frames (again b)) ->
  frames (decode_parsed again large i before m capacity icv pending staged parsed).
Proof.
  intros Ha. unfold decode_parsed, settled_parts. cbv zeta.
  repeat (apply frames_or_else; [apply frames_finish|]).
  - unfold uncompressed_packet; cbv zeta; framed.
  - unfold uncompressed_ir; cbv zeta; framed.
  - unfold rtp_pt0_crc7; framed.
  - unfold esp_pt0_crc7; framed.
  - unfold pt1_seq_id; framed.
  - unfold udp_pt0; framed.
  - unfold esp_pt0; framed.
  - unfold ip_pt0; framed.
  - unfold rtp_pt0; framed.
  - unfold resolve_overlap, reassemble, forget_reassembly. framed; try apply Ha.
    apply frames_finish. unfold receive_packet. framed.
Qed.

Lemma frames_prefix packet fuel : forall len, frames (feedback_prefix_len fuel packet len).
Proof. induction fuel as [|fuel IH]; intros len; cbn [feedback_prefix_len]; framed. apply IH. Qed.

Lemma frames_call again inp capacity : (forall b c, frames (again b c)) -> frames (decompress_call again inp capacity).
Proof.
  intros Ha. unfold decompress_call, parse_authenticated. apply frames_bind; [framed|intros _].
  apply frames_bind; [framed|intros d]. cbv zeta. apply frames_bind; [framed|intros _].
  apply frames_bind; [apply frames_prefix|intros len]. framed. apply frames_parts. intros b. apply Ha.
Qed.

Lemma frames_decompress fuel : forall inp capacity, frames (rohc_decompress4 fuel inp capacity).
Proof.
  induction fuel as [|fuel IH]; intros inp capacity; cbn [rohc_decompress4]; apply frames_call; intros b c; [framed|apply IH].
Qed.

(** The calls that set up the check of packets anew. *)
Definition leaves_integrity (k : decomp_call) : Prop :=
  match k with DSetIntegrity _ _ _ | DEnableRohcoipsec => False | _ => True end.

Lemma frames_discard {A} (m : M DecompImpl A) : frames m -> frames (discard m).
Proof. intros H. unfold discard. by framed. Qed.

Lemma frames_apply k : leaves_integrity k -> frames (decomp_apply k).
Proof.
  destruct k; cbn [leaves_integrity decomp_apply]; intros Hk; try done;
    lazymatch goal with |- frames (discard _) => apply frames_discard | _ => idtac end.
  - unfold rohc_decomp_set_mode. framed.
  - unfold rohc_decomp_set_mrru. framed.
  - apply frames_decompress.
  - unfold rohc_decomp_enable_rfc4362_lla. framed.
  - unfold rohc_decomp_rfc4362_receive_nhp_for_cid. cbv zeta. framed.
  - unfold rohc_decomp_rfc4362_receive_csp. framed. apply frames_decompress.
  - unfold rohc_decomp_rfc4362_receive_ccp_for_cid. framed.
  - unfold rohc_decomp_rfc4362_report_loss. framed.
  - unfold rohc_decomp_rfc4362_report_residual_error. framed.
Qed.

Lemma calls_config calls : Forall leaves_integrity calls -> forall d, config (decomp_calls calls d) = config d.
Proof.
  induction calls as [|k calls IH]; intros Hc d; [done|]. apply List.Forall_cons_iff in Hc as [Hk Hc].
  etransitivity; [by apply IH|by apply frames_apply].
Qed.

Lemma decomp_apply_sa_ok sa d : sa_ok sa -> decomp_ok d ->
  wp (rohc_decomp_apply_rohcoipsec_sa sa) (fun _ => decomp_ok) decomp_ok d.
Proof.
  intros Hsa Hd. unfold rohc_decomp_apply_rohcoipsec_sa. destruct (key_of_held sa Hsa) as [-> _]. wp_step. apply wp_lift. wp_step.
  eapply wp_mono; [|done|apply decomp_set_integrity_ok; [exact Hd|by apply bytes_ok_take, Hsa|]].
  - intros u d1 Hd1. wp_step; [|by wp_step]. unfold rohc_decomp_set_mrru. wp_step. wp_step; [|done]. by wp_step.
  - destruct Hsa as (_ & _ & _ & [[_ ->]|(_ & ? & _)]); lia.
Qed.

(** C5: where a check value travels, no forged packet is delivered.  Once a
    security association with HMAC-SHA-256 is applied to a decompressor, and
    whatever calls were made of its handle since, short of configuring the
    integrity anew, each packet that [rohc_decompress4] or
    [rohc_decomp_rfc4362_receive_csp] delivers - in one piece or put together of
    segments, and by any of the ways to read it - is one whose check value under
    the association's key are the last octets that arrived: those of the call,
    behind the segments kept before it.  Neither delivers a packet of more than
    4096 octets.  The third call that delivers packets, that of a packet without
    a header, has no room for a check value and makes no check. *)
Theorem integrity_enforced fuel sa d d0 calls arrived capacity ip_packet :
  sa_ok sa -> sa_algorithm sa = HmacSha256 -> decomp_ok d -> rohc_decomp_apply_rohcoipsec_sa sa d = (Ok tt, d0) ->
  Forall decomp_call_ok calls -> Forall leaves_integrity calls -> bytes_ok arrived ->
  let d1 := decomp_calls calls d0 in
  fst (rohc_decompress4 fuel arrived capacity d1) = Ok (Some ip_packet) \/
  fst (rohc_decomp_rfc4362_receive_csp fuel arrived capacity d1) = Ok (Some ip_packet) ->
  blen ip_packet <= 4096 /\
  exists octets, octets `suffix_of` arrived /\
    take (Z.to_nat (sa_icv_len sa)) (hmac_sha256 (key_held sa) ip_packet) `suffix_of` dx_reassembly d1 ++ octets.
Proof.
  intros Hsa Ha Hd E Hcs Hli Hb d1 E2. destruct (decomp_apply_run sa d Hsa) as (d0' & (U1 & U2 & U3 & U4) & E').
  rewrite E in E'. assert (d0' = d0) as -> by congruence.
  assert (Hk : bytes_ok (key_held sa)) by (apply bytes_ok_take, Hsa).
  assert (Hn : 0 < sa_icv_len sa <= 32).
  { destruct Hsa as (_ & _ & _ & [[Hnone _]|(_ & ? & _)]); [|done]. rewrite Hnone in Ha. discriminate Ha. }
  assert (Hd1 : decomp_ok d1).
  { apply decomp_calls_ok; [|done]. pose proof (decomp_apply_sa_ok sa d Hsa Hd) as W. unfold wp in W. by rewrite E in W. }
  pose proof (calls_config calls Hli d0) as Ec. fold d1 in Ec. unfold config in Ec. rewrite U1, U2, U3, U4, Ha in Ec.
  injection Ec as V1 V2 V3 V4.
  assert (Hf : in_force (key_held sa) (sa_icv_len sa) (dx_reassembly d1) d1) by done.
  pose proof (proj1 (proj1 (proj2 Hd1))) as Hr. destruct E2 as [E2|E2].
  - apply (decompress_proven _ _ Hk Hn fuel _ arrived capacity Hr Hb d1 ip_packet (snd (rohc_decompress4 fuel arrived capacity d1)) Hf).
    by rewrite (surjective_pairing (rohc_decompress4 fuel arrived capacity d1)), E2.
  - apply (csp_proven _ _ Hk Hn fuel _ arrived capacity Hr Hb d1 ip_packet (snd (rohc_decomp_rfc4362_receive_csp fuel arrived capacity d1)) Hf).
    by rewrite (surjective_pairing (rohc_decomp_rfc4362_receive_csp fuel arrived capacity d1)), E2.
Qed.

(** A datagram under the association of [sample_cchannel], after a packet
    without a check value. *)
Definition sample_sa : Sa := sa_for sample_cchannel HmacSha256 [1; 2; 3] 9 1.

Definition sealed_packet : bytes :=
  match (rohc_comp_apply_rohcoipsec_sa sample_sa ;;; rohc_compress4 sample_packet 1500) (sender 3) with
  | (Ok packet, _) => packet
  | _ => []
  end.

Definition sealing_decomp : DecompImpl := snd (rohc_decomp_apply_rohcoipsec_sa sample_sa (receiver 3)).

(** After a packet without a check value, which is refused, and a loss reported. *)
Definition before_calls : list decomp_call := [Decompress 2048 sample_ir 1500; ReportLoss 1].

Lemma integrity_enforced_witness :
  fst (rohc_decompress4 2048 sample_ir 1500 sealing_decomp) = Rej /\
  fst (rohc_decompress4 2048 sealed_packet 1500 (decomp_calls before_calls sealing_decomp)) = Ok (Some sample_packet) /\
  blen sample_packet <= 4096 /\
  exists octets, octets `suffix_of` sealed_packet /\
    take 12 (hmac_sha256 [1; 2; 3] sample_packet) `suffix_of` octets.
Proof.
  split; [by vm_compute|]. split; [by vm_compute|].
  refine (integrity_enforced 2048 sample_sa (receiver 3) sealing_decomp before_calls sealed_packet 1500 sample_packet
    _ _ receiver_ok _ _ _ _ _).
  - unfold sa_ok. split_and!; try (by vm_compute); [apply bytes_ok_by; reflexivity|]. right. by vm_compute.
  - reflexivity.
  - vm_compute. reflexivity.
  - unfold before_calls. apply List.Forall_cons; [|apply List.Forall_cons; [done|apply List.Forall_nil]].
    split; [by apply bytes_ok_by|]. split; [by vm_compute|lia].
  - by repeat constructor.
  - by apply bytes_ok_by.
  - left. by vm_compute.
Defined.

(** ** The packets without a header *)

Definition lla_ready_decomp : DecompImpl :=
  let contract := Build_AssistingLayerContract true true true true true true true true true true true in
  let flow := Build_ZeroByteFlow true true true true true in
  match (rohc_comp_apply_rohcoipsec_sa sample_sa ;;; rohc_compress4 plain_rtp 1500) (sender 3) with
  | (Ok packet, _) => decomp_calls [DEnableLla contract flow; Decompress 2048 packet 1500] sealing_decomp
  | _ => sealing_decomp
  end.

(** With HMAC-SHA-256 in force a payload from anyone is delivered as the next
    packet of the flow. *)
Example header_free_unchecked :
  config lla_ready_decomp = (true, HmacSha256, [1; 2; 3], 12) /\
  fst (rohc_decomp_rfc4362_receive_nhp_for_cid 1 [66; 6; 6] 1500 lla_ready_decomp) = Ok (
    [69; 0; 0; 43; 0; 7; 64; 0; 64; 17; 38; 185; 10; 0; 0; 1; 10; 0; 0; 2; 19; 140; 19; 142; 0; 23; 146; 52;
     128; 0; 0; 101; 0; 0; 63; 32; 0; 0; 202; 254; 66; 6; 6]).
Proof. vm_compute. repeat split. Qed.
